(* ===== verification/_CoqProject ===== *)
-Q . S2P
Prelude.v
Mmu.v
Spinlock.v
Kalloc.v
Strings.v
Proc.v
ProcInv.v
Sched.v
ProcSpec.v
SchedSpec.v
Ring.v
Pipe.v
Vm.v
VmSpec.v
Sleeplock.v
Bio.v
BioSpec.v
Layout.v
Log.v
LogSpec.v
LogAtomic.v
LogWitness.v
Store.v
StoreLog.v
Fs.v
FsLogic.v
FsAlloc.v
FsFile.v
FsInode.v
FsIO.v
FsWrite.v
FsDir.v
FsCache.v
FsPath.v
FsSpec.v
File.v
FileTable.v
FileSpec.v
FsWitness.v
Syscall.v
Sysproc.v
SyscallSpec.v
Trap.v
TrapSpec.v
Sysfile.v
SysfileSpec.v
Ide.v
Printf.v
Umalloc.v
UmallocSpec.v
Kbd.v
Console.v
ConsoleSpec.v
Grep.v
Sh.v
ShGrammar.v
ShParse.v
ShRun.v
Exec.v
ExecSpec.v
Mkfs.v
MkfsBuild.v
MkfsSpec.v
Mp.v
Apic.v
Boot.v
User.v
UserSpec.v
Machine.v
Init.v
