(* ===== verification/Prelude.v ===== *)
(** * A verification development for xv6-enhanced

    xv6-enhanced is a small Unix-like kernel for x86 multiprocessors in C, with its boot
    loader, its user programs and the tool that builds its disk.  This library
    models them as Rocq functions, one per C function and with its name where
    possible, and proves that they do what they are for.  Paths are relative to src/.

    ** The language of the model

    [Prelude] has the machine integers ([u8] to [s32], explicit wrap-around), record
    update, and the kernel monad [M S A]: a computation on the state [S] that ends
    with a result, a panic, a sleep ([Blocked]), a switch of the process
    ([Switched]), undefined behaviour of C ([Undef]: an access outside an array or
    object), or the end of its fuel ([NoFuel]).  The context carries the spinlocks held
    and the trace of visible effects (disk writes, wakeups, messages, dispatches).  A
    thread's view of acquire() and release() is here too: taking a lock that is
    held, or releasing one that is not, panics as in the source.  [zoom] runs the
    operations of a component on its part of a larger state.  A pointer to an element
    of a table is an index, other pointers are addresses; the null pointer is [None]
    or 0.

    A component that calls another does so through a class of operations, with a
    class of laws that the theorems assume and the other component's file proves:
    [DiskDriver]/[DriverOk] (bio.c above ide.c and memide.c), [BlockCache] (log.c
    above bio.c), [BlockStore]/[BlockStoreOk] (fs.c above log.c), [KernelOps] (proc.c
    above memory and files), [UserOps] (system calls above user memory), [FileEnv]
    (sysfile.c and exec.c above the open files), [IrqOps] (trap.c above the drivers),
    [Sbrk], [Malloc], [Sys] and [ProcSys] (user programs above the kernel).  Hardware is
    a class as well, with the documented behaviour the code relies on as laws and
    an instance that has it: [Ports], [Mmio], [Insl], [IdeCtl]/[IdeCtlOk], [ScreenOk],
    [RtcOk], [IoapicOk], [AtaOk].

    ** The parts

    Processors and memory.
    - [Spinlock] (spinlock.c; mycpu(), cpuid() and myproc() of proc.c): mutual exclusion
      for the single memory accesses of acquire() and release() under every
      interleaving, and the refinement of the thread's view by the machine's.
    - [Mmu] (mmu.h, memlayout.h, param.h), [Kalloc] (kalloc.c): every free page is given
      out once.  [Vm], [VmSpec] (vm.c): allocuvm(), mappages(), deallocuvm() and
      copyout() change exactly the translations and bytes they should.
    - [Machine] (seginit(), idtinit(), entrypgdir, the descriptors of mmu.h): what the
      processor makes of the tables.
    - [Strings] (string.c, ulib.c).

    Processes.
    - [Proc], [ProcInv], [ProcSpec] (proc.c): the operations on the process table, the
      invariant they keep, and what fork(), exit(), wait(), sleep() and wakeup() do.
    - [Sched], [SchedSpec] (scheduler() and ageing() of proc.c): the four policies.
      What a process does while it runs is the parameter [run].
    - [Syscall], [Sysproc], [SyscallSpec] (syscall.c, sysproc.c): the arguments the kernel
      accepts.  [Trap], [TrapSpec] (trap.c): dispatch of traps and the accounting of
      the clock tick.
    - [Exec], [ExecSpec] (exec.c, loaduvm()): exec() replaces the program in full or
      leaves the process as it was, and the new stack is what main() expects.
    - [Ring], [Pipe] (pipe.c): a pipe is a first-in first-out queue of bytes whatever
      the other end does while the caller sleeps.

    Disk and files, from the bottom.
    - [Ide] (ide.c): requests are served in order under every interleaving with
      interrupts, and the driver keeps the contract of the buffer cache.
    - [Sleeplock] (sleeplock.c), [Bio], [BioSpec] (bio.c, memide.c): the cache
      implements an abstract one; a block is read as it was last written.
    - [Layout], [Log], [LogSpec], [LogAtomic], [LogWitness] (log.c): a crash between any
      two disk writes of a commit or of a recovery leaves all or nothing of the
      transaction.  [Store], [StoreLog]: the log implements the block store.
    - [Fs] (fs.c), with the program logic [FsLogic] and the files [FsAlloc] (balloc),
      [FsFile], [FsIO], [FsWrite] (bmap, readi, writei), [FsInode] (iupdate), [FsDir]
      (directories), [FsCache] (iget to iput), [FsPath] (namex); [FsSpec] has the
      theorems: reading returns what was written, a linked name is found, a path
      leads where the tree says.  [FsWitness] is a small disk for the examples.
    - [File], [FileTable], [FileSpec] (file.c): reference counts are the numbers of
      holders; filewrite() with a crash at any point leaves a whole number of its
      pieces.  [Sysfile], [SysfileSpec] (sysfile.c).
    - [Mkfs], [MkfsBuild], [MkfsSpec] (mkfs.c): the image mkfs builds is a file system as
      the theorems on fs.c assume it, with the files it was given.

    Devices and start-up.
    - [Kbd] (kbd.c), [Console], [ConsoleSpec] (console.c, uart.c): line editing and
      reading of lines.
    - [Mp] (mp.c): the processors recorded from the configuration table.  [Apic]
      (lapic.c, ioapic.c, picirq.c): routing of interrupts, the clock.  [Boot]
      (bootmain.c): the kernel is loaded where its program headers say.

    User programs.
    - [Sh] (sh.c), [ShGrammar], [ShParse], [ShRun]: the parser implements its grammar and
      a session starts the programs the lines name, connected as they say.
    - [Printf] (printf.c), [Umalloc], [UmallocSpec] (umalloc.c), [Grep] (grep.c).
    - [User], [UserSpec] (cat, wc, echo, ls, rm, ln, mkdir, kill, setPriority, ps, test),
      [Init] (init, time, zombie, forktest, stressfs): cat and wc on a stream in any
      pieces, and init that starts a new shell when one ends.

    ** Fuel and bounds

    A loop over a table or a list is structural recursion.  A loop the source does not
    bound has fuel, and a theorem about it states how much is enough: the length
    of the data (strings, directory entries, the bytes left to read or write, the
    text typed at the shell), the number of pages of the range for the loops of vm.c,
    the number of headers in memory for malloc() and free(); 500 steps are enough
    to parse a line of the 100 bytes the shell reads.  Where code waits for a
    device, the law of the device bounds the wait; where it waits for another
    process, the model stops with [Blocked] or is given what the others do.  A
    theorem that says the fuel runs out whatever it is ([mpinit_unknown_entry]) says
    that the code does not end.  Table sizes are those of param.h.

    ** Not modelled

    - main.c but for entrypgdir: main(), mpenter() and mpmain() only call the
      initialisations in order, on the states of all components at once.
      startothers() hands a stack to another processor through memory.
    - The assembly (bootasm.S, entry.S, entryother.S, initcode.S, swtch.S, trapasm.S,
      usys.S) and the generated vectors.S: what C relies on of them is a parameter.
    - usertests.c and benchmark.c, which exercise the system calls and have no
      result of their own.
    - procbad.c and timeok.c, which are not part of the build.
    - defs.h, user.h, types.h: declarations only.
    - Apart from the lock words in [Spinlock], threads interleave at the points where
      the code sleeps or switches; inside a critical section the code runs alone, as the
      theorem on mutual exclusion justifies.  The memory model of the
      processor and the contents of the kernel stack are not modelled. *)

From stdpp Require Import prelude gmap strings list.
From Stdlib Require Import ZArith Lia.

#[global] Open Scope Z_scope.

Declare Scope xv6_scope.
Delimit Scope xv6_scope with xv6.
#[global] Open Scope xv6_scope.

(** ** Machine integers

    A C [uint] is a [Z] reduced modulo [2^32], an [int] the representative in
    [-2^31, 2^31).  gcc compiles the kernel for i386, where a signed overflow
    wraps. *)

Definition u8 (z : Z) : Z := z mod 2 ^ 8.
Definition u16 (z : Z) : Z := z mod 2 ^ 16.
Definition u32 (z : Z) : Z := z mod 2 ^ 32.
Definition s8 (z : Z) : Z := (z + 2 ^ 7) mod 2 ^ 8 - 2 ^ 7.
Definition s16 (z : Z) : Z := (z + 2 ^ 15) mod 2 ^ 16 - 2 ^ 15.
Definition s32 (z : Z) : Z := (z + 2 ^ 31) mod 2 ^ 32 - 2 ^ 31.

Create HintDb xv6.
Create Rewrite HintDb xv6_int.

Lemma u32_range z : 0 <= u32 z < 2 ^ 32.
Proof. apply Z.mod_pos_bound. lia. Qed.

Lemma u32_small z : 0 <= z < 2 ^ 32 -> u32 z = z.
Proof. apply Z.mod_small. Qed.

Lemma u32_idemp z : u32 (u32 z) = u32 z.
Proof. apply u32_small, u32_range. Qed.

Lemma u32_add_l a b : u32 (u32 a + b) = u32 (a + b).
Proof. apply Zplus_mod_idemp_l. Qed.

Lemma u32_add_r a b : u32 (a + u32 b) = u32 (a + b).
Proof. apply Zplus_mod_idemp_r. Qed.

Lemma u32_sub_l a b : u32 (u32 a - b) = u32 (a - b).
Proof. apply Zminus_mod_idemp_l. Qed.

Lemma u32_sub_r a b : u32 (a - u32 b) = u32 (a - b).
Proof. apply Zminus_mod_idemp_r. Qed.

Lemma u8_range z : 0 <= u8 z < 256.
Proof. apply (Z.mod_pos_bound z 256). lia. Qed.

Lemma u8_small z : 0 <= z < 256 -> u8 z = z.
Proof. apply Z.mod_small. Qed.

Lemma s32_range z : - 2 ^ 31 <= s32 z < 2 ^ 31.
Proof.
  unfold s32. pose proof (Z.mod_pos_bound (z + 2 ^ 31) (2 ^ 32)). lia.
Qed.

Lemma s32_small z : - 2 ^ 31 <= z < 2 ^ 31 -> s32 z = z.
Proof. intros H. unfold s32. rewrite Z.mod_small; lia. Qed.

(** A field put beside the bits above it. *)
Lemma lor_shiftl a b n : 0 <= n -> 0 <= b < 2 ^ n -> Z.lor (Z.shiftl a n) b = a * 2 ^ n + b.
Proof.
  intros Hn Hb. assert (Hl : Z.land (Z.shiftl a n) b = 0).
  { apply Z.bits_inj'. intros k Hk. rewrite Z.land_spec, Z.bits_0. destruct (Z.lt_ge_cases k n) as [Hlt|Hge].
    - by rewrite Z.shiftl_spec_low.
    - rewrite <- (Z.mod_small b (2 ^ n)), (Z.mod_pow2_bits_high b) by lia. apply andb_false_r. }
  by rewrite <- Z.lxor_lor, <- Z.add_nocarry_lxor, Z.shiftl_mul_pow2.
Qed.

#[export] Hint Rewrite u32_idemp u32_add_l u32_add_r u32_sub_l u32_sub_r
  : xv6_int.
#[export] Hint Resolve u32_range u8_range s32_range : xv6.

(** ** Record update

    [r <| f := v |>] is the C assignment [r.f = v].  A record takes part once
    it has a [Settable] instance listing its projections. *)

Class Settable (R : Type) := rebuild : R -> R.

Class Setter {R E : Type} (proj : R -> E) := update : (E -> E) -> R -> R.
Arguments update {R E} proj {Setter} _ _ /.

Ltac find_setter R proj :=
  let inst := constr:(_ : Settable R) in
  let body := eval hnf in inst in
  match eval pattern proj in body with
  | ?with_proj _ =>
      let res := eval cbv beta in (fun g => with_proj (fun r => g (proj r))) in
      exact res
  end.

#[export] Hint Extern 1 (@Setter ?R _ ?proj) => find_setter R proj
  : typeclass_instances.

Notation "r <| proj := v |>" := (update proj (fun _ => v) r)
  (at level 1, proj at level 9, v at level 200, left associativity) : xv6_scope.
Notation "r <| proj ::= f |>" := (update proj f r)
  (at level 1, proj at level 9, f at level 200, left associativity) : xv6_scope.

(** ** Arrays

    A fixed-size C array is a list.  Access outside it is undefined behaviour,
    which the models report as [None] here and as [Undef] in the monad. *)

Definition aget {A} (l : list A) (i : Z) : option A :=
  if i <? 0 then None else l !! Z.to_nat i.

Definition aset {A} (l : list A) (i : Z) (x : A) : option (list A) :=
  if (0 <=? i) && (i <? Z.of_nat (length l))
  then Some (<[Z.to_nat i := x]> l) else None.

Lemma aget_nat {A} (l : list A) (n : nat) : aget l (Z.of_nat n) = l !! n.
Proof.
  unfold aget. destruct (Z.ltb_spec (Z.of_nat n) 0); [lia|].
  by rewrite Nat2Z.id.
Qed.

Lemma aget_Some_range {A} (l : list A) i x :
  aget l i = Some x -> 0 <= i < Z.of_nat (length l).
Proof.
  unfold aget. destruct (Z.ltb_spec i 0); [done|].
  intros Hl%lookup_lt_Some. lia.
Qed.

Lemma aset_in {A} (l : list A) i x :
  0 <= i < Z.of_nat (length l) -> aset l i x = Some (<[Z.to_nat i := x]> l).
Proof.
  intros [H1 H2]. unfold aset.
  by rewrite (proj2 (Z.leb_le _ _) H1), (proj2 (Z.ltb_lt _ _) H2).
Qed.

Lemma aset_out {A} (l : list A) i x :
  ~ (0 <= i < Z.of_nat (length l)) -> aset l i x = None.
Proof.
  intros H. unfold aset.
  destruct (Z.leb_spec 0 i), (Z.ltb_spec i (Z.of_nat (length l))); simpl;
    done || lia.
Qed.

Lemma aset_Some_length {A} (l l' : list A) i x :
  aset l i x = Some l' -> length l' = length l.
Proof.
  unfold aset. case_match; [|done]. intros [= <-]. apply length_insert.
Qed.

(** ** Locks, sleep channels and events

    A kernel thread is modelled through what it holds and what it does to the
    other parts of the machine: the spinlocks it holds ([held], newest first)
    and the effects it emitted ([trace], oldest first).  [Spinlock.v] relates
    [held] to the lock words and the per-CPU [ncli] counter. *)

Inductive chan :=
| Cproc (i : nat)        (* &ptable.proc[i] *)
| Cticks                 (* &ticks *)
| Cnread (a : Z)         (* &p->nread of the pipe at a *)
| Cnwrite (a : Z)        (* &p->nwrite of the pipe at a *)
| Cinput                 (* &input.r *)
| Clog                   (* &log *)
| Cbuf (i : nat)         (* &bcache.buf[i] *)
| Cbuflock (i : nat)     (* &bcache.buf[i].lock *)
| Cinodelock (i : nat).  (* &icache.inode[i].lock *)

Inductive lockid :=
| Lptable | Ltickslock | Lkmem | Lftable | Licache | Lbcache | Llog | Lide
| Lcons
| Lpipe (a : Z)          (* p->lock of the pipe at a *)
| Lsleep (ch : chan).    (* lk->lk of the sleeplock at ch *)

Inductive event :=
| Ewakeup (ch : chan)
| Ecprintf (fmt : string) (args : list Z)
| Edisk (blockno : Z) (data : list Z)    (* a block written to the disk *)
| Eoutb (port v : Z)
| Einitlock (l : lockid) (name : string)
| Elcr3 (pa : Z)
| Eltr (ss0 esp0 iomb : Z)              (* the task state loaded by ltr() *)
| Esti
| Eeoi                                   (* lapiceoi() *)
| Eioapic (irq cpu : Z)                  (* ioapicenable() *)
| Eswtch (i : nat)                       (* the scheduler runs slot i *)
| Ekfree (a : Z).                        (* a page given back to kfree() *)

#[export] Instance chan_eq_dec : EqDecision chan.
Proof. solve_decision. Defined.
#[export] Instance lockid_eq_dec : EqDecision lockid.
Proof. solve_decision. Defined.

Record ctx := Ctx { held : list lockid; trace : list event }.

#[export] Instance ctx_settable : Settable ctx :=
  fun c => Ctx (held c) (trace c).

(** ** The kernel monad

    [M S A] is code that works on the component state [S] and returns an [A].
    It may also panic, fall asleep, switch to the scheduler for good, run into
    undefined behaviour, or exhaust the fuel of a loop. *)

Inductive out (S A : Type) :=
| Ok (a : A) (c : ctx) (s : S)
| Panic (msg : string)
| Blocked (ch : chan) (lk : lockid) (c : ctx) (s : S)
| Switched (c : ctx) (s : S)
| Undef
| NoFuel.
Arguments Ok {S A} _ _ _.
Arguments Panic {S A} _.
Arguments Blocked {S A} _ _ _ _.
Arguments Switched {S A} _ _.
Arguments Undef {S A}.
Arguments NoFuel {S A}.

Definition M (S A : Type) : Type := ctx -> S -> out S A.

Definition obind {S A B} (o : out S A) (f : A -> M S B) : out S B :=
  match o with
  | Ok a c s => f a c s
  | Panic m => Panic m
  | Blocked ch lk c s => Blocked ch lk c s
  | Switched c s => Switched c s
  | Undef => Undef
  | NoFuel => NoFuel
  end.

#[export] Instance M_ret S : MRet (M S) := fun A a c s => Ok a c s.
#[export] Instance M_bind S : MBind (M S) := fun A B f m c s => obind (m c s) f.

Section Primitives.
Context {S : Type}.

Definition getS : M S S := fun c s => Ok s c s.
Definition modS (f : S -> S) : M S unit := fun c s => Ok tt c (f s).
Definition gets {A} (f : S -> A) : M S A := fun c s => Ok (f s) c s.
Definition panic {A} (msg : string) : M S A := fun _ _ => Panic msg.
Definition undef {A} : M S A := fun _ _ => Undef.
Definition nofuel {A} : M S A := fun _ _ => NoFuel.

Definition emit (e : event) : M S unit :=
  fun c s => Ok tt (c <| trace ::= fun t => t ++ [e] |>) s.

Definition of_option {A} (o : option A) : M S A :=
  match o with Some a => mret a | None => undef end.

(** [l\[i\]] and [l\[i\] = x], undefined out of range. *)
Definition rd {A} (l : list A) (i : Z) : M S A := of_option (aget l i).
Definition wr {A} (l : list A) (i : Z) (x : A) : M S (list A) :=
  of_option (aset l i x).

(** The lock operations of spinlock.c as the running thread sees them. *)
Definition acquire (l : lockid) : M S unit := fun c s =>
  if decide (l ∈ held c) then Panic "acquire"
  else Ok tt (c <| held ::= cons l |>) s.

Definition release (l : lockid) : M S unit := fun c s =>
  if decide (l ∈ held c)
  then Ok tt (c <| held ::= List.remove lockid_eq_dec l |>) s
  else Panic "release".

Definition initlock (l : lockid) (name : string) : M S unit :=
  emit (Einitlock l name).

Definition wakeup (ch : chan) : M S unit := emit (Ewakeup ch).

Definition cprintf (fmt : string) (args : list Z) : M S unit :=
  emit (Ecprintf fmt args).

(** [sleep(ch, lk)] as its caller sees it.  [env] lists what the rest of the
    machine does to the state during each sleep; when it is exhausted the
    thread stays asleep.  The checks are those of sleep() and sched(). *)
Definition sleep (ch : chan) (lk : lockid) (env : list (S -> S))
  : M S (list (S -> S)) := fun c s =>
  if decide (lk <> Lptable /\ Lptable ∈ held c) then Panic "acquire"
  else if decide (lk ∉ held c)
  then Panic (if decide (lk = Lptable) then "sched ptable.lock" else "release")
  else if decide (length (held c) <> 1%nat) then Panic "sched locks"
  else match env with
       | [] => Blocked ch lk c s
       | f :: env' => Ok env' c (f s)
       end.
End Primitives.

(** Running code of one component inside a larger state. *)
Definition zoom {T S A} (get : T -> S) (put : S -> T -> T) (m : M S A) : M T A :=
  fun c t =>
    match m c (get t) with
    | Ok a c' s => Ok a c' (put s t)
    | Panic msg => Panic msg
    | Blocked ch lk c' s => Blocked ch lk c' (put s t)
    | Switched c' s => Switched c' (put s t)
    | Undef => Undef
    | NoFuel => NoFuel
    end.

(** [for (x in l) body(x)]. *)
Fixpoint mfor {S A} (l : list A) (body : A -> M S unit) : M S unit :=
  match l with
  | [] => mret tt
  | x :: l' => body x ;; mfor l' body
  end.

(** ** Reasoning about the monad *)

Section MonadLemmas.
Context {S : Type}.
Implicit Types (c : ctx) (s : S).

Lemma bindE {A B} (m : M S A) (f : A -> M S B) c s :
  (m ≫= f) c s = obind (m c s) f.
Proof. reflexivity. Qed.

Lemma retE {A} (a : A) c s : (mret a : M S A) c s = Ok a c s.
Proof. reflexivity. Qed.

Lemma getSE c s : getS c s = Ok s c s.
Proof. reflexivity. Qed.

Lemma getsE {A} (f : S -> A) c s : gets f c s = Ok (f s) c s.
Proof. reflexivity. Qed.

Lemma modSE f c s : modS f c s = Ok tt c (f s).
Proof. reflexivity. Qed.

Lemma emitE e h t s : emit e (Ctx h t) s = Ok tt (Ctx h (t ++ [e])) s.
Proof. reflexivity. Qed.

Lemma of_optionE {A} (a : A) c s : of_option (Some a) c s = Ok a c s.
Proof. reflexivity. Qed.

Lemma bind_Ok_inv {A B} (m : M S A) (f : A -> M S B) c s b c2 s2 :
  (m ≫= f) c s = Ok b c2 s2 ->
  exists a c1 s1, m c s = Ok a c1 s1 /\ f a c1 s1 = Ok b c2 s2.
Proof. rewrite bindE. destruct (m c s); simpl; try done. eauto. Qed.

Lemma bind_run {A B} (m : M S A) (f : A -> M S B) c s a c1 s1 :
  m c s = Ok a c1 s1 -> (m ≫= f) c s = f a c1 s1.
Proof. rewrite bindE. by intros ->. Qed.

Lemma remove_not_elem (l : lockid) h :
  l ∉ h -> List.remove lockid_eq_dec l h = h.
Proof. intros H. apply notin_remove. by rewrite <- list_elem_of_In. Qed.

Lemma acquire_ok l h t s :
  l ∉ h -> acquire l (Ctx h t) s = Ok tt (Ctx (l :: h) t) s.
Proof. intros H. unfold acquire. simpl. by rewrite decide_False. Qed.

Lemma acquire_twice l h t s :
  l ∈ h -> acquire l (Ctx h t) s = Panic "acquire".
Proof. intros H. unfold acquire. simpl. by rewrite decide_True. Qed.

Lemma release_ok l h t s :
  l ∉ h -> release l (Ctx (l :: h) t) s = Ok tt (Ctx h t) s.
Proof.
  intros H. unfold release. simpl.
  rewrite decide_True by set_solver. simpl.
  destruct (lockid_eq_dec l l); [|done]. by rewrite remove_not_elem.
Qed.

Lemma release_unheld l h t s :
  l ∉ h -> release l (Ctx h t) s = Panic "release".
Proof. intros H. unfold release. simpl. by rewrite decide_False. Qed.

Lemma sleep_alone ch lk f env t s :
  sleep ch lk (f :: env) (Ctx [lk] t) s = Ok env (Ctx [lk] t) (f s).
Proof.
  unfold sleep. simpl. repeat case_decide; try done.
  all: exfalso; set_solver.
Qed.

Lemma sleep_blocks ch lk t s :
  sleep ch lk [] (Ctx [lk] t) s = Blocked ch lk (Ctx [lk] t) s.
Proof.
  unfold sleep. simpl. repeat case_decide; try done.
  all: exfalso; set_solver.
Qed.

Lemma mfor_app {A} (l1 l2 : list A) (body : A -> M S unit) c s :
  mfor (l1 ++ l2) body c s = (mfor l1 body ;; mfor l2 body) c s.
Proof.
  revert c s. induction l1 as [|x l1 IH]; intros c s; [done|]. simpl.
  rewrite !bindE. destruct (body x c s); simpl; [|done..].
  rewrite IH. done.
Qed.
End MonadLemmas.

#[export] Hint Resolve not_elem_of_nil : xv6.
#[global] Arguments acquire : simpl never.
#[global] Arguments release : simpl never.
#[global] Arguments sleep : simpl never.

(** [mrun] runs the monadic code at the head of the goal as far as it
    computes; [minv H] takes apart a hypothesis that code returned. *)
Ltac mhead :=
  first
    [ rewrite bindE
    | rewrite retE
    | rewrite getSE
    | rewrite getsE
    | rewrite modSE
    | rewrite emitE
    | rewrite of_optionE
    | rewrite acquire_ok by (eauto with xv6 || set_solver)
    | rewrite release_ok by (eauto with xv6 || set_solver) ].

Ltac mrun := repeat (mhead; cbn [obind]).

Ltac minv H :=
  repeat match type of H with
  | (_ ≫= _) _ _ = Ok _ _ _ =>
      let a := fresh "a" in let c := fresh "c" in let s := fresh "s" in
      let H1 := fresh "Hrun" in
      apply bind_Ok_inv in H; destruct H as (a & c & s & H1 & H)
  end.

(** ** Lists *)

Lemma lookup_seq_insert {A} (l : list A) i j x y :
  <[i := x]> l !! j = Some y ->
  (i = j /\ y = x) \/ (i <> j /\ l !! j = Some y).
Proof.
  intros H. destruct (decide (i = j)) as [->|Hne].
  - left. pose proof (lookup_lt_Some _ _ _ H) as Hlt.
    rewrite length_insert in Hlt. rewrite list_lookup_insert_eq in H by done.
    by simplify_eq.
  - right. by rewrite list_lookup_insert_ne in H.
Qed.

(** The first index of [l] that satisfies [f]: the scan of a table with an
    early exit. *)
Fixpoint find_index {A} (f : A -> bool) (l : list A) : option nat :=
  match l with
  | [] => None
  | x :: l' => if f x then Some 0%nat else S <$> find_index f l'
  end.

Lemma find_index_Some {A} (f : A -> bool) l i :
  find_index f l = Some i <->
  (exists x, l !! i = Some x /\ f x = true) /\
  (forall j y, (j < i)%nat -> l !! j = Some y -> f y = false).
Proof.
  revert i. induction l as [|a l IH]; intros i; simpl.
  { split; [done|]. intros [(x & Hx & _) _]. done. }
  destruct (f a) eqn:Hfa.
  - split.
    + intros [= <-]. split; [by exists a|]. intros j y Hj. lia.
    + intros [(x & Hx & Hf) Hlt]. destruct i as [|i]; [done|].
      specialize (Hlt 0%nat a). simpl in Hlt. rewrite Hlt in Hfa; [done|lia|done].
  - split.
    + intros H. apply fmap_Some in H as (i' & Hi' & ->).
      apply IH in Hi' as [Hex Hlt]. split; [done|].
      intros [|j] y Hj Hy; [by simplify_eq/=|].
      eapply Hlt; [|done]. lia.
    + intros [(x & Hx & Hf) Hlt]. destruct i as [|i]; [simplify_eq/=; congruence|].
      apply fmap_Some. exists i. split; [|done]. apply IH. split; [by exists x|].
      intros j y Hj Hy. apply (Hlt (S j) y); [lia|done].
Qed.

Lemma find_index_None {A} (f : A -> bool) l :
  find_index f l = None <-> Forall (fun x => f x = false) l.
Proof.
  induction l as [|a l IH]; simpl; [by split|]. destruct (f a) eqn:Hfa.
  - split; [done|]. intros H%Forall_cons_1. destruct H; congruence.
  - rewrite fmap_None, IH, Forall_cons. naive_solver.
Qed.

Lemma find_index_lt {A} (f : A -> bool) l i :
  find_index f l = Some i -> (i < length l)%nat.
Proof. intros [(x & Hx & _) _]%find_index_Some. by eapply lookup_lt_Some. Qed.

Lemma alter_insert {A} (f : A -> A) (l : list A) i x :
  l !! i = Some x -> alter f i l = <[i := f x]> l.
Proof.
  intros H. apply list_eq. intros j. destruct (decide (i = j)) as [<-|Hne].
  - rewrite list_lookup_alter_eq, H, list_lookup_insert_eq; [done|].
    by eapply lookup_lt_Some.
  - by rewrite list_lookup_alter_ne, list_lookup_insert_ne.
Qed.

Lemma NoDup_remove_lock (l : lockid) h :
  NoDup h -> NoDup (List.remove lockid_eq_dec l h).
Proof.
  induction 1 as [|x h Hx Hnd IH]; simpl; [constructor|].
  destruct (lockid_eq_dec l x); [done|]. constructor; [|done].
  rewrite list_elem_of_In. intros Hin%in_remove. apply Hx.
  apply list_elem_of_In, Hin.
Qed.

(** Induction over executions. *)
Lemma rtc_invariant {A} (R : relation A) (I : A -> Prop) x y :
  (forall a b, R a b -> I a -> I b) -> rtc R x y -> I x -> I y.
Proof. intros Hstep. induction 1; eauto. Qed.
