(* ===== verification/Mmu.v ===== *)
(** * Paging constants and address arithmetic
    (src/mmu.h, src/memlayout.h, src/param.h)

    The macros are evaluated on [uint]s, so every result is reduced modulo
    [2^32] where C would reduce it. *)

From stdpp Require Import prelude.
From Stdlib Require Import ZArith Lia.
From S2P Require Import Prelude.

(** ** param.h *)
Definition NPROC : nat := 64.
Definition KSTACKSIZE : Z := 4096.
Definition NOFILE : nat := 16.
Definition NFILE : nat := 100.
Definition NINODE : nat := 50.
Definition NDEV : Z := 10.
Definition ROOTDEV : Z := 1.
Definition MAXARG : nat := 32.
Definition MAXOPBLOCKS : Z := 10.
Definition LOGSIZE : Z := MAXOPBLOCKS * 3.
Definition NBUF : nat := 30.
Definition FSSIZE : Z := 1000.

(** ** memlayout.h *)
Definition EXTMEM : Z := 1048576.
Definition PHYSTOP : Z := 234881024.
Definition DEVSPACE : Z := 4261412864.
Definition KERNBASE : Z := 2147483648.
Definition KERNLINK : Z := KERNBASE + EXTMEM.
Definition V2P (a : Z) : Z := u32 (a - KERNBASE).
Definition P2V (a : Z) : Z := u32 (a + KERNBASE).

(** ** mmu.h *)
Definition NPDENTRIES : nat := 1024.
Definition NPTENTRIES : nat := 1024.
Definition PGSIZE : Z := 4096.
Definition PTXSHIFT : Z := 12.
Definition PDXSHIFT : Z := 22.
Definition PTE_P : Z := 1.
Definition PTE_W : Z := 2.
Definition PTE_U : Z := 4.
Definition PTE_PS : Z := 128.
Definition SEG_KCODE : Z := 1.
Definition SEG_KDATA : Z := 2.
Definition SEG_UCODE : Z := 3.
Definition SEG_UDATA : Z := 4.
Definition SEG_TSS : Z := 5.
Definition DPL_USER : Z := 3.

Definition PDX (va : Z) : Z := Z.land (Z.shiftr (u32 va) PDXSHIFT) 1023.
Definition PTX (va : Z) : Z := Z.land (Z.shiftr (u32 va) PTXSHIFT) 1023.
Definition PGADDR (d t o : Z) : Z :=
  u32 (Z.lor (Z.lor (Z.shiftl d PDXSHIFT) (Z.shiftl t PTXSHIFT)) o).
Definition PGROUNDUP (sz : Z) : Z :=
  Z.land (u32 (sz + PGSIZE - 1)) (Z.lnot (PGSIZE - 1)).
Definition PGROUNDDOWN (a : Z) : Z := Z.land (u32 a) (Z.lnot (PGSIZE - 1)).
Definition PTE_ADDR (pte : Z) : Z := Z.land (u32 pte) (Z.lnot 4095).
Definition PTE_FLAGS (pte : Z) : Z := Z.land (u32 pte) 4095.

(** ** Facts *)

(** Clearing the low twelve bits rounds down to a page boundary. *)
Lemma land_lnot_4095 z : Z.land z (Z.lnot 4095) = z / 4096 * 4096.
Proof.
  change 4095 with (Z.ones 12). rewrite <- Z.ldiff_land, Z.ldiff_ones_r by lia.
  rewrite Z.shiftl_mul_pow2, Z.shiftr_div_pow2 by lia. done.
Qed.

Lemma land_4095 z : Z.land z 4095 = z mod 4096.
Proof. change 4095 with (Z.ones 12). by rewrite Z.land_ones. Qed.

Lemma PGROUNDDOWN_div a : PGROUNDDOWN a = u32 a / 4096 * 4096.
Proof. apply land_lnot_4095. Qed.

Lemma PGROUNDUP_div sz : PGROUNDUP sz = u32 (sz + 4095) / 4096 * 4096.
Proof.
  unfold PGROUNDUP, PGSIZE. change (4096 - 1) with 4095.
  rewrite land_lnot_4095. do 3 f_equal. lia.
Qed.

(** The least page boundary at or above [sz]. *)
Lemma PGROUNDUP_spec sz :
  0 <= sz <= 2 ^ 32 - 4096 ->
  PGROUNDUP sz mod 4096 = 0 /\ sz <= PGROUNDUP sz < sz + 4096.
Proof.
  intros H. rewrite PGROUNDUP_div, u32_small by lia. split.
  - apply Z.mod_mul. lia.
  - pose proof (Z.div_mod (sz + 4095) 4096).
    pose proof (Z.mod_pos_bound (sz + 4095) 4096). lia.
Qed.

Lemma PGROUNDUP_aligned sz :
  0 <= sz < 2 ^ 32 -> sz mod 4096 = 0 -> PGROUNDUP sz = sz.
Proof.
  intros H Hm. rewrite PGROUNDUP_div.
  assert (exists q, sz = q * 4096) as [q ->].
  { exists (sz / 4096). apply Z.div_exact in Hm; lia. }
  rewrite u32_small by lia.
  replace (q * 4096 + 4095) with (4095 + q * 4096) by lia.
  rewrite Z.div_add by lia. change (4095 / 4096) with 0. lia.
Qed.

Lemma PGROUNDDOWN_spec a :
  0 <= a < 2 ^ 32 ->
  PGROUNDDOWN a mod 4096 = 0 /\ PGROUNDDOWN a <= a < PGROUNDDOWN a + 4096.
Proof.
  intros H. rewrite PGROUNDDOWN_div, u32_small by lia. split.
  - apply Z.mod_mul. lia.
  - pose proof (Z.div_mod a 4096). pose proof (Z.mod_pos_bound a 4096). lia.
Qed.

Lemma PDX_div va : PDX va = u32 va / 4194304.
Proof.
  unfold PDX, PDXSHIFT. change 1023 with (Z.ones 10).
  rewrite Z.land_ones, Z.shiftr_div_pow2 by lia.
  change (2 ^ 22) with 4194304. apply Z.mod_small.
  pose proof (u32_range va). split; [apply Z.div_pos; lia|].
  apply Z.div_lt_upper_bound; lia.
Qed.

Lemma PTX_div va : PTX va = (u32 va / 4096) mod 1024.
Proof.
  unfold PTX, PTXSHIFT. change 1023 with (Z.ones 10).
  rewrite Z.land_ones, Z.shiftr_div_pow2 by lia. done.
Qed.

Lemma PDX_range va : 0 <= PDX va < 1024.
Proof.
  rewrite PDX_div. pose proof (u32_range va).
  split; [apply Z.div_pos; lia|]. apply Z.div_lt_upper_bound; lia.
Qed.

Lemma PTX_range va : 0 <= PTX va < 1024.
Proof. rewrite PTX_div. apply Z.mod_pos_bound. lia. Qed.

(** The three parts of a virtual address determine it. *)
Lemma va_parts va :
  u32 va = PDX va * 4194304 + PTX va * 4096 + u32 va mod 4096.
Proof.
  rewrite PDX_div, PTX_div. set (x := u32 va).
  pose proof (Z.div_mod x 4096). pose proof (Z.div_mod (x / 4096) 1024).
  replace (x / 4194304) with (x / 4096 / 1024) by (by rewrite Z.div_div).
  lia.
Qed.

Lemma same_entry_same_page a b :
  PDX a = PDX b -> PTX a = PTX b -> PGROUNDDOWN a = PGROUNDDOWN b.
Proof.
  intros Hd Ht. rewrite !PGROUNDDOWN_div.
  pose proof (va_parts a). pose proof (va_parts b).
  pose proof (Z.mod_pos_bound (u32 a) 4096). pose proof (Z.mod_pos_bound (u32 b) 4096).
  pose proof (Z.div_mod (u32 a) 4096). pose proof (Z.div_mod (u32 b) 4096). lia.
Qed.

Lemma same_page_same_entry a b :
  PGROUNDDOWN a = PGROUNDDOWN b -> PDX a = PDX b /\ PTX a = PTX b.
Proof.
  rewrite !PGROUNDDOWN_div, !PDX_div, !PTX_div. intros H.
  assert (Hq : u32 a / 4096 = u32 b / 4096) by lia.
  change 4194304 with (4096 * 1024). by rewrite <- !Z.div_div, Hq.
Qed.

Lemma land_page_flags pa fl :
  pa mod 4096 = 0 -> 0 <= fl < 4096 -> Z.land pa fl = 0.
Proof.
  intros Hal Hfl. apply Z.bits_inj'. intros n Hn. rewrite Z.land_spec, Z.bits_0.
  destruct (Z.lt_ge_cases n 12) as [Hlt|Hge].
  - replace pa with (pa / 4096 * 2 ^ 12) by (apply Z.div_exact in Hal; lia).
    by rewrite Z.mul_pow2_bits_low.
  - rewrite <- (Z.mod_small fl (2 ^ 12)) by lia.
    rewrite (Z.mod_pow2_bits_high fl) by lia. apply andb_false_r.
Qed.

Lemma PTE_ADDR_or pa fl :
  0 <= pa < 2 ^ 32 -> pa mod 4096 = 0 -> 0 <= fl < 4096 ->
  PTE_ADDR (Z.lor pa fl) = pa /\ PTE_FLAGS (Z.lor pa fl) = fl.
Proof.
  intros Hpa Hal Hfl. unfold PTE_ADDR, PTE_FLAGS.
  pose proof (land_page_flags pa fl Hal Hfl) as Hl.
  assert (Hor : Z.lor pa fl = pa + fl).
  { by rewrite <- Z.lxor_lor, Z.add_nocarry_lxor. }
  assert (Hdm : pa = 4096 * (pa / 4096)) by (by apply Z.div_exact in Hal).
  assert (Hb : pa + fl < 2 ^ 32).
  { assert (pa / 4096 < 2 ^ 20) by (apply Z.div_lt_upper_bound; lia). lia. }
  rewrite Hor, u32_small, land_lnot_4095, land_4095 by lia. split.
  - replace (pa + fl) with (fl + pa / 4096 * 4096) by lia.
    rewrite Z.div_add, Z.div_small by lia. lia.
  - replace (pa + fl) with (fl + pa / 4096 * 4096) by lia.
    rewrite Z.mod_add, Z.mod_small by lia. done.
Qed.

Lemma V2P_P2V a : 0 <= a < 2 ^ 32 -> V2P (P2V a) = a.
Proof.
  intros H. unfold V2P, P2V. rewrite u32_sub_l.
  replace (a + KERNBASE - KERNBASE) with a by lia. by apply u32_small.
Qed.

Lemma P2V_V2P a : 0 <= a < 2 ^ 32 -> P2V (V2P a) = a.
Proof.
  intros H. unfold V2P, P2V. rewrite u32_add_l.
  replace (a - KERNBASE + KERNBASE) with a by lia. by apply u32_small.
Qed.
