(* ===== verification/Spinlock.v ===== *)
(** * Spinlocks and interrupt nesting (src/spinlock.c, src/proc.c, src/mp.c)

    The machine as spinlock.c sees it: the [cpus] table, each processor's
    EFLAGS register and local APIC id, and the lock words.  Every function is
    run by the processor number [k].  Failed attempts of the xchg loop consume
    the list [env] of what the other processors did meanwhile.

    The last part relates these functions to the thread-level [acquire] and
    [release] of [Prelude], and shows mutual exclusion for the individual
    memory accesses of [acquire] and [release] under every interleaving. *)

From stdpp Require Import prelude gmap strings list.
From Stdlib Require Import ZArith Lia.
From S2P Require Import Prelude Mmu.

Definition FL_IF : Z := 512.

(** ** Data *)

Record cpu := mkcpu {
  apicid : Z;            (* Local APIC ID *)
  ncli : Z;              (* Depth of pushcli nesting *)
  intena : Z;            (* Were interrupts enabled before pushcli? *)
  cpu_proc : option nat; (* The process running on this cpu or null *)
}.
#[export] Instance cpu_settable : Settable cpu :=
  fun c => mkcpu (apicid c) (ncli c) (intena c) (cpu_proc c).

Record spinlock := mkspin {
  lname : string;
  locked : Z;
  lcpu : option nat;     (* index in cpus[], None for the null pointer *)
  pcs : list Z;
}.
#[export] Instance spinlock_settable : Settable spinlock :=
  fun l => mkspin (lname l) (locked l) (lcpu l) (pcs l).

Record machine := mkmachine {
  cpus : list cpu;
  eflags : list Z;       (* EFLAGS of each processor *)
  lapicids : list Z;     (* what lapicid() reads on each processor *)
  locks : lockid -> spinlock;
  stack : Z -> Z;        (* the kernel stack words getcallerpcs follows *)
}.
#[export] Instance machine_settable : Settable machine :=
  fun m => mkmachine (cpus m) (eflags m) (lapicids m) (locks m) (stack m).

Definition set_lock (l : lockid) (f : spinlock -> spinlock) (m : machine)
  : machine :=
  m <| locks := fun l' => if decide (l' = l) then f (locks m l) else locks m l' |>.

(** ** Operations *)

Definition initlock (l : lockid) (name : string) : M machine unit :=
  modS (set_lock l (fun lk =>
    lk <| lname := name |> <| locked := 0 |> <| lcpu := None |>)).

Definition readeflags (k : nat) : M machine Z :=
  m ← getS; of_option (eflags m !! k).

Definition cli (k : nat) : M machine unit :=
  modS (fun m => m <| eflags ::= alter (fun e => Z.land e (Z.lnot FL_IF)) k |>).

Definition sti (k : nat) : M machine unit :=
  modS (fun m => m <| eflags ::= alter (fun e => Z.lor e FL_IF) k |>).

Definition mycpu (k : nat) : M machine nat :=
  e ← readeflags k;
  if negb (Z.land e FL_IF =? 0)
  then panic "mycpu called with interrupts enabled"
  else
    m ← getS;
    id ← of_option (lapicids m !! k);
    match find_index (fun c => apicid c =? id) (cpus m) with
    | Some i => mret i
    | None => panic "unknown apicid"
    end.

Definition get_cpu (i : nat) : M machine cpu :=
  m ← getS; of_option (cpus m !! i).

Definition mod_cpu (i : nat) (f : cpu -> cpu) : M machine unit :=
  modS (fun m => m <| cpus ::= alter f i |>).

Definition pushcli (k : nat) : M machine unit :=
  e ← readeflags k;
  cli k ;;
  i ← mycpu k;
  c ← get_cpu i;
  (if ncli c =? 0
   then mod_cpu i (fun c => c <| intena := Z.land e FL_IF |>)
   else mret tt) ;;
  mod_cpu i (fun c => c <| ncli ::= fun n => s32 (n + 1) |>).

Definition popcli (k : nat) : M machine unit :=
  e ← readeflags k;
  if negb (Z.land e FL_IF =? 0) then panic "popcli - interruptible" else
  i ← mycpu k;
  mod_cpu i (fun c => c <| ncli ::= fun n => s32 (n - 1) |>) ;;
  c ← get_cpu i;
  if ncli c <? 0 then panic "popcli" else
  if (ncli c =? 0) && negb (intena c =? 0) then sti k else mret tt.

Definition holding (k : nat) (l : lockid) : M machine bool :=
  pushcli k ;;
  m ← getS;
  i ← mycpu k;
  let lk := locks m l in
  let r := negb (locked lk =? 0) && bool_decide (lcpu lk = Some i) in
  popcli k ;;
  mret r.

(** The %ebp chain: [ebp\[1\]] is a saved %eip, [ebp\[0\]] the caller's %ebp. *)
Fixpoint callerpcs (mem : Z -> Z) (ebp : Z) (n : nat) : list Z :=
  match n with
  | O => []
  | S n' =>
      if (ebp =? 0) || (ebp <? KERNBASE) || (ebp =? 4294967295)
      then replicate n 0
      else mem (u32 (ebp + 4)) :: callerpcs mem (mem ebp) n'
  end.

Definition getcallerpcs (mem : Z -> Z) (v : Z) : list Z :=
  callerpcs mem (u32 (v - 8)) 10.

(** [while(xchg(&lk->locked, 1) != 0) ;] *)
Fixpoint spin (l : lockid) (env : list (machine -> machine)) : M machine unit :=
  m ← getS;
  let old := locked (locks m l) in
  modS (set_lock l (fun lk => lk <| locked := 1 |>)) ;;
  if old =? 0 then mret tt
  else match env with
       | [] => nofuel
       | f :: env' => modS f ;; spin l env'
       end.

(** [v] is the address of the [lk] argument on the kernel stack. *)
Definition acquire (k : nat) (l : lockid) (v : Z)
    (env : list (machine -> machine)) : M machine unit :=
  pushcli k ;;
  h ← holding k l;
  if (h : bool) then panic "acquire" else
  spin l env ;;
  i ← mycpu k;
  modS (set_lock l (fun lk => lk <| lcpu := Some i |>)) ;;
  m ← getS;
  modS (set_lock l (fun lk => lk <| pcs := getcallerpcs (stack m) v |>)).

Definition release (k : nat) (l : lockid) : M machine unit :=
  h ← holding k l;
  if negb h then panic "release" else
  modS (set_lock l (fun lk => lk <| pcs ::= <[0%nat := 0]> |>)) ;;
  modS (set_lock l (fun lk => lk <| lcpu := None |>)) ;;
  modS (set_lock l (fun lk => lk <| locked := 0 |>)) ;;
  popcli k.

(** cpuid() and myproc() of proc.c. *)
Definition cpuid (k : nat) : M machine Z :=
  i ← mycpu k; mret (Z.of_nat i).

Definition myproc (k : nat) : M machine (option nat) :=
  pushcli k ;;
  i ← mycpu k;
  c ← get_cpu i;
  popcli k ;;
  mret (cpu_proc c).

#[local] Arguments readeflags : simpl never.
#[local] Arguments cli : simpl never.
#[local] Arguments sti : simpl never.
#[local] Arguments mycpu : simpl never.
#[local] Arguments get_cpu : simpl never.
#[local] Arguments mod_cpu : simpl never.
#[local] Arguments pushcli : simpl never.
#[local] Arguments popcli : simpl never.

(** ** One processor at a time

    [with_cpu m k e cp] is [m] with processor [k]'s EFLAGS and [struct cpu]
    replaced; [cpu_ok m k id] says that [k] is a processor whose APIC id [id]
    no other entry of [cpus] carries. *)

Definition with_cpu (m : machine) (k : nat) (e : Z) (cp : cpu) : machine :=
  m <| eflags ::= <[k := e]> |> <| cpus ::= <[k := cp]> |>.

Definition clear_if (e : Z) : Z := Z.land e (Z.lnot FL_IF).

Definition push_cpu (e : Z) (cp : cpu) : cpu :=
  (if ncli cp =? 0 then cp <| intena := Z.land e FL_IF |> else cp)
    <| ncli := s32 (ncli cp + 1) |>.

Record cpu_ok (m : machine) (k : nat) (id : Z) : Prop := {
  cpu_ok_id : lapicids m !! k = Some id;
  cpu_ok_eflags : (k < length (eflags m))%nat;
  cpu_ok_cpus : (k < length (cpus m))%nat;
  cpu_ok_unique : forall j cp, j <> k -> cpus m !! j = Some cp -> apicid cp <> id;
}.

Lemma clear_if_off e : Z.land (clear_if e) FL_IF = 0.
Proof.
  unfold clear_if. rewrite <- Z.land_assoc, (Z.land_comm (Z.lnot _)).
  by rewrite Z.land_lnot_diag, Z.land_0_r.
Qed.

Lemma clear_if_id e : Z.land e FL_IF = 0 -> clear_if e = e.
Proof.
  intros H. unfold clear_if. apply Z.bits_inj'. intros n Hn.
  rewrite Z.land_spec, Z.lnot_spec by done.
  pose proof (f_equal (fun z => Z.testbit z n) H) as Hb. simpl in Hb.
  rewrite Z.land_spec, Z.bits_0 in Hb.
  destruct (Z.testbit e n), (Z.testbit FL_IF n); done.
Qed.

Lemma set_clear_if e : Z.land e FL_IF <> 0 -> Z.lor (clear_if e) FL_IF = e.
Proof.
  intros H. unfold clear_if, FL_IF in *. apply Z.bits_inj'. intros n Hn.
  rewrite Z.lor_spec, Z.land_spec, Z.lnot_spec by done.
  change 512 with (2 ^ 9) in *. rewrite Z.pow2_bits_eqb by lia.
  destruct (Z.eqb_spec 9 n) as [<-|Hne]; simpl.
  - rewrite andb_false_r. simpl. destruct (Z.testbit e 9) eqn:E; [done|].
    exfalso. apply H. apply Z.bits_inj'. intros i Hi.
    rewrite Z.land_spec, Z.pow2_bits_eqb, Z.bits_0 by lia.
    destruct (Z.eqb_spec 9 i) as [<-|]; [by rewrite E|apply andb_false_r].
  - by rewrite andb_true_r, orb_false_r.
Qed.

Section OneCpu.
Context (m : machine) (k : nat) (id : Z) (Hok : cpu_ok m k id).
Implicit Types (e : Z) (cp : cpu) (c : ctx).

Lemma with_cpu_with_cpu e cp e' cp' :
  with_cpu (with_cpu m k e cp) k e' cp' = with_cpu m k e' cp'.
Proof. unfold with_cpu. simpl. by rewrite !list_insert_insert_eq. Qed.

Lemma with_cpu_id e cp :
  eflags m !! k = Some e -> cpus m !! k = Some cp -> with_cpu m k e cp = m.
Proof.
  intros He Hcp. unfold with_cpu. simpl. rewrite !list_insert_id by done.
  by destruct m.
Qed.

Lemma readeflags_run e cp c :
  readeflags k c (with_cpu m k e cp) = Ok e c (with_cpu m k e cp).
Proof.
  unfold readeflags. mrun. unfold of_option. simpl.
  rewrite list_lookup_insert_eq by apply Hok. done.
Qed.

Lemma get_cpu_run e cp c :
  get_cpu k c (with_cpu m k e cp) = Ok cp c (with_cpu m k e cp).
Proof.
  unfold get_cpu. mrun. unfold of_option. simpl.
  rewrite list_lookup_insert_eq by apply Hok. done.
Qed.

Lemma mod_cpu_run f e cp c :
  mod_cpu k f c (with_cpu m k e cp) = Ok tt c (with_cpu m k e (f cp)).
Proof.
  unfold mod_cpu, modS, with_cpu. simpl.
  rewrite (alter_insert _ _ _ cp), list_insert_insert_eq; [done|].
  apply list_lookup_insert_eq, Hok.
Qed.

Lemma cli_run e cp c :
  cli k c (with_cpu m k e cp) = Ok tt c (with_cpu m k (clear_if e) cp).
Proof.
  unfold cli, modS, with_cpu. simpl.
  rewrite (alter_insert _ _ _ e), list_insert_insert_eq; [done|].
  apply list_lookup_insert_eq, Hok.
Qed.

Lemma sti_run e cp c :
  sti k c (with_cpu m k e cp) = Ok tt c (with_cpu m k (Z.lor e FL_IF) cp).
Proof.
  unfold sti, modS, with_cpu. simpl.
  rewrite (alter_insert _ _ _ e), list_insert_insert_eq; [done|].
  apply list_lookup_insert_eq, Hok.
Qed.

Lemma mycpu_run e cp c :
  Z.land e FL_IF = 0 -> apicid cp = id ->
  mycpu k c (with_cpu m k e cp) = Ok k c (with_cpu m k e cp).
Proof.
  intros He Hid. unfold mycpu. rewrite bindE, readeflags_run. simpl.
  rewrite He. simpl. mrun. simpl. rewrite (cpu_ok_id _ _ _ Hok). simpl. mrun. simpl.
  replace (find_index _ _) with (Some k); [done|]. symmetry.
  apply find_index_Some. split.
  - exists cp. split; [|by apply Z.eqb_eq].
    apply list_lookup_insert_eq, Hok.
  - intros j y Hj Hy. rewrite list_lookup_insert_ne in Hy by lia.
    apply Z.eqb_neq. eapply cpu_ok_unique; [done| |done]. lia.
Qed.

Lemma pushcli_run e cp c :
  apicid cp = id ->
  pushcli k c (with_cpu m k e cp) =
    Ok tt c (with_cpu m k (clear_if e) (push_cpu e cp)).
Proof.
  intros Hid. unfold pushcli.
  rewrite bindE, readeflags_run. simpl. rewrite bindE, cli_run. simpl.
  rewrite bindE, mycpu_run by (done || apply clear_if_off). simpl.
  rewrite bindE, get_cpu_run. simpl. rewrite bindE. unfold push_cpu.
  destruct (ncli cp =? 0);
    [rewrite mod_cpu_run|rewrite retE]; simpl; by rewrite mod_cpu_run.
Qed.

(** popcli() with interrupts off and a positive nesting depth. *)
Lemma popcli_run e cp c :
  apicid cp = id -> Z.land e FL_IF = 0 -> 0 < ncli cp < 2 ^ 31 ->
  popcli k c (with_cpu m k e cp) =
    Ok tt c (with_cpu m k
      (if (ncli cp =? 1) && negb (intena cp =? 0) then Z.lor e FL_IF else e)
      (cp <| ncli := ncli cp - 1 |>)).
Proof.
  intros Hid He Hn. unfold popcli.
  rewrite bindE, readeflags_run. simpl. rewrite He. simpl.
  rewrite bindE, mycpu_run by done. simpl. rewrite bindE, mod_cpu_run. simpl.
  rewrite bindE, get_cpu_run. simpl. rewrite s32_small by lia.
  destruct (Z.ltb_spec (ncli cp - 1) 0); [lia|].
  replace (ncli cp - 1 =? 0) with (ncli cp =? 1)
    by (destruct (Z.eqb_spec (ncli cp) 1), (Z.eqb_spec (ncli cp - 1) 0); lia).
  destruct ((ncli cp =? 1) && _); [by rewrite sti_run|done].
Qed.
End OneCpu.

Lemma set_lock_eq l f m : locks (set_lock l f m) l = f (locks m l).
Proof. unfold set_lock. simpl. by rewrite decide_True. Qed.

Lemma set_lock_ne l l' f m : l' <> l -> locks (set_lock l f m) l' = locks m l'.
Proof. intros H. unfold set_lock. simpl. by rewrite decide_False. Qed.

Lemma set_lock_with_cpu l f m k e cp :
  set_lock l f (with_cpu m k e cp) = with_cpu (set_lock l f m) k e cp.
Proof. reflexivity. Qed.

Lemma cpu_ok_set_lock l f m k id : cpu_ok m k id -> cpu_ok (set_lock l f m) k id.
Proof. intros []. by split. Qed.
#[local] Hint Resolve cpu_ok_set_lock : xv6.

Definition holds (lk : spinlock) (k : nat) : bool :=
  negb (locked lk =? 0) && bool_decide (lcpu lk = Some k).

#[local] Arguments spin : simpl never.

Section HoldingRun.
Context (m : machine) (k : nat) (id : Z) (Hok : cpu_ok m k id).
Implicit Types (e : Z) (cp : cpu) (c : ctx).

Lemma push_cpu_pop e cp :
  0 <= ncli cp < 2 ^ 31 - 1 ->
  (push_cpu e cp) <| ncli := ncli (push_cpu e cp) - 1 |> =
    (if ncli cp =? 0 then cp <| intena := Z.land e FL_IF |> else cp).
Proof.
  intros H. unfold push_cpu. destruct cp as [a n i p]. simpl in *.
  rewrite s32_small by lia.
  destruct (Z.eqb_spec n 0); simpl; f_equal; lia.
Qed.

(** holding() leaves the processor as it was, apart from [intena], which is
    only meaningful inside an outer pushcli(). *)
Lemma holding_run l e cp c :
  apicid cp = id -> 0 <= ncli cp < 2 ^ 31 - 1 ->
  holding k l c (with_cpu m k e cp) =
    Ok (holds (locks m l) k) c
      (with_cpu m k
         (if (ncli cp =? 0) && negb (Z.land e FL_IF =? 0)
          then Z.lor (clear_if e) FL_IF else clear_if e)
         (if ncli cp =? 0 then cp <| intena := Z.land e FL_IF |> else cp)).
Proof.
  intros Hid Hn. unfold holding.
  erewrite bind_run by (by apply (pushcli_run m k id Hok)).
  rewrite bindE. simpl. rewrite bindE.
  rewrite (mycpu_run m k id Hok);
    [|apply clear_if_off|unfold push_cpu; by destruct (ncli cp =? 0)].
  simpl. rewrite bindE, (popcli_run m k id Hok).
  2: { unfold push_cpu; by destruct (ncli cp =? 0). }
  2: { apply clear_if_off. }
  2: { unfold push_cpu. simpl. rewrite s32_small; lia. }
  simpl. rewrite retE. unfold holds. do 2 f_equal.
  - unfold push_cpu. simpl. rewrite s32_small by lia.
    replace (ncli cp + 1 =? 1) with (ncli cp =? 0)
      by (destruct (Z.eqb_spec (ncli cp) 0), (Z.eqb_spec (ncli cp + 1) 1); lia).
    by destruct (ncli cp =? 0).
  - by apply push_cpu_pop.
Qed.

Lemma holding_nested l e cp c :
  apicid cp = id -> 0 < ncli cp < 2 ^ 31 - 1 -> Z.land e FL_IF = 0 ->
  holding k l c (with_cpu m k e cp) =
    Ok (holds (locks m l) k) c (with_cpu m k e cp).
Proof.
  intros Hid Hn He. rewrite holding_run by (done || lia).
  destruct (Z.eqb_spec (ncli cp) 0); [lia|]. simpl. by rewrite clear_if_id.
Qed.

Lemma spin_free l e cp c :
  locked (locks m l) = 0 ->
  spin l [] c (with_cpu m k e cp) =
    Ok tt c (with_cpu (set_lock l (fun lk => lk <| locked := 1 |>) m) k e cp).
Proof. intros H. unfold spin. mrun. simpl. rewrite H. done. Qed.

Lemma acquire_free l v e cp c :
  apicid cp = id -> 0 <= ncli cp < 2 ^ 31 - 2 -> locked (locks m l) = 0 ->
  exists ls,
    acquire k l v [] c (with_cpu m k e cp) =
      Ok tt c (with_cpu (m <| locks := ls |>) k (clear_if e) (push_cpu e cp)) /\
    locked (ls l) = 1 /\ lcpu (ls l) = Some k /\
    pcs (ls l) = getcallerpcs (stack m) v /\
    (forall l', l' <> l -> ls l' = locks m l').
Proof.
  intros Hid Hn Hfree. unfold acquire.
  assert (Hid' : apicid (push_cpu e cp) = id)
    by (unfold push_cpu; by destruct (ncli cp =? 0)).
  rewrite bindE, (pushcli_run m k id Hok) by done. simpl.
  rewrite bindE, holding_nested; [|done| |apply clear_if_off].
  2: { unfold push_cpu. simpl. rewrite s32_small; lia. }
  cbn [obind]. unfold holds. rewrite Hfree. cbn [andb negb Z.eqb].
  rewrite bindE, spin_free by done. simpl.
  rewrite bindE, (mycpu_run _ k id); eauto using clear_if_off with xv6.
  simpl. rewrite bindE. simpl. rewrite bindE. simpl.
  eexists. split; [reflexivity|]. simpl.
  rewrite !decide_True by done. simpl. repeat split.
  intros l' Hl'. by rewrite !decide_False.
Qed.

Lemma release_held l e cp c :
  apicid cp = id -> 0 < ncli cp < 2 ^ 31 - 1 -> Z.land e FL_IF = 0 ->
  holds (locks m l) k = true ->
  exists ls,
    release k l c (with_cpu m k e cp) =
      Ok tt c (with_cpu (m <| locks := ls |>) k
        (if (ncli cp =? 1) && negb (intena cp =? 0) then Z.lor e FL_IF else e)
        (cp <| ncli := ncli cp - 1 |>)) /\
    locked (ls l) = 0 /\ lcpu (ls l) = None /\
    (forall l', l' <> l -> ls l' = locks m l').
Proof.
  intros Hid Hn He Hh. unfold release.
  rewrite bindE, holding_nested by done. simpl. rewrite Hh. simpl.
  rewrite bindE. simpl. rewrite bindE. simpl. rewrite bindE. simpl.
  rewrite !set_lock_with_cpu, (popcli_run _ k id); eauto with xv6; [|lia].
  eexists. split; [reflexivity|]. simpl.
  rewrite !decide_True by done. simpl. repeat split.
  intros l' Hl'. by rewrite !decide_False.
Qed.
End HoldingRun.

(** ** Refinement of the thread-level view

    [H] lists the locks each processor holds, [B] whether its interrupts were
    on before the outermost pushcli(). *)

Definition cpu_abs (cp : cpu) (e : Z) (h : list lockid) (b : bool) : Prop :=
  ncli cp = Z.of_nat (length h) /\ NoDup h /\
  match h with
  | [] => negb (Z.land e FL_IF =? 0) = b
  | _ => Z.land e FL_IF = 0 /\ negb (intena cp =? 0) = b
  end.

Definition lock_abs (lk : spinlock) (l : lockid) (H : list (list lockid)) : Prop :=
  (locked lk = 0 /\ lcpu lk = None /\ forall k h, H !! k = Some h -> l ∉ h) \/
  (exists k h, locked lk = 1 /\ lcpu lk = Some k /\ H !! k = Some h /\ l ∈ h /\
     forall j h', j <> k -> H !! j = Some h' -> l ∉ h').

Record machine_abs (m : machine) (H : list (list lockid)) (B : list bool) : Prop := {
  abs_eflags : length (eflags m) = length (cpus m);
  abs_lapic : lapicids m = apicid <$> cpus m;
  abs_nodup : NoDup (apicid <$> cpus m);
  abs_cpu : forall k, (k < length (cpus m))%nat ->
    exists cp e h b, cpus m !! k = Some cp /\ eflags m !! k = Some e /\
      H !! k = Some h /\ B !! k = Some b /\ cpu_abs cp e h b;
  abs_lock : forall l, lock_abs (locks m l) l H;
}.

Lemma abs_cpu_ok m H B k cp :
  machine_abs m H B -> cpus m !! k = Some cp -> cpu_ok m k (apicid cp).
Proof.
  intros Habs Hcp. pose proof (lookup_lt_Some _ _ _ Hcp) as Hlt. split.
  - rewrite (abs_lapic _ _ _ Habs), list_lookup_fmap, Hcp. done.
  - by rewrite (abs_eflags _ _ _ Habs).
  - done.
  - intros j cp' Hj Hcp' Heq. apply Hj.
    eapply (NoDup_lookup _ j k (apicid cp)); [apply (abs_nodup _ _ _ Habs)| |];
      rewrite list_lookup_fmap; [rewrite Hcp'|rewrite Hcp]; simpl; congruence.
Qed.

Lemma abs_holds m H B k h l :
  machine_abs m H B -> H !! k = Some h ->
  holds (locks m l) k = bool_decide (l ∈ h).
Proof.
  intros Habs Hh. unfold holds.
  destruct (abs_lock _ _ _ Habs l)
    as [(-> & _ & Hfree)|(j & hj & -> & -> & Hj & Hin & Hother)]; simpl.
  - symmetry. apply bool_decide_eq_false. eauto.
  - destruct (decide (j = k)) as [->|Hne].
    + rewrite bool_decide_eq_true_2 by done. symmetry.
      apply bool_decide_eq_true. congruence.
    + rewrite bool_decide_eq_false_2 by congruence. symmetry.
      apply bool_decide_eq_false. eauto.
Qed.

(** Replacing one processor's entry and the lock table. *)
Lemma machine_abs_update m H B k e cp e' cp' h h' b ls :
  machine_abs m H B ->
  cpus m !! k = Some cp -> eflags m !! k = Some e -> H !! k = Some h ->
  B !! k = Some b -> apicid cp' = apicid cp -> cpu_abs cp' e' h' b ->
  (forall l, lock_abs (ls l) l (<[k := h']> H)) ->
  machine_abs (with_cpu (m <| locks := ls |>) k e' cp') (<[k := h']> H) B.
Proof.
  intros Habs Hcp He Hh Hb Hid Hk Hls.
  assert (Hids : apicid <$> <[k := cp']> (cpus m) = apicid <$> cpus m).
  { rewrite list_fmap_insert, Hid. apply list_insert_id.
    by rewrite list_lookup_fmap, Hcp. }
  split; simpl; rewrite ?length_insert.
  - apply Habs.
  - rewrite Hids. apply Habs.
  - rewrite Hids. apply Habs.
  - intros j Hj. destruct (decide (k = j)) as [<-|Hne].
    + exists cp', e', h', b.
      rewrite !list_lookup_insert_eq by (by eapply lookup_lt_Some). done.
    + rewrite !list_lookup_insert_ne by done. by apply (abs_cpu _ _ _ Habs).
  - done.
Qed.

(** Nobody else can hold a lock that [k] holds or that is free. *)
Lemma lock_abs_acquired H k h l ls (lk0 : lockid -> spinlock) :
  H !! k = Some h -> (forall j hj, H !! j = Some hj -> l ∉ hj) ->
  (forall l', lock_abs (lk0 l') l' H) ->
  locked (ls l) = 1 -> lcpu (ls l) = Some k ->
  (forall l', l' <> l -> ls l' = lk0 l') ->
  forall l', lock_abs (ls l') l' (<[k := l :: h]> H).
Proof.
  intros Hh Hfree Hold Hl Hc Hrest l'.
  pose proof (lookup_lt_Some _ _ _ Hh) as Hlt.
  destruct (decide (l' = l)) as [->|Hne].
  - right. exists k, (l :: h). rewrite list_lookup_insert_eq by done.
    repeat split; [done|done|set_solver|].
    intros j h' Hj. rewrite list_lookup_insert_ne by done. eauto.
  - rewrite Hrest by done.
    destruct (Hold l') as [(H0 & Hn & Hno)|(j & hj & H1 & Hj & Hjh & Hin & Hot)].
    + left. split; [done|]. split; [done|]. intros j hj Hj.
      apply lookup_seq_insert in Hj as [[<- ->]|[_ Hj]]; [|eauto].
      apply not_elem_of_cons. eauto.
    + right. destruct (decide (j = k)) as [->|Hjk].
      * exists k, (l :: h). rewrite list_lookup_insert_eq by done.
        repeat split; [done|done|set_solver|].
        intros j' h' Hj'. rewrite list_lookup_insert_ne by done. eauto.
      * exists j, hj. rewrite list_lookup_insert_ne by done.
        repeat split; [done..|]. intros j' h' Hj' Hh'.
        apply lookup_seq_insert in Hh' as [[<- ->]|[_ Hh']]; [|eauto].
        apply not_elem_of_cons. eauto.
Qed.

Lemma lock_abs_released H k h l ls (lk0 : lockid -> spinlock) :
  H !! k = Some h -> l ∈ h ->
  (forall l', lock_abs (lk0 l') l' H) ->
  locked (ls l) = 0 -> lcpu (ls l) = None ->
  (forall l', l' <> l -> ls l' = lk0 l') ->
  forall l', lock_abs (ls l') l' (<[k := List.remove lockid_eq_dec l h]> H).
Proof.
  intros Hh Hin Hold Hl Hc Hrest l'.
  assert (Hrem : forall x, x ∈ List.remove lockid_eq_dec l h <-> x ∈ h /\ x <> l).
  { intros x. rewrite !list_elem_of_In. split; [apply in_remove|].
    intros [? ?]. by apply in_in_remove. }
  pose proof (lookup_lt_Some _ _ _ Hh) as Hlt.
  destruct (decide (l' = l)) as [->|Hne].
  - left. split; [done|]. split; [done|]. intros j hj Hj.
    apply lookup_seq_insert in Hj as [[<- ->]|[Hjk Hj]]; [by rewrite Hrem; naive_solver|].
    destruct (Hold l) as [(_ & _ & Hno)|(i & hi & _ & _ & Hi & Hil & Hot)]; [eauto|].
    destruct (decide (i = k)) as [->|Hik]; [eauto|].
    exfalso. eapply (Hot k); eauto.
  - rewrite Hrest by done.
    destruct (Hold l') as [(H0 & Hn & Hno)|(j & hj & H1 & Hj & Hjh & Hin' & Hot)].
    + left. split; [done|]. split; [done|]. intros j hj Hj.
      apply lookup_seq_insert in Hj as [[<- ->]|[_ Hj]]; [|eauto].
      rewrite Hrem. intros [? _]. by eapply Hno.
    + right. destruct (decide (j = k)) as [->|Hjk].
      * simplify_eq. exists k, (List.remove lockid_eq_dec l h).
        rewrite list_lookup_insert_eq by done.
        repeat split; [done|done|by rewrite Hrem|].
        intros j' h' Hj'. rewrite list_lookup_insert_ne by done. eauto.
      * exists j, hj. rewrite list_lookup_insert_ne by done.
        repeat split; [done..|]. intros j' h' Hj' Hh'.
        apply lookup_seq_insert in Hh' as [[<- ->]|[_ Hh']]; [|eauto].
        rewrite Hrem. intros [? _]. by eapply Hot.
Qed.

Lemma apicid_push e cp : apicid (push_cpu e cp) = apicid cp.
Proof. unfold push_cpu. by destruct (ncli cp =? 0). Qed.

Lemma ncli_push e cp :
  0 <= ncli cp < 2 ^ 31 - 1 -> ncli (push_cpu e cp) = ncli cp + 1.
Proof. intros H. unfold push_cpu. simpl. rewrite s32_small; lia. Qed.

Lemma push_cpu_abs cp e h b l :
  cpu_abs cp e h b -> l ∉ h -> Z.of_nat (length h) < 2 ^ 31 - 2 ->
  cpu_abs (push_cpu e cp) (clear_if e) (l :: h) b.
Proof.
  intros (Hn & Hnd & Hif) Hl Hlen. unfold cpu_abs, push_cpu.
  split; [simpl; rewrite s32_small; lia|].
  split; [by constructor|]. split; [apply clear_if_off|]. rewrite Hn.
  destruct h as [|l' h]; [done|]. by destruct Hif.
Qed.

Lemma pop_cpu_abs cp e h b l :
  cpu_abs cp e h b -> l ∈ h ->
  cpu_abs (cp <| ncli := ncli cp - 1 |>)
    (if (ncli cp =? 1) && negb (intena cp =? 0) then Z.lor e FL_IF else e)
    (List.remove lockid_eq_dec l h) b.
Proof.
  intros (Hn & Hnd & Hif) Hl.
  assert (Hlen : S (length (List.remove lockid_eq_dec l h)) = length h).
  { clear -Hl Hnd. induction Hnd as [|x h Hx Hnd IH]; [set_solver|]. simpl.
    destruct (lockid_eq_dec l x) as [->|Hne]; [by rewrite remove_not_elem|].
    simpl. rewrite IH; [done|set_solver]. }
  assert (Hnd' : NoDup (List.remove lockid_eq_dec l h)).
  { by apply NoDup_remove_lock. }
  unfold cpu_abs. simpl. split; [lia|]. split; [done|].
  destruct h as [|x h]; [set_solver|]. destruct Hif as [He Hint].
  rewrite Hn, Hint.
  destruct (List.remove lockid_eq_dec l (x :: h)) as [|y h'] eqn:Hr.
  - rewrite <- Hlen. simpl. destruct b; simpl; [|by rewrite He].
    destruct (Z.eqb_spec (Z.land (Z.lor e FL_IF) FL_IF) 0) as [H0|]; [|done].
    exfalso. rewrite Z.land_lor_distr_l, He in H0. done.
  - destruct (Z.eqb_spec (Z.of_nat (length (x :: h))) 1) as [Heq|_];
      [rewrite <- Hlen in Heq; simpl in Heq; lia|]. by split.
Qed.

(** acquire() refines the thread-level [Prelude.acquire]: it panics exactly
    when this processor already holds the lock, and otherwise, the lock being
    free, returns with the lock held by this processor, the nesting depth one
    deeper, and the processor's saved interrupt state unchanged. *)
Theorem acquire_refines m H B k h l v c t :
  machine_abs m H B -> H !! k = Some h -> (k < length (cpus m))%nat ->
  Z.of_nat (length h) < 2 ^ 31 - 2 ->
  (forall j hj, j <> k -> H !! j = Some hj -> l ∉ hj) ->
  match Prelude.acquire l (Ctx h t) tt with
  | Ok _ c' _ =>
      exists m', acquire k l v [] c m = Ok tt c m' /\
        machine_abs m' (<[k := held c']> H) B
  | Panic msg => acquire k l v [] c m = Panic msg
  | _ => False
  end.
Proof.
  intros Habs Hh Hk Hlen Hfree.
  destruct (abs_cpu _ _ _ Habs k Hk) as (cp & e & h' & b & Hcp & He & Hh' & Hb & Hc).
  simplify_eq. pose proof (abs_cpu_ok _ _ _ _ _ Habs Hcp) as Hok.
  pose proof (abs_holds _ _ _ _ _ l Habs Hh) as Hhold.
  pose proof (with_cpu_id m k _ Hok e cp He Hcp) as Hm.
  assert (Hn : 0 <= ncli cp < 2 ^ 31 - 2) by (destruct Hc; lia).
  destruct (decide (l ∈ h)) as [Hin|Hnin].
  - rewrite Prelude.acquire_twice by done. unfold acquire. rewrite <- Hm.
    erewrite bind_run by (by apply (pushcli_run m k _ Hok)).
    rewrite bindE, (holding_nested m k _ Hok).
    + cbn [obind]. by rewrite Hhold, bool_decide_eq_true_2.
    + apply apicid_push.
    + rewrite ncli_push; lia.
    + apply clear_if_off.
  - rewrite Prelude.acquire_ok by done.
    assert (H0 : locked (locks m l) = 0).
    { destruct (abs_lock _ _ _ Habs l) as [(? & _)|(j & hj & _ & _ & Hj & Hjin & _)];
        [done|]. destruct (decide (j = k)); [congruence|]. by destruct (Hfree j hj). }
    destruct (acquire_free m k _ Hok l v e cp c eq_refl Hn H0)
      as (ls & Hrun & Hl1 & Hlk & _ & Hrest). rewrite Hm in Hrun. rewrite Hrun.
    eexists. split; [done|]. simpl.
    eapply machine_abs_update; eauto using push_cpu_abs.
    + apply apicid_push.
    + eapply lock_abs_acquired; eauto; [|apply Habs].
      intros j hj Hj. destruct (decide (j = k)); [congruence|eauto].
Qed.

(** release() refines the thread-level [Prelude.release]: it panics exactly
    when this processor does not hold the lock, and otherwise returns with the
    lock free, and the interrupts restored to their state before the outermost
    pushcli() when that was the last lock. *)
Theorem release_refines m H B k h l c t :
  machine_abs m H B -> H !! k = Some h -> (k < length (cpus m))%nat ->
  Z.of_nat (length h) < 2 ^ 31 - 1 ->
  match Prelude.release l (Ctx h t) tt with
  | Ok _ c' _ =>
      exists m', release k l c m = Ok tt c m' /\
        machine_abs m' (<[k := held c']> H) B
  | Panic msg => release k l c m = Panic msg
  | _ => False
  end.
Proof.
  intros Habs Hh Hk Hlen.
  destruct (abs_cpu _ _ _ Habs k Hk) as (cp & e & h' & b & Hcp & He & Hh' & Hb & Hc).
  simplify_eq. pose proof (abs_cpu_ok _ _ _ _ _ Habs Hcp) as Hok.
  pose proof (abs_holds _ _ _ _ _ l Habs Hh) as Hhold.
  pose proof (with_cpu_id m k _ Hok e cp He Hcp) as Hm.
  assert (Hn : 0 <= ncli cp < 2 ^ 31 - 1) by (destruct Hc; lia).
  unfold Prelude.release. simpl. case_decide as Hin.
  - assert (Hpos : 0 < ncli cp /\ Z.land e FL_IF = 0).
    { destruct Hc as (Hn' & _ & Hif). destruct h as [|x h]; [set_solver|].
      destruct Hif. simpl in Hn'. split; [lia|done]. }
    destruct (release_held m k _ Hok l e cp c eq_refl) as (ls & Hrun & Hl0 & Hlc & Hrest).
    { lia. } { apply Hpos. } { by rewrite Hhold, bool_decide_eq_true_2. }
    rewrite Hm in Hrun. rewrite Hrun.
    eexists. split; [done|]. simpl.
    eapply machine_abs_update; eauto using pop_cpu_abs.
    eapply lock_abs_released; eauto. apply Habs.
  - unfold release. rewrite <- Hm.
    erewrite bind_run by (by apply (holding_run m k _ Hok)).
    rewrite Hhold, bool_decide_eq_false_2 by done. done.
Qed.

(** ** Interleavings of single memory accesses

    The processors run acquire() and release() of one lock concurrently, one
    access to the lock at a time. *)

Inductive lpc := Outside | Spinning | Got | Critical | Leaving.

#[export] Instance lpc_eq_dec : EqDecision lpc.
Proof. solve_decision. Defined.

Record lockst := mklockst {
  word : Z;               (* lk->locked *)
  owner : option nat;     (* lk->cpu *)
  at_pc : list lpc;       (* where each processor is *)
}.

(** The test of holding(). *)
Definition lholds (s : lockst) (k : nat) : bool :=
  negb (word s =? 0) && bool_decide (owner s = Some k).

Inductive lstep : lockst -> lockst -> Prop :=
| step_enter s k :        (* acquire(): pushcli and the holding() test *)
    at_pc s !! k = Some Outside -> lholds s k = false ->
    lstep s (mklockst (word s) (owner s) (<[k := Spinning]> (at_pc s)))
| step_xchg_busy s k :    (* xchg returned non-zero *)
    at_pc s !! k = Some Spinning -> word s <> 0 ->
    lstep s (mklockst 1 (owner s) (at_pc s))
| step_xchg s k :         (* xchg returned zero *)
    at_pc s !! k = Some Spinning -> word s = 0 ->
    lstep s (mklockst 1 (owner s) (<[k := Got]> (at_pc s)))
| step_own s k :          (* lk->cpu = mycpu() *)
    at_pc s !! k = Some Got ->
    lstep s (mklockst (word s) (Some k) (<[k := Critical]> (at_pc s)))
| step_disown s k :       (* release(): the holding() test, lk->cpu = 0 *)
    at_pc s !! k = Some Critical -> lholds s k = true ->
    lstep s (mklockst (word s) None (<[k := Leaving]> (at_pc s)))
| step_clear s k :        (* movl $0, lk->locked *)
    at_pc s !! k = Some Leaving ->
    lstep s (mklockst 0 (owner s) (<[k := Outside]> (at_pc s))).

Definition lock_init (n : nat) : lockst := mklockst 0 None (replicate n Outside).

Definition inside (p : lpc) : bool :=
  match p with Got | Critical | Leaving => true | _ => false end.

(** Either the lock word is clear and everybody is outside, or exactly one
    processor is inside, and [owner] names it while it is critical. *)
Definition lock_inv (s : lockst) : Prop :=
  (word s = 0 /\ owner s = None /\
   forall k p, at_pc s !! k = Some p -> inside p = false) \/
  (exists k p, word s = 1 /\ at_pc s !! k = Some p /\ inside p = true /\
     owner s = (if decide (p = Critical) then Some k else None) /\
     forall j q, j <> k -> at_pc s !! j = Some q -> inside q = false).

Lemma lock_inv_step s s' : lock_inv s -> lstep s s' -> lock_inv s'.
Proof.
  intros Hinv Hstep.
  destruct Hstep as [s k Hk Hh|s k Hk Hw|s k Hk Hw|s k Hk|s k Hk Hh|s k Hk];
    pose proof (lookup_lt_Some _ _ _ Hk) as Hlt;
    destruct Hinv as [(Hw0 & Hown & Hout)|(i & p & Hw1 & Hi & Hp & Hown & Hout)].
  all: try (specialize (Hout _ _ Hk); done).
  all: try (exfalso; done).
  - left. repeat split; [done..|]. simpl. intros j q Hj.
    apply lookup_seq_insert in Hj as [[_ ->]|[_ Hj]]; eauto.
  - right. exists i, p. simpl.
    assert (i <> k) by (intros ->; by simplify_eq).
    rewrite list_lookup_insert_ne by done. repeat split; [done..|].
    intros j q Hj Hq. apply lookup_seq_insert in Hq as [[_ ->]|[_ Hq]]; eauto.
  - right. exists i, p. by repeat split.
  - right. exists k, Got. simpl. rewrite list_lookup_insert_eq by done.
    repeat split; [done|]. intros j q Hj. rewrite list_lookup_insert_ne by done.
    eauto.
  - exfalso. lia.
  - assert (i = k) as ->.
    { destruct (decide (i = k)); [done|]. by specialize (Hout k Got ltac:(done) Hk). }
    right. exists k, Critical. simpl. rewrite list_lookup_insert_eq by done.
    repeat split; [done|]. intros j q Hj. rewrite list_lookup_insert_ne by done.
    eauto.
  - assert (i = k) as ->.
    { destruct (decide (i = k)); [done|].
      by specialize (Hout k Critical ltac:(done) Hk). }
    right. exists k, Leaving. simpl. rewrite list_lookup_insert_eq by done.
    repeat split; [done|]. intros j q Hj. rewrite list_lookup_insert_ne by done.
    eauto.
  - assert (i = k) as ->.
    { destruct (decide (i = k)); [done|].
      by specialize (Hout k Leaving ltac:(done) Hk). }
    left. simplify_eq. simpl. rewrite Hown. repeat split.
    intros j q Hj. apply lookup_seq_insert in Hj as [[_ ->]|[Hne Hj]]; [done|eauto].
Qed.

Lemma lock_inv_init n : lock_inv (lock_init n).
Proof.
  left. repeat split; [done..|]. simpl. intros k p [-> _]%lookup_replicate. done.
Qed.

(** C1: Under every interleaving, at most one processor is between the
    successful xchg of acquire() and the store that ends release(); holding()
    is true for the processor in its critical section, so its release() does
    not panic, and false for a processor outside, so its acquire() does not. *)
Theorem mutual_exclusion n s :
  rtc lstep (lock_init n) s ->
  (forall j k p q, at_pc s !! j = Some p -> at_pc s !! k = Some q ->
     inside p = true -> inside q = true -> j = k) /\
  (forall k, at_pc s !! k = Some Critical -> lholds s k = true) /\
  (forall k, at_pc s !! k = Some Outside -> lholds s k = false).
Proof.
  intros Hr.
  assert (Hinv : lock_inv s).
  { revert Hr. generalize (lock_inv_init n). generalize (lock_init n).
    intros s0 H0 Hr. induction Hr; eauto using lock_inv_step. }
  destruct Hinv as [(Hw & Hown & Hout)|(i & p & Hw & Hi & Hp & Hown & Hout)].
  - repeat split.
    + intros j k p q Hj _ Hp _. apply Hout in Hj. congruence.
    + intros k Hk. by apply Hout in Hk.
    + intros k _. unfold lholds. by rewrite Hw.
  - assert (Huniq : forall j q, at_pc s !! j = Some q -> inside q = true -> j = i).
    { intros j q Hj Hq. destruct (decide (j = i)); [done|].
      apply Hout in Hj; [congruence|done]. }
    repeat split.
    + intros j k p' q Hj Hk Hp' Hq. transitivity i; [eauto|symmetry; eauto].
    + intros k Hk. assert (k = i) as -> by eauto. simplify_eq.
      unfold lholds. rewrite Hw, Hown. simpl. by apply bool_decide_eq_true.
    + intros k Hk. unfold lholds. rewrite Hw, Hown. simpl.
      apply bool_decide_eq_false. case_decide as Hc; [|done].
      intros [= ->]. by simplify_eq.
Qed.

(** *** A two-processor machine, for the witnesses *)

Definition demo_machine : machine :=
  mkmachine [mkcpu 0 0 0 None; mkcpu 5 0 0 None] [514; 514] [0; 5]
    (fun _ => mkspin "demo" 0 None []) (fun _ => 0).

Lemma demo_machine_abs : machine_abs demo_machine [[]; []] [true; true].
Proof.
  split; try done.
  - repeat constructor; set_solver.
  - intros [|[|k]] Hk; simpl in Hk; [| |lia]; do 4 eexists;
      repeat split; constructor.
  - intros l. left. repeat split. intros [|[|k]] h Hh; simplify_eq/=; set_solver.
Qed.

Lemma acquire_refines_witness :
  exists m', acquire 1 Lptable 0 [] (Ctx [] []) demo_machine
               = Ok tt (Ctx [] []) m' /\ machine_abs m' [[]; [Lptable]] [true; true].
Proof.
  exact (acquire_refines demo_machine [[]; []] [true; true] 1 [] Lptable 0
    (Ctx [] []) [] demo_machine_abs eq_refl ltac:(simpl; lia) ltac:(simpl; lia)
    ltac:(intros [|[|j]] hj ? ?; simplify_eq/=; set_solver)).
Defined.

Lemma release_refines_witness :
  release 0 Lptable (Ctx [] []) demo_machine = Panic "release".
Proof.
  exact (release_refines demo_machine [[]; []] [true; true] 0 [] Lptable
    (Ctx [] []) [] demo_machine_abs eq_refl ltac:(simpl; lia) ltac:(simpl; lia)).
Defined.

Lemma mutual_exclusion_witness :
  lholds (mklockst 1 (Some 0%nat) [Critical; Spinning]) 0 = true.
Proof.
  apply (mutual_exclusion 2 (mklockst 1 (Some 0%nat) [Critical; Spinning])).
  - eapply rtc_l; [apply (step_enter _ 0); reflexivity|].
    eapply rtc_l; [apply (step_enter _ 1); reflexivity|].
    eapply rtc_l; [apply (step_xchg _ 0); reflexivity|].
    eapply rtc_l; [apply (step_own _ 0); reflexivity|]. apply rtc_refl.
  - reflexivity.
Defined.
