(* ===== verification/Kalloc.v ===== *)
(** * The physical page allocator (src/kalloc.c)

    Physical memory is a map from page addresses (kernel virtual, as kalloc()
    returns them) to page contents, typed by the C view its user takes of the
    page: a link of the free list, an array of 32-bit words (page directories
    and page tables), or raw bytes (user memory).  [Run next] is a page filled
    with 0x01 bytes whose first word is the [struct run] link. *)

From stdpp Require Import prelude gmap strings list.
From Stdlib Require Import ZArith Lia.
From S2P Require Import Prelude Mmu.

Inductive page :=
| Run (next : Z)
| Words (ws : list Z)
| Bytes (bs : list Z).

Record kmem := mkkmem {
  pages : gmap Z page;
  use_lock : bool;
  freelist : Z;          (* 0 is the null pointer *)
}.
#[export] Instance kmem_settable : Settable kmem :=
  fun k => mkkmem (pages k) (use_lock k) (freelist k).

Section Kalloc.
(** The linker symbol [end]: the first address after the kernel image. *)
Context (kend : Z).

Definition lock_kmem : M kmem unit :=
  k ← getS; if use_lock k then acquire Lkmem else mret tt.

Definition unlock_kmem : M kmem unit :=
  k ← getS; if use_lock k then release Lkmem else mret tt.

Definition kfree_ok (v : Z) : bool :=
  (v mod PGSIZE =? 0) && (kend <=? v) && (V2P v <? PHYSTOP).

Definition kfree (v : Z) : M kmem unit :=
  if negb (kfree_ok v) then panic "kfree" else
  lock_kmem ;;
  modS (fun k => k <| pages ::= <[v := Run (freelist k)]> |> <| freelist := v |>) ;;
  unlock_kmem.

Definition kalloc : M kmem Z :=
  lock_kmem ;;
  k ← getS;
  let r := freelist k in
  (if r =? 0 then mret tt else
   match pages k !! r with
   | Some (Run next) => modS (fun k => k <| freelist := next |>)
   | _ => undef
   end) ;;
  unlock_kmem ;;
  mret r.

(** [for(; p + PGSIZE <= vend; p += PGSIZE) kfree(p);] *)
Fixpoint freerange_loop (fuel : nat) (p vend : Z) : M kmem unit :=
  match fuel with
  | O => nofuel
  | S fuel' =>
      if u32 (p + PGSIZE) <=? vend
      then kfree p ;; freerange_loop fuel' (u32 (p + PGSIZE)) vend
      else mret tt
  end.

Definition freerange (vstart vend : Z) : M kmem unit :=
  freerange_loop (S (Z.to_nat ((vend - PGROUNDUP vstart) / PGSIZE)))
    (PGROUNDUP vstart) vend.

Definition kinit1 (vstart vend : Z) : M kmem unit :=
  initlock Lkmem "kmem" ;;
  modS (fun k => k <| use_lock := false |>) ;;
  freerange vstart vend.

Definition kinit2 (vstart vend : Z) : M kmem unit :=
  freerange vstart vend ;;
  modS (fun k => k <| use_lock := true |>).

(** ** The free list

    [chain ps r fl]: following the links from [r] visits the pages [fl]. *)
Fixpoint chain (ps : gmap Z page) (r : Z) (fl : list Z) : Prop :=
  match fl with
  | [] => r = 0
  | p :: fl' => r = p /\ exists next, ps !! p = Some (Run next) /\ chain ps next fl'
  end.

Definition good_page (v : Z) : Prop := kfree_ok v = true /\ 0 < v < 2 ^ 32.

Record kinv (k : kmem) (fl : list Z) : Prop := {
  kinv_chain : chain (pages k) (freelist k) fl;
  kinv_nodup : NoDup fl;
  kinv_good : Forall good_page fl;
}.

Lemma chain_insert ps r fl v pg :
  v ∉ fl -> chain ps r fl -> chain (<[v := pg]> ps) r fl.
Proof.
  revert r. induction fl as [|p fl IH]; intros r Hv; simpl; [done|].
  apply not_elem_of_cons in Hv as [Hne Hv].
  intros (-> & next & Hp & Hc). split; [done|]. exists next.
  rewrite lookup_insert_ne by done. auto.
Qed.

Lemma chain_Run ps r fl p :
  chain ps r fl -> p ∈ fl -> exists next, ps !! p = Some (Run next).
Proof.
  revert r. induction fl as [|q fl IH]; intros r; simpl; [set_solver|].
  intros (-> & next & Hp & Hc) [->|Hin]%elem_of_cons; [eauto|]. by eapply IH.
Qed.

(** A page in use as a table or as bytes is not on the free list. *)
Lemma kinv_not_free k fl p pg :
  kinv k fl -> pages k !! p = Some pg -> (forall n, pg <> Run n) -> p ∉ fl.
Proof.
  intros Hk Hp Hpg Hin. destruct (chain_Run _ _ _ _ (kinv_chain _ _ Hk) Hin).
  naive_solver.
Qed.

(** Writing to a page that is not on the free list keeps the allocator intact. *)
Lemma kinv_write k fl v pg :
  kinv k fl -> v ∉ fl -> kinv (k <| pages ::= <[v := pg]> |>) fl.
Proof. intros [] Hv. split; simpl; auto using chain_insert. Qed.

Definition lock_free (k : kmem) (h : list lockid) : Prop :=
  use_lock k = true -> Lkmem ∉ h.

Ltac run_kmem k Hl :=
  unfold kalloc, lock_kmem, unlock_kmem, lock_free in *; mrun;
  let E := fresh "Hlock" in
  destruct (use_lock k) eqn:E; [specialize (Hl eq_refl)|]; mrun.

Lemma kalloc_empty k h t :
  kinv k [] -> lock_free k h -> kalloc (Ctx h t) k = Ok 0 (Ctx h t) k.
Proof.
  intros Hk Hl. pose proof (kinv_chain _ _ Hk) as H0. simpl in H0.
  run_kmem k Hl; rewrite H0, Z.eqb_refl; mrun; rewrite Hlock; mrun; done.
Qed.

Lemma kalloc_cons k p fl h t :
  kinv k (p :: fl) -> lock_free k h ->
  exists next, kalloc (Ctx h t) k = Ok p (Ctx h t) (k <| freelist := next |>) /\
    kinv (k <| freelist := next |>) fl.
Proof.
  intros [Hc Hnd Hgood] Hl. simpl in Hc. destruct Hc as (Hr & next & Hp & Hc).
  exists next. apply NoDup_cons in Hnd as [_ Hnd].
  apply Forall_cons in Hgood as [[_ Hp0] Hgood]. split; [|by split].
  assert (Hnz : (p =? 0) = false) by lia.
  run_kmem k Hl; rewrite Hr, Hnz, Hp; mrun; simpl; rewrite Hlock; mrun; simpl; by rewrite ?Hlock.
Qed.

Definition kfreed (v : Z) (k : kmem) : kmem :=
  k <| pages ::= <[v := Run (freelist k)]> |> <| freelist := v |>.

Lemma kfree_run k v h t :
  kfree_ok v = true -> lock_free k h ->
  kfree v (Ctx h t) k = Ok tt (Ctx h t) (kfreed v k).
Proof.
  intros Hv Hl. unfold kfree. rewrite Hv. cbn [negb].
  run_kmem k Hl; simpl; rewrite Hlock; mrun; unfold kfreed; simpl; by rewrite Hlock.
Qed.

Lemma kfree_inv k fl v :
  kinv k fl -> good_page v -> v ∉ fl -> kinv (kfreed v k) (v :: fl).
Proof.
  intros Hk Hv Hnin. destruct Hk as [Hc Hnd Hg]. split; simpl.
  - split; [done|]. exists (freelist k). split; [apply lookup_insert_eq|].
    by apply chain_insert.
  - by constructor.
  - by constructor.
Qed.

(** kfree() accepts exactly the page-aligned addresses between [end] and
    PHYSTOP and panics on every other one; freeing an accepted page that is not
    free already makes it the next page kalloc() returns, and that round trip
    gives back the same free list. *)
Theorem kfree_kalloc k fl v h t :
  kinv k fl -> lock_free k h -> v ∉ fl -> 0 < v < 2 ^ 32 ->
  if kfree_ok v then
    exists k1 k2, kfree v (Ctx h t) k = Ok tt (Ctx h t) k1 /\
      kinv k1 (v :: fl) /\
      kalloc (Ctx h t) k1 = Ok v (Ctx h t) k2 /\ kinv k2 fl /\
      freelist k2 = freelist k
  else kfree v (Ctx h t) k = Panic "kfree".
Proof.
  intros Hk Hl Hv Hpos. destruct (kfree_ok v) eqn:E.
  - pose proof (kfree_inv k fl v Hk (conj E Hpos) Hv) as Hk1.
    assert (Hl1 : lock_free (kfreed v k) h) by done.
    destruct (kalloc_cons _ _ _ h t Hk1 Hl1) as (next & Hrun & Hk2).
    exists (kfreed v k), ((kfreed v k) <| freelist := next |>).
    rewrite kfree_run by done. repeat split; try done; try apply Hk2; try apply Hk1.
    simpl. pose proof (kinv_chain _ _ Hk2) as Hc2.
    pose proof (kinv_chain _ _ Hk) as Hc. simpl in Hc2.
    destruct fl as [|p fl]; simpl in *; [congruence|naive_solver].
  - unfold kfree. by rewrite E.
Qed.

(** ** Initialisation *)

Definition page_list (p : Z) (n : nat) : list Z :=
  (fun i => p + 4096 * Z.of_nat i) <$> seq 0 n.

Lemma page_list_S p n : page_list p (S n) = p :: page_list (p + 4096) n.
Proof.
  unfold page_list. simpl. f_equal; [lia|].
  rewrite <- fmap_S_seq, <- list_fmap_compose. apply list_fmap_ext.
  intros i x _. simpl. lia.
Qed.

Lemma elem_of_page_list p n v :
  v ∈ page_list p n -> exists i, 0 <= i < Z.of_nat n /\ v = p + 4096 * i.
Proof.
  unfold page_list. intros (i & -> & Hi)%list_elem_of_fmap.
  apply elem_of_seq in Hi. exists (Z.of_nat i). lia.
Qed.

Lemma freerange_loop_S n p vend :
  freerange_loop (S n) p vend =
  if u32 (p + PGSIZE) <=? vend
  then kfree p ;; freerange_loop n (u32 (p + PGSIZE)) vend else mret tt.
Proof. reflexivity. Qed.

Lemma freerange_loop_run n p vend k fl h t :
  kinv k fl -> lock_free k h ->
  0 <= p -> p + 4096 * Z.of_nat n <= vend < p + 4096 * (Z.of_nat n + 1) ->
  vend < 2 ^ 32 - 4096 ->
  Forall good_page (page_list p n) -> (forall v, v ∈ page_list p n -> v ∉ fl) ->
  exists k', freerange_loop (S n) p vend (Ctx h t) k = Ok tt (Ctx h t) k' /\
    kinv k' (reverse (page_list p n) ++ fl) /\ use_lock k' = use_lock k.
Proof.
  revert p k fl. induction n as [|n IH]; intros p k fl Hk Hl Hp Hr Hend Hg Hdisj.
  - exists k. rewrite freerange_loop_S. unfold PGSIZE. rewrite u32_small by lia.
    destruct (Z.leb_spec (p + 4096) vend); [lia|done].
  - rewrite page_list_S in *. apply Forall_cons in Hg as [Hgp Hg].
    assert (Hpfl : p ∉ fl) by (apply Hdisj; set_solver).
    rewrite freerange_loop_S. unfold PGSIZE. rewrite u32_small by lia.
    destruct (Z.leb_spec (p + 4096) vend); [|lia].
    rewrite bindE, kfree_run by (done || apply Hgp). cbn [obind].
    destruct (IH (p + 4096) (kfreed p k) (p :: fl)) as (k' & Hrun & Hk' & Hu);
      try done; try lia.
    + by apply kfree_inv.
    + intros v Hv. apply not_elem_of_cons. split; [|apply Hdisj; set_solver].
      apply elem_of_page_list in Hv as (i & Hi & ->). lia.
    + exists k'. split; [done|]. split; [|done].
      by rewrite reverse_cons, <- app_assoc.
Qed.

Lemma freerange_run vs vend k fl h t :
  let p := PGROUNDUP vs in
  let n := Z.to_nat ((vend - p) / PGSIZE) in
  kinv k fl -> lock_free k h -> p <= vend < 2 ^ 32 - 4096 ->
  Forall good_page (page_list p n) -> (forall v, v ∈ page_list p n -> v ∉ fl) ->
  exists k', freerange vs vend (Ctx h t) k = Ok tt (Ctx h t) k' /\
    kinv k' (reverse (page_list p n) ++ fl) /\ use_lock k' = use_lock k.
Proof.
  intros p n Hk Hl Hend Hg Hd. unfold freerange. fold p n.
  assert (0 <= p) by (unfold p; rewrite PGROUNDUP_div;
    pose proof (u32_range (vs + 4095)); pose proof (Z.div_pos (u32 (vs + 4095)) 4096); lia).
  apply freerange_loop_run; try done; [|lia].
  unfold n, PGSIZE. rewrite Z2Nat.id by (apply Z.div_pos; lia).
  pose proof (Z.div_mod (vend - p) 4096). pose proof (Z.mod_pos_bound (vend - p) 4096).
  lia.
Qed.

Lemma page_list_range p n v :
  p mod 4096 = 0 -> v ∈ page_list p n <->
  v mod 4096 = 0 /\ p <= v < p + 4096 * Z.of_nat n.
Proof.
  intros Hp. split.
  - intros (i & Hi & ->)%elem_of_page_list.
    replace (p + 4096 * i) with (p + i * 4096) by lia.
    rewrite Z_mod_plus_full. lia.
  - intros [Hv Hr]. apply list_elem_of_fmap. exists (Z.to_nat ((v - p) / 4096)).
    pose proof (Z.div_mod v 4096). pose proof (Z.div_mod p 4096).
    assert (Hd : (v - p) / 4096 = v / 4096 - p / 4096).
    { symmetry. apply (Z.div_unique _ _ _ 0); lia. }
    rewrite Hd. split; [rewrite Z2Nat.id; lia|]. apply elem_of_seq. lia.
Qed.

Lemma page_list_upto p ve v :
  p mod 4096 = 0 -> ve mod 4096 = 0 -> p <= ve ->
  v ∈ page_list p (Z.to_nat ((ve - p) / PGSIZE)) <-> v mod 4096 = 0 /\ p <= v < ve.
Proof.
  intros Hp Hve Hle. rewrite page_list_range by done. unfold PGSIZE.
  rewrite Z2Nat.id by (apply Z.div_pos; lia).
  assert (4096 * ((ve - p) / 4096) = ve - p); [|intuition lia].
  symmetry. apply Z.div_exact; [lia|].
  by rewrite Zminus_mod, Hp, Hve.
Qed.

(** ** Who owns which page

    The allocator as its clients drive it: they allocate, free a page they
    hold, and write whatever they like to the pages they hold. *)
Inductive kstep : kmem * list Z -> kmem * list Z -> Prop :=
| kstep_alloc k k' owned p h t :
    kalloc (Ctx h t) k = Ok p (Ctx h t) k' ->
    lock_free k h ->
    kstep (k, owned) (k', if p =? 0 then owned else p :: owned)
| kstep_free k k' owned1 owned2 v h t :
    kfree v (Ctx h t) k = Ok tt (Ctx h t) k' ->
    lock_free k h ->
    kstep (k, owned1 ++ v :: owned2) (k', owned1 ++ owned2)
| kstep_write k owned v pg :
    v ∈ owned ->
    kstep (k, owned) (k <| pages ::= <[v := pg]> |>, owned).

Definition accounted (fl0 : list Z) (s : kmem * list Z) : Prop :=
  exists fl, kinv s.1 fl /\ fl ++ s.2 ≡ₚ fl0 /\ Forall good_page fl0 /\ NoDup fl0.

Lemma kstep_accounted fl0 s s' : kstep s s' -> accounted fl0 s -> accounted fl0 s'.
Proof.
  intros Hs (fl & Hk & Hp & Hg & Hnd). pose proof Hnd as Hnd'. rewrite <- Hp in Hnd'.
  destruct Hs as [k k' owned p h t Hrun Hl|k k' o1 o2 v h t Hrun Hl|k owned v pg Hv];
    simpl in *.
  - destruct fl as [|q fl].
    + rewrite kalloc_empty in Hrun by done. simplify_eq/=. by exists [].
    + destruct (kalloc_cons _ _ _ h t Hk Hl) as (next & Hrun' & Hk').
      rewrite Hrun' in Hrun. simplify_eq. exists fl.
      pose proof (kinv_good _ _ Hk) as [[_ Hq] _]%Forall_cons.
      destruct (Z.eqb_spec p 0); [lia|]. simpl. split; [done|].
      by rewrite <- Permutation_middle.
  - assert (Hv : good_page v).
    { rewrite Forall_forall in Hg. apply Hg. rewrite <- Hp. set_solver. }
    rewrite kfree_run in Hrun by (done || apply Hv). simplify_eq.
    exists (v :: fl). simpl. split.
    + apply kfree_inv; [done..|]. intros Hin.
      apply NoDup_app in Hnd' as (_ & Hd & _). apply (Hd v Hin). set_solver.
    + split; [|done]. rewrite <- Hp. by rewrite <- (Permutation_middle o1 o2), <- (Permutation_middle fl).
  - exists fl. split; [|done]. apply kinv_write; [done|]. intros Hin.
    apply NoDup_app in Hnd' as (_ & Hd & _). by apply (Hd v Hin).
Qed.

(** C7: no page is ever handed out twice.  After any sequence of kalloc(),
    kfree() of an allocated page and writes to allocated pages, starting with
    the free list [fl0], the allocated pages are distinct, and the next
    kalloc() either returns a page of [fl0] that nobody holds, or returns 0
    with every page of [fl0] allocated. *)
Theorem kalloc_exclusive k0 fl0 k owned h t :
  kinv k0 fl0 -> rtc kstep (k0, []) (k, owned) -> lock_free k h ->
  NoDup owned /\
  exists p k', kalloc (Ctx h t) k = Ok p (Ctx h t) k' /\
    ((p = 0 /\ owned ≡ₚ fl0) \/ (p ∈ fl0 /\ p ∉ owned)).
Proof.
  intros Hk0 Hsteps Hl.
  assert (Ha : accounted fl0 (k, owned)).
  { eapply (rtc_invariant kstep (accounted fl0)); [apply kstep_accounted|done|].
    exists fl0. simpl. rewrite app_nil_r. split_and!; [done..| |]; apply Hk0. }
  destruct Ha as (fl & Hk & Hp & _ & Hnd). simpl in *.
  rewrite <- Hp in Hnd. pose proof Hnd as (_ & Hd & Ho)%NoDup_app. split; [done|].
  destruct fl as [|p fl].
  - exists 0, k. rewrite kalloc_empty by done. auto.
  - destruct (kalloc_cons _ _ _ h t Hk Hl) as (next & Hrun & _).
    exists p, (k <| freelist := next |>). split; [done|]. right.
    rewrite <- Hp. set_solver.
Qed.

Lemma kend_pages_good v :
  KERNBASE <= kend -> v mod 4096 = 0 -> PGROUNDUP kend <= v < P2V PHYSTOP ->
  kend < 2 ^ 32 - 4095 -> good_page v.
Proof.
  intros Hlo Hv Hr Hend. pose proof (PGROUNDUP_spec kend) as [_ ?];
    [unfold KERNBASE in *; lia|].
  change (P2V PHYSTOP) with 2382364672 in Hr. unfold KERNBASE in *.
  assert (0 < v < 2 ^ 32) by lia. split; [|done]. unfold kfree_ok, V2P, KERNBASE.
  rewrite u32_small by lia. unfold PHYSTOP, PGSIZE. lia.
Qed.

Lemma page_aligned_le p ve :
  p mod 4096 = 0 -> ve mod 4096 = 0 -> p < ve + 4096 -> p <= ve.
Proof. intros. pose proof (Z.div_mod ve 4096). pose proof (Z.div_mod p 4096). lia. Qed.

Lemma kinit1_run k h t ve :
  freelist k = 0 -> KERNBASE <= kend < ve -> ve mod 4096 = 0 -> ve <= P2V PHYSTOP ->
  exists k' fl, kinit1 kend ve (Ctx h t) k =
      Ok tt (Ctx h (t ++ [Einitlock Lkmem "kmem"])) k' /\
    use_lock k' = false /\ kinv k' fl /\
    (forall v, v ∈ fl <-> v mod 4096 = 0 /\ PGROUNDUP kend <= v < ve).
Proof.
  intros Hf Hend Hal Hve. pose proof Hve as Hve'.
  change (P2V PHYSTOP) with 2382364672 in Hve'. unfold KERNBASE in *.
  pose proof (PGROUNDUP_spec kend) as [Hm Hr]; [lia|].
  assert (PGROUNDUP kend <= ve) by (apply page_aligned_le; lia).
  destruct (freerange_run kend ve (k <| use_lock := false |>) [] h
    (t ++ [Einitlock Lkmem "kmem"])) as (k' & Hrun & Hk' & Hu); try done.
  - split; simpl; [done|constructor|constructor].
  - lia.
  - apply Forall_forall. intros v [Hv Hvr]%page_list_upto; [|done..].
    apply kend_pages_good; try done; unfold KERNBASE; lia.
  - intros v _. apply not_elem_of_nil.
  - unfold kinit1, initlock. mrun. rewrite app_nil_r in Hk'.
    eexists _, _. split; [apply Hrun|]. split; [done|]. split; [done|].
    intros v. rewrite elem_of_reverse. by apply page_list_upto.
Qed.

Lemma kinit2_run k h t vs ve fl :
  kinv k fl -> use_lock k = false -> KERNBASE <= kend <= vs -> vs <= ve <= P2V PHYSTOP ->
  vs mod 4096 = 0 -> ve mod 4096 = 0 -> (forall v, v ∈ fl -> v < vs) ->
  exists k' fl', kinit2 vs ve (Ctx h t) k = Ok tt (Ctx h t) k' /\
    use_lock k' = true /\ kinv k' fl' /\
    (forall v, v ∈ fl' <-> (v mod 4096 = 0 /\ vs <= v < ve) \/ v ∈ fl).
Proof.
  intros Hk Hu Hend Hve Hs Hal Hfl. pose proof Hve as Hve'.
  change (P2V PHYSTOP) with 2382364672 in Hve'. unfold KERNBASE in *.
  pose proof (PGROUNDUP_spec kend) as [Hm Hr]; [lia|].
  assert (PGROUNDUP kend <= vs) by (apply page_aligned_le; lia).
  assert (Hvs : PGROUNDUP vs = vs) by (apply PGROUNDUP_aligned; lia).
  destruct (freerange_run vs ve k fl h t) as (k' & Hrun & Hk' & Hu');
    rewrite ?Hvs; try done.
  - intros Hl. congruence.
  - lia.
  - apply Forall_forall. intros v [Hv Hvr]%page_list_upto; [|done|done|lia].
    apply kend_pages_good; try done; unfold KERNBASE; lia.
  - intros v [Hv Hvr]%page_list_upto Hin%Hfl; [lia|done|done|lia].
  - unfold kinit2. rewrite bindE, Hrun. cbn [obind]. rewrite modSE, Hvs in *.
    eexists _, _. split; [done|]. split; [done|].
    split; [split; apply Hk'|]. intros v.
    rewrite elem_of_app, elem_of_reverse, page_list_upto by (done || lia). done.
Qed.

(** booting hands every physical page after the kernel image to the
    allocator exactly once.  kinit1() on [end, 4MB) and kinit2() on
    [4MB, PHYSTOP), as main() calls them, terminate without a panic, and leave
    the lock enabled and a duplicate-free free list that contains exactly the
    page-aligned addresses from the end of the kernel to PHYSTOP. *)
Theorem kinit_all_pages k t :
  freelist k = 0 -> KERNBASE <= kend < P2V (4 * 1024 * 1024) ->
  exists k' fl t',
    (kinit1 kend (P2V (4 * 1024 * 1024)) ;;
     kinit2 (P2V (4 * 1024 * 1024)) (P2V PHYSTOP)) (Ctx [] t) k = Ok tt (Ctx [] t') k' /\
    use_lock k' = true /\ kinv k' fl /\
    (forall v, v ∈ fl <-> v mod PGSIZE = 0 /\ kend <= v < P2V PHYSTOP).
Proof.
  intros Hf Hend. set (mid := P2V (4 * 1024 * 1024)) in *.
  assert (Hmid : mid = 2151677952) by reflexivity.
  assert (Hstop : P2V PHYSTOP = 2382364672) by reflexivity.
  destruct (kinit1_run k [] t mid) as (k1 & fl1 & Hrun1 & Hu1 & Hk1 & Hfl1);
    rewrite ?Hstop; try done; try lia.
  destruct (kinit2_run k1 [] (t ++ [Einitlock Lkmem "kmem"]) mid (P2V PHYSTOP) fl1)
    as (k2 & fl2 & Hrun2 & Hu2 & Hk2 & Hfl2); try done; rewrite ?Hstop; try lia.
  { intros v Hv%Hfl1. lia. }
  exists k2, fl2, (t ++ [Einitlock Lkmem "kmem"]).
  rewrite bindE, Hrun1. cbn [obind]. split; [done|]. split; [done|]. split; [done|].
  intros v. rewrite Hfl2, Hfl1. unfold PGSIZE. unfold KERNBASE in *.
  pose proof (PGROUNDUP_spec kend) as [Hm Hr]; [lia|].
  assert (v mod 4096 = 0 -> kend <= v <-> PGROUNDUP kend <= v).
  { intros Hv. split; [|lia]. intros Hle. apply page_aligned_le; [done..|lia]. }
  intuition lia.
Qed.
End Kalloc.

(** ** Witnesses *)

Definition kmem0 : kmem := mkkmem ∅ false 0.

Lemma kinit_all_pages_witness :
  exists k' fl t',
    (kinit1 2148610048 2148610048 (P2V (4 * 1024 * 1024)) ;;
     kinit2 2148610048 (P2V (4 * 1024 * 1024)) (P2V PHYSTOP)) (Ctx [] []) kmem0
    = Ok tt (Ctx [] t') k' /\
    use_lock k' = true /\ kinv 2148610048 k' fl /\
    (forall v, v ∈ fl <-> v mod PGSIZE = 0 /\ 2148610048 <= v < P2V PHYSTOP).
Proof. apply (kinit_all_pages 2148610048); [reflexivity|split; vm_compute; congruence]. Defined.

(** Two free pages, 0x8e000000 - 4096 and the one below it. *)
Definition kmem2 : kmem :=
  mkkmem {[ 2382360576 := Run 2382356480; 2382356480 := Run 0 ]} true 2382360576.

Lemma kmem2_inv : kinv 2148610048 kmem2 [2382360576; 2382356480].
Proof.
  split; simpl.
  - split; [done|]. eexists. split; [reflexivity|]. split; [done|].
    eexists. split; reflexivity.
  - apply (bool_decide_unpack _). by vm_compute.
  - repeat constructor; vm_compute; congruence.
Qed.

Lemma kalloc_exclusive_witness :
  NoDup [2382360576] /\
  exists p k', kalloc (Ctx [] []) (kmem2 <| freelist := 2382356480 |>)
      = Ok p (Ctx [] []) k' /\
    ((p = 0 /\ [2382360576] ≡ₚ [2382360576; 2382356480]) \/
     (p ∈ [2382360576; 2382356480] /\ p ∉ [2382360576])).
Proof.
  apply (kalloc_exclusive 2148610048 kmem2 [2382360576; 2382356480]).
  - apply kmem2_inv.
  - eapply rtc_l; [|apply rtc_refl].
    apply (kstep_alloc 2148610048 kmem2 _ [] 2382360576 [] []); [vm_compute; reflexivity|].
    intros _. apply not_elem_of_nil.
  - intros _. apply not_elem_of_nil.
Defined.

Lemma kfree_kalloc_witness :
  if kfree_ok 2148610048 2382352384 then
    exists k1 k2, kfree 2148610048 2382352384 (Ctx [] []) kmem2 = Ok tt (Ctx [] []) k1 /\
      kinv 2148610048 k1 [2382352384; 2382360576; 2382356480] /\
      kalloc (Ctx [] []) k1 = Ok 2382352384 (Ctx [] []) k2 /\
      kinv 2148610048 k2 [2382360576; 2382356480] /\
      freelist k2 = freelist kmem2
  else kfree 2148610048 2382352384 (Ctx [] []) kmem2 = Panic "kfree".
Proof.
  apply (kfree_kalloc 2148610048 kmem2 [2382360576; 2382356480] 2382352384 [] []).
  - apply kmem2_inv.
  - intros _. apply not_elem_of_nil.
  - apply (bool_decide_unpack _). by vm_compute.
  - split; vm_compute; congruence.
Defined.
