(* ===== verification/Strings.v ===== *)
(** * Memory and string routines (src/string.c, src/ulib.c)

    A buffer is a list of bytes (0..255); a pointer into it is an offset.  A
    routine that reads or writes outside its buffers is undefined and yields
    [None].  [memset] and [memmove] take one memory that contains all their
    operands, because what they do depends on alignment and overlap. *)

From stdpp Require Import prelude list strings.
From Stdlib Require Import ZArith Lia.
From S2P Require Import Prelude.

(** A string literal, with its terminating 0. *)
Fixpoint lit (s : string) : list Z :=
  match s with
  | EmptyString => [0]
  | String a s' => Z.of_N (Ascii.N_of_ascii a) :: lit s'
  end.

(** ** string.c *)

(** [stosb]: store the low byte of [c] [n] times from offset [d] up. *)
Fixpoint stosb (m : list Z) (d c : Z) (n : nat) : option (list Z) :=
  match n with
  | O => Some m
  | S n' => m' ← aset m d (u8 c); stosb m' (d + 1) c n'
  end.

(** [stosl]: store the 32-bit little-endian word [w] [n] times. *)
Fixpoint stosl (m : list Z) (d w : Z) (n : nat) : option (list Z) :=
  match n with
  | O => Some m
  | S n' =>
      m0 ← aset m d (u8 w);
      m1 ← aset m0 (d + 1) (u8 (Z.shiftr w 8));
      m2 ← aset m1 (d + 2) (u8 (Z.shiftr w 16));
      m3 ← aset m2 (d + 3) (u8 (Z.shiftr w 24));
      stosl m3 (d + 4) w n'
  end.

Definition memset (m : list Z) (dst c n : Z) : option (list Z) :=
  if (Z.rem dst 4 =? 0) && (n mod 4 =? 0) then
    let c := Z.land c 255 in
    stosl m dst
      (Z.lor (Z.lor (Z.lor (Z.shiftl c 24) (Z.shiftl c 16)) (Z.shiftl c 8)) c)
      (Z.to_nat (n / 4))
  else stosb m dst c (Z.to_nat n).

Fixpoint memcmp (s1 s2 : list Z) (n : nat) : option Z :=
  match n, s1, s2 with
  | O, _, _ => Some 0
  | S n', x :: s1', y :: s2' =>
      if x =? y then memcmp s1' s2' n' else Some (x - y)
  | _, _, _ => None
  end.

(** [while(n-- > 0) *--d = *--s;] *)
Fixpoint move_down (m : list Z) (d s : Z) (n : nat) : option (list Z) :=
  match n with
  | O => Some m
  | S n' =>
      x ← aget m (s - 1); m' ← aset m (d - 1) x;
      move_down m' (d - 1) (s - 1) n'
  end.

(** [while(n-- > 0) *d++ = *s++;] *)
Fixpoint move_up (m : list Z) (d s : Z) (n : nat) : option (list Z) :=
  match n with
  | O => Some m
  | S n' =>
      x ← aget m s; m' ← aset m d x;
      move_up m' (d + 1) (s + 1) n'
  end.

Definition memmove (m : list Z) (dst src n : Z) : option (list Z) :=
  if (src <? dst) && (dst <? src + n)
  then move_down m (dst + n) (src + n) (Z.to_nat n)
  else move_up m dst src (Z.to_nat n).

Definition memcpy := memmove.

Fixpoint strncmp (p q : list Z) (n : nat) : option Z :=
  match n, p, q with
  | O, _, _ => Some 0
  | S n', x :: p', y :: q' =>
      if negb (x =? 0) && (x =? y) then strncmp p' q' n' else Some (u8 x - u8 y)
  | _, _, _ => None
  end.

(** The copy of [t] over the buffer [s]; the result is the buffer. *)
Fixpoint zero_fill (s : list Z) (n : nat) : option (list Z) :=
  match n, s with
  | O, _ => Some s
  | S n', _ :: s' => cons 0 <$> zero_fill s' n'
  | S _, [] => None
  end.

Fixpoint strncpy_nat (s t : list Z) (n : nat) : option (list Z) :=
  match n, s, t with
  | O, _, _ => Some s
  | S n', _ :: s', x :: t' =>
      if x =? 0 then cons 0 <$> zero_fill s' n' else cons x <$> strncpy_nat s' t' n'
  | _, _, _ => None
  end.

Definition strncpy (s t : list Z) (n : Z) : option (list Z) :=
  strncpy_nat s t (Z.to_nat n).

(** [while(--n > 0 && ( *s++ = *t++) != 0); *s = 0;] with [n] the number of
    bytes left including the terminator. *)
Fixpoint safestrcpy_nat (s t : list Z) (n : nat) : option (list Z) :=
  match n, s, t with
  | S (S _ as n'), _ :: s', x :: t' =>
      if x =? 0
      then match s' with _ :: s'' => Some (0 :: 0 :: s'') | [] => None end
      else cons x <$> safestrcpy_nat s' t' n'
  | S O, _ :: s', _ => Some (0 :: s')
  | _, _, _ => None
  end.

Definition safestrcpy (s t : list Z) (n : Z) : option (list Z) :=
  if n <=? 0 then Some s else safestrcpy_nat s t (Z.to_nat n).

Fixpoint strlen (s : list Z) : option Z :=
  match s with
  | [] => None
  | x :: s' => if x =? 0 then Some 0 else Z.succ <$> strlen s'
  end.

(** ** ulib.c *)

Fixpoint strcpy (s t : list Z) : option (list Z) :=
  match s, t with
  | _ :: s', x :: t' => if x =? 0 then Some (0 :: s') else cons x <$> strcpy s' t'
  | _, _ => None
  end.

Fixpoint strcmp (p q : list Z) : option Z :=
  match p, q with
  | x :: p', y :: q' =>
      if negb (x =? 0) && (x =? y) then strcmp p' q' else Some (u8 x - u8 y)
  | _, _ => None
  end.

(** The offset of the first [c], or [Some None] for the null pointer. *)
Fixpoint strchr (s : list Z) (c : Z) : option (option Z) :=
  match s with
  | [] => None
  | x :: s' =>
      if x =? 0 then Some None
      else if x =? c then Some (Some 0)
      else o ← strchr s' c; Some (option_map Z.succ o)
  end.

Definition u_memset (m : list Z) (dst c n : Z) : option (list Z) :=
  stosb m dst c (Z.to_nat n).

Definition u_memmove (m : list Z) (vdst vsrc n : Z) : option (list Z) :=
  move_up m vdst vsrc (Z.to_nat n).

Fixpoint atoi_loop (s : list Z) (n : Z) : option Z :=
  match s with
  | [] => None
  | x :: s' =>
      if (48 <=? x) && (x <=? 57) then atoi_loop s' (s32 (n * 10 + x - 48))
      else Some n
  end.
Definition atoi (s : list Z) : option Z := atoi_loop s 0.

(** gets() reads one byte at a time: [inp] is what the successive read(0, &c, 1)
    calls deliver, and a call past its end returns less than 1. *)
Fixpoint gets_loop (buf : list Z) (i : Z) (inp : list Z) (n : nat)
  : option (list Z * Z) :=
  match n, inp with
  | S n', c :: inp' =>
      buf' ← aset buf i c;
      if (c =? 10) || (c =? 13) then Some (buf', i + 1)
      else gets_loop buf' (i + 1) inp' n'
  | _, _ => Some (buf, i)
  end.

Definition gets (buf : list Z) (max : Z) (inp : list Z) : option (list Z) :=
  '(buf', i) ← gets_loop buf 0 inp (Z.to_nat (max - 1));
  aset buf' i 0.

(** ** Specifications *)

(** [m'] is [m] with [f i] stored at the [n] offsets [d + i]. *)
Definition stores (m m' : list Z) (d : Z) (n : nat) (f : Z -> option Z) : Prop :=
  length m' = length m /\
  forall j, aget m' j = if (d <=? j) && (j <? d + Z.of_nat n) then f (j - d) else aget m j.

Lemma aget_aset {A} (l l' : list A) i x j :
  aset l i x = Some l' -> aget l' j = if j =? i then Some x else aget l j.
Proof.
  unfold aset, aget. case_match eqn:E; [|done]. intros [= <-].
  apply andb_prop in E as [E1 E2].
  destruct (Z.eqb_spec j i) as [->|Hne].
  - destruct (Z.ltb_spec i 0); [lia|]. apply list_lookup_insert_eq. lia.
  - destruct (Z.ltb_spec j 0); [done|]. apply list_lookup_insert_ne. lia.
Qed.

Lemma aset_is_Some {A} (l : list A) i x :
  0 <= i < Z.of_nat (length l) -> exists l', aset l i x = Some l' /\ length l' = length l.
Proof. intros H. rewrite aset_in by done. eexists. rewrite length_insert. done. Qed.

Lemma aget_is_Some {A} (l : list A) i :
  0 <= i < Z.of_nat (length l) -> exists x, aget l i = Some x.
Proof.
  intros H. unfold aget. destruct (Z.ltb_spec i 0); [lia|].
  destruct (lookup_lt_is_Some_2 l (Z.to_nat i)) as [x Hx]; [lia|]. eauto.
Qed.

Lemma stores_step m m1 m' d x n f :
  aset m d x = Some m1 -> stores m1 m' (d + 1) n (fun i => f (i + 1)) ->
  f 0 = Some x -> stores m m' d (S n) f.
Proof.
  intros Ha [Hlen Hm] Hf. split; [by rewrite Hlen; eapply aset_Some_length|].
  intros j. rewrite Hm, (aget_aset _ _ _ _ _ Ha).
  destruct (Z.leb_spec d j), (Z.leb_spec (d + 1) j); try lia;
  destruct (Z.ltb_spec j (d + Z.of_nat (S n))), (Z.ltb_spec j (d + 1 + Z.of_nat n));
    try lia; simpl; destruct (Z.eqb_spec j d); try lia; try done.
  - f_equal. lia.
  - subst j. by rewrite Z.sub_diag.
Qed.

Lemma stores_nil m d f : stores m m d 0 f.
Proof.
  split; [done|]. intros j.
  destruct (Z.leb_spec d j), (Z.ltb_spec j (d + Z.of_nat 0)); simpl; done || lia.
Qed.

Lemma stosb_spec m d c n :
  0 <= d -> d + Z.of_nat n <= Z.of_nat (length m) ->
  exists m', stosb m d c n = Some m' /\ stores m m' d n (fun _ => Some (u8 c)).
Proof.
  revert m d. induction n as [|n IH]; intros m d Hd Hn; simpl.
  { eauto using stores_nil. }
  destruct (aset_is_Some m d (u8 c)) as (m1 & Ha & Hl); [lia|]. rewrite Ha. simpl.
  destruct (IH m1 (d + 1)) as (m' & Hrun & Hst); [lia|lia|].
  exists m'. split; [done|]. by eapply stores_step.
Qed.

Definition splat (c : Z) : Z :=
  Z.lor (Z.lor (Z.lor (Z.shiftl c 24) (Z.shiftl c 16)) (Z.shiftl c 8)) c.

Lemma u8_testbit z i : 0 <= i -> Z.testbit (u8 z) i = (i <? 8) && Z.testbit z i.
Proof.
  intros Hi. unfold u8. destruct (Z.ltb_spec i 8).
  - by rewrite Z.mod_pow2_bits_low.
  - rewrite Z.mod_pow2_bits_high by lia. done.
Qed.

Lemma u8_splat c k :
  0 <= c < 256 -> k = 0 \/ k = 8 \/ k = 16 \/ k = 24 -> u8 (Z.shiftr (splat c) k) = c.
Proof.
  intros Hc Hk. apply Z.bits_inj'. intros i Hi. rewrite u8_testbit by done.
  assert (Hhi : forall j, 8 <= j -> Z.testbit c j = false).
  { intros j Hj. rewrite <- (u8_small c Hc), u8_testbit by lia.
    by destruct (Z.ltb_spec j 8); [lia|]. }
  destruct (Z.ltb_spec i 8); [|by rewrite Hhi]. simpl.
  rewrite Z.shiftr_spec by done. unfold splat. rewrite !Z.lor_spec.
  rewrite !Z.shiftl_spec by lia.
  destruct Hk as [->|[->|[->| ->]]];
    rewrite ?(Z.testbit_neg_r _ (i + _ - _)) by lia.
  - by rewrite Z.add_0_r.
  - rewrite (Hhi (i + 8)) by lia. replace (i + 8 - 8) with i by lia. by rewrite orb_false_r.
  - rewrite (Hhi (i + 16)), (Hhi (i + 16 - 8)) by lia.
    replace (i + 16 - 16) with i by lia. by rewrite !orb_false_r.
  - rewrite (Hhi (i + 24)), (Hhi (i + 24 - 8)), (Hhi (i + 24 - 16)) by lia.
    replace (i + 24 - 24) with i by lia. by rewrite !orb_false_r.
Qed.

(** Storing a splatted word is storing its byte four times. *)
Lemma stosl_stosb m d c n :
  0 <= c < 256 -> stosl m d (splat c) n = stosb m d c (4 * n).
Proof.
  intros Hc. pose proof (u8_splat c 0 Hc) as H0. rewrite Z.shiftr_0_r in H0.
  revert m d. induction n as [|n IH]; intros m d; [done|].
  replace (4 * S n)%nat with (S (S (S (S (4 * n))))) by lia.
  cbn [stosl stosb]. rewrite !u8_splat, H0, (u8_small c) by auto.
  replace (d + 1 + 1) with (d + 2) by lia. replace (d + 2 + 1) with (d + 3) by lia.
  replace (d + 3 + 1) with (d + 4) by lia.
  do 4 (destruct (aset _ _ c); [cbn [mbind option_bind]|done]). apply IH.
Qed.

(** memset() fills exactly the [n] bytes from [dst] with the low byte of
    [c], whichever of its two loops runs: the word-at-a-time one on aligned
    operands or the byte-at-a-time one. *)
Theorem memset_spec m dst c n :
  0 <= dst -> 0 <= n -> dst + n <= Z.of_nat (length m) ->
  exists m', memset m dst c n = Some m' /\
    stores m m' dst (Z.to_nat n) (fun _ => Some (u8 c)).
Proof.
  intros Hd Hn Hlen. unfold memset. case_match eqn:E.
  - apply andb_prop in E as [_ E%Z.eqb_eq].
    assert (Hc : Z.land c 255 = u8 c) by apply (Z.land_ones c 8 ltac:(lia)).
    rewrite Hc. fold (splat (u8 c)). rewrite stosl_stosb by apply u8_range.
    pose proof (Z.div_mod n 4). pose proof (Z.div_pos n 4).
    replace (4 * Z.to_nat (n / 4))%nat with (Z.to_nat n) by lia.
    assert (Hu : u8 (u8 c) = u8 c) by apply u8_small, u8_range.
    destruct (stosb_spec m dst (u8 c) (Z.to_nat n)) as (m' & Hrun & Hst); [lia..|].
    rewrite Hu in Hst. eauto.
  - apply stosb_spec; lia.
Qed.

(** ** memmove *)

Lemma move_up_spec m d s n :
  0 <= s -> 0 <= d -> s + Z.of_nat n <= Z.of_nat (length m) ->
  d + Z.of_nat n <= Z.of_nat (length m) -> d <= s \/ s + Z.of_nat n <= d ->
  exists m', move_up m d s n = Some m' /\ stores m m' d n (fun i => aget m (s + i)).
Proof.
  revert m d s. induction n as [|n IH]; intros m d s Hs Hd Hsn Hdn Hov; simpl.
  { eauto using stores_nil. }
  destruct (aget_is_Some m s) as [x Hx]; [lia|]. rewrite Hx. simpl.
  destruct (aset_is_Some m d x) as (m1 & Ha & Hl); [lia|]. rewrite Ha. simpl.
  destruct (IH m1 (d + 1) (s + 1)) as (m' & Hrun & Hst); try lia.
  exists m'. split; [done|]. eapply stores_step; [done| |by rewrite Z.add_0_r].
  destruct Hst as [Hl' Hst]. split; [done|]. intros j. rewrite Hst.
  destruct (Z.leb_spec (d + 1) j), (Z.ltb_spec j (d + 1 + Z.of_nat n)); simpl; try done.
  rewrite (aget_aset _ _ _ _ _ Ha). destruct (Z.eqb_spec (s + 1 + (j - (d + 1))) d); [lia|].
  f_equal. lia.
Qed.

Lemma move_down_spec m d s n :
  0 <= s -> s <= d -> d + Z.of_nat n <= Z.of_nat (length m) ->
  exists m', move_down m (d + Z.of_nat n) (s + Z.of_nat n) n = Some m' /\
    stores m m' d n (fun i => aget m (s + i)).
Proof.
  revert m. induction n as [|n IH]; intros m Hs Hd Hdn; cbn [move_down].
  { eauto using stores_nil. }
  replace (s + Z.of_nat (S n) - 1) with (s + Z.of_nat n) by lia.
  replace (d + Z.of_nat (S n) - 1) with (d + Z.of_nat n) by lia.
  destruct (aget_is_Some m (s + Z.of_nat n)) as [x Hx]; [lia|]. rewrite Hx. simpl.
  destruct (aset_is_Some m (d + Z.of_nat n) x) as (m1 & Ha & Hl); [lia|]. rewrite Ha. simpl.
  destruct (IH m1) as (m' & Hrun & Hl' & Hst); try lia.
  exists m'. split; [done|]. split; [by rewrite Hl'|]. intros j. rewrite Hst.
  rewrite !(aget_aset _ _ _ _ _ Ha).
  destruct (Z.leb_spec d j); simpl; [|destruct (Z.eqb_spec j (d + Z.of_nat n)); lia || done].
  destruct (Z.ltb_spec j (d + Z.of_nat n)), (Z.ltb_spec j (d + Z.of_nat (S n))); try lia;
    destruct (Z.eqb_spec j (d + Z.of_nat n)); try lia; try done.
  - destruct (Z.eqb_spec (s + (j - d)) (d + Z.of_nat n)); lia || done.
  - subst j. rewrite <- Hx. f_equal. lia.
Qed.

(** the kernel's memmove() copies correctly however source and destination
    overlap: every destination byte receives the byte its source position held
    before the call, and nothing else changes. *)
Theorem memmove_spec m dst src n :
  0 <= src -> 0 <= dst -> 0 <= n ->
  src + n <= Z.of_nat (length m) -> dst + n <= Z.of_nat (length m) ->
  exists m', memmove m dst src n = Some m' /\
    stores m m' dst (Z.to_nat n) (fun i => aget m (src + i)).
Proof.
  intros Hs Hd Hn Hsn Hdn. unfold memmove.
  destruct (Z.ltb_spec src dst), (Z.ltb_spec dst (src + n)); simpl.
  2-4: apply move_up_spec; lia.
  pose proof (move_down_spec m dst src (Z.to_nat n)) as Hm.
  rewrite Z2Nat.id in Hm by done. apply Hm; lia.
Qed.

(** the user library's memmove() always copies upwards, so on a destination
    that overlaps the source from above it repeats the leading bytes instead of
    moving the block, unlike the kernel's routine of the same name. *)
Theorem u_memmove_overlap :
  u_memmove [1; 2; 3; 4; 5] 2 0 3 = Some [1; 2; 1; 2; 1] /\
  memmove [1; 2; 3; 4; 5] 2 0 3 = Some [1; 2; 1; 2; 3].
Proof. split; reflexivity. Qed.

(** ** C strings *)

(** The buffer [t] starts with the string [str] and its terminator. *)
Definition cstring (t str : list Z) : Prop :=
  Forall (fun x => x <> 0) str /\ exists rest, t = str ++ 0 :: rest.

Lemma cstring_cons x t str : cstring (x :: t) (x :: str) <-> x <> 0 /\ cstring t str.
Proof.
  unfold cstring. rewrite Forall_cons. split.
  - intros [[Hx Hs] [rest Ht]]. simplify_eq/=. eauto.
  - intros [Hx [Hs [rest ->]]]. eauto.
Qed.

Lemma strlen_spec t str : cstring t str -> strlen t = Some (Z.of_nat (length str)).
Proof.
  revert t. induction str as [|x str IH]; intros t Ht.
  { by destruct Ht as [_ [rest ->]]. }
  pose proof Ht as [_ [rest ->]]. simpl in Ht. apply cstring_cons in Ht as [Hx Ht].
  simpl. destruct (Z.eqb_spec x 0); [done|]. rewrite (IH _ Ht). simpl. f_equal. lia.
Qed.

Lemma safestrcpy_nat_spec s t str n :
  cstring t str -> (0 < n <= length s)%nat ->
  exists s', safestrcpy_nat s t n = Some s' /\ length s' = length s /\
    cstring s' (take (n - 1) str).
Proof.
  revert s t n. induction str as [|x str IH]; intros s t n Ht Hn.
  - destruct Ht as [_ [rest ->]].
    destruct n as [|[|n]], s as [|a [|b s]]; simpl in *; try lia;
      eexists; (split; [done|]); (split; [done|]); unfold cstring; simpl; eauto.
  - pose proof Ht as [_ [rest ->]]. simpl in Ht. apply cstring_cons in Ht as [Hx Ht].
    destruct n as [|[|n]], s as [|a s]; simpl in Hn; try lia.
    + exists (0 :: s). unfold cstring. simpl. eauto.
    + destruct (IH s (str ++ 0 :: rest) (S n)) as (s' & Hrun & Hl & Hs'); [done|lia|].
      cbn [safestrcpy_nat app]. destruct (Z.eqb_spec x 0); [done|]. rewrite Hrun.
      exists (x :: s'). split; [done|]. simpl. split; [by rewrite Hl|].
      simpl in Hs'. rewrite Nat.sub_0_r in Hs'. by apply cstring_cons.
Qed.

(** safestrcpy() always leaves a terminated string: the longest prefix of
    [t] that fits in [n] bytes with its terminator, inside the [n] bytes. *)
Theorem safestrcpy_spec s t str n :
  cstring t str -> 0 < n <= Z.of_nat (length s) ->
  exists s', safestrcpy s t n = Some s' /\ length s' = length s /\
    cstring s' (take (Z.to_nat n - 1) str).
Proof.
  intros Ht Hn. unfold safestrcpy. destruct (Z.leb_spec n 0); [lia|].
  apply safestrcpy_nat_spec; [done|lia].
Qed.

Lemma zero_fill_spec s n :
  (n <= length s)%nat -> zero_fill s n = Some (replicate n 0 ++ drop n s).
Proof.
  revert s. induction n as [|n IH]; intros s Hn; [by destruct s|].
  destruct s as [|a s]; simpl in *; [lia|]. rewrite IH by lia. done.
Qed.

Lemma strncpy_spec s t str n :
  cstring t str -> 0 <= n <= Z.of_nat (length s) ->
  let k := Z.to_nat n in
  strncpy s t n =
    Some (take k str ++ replicate (k - length str) 0 ++ drop k s).
Proof.
  intros Ht Hn k. unfold strncpy. fold k. assert (Hk : (k <= length s)%nat) by lia.
  clearbody k. clear Hn n. revert s k t Ht Hk.
  induction str as [|x str IH]; intros s k t Ht Hk.
  - destruct Ht as [_ [rest ->]]. destruct k, s; simpl in *; try done; try lia.
    rewrite zero_fill_spec by lia. done.
  - pose proof Ht as [_ [rest ->]]. simpl in Ht. apply cstring_cons in Ht as [Hx Ht].
    destruct k, s; simpl in *; try done; try lia.
    destruct (Z.eqb_spec x 0); [done|]. rewrite (IH s k) by (done || lia). done.
Qed.

(** A field of [k] bytes that holds [str] the way strncpy() leaves it: padded
    with zeros, and not terminated when it is full. *)
Definition field (k : nat) (str : list Z) : list Z :=
  take k str ++ replicate (k - length str) 0.

Lemma strncpy_field s t str :
  cstring t str ->
  strncpy s t (Z.of_nat (length s)) = Some (field (length s) str).
Proof.
  intros Ht. rewrite (strncpy_spec _ _ str) by (done || lia).
  rewrite Nat2Z.id, drop_all, app_nil_r. done.
Qed.

Lemma length_field k str : length (field k str) = k.
Proof. unfold field. rewrite length_app, length_take, length_replicate. lia. Qed.

(** Whether two strings agree on their first [n] bytes. *)
Lemma strncmp_field k str1 str2 :
  Forall (fun x => 0 < x < 256) str1 -> Forall (fun x => 0 < x < 256) str2 ->
  exists r, strncmp (field k str1) (field k str2) k = Some r /\
    (r = 0 <-> take k str1 = take k str2).
Proof.
  intros H1. revert k str2. induction H1 as [|x str1 Hx H1 IH]; intros k str2 H2.
  - destruct H2 as [|y str2 Hy H2]; destruct k as [|k]; simpl; try (by exists 0).
    exists (u8 0 - u8 y). rewrite !(u8_small) by lia. split; [done|]. split; [lia|done].
  - destruct k as [|k]; [by exists 0|]. destruct H2 as [|y str2 Hy H2]; simpl.
    + destruct (Z.eqb_spec x 0); [lia|]. destruct (Z.eqb_spec x 0); [lia|]. simpl.
      exists (u8 x - u8 0). rewrite !u8_small by lia. split; [done|]. split; [lia|done].
    + destruct (Z.eqb_spec x 0); [lia|]. simpl. destruct (Z.eqb_spec x y) as [->|Hne].
      * destruct (IH k str2 H2) as (r & Hr & Hiff). exists r. split; [done|].
        rewrite Hiff. split; [by intros ->|]. by intros [= ->].
      * exists (u8 x - u8 y). rewrite !u8_small by lia. split; [done|].
        split; [lia|]. intros [= ? _]. done.
Qed.

(** ** Decimal numbers *)

Definition digits_value (ds : list Z) : Z := foldl (fun n d => n * 10 + d) 0 ds.

(** atoi() computes the value of the leading decimal digits of its argument
    modulo 2^32 (as a signed int) and stops at the first other byte. *)
Theorem atoi_spec ds c rest :
  Forall (fun d => 0 <= d <= 9) ds -> ~ 48 <= c <= 57 ->
  atoi ((Z.add 48 <$> ds) ++ c :: rest) = Some (s32 (digits_value ds)).
Proof.
  intros Hds Hc. unfold atoi, digits_value.
  change 0 with (s32 0) at 1. generalize 0 as n. 
  induction Hds as [|d ds Hd Hds IH]; intros n; simpl.
  - destruct (Z.leb_spec 48 c), (Z.leb_spec c 57); simpl; done || lia.
  - destruct (Z.leb_spec 48 (48 + d)), (Z.leb_spec (48 + d) 57); simpl; try lia.
    rewrite <- IH. f_equal. unfold s32.
    replace ((((n + 2 ^ 31) mod 2 ^ 32 - 2 ^ 31) * 10 + (48 + d) - 48 + 2 ^ 31))
      with ((n + 2 ^ 31) mod 2 ^ 32 * 10 + (d - 9 * 2 ^ 31)) by lia.
    rewrite <- Zplus_mod_idemp_l, Zmult_mod_idemp_l, Zplus_mod_idemp_l.
    do 2 f_equal. lia.
Qed.

(** ** Witnesses *)

Lemma memset_spec_witness :
  exists m', memset [1; 2; 3; 4; 5; 6; 7; 8; 9] 4 258 4 = Some m' /\
    stores [1; 2; 3; 4; 5; 6; 7; 8; 9] m' 4 (Z.to_nat 4) (fun _ => Some (u8 258)).
Proof. apply memset_spec; vm_compute; congruence. Defined.

Lemma memmove_spec_witness :
  exists m', memmove [1; 2; 3; 4; 5] 2 0 3 = Some m' /\
    stores [1; 2; 3; 4; 5] m' 2 (Z.to_nat 3) (fun i => aget [1; 2; 3; 4; 5] (0 + i)).
Proof. apply memmove_spec; vm_compute; congruence. Defined.

Lemma safestrcpy_spec_witness :
  exists s', safestrcpy [9; 9; 9; 9] [115; 104; 101; 108; 108; 0] 4 = Some s' /\
    length s' = length [9; 9; 9; 9] /\
    cstring s' (take (Z.to_nat 4 - 1) [115; 104; 101; 108; 108]).
Proof.
  apply safestrcpy_spec; [|split; vm_compute; congruence].
  split; [repeat constructor; congruence|]. by exists [].
Defined.

Lemma atoi_spec_witness :
  atoi ((Z.add 48 <$> [3; 9; 2]) ++ 0 :: []) = Some (s32 (digits_value [3; 9; 2])).
Proof. apply atoi_spec; [repeat constructor; lia|lia]. Defined.
