(* ===== verification/Proc.v ===== *)
(** * Processes (src/proc.c, src/proc.h)

    The process table with its lock, the five scheduler queues and their
    counters, and every operation of proc.c on them except the scheduler
    itself (Sched.v).  A [struct proc *] is a slot number, the null pointer
    [None].

    What proc.c calls in other components (memory, files, the log) works on an
    environment [E] through the interface [KernelOps]; the theorems hold for
    every implementation of it. *)

From stdpp Require Import prelude gmap strings list.
From Stdlib Require Import ZArith Lia.
From S2P Require Import Spinlock Strings Prelude Mmu.

Inductive procstate := UNUSED | EMBRYO | SLEEPING | RUNNABLE | RUNNING | ZOMBIE.
#[export] Instance procstate_eq_dec : EqDecision procstate.
Proof. solve_decision. Defined.

(** The SCHEDPOLICY the kernel is built with. *)
Inductive policy := DEFAULT | FCFS | PRIORITY | MLFQ.
#[export] Instance policy_eq_dec : EqDecision policy.
Proof. solve_decision. Defined.

(** The kernel entry points a saved context can return to. *)
Inductive codeptr := Aforkret | Atrapret | Acode (a : Z).

Record trapframe := mktrapframe {
  tf_edi : Z; tf_esi : Z; tf_ebp : Z; tf_oesp : Z;
  tf_ebx : Z; tf_edx : Z; tf_ecx : Z; tf_eax : Z;
  tf_gs : Z; tf_fs : Z; tf_es : Z; tf_ds : Z; tf_trapno : Z;
  tf_err : Z; tf_eip : Z; tf_cs : Z; tf_eflags : Z;
  tf_esp : Z; tf_ss : Z;
}.
#[export] Instance trapframe_settable : Settable trapframe := fun t =>
  mktrapframe (tf_edi t) (tf_esi t) (tf_ebp t) (tf_oesp t) (tf_ebx t) (tf_edx t)
    (tf_ecx t) (tf_eax t) (tf_gs t) (tf_fs t) (tf_es t) (tf_ds t) (tf_trapno t)
    (tf_err t) (tf_eip t) (tf_cs t) (tf_eflags t) (tf_esp t) (tf_ss t).

Definition trapframe0 : trapframe :=
  mktrapframe 0 0 0 0 0 0 0 0 0 0 0 0 0 0 0 0 0 0 0.

Record context := mkcontext {
  ctx_edi : Z; ctx_esi : Z; ctx_ebx : Z; ctx_ebp : Z; ctx_eip : codeptr;
}.

(** [tf] and [context] are the structures at the top of the kernel stack page;
    [tf = None] is a trap frame whose contents were never written.  [kret] is
    the word between them that forkret() returns to.  The fields of struct proc
    that no code reads or writes are left out. *)
Record proc := mkproc {
  sz : Z;
  pgdir : Z;
  kstack : Z;
  state : procstate;
  pid : Z;
  parent : option nat;
  tf : option trapframe;
  pcontext : context;
  kret : codeptr;
  pchan : option chan;
  killed : Z;
  ofile : list (option nat);
  cwd : option nat;
  name : list Z;
  ctime : Z;
  etime : Z;
  rtime : Z;
  iotime : Z;
  num_r : Z;
  priority : Z;
  start : Z;
  waittime : Z;
  current_queue : Z;
  total_ticks : list Z;
  pticks : list Z;
}.
#[export] Instance proc_settable : Settable proc := fun p =>
  mkproc (sz p) (pgdir p) (kstack p) (state p) (pid p) (parent p) (tf p)
    (pcontext p) (kret p) (pchan p) (killed p) (ofile p) (cwd p) (name p)
    (ctime p) (etime p) (rtime p) (iotime p) (num_r p) (priority p) (start p)
    (waittime p) (current_queue p) (total_ticks p) (pticks p).

(** A slot of the zero-initialised table. *)
Definition proc0 : proc :=
  mkproc 0 0 0 UNUSED 0 None None (mkcontext 0 0 0 0 (Acode 0)) (Acode 0) None 0
    (replicate NOFILE None) None (replicate 16 0) 0 0 0 0 0 0 0 0 0
    (replicate 5 0) (replicate 5 0).

(** The services of the other components: kalloc.c, vm.c, file.c, fs.c, log.c. *)
Class KernelOps (E : Type) := {
  k_kalloc : M E Z;
  k_kfree : Z -> M E unit;
  k_setupkvm : M E Z;
  k_inituvm : Z -> M E unit;
  k_allocuvm : Z -> Z -> Z -> M E Z;
  k_deallocuvm : Z -> Z -> Z -> M E Z;
  k_copyuvm : Z -> Z -> M E Z;
  k_freevm : Z -> M E unit;
  k_switchuvm : Z -> Z -> M E unit;      (* pgdir, kstack *)
  k_switchkvm : M E unit;
  k_filedup : nat -> M E unit;
  k_fileclose : nat -> M E unit;
  k_idup : nat -> M E unit;
  k_iput : nat -> M E unit;
  k_namei : list Z -> M E (option nat);
  k_begin_op : M E unit;
  k_end_op : M E unit;
  k_iinit : Z -> M E unit;
  k_initlog : Z -> M E unit;
}.

Record pstate (E : Type) := mkpstate {
  procs : list proc;                    (* ptable.proc *)
  initproc : option nat;
  nextpid : Z;
  queues : list (list (option nat));    (* queue0 .. queue4 *)
  counts : list Z;                      (* c0 .. c4 *)
  ticks : Z;
  first : bool;                         (* forkret's static *)
  curproc : option nat;                 (* c->proc of the scheduling CPU *)
  env : E;
}.
Arguments mkpstate {E}.
Arguments procs {E}.
Arguments initproc {E}.
Arguments nextpid {E}.
Arguments queues {E}.
Arguments counts {E}.
Arguments ticks {E}.
Arguments first {E}.
Arguments curproc {E}.
Arguments env {E}.
#[export] Instance pstate_settable E : Settable (pstate E) := fun s =>
  mkpstate (procs s) (initproc s) (nextpid s) (queues s) (counts s) (ticks s)
    (first s) (curproc s) (env s).

Section Proc.
Context {E : Type} `{KernelOps E} (pol : policy).
Abbreviation K := (M (pstate E)).

(** Calling a service. *)
Definition lift {A} (m : M E A) : K A :=
  zoom env (fun e s => s <| env := e |>) m.

(** [p->f] and an assignment through [p]. *)
Definition getp (i : nat) : K proc := s ← getS; of_option (procs s !! i).
Definition setp (i : nat) (f : proc -> proc) : K unit :=
  modS (fun s => s <| procs ::= alter f i |>).
Definition deref (o : option nat) : K nat := of_option o.

Definition is_state (st : procstate) (p : proc) : bool := bool_decide (state p = st).

Definition pinit : K unit := initlock Lptable "ptable".

(** ** The scheduler queues *)

Definition count (k : Z) : K Z := s ← getS; rd (counts s) k.
Definition set_count (k c : Z) : K unit :=
  s ← getS; cs ← wr (counts s) k c; modS (fun s => s <| counts := cs |>).

(** [queue<k>[i]] and its assignment. *)
Definition qget (k i : Z) : K (option nat) :=
  s ← getS; q ← rd (queues s) k; rd q i.
Definition qset (k i : Z) (x : option nat) : K unit :=
  s ← getS; q ← rd (queues s) k; q' ← wr q i x;
  qs ← wr (queues s) k q'; modS (fun s => s <| queues := qs |>).

(** [for (j = lo; j <= hi; j++) queue[j] = queue[j + 1];], [n] iterations. *)
Fixpoint shift_down (k j : Z) (n : nat) : K unit :=
  match n with
  | O => mret tt
  | S n' => x ← qget k (j + 1); qset k j x ;; shift_down k (j + 1) n'
  end.

Fixpoint rem_loop (fuel : nat) (k pid0 i : Z) : K unit :=
  match fuel with
  | O => nofuel
  | S fuel' =>
      c ← count k;
      if i <=? c then
        x ← qget k i; j ← deref x; p ← getp j;
        (if pid p =? pid0 then
           set_count k (c - 1) ;; shift_down k i (Z.to_nat (c - 1 - i + 1))
         else mret tt) ;;
        rem_loop fuel' k pid0 (i + 1)
      else mret tt
  end.

(** The index [i] grows with every iteration and the arrays have 64 entries, so
    65 iterations are never exceeded. *)
Definition rem_process (pid0 curq : Z) : K unit :=
  if (0 <=? curq) && (curq <=? 4) then rem_loop 66 curq pid0 0 else mret tt.

(** [c<k>++; queue<k>[c<k>] = p;] *)
Definition enqueue (k : Z) (x : option nat) : K unit :=
  c ← count k; set_count k (c + 1) ;; qset k (c + 1) x.

(** ** Creating processes *)

(** The second half of allocproc(): the kernel stack, with the trap frame and
    the context that starts in forkret(), and the accounting fields. *)
Definition allocproc_stack (i : nat) : K (option nat) :=
  k ← lift k_kalloc;
  setp i (fun p => p <| kstack := k |>) ;;
  if k =? 0 then setp i (fun p => p <| state := UNUSED |>) ;; mret None else
  setp i (fun p => p <| tf := None |> <| kret := Atrapret |>
    <| pcontext := mkcontext 0 0 0 0 Aforkret |>) ;;
  acquire Lptable ;;
  tk ← gets ticks;
  setp i (fun p => p <| ctime := s32 tk |> <| etime := 0 |>
    <| rtime := 0 |> <| iotime := 0 |> <| num_r := 0 |>) ;;
  release Lptable ;;
  setp i (fun p => p <| priority :=
    if (pid p =? 1) || (pid p =? 2) then 1 else 60 |>) ;;
  mret (Some i).

(** [p->state = EMBRYO; p->pid = nextpid++; ...; p->waittime = 5;] *)
Definition claim (n : Z) (p : proc) : proc :=
  p <| state := EMBRYO |> <| pid := n |> <| current_queue := 0 |>
    <| pticks := [0; 0; 0; 0; 0] |> <| waittime := 5 |>.

Definition allocproc : K (option nat) :=
  acquire Lptable ;;
  s ← getS;
  match find_index (is_state UNUSED) (procs s) with
  | None => release Lptable ;; mret None
  | Some i =>
      setp i (claim (nextpid s)) ;;
      modS (fun s => s <| nextpid ::= fun n => s32 (n + 1) |>) ;;
      enqueue 0 (Some i) ;;
      release Lptable ;;
      allocproc_stack i
  end.

Definition UCODE_SEL : Z := Z.lor (Z.shiftl SEG_UCODE 3) DPL_USER.
Definition UDATA_SEL : Z := Z.lor (Z.shiftl SEG_UDATA 3) DPL_USER.

(** [safestrcpy(p->name, t, sizeof(p->name))]. *)
Definition set_name (i : nat) (t : list Z) : K unit :=
  p ← getp i; nm ← of_option (safestrcpy (name p) t 16);
  setp i (fun p => p <| name := nm |>).

Definition userinit : K unit :=
  op ← allocproc;
  modS (fun s => s <| initproc := op |>) ;;
  i ← deref op;
  d ← lift k_setupkvm;
  setp i (fun p => p <| pgdir := d |>) ;;
  if d =? 0 then panic "userinit: out of memory?" else
  lift (k_inituvm d) ;;
  setp i (fun p => p <| sz := PGSIZE |> <| tf := Some (trapframe0
    <| tf_cs := UCODE_SEL |> <| tf_ds := UDATA_SEL |> <| tf_es := UDATA_SEL |>
    <| tf_ss := UDATA_SEL |> <| tf_eflags := FL_IF |> <| tf_esp := PGSIZE |>
    <| tf_eip := 0 |>) |>) ;;
  set_name i (lit "initcode") ;;
  w ← lift (k_namei (lit "/"));
  setp i (fun p => p <| cwd := w |>) ;;
  acquire Lptable ;;
  tk ← gets ticks;
  setp i (fun p => p <| state := RUNNABLE |> <| start := s32 tk |>) ;;
  release Lptable.

Definition growproc (me : nat) (n : Z) : K Z :=
  p ← getp me;
  let sz0 := sz p in
  r ← (if 0 <? n then lift (k_allocuvm (pgdir p) sz0 (u32 (sz0 + n)))
       else if n <? 0 then lift (k_deallocuvm (pgdir p) sz0 (u32 (sz0 + n)))
       else mret sz0);
  if negb (n =? 0) && (r =? 0) then mret (-1) else
  setp me (fun p => p <| sz := r |>) ;;
  lift (k_switchuvm (pgdir p) (kstack p)) ;;
  mret 0.

Definition fork_files (me i : nat) : K unit :=
  mfor (seq 0 NOFILE) (fun fd =>
    p ← getp me; f ← of_option (ofile p !! fd);
    match f with
    | Some f => lift (k_filedup f) ;; setp i (fun p => p <| ofile ::= <[fd := Some f]> |>)
    | None => mret tt
    end).

Definition fork (me : nat) : K Z :=
  o ← allocproc;
  match o with
  | None => mret (-1)
  | Some i =>
      cur ← getp me;
      d ← lift (k_copyuvm (pgdir cur) (sz cur));
      setp i (fun p => p <| pgdir := d |>) ;;
      if d =? 0 then
        np ← getp i;
        lift (k_kfree (kstack np)) ;;
        setp i (fun p => p <| kstack := 0 |> <| state := UNUSED |>) ;;
        mret (-1)
      else
      f ← of_option (tf cur);
      setp i (fun p => p <| sz := sz cur |> <| parent := Some me |>
        <| tf := Some (f <| tf_eax := 0 |>) |>) ;;
      fork_files me i ;;
      w ← deref (cwd cur);
      lift (k_idup w) ;;
      setp i (fun p => p <| cwd := Some w |>) ;;
      set_name i (name cur) ;;
      np ← getp i;
      acquire Lptable ;;
      tk ← gets ticks;
      setp i (fun p => p <| state := RUNNABLE |> <| start := s32 tk |>) ;;
      release Lptable ;;
      mret (pid np)
  end.

(** ** Giving up the CPU

    [resume] says what happens until the scheduler switches back to this
    process; [None] is a process that is not scheduled again. *)
Definition sched (me : nat) (resume : option (pstate E -> pstate E)) : K unit :=
  fun c s =>
    if decide (Lptable ∉ held c) then Panic "sched ptable.lock"
    else if decide (length (held c) <> 1%nat) then Panic "sched locks"
    else match procs s !! me with
         | None => Undef
         | Some p =>
             if is_state RUNNING p then Panic "sched running"
             else match resume with
                  | None => Switched c s
                  | Some f => Ok tt c (f s)
                  end
         end.

Definition yield (me : nat) (resume : option (pstate E -> pstate E)) : K unit :=
  acquire Lptable ;;
  tk ← gets ticks;
  setp me (fun p => p <| state := RUNNABLE |> <| start := s32 tk |>) ;;
  sched me resume ;;
  release Lptable.

Definition forkret : K unit :=
  release Lptable ;;
  fst ← gets first;
  if (fst : bool) then
    modS (fun s => s <| first := false |>) ;;
    lift (k_iinit ROOTDEV) ;; lift (k_initlog ROOTDEV)
  else mret tt.

Definition sleep (me : option nat) (ch : chan) (lk : option lockid)
    (resume : option (pstate E -> pstate E)) : K unit :=
  match me, lk with
  | None, _ => panic "sleep"
  | _, None => panic "sleep without lk"
  | Some p, Some lk =>
      (if decide (lk <> Lptable) then acquire Lptable ;; release lk else mret tt) ;;
      setp p (fun p => p <| pchan := Some ch |> <| state := SLEEPING |>) ;;
      sched p resume ;;
      setp p (fun p => p <| pchan := None |>) ;;
      if decide (lk <> Lptable) then release Lptable ;; acquire lk else mret tt
  end.

(** The body of wakeup1()'s loop on one slot. *)
Definition wake (ch : option chan) (tk : Z) (p : proc) : proc :=
  if is_state SLEEPING p && bool_decide (pchan p = ch)
  then p <| state := RUNNABLE |> <| start := s32 tk |> else p.

Definition wakeup1 (ch : option chan) : K unit :=
  modS (fun s => s <| procs ::= fmap (wake ch (ticks s)) |>).

Definition wakeup (ch : chan) : K unit :=
  acquire Lptable ;; wakeup1 (Some ch) ;; release Lptable.

Definition kill (pid0 : Z) : K Z :=
  acquire Lptable ;;
  s ← getS;
  match find_index (fun p => pid p =? pid0) (procs s) with
  | Some i =>
      setp i (fun p =>
        let p := p <| killed := 1 |> in
        if is_state SLEEPING p
        then p <| start := s32 (ticks s) |> <| state := RUNNABLE |> else p) ;;
      release Lptable ;; mret 0
  | None => release Lptable ;; mret (-1)
  end.

(** ** Exiting and waiting *)

(** [if(p->parent == curproc){ p->parent = initproc; if(p->state == ZOMBIE)
    wakeup1(initproc); }] *)
Definition reparent (me j : nat) : K unit :=
  p ← getp j;
  if bool_decide (parent p = Some me) then
    ip ← gets initproc;
    setp j (fun p => p <| parent := ip |>) ;;
    if is_state ZOMBIE p then wakeup1 (Cproc <$> ip) else mret tt
  else mret tt.

Definition close_files (me : nat) : K unit :=
  mfor (seq 0 NOFILE) (fun fd =>
    p ← getp me; f ← of_option (ofile p !! fd);
    match f with
    | Some f => lift (k_fileclose f) ;; setp me (fun p => p <| ofile ::= <[fd := None]> |>)
    | None => mret tt
    end).

(** The part of exit() under ptable.lock, up to the switch. *)
Definition exit_locked (me : nat) : K unit :=
  p ← getp me;
  wakeup1 (Cproc <$> parent p) ;;
  mfor (seq 0 NPROC) (reparent me) ;;
  tk ← gets ticks;
  setp me (fun p => p <| state := ZOMBIE |> <| etime := s32 tk |>) ;;
  p ← getp me;
  cprintf "Total Time: %d\n" [s32 (etime p - ctime p)].

Definition exit (me : nat) (resume : option (pstate E -> pstate E)) : K unit :=
  ip ← gets initproc;
  if bool_decide (ip = Some me) then panic "init exiting" else
  close_files me ;;
  lift k_begin_op ;;
  p ← getp me;
  w ← deref (cwd p);
  lift (k_iput w) ;;
  lift k_end_op ;;
  setp me (fun p => p <| cwd := None |>) ;;
  acquire Lptable ;;
  exit_locked me ;;
  sched me resume ;;
  panic "zombie exit".

(** One scan of the table: the first zombie child, and whether there is a child
    among the slots looked at. *)
Fixpoint scan_children (me i : nat) (ps : list proc) (havekids : bool)
  : option nat * bool :=
  match ps with
  | [] => (None, havekids)
  | p :: ps' =>
      if negb (bool_decide (parent p = Some me)) then scan_children me (S i) ps' havekids
      else if is_state ZOMBIE p then (Some i, true)
      else scan_children me (S i) ps' true
  end.

(** [p->name[0] = 0] *)
Definition clear_name (p : proc) : proc := p <| name ::= <[0%nat := 0]> |>.

(** wait()'s cleanup of the zombie in slot [i]. *)
Definition reap (i : nat) : K Z :=
  p ← getp i;
  lift (k_kfree (kstack p)) ;;
  setp i (fun p => p <| kstack := 0 |>) ;;
  lift (k_freevm (pgdir p)) ;;
  (if decide (pol = MLFQ) then rem_process (pid p) (current_queue p) else mret tt) ;;
  setp i (fun p => (clear_name (p <| pid := 0 |> <| parent := None |>))
    <| killed := 0 |> <| state := UNUSED |>) ;;
  release Lptable ;;
  mret (pid p).

(** Each sleep in the loop takes the next of the [resume]s; when there is none
    the process stays asleep. *)
Fixpoint wait_loop (me : nat) (resumes : list (pstate E -> pstate E)) : K Z :=
  s ← getS;
  match scan_children me 0 (procs s) false with
  | (Some i, _) => reap i
  | (None, havekids) =>
      p ← getp me;
      if negb havekids || negb (killed p =? 0) then
        release Lptable ;; mret (-1)
      else match resumes with
           | [] => sleep (Some me) (Cproc me) (Some Lptable) None ;; undef
           | f :: resumes' =>
               sleep (Some me) (Cproc me) (Some Lptable) (Some f) ;; wait_loop me resumes'
           end
  end.

Definition wait (me : nat) (resumes : list (pstate E -> pstate E)) : K Z :=
  acquire Lptable ;; wait_loop me resumes.

(** waitx() also stores through its two pointers; the result carries the stored
    values. *)
Definition reapx (i : nat) : K (Z * option (Z * Z)) :=
  p ← getp i;
  let wtime := s32 (etime p - ctime p - rtime p - iotime p) in
  cprintf "\netime %d  ctime %d    rtime %d    iotime %d \n"
    [etime p; ctime p; rtime p; iotime p] ;;
  lift (k_kfree (kstack p)) ;;
  setp i (fun p => p <| kstack := 0 |>) ;;
  lift (k_freevm (pgdir p)) ;;
  setp i (fun p => (clear_name (p <| state := UNUSED |> <| pid := 0 |>
    <| parent := None |>)) <| killed := 0 |>) ;;
  release Lptable ;;
  mret (pid p, Some (wtime, rtime p)).

Fixpoint waitx_loop (me : nat) (resumes : list (pstate E -> pstate E))
  : K (Z * option (Z * Z)) :=
  s ← getS;
  match scan_children me 0 (procs s) false with
  | (Some i, _) => reapx i
  | (None, havekids) =>
      p ← getp me;
      if negb (negb havekids || negb (killed p =? 0)) then
        match resumes with
        | [] => sleep (Some me) (Cproc me) (Some Lptable) None ;; undef
        | f :: resumes' =>
            sleep (Some me) (Cproc me) (Some Lptable) (Some f) ;; waitx_loop me resumes'
        end
      else release Lptable ;; mret (-1, None)
  end.

Definition waitx (me : nat) (resumes : list (pstate E -> pstate E))
  : K (Z * option (Z * Z)) :=
  acquire Lptable ;; waitx_loop me resumes.

(** ** Listings and priorities *)

Definition state_name (st : procstate) : string :=
  match st with
  | UNUSED => "unused" | EMBRYO => "embryo" | SLEEPING => "sleep "
  | RUNNABLE => "runble" | RUNNING => "run   " | ZOMBIE => "zombie"
  end.

(** [for(i = 0; i < 10 && pc[i] != 0; i++)]: the entries the loop visits. *)
Fixpoint until0 (l : list Z) : list Z :=
  match l with
  | [] => []
  | x :: l' => if x =? 0 then [] else x :: until0 l'
  end.

(** The %s arguments are part of the format string here; [stk] is the kernel
    memory getcallerpcs() walks. *)
Definition procdump1 (stk : Z -> Z) (p : proc) : K unit :=
  if is_state UNUSED p then mret tt else
  cprintf ("%d " +:+ state_name (state p) +:+ " %s") (pid p :: name p) ;;
  (if is_state SLEEPING p then
     mfor (until0 (getcallerpcs stk (u32 (ctx_ebp (pcontext p) + 8))))
       (fun pc => cprintf " %p" [pc])
   else mret tt) ;;
  cprintf "\n" [].

Definition procdump (stk : Z -> Z) : K unit :=
  s ← getS; mfor (procs s) (procdump1 stk).

Definition cps1 (p : proc) : K unit :=
  if decide (pol = MLFQ) then
    let args := [pid p; priority p; rtime p; waittime p; num_r p; current_queue p]
                ++ pticks p in
    match state p with
    | RUNNABLE => cprintf "%d   %d        RUNNABLE    %d     %d     %d     %d    %d  %d  %d  %d  %d\n" args
    | SLEEPING => cprintf "%d   %d        SLEEPING   %d     %d     %d     %d    %d  %d  %d  %d  %d\n" args
    | RUNNING => cprintf "%d   %d        RUNNING   %d     %d      %d     %d    %d  %d  %d  %d  %d\n" args
    | _ => mret tt
    end
  else
    let args := [pid p; priority p; rtime p; waittime p] in
    match state p with
    | RUNNING => cprintf "%d   %d        RUNNING    %d   %d\n" args
    | SLEEPING => cprintf "%d   %d        SLEEPING    %d   %d\n" args
    | ZOMBIE => cprintf "%d   %d        ZOMBIE    %d     %d\n" args
    | EMBRYO => cprintf "%d             EMBRYO\n" [pid p]
    | _ => mret tt
    end.

Definition cps : K Z :=
  emit Esti ;;
  (if decide (pol = MLFQ)
   then cprintf "PID Priority   State   rtime wtime n_run curr_q q0 q1 q2 q3 q4 \n" []
   else cprintf "PID Priority   State   rtime wtime \n" []) ;;
  acquire Lptable ;;
  s ← getS;
  mfor (procs s) cps1 ;;
  release Lptable ;;
  mret 22.

Definition chpr (pid0 prio : Z) : K Z :=
  acquire Lptable ;;
  s ← getS;
  (match find_index (fun p => pid p =? pid0) (procs s) with
   | Some i => setp i (fun p => p <| priority := prio |>)
   | None => mret tt
   end) ;;
  release Lptable ;;
  mret pid0.

Definition setPriority (prio pid0 : Z) : K Z :=
  emit Esti ;;
  if (prio <? 0) || (100 <? prio) then mret (-2) else
  acquire Lptable ;;
  s ← getS;
  match find_index (fun p => pid p =? pid0) (procs s) with
  | Some i => setp i (fun p => p <| priority := prio |>) ;; release Lptable ;; mret 24
  | None => release Lptable ;; mret (-1)
  end.
End Proc.
