(* ===== verification/ProcInv.v ===== *)
(** * The process table invariant (src/proc.c)

    What every operation of proc.c keeps true of the process table: pids are
    unique and below [nextpid], a sleeping process has a channel to be woken
    on, and parent links lead to live processes. *)

From stdpp Require Import prelude gmap strings list.
From Stdlib Require Import ZArith Lia.
From S2P Require Import Spinlock Strings Prelude Mmu Proc.

(** ** What the invariant looks at *)

Record pview := mkpview {
  v_state : procstate; v_pid : Z; v_parent : option nat; v_chan : option chan;
}.
#[export] Instance pview_settable : Settable pview :=
  fun v => mkpview (v_state v) (v_pid v) (v_parent v) (v_chan v).

Definition pv (p : proc) : pview := mkpview (state p) (pid p) (parent p) (pchan p).

Record tview := mktview { slots : list pview; vinit : option nat; vnext : Z }.
#[export] Instance tview_settable : Settable tview :=
  fun v => mktview (slots v) (vinit v) (vnext v).

Definition view {E} (s : pstate E) : tview :=
  mktview (pv <$> procs s) (initproc s) (nextpid s).

Definition vlive (v : pview) : Prop :=
  v_state v = SLEEPING \/ v_state v = RUNNABLE \/ v_state v = RUNNING.

Definition live_at (j : nat) (l : list pview) : Prop := exists v, l !! j = Some v /\ vlive v.

Record vinv (t : tview) : Prop := {
  vinv_len : length (slots t) = NPROC;
  vinv_next : 0 < vnext t;
  vinv_pid : forall i v, slots t !! i = Some v -> v_state v <> UNUSED ->
    0 < v_pid v < vnext t;
  vinv_uniq : forall i j v w, slots t !! i = Some v -> slots t !! j = Some w ->
    v_state v <> UNUSED -> v_state w <> UNUSED -> v_pid v = v_pid w -> i = j;
  vinv_chan : forall i v, slots t !! i = Some v -> v_state v = SLEEPING ->
    v_chan v <> None;
  vinv_parent : forall i v j, slots t !! i = Some v -> v_parent v = Some j ->
    v_state v <> UNUSED /\ live_at j (slots t);
  vinv_init : forall i, vinit t = Some i -> live_at i (slots t);
}.

Definition pinv {E} (s : pstate E) : Prop := vinv (view s).

(** ** Changing one slot *)

Lemma lookup_alter_Some {A} (f : A -> A) (l : list A) i j y :
  alter f i l !! j = Some y ->
  (i = j /\ exists x, l !! i = Some x /\ y = f x) \/ (i <> j /\ l !! j = Some y).
Proof.
  intros H. destruct (decide (i = j)) as [<-|Hne].
  - left. split; [done|]. rewrite list_lookup_alter_eq in H.
    apply fmap_Some in H as (x & Hx & ->). eauto.
  - right. by rewrite list_lookup_alter_ne in H.
Qed.

Lemma live_at_alter f i j l :
  (forall v, l !! i = Some v -> vlive v -> vlive (f v)) ->
  live_at j l -> live_at j (alter f i l).
Proof.
  intros Hf (v & Hv & Hl). unfold live_at. destruct (decide (i = j)) as [<-|Hne].
  - exists (f v). rewrite list_lookup_alter_eq, Hv. auto.
  - exists v. by rewrite list_lookup_alter_ne.
Qed.

(** [w] is [v] with the same pid and parent, still in use if it was, and not
    killed if it was live. *)
Definition sim (v w : pview) : Prop :=
  v_pid w = v_pid v /\ v_parent w = v_parent v /\
  (v_state w = UNUSED <-> v_state v = UNUSED) /\ (vlive v -> vlive w) /\
  (v_state w = SLEEPING -> v_chan w <> None).

Lemma sim_live v w :
  v_pid w = v_pid v -> v_parent w = v_parent v -> vlive v -> vlive w ->
  (v_state w = SLEEPING -> v_chan w <> None) -> sim v w.
Proof.
  intros Hp Hpar Hv Hw Hc. unfold sim. split_and!; try done.
  unfold vlive in *. split; intros Hu; rewrite Hu in *; naive_solver.
Qed.

Lemma live_at_sim j l l' : Forall2 sim l l' -> live_at j l -> live_at j l'.
Proof.
  intros Hs (v & Hv & Hl). destruct (Forall2_lookup_l _ _ _ _ _ Hs Hv) as (w & Hw & H).
  exists w. split; [done|]. by apply H.
Qed.

Lemma vinv_sim t l' : vinv t -> Forall2 sim (slots t) l' -> vinv (t <| slots := l' |>).
Proof.
  intros Hinv Hs.
  assert (Hback : forall i w, l' !! i = Some w -> exists v, slots t !! i = Some v /\ sim v w).
  { intros i w Hw. by destruct (Forall2_lookup_r _ _ _ _ _ Hs Hw) as (v & Hv & H); eauto. }
  split; simpl.
  - rewrite <- (Forall2_length _ _ _ Hs). apply Hinv.
  - apply Hinv.
  - intros i w (v & Hv & Hp & _ & Hu & _)%Hback Hst. rewrite Hp.
    eapply vinv_pid; [done..|]. by rewrite <- Hu.
  - intros i j v w (v' & Hv' & Hp1 & _ & Hu1 & _)%Hback (w' & Hw' & Hp2 & _ & Hu2 & _)%Hback
      Hs1 Hs2 Heq.
    eapply (vinv_uniq _ Hinv); [done..| | |congruence]; by rewrite <- ?Hu1, <- ?Hu2.
  - intros i w (v & Hv & _ & _ & _ & _ & Hc)%Hback Hst. auto.
  - intros i w j (v & Hv & _ & Hpar & Hu & _)%Hback Hp. rewrite Hpar in Hp.
    destruct (vinv_parent _ Hinv _ _ _ Hv Hp) as [Hst Hl].
    split; [by rewrite Hu|by eapply live_at_sim].
  - intros i Hi. eapply live_at_sim; [done|]. by apply (vinv_init _ Hinv).
Qed.

Lemma sim_refl t i v : vinv t -> slots t !! i = Some v -> sim v v.
Proof. intros Hinv Hv. repeat split; auto. by eapply vinv_chan. Qed.

Lemma vinv_alter t i f :
  vinv t -> (forall v, slots t !! i = Some v -> sim v (f v)) ->
  vinv (t <| slots ::= alter f i |>).
Proof.
  intros Hinv Hf. apply (vinv_sim t (alter f i (slots t)) Hinv).
  apply Forall2_same_length_lookup_2; [by rewrite length_alter|].
  intros j v w Hv [(<- & v' & Hv' & ->)|[Hne Hw]]%lookup_alter_Some; simplify_eq; auto.
  by eapply sim_refl.
Qed.

(** allocproc() claims a free slot. *)
Lemma vinv_claim t i v :
  vinv t -> slots t !! i = Some v -> v_state v = UNUSED ->
  vinv (t <| slots ::= alter (fun v => v <| v_state := EMBRYO |> <| v_pid := vnext t |>) i |>
          <| vnext := vnext t + 1 |>).
Proof.
  intros Hinv Hi Hu. pose proof (vinv_next _ Hinv) as Hn.
  assert (Hlive : forall j, live_at j (slots t) -> live_at j (alter
    (fun v => v <| v_state := EMBRYO |> <| v_pid := vnext t |>) i (slots t))).
  { intros j Hj. apply live_at_alter; [|done]. intros w Hw Hl. unfold vlive in *.
    destruct Hl as [|[|]]; congruence. }
  split; simpl.
  - rewrite length_alter. apply Hinv.
  - lia.
  - intros j w [(<- & w' & Hw' & ->)|[Hne Hw]]%lookup_alter_Some Hs; simpl; [lia|].
    pose proof (vinv_pid _ Hinv _ _ Hw Hs). lia.
  - intros j k w1 w2 H1 H2 Hs1 Hs2 Heq.
    destruct (lookup_alter_Some _ _ _ _ _ H1) as [(<- & ? & _ & ->)|[Hne1 H1']];
    destruct (lookup_alter_Some _ _ _ _ _ H2) as [(<- & ? & _ & ->)|[Hne2 H2']];
      simpl in Heq; [done| | |by eapply (vinv_uniq _ Hinv)].
    + pose proof (vinv_pid _ Hinv _ _ H2' Hs2). lia.
    + pose proof (vinv_pid _ Hinv _ _ H1' Hs1). lia.
  - intros j w [(<- & w' & Hw' & ->)|[Hne Hw]]%lookup_alter_Some; simpl; [done|].
    by eapply vinv_chan.
  - intros j w k [(<- & w' & Hw' & ->)|[Hne Hw]]%lookup_alter_Some Hp; simpl in *.
    + split; [done|]. apply Hlive. by eapply (vinv_parent _ Hinv).
    + destruct (vinv_parent _ Hinv _ _ _ Hw Hp). auto.
  - intros j Hj. apply Hlive. by apply (vinv_init _ Hinv).
Qed.

(** A slot that is not live is given back: a failed fork(), or wait(). *)
Lemma vinv_free t i f :
  vinv t ->
  (forall v, slots t !! i = Some v ->
     ~ vlive v /\ v_state (f v) = UNUSED /\ v_parent (f v) = None) ->
  vinv (t <| slots ::= alter f i |>).
Proof.
  intros Hinv Hf.
  assert (Hlive : forall j, live_at j (slots t) -> live_at j (alter f i (slots t))).
  { intros j. apply live_at_alter. naive_solver. }
  split; simpl.
  - rewrite length_alter. apply Hinv.
  - apply Hinv.
  - intros j v [(<- & w & Hw & ->)|[Hne Hv]]%lookup_alter_Some Hs;
      [destruct (Hf w Hw) as (? & ? & ?); congruence|by eapply vinv_pid].
  - intros j k v w Hv Hw Hsv Hsw Heq.
    destruct (lookup_alter_Some _ _ _ _ _ Hv) as [(<- & v' & Hv' & ->)|[Hne Hv']];
      [destruct (Hf v' Hv') as (? & ? & ?); congruence|].
    destruct (lookup_alter_Some _ _ _ _ _ Hw) as [(<- & w' & Hw' & ->)|[Hne' Hw']];
      [destruct (Hf w' Hw') as (? & ? & ?); congruence|]. by eapply (vinv_uniq _ Hinv).
  - intros j v [(<- & w & Hw & ->)|[Hne Hv]]%lookup_alter_Some Hs;
      [destruct (Hf w Hw) as (? & ? & ?); congruence|by eapply vinv_chan].
  - intros j v k [(<- & w & Hw & ->)|[Hne Hv]]%lookup_alter_Some Hp;
      [destruct (Hf w Hw) as (? & ? & ?); congruence|].
    destruct (vinv_parent _ Hinv _ _ _ Hv Hp). auto.
  - intros j Hj. apply Hlive. by apply (vinv_init _ Hinv).
Qed.

(** A slot in use gets another live parent, or none. *)
Lemma vinv_reparent t i o :
  vinv t -> (forall j, o = Some j -> live_at j (slots t)) ->
  (forall v, slots t !! i = Some v -> v_state v <> UNUSED) ->
  vinv (t <| slots ::= alter (fun v => v <| v_parent := o |>) i |>).
Proof.
  intros Hinv Ho Hi.
  assert (Hlive : forall j, live_at j (slots t) ->
    live_at j (alter (fun v => v <| v_parent := o |>) i (slots t))).
  { intros j. apply live_at_alter. unfold vlive. naive_solver. }
  split; simpl.
  - rewrite length_alter. apply Hinv.
  - apply Hinv.
  - intros j v [(<- & w & Hw & ->)|[Hne Hv]]%lookup_alter_Some Hs; simpl in *;
      eapply vinv_pid; eauto.
  - intros j k v w Hv Hw Hsv Hsw Heq.
    destruct (lookup_alter_Some _ _ _ _ _ Hv) as [(<- & v' & Hv' & ->)|[Hne Hv']];
    destruct (lookup_alter_Some _ _ _ _ _ Hw) as [(<- & w' & Hw' & ->)|[Hne' Hw']];
    simpl in *; eapply (vinv_uniq _ Hinv); eauto.
  - intros j v [(<- & w & Hw & ->)|[Hne Hv]]%lookup_alter_Some Hs; simpl in *;
      eapply vinv_chan; eauto.
  - intros j v k [(<- & w & Hw & ->)|[Hne Hv]]%lookup_alter_Some Hp; simpl in *.
    + split; [by apply Hi|]. naive_solver.
    + destruct (vinv_parent _ Hinv _ _ _ Hv Hp). auto.
  - intros j Hj. apply Hlive. by apply (vinv_init _ Hinv).
Qed.

(** A process without children that is not init becomes a zombie. *)
Lemma vinv_zombie t i :
  vinv t -> vinit t <> Some i ->
  (forall j v, slots t !! j = Some v -> v_parent v <> Some i) ->
  (forall v, slots t !! i = Some v -> v_state v <> UNUSED) ->
  vinv (t <| slots ::= alter (fun v => v <| v_state := ZOMBIE |>) i |>).
Proof.
  intros Hinv Hninit Hnokids Hi.
  assert (Hlive : forall j, j <> i -> live_at j (slots t) ->
    live_at j (alter (fun v => v <| v_state := ZOMBIE |>) i (slots t))).
  { intros j Hne (v & Hv & Hl). exists v. by rewrite list_lookup_alter_ne. }
  split; simpl.
  - rewrite length_alter. apply Hinv.
  - apply Hinv.
  - intros j v [(<- & w & Hw & ->)|[Hne Hv]]%lookup_alter_Some Hs; simpl;
      [|by eapply vinv_pid]. eapply vinv_pid; eauto.
  - intros j k v w Hv Hw Hsv Hsw Heq.
    destruct (lookup_alter_Some _ _ _ _ _ Hv) as [(<- & v' & Hv' & ->)|[Hne Hv']];
    destruct (lookup_alter_Some _ _ _ _ _ Hw) as [(<- & w' & Hw' & ->)|[Hne' Hw']];
    eapply (vinv_uniq _ Hinv); eauto.
  - intros j v [(<- & w & Hw & ->)|[Hne Hv]]%lookup_alter_Some Hs;
      [done|by eapply vinv_chan].
  - intros j v k [(<- & w & Hw & ->)|[Hne Hv]]%lookup_alter_Some Hp; simpl in *.
    + split; [done|]. destruct (vinv_parent _ Hinv _ _ _ Hw Hp).
      apply Hlive; [|done]. intros ->. by eapply Hnokids.
    + destruct (vinv_parent _ Hinv _ _ _ Hv Hp). split; [done|].
      apply Hlive; [|done]. intros ->. by eapply Hnokids.
  - intros j Hj. apply Hlive; [congruence|]. by apply (vinv_init _ Hinv).
Qed.

(** ** Triples

    [triple P m Q R]: run from a state with [P], [m] returns with [Q], or gives
    up the CPU in a state with [R], or does not complete (panic). *)
Definition triple {S A} (P : S -> Prop) (m : M S A) (Q : A -> S -> Prop)
    (R : S -> Prop) : Prop :=
  forall c s, P s ->
    match m c s with
    | Ok a _ s' => Q a s'
    | Switched _ s' | Blocked _ _ _ s' => R s'
    | Panic _ | Undef | NoFuel => True
    end.

Section Triples.
Context {S : Type} {R : S -> Prop}.

Lemma triple_bind {A B} P (m : M S A) (f : A -> M S B) Q1 Q2 :
  triple P m Q1 R -> (forall a, triple (Q1 a) (f a) Q2 R) -> triple P (m ≫= f) Q2 R.
Proof.
  intros Hm Hf c s HP. rewrite bindE. specialize (Hm c s HP).
  destruct (m c s); simpl; try done. by apply Hf.
Qed.

Lemma triple_ret {A} (a : A) (P : S -> Prop) (Q : A -> S -> Prop) :
  (forall s, P s -> Q a s) -> triple P (mret a) Q R.
Proof. intros H c s HP. by apply H. Qed.

Lemma triple_weaken {A} (P P' : S -> Prop) (m : M S A) (Q Q' : A -> S -> Prop) :
  triple P m Q R -> (forall s, P' s -> P s) -> (forall a s, Q a s -> Q' a s) ->
  triple P' m Q' R.
Proof.
  intros Hm HP HQ c s Hs. specialize (Hm c s (HP s Hs)). destruct (m c s); auto.
Qed.

Lemma triple_discard {A} (P Q : S -> Prop) (m : M S A) :
  triple P m (fun _ => Q) R -> triple P (m ;; mret tt) (fun _ => Q) R.
Proof. intros Hm. eapply triple_bind; [done|]. intros a. by apply triple_ret. Qed.

Lemma triple_getS (P : S -> Prop) : triple P getS (fun a s => P s /\ a = s) R.
Proof. intros c s HP. done. Qed.

Lemma triple_gets {A} (f : S -> A) (P : S -> Prop) :
  triple P (gets f) (fun a s => P s /\ a = f s) R.
Proof. intros c s HP. done. Qed.

Lemma triple_pure {A} (P : S -> Prop) (phi : Prop) (m : M S A) Q :
  (phi -> triple P m Q R) -> triple (fun s => P s /\ phi) m Q R.
Proof. intros H c s [HP Hphi]. by apply H. Qed.
End Triples.

(** ** Code that leaves the view alone *)

Definition keeps {E A} (m : M (pstate E) A) : Prop :=
  forall c s, match m c s with
    | Ok _ _ s' | Switched _ s' | Blocked _ _ _ s' => view s' = view s
    | Panic _ | Undef | NoFuel => True
    end.

Create HintDb keeps.

Section Keeps.
Context {E : Type} `{KernelOps E} (pol : policy).
Abbreviation K := (M (pstate E)).

Lemma keeps_ret {A} (a : A) : keeps (mret a : K A).
Proof. done. Qed.

Lemma keeps_bind {A B} (m : K A) (f : A -> K B) :
  keeps m -> (forall a, keeps (f a)) -> keeps (m ≫= f).
Proof.
  intros Hm Hf c s. rewrite bindE. specialize (Hm c s).
  destruct (m c s) as [a c1 s1| | | | |]; simpl; try done.
  specialize (Hf a c1 s1). rewrite <- Hm. done.
Qed.

Lemma keeps_getS : keeps (getS : K _).
Proof. done. Qed.
Lemma keeps_gets {A} (f : pstate E -> A) : keeps (gets f).
Proof. done. Qed.
Lemma keeps_emit e : keeps (emit e : K _).
Proof. done. Qed.
Lemma keeps_panic {A} msg : keeps (panic msg : K A).
Proof. done. Qed.
Lemma keeps_undef {A} : keeps (undef : K A).
Proof. done. Qed.
Lemma keeps_nofuel {A} : keeps (nofuel : K A).
Proof. done. Qed.
Lemma keeps_of_option {A} (o : option A) : keeps (of_option o : K A).
Proof. by destruct o. Qed.
Lemma keeps_acquire l : keeps (acquire l : K _).
Proof. intros c s. unfold acquire. by case_decide. Qed.
Lemma keeps_release l : keeps (release l : K _).
Proof. intros c s. unfold release. by case_decide. Qed.
Lemma keeps_lift {A} (m : M E A) : keeps (lift m).
Proof. intros c s. unfold lift, zoom. by destruct (m c (env s)). Qed.
Lemma keeps_getp i : keeps (getp i : K _).
Proof. apply keeps_bind; [done|]. intros. apply keeps_of_option. Qed.
Lemma keeps_modS f : (forall s, view (f s) = view s) -> keeps (modS f : K _).
Proof. intros Hf c s. apply Hf. Qed.
Lemma keeps_mfor {A} (l : list A) (body : A -> K unit) :
  (forall x, keeps (body x)) -> keeps (mfor l body).
Proof.
  intros Hb. induction l as [|x l IH]; simpl; [apply keeps_ret|].
  apply keeps_bind; auto.
Qed.

Lemma view_setp (s : pstate E) i f g :
  (forall p, pv (f p) = g (pv p)) ->
  view (s <| procs ::= alter f i |>) = (view s) <| slots ::= alter g i |>.
Proof.
  intros Hf. unfold view. simpl. f_equal. apply list_fmap_alter.
  apply Forall_forall. auto.
Qed.

Lemma alter_id_list {A} (l : list A) i : alter (fun x => x) i l = l.
Proof.
  apply list_eq. intros j. destruct (decide (i = j)) as [<-|];
    [rewrite list_lookup_alter_eq; by destruct (l !! i)|by rewrite list_lookup_alter_ne].
Qed.

Lemma keeps_setp i f : (forall p, pv (f p) = pv p) -> keeps (setp i f : K _).
Proof.
  intros Hf c s. change (view (s <| procs ::= alter f i |>) = view s).
  rewrite (view_setp _ _ _ (fun v => v)) by done.
  unfold view. simpl. by rewrite alter_id_list.
Qed.
End Keeps.

#[export] Hint Resolve keeps_ret keeps_getS keeps_gets keeps_emit keeps_panic
  keeps_undef keeps_nofuel keeps_of_option keeps_acquire keeps_release keeps_lift
  keeps_getp : keeps.
#[export] Hint Extern 2 (keeps (setp _ _)) => (apply keeps_setp; intros []; reflexivity) : keeps.
#[export] Hint Extern 2 (keeps (modS _)) => (apply keeps_modS; intros []; reflexivity) : keeps.

Ltac keeps :=
  solve [ repeat first
    [ solve [eauto with keeps]
    | apply keeps_bind; [|intros ?]
    | apply keeps_mfor; intros ?
    | progress case_match
    | progress unfold rd, wr, deref, initlock, Prelude.wakeup, cprintf ] ].

Section Ops.
Context {E : Type} `{KernelOps E} (pol : policy).
Abbreviation K := (M (pstate E)).

Lemma keeps_count k : keeps (count k : K _).
Proof. unfold count. keeps. Qed.
Lemma keeps_set_count k c : keeps (set_count k c : K _).
Proof. unfold set_count. keeps. Qed.
Lemma keeps_qget k i : keeps (qget k i : K _).
Proof. unfold qget. keeps. Qed.
Lemma keeps_qset k i x : keeps (qset k i x : K _).
Proof. unfold qset. keeps. Qed.
Hint Resolve keeps_count keeps_set_count keeps_qget keeps_qset : keeps.

Lemma keeps_enqueue k x : keeps (enqueue k x : K _).
Proof. unfold enqueue. keeps. Qed.
Lemma keeps_shift_down k j n : keeps (shift_down k j n : K _).
Proof. revert j. induction n; intros j; cbn [shift_down]; keeps. Qed.
Hint Resolve keeps_enqueue keeps_shift_down : keeps.

Lemma keeps_rem_loop fuel k pid0 i : keeps (rem_loop fuel k pid0 i : K _).
Proof. revert i. induction fuel; intros i; cbn [rem_loop]; keeps. Qed.
Lemma keeps_rem_process pid0 k : keeps (rem_process pid0 k : K _).
Proof. unfold rem_process. pose proof keeps_rem_loop. keeps. Qed.
Hint Resolve keeps_rem_process : keeps.

Lemma keeps_set_name i t : keeps (set_name i t : K _).
Proof. unfold set_name. keeps. Qed.
Lemma keeps_fork_files me i : keeps (fork_files me i : K _).
Proof. unfold fork_files. keeps. Qed.
Lemma keeps_close_files me : keeps (close_files me : K _).
Proof. unfold close_files. keeps. Qed.
Lemma keeps_growproc me n : keeps (growproc me n : K _).
Proof. unfold growproc. keeps. Qed.
Lemma keeps_chpr pid0 prio : keeps (chpr pid0 prio : K _).
Proof. unfold chpr. keeps. Qed.
Lemma keeps_setPriority prio pid0 : keeps (setPriority prio pid0 : K _).
Proof. unfold setPriority. keeps. Qed.
Lemma keeps_cps : keeps (cps pol : K _).
Proof. unfold cps, cps1. keeps. Qed.
Lemma keeps_procdump stk : keeps (procdump stk : K _).
Proof. unfold procdump, procdump1. keeps. Qed.
Lemma keeps_forkret : keeps (forkret : K _).
Proof. unfold forkret. keeps. Qed.
End Ops.

#[export] Hint Resolve keeps_enqueue keeps_rem_process keeps_set_name keeps_fork_files
  keeps_close_files : keeps.

(** ** The operations keep the invariant *)

(** [good lv t]: the invariant, and the processes in [lv] are live. *)
Definition good (lv : nat -> Prop) (t : tview) : Prop :=
  vinv t /\ forall j, lv j -> live_at j (slots t).

Definition fresh_at (i : nat) (t : tview) : Prop :=
  exists v, slots t !! i = Some v /\ v_state v = EMBRYO /\ v_parent v = None.

Lemma good_vinv lv t : good lv t -> vinv t.
Proof. by intros []. Qed.

Lemma good_mono (lv lv' : nat -> Prop) t :
  (forall j, lv' j -> lv j) -> good lv t -> good lv' t.
Proof. intros Hs [Hi Hl]. split; auto. Qed.

Lemma good_alter lv t i f :
  good lv t -> vinv (t <| slots ::= alter f i |>) ->
  (forall v, slots t !! i = Some v -> vlive v -> vlive (f v)) ->
  good lv (t <| slots ::= alter f i |>).
Proof. intros [_ Hl] Hi Hf. split; [done|]. intros j Hj. apply live_at_alter; auto. Qed.

Definition fresh_ok (lv : nat -> Prop) (o : option nat) (t : tview) : Prop :=
  good lv t /\ forall i, o = Some i -> fresh_at i t.

Lemma claim_fresh lv t i v n :
  good lv t -> vnext t = n -> slots t !! i = Some v -> v_state v = UNUSED ->
  fresh_ok lv (Some i) (t <| slots ::= alter
    (fun v => v <| v_state := EMBRYO |> <| v_pid := n |>) i |> <| vnext := n + 1 |>).
Proof.
  intros Hg <- Hi Hu. split; [split|].
  - by eapply vinv_claim; [apply Hg| |].
  - intros j Hj. simpl. apply live_at_alter; [|by apply Hg].
    intros w Hw. unfold vlive. simplify_eq. rewrite Hu. naive_solver.
  - intros ? [= <-]. exists (v <| v_state := EMBRYO |> <| v_pid := vnext t |>).
    simpl. rewrite list_lookup_alter_eq, Hi. split; [done|]. split; [done|]. simpl.
    destruct (v_parent v) eqn:Hp; [|done].
    by destruct (vinv_parent t (proj1 Hg) i v _ Hi Hp) as [[] _].
Qed.

Lemma unclaim lv i t :
  fresh_ok lv (Some i) t ->
  good lv (t <| slots ::= alter (fun v => v <| v_state := UNUSED |>) i |>).
Proof.
  intros [Hg Hf]. destruct (Hf i eq_refl) as (v & Hv & He & Hp).
  apply good_alter; [done| |].
  - apply vinv_free; [apply Hg|]. intros w Hw. simplify_eq. unfold vlive.
    rewrite He. naive_solver.
  - intros w Hw. simplify_eq. unfold vlive. rewrite He. naive_solver.
Qed.

(** The child gets its parent. *)
Lemma set_parent_good lv t i me :
  fresh_ok lv (Some i) t -> lv me ->
  good lv (t <| slots ::= alter (fun v => v <| v_parent := Some me |>) i |>) /\
  exists v, alter (fun v => v <| v_parent := Some me |>) i (slots t) !! i = Some v /\
    v_state v = EMBRYO.
Proof.
  intros [Hg Hf] Hme. destruct (Hf i eq_refl) as (v & Hv & He & _). split.
  - apply good_alter; [done| |by intros].
    apply vinv_reparent; [apply Hg| |].
    + intros j [= <-]. by apply Hg.
    + intros w Hw. simplify_eq. congruence.
  - exists (v <| v_parent := Some me |>). rewrite list_lookup_alter_eq, Hv. done.
Qed.

Definition embryo_ok (lv : nat -> Prop) (i : nat) (t : tview) : Prop :=
  good lv t /\ exists v, slots t !! i = Some v /\ v_state v = EMBRYO.

Lemma make_runnable lv i t :
  embryo_ok lv i t ->
  good lv (t <| slots ::= alter (fun v => v <| v_state := RUNNABLE |>) i |>).
Proof.
  intros [Hg (v & Hv & He)]. apply good_alter; [done| |].
  - apply vinv_alter; [apply Hg|]. intros w Hw. simplify_eq.
    unfold sim, vlive. simpl. rewrite He. naive_solver.
  - intros w Hw. unfold vlive. simpl. auto.
Qed.

(** The sim-changes of one slot. *)
Lemma good_sim lv t i g :
  good lv t -> (forall v, slots t !! i = Some v -> sim v (g v)) ->
  good lv (t <| slots ::= alter g i |>).
Proof.
  intros Hg Hf. apply good_alter; [done|apply vinv_alter; [apply Hg|done]|].
  intros v Hv. by apply Hf.
Qed.

Create HintDb good.
#[export] Hint Resolve good_mono : good.
#[export] Hint Extern 1 (good _ _) => match goal with
  | H : fresh_ok _ _ _ |- _ => destruct H
  | H : embryo_ok _ _ _ |- _ => destruct H
  | H : good _ _ /\ _ |- _ => destruct H
  end : good.

Section Preserve.
Context {E : Type} `{KernelOps E} (pol : policy).
(** The processes that are live when the code runs, and those that stay so
    while it is switched out. *)
Context (lv out_lv : nat -> Prop) (Hout : forall j, out_lv j -> lv j).
Abbreviation K := (M (pstate E)).
Implicit Types (s : pstate E) (t : tview).

Definition on (P : tview -> Prop) (s : pstate E) : Prop := P (view s).
Definition pout : pstate E -> Prop := on (good out_lv).

Lemma triple_keeps {A} (m : K A) P :
  keeps m -> (forall t, P t -> good out_lv t) ->
  triple (on P) m (fun _ => on P) pout.
Proof.
  intros Hm HP c s Hs. specialize (Hm c s). unfold pout, on in *.
  destruct (m c s); try done; rewrite Hm; auto.
Qed.

Lemma triple_setp i f g P Q :
  (forall p, pv (f p) = g (pv p)) ->
  (forall t, P t -> Q (t <| slots ::= alter g i |>)) ->
  triple (on P) (setp i f : K _) (fun _ => on Q) pout.
Proof.
  intros Hf HQ c s Hs. change (Q (view (s <| procs ::= alter f i |>))).
  rewrite (view_setp _ _ _ g) by done. by apply HQ.
Qed.

Lemma triple_if {A} (b : bool) (P0 : pstate E -> Prop) (m1 m2 : K A) Q0 :
  (b = true -> triple P0 m1 Q0 pout) -> (b = false -> triple P0 m2 Q0 pout) ->
  triple P0 (if b then m1 else m2) Q0 pout.
Proof. destruct b; auto. Qed.

(** [keeps]-code followed by the rest. *)
Lemma triple_keeps_bind {A B} (m : K A) (f : A -> K B) P Q0 :
  keeps m -> (forall t, P t -> good out_lv t) ->
  (forall a, triple (on P) (f a) Q0 pout) -> triple (on P) (m ≫= f) Q0 pout.
Proof. intros. eapply triple_bind; [by apply triple_keeps|done]. Qed.

Lemma find_index_view s i :
  find_index (is_state UNUSED) (procs s) = Some i ->
  exists v, slots (view s) !! i = Some v /\ v_state v = UNUSED.
Proof.
  intros [(p & Hp & Hu) _]%find_index_Some. exists (pv p). simpl.
  rewrite list_lookup_fmap, Hp. split; [done|]. by apply bool_decide_eq_true in Hu.
Qed.

(** The first critical section of allocproc(). *)
Lemma claim_state i s :
  good lv (view s) -> nextpid s < 2 ^ 31 - 1 ->
  (exists v, slots (view s) !! i = Some v /\ v_state v = UNUSED) ->
  on (fresh_ok lv (Some i))
    ((s <| procs ::= alter (claim (nextpid s)) i |>)
       <| nextpid ::= fun n => s32 (n + 1) |>).
Proof.
  intros Hg Hmax (v & Hv & Hu). pose proof (vinv_next _ (proj1 Hg)) as Hpos. simpl in Hpos.
  pose proof (claim_fresh lv (view s) i v _ Hg eq_refl Hv Hu) as Hc.
  unfold on, view in *. simpl in *. rewrite s32_small by lia.
  erewrite list_fmap_alter; [exact Hc|]. by apply Forall_forall.
Qed.

Lemma allocproc_stack_good i :
  triple (on (fresh_ok lv (Some i))) (allocproc_stack i : K _)
    (fun o => on (fresh_ok lv o)) pout.
Proof.
  assert (HP : forall t, fresh_ok lv (Some i) t -> good out_lv t) by eauto with good.
  unfold allocproc_stack. do 2 (apply triple_keeps_bind; [keeps|done|intros ?]).
  apply triple_if; intros _.
  - eapply triple_bind.
    + apply (triple_setp _ _ (fun v => v <| v_state := UNUSED |>) _ (fresh_ok lv None)); [done|].
      intros t Ht. split; [by apply unclaim|done].
    + intros ?. by apply triple_ret.
  - do 6 (apply triple_keeps_bind; [keeps|done|intros ?]). by apply triple_ret.
Qed.

Lemma allocproc_good :
  triple (on (fun t => good lv t /\ vnext t < 2 ^ 31 - 1)) (allocproc : K _)
    (fun o => on (fresh_ok lv o)) pout.
Proof.
  unfold allocproc. apply triple_keeps_bind; [keeps|eauto with good|]. intros _.
  intros c s [Hg Hmax]. rewrite bindE, getSE. cbn [obind].
  destruct (find_index _ _) as [i|] eqn:Hfi.
  - apply find_index_view in Hfi.
    rewrite bindE. unfold setp at 1. rewrite modSE. cbn [obind]. rewrite bindE, modSE.
    cbn [obind].
    refine ((_ : triple _ _ _ _) c _ (claim_state i s Hg Hmax Hfi)).
    do 2 (apply triple_keeps_bind; [keeps|eauto with good|intros ?]).
    apply allocproc_stack_good.
  - refine ((_ : triple (on (fresh_ok lv None)) _ _ _) c s (conj Hg _)); [|done].
    apply triple_keeps_bind; [keeps|eauto with good|]. intros _. by apply triple_ret.
Qed.

Lemma fork_good me :
  lv me ->
  triple (on (fun t => good lv t /\ vnext t < 2 ^ 31 - 1)) (fork me : K _)
    (fun _ => on (good lv)) pout.
Proof.
  intros Hme. unfold fork. eapply triple_bind; [apply allocproc_good|]. intros [i|].
  2:{ apply triple_ret. by intros s []. }
  assert (HP : forall t, fresh_ok lv (Some i) t -> good out_lv t) by eauto with good.
  do 3 (apply triple_keeps_bind; [keeps|done|intros ?]).
  apply triple_if; intros _.
  - do 2 (apply triple_keeps_bind; [keeps|done|intros ?]).
    eapply triple_bind; [|intros ?; apply triple_ret; intros s Hs; exact Hs].
    apply (triple_setp _ _ (fun v => v <| v_state := UNUSED |>)); [done|].
    intros t. apply unclaim.
  - apply triple_keeps_bind; [keeps|done|intros f].
    eapply triple_bind.
    { apply (triple_setp _ _ (fun v => v <| v_parent := Some me |>) _ (embryo_ok lv i)); [done|].
      intros t Ht. by apply set_parent_good. }
    assert (HP' : forall t, embryo_ok lv i t -> good out_lv t) by eauto with good.
    intros ?. do 8 (apply triple_keeps_bind; [keeps|done|intros ?]).
    eapply triple_bind.
    + apply (triple_setp _ _ (fun v => v <| v_state := RUNNABLE |>) _ (good lv)); [done|].
      intros t. apply make_runnable.
    + intros ?. apply triple_keeps_bind; [keeps|eauto with good|]. intros ?.
      by apply triple_ret.
Qed.

(** *** Sleeping, waking and yielding *)

Definition vwake (ch : option chan) (v : pview) : pview :=
  if bool_decide (v_state v = SLEEPING) && bool_decide (v_chan v = ch)
  then v <| v_state := RUNNABLE |> else v.

Lemma pv_wake ch tk p : pv (wake ch tk p) = vwake ch (pv p).
Proof. unfold wake, vwake, is_state. simpl. by case_match. Qed.

Lemma vwake_parent ch v : v_parent (vwake ch v) = v_parent v.
Proof. unfold vwake. by case_match. Qed.

Lemma sim_vwake t i v ch : vinv t -> slots t !! i = Some v -> sim v (vwake ch v).
Proof.
  intros Hi Hv. unfold vwake. case_match eqn:Hb; [|by eapply sim_refl].
  apply andb_prop in Hb as [Hs%bool_decide_eq_true _].
  unfold sim, vlive. simpl. rewrite Hs. naive_solver.
Qed.

Lemma good_wake t ch : good lv t -> good lv (t <| slots ::= fmap (vwake ch) |>).
Proof.
  intros [Hi Hl]. assert (Hs : Forall2 sim (slots t) (vwake ch <$> slots t)).
  { apply Forall2_same_length_lookup_2; [by rewrite length_fmap|].
    intros i v w Hv Hw. rewrite list_lookup_fmap, Hv in Hw. simplify_eq/=.
    by eapply sim_vwake. }
  split; [by apply (vinv_sim t _ Hi)|]. intros j Hj. by eapply live_at_sim; [|apply Hl].
Qed.

Lemma triple_wakeup1 ch P Q :
  (forall t, P t -> Q (t <| slots ::= fmap (vwake ch) |>)) ->
  triple (on P) (wakeup1 ch : K _) (fun _ => on Q) pout.
Proof.
  intros HQ c s Hs. unfold wakeup1. rewrite modSE. specialize (HQ _ Hs).
  unfold on, view in *. simpl in *. rewrite <- list_fmap_compose.
  replace (pv ∘ wake ch (ticks s) <$> procs s) with (vwake ch <$> (pv <$> procs s)); [done|].
  rewrite <- list_fmap_compose. apply list_fmap_ext. intros i p _. simpl.
  by rewrite pv_wake.
Qed.

(** What the rest of the machine does while the process is switched out: the
    invariant still holds when it comes back, and the processes in [lv] are
    still live. *)
Definition rely (f : pstate E -> pstate E) : Prop :=
  forall s, on (good lv) s -> on (good lv) (f s).

Lemma sched_outcome me r c s :
  match sched me r c s with
  | Ok _ c' s' => c' = c /\ exists f, r = Some f /\ s' = f s
  | Switched c' s' => c' = c /\ s' = s /\ r = None
  | Blocked _ _ _ _ => False
  | _ => True
  end.
Proof.
  unfold sched. do 2 (case_decide; [done|]). destruct (procs s !! me); [|done].
  destruct (is_state _ _); [done|]. destruct r; eauto.
Qed.

Lemma triple_sched me r :
  (forall f, r = Some f -> rely f) ->
  triple (on (good lv)) (sched me r : K _) (fun _ => on (good lv)) pout.
Proof.
  intros Hr c s Hs. pose proof (sched_outcome me r c s) as Ho.
  destruct (sched me r c s); try done.
  - destruct Ho as (_ & f & -> & ->). by apply (Hr f eq_refl).
  - destruct Ho as (_ & -> & _). by eapply good_mono.
Qed.

Lemma sim_live_change st t i v :
  lv i -> good lv t -> slots t !! i = Some v -> st = RUNNABLE \/ st = RUNNING ->
  sim v (v <| v_state := st |>).
Proof.
  intros Hi [_ Hl] Hv Hst. destruct (Hl i Hi) as (w & Hw & Hlive). simplify_eq.
  apply sim_live; try done; unfold vlive; simpl; [tauto|].
  destruct Hst as [-> | ->]; done.
Qed.

Lemma yield_good me r :
  lv me -> (forall f, r = Some f -> rely f) ->
  triple (on (good lv)) (yield me r : K _) (fun _ => on (good lv)) pout.
Proof.
  intros Hme Hr. unfold yield.
  do 2 (apply triple_keeps_bind; [keeps|eauto with good|intros ?]).
  eapply triple_bind.
  { apply (triple_setp _ _ (fun v => v <| v_state := RUNNABLE |>) _ (good lv)); [done|].
    intros t Ht. apply good_sim; [done|]. intros v Hv. eapply sim_live_change; eauto. }
  intros ?. eapply triple_bind; [by apply triple_sched|]. intros ?.
  apply triple_keeps; [keeps|eauto with good].
Qed.

Lemma good_sleeping t i ch :
  lv i -> good lv t ->
  good lv (t <| slots ::= alter (fun v => v <| v_chan := Some ch |> <| v_state := SLEEPING |>) i |>).
Proof.
  intros Hi Ht. apply good_sim; [done|]. intros v Hv.
  destruct Ht as [_ Hl]. destruct (Hl i Hi) as (w & Hw & Hlive). simplify_eq.
  apply sim_live; try done. left. done.
Qed.

(** The channel is cleared once the process is running again. *)
Definition running_at (i : nat) (t : tview) : Prop :=
  exists v, slots t !! i = Some v /\ v_state v = RUNNING.

Definition rely_running (me : nat) (f : pstate E -> pstate E) : Prop :=
  forall s, on (good lv) s -> on (good lv) (f s) /\ on (running_at me) (f s).

Lemma triple_sched_running me r :
  (forall f, r = Some f -> rely_running me f) ->
  triple (on (good lv)) (sched me r : K _)
    (fun _ => on (fun t => good lv t /\ running_at me t)) pout.
Proof.
  intros Hr c s Hs. pose proof (sched_outcome me r c s) as Ho.
  destruct (sched me r c s); try done.
  - destruct Ho as (_ & f & -> & ->). by apply (Hr f eq_refl).
  - destruct Ho as (_ & -> & _). by eapply good_mono.
Qed.

Lemma good_tidy t i :
  good lv t -> running_at i t ->
  good lv (t <| slots ::= alter (fun v => v <| v_chan := None |>) i |>).
Proof.
  intros Ht (w & Hw & Hs). apply good_sim; [done|]. intros v Hv. simplify_eq.
  unfold sim, vlive. simpl. rewrite Hs. naive_solver.
Qed.

Lemma sleep_good me ch lk r :
  lv me -> (forall f, r = Some f -> rely_running me f) ->
  triple (on (good lv)) (sleep (Some me) ch lk r : K _) (fun _ => on (good lv)) pout.
Proof.
  intros Hme Hr. unfold sleep. destruct lk as [lk|]; [|done].
  apply triple_keeps_bind; [keeps|eauto with good|intros ?].
  eapply triple_bind.
  { apply (triple_setp _ _ (fun v => v <| v_chan := Some ch |> <| v_state := SLEEPING |>)
      _ (good lv)); [done|]. intros t. by apply good_sleeping. }
  intros ?. eapply triple_bind; [by apply triple_sched_running|]. intros ?.
  eapply triple_bind.
  { apply (triple_setp _ _ (fun v => v <| v_chan := None |>) _ (good lv)); [done|].
    intros t []. by apply good_tidy. }
  intros ?. apply triple_keeps; [keeps|eauto with good].
Qed.

Lemma wakeup_good ch :
  triple (on (good lv)) (wakeup ch : K _) (fun _ => on (good lv)) pout.
Proof.
  unfold wakeup. apply triple_keeps_bind; [keeps|eauto with good|intros ?].
  eapply triple_bind; [apply (triple_wakeup1 _ (good lv) (good lv)); intros t; apply good_wake|]. intros ?.
  apply triple_keeps; [keeps|eauto with good].
Qed.

Lemma kill_good pid0 :
  triple (on (good lv)) (kill pid0 : K _) (fun _ => on (good lv)) pout.
Proof.
  unfold kill. apply triple_keeps_bind; [keeps|eauto with good|intros ?].
  apply triple_keeps_bind; [keeps|eauto with good|intros s0].
  destruct (find_index _ _) as [i|]; [|apply triple_keeps; [keeps|eauto with good]].
  eapply triple_bind; [|intros ?; apply triple_keeps; [keeps|eauto with good]].
  apply (triple_setp _ _ (fun v => if bool_decide (v_state v = SLEEPING)
    then v <| v_state := RUNNABLE |> else v) _ (good lv)).
  - intros p. unfold is_state. simpl. by case_match.
  - intros t Ht. apply good_sim; [done|]. intros v Hv. case_bool_decide as Hs.
    + unfold sim, vlive. simpl. rewrite Hs. naive_solver.
    + eapply sim_refl; [apply Ht|done].
Qed.

(** *** exit() *)

Lemma getp_run i p c s : procs s !! i = Some p -> getp i c s = Ok p c s.
Proof. intros Hp. unfold getp. rewrite bindE, getSE. cbn [obind]. by rewrite Hp. Qed.

Lemma getp_none i c s : procs s !! i = None -> getp i c s = Undef.
Proof. intros Hp. unfold getp. rewrite bindE, getSE. cbn [obind]. by rewrite Hp. Qed.

(** The slots below [k] are no longer children of [me]. *)
Definition reparented (me k : nat) (t : tview) : Prop :=
  good lv t /\ vinit t <> Some me /\
  forall j v, (j < k)%nat -> slots t !! j = Some v -> v_parent v <> Some me.

Lemma reparented_wake me k ch t :
  reparented me k t -> reparented me k (t <| slots ::= fmap (vwake ch) |>).
Proof.
  intros (Hg & Hi & Hr). split; [by apply good_wake|]. split; [done|].
  intros j v Hj. simpl. rewrite list_lookup_fmap.
  intros (w & Hw & ->)%fmap_Some. rewrite vwake_parent. by eapply Hr.
Qed.

Lemma reparented_set me k t v :
  reparented me k t -> slots t !! k = Some v -> v_state v <> UNUSED ->
  reparented me (S k) (t <| slots ::= alter (fun v => v <| v_parent := vinit t |>) k |>).
Proof.
  intros (Hg & Hi & Hr) Hv Hu. split; [|split; [done|]].
  - apply good_alter; [done| |done]. apply vinv_reparent; [apply Hg| |].
    + apply (vinv_init t), Hg.
    + intros w Hw. by simplify_eq.
  - intros j w Hj. simpl.
    intros [(<- & w' & Hw' & ->)|[Hne Hw]]%lookup_alter_Some; [done|].
    apply (Hr j); [lia|done].
Qed.

Lemma reparent_good me k :
  triple (on (reparented me k)) (reparent me k : K _) (fun _ => on (reparented me (S k))) pout.
Proof.
  intros c s Hs. unfold reparent. destruct (procs s !! k) as [p|] eqn:Hp.
  2:{ by rewrite bindE, getp_none. }
  rewrite bindE, (getp_run _ _ _ _ Hp). cbn [obind].
  assert (Hv : slots (view s) !! k = Some (pv p)).
  { simpl. by rewrite list_lookup_fmap, Hp. }
  case_bool_decide as Hpar.
  - rewrite bindE, getsE. cbn [obind].
    assert (Hu : v_state (pv p) <> UNUSED).
    { eapply vinv_parent; [apply (proj1 (proj1 Hs))|done|]. done. }
    pose proof (reparented_set me k (view s) _ Hs Hv Hu) as Hset.
    refine ((_ : triple (fun s' => view s' = view s) _ _ _) c s eq_refl).
    eapply triple_bind.
    + apply (triple_setp _ _ (fun v => v <| v_parent := initproc s |>)
        (fun t => t = view s) (reparented me (S k))); [done|]. by intros t ->.
    + intros ?. apply triple_if; intros _; [|by apply triple_ret].
      apply triple_wakeup1. intros t. apply reparented_wake.
  - rewrite retE. destruct Hs as (Hg & Hi & Hr). split; [done|]. split; [done|].
    intros j v Hj Hjv. destruct (decide (j = k)) as [->|Hne]; [|apply (Hr j); [lia|done]].
    by simplify_eq.
Qed.

Lemma reparent_all_good me n k :
  triple (on (reparented me k)) (mfor (seq k n) (reparent me) : K _)
    (fun _ => on (reparented me (k + n))) pout.
Proof.
  revert k. induction n as [|n IH]; intros k; cbn [mfor seq].
  - apply triple_ret. by rewrite Nat.add_0_r.
  - eapply triple_bind; [apply reparent_good|]. intros ?.
    rewrite <- Nat.add_succ_comm. apply IH.
Qed.

Lemma zombie_good me t :
  lv me -> ~ out_lv me -> reparented me NPROC t ->
  good out_lv (t <| slots ::= alter (fun v => v <| v_state := ZOMBIE |>) me |>).
Proof.
  intros Hme Hnot (Hg & Hi & Hr). pose proof (proj1 Hg) as Hinv. split.
  - apply vinv_zombie; [done|done| |].
    + intros j v Hv. eapply Hr; [|done]. apply lookup_lt_Some in Hv.
      by rewrite (vinv_len _ Hinv) in Hv.
    + intros v Hv Hu. destruct (proj2 Hg me Hme) as (w & Hw & Hl). simplify_eq.
      unfold vlive in Hl. rewrite Hu in Hl. naive_solver.
  - intros j Hj. destruct (proj2 Hg j (Hout j Hj)) as (v & Hv & Hl). exists v.
    simpl. rewrite list_lookup_alter_ne; [done|]. by intros ->.
Qed.

Lemma exit_locked_good me :
  lv me -> ~ out_lv me ->
  triple (on (reparented me 0)) (exit_locked me : K _) (fun _ => on (good out_lv)) pout.
Proof.
  intros Hme Hnot. assert (HP : forall k t, reparented me k t -> good out_lv t).
  { intros k t [Hg _]. by eapply good_mono. }
  unfold exit_locked. apply triple_keeps_bind; [keeps|by apply HP|intros p].
  eapply triple_bind; [apply (triple_wakeup1 _ _ (reparented me 0));
    intros t; apply reparented_wake|]. intros ?.
  eapply triple_bind; [apply reparent_all_good|]. intros ?.
  apply triple_keeps_bind; [keeps|by apply HP|intros tk].
  eapply triple_bind.
  { apply (triple_setp _ _ (fun v => v <| v_state := ZOMBIE |>) _ (good out_lv)); [done|].
    intros t. by apply zombie_good. }
  intros ?. apply triple_keeps; [keeps|done].
Qed.

Lemma exit_good me :
  lv me -> ~ out_lv me ->
  triple (on (good lv)) (exit me None : K _) (fun _ _ => False) pout.
Proof.
  intros Hme Hnot. unfold exit.
  intros c s Hs. rewrite bindE, getsE. cbn [obind]. case_bool_decide as Hi; [done|].
  refine ((_ : triple (on (reparented me 0)) _ _ _) c s _).
  2:{ split; [done|]. split; [done|]. intros; lia. }
  assert (HP : forall t, reparented me 0 t -> good out_lv t).
  { intros t [Hg _]. by eapply good_mono. }
  do 7 (apply triple_keeps_bind; [keeps|done|intros ?]).
  apply triple_keeps_bind; [keeps|done|intros ?].
  eapply triple_bind; [by apply exit_locked_good|]. intros ?.
  apply (triple_bind _ _ _ (fun _ _ => True)); [|by intros ? c' s' ?].
  intros c' s' Hs'. pose proof (sched_outcome me None c' s') as Ho.
  destruct (sched me None c' s'); try done. by destruct Ho as (_ & -> & _).
Qed.

(** *** wait() and waitx() *)

Lemma scan_children_Some me ps : forall i0 hk i b,
  scan_children me i0 ps hk = (Some i, b) ->
  (i0 <= i)%nat /\ exists p, ps !! (i - i0)%nat = Some p /\ parent p = Some me /\ state p = ZOMBIE /\
    b = true.
Proof.
  induction ps as [|p ps IH]; intros i0 hk i b; simpl; [done|].
  case_bool_decide as Hp; simpl.
  - unfold is_state. case_bool_decide as Hz.
    + intros [= <- <-]. split; [lia|]. rewrite Nat.sub_diag. exists p. done.
    + intros (Hle & q & Hq & ?)%IH. split; [lia|]. exists q.
      replace (i - i0)%nat with (S (i - S i0)) by lia. done.
  - intros (Hle & q & Hq & ?)%IH. split; [lia|]. exists q.
    replace (i - i0)%nat with (S (i - S i0)) by lia. done.
Qed.

Definition zombie_at (i : nat) (t : tview) : Prop :=
  good lv t /\ exists v, slots t !! i = Some v /\ v_state v = ZOMBIE.

Lemma scan_zombie me s i b :
  on (good lv) s -> scan_children me 0 (procs s) false = (Some i, b) -> on (zombie_at i) s.
Proof.
  intros Hs (_ & p & Hp & _ & Hz & _)%scan_children_Some. split; [done|].
  exists (pv p). simpl. rewrite Nat.sub_0_r in Hp. by rewrite list_lookup_fmap, Hp.
Qed.

Lemma zombie_not_live v : v_state v = ZOMBIE -> ~ vlive v.
Proof. unfold vlive. intros ->. naive_solver. Qed.

Definition vreap (v : pview) : pview :=
  v <| v_pid := 0 |> <| v_parent := None |> <| v_state := UNUSED |>.

Lemma good_reap t i :
  zombie_at i t -> good lv (t <| slots ::= alter vreap i |>).
Proof.
  intros [Hg (v & Hv & Hz)]. apply zombie_not_live in Hz. apply good_alter; [done| |].
  - apply vinv_free; [apply Hg|]. intros w Hw. by simplify_eq.
  - intros w Hw. by simplify_eq.
Qed.

Lemma reap_good i :
  triple (on (zombie_at i)) (reap pol i : K _) (fun _ => on (good lv)) pout.
Proof.
  assert (HP : forall t, zombie_at i t -> good out_lv t).
  { intros t [Hg _]. by eapply good_mono. }
  unfold reap. do 5 (apply triple_keeps_bind; [keeps|done|intros ?]).
  eapply triple_bind; [apply (triple_setp _ _ vreap _ (good lv));
    [done|intros t; apply good_reap]|].
  intros ?. apply triple_keeps; [keeps|eauto with good].
Qed.

Lemma reapx_good i :
  triple (on (zombie_at i)) (reapx i : K _) (fun _ => on (good lv)) pout.
Proof.
  assert (HP : forall t, zombie_at i t -> good out_lv t).
  { intros t [Hg _]. by eapply good_mono. }
  unfold reapx. do 5 (apply triple_keeps_bind; [keeps|done|intros ?]).
  eapply triple_bind; [apply (triple_setp _ _ vreap _ (good lv));
    [done|intros t; apply good_reap]|].
  intros ?. apply triple_keeps; [keeps|eauto with good].
Qed.

Lemma wait_loop_good me rs :
  lv me -> Forall (rely_running me) rs ->
  triple (on (good lv)) (wait_loop pol me rs : K _) (fun _ => on (good lv)) pout.
Proof.
  intros Hme Hrs. induction Hrs as [|f rs Hf Hrs IH]; cbn [wait_loop];
    intros c s Hs; rewrite bindE, getSE; cbn [obind];
    destruct (scan_children _ _ _ _) as [[i|] hk] eqn:Hscan;
    try (apply reap_good; by eapply scan_zombie);
    refine ((_ : triple (on (good lv)) _ _ _) c s Hs);
    (apply triple_keeps_bind; [keeps|eauto with good|intros p]);
    apply triple_if; intros _; try solve [apply triple_keeps; [keeps|eauto with good]].
  - eapply triple_bind; [by apply sleep_good|]. by intros ? ? ? ?.
  - eapply triple_bind; [apply sleep_good; [done|]; by intros ? [= <-]|]. intros ?. apply IH.
Qed.

Lemma waitx_loop_good me rs :
  lv me -> Forall (rely_running me) rs ->
  triple (on (good lv)) (waitx_loop me rs : K _) (fun _ => on (good lv)) pout.
Proof.
  intros Hme Hrs. induction Hrs as [|f rs Hf Hrs IH]; cbn [waitx_loop];
    intros c s Hs; rewrite bindE, getSE; cbn [obind];
    destruct (scan_children _ _ _ _) as [[i|] hk] eqn:Hscan;
    try (apply reapx_good; by eapply scan_zombie);
    refine ((_ : triple (on (good lv)) _ _ _) c s Hs);
    (apply triple_keeps_bind; [keeps|eauto with good|intros p]);
    apply triple_if; intros _; try solve [apply triple_keeps; [keeps|eauto with good]].
  - eapply triple_bind; [by apply sleep_good|]. by intros ? ? ? ?.
  - eapply triple_bind; [apply sleep_good; [done|]; by intros ? [= <-]|]. intros ?. apply IH.
Qed.
End Preserve.

(** ** All operations

    The operations of proc.c a running process [me] can perform.  [rs] lists
    what happens during the times it is switched out. *)
Inductive pop :=
| Pfork | Pexit | Pwait | Pwaitx | Pyield | Pforkret | Pcps
| Pkill (pid0 : Z)
| Psleep (ch : chan) (lk : lockid)
| Pwakeup (ch : chan)
| Pgrow (n : Z)
| Psetpriority (prio pid0 : Z)
| Pchpr (pid0 prio : Z).

Definition run_pop {E} `{KernelOps E} (pol : policy) (me : nat)
    (rs : list (pstate E -> pstate E)) (op : pop) : M (pstate E) unit :=
  match op with
  | Pfork => fork me ;; mret tt
  | Pexit => exit me None
  | Pwait => wait pol me rs ;; mret tt
  | Pwaitx => waitx me rs ;; mret tt
  | Pyield => yield me (head rs)
  | Pforkret => forkret
  | Pcps => cps pol ;; mret tt
  | Pkill pid0 => kill pid0 ;; mret tt
  | Psleep ch lk => sleep (Some me) ch (Some lk) (head rs)
  | Pwakeup ch => wakeup ch
  | Pgrow n => growproc me n ;; mret tt
  | Psetpriority prio pid0 => setPriority prio pid0 ;; mret tt
  | Pchpr pid0 prio => chpr pid0 prio ;; mret tt
  end.

#[export] Hint Resolve keeps_growproc keeps_chpr keeps_setPriority keeps_cps
  keeps_forkret : keeps.

Definition still_live (lv : nat -> Prop) (me : nat) (op : pop) (j : nat) : Prop :=
  lv j /\ (op = Pexit -> j <> me).

Lemma rely_head {E} lv me (rs : list (pstate E -> pstate E)) f :
  Forall (rely_running lv me) rs -> head rs = Some f -> rely_running lv me f.
Proof. destruct 1; simpl; [done|]. by intros [= <-]. Qed.

