(* ===== verification/Sched.v ===== *)
(** * The schedulers (src/proc.c: ageing, scheduler)

    The four scheduling policies.  Dispatching a process hands the CPU to it
    until it switches back; what it and the rest of the machine do meanwhile is
    the parameter [run].  The dispatches appear in the trace as [Eswtch]. *)

From stdpp Require Import prelude gmap strings list.
From Stdlib Require Import ZArith Lia.
From S2P Require Import Spinlock Strings Prelude Mmu Proc ProcInv.

Definition clockperiod : list Z := [1; 2; 4; 8; 16].

Section Sched.
Context {E : Type} `{KernelOps E}.
Context (run : nat -> pstate E -> pstate E).
Abbreviation K := (M (pstate E)).

(** [c->proc = p; switchuvm(p); p->state = RUNNING; p->num_r++;
    swtch(&(c->scheduler), p->context); switchkvm(); c->proc = 0;] *)
Definition dispatch (i : nat) : K unit :=
  modS (fun s => s <| curproc := Some i |>) ;;
  p ← getp i;
  lift (k_switchuvm (pgdir p) (kstack p)) ;;
  setp i (fun p => p <| state := RUNNING |> <| num_r ::= fun n => s32 (n + 1) |>) ;;
  emit (Eswtch i) ;;
  modS (run i) ;;
  lift k_switchkvm ;;
  modS (fun s => s <| curproc := None |>).

(** ** The table-scanning policies *)

(** FCFS: [min_process = p; for(p2 ...) if(p2->ctime < p->ctime) min_process = p2;]
    over the runnable processes with a pid above 2. *)
Fixpoint fcfs_scan (p : proc) (ps : list proc) (i min_process : nat) : nat :=
  match ps with
  | [] => min_process
  | p2 :: ps' =>
      fcfs_scan p ps' (S i)
        (if pid p2 <=? 2 then min_process
         else if negb (is_state RUNNABLE p2) then min_process
         else if ctime p2 <? ctime p then i else min_process)
  end.

(** PRIORITY: [if(p1->state == RUNNABLE && highest_priority->priority >
    p1->priority) highest_priority = p1;] *)
Fixpoint priority_scan (ps : list proc) (i highest : nat) (prio : Z) : nat :=
  match ps with
  | [] => highest
  | p1 :: ps' =>
      if is_state RUNNABLE p1 && (priority p1 <? prio)
      then priority_scan ps' (S i) i (priority p1)
      else priority_scan ps' (S i) highest prio
  end.

(** The process the loop body switches to when it stands at the runnable
    process [p] in slot [i]. *)
Definition pick (pol : policy) (ps : list proc) (i : nat) (p : proc) : nat :=
  match pol with
  | FCFS => fcfs_scan p ps 0 i
  | PRIORITY => priority_scan ps 0 i (priority p)
  | _ => i
  end.

(** [for (p = ptable.proc; p < &ptable.proc[NPROC]; p++)], where the body may
    move [p]. *)
Fixpoint table_loop (pol : policy) (fuel i : nat) : K unit :=
  match fuel with
  | O => nofuel
  | S fuel' =>
      if (i <? NPROC)%nat then
        s ← getS;
        p ← getp i;
        if negb (is_state RUNNABLE p) then table_loop pol fuel' (S i) else
        let j := pick pol (procs s) i p in
        dispatch j ;;
        table_loop pol fuel' (S j)
      else mret tt
  end.

(** ** Multilevel feedback queues *)

(** [queue<k>[i]->f] *)
Definition qproc (k i : Z) : K (nat * proc) :=
  x ← qget k i; j ← deref x; p ← getp j; mret (j, p).

(** What ageing() does with the process [p] in slot [j] at position [i] of queue
    [k] when it has waited too long. *)
Definition promote (k i : Z) (j : nat) (p : proc) (tk : Z) : K unit :=
  '(w, _) ← (if k =? 1 then qproc 1 0 else qproc (k - 1) i);
  setp w (fun p => p <| waittime := 0 |>) ;;
  let q := s32 (current_queue p - 1) in
  setp j (fun p => p <| current_queue := q |>) ;;
  tks ← wr (pticks p) q 0;
  setp j (fun p => p <| pticks := tks |>) ;;
  c' ← count (k - 1);
  set_count (k - 1) (c' + 1) ;;
  setp j (fun p => p <| start := s32 tk |>) ;;
  qset (k - 1) (c' + 1) (Some j) ;;
  rem_process (pid p) q.

(** ageing()'s loop over queue [k]. *)
Fixpoint ageing_loop (fuel : nat) (k i : Z) : K unit :=
  match fuel with
  | O => nofuel
  | S fuel' =>
      c ← count k;
      if i <? c + 1 then
        '(j, p) ← qproc k i;
        tk ← gets ticks;
        if negb (is_state RUNNABLE p) then ageing_loop fuel' k (i + 1)
        else if u32 (tk - start p) <=? u32 (waittime p) then ageing_loop fuel' k (i + 1)
        else promote k i j p tk ;; ageing_loop fuel' k (i + 1)
      else mret tt
  end.

Definition ageing : K unit :=
  ageing_loop 66 1 0 ;; ageing_loop 66 2 0 ;; ageing_loop 66 3 0 ;; ageing_loop 66 4 0.

(** What the scheduler does with the process in slot [j], which was at position
    [i] of queue [k] < 4, when it switches back: demote it once its time slice
    at this level is used up, drop it when it was killed. *)
Definition demote (k i : Z) (j : nat) : K unit :=
  p ← getp j;
  t ← rd (pticks p) k;
  period ← rd clockperiod k;
  if (period <=? t) || negb (killed p =? 0) then
    (if killed p =? 0 then
       c ← count (k + 1);
       set_count (k + 1) (c + 1) ;;
       setp j (fun p => p <| current_queue ::= fun q => s32 (q + 1) |>) ;;
       qset (k + 1) (c + 1) (Some j)
     else mret tt) ;;
    c ← count k;
    shift_down k i (Z.to_nat (c - i)) ;;
    tks ← wr (pticks p) k 0;
    setp j (fun p => p <| pticks := tks |>) ;;
    set_count k (c - 1)
  else mret tt.

(** The bottom queue: a killed process is shifted out, any other one goes to
    the end. *)
Definition rotate (i : Z) (j : nat) : K unit :=
  p ← getp j;
  c ← count 4;
  shift_down 4 i (Z.to_nat (c - i)) ;;
  if negb (killed p =? 0) then mret tt else qset 4 c (Some j).

Fixpoint queue_loop (fuel : nat) (k i : Z) : K unit :=
  match fuel with
  | O => nofuel
  | S fuel' =>
      c ← count k;
      if i <? c + 1 then
        '(j, p) ← qproc k i;
        if negb (is_state RUNNABLE p) then queue_loop fuel' k (i + 1) else
        tk ← gets ticks;
        setp j (fun p => p <| start := s32 tk |>) ;;
        dispatch j ;;
        (if k <? 4 then demote k i j else rotate i j) ;;
        queue_loop fuel' k (i + 1)
      else mret tt
  end.

(** [if (c<k> != -1) for (i = 0; i < c<k>+1; i++) ...] *)
Definition queue_pass (k : Z) : K unit :=
  c ← count k; if negb (c =? -1) then queue_loop 66 k 0 else mret tt.

Definition queue0_pass := queue_pass 0.
Definition queue1_pass := queue_pass 1.
Definition queue2_pass := queue_pass 2.
Definition queue3_pass := queue_pass 3.
Definition queue4_pass := queue_pass 4.

(** One iteration of scheduler()'s endless loop.  [fuel] bounds the table scan,
    which the FCFS and PRIORITY builds may restart any number of times. *)
Definition scheduler_iter (pol : policy) (fuel : nat) : K unit :=
  emit Esti ;;
  acquire Lptable ;;
  (if decide (pol = MLFQ) then
     ageing ;; queue0_pass ;; queue1_pass ;; queue2_pass ;; queue3_pass ;; queue4_pass
   else table_loop pol fuel 0) ;;
  release Lptable.
End Sched.
