(* ===== verification/ProcSpec.v ===== *)
(** * What the process operations do (src/proc.c)

    Functional specifications of the operations of Proc.v, branch by branch,
    and the witnesses for them and for the invariant of ProcInv.v. *)

From stdpp Require Import prelude gmap strings list.
From Stdlib Require Import ZArith Lia.
From S2P Require Import Spinlock Strings Prelude Mmu Proc ProcInv Sched.

Ltac prun :=
  repeat (first
    [ mhead
    | rewrite getp_run with (p := _) by eassumption
    | unfold setp at 1; rewrite modSE ];
  cbn [obind]).

Section Spec.
Context {E : Type} `{KernelOps E} (pol : policy).
Abbreviation K := (M (pstate E)).
Implicit Types s : pstate E.

Lemma setpE i f c s : setp i f c s = Ok tt c (s <| procs ::= alter f i |>).
Proof. reflexivity. Qed.

Lemma lift_ok {A} (m : M E A) c s a c' e' :
  m c (env s) = Ok a c' e' -> lift m c s = Ok a c' (s <| env := e' |>).
Proof. intros Hm. unfold lift, zoom. by rewrite Hm. Qed.

(** The state with slot [i] replaced. *)
Definition upd (i : nat) (p : proc) s : pstate E := s <| procs ::= <[i := p]> |>.

Lemma setp_upd i f c s p :
  procs s !! i = Some p -> setp i f c s = Ok tt c (upd i (f p) s).
Proof. intros Hp. rewrite setpE. unfold upd, update. by rewrite (alter_insert _ _ _ p). Qed.

Lemma lookup_upd i p q s : procs s !! i = Some q -> procs (upd i p s) !! i = Some p.
Proof. intros Hq. apply list_lookup_insert_eq. by eapply lookup_lt_Some. Qed.

Lemma lookup_upd_ne i j p s : i <> j -> procs (upd i p s) !! j = procs s !! j.
Proof. intros Hne. by apply list_lookup_insert_ne. Qed.

Lemma upd_upd i p q s : upd i p (upd i q s) = upd i p s.
Proof. unfold upd, update. simpl. by rewrite list_insert_insert_eq. Qed.

Lemma upd_id i p s : procs s !! i = Some p -> upd i p s = s.
Proof. destruct s. unfold upd. simpl. intros Hp. by rewrite list_insert_id. Qed.

Lemma upd_env i p s e : (upd i p s) <| env := e |> = upd i p (s <| env := e |>).
Proof. reflexivity. Qed.

(** ** sleep() and wakeup() *)

(** The state in which sleep() switches to the scheduler, and the tidying up
    after the process was scheduled again. *)
Definition asleep (me : nat) (ch : chan) s : pstate E :=
  s <| procs ::= alter (fun p => p <| pchan := Some ch |> <| state := SLEEPING |>) me |>.
Definition awake (me : nat) s : pstate E :=
  s <| procs ::= alter (fun p => p <| pchan := None |>) me |>.

Lemma asleep_lookup me ch s p :
  procs s !! me = Some p ->
  procs (asleep me ch s) !! me = Some (p <| pchan := Some ch |> <| state := SLEEPING |>).
Proof. intros Hp. simpl. by rewrite list_lookup_alter_eq, Hp. Qed.

Lemma sched_asleep me ch s p r h t :
  procs s !! me = Some p ->
  sched me r (Ctx h t) (asleep me ch s) =
    if decide (Lptable ∉ h) then Panic "sched ptable.lock"
    else if decide (length h <> 1%nat) then Panic "sched locks"
    else match r with
         | None => Switched (Ctx h t) (asleep me ch s)
         | Some f => Ok tt (Ctx h t) (f (asleep me ch s))
         end.
Proof. intros Hp. unfold sched. by rewrite (asleep_lookup _ _ _ _ Hp). Qed.

Lemma length_remove_nodup (l : lockid) h :
  NoDup h -> l ∈ h -> S (length (List.remove lockid_eq_dec l h)) = length h.
Proof.
  induction 1 as [|x h Hx Hnd IH]; [set_solver|].
  intros [->|Hin]%elem_of_cons; simpl.
  - destruct (lockid_eq_dec x x); [|done]. by rewrite remove_not_elem.
  - destruct (lockid_eq_dec l x) as [->|]; [done|]. simpl. by rewrite IH.
Qed.

Lemma sleep_run me p ch lk r h t s :
  NoDup h -> procs s !! me = Some p ->
  sleep (Some me) ch (Some lk) r (Ctx h t) s =
  match Prelude.sleep ch lk
          (match r with None => [] | Some f => [fun s => awake me (f (asleep me ch s))] end)
          (Ctx h t) s with
  | Ok _ c s' => Ok tt c s'
  | Panic msg => Panic msg
  | Blocked _ _ _ s' => Switched (Ctx [Lptable] t) (asleep me ch s')
  | Switched c s' => Switched c s'
  | Undef => Undef
  | NoFuel => NoFuel
  end.
Proof.
  intros Hnd Hp. unfold sleep, Prelude.sleep. cbn [held].
  destruct (decide (lk = Lptable)) as [->|Hne].
  - rewrite (decide_False (P := Lptable ≠ Lptable ∧ _)) by tauto.
    rewrite !(decide_False (P := Lptable ≠ Lptable)) by tauto.
    rewrite bindE, retE. cbn [obind]. rewrite bindE, setpE. cbn [obind].
    rewrite bindE. fold (asleep me ch s). rewrite (sched_asleep _ _ _ p) by done.
    destruct (decide (Lptable ∉ h)) as [Hn|Hin]; [done|].
    destruct (decide (length h ≠ 1%nat)) as [|Hlen]; [done|].
    destruct h as [|l [|]]; simpl in Hlen; try lia.
    assert (l = Lptable) as -> by (apply dec_stable in Hin; set_solver).
    by destruct r.
  - rewrite !(decide_True (P := lk ≠ Lptable)) by done. rewrite bindE, bindE.
    destruct (decide (Lptable ∈ h)) as [Hin|Hnin].
    { rewrite acquire_twice by done. by rewrite (decide_True (P := lk ≠ Lptable ∧ _)). }
    rewrite acquire_ok by done. rewrite (decide_False (P := lk ≠ Lptable ∧ _)) by tauto.
    cbn [obind]. unfold release at 1. cbn [held].
    destruct (decide (lk ∉ h)) as [Hlk|Hlk].
    { rewrite (decide_False (P := lk ∈ _)) by set_solver. done. }
    apply dec_stable in Hlk. rewrite (decide_True (P := lk ∈ _)) by set_solver.
    cbn [obind]. rewrite bindE, setpE. cbn [obind]. rewrite bindE. fold (asleep me ch s).
    simpl (_ <| held ::= _ |>). destruct (lockid_eq_dec lk Lptable) as [|_]; [done|].
    rewrite (sched_asleep _ _ _ p) by done.
    rewrite (decide_False (P := Lptable ∉ _)) by set_solver.
    pose proof (length_remove_nodup lk h Hnd Hlk) as Hlen. simpl.
    destruct (decide (length h ≠ 1%nat)) as [Hl|Hl].
    { by rewrite (decide_True (P := S _ ≠ 1%nat)) by lia. }
    rewrite (decide_False (P := S _ ≠ 1%nat)) by lia.
    destruct h as [|l [|]]; simpl in Hl; try lia.
    assert (l = lk) as -> by set_solver. simpl.
    destruct (lockid_eq_dec lk lk); [|done]. destruct r as [f|]; [|done]. cbn [obind].
    rewrite bindE, setpE. cbn [obind]. mrun. done.
Qed.

(** sleep() of proc.c implements the operation the other components use
    for it: the same panics on the same lock sets, and otherwise it atomically
    gives up the caller's lock, leaves the process SLEEPING on the channel with
    only ptable.lock held at the switch, and returns with exactly the caller's
    lock held again. *)
Theorem sleep_refines me p ch lk r h t s :
  NoDup h -> procs s !! me = Some p ->
  sleep (Some me) ch (Some lk) r (Ctx h t) s =
  match Prelude.sleep ch lk
          (match r with None => [] | Some f => [fun s => awake me (f (asleep me ch s))] end)
          (Ctx h t) s with
  | Ok _ c s' => Ok tt c s'
  | Panic msg => Panic msg
  | Blocked _ _ _ s' => Switched (Ctx [Lptable] t) (asleep me ch s')
  | Switched c s' => Switched c s'
  | Undef => Undef
  | NoFuel => NoFuel
  end.
Proof. exact (sleep_run me p ch lk r h t s). Qed.

Lemma wakeup_run ch h t s :
  Lptable ∉ h ->
  wakeup ch (Ctx h t) s =
    Ok tt (Ctx h t) (s <| procs ::= fmap (wake (Some ch) (ticks s)) |>).
Proof. intros Hh. unfold wakeup, wakeup1. mrun. done. Qed.


(** ** kill() *)

Definition kill_slot (tk : Z) (p : proc) : proc :=
  let p := p <| killed := 1 |> in
  if is_state SLEEPING p then p <| start := s32 tk |> <| state := RUNNABLE |> else p.

Lemma kill_run pid0 t s :
  kill pid0 (Ctx [] t) s =
  match find_index (fun p => pid p =? pid0) (procs s) with
  | Some i => Ok 0 (Ctx [] t) (s <| procs ::= alter (kill_slot (ticks s)) i |>)
  | None => Ok (-1) (Ctx [] t) s
  end.
Proof.
  unfold kill. mrun. destruct (find_index _ _) as [i|]; mrun; [|done].
  rewrite setpE. cbn [obind]. mrun. done.
Qed.

(** kill() under the table invariant.  For a pid in use it marks exactly
    that process killed, makes it RUNNABLE if it was asleep and returns 0; when
    no slot holds the pid it returns -1 and changes nothing. *)
Theorem kill_spec pid0 t s :
  pinv s -> 0 < pid0 ->
  (forall i p, procs s !! i = Some p -> state p = UNUSED -> pid p <> pid0) ->
  (exists i p, procs s !! i = Some p /\ pid p = pid0 /\
     kill pid0 (Ctx [] t) s =
       Ok 0 (Ctx [] t) (s <| procs ::= <[i := kill_slot (ticks s) p]> |>) /\
     (forall j q, procs s !! j = Some q -> state q <> UNUSED -> pid q = pid0 -> j = i)) \/
  ((forall i p, procs s !! i = Some p -> pid p <> pid0) /\
   kill pid0 (Ctx [] t) s = Ok (-1) (Ctx [] t) s).
Proof.
  intros Hinv Hpos Hfree. rewrite kill_run.
  destruct (find_index _ _) as [i|] eqn:Hf.
  - left. apply find_index_Some in Hf as [(p & Hp & He%Z.eqb_eq) _].
    exists i, p. split_and!; try done.
    + unfold update. simpl. by rewrite (alter_insert _ _ _ p).
    + intros j q Hq Hu Hpid.
      assert (Hv : forall k r, procs s !! k = Some r -> slots (view s) !! k = Some (pv r)).
      { intros k r Hr. simpl. by rewrite list_lookup_fmap, Hr. }
      eapply (vinv_uniq _ Hinv); [by apply Hv|by apply Hv| | |simpl; congruence]; [done|].
      simpl. intros Hs. by apply (Hfree i p Hp Hs).
  - right. apply find_index_None in Hf. rewrite Forall_forall in Hf. split; [|done].
    intros i p Hp. apply list_elem_of_lookup_2, Hf in Hp. lia.
Qed.

(** ** allocproc() *)

(** Queue 0 has a free entry. *)
Definition room (c : Z) (q : list (option nat)) s : Prop :=
  counts s !! 0%nat = Some c /\ queues s !! 0%nat = Some q /\ length q = 64%nat /\
  -1 <= c < 63.

Definition enqueued (i : nat) (c : Z) (q : list (option nat)) s : pstate E :=
  s <| counts ::= <[0%nat := c + 1]> |>
    <| queues ::= <[0%nat := <[Z.to_nat (c + 1) := Some i]> q]> |>.

Lemma aset_0 {A} (l : list A) x y : l !! 0%nat = Some y -> aset l 0 x = Some (<[0%nat := x]> l).
Proof. intros Hl. apply lookup_lt_Some in Hl. rewrite aset_in by lia. done. Qed.

Lemma aget_0 {A} (l : list A) y : l !! 0%nat = Some y -> aget l 0 = Some y.
Proof. done. Qed.

Lemma enqueue_run i c q cx s :
  room c q s -> enqueue 0 (Some i) cx s = Ok tt cx (enqueued i c q s).
Proof.
  intros (Hc & Hq & Hlen & Hr). unfold enqueue, count, set_count, qset, rd, wr.
  mrun. rewrite (aget_0 _ _ Hc). mrun. rewrite (aset_0 _ _ _ Hc). mrun.
  simpl (queues _). rewrite (aget_0 _ _ Hq). mrun.
  rewrite aset_in by lia. mrun. rewrite (aset_0 _ _ _ Hq). mrun. done.
Qed.

(** The slot [p] after allocproc() with pid [n] and kernel stack [k]. *)
Definition born (n k tk : Z) (p : proc) : proc :=
  (claim n p) <| kstack := k |> <| tf := None |> <| kret := Atrapret |>
    <| pcontext := mkcontext 0 0 0 0 Aforkret |>
    <| ctime := s32 tk |> <| etime := 0 |> <| rtime := 0 |> <| iotime := 0 |>
    <| num_r := 0 |> <| priority := if (n =? 1) || (n =? 2) then 1 else 60 |>.

Lemma allocproc_stack_run i p n k t t1 e1 s :
  procs s !! i = Some (claim n p) ->
  k_kalloc (Ctx [] t) (env s) = Ok k (Ctx [] t1) e1 ->
  allocproc_stack i (Ctx [] t) s =
    if k =? 0
    then Ok None (Ctx [] t1)
      (upd i ((claim n p) <| kstack := 0 |> <| state := UNUSED |>) (s <| env := e1 |>))
    else Ok (Some i) (Ctx [] t1) (upd i (born n k (ticks s) p) (s <| env := e1 |>)).
Proof.
  intros Hp Hk. unfold allocproc_stack.
  rewrite bindE, (lift_ok _ _ _ _ _ _ Hk). cbn [obind].
  rewrite bindE. erewrite setp_upd by exact Hp. cbn [obind].
  destruct (Z.eqb_spec k 0) as [->|Hk0].
  - rewrite bindE. erewrite setp_upd by (eapply lookup_upd; exact Hp). cbn [obind].
    by rewrite retE, upd_upd.
  - rewrite bindE. erewrite setp_upd by (eapply lookup_upd; exact Hp). cbn [obind].
    rewrite upd_upd. mrun. erewrite setp_upd by (eapply lookup_upd; exact Hp).
    cbn [obind]. rewrite upd_upd. mrun.
    erewrite setp_upd by (eapply lookup_upd; exact Hp). cbn [obind].
    by rewrite retE, upd_upd.
Qed.

(** The table after a successful allocproc(). *)
Definition allocated (i : nat) (p : proc) (k c : Z) (q : list (option nat)) (e1 : E) s
  : pstate E :=
  upd i (born (nextpid s) k (ticks s) p)
    ((enqueued i c q s) <| nextpid := s32 (nextpid s + 1) |> <| env := e1 |>).

Lemma allocproc_run i p k c q t t1 e1 s :
  find_index (is_state UNUSED) (procs s) = Some i -> procs s !! i = Some p ->
  room c q s -> k_kalloc (Ctx [] t) (env s) = Ok k (Ctx [] t1) e1 ->
  allocproc (Ctx [] t) s =
    if k =? 0
    then Ok None (Ctx [] t1)
      (upd i ((claim (nextpid s) p) <| kstack := 0 |> <| state := UNUSED |>)
        ((enqueued i c q s) <| nextpid := s32 (nextpid s + 1) |> <| env := e1 |>))
    else Ok (Some i) (Ctx [] t1) (allocated i p k c q e1 s).
Proof.
  intros Hfi Hp Hroom Hk. unfold allocproc. mrun. rewrite Hfi.
  rewrite bindE, (setp_upd _ _ _ _ _ Hp). cbn [obind]. rewrite bindE, modSE. cbn [obind].
  rewrite bindE, (enqueue_run _ c q) by apply Hroom. cbn [obind]. mrun.
  rewrite (allocproc_stack_run _ p (nextpid s) k t t1 e1);
    [|by eapply lookup_upd|exact Hk].
  unfold allocated. destruct (k =? 0); exact (f_equal (Ok _ _) (upd_upd _ _ _
    ((enqueued i c q s) <| nextpid := s32 (nextpid s + 1) |> <| env := e1 |>))).
Qed.

(** kill(0) poisons a free slot.  A free slot has pid 0, so kill(0) finds
    it, marks it killed and returns 0, and allocproc() never clears the mark:
    the next process created in that slot starts out killed. *)
Theorem kill_zero_poisons i p k c q t t1 e1 s :
  find_index (fun p => pid p =? 0) (procs s) = Some i ->
  find_index (is_state UNUSED) (procs s) = Some i ->
  procs s !! i = Some p -> room c q s ->
  k_kalloc (Ctx [] t) (env s) = Ok k (Ctx [] t1) e1 -> k <> 0 ->
  exists s1 s2 p2, kill 0 (Ctx [] t) s = Ok 0 (Ctx [] t) s1 /\
    allocproc (Ctx [] t) s1 = Ok (Some i) (Ctx [] t1) s2 /\
    procs s2 !! i = Some p2 /\ state p2 = EMBRYO /\ killed p2 = 1.
Proof.
  intros Hz Hfi Hp Hroom Hk Hk0.
  assert (Hu : is_state UNUSED p = true).
  { apply find_index_Some in Hfi as [(p' & Hp' & Hu) _]. by simplify_eq. }
  set (p1 := p <| killed := 1 |>).
  exists (upd i p1 s), (allocated i p1 k c q e1 (upd i p1 s)), (born (nextpid s) k (ticks s) p1).
  split_and!.
  - rewrite kill_run, Hz. unfold upd, update. rewrite (alter_insert _ _ _ p) by done.
    apply bool_decide_eq_true in Hu. unfold kill_slot. cbn zeta. fold p1.
    replace (is_state SLEEPING p1) with false; [done|].
    unfold is_state. simpl. by rewrite Hu.
  - rewrite (allocproc_run i p1 k c q t t1 e1); [|..|done|done].
    + destruct (Z.eqb_spec k 0) as [Hz0|_]; [by destruct (Hk0 Hz0)|reflexivity].
    + apply find_index_Some in Hfi as [_ Hlt]. apply find_index_Some. split.
      * exists p1. split; [by eapply lookup_upd|done].
      * intros j y Hj. rewrite lookup_upd_ne by lia. eauto.
    + by eapply lookup_upd.
  - by eapply lookup_upd, lookup_upd.
  - done.
  - done.
Qed.

(** allocproc() writes past the end of queue0 once c0 has reached 63, and
    outside the MLFQ build nothing ever decreases c0: the 65th process ever
    created corrupts memory. *)
Theorem allocproc_overflow i t s q :
  find_index (is_state UNUSED) (procs s) = Some i ->
  counts s !! 0%nat = Some 63 -> queues s !! 0%nat = Some q -> length q = 64%nat ->
  allocproc (Ctx [] t) s = Undef.
Proof.
  intros Hfi Hc Hq Hlen. unfold allocproc. mrun. rewrite Hfi.
  rewrite bindE, setpE. cbn [obind]. rewrite bindE, modSE. cbn [obind].
  unfold enqueue, count, set_count, qset, rd, wr. mrun. simpl (counts _).
  rewrite (aget_0 _ _ Hc). mrun. simpl (counts _). rewrite (aset_0 _ _ _ Hc). mrun.
  simpl (queues _). rewrite (aget_0 _ _ Hq). mrun. rewrite aset_out by lia. done.
Qed.

(** ** fork() *)

Lemma mfor_run_lift {A} (m : A -> M E unit) x l c s c' e' :
  mfor (x :: l) m c (env s) = Ok tt c' e' ->
  exists c1 e1, m x c (env s) = Ok tt c1 e1 /\ mfor l m c1 e1 = Ok tt c' e'.
Proof. intros Hr. apply bind_Ok_inv in Hr as ([] & c1 & e1 & H1 & H2). eauto. Qed.

Lemma fork_files_run me i cur p l1 l2 c c' e' s :
  me <> i -> procs s !! me = Some cur -> procs s !! i = Some p ->
  ofile cur = l1 ++ l2 -> ofile p = l1 ++ replicate (length l2) None ->
  mfor (omap id l2) k_filedup c (env s) = Ok tt c' e' ->
  mfor (seq (length l1) (length l2)) (fun fd =>
    p ← getp me; f ← of_option (ofile p !! fd);
    match f with
    | Some f => lift (k_filedup f) ;; setp i (fun p => p <| ofile ::= <[fd := Some f]> |>)
    | None => mret tt
    end) c s = Ok tt c' (upd i (p <| ofile := ofile cur |>) (s <| env := e' |>)).
Proof.
  intros Hne. revert l1 p c s. induction l2 as [|x l2 IH]; intros l1 p c s Hme Hp Hcur Hofp Hrun.
  - cbn [length seq mfor]. simpl in Hrun. rewrite retE in Hrun.
    injection Hrun as <- <-. rewrite retE. f_equal.
    assert (Hof : ofile cur = ofile p) by (rewrite Hcur, Hofp; done).
    replace (p <| ofile := ofile cur |>) with p by (rewrite Hof; by destruct p).
    rewrite (upd_id i p (s <| env := env s |>)) by exact Hp. by destruct s.
  - cbn [length seq mfor]. rewrite bindE, bindE, (getp_run _ _ _ _ Hme). cbn [obind].
    rewrite bindE, Hcur, list_lookup_middle by done. rewrite of_optionE. cbn [obind].
    assert (Hnext : (length l1 + 1 = length (l1 ++ [x]))%nat) by (by rewrite length_app).
    rewrite <- Nat.add_1_r, Hnext. destruct x as [x|].
    + change (omap id (Some x :: l2)) with (x :: omap id l2) in Hrun.
      apply mfor_run_lift in Hrun as (c1 & e1 & H1 & H2).
      rewrite bindE, (lift_ok _ _ _ _ _ _ H1). cbn [obind].
      erewrite setp_upd by exact Hp. cbn [obind].
      rewrite (IH (l1 ++ [Some x]) (p <| ofile ::= <[length l1 := Some x]> |>)).
      * rewrite <- Hcur. exact (f_equal (Ok tt c') (upd_upd i _ _ (s <| env := e' |>))).
      * by rewrite lookup_upd_ne.
      * by eapply lookup_upd.
      * by rewrite <- app_assoc.
      * simpl. rewrite Hofp. simpl. rewrite insert_app_r_alt by lia.
        rewrite Nat.sub_diag. simpl. by rewrite <- app_assoc.
      * exact H2.
    + rewrite retE. cbn [obind]. rewrite <- Hcur. apply IH; try done.
      * by rewrite <- app_assoc.
      * rewrite Hofp. simpl. by rewrite <- app_assoc.
Qed.

Definition forked (me : nat) (cur : proc) (f : trapframe) (w : nat) (nm : list Z)
    (d k : Z) (p : proc) s : proc :=
  (born (nextpid s) k (ticks s) p) <| pgdir := d |> <| sz := sz cur |>
    <| parent := Some me |> <| tf := Some (f <| tf_eax := 0 |>) |>
    <| ofile := ofile cur |> <| cwd := Some w |> <| name := nm |>
    <| state := RUNNABLE |> <| start := s32 (ticks s) |>.

(** What fork() finds: the caller, a free slot without open files, room in
    queue 0, and services that succeed. *)
Record fork_ready (me i : nat) (cur p : proc) (f : trapframe) (w : nat) (nm : list Z)
    (k d c : Z) (q : list (option nat)) (t t4 : list event) (e4 : E) s : Prop := {
  fr_me : procs s !! me = Some cur;
  fr_used : state cur <> UNUSED;
  fr_tf : tf cur = Some f;
  fr_cwd : cwd cur = Some w;
  fr_name : safestrcpy (name p) (name cur) 16 = Some nm;
  fr_files : length (ofile cur) = NOFILE;
  fr_free : find_index (is_state UNUSED) (procs s) = Some i;
  fr_slot : procs s !! i = Some p;
  fr_closed : ofile p = replicate NOFILE None;
  fr_room : room c q s;
  fr_services : exists t1 e1 t2 e2 t3 e3,
    k_kalloc (Ctx [] t) (env s) = Ok k (Ctx [] t1) e1 /\
    k_copyuvm (pgdir cur) (sz cur) (Ctx [] t1) e1 = Ok d (Ctx [] t2) e2 /\
    mfor (omap id (ofile cur)) k_filedup (Ctx [] t2) e2 = Ok tt (Ctx [] t3) e3 /\
    k_idup w (Ctx [] t3) e3 = Ok tt (Ctx [] t4) e4;
  fr_k : k <> 0;
  fr_d : d <> 0;
}.

(** C14: fork() returns the new pid to the parent, which is unchanged, and
    leaves a RUNNABLE child in the first free slot: a copy of the parent's
    address space, open files, working directory, name and trap frame, except
    that the child's eax is 0, with the parent link set and fresh accounting. *)
Theorem fork_spec me i cur p f w nm k d c q t t4 e4 s :
  fork_ready me i cur p f w nm k d c q t t4 e4 s ->
  fork me (Ctx [] t) s = Ok (nextpid s) (Ctx [] t4)
    (upd i (forked me cur f w nm d k p s)
      ((enqueued i c q s) <| nextpid := s32 (nextpid s + 1) |> <| env := e4 |>)).
Proof.
  intros [Hme Hused Htf Hcwd Hnm Hfiles Hfree Hp Hclosed Hroom Hserv Hk Hd].
  destruct Hserv as (t1 & e1 & t2 & e2 & t3 & e3 & Hk1 & Hk2 & Hk3 & Hk4).
  assert (Hne : me <> i).
  { intros ->. apply find_index_Some in Hfree as [(p' & Hp' & Hu) _]. simplify_eq.
    by apply bool_decide_eq_true in Hu. }
  unfold fork. rewrite bindE, (allocproc_run i p k c q t t1 e1) by done.
  destruct (Z.eqb_spec k 0) as [|_]; [done|]. cbn [obind].
  rewrite bindE. erewrite getp_run by (unfold allocated; rewrite lookup_upd_ne by done; exact Hme).
  cbn [obind]. rewrite bindE. erewrite lift_ok by exact Hk2. cbn [obind].
  rewrite bindE. erewrite setp_upd by (eapply lookup_upd; exact Hp). cbn [obind].
  destruct (Z.eqb_spec d 0) as [|_]; [done|]. rewrite bindE, Htf, of_optionE. cbn [obind].
  rewrite bindE. erewrite setp_upd by (eapply lookup_upd; eapply lookup_upd; exact Hp).
  cbn [obind]. unfold allocated. rewrite upd_env, !upd_upd.
  unfold fork_files. rewrite <- Hfiles at 1. rewrite bindE.
  erewrite (fork_files_run me i cur _ [] (ofile cur) _ (Ctx [] t3) e3);
    [|done|rewrite lookup_upd_ne by done; exact Hme|eapply lookup_upd; exact Hp|done
     |simpl; by rewrite Hclosed, Hfiles|exact Hk3].
  cbn [obind]. rewrite Hcwd. unfold deref. rewrite bindE, of_optionE. cbn [obind].
  rewrite bindE. erewrite lift_ok by exact Hk4. cbn [obind].
  rewrite !upd_env, upd_upd.
  rewrite bindE. erewrite setp_upd by (eapply lookup_upd; exact Hp). cbn [obind].
  rewrite upd_upd. unfold set_name. rewrite bindE, bindE.
  erewrite getp_run by (eapply lookup_upd; exact Hp). cbn [obind].
  rewrite bindE. simpl (safestrcpy _ _ _). rewrite Hnm, of_optionE. cbn [obind].
  erewrite setp_upd by (eapply lookup_upd; exact Hp). cbn [obind]. rewrite upd_upd.
  rewrite bindE. erewrite getp_run by (eapply lookup_upd; exact Hp). cbn [obind].
  mrun. erewrite setp_upd by (eapply lookup_upd; exact Hp). cbn [obind].
  rewrite upd_upd. mrun. done.
Qed.

(** ** exit() *)

Lemma close_files_run me cur l1 l2 c c' e' s :
  procs s !! me = Some cur -> ofile cur = replicate (length l1) None ++ l2 ->
  mfor (omap id l2) k_fileclose c (env s) = Ok tt c' e' ->
  mfor (seq (length l1) (length l2)) (fun fd =>
    p ← getp me; f ← of_option (ofile p !! fd);
    match f with
    | Some f => lift (k_fileclose f) ;; setp me (fun p => p <| ofile ::= <[fd := None]> |>)
    | None => mret tt
    end) c s =
  Ok tt c' (upd me (cur <| ofile := replicate (length (l1 ++ l2)) None |>) (s <| env := e' |>)).
Proof.
  revert l1 cur c s. induction l2 as [|x l2 IH]; intros l1 cur c s Hme Hcur Hrun.
  - cbn [length seq mfor]. simpl in Hrun. rewrite retE in Hrun.
    injection Hrun as <- <-. rewrite retE, app_nil_r in *. f_equal. rewrite <- Hcur.
    replace (cur <| ofile := ofile cur |>) with cur by (by destruct cur).
    rewrite (upd_id me cur (s <| env := env s |>)) by exact Hme. by destruct s.
  - cbn [length seq mfor]. rewrite bindE, bindE, (getp_run _ _ _ _ Hme). cbn [obind].
    rewrite bindE, Hcur, list_lookup_middle by (by rewrite length_replicate).
    rewrite of_optionE. cbn [obind].
    assert (Hnext : (length l1 + 1 = length (l1 ++ [x]))%nat) by (by rewrite length_app).
    replace (l1 ++ x :: l2) with ((l1 ++ [x]) ++ l2) by (by rewrite <- app_assoc).
    rewrite <- Nat.add_1_r, Hnext. destruct x as [x|].
    + change (omap id (Some x :: l2)) with (x :: omap id l2) in Hrun.
      apply mfor_run_lift in Hrun as (c1 & e1 & H1 & H2).
      rewrite bindE, (lift_ok _ _ _ _ _ _ H1). cbn [obind].
      erewrite setp_upd by exact Hme. cbn [obind].
      rewrite (IH (l1 ++ [Some x]) (cur <| ofile ::= <[length l1 := None]> |>)).
      * exact (f_equal (Ok tt c') (upd_upd me _ _ (s <| env := e' |>))).
      * by eapply lookup_upd.
      * simpl. rewrite Hcur, insert_app_r_alt by (by rewrite length_replicate).
        rewrite length_replicate, Nat.sub_diag, length_app, replicate_add. simpl.
        by rewrite <- app_assoc.
      * exact H2.
    + rewrite retE. cbn [obind]. apply IH; try done.
      rewrite Hcur, length_app, replicate_add. by rewrite <- app_assoc.
Qed.

(** The effect of exit()'s critical section on another slot. *)
Definition wake_if (b : bool) (ch : option chan) (tk : Z) (p : proc) : proc :=
  if b then wake ch tk p else p.
Definition adopt_if (b : bool) (ip : option nat) (p : proc) : proc :=
  if b then p <| parent := ip |> else p.
Definition child_of (me : nat) (p : proc) : bool := bool_decide (parent p = Some me).

Lemma wake_other ch tk p :
  parent (wake ch tk p) = parent p /\ is_state ZOMBIE (wake ch tk p) = is_state ZOMBIE p.
Proof.
  unfold wake, is_state. case_match eqn:Hb; [|done].
  apply andb_prop in Hb as [Hs%bool_decide_eq_true _]. simpl. by rewrite Hs.
Qed.

Lemma wake_idemp ch tk p : wake ch tk (wake ch tk p) = wake ch tk p.
Proof. unfold wake at 2 3. case_match eqn:Hb; [done|]. unfold wake. by rewrite Hb. Qed.

Lemma wake_adopt b ip ch tk p : wake ch tk (adopt_if b ip p) = adopt_if b ip (wake ch tk p).
Proof. destruct b; [|done]. unfold wake, adopt_if, is_state. simpl. by case_match. Qed.

(** A zombie child among the first [k] slots. *)
Definition zombie_child (me k : nat) (ps : list proc) : bool :=
  existsb (fun p => child_of me p && is_state ZOMBIE p) (take k ps).

(** Slot [j] after [k] iterations of the reparenting loop. *)
Definition reparent_slot (me k : nat) (ip : option nat) (tk : Z) (ps : list proc)
    (j : nat) (p : proc) : proc :=
  adopt_if (bool_decide (j < k)%nat && child_of me p) ip
    (wake_if (zombie_child me k ps) (Cproc <$> ip) tk p).

Lemma zombie_child_S me k ps p :
  ps !! k = Some p ->
  zombie_child me (S k) ps =
  zombie_child me k ps || (child_of me p && is_state ZOMBIE p).
Proof.
  intros Hp. unfold zombie_child. rewrite (take_S_r _ _ _ Hp), existsb_app. simpl.
  by rewrite orb_false_r.
Qed.

Lemma reparent_slot_S me k ip tk ps p j q :
  ps !! k = Some p -> (j = k -> q = p) ->
  reparent_slot me (S k) ip tk ps j q =
  wake_if (child_of me p && is_state ZOMBIE p) (Cproc <$> ip) tk
    (adopt_if (bool_decide (j = k) && child_of me p) ip (reparent_slot me k ip tk ps j q)).
Proof.
  intros Hp Hjk. unfold reparent_slot. rewrite (zombie_child_S _ _ _ _ Hp).
  assert (Hw : forall b1 b2 r, wake_if (b1 || b2) (Cproc <$> ip) tk r =
    wake_if b2 (Cproc <$> ip) tk (wake_if b1 (Cproc <$> ip) tk r)).
  { intros [] [] r; try done. simpl. by rewrite wake_idemp. }
  assert (Hc : forall b1 b2 r, wake_if b1 (Cproc <$> ip) tk (adopt_if b2 ip r) =
    adopt_if b2 ip (wake_if b1 (Cproc <$> ip) tk r)).
  { intros [] b2 r; [|done]. apply wake_adopt. }
  rewrite Hw, !Hc. destruct (decide (j = k)) as [->|Hne].
  - rewrite (Hjk eq_refl), !bool_decide_true by lia.
    rewrite (bool_decide_false (k < k)%nat) by lia. done.
  - rewrite (bool_decide_false (j = k)) by done. simpl. do 2 f_equal.
    apply bool_decide_ext. lia.
Qed.

Lemma reparent_run me k ps p c s :
  ps !! k = Some p ->
  procs s = imap (reparent_slot me k (initproc s) (ticks s) ps) ps ->
  reparent me k c s =
  Ok tt c (s <| procs := imap (reparent_slot me (S k) (initproc s) (ticks s) ps) ps |>).
Proof.
  intros Hp Hps. set (ip := initproc s) in *. set (tk := ticks s) in *.
  set (pk := wake_if (zombie_child me k ps) (Cproc <$> ip) tk p).
  assert (Hk : procs s !! k = Some pk).
  { rewrite Hps, list_lookup_imap, Hp. simpl. unfold reparent_slot.
    by rewrite bool_decide_false by lia. }
  assert (Hpk : parent pk = parent p /\ is_state ZOMBIE pk = is_state ZOMBIE p).
  { unfold pk, wake_if. case_match; [apply wake_other|done]. }
  assert (Hl : imap (reparent_slot me (S k) ip tk ps) ps =
    wake_if (child_of me p && is_state ZOMBIE p) (Cproc <$> ip) tk <$>
      (if child_of me p then alter (fun p => p <| parent := ip |>) k (procs s) else procs s)).
  { apply list_eq. intros j. rewrite list_lookup_imap, list_lookup_fmap.
    destruct (ps !! j) as [q|] eqn:Hq; simpl.
    - rewrite (reparent_slot_S _ _ _ _ _ p) by (done || naive_solver).
      assert (Hj : procs s !! j = Some (reparent_slot me k ip tk ps j q))
        by (by rewrite Hps, list_lookup_imap, Hq).
      destruct (decide (j = k)) as [->|Hne].
      + rewrite bool_decide_true by done. destruct (child_of me p); simpl;
          rewrite ?list_lookup_alter_eq, Hj; done.
      + rewrite (bool_decide_false (j = k)) by done. simpl.
        destruct (child_of me p); rewrite ?list_lookup_alter_ne by done; by rewrite Hj.
    - assert (Hj : procs s !! j = None) by (by rewrite Hps, list_lookup_imap, Hq).
      destruct (child_of me p); [|by rewrite Hj].
      destruct (decide (j = k)) as [->|Hne]; [congruence|].
      by rewrite list_lookup_alter_ne, Hj. }
  unfold reparent. rewrite bindE, (getp_run _ _ _ _ Hk). cbn [obind].
  destruct Hpk as [Hpar Hz]. rewrite Hpar, Hz, Hl. fold (child_of me p).
  destruct (child_of me p); simpl.
  - rewrite bindE, getsE. cbn [obind]. rewrite bindE, setpE. cbn [obind]. fold ip.
    destruct (is_state ZOMBIE p); simpl; unfold wake_if.
    + unfold wakeup1. by rewrite modSE.
    + by rewrite retE, list_fmap_id.
  - unfold wake_if. rewrite retE, list_fmap_id. by destruct s.
Qed.

Lemma reparent_loop_run me n k ps c s :
  (k + n <= length ps)%nat ->
  procs s = imap (reparent_slot me k (initproc s) (ticks s) ps) ps ->
  mfor (seq k n) (reparent me) c s =
  Ok tt c (s <| procs := imap (reparent_slot me (k + n) (initproc s) (ticks s) ps) ps |>).
Proof.
  revert k s. induction n as [|n IH]; intros k s Hlen Hps; cbn [seq mfor].
  - rewrite retE, Nat.add_0_r, <- Hps. by destruct s.
  - destruct (lookup_lt_is_Some_2 ps k) as [p Hp]; [lia|].
    rewrite bindE, (reparent_run _ _ _ _ _ _ Hp Hps). cbn [obind].
    rewrite IH by (done || lia). by rewrite <- Nat.add_succ_comm.
Qed.

Lemma zombie_child_ext me k ps qs :
  Forall2 (fun p q => parent p = parent q /\ is_state ZOMBIE p = is_state ZOMBIE q) ps qs ->
  zombie_child me k ps = zombie_child me k qs.
Proof.
  intros Hf. unfold zombie_child. revert k.
  induction Hf as [|p q ps qs [Hp Hz] Hf IH]; intros [|k]; try done. simpl.
  unfold child_of at 1 3. rewrite Hp, Hz. f_equal. apply IH.
Qed.

(** The slot of the exiting process when it switches away for good. *)
Definition exited (cur : proc) (tk : Z) (p' : proc) : Prop :=
  state p' = ZOMBIE /\ pid p' = pid cur /\ parent p' = parent cur /\
  etime p' = s32 tk /\ ctime p' = ctime cur /\ ofile p' = replicate NOFILE None /\
  cwd p' = None.

(** Another slot after the exit of [me]: woken if it waits for this exit, and
    handed to init if it is a child. *)
Definition bereaved (me : nat) (cur : proc) s (p : proc) : proc :=
  adopt_if (child_of me p) (initproc s)
    (wake_if (zombie_child me NPROC (procs s)) (Cproc <$> initproc s) (ticks s)
      (wake (Cproc <$> parent cur) (ticks s) p)).

Lemma exit_locked_run me cur t s :
  procs s !! me = Some cur -> length (procs s) = NPROC -> is_state SLEEPING cur = false ->
  parent cur <> Some me ->
  exists s', exit_locked me (Ctx [Lptable] t) s =
      Ok tt (Ctx [Lptable] (t ++ [Ecprintf "Total Time: %d\n" [s32 (s32 (ticks s) - ctime cur)]])) s' /\
    env s' = env s /\
    procs s' !! me = Some (cur <| state := ZOMBIE |> <| etime := s32 (ticks s) |>) /\
    (forall i p, i <> me -> procs s !! i = Some p -> procs s' !! i = Some (bereaved me cur s p)).
Proof.
  intros Hme Hlen Hrun Hself. set (tk := ticks s). set (pw := wake (Cproc <$> parent cur) tk).
  set (ps1 := pw <$> procs s).
  assert (Hz : zombie_child me NPROC ps1 = zombie_child me NPROC (procs s)).
  { apply zombie_child_ext. unfold ps1. apply Forall2_fmap_l, Forall_Forall2_diag.
    apply Forall_forall. intros p _. apply wake_other. }
  assert (Hawake : forall ch, wake ch tk cur = cur).
  { intros ch. unfold wake. by rewrite Hrun. }
  unfold exit_locked. rewrite bindE, (getp_run _ _ _ _ Hme). cbn [obind].
  unfold wakeup1 at 1. rewrite bindE, modSE. cbn [obind]. fold tk pw.
  rewrite bindE, (reparent_loop_run me NPROC 0 ps1).
  2:{ unfold ps1. rewrite length_fmap, Hlen. done. }
  2:{ simpl. fold ps1. rewrite <- (list_fmap_id ps1) at 1. rewrite <- imap_const.
      apply imap_ext. intros i p _. done. }
  cbn [obind]. rewrite bindE, getsE. cbn [obind]. rewrite Nat.add_0_l.
  assert (Hslot : forall i p, procs s !! i = Some p ->
    imap (reparent_slot me NPROC (initproc s) tk ps1) ps1 !! i = Some (bereaved me cur s p)).
  { intros i p Hp. rewrite list_lookup_imap. unfold ps1 at 2. rewrite list_lookup_fmap, Hp.
    simpl. unfold reparent_slot, bereaved. rewrite Hz.
    rewrite bool_decide_true by (apply lookup_lt_Some in Hp; lia).
    unfold child_of, pw. by rewrite (proj1 (wake_other _ _ p)). }
  pose proof (Hslot me cur Hme) as Hcur.
  assert (Hb : bereaved me cur s cur = cur).
  { unfold bereaved. fold tk. rewrite Hawake. unfold child_of. rewrite bool_decide_false by done.
    unfold wake_if. case_match; [apply Hawake|done]. }
  rewrite Hb in Hcur. rewrite bindE. erewrite setp_upd by exact Hcur. cbn [obind].
  rewrite bindE. erewrite getp_run by (eapply lookup_upd; exact Hcur). cbn [obind].
  unfold cprintf. rewrite emitE. eexists. split; [reflexivity|]. split; [done|].
  split; [eapply lookup_upd; exact Hcur|]. intros i p Hne Hp.
  rewrite lookup_upd_ne by done. by apply Hslot.
Qed.

Record exit_ready (me : nat) (cur : proc) (w : nat) (t t4 : list event) (e4 : E) s
  : Prop := {
  er_me : procs s !! me = Some cur;
  er_len : length (procs s) = NPROC;
  er_init : initproc s <> Some me;
  er_run : state cur = RUNNING;
  er_parent : parent cur <> Some me;
  er_files : length (ofile cur) = NOFILE;
  er_cwd : cwd cur = Some w;
  er_services : exists t1 e1 t2 e2 t3 e3,
    mfor (omap id (ofile cur)) k_fileclose (Ctx [] t) (env s) = Ok tt (Ctx [] t1) e1 /\
    k_begin_op (Ctx [] t1) e1 = Ok tt (Ctx [] t2) e2 /\
    k_iput w (Ctx [] t2) e2 = Ok tt (Ctx [] t3) e3 /\
    k_end_op (Ctx [] t3) e3 = Ok tt (Ctx [] t4) e4;
}.

(** C15: exit() closes every file and the working directory, and switches away
    for good holding only ptable.lock, as a ZOMBIE with its end time recorded.
    Its parent is woken if it sleeps in wait(), its children are handed to init,
    and init is woken if one of them is already a zombie; every other slot is
    untouched. *)
Theorem exit_spec me cur w t t4 e4 s :
  exit_ready me cur w t t4 e4 s ->
  exists s' p', exit me None (Ctx [] t) s = Switched (Ctx [Lptable]
      (t4 ++ [Ecprintf "Total Time: %d\n" [s32 (s32 (ticks s) - ctime cur)]])) s' /\
    env s' = e4 /\ procs s' !! me = Some p' /\ exited cur (ticks s) p' /\
    (forall i p, i <> me -> procs s !! i = Some p -> procs s' !! i = Some (bereaved me cur s p)).
Proof.
  intros [Hme Hlen Hinit Hrun Hself Hfiles Hcwd Hserv].
  destruct Hserv as (t1 & e1 & t2 & e2 & t3 & e3 & H1 & H2 & H3 & H4).
  set (cur1 := cur <| ofile := replicate NOFILE None |> <| cwd := None |>).
  set (s1 := upd me cur1 (s <| env := e4 |>)).
  assert (Hme1 : procs s1 !! me = Some cur1) by (eapply lookup_upd; exact Hme).
  destruct (exit_locked_run me cur1 t4 s1) as (s' & Hex & Henv & Hp' & Hoth).
  { done. }
  { unfold s1, upd. simpl. by rewrite length_insert. }
  { unfold is_state. simpl. by rewrite Hrun. }
  { done. }
  assert (Hzc : zombie_child me NPROC (procs s1) = zombie_child me NPROC (procs s)).
  { apply zombie_child_ext, Forall2_same_length_lookup_2.
    { unfold s1, upd. simpl. by rewrite length_insert. }
    intros i p q. unfold s1, upd. simpl.
    intros [[<- ->]|[Hne Hp]]%lookup_seq_insert Hq; by simplify_eq. }
  exists s', (cur1 <| state := ZOMBIE |> <| etime := s32 (ticks s) |>). split_and!; try done.
  - unfold exit. rewrite bindE, getsE. cbn [obind]. rewrite bool_decide_false by done.
    pose proof (close_files_run me cur [] (ofile cur) _ _ e1 _ Hme eq_refl H1) as Hcl.
    change (length []) with 0%nat in Hcl. rewrite app_nil_l, Hfiles in Hcl.
    unfold close_files. rewrite bindE, Hcl. cbn [obind]. rewrite bindE. erewrite lift_ok by exact H2.
    cbn [obind]. rewrite bindE. erewrite getp_run by (eapply lookup_upd; exact Hme).
    cbn [obind]. simpl (cwd _). rewrite Hcwd. unfold deref. rewrite bindE, of_optionE.
    cbn [obind]. rewrite bindE. erewrite lift_ok by exact H3. cbn [obind].
    rewrite bindE. erewrite lift_ok by exact H4. cbn [obind].
    rewrite bindE. erewrite setp_upd by (eapply lookup_upd; exact Hme). cbn [obind].
    rewrite !upd_env, upd_upd. mrun. fold cur1 s1. change (upd me cur1 _) with s1.
    rewrite Hex. cbn [obind]. rewrite bindE. unfold sched. rewrite Hp'.
    rewrite decide_False by (simpl; set_solver). done.
  - intros i p Hne Hp. rewrite (Hoth i p Hne).
    + unfold bereaved. by rewrite Hzc.
    + unfold s1. rewrite lookup_upd_ne by done. exact Hp.
Qed.

(** ** wait() and waitx() *)

Definition zombie_of (me : nat) (p : proc) : bool := child_of me p && is_state ZOMBIE p.

Lemma scan_children_find me ps i0 hk :
  scan_children me i0 ps hk =
  match find_index (zombie_of me) ps with
  | Some j => (Some (i0 + j)%nat, true)
  | None => (None, hk || existsb (child_of me) ps)
  end.
Proof.
  revert i0 hk. induction ps as [|p ps IH]; intros i0 hk; simpl; [by rewrite orb_false_r|].
  unfold zombie_of at 1. fold (child_of me p). destruct (child_of me p); simpl.
  - destruct (is_state ZOMBIE p); simpl; [by rewrite Nat.add_0_r|]. rewrite IH.
    destruct (find_index _ _); simpl; [by rewrite Nat.add_succ_r|].
    by rewrite orb_true_r.
  - rewrite IH. destruct (find_index _ _); simpl; [by rewrite Nat.add_succ_r|done].
Qed.

(** The slot of a reaped child. *)
Definition reaped (p : proc) : proc :=
  p <| kstack := 0 |> <| pid := 0 |> <| parent := None |> <| name ::= <[0%nat := 0]> |>
    <| killed := 0 |> <| state := UNUSED |>.

Record reap_ready (i : nat) (p : proc) (t t2 : list event) (e2 : E) s : Prop := {
  rr_slot : procs s !! i = Some p;
  rr_services : exists t1 e1,
    k_kfree (kstack p) (Ctx [Lptable] t) (env s) = Ok tt (Ctx [Lptable] t1) e1 /\
    k_freevm (pgdir p) (Ctx [Lptable] t1) e1 = Ok tt (Ctx [Lptable] t2) e2;
}.

Lemma reap_run i p t t2 e2 s :
  pol <> MLFQ -> reap_ready i p t t2 e2 s ->
  reap pol i (Ctx [Lptable] t) s =
  Ok (pid p) (Ctx [] t2) (upd i (reaped p) (s <| env := e2 |>)).
Proof.
  intros Hpol [Hp (t1 & e1 & H1 & H2)]. unfold reap.
  rewrite bindE, (getp_run _ _ _ _ Hp). cbn [obind].
  rewrite bindE, (lift_ok _ _ _ _ _ _ H1). cbn [obind].
  rewrite bindE. erewrite setp_upd by exact Hp. cbn [obind].
  rewrite bindE. erewrite lift_ok by exact H2. cbn [obind].
  rewrite decide_False by done. rewrite bindE, retE. cbn [obind].
  rewrite bindE. erewrite setp_upd by (eapply lookup_upd; exact Hp). cbn [obind].
  rewrite upd_env, upd_upd. mrun. done.
Qed.

Lemma reapx_run i p t t2 e2 s :
  reap_ready i p (t ++ [Ecprintf "\netime %d  ctime %d    rtime %d    iotime %d \n"
    [etime p; ctime p; rtime p; iotime p]]) t2 e2 s ->
  reapx i (Ctx [Lptable] t) s =
  Ok (pid p, Some (s32 (etime p - ctime p - rtime p - iotime p), rtime p)) (Ctx [] t2)
    (upd i (reaped p) (s <| env := e2 |>)).
Proof.
  intros [Hp (t1 & e1 & H1 & H2)]. unfold reapx.
  rewrite bindE, (getp_run _ _ _ _ Hp). cbn [obind]. unfold cprintf. cbn zeta.
  rewrite bindE, emitE. cbn [obind].
  rewrite bindE, (lift_ok _ _ _ _ _ _ H1). cbn [obind].
  rewrite bindE. erewrite setp_upd by exact Hp. cbn [obind].
  rewrite bindE. erewrite lift_ok by exact H2. cbn [obind].
  rewrite bindE. erewrite setp_upd by (eapply lookup_upd; exact Hp). cbn [obind].
  rewrite upd_env, upd_upd. mrun. done.
Qed.

Lemma sleep_on_ptable me p r t s :
  procs s !! me = Some p ->
  sleep (Some me) (Cproc me) (Some Lptable) r (Ctx [Lptable] t) s =
  match r with
  | None => Switched (Ctx [Lptable] t) (asleep me (Cproc me) s)
  | Some f => Ok tt (Ctx [Lptable] t) (awake me (f (asleep me (Cproc me) s)))
  end.
Proof.
  intros Hp. rewrite (sleep_run me p) by (done || apply NoDup_singleton).
  destruct r; [by rewrite sleep_alone|by rewrite sleep_blocks].
Qed.


(** waitx() on a zombie child reaps it like wait() and stores the child's
    run time and, as its waiting time, its lifetime minus run time and I/O time. *)
Theorem waitx_spec me i p rs t t2 e2 s :
  find_index (zombie_of me) (procs s) = Some i ->
  reap_ready i p (t ++ [Ecprintf "\netime %d  ctime %d    rtime %d    iotime %d \n"
    [etime p; ctime p; rtime p; iotime p]]) t2 e2 s ->
  waitx me rs (Ctx [] t) s =
  Ok (pid p, Some (s32 (etime p - ctime p - rtime p - iotime p), rtime p)) (Ctx [] t2)
    (upd i (reaped p) (s <| env := e2 |>)).
Proof.
  intros Hf Hr. unfold waitx. mrun.
  assert (Hscan := scan_children_find me (procs s) 0 false). rewrite Hf in Hscan.
  destruct rs; cbn [waitx_loop]; mrun; rewrite Hscan; simpl; by apply reapx_run.
Qed.
End Spec.

(** ** Witnesses

    Services that always succeed, and a table with init asleep in wait() and a
    running child of it. *)
Definition demo_ops : KernelOps unit := {|
  k_kalloc := mret 2382360576;
  k_kfree _ := mret tt;
  k_setupkvm := mret 2382356480;
  k_inituvm _ := mret tt;
  k_allocuvm _ _ n := mret n;
  k_deallocuvm _ _ n := mret n;
  k_copyuvm _ _ := mret 2382352384;
  k_freevm _ := mret tt;
  k_switchuvm _ _ := mret tt;
  k_switchkvm := mret tt;
  k_filedup _ := mret tt;
  k_fileclose _ := mret tt;
  k_idup _ := mret tt;
  k_iput _ := mret tt;
  k_namei _ := mret (Some 0%nat);
  k_begin_op := mret tt;
  k_end_op := mret tt;
  k_iinit _ := mret tt;
  k_initlog _ := mret tt;
|}.
#[local] Existing Instance demo_ops.

Definition demo_init : proc :=
  proc0 <| state := SLEEPING |> <| pid := 1 |> <| pchan := Some (Cproc 0) |>.
Definition demo_sh : proc :=
  proc0 <| state := RUNNING |> <| pid := 2 |> <| parent := Some 0%nat |>
    <| tf := Some trapframe0 |> <| cwd := Some 0%nat |>
    <| ofile := Some 4%nat :: replicate 15 None |>.
Definition demo_zombie : proc :=
  proc0 <| state := ZOMBIE |> <| pid := 3 |> <| parent := Some 1%nat |>
    <| ctime := 10 |> <| etime := 25 |> <| rtime := 6 |>.

Definition demo_table (rest : list proc) : pstate unit :=
  mkpstate (demo_init :: demo_sh :: rest) (Some 0%nat) 4
    (replicate 5 (replicate 64 None)) [-1; -1; -1; -1; -1] 30 false (Some 1%nat) tt.
Definition demo : pstate unit := demo_table (replicate 62 proc0).
Definition demo_z : pstate unit := demo_table (demo_zombie :: replicate 61 proc0).

Lemma demo_slot i v :
  slots (view demo) !! i = Some v ->
  (i = 0%nat /\ v = pv demo_init) \/ (i = 1%nat /\ v = pv demo_sh) \/ v = pv proc0.
Proof.
  destruct i as [|[|i]]; [intros [= <-]; auto..|]. intros Hv. right. right.
  change ((pv <$> replicate 62 proc0) !! i = Some v) in Hv. rewrite fmap_replicate in Hv. by apply lookup_replicate in Hv as [-> _].
Qed.

Lemma demo_good : good (eq 1%nat) (view demo).
Proof.
  assert (Hinit : live_at 0 (slots (view demo))) by (eexists; split; [reflexivity|by left]).
  assert (Hsh : live_at 1 (slots (view demo)))
    by (eexists; split; [reflexivity|by right; right]).
  split; [split|by intros j <-].
  - reflexivity.
  - reflexivity.
  - intros i v [[-> ->]|[[-> ->]| ->]]%demo_slot Hs; simpl in *; done || lia.
  - intros i j v w [[-> ->]|[[-> ->]| ->]]%demo_slot [[-> ->]|[[-> ->]| ->]]%demo_slot
      Hv Hw Heq; done.
  - intros i v [[-> ->]|[[-> ->]| ->]]%demo_slot; done.
  - intros i v j [[-> ->]|[[-> ->]| ->]]%demo_slot Hp; simpl in Hp; simplify_eq.
    split; done.
  - by intros i [= <-].
Qed.


Lemma sleep_refines_witness :
  sleep (Some 1%nat) Cticks (Some Ltickslock) None (Ctx [Ltickslock] []) demo =
  Switched (Ctx [Lptable] []) (asleep 1 Cticks demo).
Proof.
  rewrite (sleep_refines 1 demo_sh Cticks Ltickslock None [Ltickslock] [] demo);
    [reflexivity|apply NoDup_singleton|reflexivity].
Defined.


Lemma kill_spec_witness :
  (exists i p, procs demo !! i = Some p /\ pid p = 1 /\
     kill 1 (Ctx [] []) demo =
       Ok 0 (Ctx [] []) (demo <| procs ::= <[i := kill_slot (ticks demo) p]> |>) /\
     (forall j q, procs demo !! j = Some q -> state q <> UNUSED -> pid q = 1 -> j = i)) \/
  ((forall i p, procs demo !! i = Some p -> pid p <> 1) /\
   kill 1 (Ctx [] []) demo = Ok (-1) (Ctx [] []) demo).
Proof.
  apply (kill_spec 1 [] demo); [apply demo_good|lia|].
  intros [|[|i]] p Hp Hu; [injection Hp as <-; done..|].
  change (replicate 62 proc0 !! i = Some p) in Hp. by apply lookup_replicate in Hp as [-> _].
Defined.

Lemma demo_room : room (-1) (replicate 64 None) demo.
Proof. repeat split; done || lia. Qed.

Lemma kill_zero_poisons_witness :
  exists s1 s2 p2, kill 0 (Ctx [] []) demo = Ok 0 (Ctx [] []) s1 /\
    allocproc (Ctx [] []) s1 = Ok (Some 2%nat) (Ctx [] []) s2 /\
    procs s2 !! 2%nat = Some p2 /\ state p2 = EMBRYO /\ killed p2 = 1.
Proof.
  apply (kill_zero_poisons 2 proc0 2382360576 (-1) (replicate 64 None) [] [] tt demo);
    [reflexivity..|apply demo_room|reflexivity|done].
Defined.

Lemma allocproc_overflow_witness :
  allocproc (Ctx [] []) (demo <| counts := [63; -1; -1; -1; -1] |>) = Undef.
Proof.
  apply (allocproc_overflow 2 [] _ (replicate 64 None)); reflexivity.
Defined.

Lemma fork_spec_witness :
  fork 1 (Ctx [] []) demo = Ok 4 (Ctx [] [])
    (upd 2 (forked 1 demo_sh trapframe0 0 (replicate 16 0) 2382352384 2382360576 proc0 demo)
      ((enqueued 2 (-1) (replicate 64 None) demo) <| nextpid := s32 (4 + 1) |> <| env := tt |>)).
Proof.
  apply (fork_spec 1 2 demo_sh proc0 trapframe0 0 (replicate 16 0) 2382360576 2382352384
    (-1) (replicate 64 None) [] [] tt demo).
  split; try reflexivity; try done.
  exists [], tt, [], tt, [], tt. repeat split.
Defined.

Lemma exit_spec_witness :
  exists s' p', exit 1 None (Ctx [] []) demo_z = Switched (Ctx [Lptable]
      ([] ++ [Ecprintf "Total Time: %d\n" [s32 (s32 (ticks demo_z) - ctime demo_sh)]])) s' /\
    env s' = tt /\ procs s' !! 1%nat = Some p' /\ exited demo_sh (ticks demo_z) p' /\
    (forall i p, i <> 1%nat -> procs demo_z !! i = Some p ->
       procs s' !! i = Some (bereaved 1 demo_sh demo_z p)).
Proof.
  apply (exit_spec 1 demo_sh 0 [] [] tt demo_z).
  split; try reflexivity; try done.
  exists [], tt, [], tt, [], tt. repeat split.
Defined.


Lemma waitx_spec_witness :
  waitx 1 [] (Ctx [] []) demo_z =
  Ok (3, Some (9, 6))
    (Ctx [] [Ecprintf "\netime %d  ctime %d    rtime %d    iotime %d \n" [25; 10; 6; 0]])
    (upd 2 (reaped demo_zombie) (demo_z <| env := tt |>)).
Proof.
  apply (waitx_spec 1 2 demo_zombie [] [] _ tt demo_z); [reflexivity|].
  split; [reflexivity|]. eexists _, tt. split; reflexivity.
Defined.
