(* ===== verification/SchedSpec.v ===== *)
(** * What the schedulers do (src/proc.c: rem_process, ageing, scheduler)

    The process each table-scanning policy picks, the order of a round-robin
    pass, and the effect of the queue operations of the multilevel feedback
    scheduler. *)

From stdpp Require Import prelude gmap strings list.
From Stdlib Require Import ZArith Lia.
From S2P Require Import Spinlock Strings Prelude Mmu Proc ProcInv Sched ProcSpec.

(** ** PRIORITY *)

Lemma priority_scan_spec ps i0 h prio :
  let r := priority_scan ps i0 h prio in
  (r = h /\ forall q, q ∈ ps -> state q = RUNNABLE -> prio <= priority q) \/
  (exists k p, r = (i0 + k)%nat /\ ps !! k = Some p /\ state p = RUNNABLE /\
     priority p < prio /\ forall q, q ∈ ps -> state q = RUNNABLE -> priority p <= priority q).
Proof.
  revert i0 h prio. induction ps as [|p ps IH]; intros i0 h prio; simpl.
  { left. split; [done|]. set_solver. }
  unfold is_state. destruct (bool_decide_reflect (state p = RUNNABLE)) as [Hp|Hp]; simpl.
  2:{ destruct (IH (S i0) h prio) as [[Hr Hmin]|(k & q & Hr & Hq & Hst & Hlt & Hmin)].
      - left. split; [done|]. intros q [->|Hin]%elem_of_cons Hs; [done|auto].
      - right. exists (S k), q. rewrite Hr. split; [lia|]. split_and!; try done.
        intros q' [->|Hin]%elem_of_cons Hs; [done|auto]. }
  destruct (Z.ltb_spec (priority p) prio) as [Hlt|Hge].
  - right. destruct (IH (S i0) i0 (priority p)) as [[Hr Hmin]|(k & q & Hr & Hq & Hst & Hlt' & Hmin)].
    + exists 0%nat, p. rewrite Hr. split; [lia|]. split_and!; try done.
      intros q [->|Hin]%elem_of_cons Hs; [lia|auto].
    + exists (S k), q. rewrite Hr. split; [lia|]. split_and!; try done; [lia|].
      intros q' [->|Hin]%elem_of_cons Hs; [lia|auto].
  - destruct (IH (S i0) h prio) as [[Hr Hmin]|(k & q & Hr & Hq & Hst & Hlt & Hmin)].
    + left. split; [done|]. intros q [->|Hin]%elem_of_cons Hs; [lia|auto].
    + right. exists (S k), q. rewrite Hr. split; [lia|]. split_and!; try done.
      intros q' [->|Hin]%elem_of_cons Hs; [lia|auto].
Qed.

Section Table.
Context {E : Type} `{KernelOps E} (run : nat -> pstate E -> pstate E).
Implicit Types s : pstate E.

(** C24: the PRIORITY scheduler only ever switches to a RUNNABLE process that no
    RUNNABLE process has a better (smaller) priority than: when its scan stands
    at a RUNNABLE slot, the next thing it does is dispatch such a process, and
    it goes on with the slot after that one. *)
Theorem priority_best fuel i p c s :
  (i < NPROC)%nat -> procs s !! i = Some p -> state p = RUNNABLE ->
  exists j q, procs s !! j = Some q /\ state q = RUNNABLE /\
    (forall k r, procs s !! k = Some r -> state r = RUNNABLE -> priority q <= priority r) /\
    table_loop run PRIORITY (S fuel) i c s =
      (dispatch run j ;; table_loop run PRIORITY fuel (S j)) c s.
Proof.
  intros Hi Hp Hst.
  assert (Hloop : table_loop run PRIORITY (S fuel) i c s =
    (dispatch run (pick PRIORITY (procs s) i p) ;;
     table_loop run PRIORITY fuel (S (pick PRIORITY (procs s) i p))) c s).
  { cbn [table_loop]. apply Nat.ltb_lt in Hi. rewrite Hi.
    rewrite bindE, getSE. cbn [obind]. rewrite bindE, (getp_run _ _ _ _ Hp). cbn [obind].
    unfold is_state. by rewrite bool_decide_true. }
  rewrite Hloop. simpl (pick _ _ _ _).
  destruct (priority_scan_spec (procs s) 0 i (priority p))
    as [[Hr Hmin]|(k & q & Hr & Hq & Hs & _ & Hmin)].
  - exists i, p. rewrite Hr. split_and!; try done.
    intros k r Hk. apply Hmin. by eapply list_elem_of_lookup_2.
  - exists k, q. rewrite Hr. split_and!; try done.
    intros k' r Hk'. apply Hmin. by eapply list_elem_of_lookup_2.
Qed.

(** ** FCFS *)

Definition fcfs_older (p q : proc) : bool :=
  negb (pid q <=? 2) && is_state RUNNABLE q && (ctime q <? ctime p).

Lemma fcfs_scan_spec p ps i0 m :
  let r := fcfs_scan p ps i0 m in
  (r = m /\ Forall (fun q => fcfs_older p q = false) ps) \/
  (exists k q, r = (i0 + k)%nat /\ ps !! k = Some q /\ fcfs_older p q = true /\
     forall k' q', (k < k')%nat -> ps !! k' = Some q' -> fcfs_older p q' = false).
Proof.
  revert i0 m. induction ps as [|a ps IH]; intros i0 m; simpl.
  { left. split; [done|constructor]. }
  set (m' := if pid a <=? 2 then _ else _).
  destruct (IH (S i0) m') as [[Hr Hall]|(k & q & Hr & Hq & Ho & Hlast)].
  - assert (Hm : m' = if fcfs_older p a then i0 else m).
    { unfold m', fcfs_older. destruct (pid a <=? 2); simpl; [done|].
      by destruct (is_state RUNNABLE a). }
    rewrite Hr, Hm. destruct (fcfs_older p a) eqn:Ha.
    + right. exists 0%nat, a. split; [lia|]. split_and!; try done.
      intros [|k'] q' Hk Hq'; [lia|]. rewrite Forall_forall in Hall.
      apply Hall. by eapply list_elem_of_lookup_2.
    + left. split; [done|]. by constructor.
  - right. exists (S k), q. rewrite Hr. split; [lia|]. split_and!; try done.
    intros [|k'] q' Hk Hq'; [lia|]. apply (Hlast k'); [lia|done].
Qed.

(** what the FCFS scheduler runs when its scan stands at a RUNNABLE slot:
    the last slot of the table that holds a RUNNABLE process with a pid above 2
    created before the scanned one, or the scanned one if there is none. *)
Theorem fcfs_pick_last ps i p :
  let j := pick FCFS ps i p in
  (j = i /\ Forall (fun q => fcfs_older p q = false) ps) \/
  (exists q, ps !! j = Some q /\ fcfs_older p q = true /\
     forall k r, (j < k)%nat -> ps !! k = Some r -> fcfs_older p r = false).
Proof.
  destruct (fcfs_scan_spec p ps 0 i) as [H1|(k & q & Hr & Hq)]; simpl in *; [by left|].
  right. exists q. by rewrite Hr.
Qed.
End Table.

(** FCFS does not run the process that was created first.  With processes
    created at times 30, 10 and 20 in slots 0 to 2, all RUNNABLE, the scan of
    slot 0 switches to the one created at 20. *)
Theorem fcfs_not_first :
  let mk n ct := proc0 <| state := RUNNABLE |> <| pid := n |> <| ctime := ct |> in
  pick FCFS [mk 3 30; mk 4 10; mk 5 20] 0 (mk 3 30) = 2%nat.
Proof. reflexivity. Qed.

(** ** Round robin *)

Section RoundRobin.
Context {E : Type} `{KernelOps E} (run : nat -> pstate E -> pstate E).
Implicit Types s : pstate E.

(** What the pass relies on: switching address spaces works, and a process that
    runs leaves the other processes' states alone. *)
Hypothesis switchuvm_ok : forall d k c e, exists e', k_switchuvm d k c e = Ok tt c e'.
Hypothesis switchkvm_ok : forall c e, exists e', k_switchkvm c e = Ok tt c e'.
Hypothesis run_local : forall i j s,
  length (procs (run i s)) = length (procs s) /\
  (i <> j -> state <$> (procs (run i s) !! j) = state <$> (procs s !! j)).

Definition states s : list procstate := state <$> procs s.

Lemma dispatch_run i p h t s :
  procs s !! i = Some p ->
  exists s', dispatch run i (Ctx h t) s = Ok tt (Ctx h (t ++ [Eswtch i])) s' /\
    length (procs s') = length (procs s) /\
    (forall j, i <> j -> state <$> (procs s' !! j) = state <$> (procs s !! j)).
Proof.
  intros Hp. unfold dispatch. rewrite bindE, modSE. cbn [obind].
  rewrite bindE. erewrite getp_run by exact Hp. cbn [obind].
  destruct (switchuvm_ok (pgdir p) (kstack p) (Ctx h t) (env s)) as [e1 H1].
  rewrite bindE. erewrite lift_ok by exact H1. cbn [obind].
  rewrite bindE, setpE. cbn [obind]. rewrite bindE, emitE. cbn [obind].
  rewrite bindE, modSE. cbn [obind].
  match goal with |- context [run i ?s0] => set (s1 := s0) end.
  destruct (switchkvm_ok (Ctx h (t ++ [Eswtch i])) (env (run i s1))) as [e2 H2].
  rewrite bindE, (lift_ok _ _ _ _ _ _ H2). cbn [obind]. rewrite modSE.
  eexists. split; [done|]. simpl. split.
  - rewrite (proj1 (run_local i i s1)). unfold s1. simpl. by rewrite length_alter.
  - intros j Hj. rewrite (proj2 (run_local i j s1)) by done. unfold s1. simpl.
    by rewrite list_lookup_alter_ne.
Qed.

(** The RUNNABLE slots from [i] on, in order. *)
Fixpoint runnable_from (sts : list procstate) (i : nat) : list nat :=
  match sts with
  | [] => []
  | st :: sts' =>
      if bool_decide (st = RUNNABLE) then i :: runnable_from sts' (S i)
      else runnable_from sts' (S i)
  end.

Lemma states_drop s s' i :
  length (procs s') = length (procs s) ->
  (forall j, i <> j -> state <$> (procs s' !! j) = state <$> (procs s !! j)) ->
  drop (S i) (states s') = drop (S i) (states s).
Proof.
  intros Hlen Hj. apply list_eq. intros j. rewrite !lookup_drop. unfold states.
  rewrite !list_lookup_fmap. apply Hj. lia.
Qed.

Lemma round_robin_from n i h t s :
  length (procs s) = NPROC -> (i + n = NPROC)%nat ->
  exists s', table_loop run DEFAULT (S n) i (Ctx h t) s =
    Ok tt (Ctx h (t ++ (Eswtch <$> runnable_from (drop i (states s)) i))) s'.
Proof.
  revert i t s. induction n as [|n IH]; intros i t s Hlen Hi.
  - exists s. cbn [table_loop]. rewrite (proj2 (Nat.ltb_ge _ _)) by lia.
    rewrite drop_ge; [by rewrite app_nil_r|]. unfold states. rewrite length_fmap. lia.
  - destruct (lookup_lt_is_Some_2 (procs s) i) as [p Hp]; [lia|].
    remember (S n) as fuel. cbn [table_loop]. rewrite (proj2 (Nat.ltb_lt _ _)) by lia.
    rewrite bindE, getSE. cbn [obind]. rewrite bindE, (getp_run _ _ _ _ Hp). cbn [obind].
    assert (Hd : drop i (states s) = state p :: drop (S i) (states s)).
    { apply drop_S. unfold states. by rewrite list_lookup_fmap, Hp. }
    rewrite Hd. cbn [runnable_from]. unfold is_state. subst fuel.
    case_bool_decide as Hst; cbn [negb]; [|apply IH; [done|lia]].
    simpl (pick _ _ _ _). destruct (dispatch_run i p h t s Hp) as (s1 & Hrun & Hlen1 & Hst1).
    rewrite bindE, Hrun. cbn [obind].
    destruct (IH (S i) (t ++ [Eswtch i]) s1) as [s' Hs']; [by rewrite Hlen1|lia|].
    exists s'. rewrite Hs'. rewrite (states_drop s s1 i) by done.
    rewrite fmap_cons. by rewrite <- app_assoc.
Qed.

End RoundRobin.

(** ** The queues of the multilevel feedback scheduler *)

Section Queues.
Context {E : Type} `{KernelOps E}.
Implicit Types s : pstate E.

Lemma count_run k c cx s : aget (counts s) k = Some c -> count k cx s = Ok c cx s.
Proof. intros Hc. unfold count, rd. mrun. rewrite Hc. done. Qed.

Lemma set_count_run k c cx s :
  0 <= k < Z.of_nat (length (counts s)) ->
  set_count k c cx s = Ok tt cx (s <| counts ::= <[Z.to_nat k := c]> |>).
Proof. intros Hk. unfold set_count, wr. mrun. rewrite aset_in by done. mrun. done. Qed.

Lemma qget_run k i q x cx s :
  aget (queues s) k = Some q -> aget q i = Some x -> qget k i cx s = Ok x cx s.
Proof.
  intros Hq Hx. unfold qget, rd. mrun. rewrite Hq. mrun. rewrite Hx. done.
Qed.

(** [set_queue k q s]: queue [k] replaced. *)
Definition set_queue (k : Z) (q : list (option nat)) s : pstate E :=
  s <| queues ::= <[Z.to_nat k := q]> |>.

Lemma qset_run k i q x cx s :
  aget (queues s) k = Some q -> 0 <= i < Z.of_nat (length q) ->
  qset k i x cx s =
  Ok tt cx (set_queue k (<[Z.to_nat i := x]> q) s).
Proof.
  intros Hq Hi. unfold qset, rd, wr. mrun. rewrite Hq. mrun. rewrite aset_in by done. mrun.
  pose proof (aget_Some_range _ _ _ Hq). rewrite aset_in by done. mrun. done.
Qed.

Lemma aget_insert {A} (l : list A) k x :
  0 <= k < Z.of_nat (length l) -> aget (<[Z.to_nat k := x]> l) k = Some x.
Proof.
  intros Hk. unfold aget. destruct (Z.ltb_spec k 0); [lia|].
  apply list_lookup_insert_eq. lia.
Qed.

Lemma aget_set_queue k q q' s :
  aget (queues s) k = Some q -> aget (queues (set_queue k q' s)) k = Some q'.
Proof. intros Hq. apply aget_insert. by eapply aget_Some_range. Qed.

Lemma set_queue_twice k q q' s : set_queue k q (set_queue k q' s) = set_queue k q s.
Proof. unfold set_queue. destruct s. simpl. by rewrite list_insert_insert_eq. Qed.

Lemma set_queue_id k q s : aget (queues s) k = Some q -> set_queue k q s = s.
Proof.
  unfold aget. destruct (Z.ltb_spec k 0); [done|]. intros Hq. unfold set_queue.
  destruct s. simpl in *. by rewrite list_insert_id.
Qed.

(** Shifting [n] entries down over position [i]. *)
Lemma shift_down_run k i n q1 x q2 q3 cx s :
  aget (queues s) k = Some (q1 ++ x :: q2 ++ q3) -> Z.of_nat (length q1) = i ->
  length q2 = n ->
  shift_down k i n cx s =
  Ok tt cx (set_queue k (q1 ++ q2 ++ List.last (x :: q2) None :: q3) s).
Proof.
  revert i q1 x q2 s. induction n as [|n IH]; intros i q1 x q2 s Hq Hi Hn.
  - destruct q2; [|done]. simpl. by rewrite set_queue_id.
  - destruct q2 as [|y q2]; [done|]. cbn [shift_down].
    assert (Hy : aget (q1 ++ x :: (y :: q2) ++ q3) (i + 1) = Some y).
    { subst i. replace (Z.of_nat (length q1) + 1) with (Z.of_nat (S (length q1))) by lia.
      rewrite aget_nat. rewrite lookup_app_r by lia.
      replace (S (length q1) - length q1)%nat with 1%nat by lia. done. }
    rewrite bindE, (qget_run _ _ _ _ _ _ Hq Hy). cbn [obind].
    rewrite bindE, (qset_run _ _ _ _ _ _ Hq) by (subst i; rewrite length_app; simpl; lia).
    cbn [obind]. subst i. rewrite Nat2Z.id.
    rewrite insert_app_r_alt, Nat.sub_diag by lia. simpl (<[0%nat := _]> _).
    rewrite (IH _ (q1 ++ [y]) y q2); [|..|by injection Hn].
    + rewrite set_queue_twice. by rewrite <- app_assoc.
    + rewrite (aget_set_queue _ _ _ _ Hq). by rewrite <- app_assoc.
    + rewrite length_app. simpl. lia.
Qed.

(** Queue [k] holds the slots [l], front first; [rest] is the unused part of the
    array. *)
Definition queue_holds (k : Z) (l : list nat) (rest : list (option nat)) s : Prop :=
  aget (queues s) k = Some ((Some <$> l) ++ rest) /\
  aget (counts s) k = Some (Z.of_nat (length l) - 1).

Definition pid_differs s (pid0 : Z) (j : nat) : Prop :=
  exists p, procs s !! j = Some p /\ pid p <> pid0.

Lemma aget_queue (l : list nat) (rest : list (option nat)) i j :
  l !! i = Some j -> aget ((Some <$> l) ++ rest) (Z.of_nat i) = Some (Some j).
Proof.
  intros Hj. rewrite aget_nat, lookup_app_l.
  - by rewrite list_lookup_fmap, Hj.
  - rewrite length_fmap. by eapply lookup_lt_Some.
Qed.

Lemma rem_loop_step fuel k pid0 l rest i j p cx s :
  queue_holds k l rest s -> l !! i = Some j -> procs s !! j = Some p ->
  rem_loop (S fuel) k pid0 (Z.of_nat i) cx s =
  ((if pid p =? pid0 then
      set_count k (Z.of_nat (length l) - 2) ;; shift_down k (Z.of_nat i) (length l - 1 - i)
    else mret tt) ;; rem_loop fuel k pid0 (Z.of_nat (S i))) cx s.
Proof.
  intros [Hq Hc] Hj Hp. pose proof (lookup_lt_Some _ _ _ Hj) as Hlt.
  cbn [rem_loop]. rewrite bindE, (count_run _ _ _ _ Hc). cbn [obind].
  destruct (Z.leb_spec (Z.of_nat i) (Z.of_nat (length l) - 1)); [|lia].
  rewrite bindE, (qget_run _ _ _ _ _ _ Hq (aget_queue _ _ _ _ Hj)). cbn [obind].
  unfold deref. rewrite bindE, of_optionE. cbn [obind].
  rewrite bindE, (getp_run _ _ _ _ Hp). cbn [obind].
  replace (Z.of_nat i + 1) with (Z.of_nat (S i)) by lia.
  replace (Z.of_nat (length l) - 1 - 1) with (Z.of_nat (length l) - 2) by lia.
  replace (Z.to_nat (Z.of_nat (length l) - 2 - Z.of_nat i + 1))
    with (length l - 1 - i)%nat by lia. done.
Qed.

Lemma rem_loop_skip fuel k pid0 l rest i cx s :
  queue_holds k l rest s -> Forall (pid_differs s pid0) (drop i l) ->
  (length l - i < fuel)%nat ->
  rem_loop fuel k pid0 (Z.of_nat i) cx s = Ok tt cx s.
Proof.
  intros Hh. revert i. induction fuel as [|fuel IH]; intros i Hall Hf; [lia|].
  destruct (decide (i < length l)%nat) as [Hi|Hi].
  - destruct (lookup_lt_is_Some_2 l i Hi) as [j Hj].
    rewrite (drop_S _ _ _ Hj) in Hall. apply Forall_cons in Hall as [(p & Hp & Hpid) Hall].
    rewrite (rem_loop_step _ _ _ _ _ _ _ _ _ _ Hh Hj Hp).
    destruct (Z.eqb_spec (pid p) pid0); [done|]. rewrite bindE, retE. cbn [obind].
    apply IH; [done|lia].
  - cbn [rem_loop]. rewrite bindE, (count_run _ _ _ _ (proj2 Hh)). cbn [obind].
    by destruct (Z.leb_spec (Z.of_nat i) (Z.of_nat (length l) - 1)); [lia|].
Qed.

(** The state after [j] was taken out of queue [k] = [l1 ++ j :: l2]. *)
Definition dequeued (k : Z) (l1 : list nat) (j : nat) (l2 : list nat)
    (rest : list (option nat)) s : pstate E :=
  set_queue k ((Some <$> (l1 ++ l2)) ++ List.last (Some <$> (j :: l2)) None :: rest)
    (s <| counts ::= <[Z.to_nat k := Z.of_nat (length (l1 ++ l2)) - 1]> |>).

Lemma dequeued_holds k l1 j l2 rest s :
  queue_holds k (l1 ++ j :: l2) rest s ->
  queue_holds k (l1 ++ l2) (List.last (Some <$> (j :: l2)) None :: rest)
    (dequeued k l1 j l2 rest s).
Proof.
  intros [Hq Hc]. split.
  - eapply aget_set_queue. exact Hq.
  - apply aget_insert. by eapply aget_Some_range.
Qed.

(** The match at the head of the rest of the scan. *)
Lemma rem_loop_match fuel k pid0 l1 j p l2 rest cx s :
  queue_holds k (l1 ++ j :: l2) rest s -> procs s !! j = Some p -> pid p = pid0 ->
  Forall (pid_differs s pid0) (l1 ++ l2) -> (length l2 < fuel)%nat ->
  rem_loop (S fuel) k pid0 (Z.of_nat (length l1)) cx s = Ok tt cx (dequeued k l1 j l2 rest s).
Proof.
  intros Hh Hp Hpid Hall Hf. pose proof Hh as [Hq Hc].
  assert (Hj : (l1 ++ j :: l2) !! length l1 = Some j) by (by apply list_lookup_middle).
  rewrite (rem_loop_step _ _ _ _ _ _ _ _ _ _ Hh Hj Hp).
  destruct (Z.eqb_spec (pid p) pid0); [|done].
  rewrite bindE, bindE, set_count_run by (by eapply aget_Some_range). cbn [obind].
  rewrite length_app. cbn [length].
  rewrite (shift_down_run k _ _ (Some <$> l1) (Some j) (Some <$> l2) rest);
    [|by rewrite fmap_app, fmap_cons, <- app_assoc in Hq|by rewrite length_fmap
     |rewrite length_fmap; lia].
  cbn [obind].
  assert (Hs : set_queue k ((Some <$> l1) ++ (Some <$> l2) ++
      List.last (Some j :: (Some <$> l2)) None :: rest)
    (s <| counts ::= <[Z.to_nat k := Z.of_nat (length l1 + S (length l2)) - 2]> |>) =
    dequeued k l1 j l2 rest s).
  { unfold dequeued. rewrite fmap_app, length_app, <- app_assoc.
    replace (Z.of_nat (length l1 + S (length l2)) - 2)
      with (Z.of_nat (length l1 + length l2) - 1) by lia. done. }
  rewrite Hs.
  apply (rem_loop_skip _ _ _ (l1 ++ l2) _ _ _ _ (dequeued_holds _ _ _ _ _ _ Hh)).
  - by apply Forall_drop.
  - rewrite length_app. lia.
Qed.

Lemma rem_loop_found n i fuel k pid0 l1 j p l2 rest cx s :
  queue_holds k (l1 ++ j :: l2) rest s -> procs s !! j = Some p -> pid p = pid0 ->
  Forall (pid_differs s pid0) (l1 ++ l2) -> (i + n = length l1)%nat ->
  (n + length l2 + 1 < fuel)%nat ->
  rem_loop fuel k pid0 (Z.of_nat i) cx s = Ok tt cx (dequeued k l1 j l2 rest s).
Proof.
  intros Hh Hp Hpid Hall. revert i fuel.
  induction n as [|n IH]; intros i [|fuel] Hi Hf; try lia.
  - replace i with (length l1) by lia. eapply rem_loop_match; try done. lia.
  - destruct (lookup_lt_is_Some_2 l1 i) as [j' Hj']; [lia|].
    pose proof Hall as [Hl1 _]%Forall_app.
    destruct (Forall_lookup_1 _ _ _ _ Hl1 Hj') as (p' & Hp' & Hpid').
    assert (Hj : (l1 ++ j :: l2) !! i = Some j') by (by apply lookup_app_l_Some).
    rewrite (rem_loop_step _ _ _ _ _ _ _ _ _ _ Hh Hj Hp').
    destruct (Z.eqb_spec (pid p') pid0); [done|]. rewrite bindE, retE. cbn [obind].
    apply IH; lia.
Qed.

(** rem_process() takes the process with the given pid out of the queue it
    is told to look in and keeps the order of the others; when the pid is not in
    that queue, or there is no such queue, it changes nothing. *)
Theorem rem_process_spec pid0 k l rest cx s :
  0 <= k <= 4 -> queue_holds k l rest s -> (length l <= 64)%nat ->
  (forall l1 j l2, l = l1 ++ j :: l2 -> (exists p, procs s !! j = Some p /\ pid p = pid0) ->
     Forall (pid_differs s pid0) (l1 ++ l2) ->
     rem_process pid0 k cx s = Ok tt cx (dequeued k l1 j l2 rest s) /\
     queue_holds k (l1 ++ l2) (List.last (Some <$> (j :: l2)) None :: rest)
       (dequeued k l1 j l2 rest s)) /\
  (Forall (pid_differs s pid0) l -> rem_process pid0 k cx s = Ok tt cx s) /\
  (forall k', ~ 0 <= k' <= 4 -> rem_process pid0 k' cx s = Ok tt cx s).
Proof.
  intros Hk Hh Hlen. unfold rem_process. split_and!.
  - intros l1 j l2 -> (p & Hp & Hpid) Hall. split; [|by apply dequeued_holds].
    destruct (Z.leb_spec 0 k), (Z.leb_spec k 4); try lia. simpl (_ && _).
    rewrite length_app in Hlen. simpl in Hlen.
    apply (rem_loop_found (length l1) 0 66 k pid0 l1 j p l2 rest); try done; lia.
  - intros Hall. destruct (Z.leb_spec 0 k), (Z.leb_spec k 4); try lia. simpl (_ && _).
    apply (rem_loop_skip 66 k pid0 l rest 0); [done|done|lia].
  - intros k' Hk'. destruct (Z.leb_spec 0 k'), (Z.leb_spec k' 4); try lia; done.
Qed.

(** *** Ageing *)

Lemma pid_differs_setp pid0 i f s l :
  (forall p, pid (f p) = pid p) -> Forall (pid_differs s pid0) l ->
  Forall (pid_differs (s <| procs ::= alter f i |>) pid0) l.
Proof.
  intros Hf Hl. eapply Forall_impl; [done|]. intros j (p & Hp & Hne). unfold pid_differs. simpl.
  destruct (decide (i = j)) as [->|Hij].
  - exists (f p). rewrite list_lookup_alter_eq, Hp, Hf. done.
  - exists p. by rewrite list_lookup_alter_ne.
Qed.

Lemma lookup_setp_keep {A} (g : proc -> A) f i j p s :
  (forall p, g (f p) = g p) -> procs s !! j = Some p ->
  exists p', procs (s <| procs ::= alter f i |>) !! j = Some p' /\ g p' = g p.
Proof.
  intros Hf Hp. simpl. destruct (decide (i = j)) as [->|Hij].
  - exists (f p). by rewrite list_lookup_alter_eq, Hp.
  - exists p. by rewrite list_lookup_alter_ne.
Qed.

Lemma aget_insert_ne {A} (l : list A) k k' x :
  0 <= k -> k <> k' -> aget (<[Z.to_nat k := x]> l) k' = aget l k'.
Proof.
  intros Hk Hne. unfold aget. destruct (Z.ltb_spec k' 0); [done|].
  apply list_lookup_insert_ne. lia.
Qed.

(** Storing [j] behind the entries of queue [k], whose counter already includes
    it, and removing its pid from the same queue. *)
Lemma append_remove k l rest x j p cx s :
  0 <= k <= 4 -> aget (queues s) k = Some ((Some <$> l) ++ x :: rest) ->
  aget (counts s) k = Some (Z.of_nat (length l)) -> (length l < 64)%nat ->
  procs s !! j = Some p -> Forall (pid_differs s (pid p)) l ->
  exists s', (qset k (Z.of_nat (length l)) (Some j) ;; rem_process (pid p) k) cx s = Ok tt cx s' /\
    queue_holds k l (Some j :: rest) s' /\ procs s' = procs s /\
    (forall k', k' <> k -> aget (queues s') k' = aget (queues s) k' /\
                           aget (counts s') k' = aget (counts s) k').
Proof.
  intros Hk Hq Hc Hlen Hp Hall.
  rewrite bindE. erewrite qset_run; [|exact Hq|rewrite length_app, length_fmap; simpl; lia].
  cbn [obind]. rewrite Nat2Z.id. set (s1 := set_queue _ _ _).
  assert (Hh : queue_holds k (l ++ [j]) rest s1).
  { split.
    - unfold s1. erewrite aget_set_queue by exact Hq. f_equal.
      rewrite insert_app_r_alt by (by rewrite length_fmap).
      rewrite length_fmap, Nat.sub_diag, fmap_app. by rewrite <- app_assoc.
    - unfold s1. simpl. rewrite Hc, length_app. simpl. f_equal. lia. }
  exists (dequeued k l j [] rest s1). split_and!.
  - unfold rem_process. destruct (Z.leb_spec 0 k), (Z.leb_spec k 4); try lia. simpl (_ && _).
    apply (rem_loop_found (length l) 0 66 k (pid p) l j p [] rest); try done.
    + by rewrite app_nil_r.
    + simpl. lia.
  - pose proof (dequeued_holds k l j [] rest s1 Hh) as Hd. by rewrite app_nil_r in Hd.
  - done.
  - intros k' Hne. unfold dequeued, s1, set_queue. simpl.
    rewrite !aget_insert_ne by lia. done.
Qed.

(** ageing never promotes a process.  ageing() lowers current_queue before
    it calls rem_process() with it, so what it removes is the entry it has just
    appended to the better queue: afterwards both queues hold exactly what they
    held before, while the process believes to be one level up. *)
Theorem ageing_no_promotion k i j p tk l rest x w pw cx s :
  1 <= k <= 4 -> procs s !! j = Some p -> current_queue p = k ->
  length (pticks p) = 5%nat ->
  queue_holds (k - 1) l (x :: rest) s -> (length l < 64)%nat ->
  Forall (pid_differs s (pid p)) l ->
  (if k =? 1 then qproc 1 0 else qproc (k - 1) i) cx s = Ok (w, pw) cx s ->
  exists s', promote k i j p tk cx s = Ok tt cx s' /\
    queue_holds (k - 1) l (Some j :: rest) s' /\
    (forall k', k' <> k - 1 -> aget (queues s') k' = aget (queues s) k' /\
                               aget (counts s') k' = aget (counts s) k') /\
    (exists p', procs s' !! j = Some p' /\ current_queue p' = k - 1).
Proof.
  intros Hk Hp Hcq Htk Hh Hlen Hall Hw. unfold promote. rewrite bindE, Hw. cbn [obind].
  rewrite bindE, setpE. cbn [obind]. rewrite Hcq, s32_small by lia.
  rewrite bindE, setpE. cbn [obind]. unfold wr at 1. rewrite aset_in by lia.
  rewrite bindE, of_optionE. cbn [obind]. rewrite bindE, setpE. cbn [obind].
  rewrite bindE. erewrite count_run by exact (proj2 Hh). cbn [obind].
  replace (Z.of_nat (length l) - 1 + 1) with (Z.of_nat (length l)) by lia.
  rewrite bindE, set_count_run by (eapply aget_Some_range; exact (proj2 Hh)). cbn [obind].
  rewrite bindE, setpE. cbn [obind].
  match goal with |- context [(qset _ _ _ ;; _) _ ?s0] => set (s1 := s0) end.
  destruct (lookup_setp_keep pid (fun p => p <| waittime := 0 |>) w j p s) as (p1 & Hp1 & Hpid1);
    [done|done|].
  assert (Hp' : exists p', procs s1 !! j = Some p' /\ pid p' = pid p /\ current_queue p' = k - 1).
  { eexists. unfold s1. simpl. simpl in Hp1.
    rewrite !list_lookup_alter_eq, Hp1. simpl. split; [done|]. split; [exact Hpid1|done]. }
  destruct Hp' as (p' & Hp' & Hpid & Hcq').
  destruct (append_remove (k - 1) l rest x j p' cx s1) as (s' & Hrun & Hh' & Hps & Hoth);
    [lia|exact (proj1 Hh)| |done|done| |].
  - unfold s1. simpl. apply aget_insert. eapply aget_Some_range. exact (proj2 Hh).
  - rewrite Hpid. unfold s1. repeat (apply pid_differs_setp; [done|]). exact Hall.
  - rewrite Hpid in Hrun. exists s'. rewrite Hrun. split_and!; [done|done| |].
    + intros k' Hne. destruct (Hoth k' Hne) as [-> ->]. unfold s1. simpl.
      rewrite aget_insert_ne by lia. done.
    + exists p'. by rewrite Hps.
Qed.

(** *** Demotion *)

(** Taking position [length l1] out of queue [k], as the scheduler does. *)
Lemma take_out_run k l1 j l2 rest p tks cx s :
  queue_holds k (l1 ++ j :: l2) rest s -> procs s !! j = Some p ->
  0 <= k < Z.of_nat (length tks) ->
  exists s', (c ← count k;
     shift_down k (Z.of_nat (length l1)) (Z.to_nat (c - Z.of_nat (length l1))) ;;
     tks ← wr tks k 0;
     setp j (fun p => p <| pticks := tks |>) ;;
     set_count k (c - 1)) cx s = Ok tt cx s' /\
    queue_holds k (l1 ++ l2) (List.last (Some <$> (j :: l2)) None :: rest) s' /\
    procs s' !! j = Some (p <| pticks := <[Z.to_nat k := 0]> tks |>) /\
    (forall k', k' <> k -> aget (queues s') k' = aget (queues s) k' /\
                           aget (counts s') k' = aget (counts s) k').
Proof.
  intros Hh Hp Htk. pose proof Hh as [Hq Hc]. pose proof (aget_Some_range _ _ _ Hc) as Hk.
  rewrite bindE, (count_run _ _ _ _ Hc). cbn [obind].
  replace (Z.to_nat (Z.of_nat (length (l1 ++ j :: l2)) - 1 - Z.of_nat (length l1)))
    with (length l2) by (rewrite length_app; simpl; lia).
  rewrite bindE, (shift_down_run k _ _ (Some <$> l1) (Some j) (Some <$> l2) rest);
    [|by rewrite fmap_app, fmap_cons, <- app_assoc in Hq|by rewrite length_fmap
     |by rewrite length_fmap].
  cbn [obind]. unfold wr. rewrite aset_in by done. rewrite bindE, of_optionE. cbn [obind].
  rewrite bindE. erewrite setp_upd by exact Hp. cbn [obind].
  rewrite set_count_run by exact Hk. eexists. split; [done|]. split_and!.
  - split.
    + rewrite fmap_app, <- app_assoc. eapply aget_set_queue. exact Hq.
    + replace (Z.of_nat (length (l1 ++ l2)) - 1)
        with (Z.of_nat (length (l1 ++ j :: l2)) - 1 - 1)
        by (rewrite !length_app; simpl; lia). by apply aget_insert.
  - eapply lookup_upd. exact Hp.
  - intros k' Hne. simpl. rewrite !aget_insert_ne by lia. done.
Qed.

(** [c<k+1>++; m_proc->current_queue++; queue<k+1>[c<k+1>] = m_proc;] *)
Lemma push_down_run k l x rest j p cx s :
  queue_holds k l (x :: rest) s -> procs s !! j = Some p ->
  (c ← count k;
   set_count k (c + 1) ;;
   setp j (fun p => p <| current_queue ::= fun q => s32 (q + 1) |>) ;;
   qset k (c + 1) (Some j)) cx s =
  Ok tt cx (set_queue k ((Some <$> (l ++ [j])) ++ rest)
    (upd j (p <| current_queue := s32 (current_queue p + 1) |>)
      (s <| counts ::= <[Z.to_nat k := Z.of_nat (length l)]> |>))).
Proof.
  intros [Hq Hc] Hp. rewrite bindE, (count_run _ _ _ _ Hc). cbn [obind].
  replace (Z.of_nat (length l) - 1 + 1) with (Z.of_nat (length l)) by lia.
  rewrite bindE, set_count_run by (by eapply aget_Some_range). cbn [obind].
  rewrite bindE. erewrite setp_upd by exact Hp. cbn [obind].
  erewrite qset_run; [|exact Hq|rewrite length_app, length_fmap; simpl; lia].
  rewrite Nat2Z.id, insert_app_r_alt by (by rewrite length_fmap).
  rewrite length_fmap, Nat.sub_diag, fmap_app, <- app_assoc. done.
Qed.

(** what happens to a process of queue k < 4 when it comes back from the
    CPU.  If it has used up its time slice it is moved to the end of queue
    k + 1, its level is raised and its ticks at level k are reset; if it was
    killed it is taken out of the queues; otherwise nothing changes.  The other
    processes keep their order. *)
Theorem demote_spec k l1 j l2 rest l' x rest' p t period cx s :
  0 <= k < 4 -> procs s !! j = Some p ->
  aget (pticks p) k = Some t -> aget clockperiod k = Some period ->
  -1 <= current_queue p < 5 ->
  queue_holds k (l1 ++ j :: l2) rest s -> queue_holds (k + 1) l' (x :: rest') s ->
  if (period <=? t) || negb (killed p =? 0) then
    exists s' p' r1 r2, demote k (Z.of_nat (length l1)) j cx s = Ok tt cx s' /\
      queue_holds k (l1 ++ l2) r1 s' /\
      queue_holds (k + 1) (if killed p =? 0 then l' ++ [j] else l') r2 s' /\
      procs s' !! j = Some p' /\ aget (pticks p') k = Some 0 /\
      current_queue p' = current_queue p + (if killed p =? 0 then 1 else 0)
  else demote k (Z.of_nat (length l1)) j cx s = Ok tt cx s.
Proof.
  intros Hk Hp Ht Hper Hcq Hh Hh'. unfold demote.
  rewrite bindE, (getp_run _ _ _ _ Hp). cbn [obind].
  unfold rd. rewrite Ht, Hper, bindE, of_optionE. cbn [obind]. rewrite bindE, of_optionE. cbn [obind].
  destruct ((period <=? t) || negb (killed p =? 0)) eqn:Hb; [|done].
  pose proof (aget_Some_range _ _ _ Ht) as Htk. destruct (killed p =? 0).
  - rewrite bindE, (push_down_run _ _ _ _ _ _ _ _ Hh' Hp). cbn [obind].
    set (p1 := p <| current_queue := _ |>). set (s1 := set_queue _ _ _).
    destruct (take_out_run k l1 j l2 rest p1 (pticks p) cx s1) as (s' & Hrun & Hk1 & Hj & Hoth).
    + destruct Hh as [Hq Hc]. split; unfold s1; simpl; by rewrite aget_insert_ne by lia.
    + eapply lookup_upd. exact Hp.
    + done.
    + eexists s', _, _, rest'. rewrite Hrun. split_and!; [done|done| |done| |].
      * destruct (Hoth (k + 1)) as [Hq1 Hc1]; [lia|]. destruct Hh' as [Hq' Hc'].
        split; rewrite ?Hq1, ?Hc1; unfold s1.
        -- eapply aget_set_queue. exact Hq'.
        -- simpl. rewrite aget_insert by (by eapply aget_Some_range).
           rewrite length_app. simpl. f_equal. lia.
      * by apply aget_insert.
      * simpl. rewrite s32_small; lia.
  - rewrite bindE, retE. cbn [obind].
    destruct (take_out_run k l1 j l2 rest p (pticks p) cx s) as (s' & Hrun & Hk1 & Hj & Hoth);
      [done..|].
    eexists s', _, _, _. rewrite Hrun. split_and!; [done|done| |done| |].
    + destruct (Hoth (k + 1)) as [Hq1 Hc1]; [lia|]. destruct Hh' as [Hq' Hc'].
      split; rewrite ?Hq1, ?Hc1; done.
    + by apply aget_insert.
    + simpl. lia.
Qed.
End Queues.

(** ** Termination of the multilevel feedback pass *)

(** The queue arrays have 64 entries. *)
Definition qlen {E} (s : pstate E) : Prop := Forall (fun q => length q = 64%nat) (queues s).

(** [m] does not run out of fuel, and keeps the length of the arrays. *)
Definition fueled {E A} (m : M (pstate E) A) : Prop :=
  forall c s, qlen s ->
    match m c s with
    | NoFuel => False
    | Ok _ _ s' => qlen s'
    | _ => True
    end.

Create HintDb fueled.

Section Fuel.
Context {E : Type} `{KernelOps E} (run : nat -> pstate E -> pstate E).
Abbreviation K := (M (pstate E)).
Hypothesis switchuvm_fuel : forall d k c e, k_switchuvm d k c e <> NoFuel.
Hypothesis switchkvm_fuel : forall c e, k_switchkvm c e <> NoFuel.
Hypothesis run_qlen : forall i s, qlen s -> qlen (run i s).

Lemma fueled_ret {A} (a : A) : fueled (mret a : K A).
Proof. by intros c s. Qed.
Lemma fueled_bind {A B} (m : K A) (f : A -> K B) :
  fueled m -> (forall a, fueled (f a)) -> fueled (m ≫= f).
Proof.
  intros Hm Hf c s Hs. rewrite bindE. specialize (Hm c s Hs).
  destruct (m c s); simpl; try done. by apply Hf.
Qed.
Lemma fueled_getS : fueled (getS : K _).
Proof. by intros c s. Qed.
Lemma fueled_gets {A} (f : pstate E -> A) : fueled (gets f).
Proof. by intros c s. Qed.
Lemma fueled_of_option {A} (o : option A) : fueled (of_option o : K A).
Proof. by destruct o; intros c s. Qed.
Lemma fueled_emit e : fueled (emit e : K _).
Proof. by intros c s. Qed.
Lemma fueled_setp i f : fueled (setp i f : K _).
Proof. by intros c s. Qed.
Lemma fueled_getp i : fueled (getp i : K _).
Proof. apply fueled_bind; [apply fueled_getS|intros; apply fueled_of_option]. Qed.
Lemma fueled_modS f : (forall s, qlen s -> qlen (f s)) -> fueled (modS f : K _).
Proof. intros Hf c s Hs. by apply Hf. Qed.
Lemma fueled_lift {A} (m : M E A) : (forall c e, m c e <> NoFuel) -> fueled (lift m).
Proof.
  intros Hm c s Hs. unfold lift, zoom. specialize (Hm c (env s)). by destruct (m c (env s)).
Qed.

Lemma fueled_count k : fueled (count k : K _).
Proof. apply fueled_bind; [apply fueled_getS|intros; apply fueled_of_option]. Qed.
Lemma fueled_set_count k c : fueled (set_count k c : K _).
Proof.
  apply fueled_bind; [apply fueled_getS|intros s0]. apply fueled_bind; [apply fueled_of_option|].
  intros cs. by apply fueled_modS.
Qed.
Lemma fueled_qget k i : fueled (qget k i : K _).
Proof.
  apply fueled_bind; [apply fueled_getS|intros s0].
  apply fueled_bind; [apply fueled_of_option|intros q; apply fueled_of_option].
Qed.
Lemma fueled_qset k i x : fueled (qset k i x : K _).
Proof.
  intros c s Hs. unfold qset, rd, wr. mrun. destruct (aget (queues s) k) as [q|] eqn:Hq; [|done].
  mrun. destruct (aset q i x) as [q'|] eqn:Hq'; [|done]. mrun.
  destruct (aset (queues s) k q') as [qs|] eqn:Hqs; [|done]. mrun.
  unfold qlen in *. simpl. unfold aset in Hqs. case_match; simplify_eq.
  apply Forall_insert; [done|]. rewrite (aset_Some_length _ _ _ _ Hq').
  unfold aget in Hq. case_match; [done|]. by apply (Forall_lookup_1 _ _ _ _ Hs Hq).
Qed.

Hint Resolve fueled_ret fueled_getS fueled_gets fueled_of_option fueled_emit fueled_setp
  fueled_getp fueled_count fueled_set_count fueled_qget fueled_qset : fueled.
Ltac fueled :=
  repeat first
    [ solve [eauto with fueled]
    | apply fueled_bind; [|intros ?]
    | progress case_match
    | progress unfold rd, wr, deref ].

Lemma fueled_shift_down k j n : fueled (shift_down k j n : K _).
Proof. revert j. induction n; intros j; cbn [shift_down]; fueled. Qed.

(** No loop gets past index 64. *)
Lemma qget_undef k i c s : 64 <= i -> qlen s -> (qget k i : K _) c s = Undef.
Proof.
  intros Hi Hs. unfold qget, rd. mrun. destruct (aget (queues s) k) as [q|] eqn:Hq; [|done].
  mrun. unfold aget in Hq. case_match; [done|].
  pose proof (Forall_lookup_1 _ _ _ _ Hs Hq) as Hlen. simpl in Hlen.
  unfold aget. destruct (Z.ltb_spec i 0); [lia|]. rewrite lookup_ge_None_2 by lia. done.
Qed.

Hint Resolve fueled_shift_down : fueled.

Lemma fueled_rem_loop fuel k pid0 i :
  0 <= i <= 64 -> 66 <= i + Z.of_nat fuel -> fueled (rem_loop fuel k pid0 i : K _).
Proof.
  revert i. induction fuel as [|fuel IH]; intros i Hi Hf; [lia|]. cbn [rem_loop].
  apply fueled_bind; [apply fueled_count|intros c]. case_match; [|apply fueled_ret].
  destruct (decide (i < 64)) as [Hlt|Hge].
  - apply fueled_bind; [apply fueled_qget|intros x]. assert (fueled (rem_loop fuel k pid0 (i + 1) : K _))
      by (apply IH; lia). fueled.
  - intros c' s Hs. rewrite bindE, qget_undef by (done || lia). done.
Qed.

Lemma fueled_rem_process pid0 k : fueled (rem_process pid0 k : K _).
Proof. unfold rem_process. case_match; [apply fueled_rem_loop; lia|apply fueled_ret]. Qed.

Lemma fueled_qproc k i : fueled (qproc k i : K _).
Proof. unfold qproc. fueled. Qed.

Hint Resolve fueled_rem_process fueled_qproc : fueled.

Lemma fueled_promote k i j p tk : fueled (promote k i j p tk : K _).
Proof. unfold promote. fueled. Qed.

Lemma fueled_dispatch i : fueled (dispatch run i : K _).
Proof.
  unfold dispatch.
  pose proof (fun d k => fueled_lift (k_switchuvm d k) (switchuvm_fuel d k)).
  pose proof (fueled_lift k_switchkvm switchkvm_fuel).
  pose proof (fun i => fueled_modS (run i) (run_qlen i)).
  assert (forall o, fueled (modS (fun s => s <| curproc := o |>) : K _))
    by (intros o; by apply fueled_modS).
  fueled.
Qed.

Lemma fueled_demote k i j : fueled (demote k i j : K _).
Proof. unfold demote. fueled. Qed.
Lemma fueled_rotate i j : fueled (rotate i j : K _).
Proof. unfold rotate. fueled. Qed.

Hint Resolve fueled_promote fueled_dispatch fueled_demote fueled_rotate : fueled.

Lemma qproc_undef k i c s : 64 <= i -> qlen s -> (qproc k i : K _) c s = Undef.
Proof. intros Hi Hs. unfold qproc. by rewrite bindE, qget_undef. Qed.

Lemma fueled_ageing_loop fuel k i :
  0 <= i <= 64 -> 66 <= i + Z.of_nat fuel -> fueled (ageing_loop fuel k i : K _).
Proof.
  revert i. induction fuel as [|fuel IH]; intros i Hi Hf; [lia|]. cbn [ageing_loop].
  apply fueled_bind; [apply fueled_count|intros c]. case_match; [|apply fueled_ret].
  destruct (decide (i < 64)) as [Hlt|Hge].
  - assert (fueled (ageing_loop fuel k (i + 1) : K _)) by (apply IH; lia). fueled.
  - intros c' s Hs. rewrite bindE, qproc_undef by (done || lia). done.
Qed.

Lemma fueled_queue_loop fuel k i :
  0 <= i <= 64 -> 66 <= i + Z.of_nat fuel -> fueled (queue_loop run fuel k i : K _).
Proof.
  revert i. induction fuel as [|fuel IH]; intros i Hi Hf; [lia|]. cbn [queue_loop].
  apply fueled_bind; [apply fueled_count|intros c]. case_match; [|apply fueled_ret].
  destruct (decide (i < 64)) as [Hlt|Hge].
  - assert (fueled (queue_loop run fuel k (i + 1) : K _)) by (apply IH; lia). fueled.
  - intros c' s Hs. rewrite bindE, qproc_undef by (done || lia). done.
Qed.

End Fuel.

(** ** Witnesses

    A process that runs until it goes to sleep. *)
#[local] Existing Instance demo_ops.

Definition demo_run (i : nat) (s : pstate unit) : pstate unit :=
  s <| procs ::= alter (fun p => p <| state := SLEEPING |>) i |>.

Definition demo_ready (n prio : Z) : proc :=
  proc0 <| state := RUNNABLE |> <| pid := n |> <| priority := prio |>
    <| current_queue := 1 |> <| pticks := [0; 2; 0; 0; 0] |>.

(** Slots 2 and 3 hold RUNNABLE processes with pids 4 and 5, in queue 1. *)
Definition demo_q : pstate unit :=
  (demo_table (demo_ready 4 60 :: demo_ready 5 20 :: replicate 60 proc0))
    <| queues := replicate 64 None :: ([Some 2%nat; Some 3%nat] ++ replicate 62 None)
                 :: replicate 3 (replicate 64 None) |>
    <| counts := [-1; 1; -1; -1; -1] |>.

Lemma priority_best_witness :
  exists j q, procs demo_q !! j = Some q /\ state q = RUNNABLE /\
    (forall k r, procs demo_q !! k = Some r -> state r = RUNNABLE -> priority q <= priority r) /\
    table_loop demo_run PRIORITY 9 2 (Ctx [Lptable] []) demo_q =
      (dispatch demo_run j ;; table_loop demo_run PRIORITY 8 (S j)) (Ctx [Lptable] []) demo_q.
Proof.
  apply (priority_best demo_run 8 2 (demo_ready 4 60)); [vm_compute; lia|reflexivity..].
Defined.


Lemma demo_q_holds : queue_holds 1 [2%nat; 3%nat] (replicate 62 None) demo_q.
Proof. split; reflexivity. Qed.

Lemma rem_process_spec_witness :
  rem_process 4 1 (Ctx [] []) demo_q =
    Ok tt (Ctx [] []) (dequeued 1 [] 2 [3%nat] (replicate 62 None) demo_q) /\
  queue_holds 1 [3%nat] (List.last (Some <$> [2%nat; 3%nat]) None :: replicate 62 None)
    (dequeued 1 [] 2 [3%nat] (replicate 62 None) demo_q).
Proof.
  apply (rem_process_spec 4 1 [2%nat; 3%nat] (replicate 62 None) (Ctx [] []) demo_q);
    [lia|apply demo_q_holds|vm_compute; lia|reflexivity|by eexists|].
  constructor; [|constructor]. eexists. split; [reflexivity|]. vm_compute. congruence.
Defined.

Lemma ageing_no_promotion_witness :
  exists s', promote 1 0 2 (demo_ready 4 60) 30 (Ctx [] []) demo_q = Ok tt (Ctx [] []) s' /\
    queue_holds (1 - 1) [] (Some 2%nat :: replicate 63 None) s' /\
    (forall k', k' <> 1 - 1 -> aget (queues s') k' = aget (queues demo_q) k' /\
                               aget (counts s') k' = aget (counts demo_q) k') /\
    (exists p', procs s' !! 2%nat = Some p' /\ current_queue p' = 1 - 1).
Proof.
  apply (ageing_no_promotion 1 0 2 (demo_ready 4 60) 30 [] (replicate 63 None) None
    2 (demo_ready 4 60)); [lia|reflexivity..|split; reflexivity|vm_compute; lia|constructor|reflexivity].
Defined.

Lemma demote_spec_witness :
  exists s' p' r1 r2, demote 1 (Z.of_nat (length (@nil nat))) 2 (Ctx [] []) demo_q
      = Ok tt (Ctx [] []) s' /\
    queue_holds 1 [3%nat] r1 s' /\ queue_holds (1 + 1) [2%nat] r2 s' /\
    procs s' !! 2%nat = Some p' /\ aget (pticks p') 1 = Some 0 /\ current_queue p' = 2.
Proof.
  apply (demote_spec 1 [] 2 [3%nat] (replicate 62 None) [] None (replicate 63 None)
    (demo_ready 4 60) 2 2 (Ctx [] []) demo_q);
    [lia|reflexivity..|vm_compute; intuition congruence|apply demo_q_holds|split; reflexivity].
Defined.

