(* ===== verification/Ring.v ===== *)
(** * Ring buffers

    src/pipe.c and src/console.c keep bytes in an array of [n] between 32-bit
    counters that wrap around; the byte of counter value [x] is at [x % n].
    [window d r k] are the [k] bytes from counter value [r] on.  All that is needed
    of [n] is that it divides 2^32, so that the wrap-around does not show. *)

From stdpp Require Import prelude list.
From Stdlib Require Import ZArith Lia.
From S2P Require Import Prelude.

Definition window (n : Z) (d : list Z) (r : Z) (k : nat) : list Z :=
  (fun i => nth (Z.to_nat ((r + Z.of_nat i) mod n)) d 0) <$> seq 0 k.

Section Ring.
Context (n : Z) (n_pos : 0 < n) (n_div : (n | 2 ^ 32)).
Implicit Types (d : list Z) (r : Z) (k : nat).

Lemma u32_mod z : u32 z mod n = z mod n.
Proof using n_pos n_div.
  destruct n_div as [q Hq]. unfold u32. rewrite Hq. rewrite (Z.mul_comm q). destruct (decide (q = 0)) as [->|]; [lia|].
  rewrite Z.rem_mul_r by lia. rewrite Z.mul_comm, Z_mod_plus_full. apply Zmod_mod.
Qed.

Lemma length_window d r k : length (window n d r k) = k.
Proof. unfold window. by rewrite length_fmap, length_seq. Qed.

Lemma window_app d r j k : window n d r (j + k) = window n d r j ++ window n d (r + Z.of_nat j) k.
Proof.
  unfold window. rewrite seq_app, fmap_app. f_equal. rewrite (Nat.add_comm 0 j), <- (fmap_add_seq j 0 k), <- list_fmap_compose.
  apply list_fmap_ext. intros i x _. cbn. do 3 f_equal. lia.
Qed.

Lemma window_u32 d r k : window n d (u32 r) k = window n d r k.
Proof using n_pos n_div.
  apply list_fmap_ext. intros i x _. cbn. rewrite <- (u32_mod (u32 r + _)), u32_add_l. by rewrite u32_mod.
Qed.

Lemma window_1 d r : window n d r 1 = [nth (Z.to_nat (r mod n)) d 0].
Proof. unfold window. cbn. by rewrite Z.add_0_r. Qed.

(** A store behind fewer than [n] bytes does not touch them. *)
Lemma window_insert_ne d r k b :
  Z.of_nat k < n -> window n (<[Z.to_nat ((r + Z.of_nat k) mod n) := b]> d) r k = window n d r k.
Proof using n_pos.
  intros Hk. apply list_fmap_ext. intros i x [-> Hi]%lookup_seq. cbn. rewrite !nth_lookup, list_lookup_insert_ne; [done|].
  intros Heq. apply Z2Nat.inj in Heq; [|apply Z.mod_pos_bound; lia..].
  pose proof (Z.div_mod (r + Z.of_nat k) n). pose proof (Z.div_mod (r + Z.of_nat i) n).
  assert ((r + Z.of_nat k) / n = (r + Z.of_nat i) / n \/ n <= Z.of_nat k - Z.of_nat i) by nia. nia.
Qed.

Lemma window_snoc d r k b :
  Z.of_nat (length d) = n -> Z.of_nat k < n ->
  window n (<[Z.to_nat ((r + Z.of_nat k) mod n) := b]> d) r (k + 1) = window n d r k ++ [b].
Proof using n_pos.
  intros Hd Hk. rewrite window_app, window_insert_ne by done. f_equal. rewrite window_1, nth_lookup.
  pose proof (Z.mod_pos_bound (r + Z.of_nat k) n n_pos). rewrite list_lookup_insert_eq; [done|]. lia.
Qed.

(** The first byte, taken out by advancing the counter. *)
Lemma window_cons d r k :
  Z.of_nat (length d) = n ->
  exists b, aget d (r mod n) = Some b /\ window n d r (S k) = b :: window n d (u32 (r + 1)) k.
Proof using n_pos n_div.
  intros Hd. pose proof (Z.mod_pos_bound r n n_pos) as Hm.
  destruct (lookup_lt_is_Some_2 d (Z.to_nat (r mod n))) as [b Hb]; [lia|]. exists b. split.
  - unfold aget. by destruct (Z.ltb_spec (r mod n) 0); [lia|].
  - change (S k) with (1 + k)%nat. rewrite window_app, window_1, nth_lookup, Hb, window_u32. done.
Qed.
End Ring.
