(* ===== verification/Pipe.v ===== *)
(** * Pipes (src/pipe.c)

    A pipe is a ring buffer of 512 bytes between two 32-bit counters that wrap
    around.  [content] is the byte string a pipe holds; the theorems say that
    reading and writing are taking from and appending to that string, whatever
    the other end does while the caller sleeps. *)

From stdpp Require Import prelude list strings.
From Stdlib Require Import ZArith Lia.
From S2P Require Import Prelude Ring.

Definition PIPESIZE : Z := 512.

Record pipe := mkpipe {
  data : list Z;
  nread : Z;
  nwrite : Z;
  readopen : Z;
  writeopen : Z;
}.
#[export] Instance pipe_settable : Settable pipe :=
  fun p => mkpipe (data p) (nread p) (nwrite p) (readopen p) (writeopen p).

(** The pipe, and [myproc()->killed] of the process that uses it. *)
Record pworld := mkpworld { the_pipe : pipe; my_killed : Z }.
#[export] Instance pworld_settable : Settable pworld :=
  fun w => mkpworld (the_pipe w) (my_killed w).

Section Pipe.
(** The address of the pipe. *)
Context (a : Z).

Definition mod_pipe (f : pipe -> pipe) : M pworld unit :=
  modS (fun w => w <| the_pipe ::= f |>).

(** [p->readopen = 1; ... initlock(&p->lock, "pipe");] of pipealloc(), on a page
    with arbitrary contents. *)
Definition pipeinit : M pworld unit :=
  mod_pipe (fun p => p <| readopen := 1 |> <| writeopen := 1 |>
                       <| nwrite := 0 |> <| nread := 0 |>) ;;
  initlock (Lpipe a) "pipe".

Definition pipeclose (writable : Z) : M pworld unit :=
  acquire (Lpipe a) ;;
  (if negb (writable =? 0)
   then mod_pipe (fun p => p <| writeopen := 0 |>) ;; wakeup (Cnread a)
   else mod_pipe (fun p => p <| readopen := 0 |>) ;; wakeup (Cnwrite a)) ;;
  p ← gets the_pipe;
  if (readopen p =? 0) && (writeopen p =? 0)
  then release (Lpipe a) ;; emit (Ekfree a)
  else release (Lpipe a).

(** [while(p->nwrite == p->nread + PIPESIZE) { ... }]: [None] is the early
    return. *)
Fixpoint write_wait (env : list (pworld -> pworld))
  : M pworld (option (list (pworld -> pworld))) :=
  w ← getS;
  let p := the_pipe w in
  if nwrite p =? u32 (nread p + PIPESIZE) then
    if (readopen p =? 0) || negb (my_killed w =? 0) then
      release (Lpipe a) ;; mret None
    else
      wakeup (Cnread a) ;;
      match env with
      | [] => sleep (Cnwrite a) (Lpipe a) [] ;; undef
      | f :: env' => sleep (Cnwrite a) (Lpipe a) [f] ;; write_wait env'
      end
  else mret (Some env).

(** [p->data[p->nwrite++ % PIPESIZE] = b;] *)
Definition put_byte (b : Z) : M pworld unit :=
  p ← gets the_pipe;
  d ← wr (data p) (nwrite p mod PIPESIZE) b;
  mod_pipe (fun p => p <| data := d |> <| nwrite := u32 (nwrite p + 1) |>).

(** [addr] are the [n] bytes still to be written. *)
Fixpoint write_loop (addr : list Z) (env : list (pworld -> pworld)) : M pworld bool :=
  match addr with
  | [] => mret true
  | b :: addr' =>
      o ← write_wait env;
      match o with
      | None => mret false
      | Some env' => put_byte b ;; write_loop addr' env'
      end
  end.

Definition pipewrite (addr : list Z) (env : list (pworld -> pworld)) : M pworld Z :=
  acquire (Lpipe a) ;;
  ok ← write_loop addr env;
  if (ok : bool) then
    wakeup (Cnread a) ;; release (Lpipe a) ;; mret (Z.of_nat (length addr))
  else mret (-1).

(** [while(p->nread == p->nwrite && p->writeopen) { ... }] *)
Fixpoint read_wait (env : list (pworld -> pworld)) : M pworld bool :=
  w ← getS;
  let p := the_pipe w in
  if (nread p =? nwrite p) && negb (writeopen p =? 0) then
    if negb (my_killed w =? 0) then release (Lpipe a) ;; mret false
    else match env with
         | [] => sleep (Cnread a) (Lpipe a) [] ;; undef
         | f :: env' => sleep (Cnread a) (Lpipe a) [f] ;; read_wait env'
         end
  else mret true.

(** [for(i = 0; i < n; i++) { if(p->nread == p->nwrite) break;
    addr[i] = p->data[p->nread++ % PIPESIZE]; }] *)
Fixpoint read_loop (n : nat) : M pworld (list Z) :=
  match n with
  | O => mret []
  | S n' =>
      p ← gets the_pipe;
      if nread p =? nwrite p then mret [] else
      b ← rd (data p) (nread p mod PIPESIZE);
      mod_pipe (fun p => p <| nread := u32 (nread p + 1) |>) ;;
      bs ← read_loop n';
      mret (b :: bs)
  end.

(** The result and the bytes stored at [addr]. *)
Definition piperead (n : Z) (env : list (pworld -> pworld)) : M pworld (Z * list Z) :=
  acquire (Lpipe a) ;;
  ok ← read_wait env;
  if (ok : bool) then
    bs ← read_loop (Z.to_nat n);
    wakeup (Cnwrite a) ;;
    release (Lpipe a) ;;
    mret (Z.of_nat (length bs), bs)
  else mret (-1, []).
End Pipe.

(** ** What a pipe holds *)

Definition count (p : pipe) : Z := u32 (nwrite p - nread p).

Definition content (p : pipe) : list Z := window 512 (data p) (nread p) (Z.to_nat (count p)).

Record pipe_ok (p : pipe) : Prop := {
  ok_data : length (data p) = 512%nat;
  ok_nread : 0 <= nread p < 2 ^ 32;
  ok_nwrite : 0 <= nwrite p < 2 ^ 32;
  ok_count : count p <= 512;
}.

Lemma count_range p : 0 <= count p < 2 ^ 32.
Proof. apply u32_range. Qed.

Lemma length_content p : Z.of_nat (length (content p)) = count p.
Proof.
  unfold content. rewrite length_window. pose proof (count_range p). lia.
Qed.

Lemma nwrite_count p : pipe_ok p -> nwrite p = u32 (nread p + count p).
Proof.
  intros [_ _ Hw _]. unfold count. rewrite u32_add_r.
  replace (nread p + (nwrite p - nread p)) with (nwrite p) by lia. by rewrite u32_small.
Qed.

Lemma full_iff p : pipe_ok p -> nwrite p = u32 (nread p + PIPESIZE) <-> count p = 512.
Proof.
  intros Hp. pose proof (nwrite_count p Hp) as Hn. split; intros H.
  - unfold count. rewrite H. unfold PIPESIZE. rewrite u32_sub_l.
    replace (nread p + 512 - nread p) with 512 by lia. done.
  - by rewrite Hn, H.
Qed.

Lemma empty_iff p : pipe_ok p -> nread p = nwrite p <-> count p = 0.
Proof.
  intros Hp. pose proof (nwrite_count p Hp) as Hn. destruct Hp as [_ Hr _ _]. split; intros H.
  - unfold count. rewrite H, Z.sub_diag. done.
  - rewrite Hn, H, Z.add_0_r. by rewrite u32_small.
Qed.

Lemma div_512 : (512 | 2 ^ 32).
Proof. by exists 8388608. Qed.

(** ** put_byte and read_loop on the content *)

Definition put (b : Z) (p : pipe) : pipe :=
  p <| data := <[Z.to_nat (nwrite p mod 512) := b]> (data p) |> <| nwrite := u32 (nwrite p + 1) |>.

Definition get1 (p : pipe) : pipe := p <| nread := u32 (nread p + 1) |>.

Lemma count_put b p : count p < 512 -> count (put b p) = count p + 1.
Proof.
  intros Hc. pose proof (count_range p). unfold count, put in *. simpl. rewrite u32_sub_l.
  replace (nwrite p + 1 - nread p) with (nwrite p - nread p + 1) by lia.
  rewrite <- u32_add_l. apply u32_small. lia.
Qed.

Lemma count_get1 p : 0 < count p -> count (get1 p) = count p - 1.
Proof.
  intros Hc. pose proof (count_range p). unfold count, get1 in *. simpl. rewrite u32_sub_r.
  replace (nwrite p - (nread p + 1)) with (nwrite p - nread p - 1) by lia.
  rewrite <- u32_sub_l. apply u32_small. lia.
Qed.

Lemma content_put b p :
  pipe_ok p -> count p < 512 -> content (put b p) = content p ++ [b] /\ pipe_ok (put b p).
Proof.
  intros Hp Hc. pose proof (count_range p) as Hr. pose proof (nwrite_count p Hp) as Hn.
  pose proof (count_put b p Hc) as Hc'. destruct Hp as [Hd Hrd Hwr _]. split.
  - unfold content. rewrite Hc'. replace (Z.to_nat (count p + 1)) with (Z.to_nat (count p) + 1)%nat by lia.
    cbn [put data nread update]. rewrite Hn, (u32_mod 512 ltac:(lia) div_512).
    replace (count p) with (Z.of_nat (Z.to_nat (count p))) at 1 by lia. apply window_snoc; lia.
  - split; simpl; [by rewrite length_insert|done|apply u32_range|lia].
Qed.

Lemma content_get1 p :
  pipe_ok p -> 0 < count p ->
  exists b, aget (data p) (nread p mod 512) = Some b /\ content p = b :: content (get1 p) /\
    pipe_ok (get1 p).
Proof.
  intros Hp Hc. pose proof (count_get1 p Hc) as Hc'. destruct Hp as [Hd Hrd Hwr Hmax].
  destruct (window_cons 512 ltac:(lia) div_512 (data p) (nread p) (Z.to_nat (count p - 1))) as (b & Hb & Hs); [lia|].
  exists b. split_and!; [done| |split; simpl; [done|apply u32_range|done|lia]].
  unfold content. rewrite Hc'. replace (Z.to_nat (count p)) with (S (Z.to_nat (count p - 1))) by lia. exact Hs.
Qed.

(** ** Reading and writing *)

Section FIFO.
Context (a : Z).

(** What the reading end does while a writer sleeps: it takes bytes away from
    the front.  What the writing end does while a reader sleeps: it appends. *)
Definition reader (f : pworld -> pworld) : Prop :=
  forall w, pipe_ok (the_pipe w) -> pipe_ok (the_pipe (f w)) /\
    exists k, content (the_pipe (f w)) = drop k (content (the_pipe w)).

Definition writer (f : pworld -> pworld) : Prop :=
  forall w, pipe_ok (the_pipe w) -> pipe_ok (the_pipe (f w)) /\
    exists xs, content (the_pipe (f w)) = content (the_pipe w) ++ xs.

Lemma drop_app_min {A} k (l x : list A) : drop k l ++ x = drop (min k (length l)) (l ++ x).
Proof.
  destruct (decide (k <= length l)%nat) as [Hk|Hk].
  - rewrite Nat.min_l by done. by rewrite drop_app_le.
  - rewrite Nat.min_r, drop_ge, drop_app_length by lia. done.
Qed.

(** A pipe a writer may sleep on. *)
Definition full_open (w : pworld) : Prop :=
  count (the_pipe w) = 512 /\ readopen (the_pipe w) <> 0 /\ my_killed w = 0.

Lemma write_wait_spec env t w :
  pipe_ok (the_pipe w) -> Forall reader env ->
  match write_wait a env (Ctx [Lpipe a] t) w with
  | Ok o c' w' =>
      pipe_ok (the_pipe w') /\
      (exists k, content (the_pipe w') = drop k (content (the_pipe w))) /\
      match o with
      | Some env' => held c' = [Lpipe a] /\ count (the_pipe w') < 512 /\ Forall reader env'
      | None => held c' = []
      end
  | Blocked ch lk c' w' =>
      ch = Cnwrite a /\ lk = Lpipe a /\ pipe_ok (the_pipe w') /\ full_open w' /\
      (exists k, content (the_pipe w') = drop k (content (the_pipe w))) /\
      last (trace c') = Some (Ewakeup (Cnread a))
  | _ => False
  end.
Proof.
  intros Hok Henv. revert t w Hok.
  induction Henv as [|f env Hf Henv IH]; intros t w Hok; cbn [write_wait]; mrun;
    (destruct (Z.eqb_spec (nwrite (the_pipe w)) (u32 (nread (the_pipe w) + PIPESIZE)))
      as [Hfull|Hfull]; [apply (full_iff _ Hok) in Hfull|]).
  2,4: assert (Hc : count (the_pipe w) < 512)
         by (rewrite (full_iff _ Hok) in Hfull; destruct Hok; lia);
       rewrite retE; split; [done|]; split; [by exists 0%nat|];
       split_and!; auto using Forall_nil_2, Forall_cons_2.
  - destruct (_ || _) eqn:Hb; mrun.
    + split; [done|]. split; [by exists 0%nat|done].
    + unfold wakeup. mrun. rewrite sleep_blocks. simpl. apply orb_false_elim in Hb as [Hb1 Hb2].
      rewrite last_snoc. split_and!; try done; [|by exists 0%nat].
      split; [done|]. split; [lia|]. by destruct (Z.eqb_spec (my_killed w) 0).
  - destruct (_ || _) eqn:Hb; mrun.
    + split; [done|]. split; [by exists 0%nat|done].
    + unfold wakeup. mrun. rewrite sleep_alone. cbn [obind].
      destruct (Hf w Hok) as [Hok' [k Hk]].
      specialize (IH (t ++ [Ewakeup (Cnread a)]) (f w) Hok').
      destruct (write_wait a env _ _) as [o c' w'| |ch lk c' w'| | |]; try done.
      * destruct IH as (H1 & [k' Hk'] & H2). split; [done|]. split; [|done].
        exists (k + k')%nat. by rewrite Hk', Hk, drop_drop.
      * destruct IH as (H1 & H2 & H3 & H4 & [k' Hk'] & H5). split_and!; try done.
        exists (k + k')%nat. by rewrite Hk', Hk, drop_drop.
Qed.

Lemma put_byte_run b t w :
  pipe_ok (the_pipe w) ->
  put_byte b (Ctx [Lpipe a] t) w = Ok tt (Ctx [Lpipe a] t) (w <| the_pipe ::= put b |>).
Proof.
  intros Hok. unfold put_byte, mod_pipe, wr. mrun.
  pose proof (Z.mod_pos_bound (nwrite (the_pipe w)) 512).
  rewrite aset_in by (destruct Hok as [-> _ _ _]; unfold PIPESIZE; lia). mrun. done.
Qed.

(** After writing a prefix of [bs] to a pipe that held [l]. *)
Definition written (l bs l' : list Z) (j : nat) : Prop := exists k, l' = drop k (l ++ take j bs).

Lemma written_cons l b bs l1 l' k j :
  l1 = drop k l -> written (l1 ++ [b]) bs l' j -> written l (b :: bs) l' (S j).
Proof.
  intros -> [k' ->]. rewrite drop_app_min, drop_app_min, drop_drop, <- app_assoc.
  eexists. reflexivity.
Qed.

Definition write_post (n : nat) (l bs : list Z) (o : out pworld bool) : Prop :=
  match o with
  | Ok ok c' w' =>
      pipe_ok (the_pipe w') /\ exists j, (j <= length bs)%nat /\
      written l bs (content (the_pipe w')) j /\
      if ok then j = length bs /\ held c' = [Lpipe a] else held c' = []
  | Blocked ch lk c' w' =>
      ch = Cnwrite a /\ lk = Lpipe a /\ pipe_ok (the_pipe w') /\ full_open w' /\
      last (trace c') = Some (Ewakeup (Cnread a)) /\
      exists j, (j < length bs)%nat /\ written l bs (content (the_pipe w')) j
  | _ => False
  end.

Lemma write_loop_spec bs env t w :
  pipe_ok (the_pipe w) -> Forall reader env ->
  write_post (length bs) (content (the_pipe w)) bs (write_loop a bs env (Ctx [Lpipe a] t) w).
Proof.
  revert env t w. induction bs as [|b bs IH]; intros env t w Hok Henv; cbn [write_loop].
  { rewrite retE. split; [done|]. exists 0%nat. split; [done|]. split; [|done].
    exists 0%nat. simpl. by rewrite app_nil_r. }
  rewrite bindE. pose proof (write_wait_spec env t w Hok Henv) as Hw.
  destruct (write_wait a env _ _) as [o c' w'| |ch lk c' w'| | |]; try done; cbn [obind].
  - destruct Hw as (Hok' & [k Hk] & Ho). destruct o as [env'|].
    + destruct Ho as (Hheld & Hc & Henv'). destruct c' as [h t']. simpl in Hheld. subst h.
      rewrite bindE, put_byte_run by done. cbn [obind].
      destruct (content_put b (the_pipe w') Hok' Hc) as [Hput Hok''].
      specialize (IH env' t' (w' <| the_pipe ::= put b |>) Hok'' Henv').
      simpl in IH. rewrite Hput in IH. revert IH. unfold write_post.
      destruct (write_loop _ _ _ _ _) as [ok c2 w2| |ch lk c2 w2| | |]; try done.
      * intros (H1 & j & Hj & Hwr & H2). split; [done|]. exists (S j). split; [simpl; lia|].
        split; [by eapply written_cons|]. destruct ok; [|done]. destruct H2 as [-> ?]. done.
      * intros (H1 & H2 & H3 & H4 & H5 & j & Hj & Hwr). split_and!; try done.
        exists (S j). split; [simpl; lia|]. by eapply written_cons.
    + rewrite retE. split; [done|]. exists 0%nat. split; [lia|]. split; [|done].
      exists k. simpl. by rewrite app_nil_r.
  - destruct Hw as (H1 & H2 & H3 & H4 & [k Hk] & H5). split_and!; try done.
    exists 0%nat. split; [simpl; lia|]. exists k. simpl. by rewrite app_nil_r.
Qed.

(** C21: pipewrite() appends its bytes to the pipe in order, losing and
    duplicating none, however the reader drains the pipe meanwhile, and never
    overfills the ring.  It returns the number of bytes, or -1 with a prefix
    written; it goes to sleep only on a full pipe that is open for reading, and
    only after waking the readers.  It never panics. *)
Theorem pipewrite_fifo bs env t w :
  pipe_ok (the_pipe w) -> Forall reader env ->
  match pipewrite a bs env (Ctx [] t) w with
  | Ok r c' w' =>
      held c' = [] /\ pipe_ok (the_pipe w') /\
      exists j, (j <= length bs)%nat /\ written (content (the_pipe w)) bs (content (the_pipe w')) j /\
        (r = Z.of_nat (length bs) /\ j = length bs \/ r = -1)
  | Blocked ch lk c' w' =>
      ch = Cnwrite a /\ lk = Lpipe a /\ pipe_ok (the_pipe w') /\ full_open w' /\
      last (trace c') = Some (Ewakeup (Cnread a)) /\
      exists j, (j < length bs)%nat /\ written (content (the_pipe w)) bs (content (the_pipe w')) j
  | _ => False
  end.
Proof.
  intros Hok Henv. unfold pipewrite. mrun.
  pose proof (write_loop_spec bs env t w Hok Henv) as Hl.
  destruct (write_loop _ _ _ _ _) as [ok c' w'| |ch lk c' w'| | |]; try done; cbn [obind].
  destruct Hl as (H1 & j & Hj & Hwr & H2). destruct ok.
  - destruct H2 as [-> Hheld]. destruct c' as [h t']. simpl in Hheld. subst h.
    unfold wakeup. mrun. split; [done|]. split; [done|]. exists (length bs). auto.
  - rewrite retE. split; [done|]. split; [done|]. exists j. auto.
Qed.

Lemma read_wait_spec env t w :
  pipe_ok (the_pipe w) -> Forall writer env ->
  match read_wait a env (Ctx [Lpipe a] t) w with
  | Ok ok c' w' =>
      pipe_ok (the_pipe w') /\
      (exists xs, content (the_pipe w') = content (the_pipe w) ++ xs) /\
      if ok then held c' = [Lpipe a] /\
        (count (the_pipe w') = 0 -> writeopen (the_pipe w') = 0)
      else held c' = [] /\ my_killed w' <> 0
  | Blocked ch lk c' w' =>
      ch = Cnread a /\ lk = Lpipe a /\ content (the_pipe w') = [] /\
      writeopen (the_pipe w') <> 0
  | _ => False
  end.
Proof.
  intros Hok Henv. revert t w Hok.
  induction Henv as [|f env Hf Henv IH]; intros t w Hok; cbn [read_wait]; mrun;
    (destruct ((nread (the_pipe w) =? nwrite (the_pipe w)) &&
               negb (writeopen (the_pipe w) =? 0)) eqn:Hb).
  2,4: rewrite retE; split; [done|]; split; [exists []; by rewrite app_nil_r|];
       split; [done|]; intros Hc; apply (empty_iff _ Hok) in Hc; lia.
  - apply andb_prop in Hb as [He%Z.eqb_eq Ho]. apply (empty_iff _ Hok) in He.
    destruct (Z.eqb_spec (my_killed w) 0); simpl; mrun.
    + rewrite sleep_blocks. simpl. split_and!; try done; [|lia].
      apply nil_length_inv. pose proof (length_content (the_pipe w)). lia.
    + split; [done|]. split; [exists []; by rewrite app_nil_r|done].
  - destruct (Z.eqb_spec (my_killed w) 0); simpl; mrun.
    + rewrite sleep_alone. cbn [obind]. destruct (Hf w Hok) as [Hok' [xs Hxs]].
      specialize (IH t (f w) Hok').
      destruct (read_wait a env _ _) as [ok c' w'| |ch lk c' w'| | |]; try done.
      destruct IH as (H1 & [ys Hys] & H2). split; [done|]. split; [|done].
      exists (xs ++ ys). by rewrite Hys, Hxs, app_assoc.
    + split; [done|]. split; [exists []; by rewrite app_nil_r|done].
Qed.

Lemma read_loop_run n c w :
  pipe_ok (the_pipe w) ->
  exists w', read_loop n c w = Ok (take n (content (the_pipe w))) c w' /\
    pipe_ok (the_pipe w') /\ content (the_pipe w') = drop n (content (the_pipe w)) /\
    writeopen (the_pipe w') = writeopen (the_pipe w).
Proof.
  revert w. induction n as [|n IH]; intros w Hok; cbn [read_loop].
  { exists w. rewrite retE. by rewrite drop_0. }
  mrun. destruct (Z.eqb_spec (nread (the_pipe w)) (nwrite (the_pipe w))) as [He|He].
  - apply (empty_iff _ Hok) in He.
    assert (Hnil : content (the_pipe w) = []).
    { apply nil_length_inv. pose proof (length_content (the_pipe w)). lia. }
    exists w. by rewrite retE, Hnil.
  - rewrite (empty_iff _ Hok) in He. pose proof (count_range (the_pipe w)) as Hr.
    destruct (content_get1 (the_pipe w) Hok) as (b & Hb & Hcont & Hok'); [lia|].
    unfold rd, PIPESIZE. rewrite Hb. mrun.
    change (mod_pipe _ c w) with (Ok (A := unit) tt c (w <| the_pipe ::= get1 |>)).
    cbn [obind]. rewrite bindE.
    destruct (IH (w <| the_pipe ::= get1 |>)) as (w' & Hrun & H1 & H2 & H3); [exact Hok'|].
    rewrite Hrun. cbn [obind]. mrun. exists w'. rewrite Hcont. simpl in *.
    by rewrite H2, H3.
Qed.

(** C22: piperead() returns the oldest bytes of the pipe, in order and each once:
    what it returns followed by what is left is what the pipe held when it
    stopped waiting.  It returns 0 bytes only at the end of file (or when asked
    for none), -1 only to a killed process, and sleeps only on an empty pipe
    that is open for writing.  It never panics. *)
Theorem piperead_fifo n env t w :
  pipe_ok (the_pipe w) -> Forall writer env ->
  match piperead a n env (Ctx [] t) w with
  | Ok (r, bs) c' w' =>
      held c' = [] /\ pipe_ok (the_pipe w') /\
      ((r = Z.of_nat (length bs) /\
        (exists xs, bs ++ content (the_pipe w') = content (the_pipe w) ++ xs /\
           length bs = min (Z.to_nat n) (length (content (the_pipe w) ++ xs))) /\
        (bs = [] -> n <= 0 \/ writeopen (the_pipe w') = 0)) \/
       (r = -1 /\ bs = [] /\ my_killed w' <> 0))
  | Blocked ch lk c' w' =>
      ch = Cnread a /\ lk = Lpipe a /\ content (the_pipe w') = [] /\
      writeopen (the_pipe w') <> 0
  | _ => False
  end.
Proof.
  intros Hok Henv. unfold piperead. mrun.
  pose proof (read_wait_spec env t w Hok Henv) as Hl.
  destruct (read_wait _ _ _ _) as [ok c1 w1| |ch lk c' w'| | |]; try done; cbn [obind].
  destruct Hl as (Hok1 & [xs Hxs] & H2). destruct ok.
  - destruct H2 as [Hheld Hempty]. destruct c1 as [h t1]. simpl in Hheld. subst h.
    destruct (read_loop_run (Z.to_nat n) (Ctx [Lpipe a] t1) w1 Hok1) as (w' & Hrun & H1 & H3 & H4).
    rewrite bindE, Hrun. cbn [obind]. unfold wakeup. mrun. split; [done|]. split; [done|].
    left. split; [done|]. split.
    + exists xs. rewrite <- Hxs, H3, take_drop. split; [done|]. apply length_take.
    + intros Hnil. destruct (decide (n <= 0)) as [|Hn]; [by left|right].
      rewrite H4. apply Hempty. pose proof (length_content (the_pipe w1)) as Hlen.
      destruct (content (the_pipe w1)); [done|]. by destruct (Z.to_nat n) eqn:?; [lia|].
  - rewrite retE. destruct H2. split; [done|]. split; [done|]. right. done.
Qed.

(** the page of a pipe is freed exactly when the second of its two ends is
    closed. *)
Theorem pipeclose_frees wr t w :
  let w' := w <| the_pipe ::= fun p =>
    if negb (wr =? 0) then p <| writeopen := 0 |> else p <| readopen := 0 |> |> in
  let ev := Ewakeup (if negb (wr =? 0) then Cnread a else Cnwrite a) in
  pipeclose a wr (Ctx [] t) w =
  Ok tt (Ctx [] ((t ++ [ev]) ++
      if (readopen (the_pipe w') =? 0) && (writeopen (the_pipe w') =? 0)
      then [Ekfree a] else [])) w'.
Proof.
  cbn zeta. unfold pipeclose, mod_pipe, wakeup. mrun.
  destruct (negb (wr =? 0)); mrun; simpl; case_match; mrun; by rewrite ?app_nil_r.
Qed.
End FIFO.

(** ** Witnesses

    A pipe whose counters are about to wrap around, holding three bytes. *)
Definition demo_pipe : pworld :=
  mkpworld (mkpipe ([9] ++ replicate 509 0 ++ [7; 8]) 4294967294 1 1 1) 0.

Lemma demo_pipe_ok : pipe_ok (the_pipe demo_pipe).
Proof. split; vm_compute; intuition congruence. Qed.

(** A reader that takes one byte, a writer that adds one. *)
Definition demo_reader (w : pworld) : pworld :=
  if decide (0 < count (the_pipe w)) then w <| the_pipe ::= get1 |> else w.
Definition demo_writer (w : pworld) : pworld :=
  if decide (count (the_pipe w) < 512) then w <| the_pipe ::= put 5 |> else w.

Lemma demo_reader_ok : reader demo_reader.
Proof.
  intros w Hw. unfold demo_reader. case_decide as Hc; [|split; [done|by exists 0%nat]].
  destruct (content_get1 _ Hw Hc) as (b & _ & Hb & Hok). split; [done|].
  exists 1%nat. by rewrite Hb.
Qed.

Lemma demo_writer_ok : writer demo_writer.
Proof.
  intros w Hw. unfold demo_writer.
  case_decide as Hc; [|split; [done|exists []; by rewrite app_nil_r]].
  destruct (content_put 5 _ Hw Hc) as [Hcont Hok]. split; [done|]. by exists [5].
Qed.

Lemma pipewrite_fifo_witness :
  match pipewrite 77 [1; 2] [demo_reader] (Ctx [] []) demo_pipe with
  | Ok r c' w' =>
      held c' = [] /\ pipe_ok (the_pipe w') /\
      exists j, (j <= 2)%nat /\
        written (content (the_pipe demo_pipe)) [1; 2] (content (the_pipe w')) j /\
        (r = 2 /\ j = 2%nat \/ r = -1)
  | Blocked ch lk c' w' =>
      ch = Cnwrite 77 /\ lk = Lpipe 77 /\ pipe_ok (the_pipe w') /\ full_open w' /\
      last (trace c') = Some (Ewakeup (Cnread 77)) /\
      exists j, (j < 2)%nat /\
        written (content (the_pipe demo_pipe)) [1; 2] (content (the_pipe w')) j
  | _ => False
  end.
Proof.
  apply (pipewrite_fifo 77 [1; 2] [demo_reader] [] demo_pipe); [apply demo_pipe_ok|].
  constructor; [apply demo_reader_ok|constructor].
Defined.

Lemma piperead_fifo_witness :
  match piperead 77 2 [demo_writer] (Ctx [] []) demo_pipe with
  | Ok (r, bs) c' w' =>
      held c' = [] /\ pipe_ok (the_pipe w') /\
      ((r = Z.of_nat (length bs) /\
        (exists xs, bs ++ content (the_pipe w') = content (the_pipe demo_pipe) ++ xs /\
           length bs = min (Z.to_nat 2) (length (content (the_pipe demo_pipe) ++ xs))) /\
        (bs = [] -> 2 <= 0 \/ writeopen (the_pipe w') = 0)) \/
       (r = -1 /\ bs = [] /\ my_killed w' <> 0))
  | Blocked ch lk c' w' =>
      ch = Cnread 77 /\ lk = Lpipe 77 /\ content (the_pipe w') = [] /\
      writeopen (the_pipe w') <> 0
  | _ => False
  end.
Proof.
  apply (piperead_fifo 77 2 [demo_writer] [] demo_pipe); [apply demo_pipe_ok|].
  constructor; [apply demo_writer_ok|constructor].
Defined.

(** The wrapped-around pipe holds its bytes in order. *)
Example demo_pipe_content : content (the_pipe demo_pipe) = [7; 8; 9].
Proof. reflexivity. Qed.
