(* ===== verification/Vm.v ===== *)
(** * Virtual memory (src/vm.c)

    Page directories and page tables are pages of 1024 words in the physical
    memory of Kalloc.v, user memory is pages of 4096 bytes.  A [pte_t *] is a
    page address and an index.  The state of every operation is the allocator's,
    because allocating, freeing and writing pages all change it. *)

From stdpp Require Import prelude gmap strings list.
From Stdlib Require Import ZArith Lia.
From S2P Require Import Prelude Mmu Strings Kalloc.

Section Vm.
(** The linker symbols [end] and [data]. *)
Context (kend kdata : Z).
Abbreviation V := (M kmem).

(** ** Physical memory access *)

Definition rdw (p i : Z) : V Z :=
  k ← getS; match pages k !! p with Some (Words ws) => rd ws i | _ => undef end.

Definition wrw (p i v : Z) : V unit :=
  k ← getS;
  match pages k !! p with
  | Some (Words ws) => ws' ← wr ws i v; modS (fun k => k <| pages ::= <[p := Words ws']> |>)
  | _ => undef
  end.

Definition rdbytes (p : Z) : V (list Z) :=
  k ← getS; match pages k !! p with Some (Bytes bs) => mret bs | _ => undef end.

Definition setpage (p : Z) (pg : page) : V unit :=
  modS (fun k => k <| pages ::= <[p := pg]> |>).

(** [memset(p, 0, PGSIZE)] of a page used as a table, and of user memory. *)
Definition zero_table : page := Words (replicate 1024 0).
Definition zero_bytes : page := Bytes (replicate 4096 0).

(** ** Page tables *)

Definition present (pte : Z) : bool := negb (Z.land pte PTE_P =? 0).

Definition walkpgdir (pgdir va : Z) (alloc : bool) : V (option (Z * Z)) :=
  pde ← rdw pgdir (PDX va);
  if present pde then mret (Some (P2V (PTE_ADDR pde), PTX va))
  else if negb alloc then mret None
  else
    pgtab ← kalloc;
    if pgtab =? 0 then mret None else
    setpage pgtab zero_table ;;
    wrw pgdir (PDX va) (Z.lor (Z.lor (Z.lor (V2P pgtab) PTE_P) PTE_W) PTE_U) ;;
    mret (Some (pgtab, PTX va)).

(** The loop of mappages() from page [a] to page [last]. *)
Fixpoint map_loop (fuel : nat) (pgdir a last pa perm : Z) : V Z :=
  match fuel with
  | O => nofuel
  | S fuel' =>
      o ← walkpgdir pgdir a true;
      match o with
      | None => mret (-1)
      | Some (t, i) =>
          pte ← rdw t i;
          if present pte then panic "remap" else
          wrw t i (Z.lor (Z.lor pa perm) PTE_P) ;;
          if a =? last then mret 0
          else map_loop fuel' pgdir (u32 (a + PGSIZE)) last (u32 (pa + PGSIZE)) perm
      end
  end.

Definition mappages (pgdir va size pa perm : Z) : V Z :=
  let a := PGROUNDDOWN va in
  let last := PGROUNDDOWN (u32 (va + size - 1)) in
  map_loop (S (Z.to_nat (u32 (last - a) / PGSIZE))) pgdir a last pa perm.

(** deallocuvm()'s loop. *)
Fixpoint dealloc_loop (fuel : nat) (pgdir a oldsz : Z) : V unit :=
  match fuel with
  | O => nofuel
  | S fuel' =>
      if a <? oldsz then
        o ← walkpgdir pgdir a false;
        match o with
        | None =>
            dealloc_loop fuel' pgdir
              (u32 (u32 (PGADDR (PDX a + 1) 0 0 - PGSIZE) + PGSIZE)) oldsz
        | Some (t, i) =>
            pte ← rdw t i;
            (if present pte then
               let pa := PTE_ADDR pte in
               if pa =? 0 then panic "kfree" else
               kfree kend (P2V pa) ;; wrw t i 0
             else mret tt) ;;
            dealloc_loop fuel' pgdir (u32 (a + PGSIZE)) oldsz
        end
      else mret tt
  end.

Definition deallocuvm (pgdir oldsz newsz : Z) : V Z :=
  if oldsz <=? newsz then mret oldsz else
  dealloc_loop (S (Z.to_nat (oldsz / PGSIZE + 1))) pgdir (PGROUNDUP newsz) oldsz ;;
  mret newsz.

Fixpoint free_tables (pgdir : Z) (i : nat) (n : nat) : V unit :=
  match n with
  | O => mret tt
  | S n' =>
      pde ← rdw pgdir (Z.of_nat i);
      (if present pde then kfree kend (P2V (PTE_ADDR pde)) else mret tt) ;;
      free_tables pgdir (S i) n'
  end.

Definition freevm (pgdir : Z) : V unit :=
  if pgdir =? 0 then panic "freevm: no pgdir" else
  deallocuvm pgdir KERNBASE 0 ;;
  free_tables pgdir 0 NPDENTRIES ;;
  kfree kend pgdir.

(** ** The kernel part *)

Record kmap_entry := mkkmap { virt : Z; phys_start : Z; phys_end : Z; kperm : Z }.

Definition kmap : list kmap_entry :=
  [ mkkmap KERNBASE 0 EXTMEM PTE_W;
    mkkmap KERNLINK (V2P KERNLINK) (V2P kdata) 0;
    mkkmap kdata (V2P kdata) PHYSTOP PTE_W;
    mkkmap DEVSPACE DEVSPACE 0 PTE_W ].

Fixpoint map_kernel (pgdir : Z) (ks : list kmap_entry) : V Z :=
  match ks with
  | [] => mret pgdir
  | k :: ks' =>
      r ← mappages pgdir (virt k) (u32 (phys_end k - phys_start k)) (phys_start k) (kperm k);
      if r <? 0 then freevm pgdir ;; mret 0 else map_kernel pgdir ks'
  end.

Definition setupkvm : V Z :=
  pgdir ← kalloc;
  if pgdir =? 0 then mret 0 else
  setpage pgdir zero_table ;;
  if DEVSPACE <? P2V PHYSTOP then panic "PHYSTOP too high" else
  map_kernel pgdir kmap.

Definition switchkvm (kpgdir : Z) : V unit := emit (Elcr3 (V2P kpgdir)).

(** The result is the new value of the global kpgdir. *)
Definition kvmalloc : V Z :=
  kpgdir ← setupkvm; switchkvm kpgdir ;; mret kpgdir.

(** [p] is the process's (kstack, pgdir), or the null pointer. *)
Definition switchuvm (p : option (Z * Z)) : V unit :=
  match p with
  | None => panic "switchuvm: no process"
  | Some (kstack, pgdir) =>
      if kstack =? 0 then panic "switchuvm: no kstack" else
      if pgdir =? 0 then panic "switchuvm: no pgdir" else
      emit (Eltr (Z.shiftl SEG_KDATA 3) (u32 (kstack + KSTACKSIZE)) 65535) ;;
      emit (Elcr3 (V2P pgdir))
  end.

(** ** User memory *)

(** The memory is not checked: memset() through a null pointer. *)
Definition inituvm (pgdir : Z) (init : list Z) : V unit :=
  let sz := Z.of_nat (length init) in
  if PGSIZE <=? sz then panic "inituvm: more than a page" else
  mem ← kalloc;
  if mem =? 0 then undef else
  setpage mem zero_bytes ;;
  mappages pgdir 0 PGSIZE (V2P mem) (Z.lor PTE_W PTE_U) ;;
  bs ← rdbytes mem;
  setpage mem (Bytes (init ++ drop (length init) bs)).

Fixpoint alloc_loop (fuel : nat) (pgdir a oldsz newsz : Z) : V Z :=
  match fuel with
  | O => nofuel
  | S fuel' =>
      if a <? newsz then
        mem ← kalloc;
        if mem =? 0 then
          cprintf "allocuvm out of memory\n" [] ;; deallocuvm pgdir newsz oldsz ;; mret 0
        else
          setpage mem zero_bytes ;;
          r ← mappages pgdir a PGSIZE (V2P mem) (Z.lor PTE_W PTE_U);
          if r <? 0 then
            cprintf "allocuvm out of memory (2)\n" [] ;; deallocuvm pgdir newsz oldsz ;;
            kfree kend mem ;; mret 0
          else alloc_loop fuel' pgdir (u32 (a + PGSIZE)) oldsz newsz
      else mret newsz
  end.

Definition allocuvm (pgdir oldsz newsz : Z) : V Z :=
  if KERNBASE <=? newsz then mret 0 else
  if newsz <? oldsz then mret oldsz else
  alloc_loop (S (Z.to_nat (newsz / PGSIZE + 1))) pgdir (PGROUNDUP oldsz) oldsz newsz.

Definition clearpteu (pgdir uva : Z) : V unit :=
  o ← walkpgdir pgdir uva false;
  match o with
  | None => panic "clearpteu"
  | Some (t, i) => pte ← rdw t i; wrw t i (Z.land pte (Z.lnot PTE_U))
  end.

Fixpoint copy_loop (fuel : nat) (pgdir d i sz : Z) : V Z :=
  match fuel with
  | O => nofuel
  | S fuel' =>
      if i <? sz then
        o ← walkpgdir pgdir i false;
        match o with
        | None => panic "copyuvm: pte should exist"
        | Some (t, idx) =>
            pte ← rdw t idx;
            if negb (present pte) then panic "copyuvm: page not present" else
            let pa := PTE_ADDR pte in
            let flags := PTE_FLAGS pte in
            mem ← kalloc;
            if mem =? 0 then freevm d ;; mret 0 else
            bs ← rdbytes (P2V pa);
            setpage mem (Bytes bs) ;;
            r ← mappages d i PGSIZE (V2P mem) flags;
            if r <? 0 then kfree kend mem ;; freevm d ;; mret 0
            else copy_loop fuel' pgdir d (u32 (i + PGSIZE)) sz
        end
      else mret d
  end.

Definition copyuvm (pgdir sz : Z) : V Z :=
  d ← setupkvm;
  if d =? 0 then mret 0 else copy_loop (S (Z.to_nat (sz / PGSIZE + 1))) pgdir d 0 sz.

(** A null [pte] is dereferenced. *)
Definition uva2ka (pgdir uva : Z) : V Z :=
  o ← walkpgdir pgdir uva false;
  match o with
  | None => undef
  | Some (t, i) =>
      pte ← rdw t i;
      if negb (present pte) then mret 0
      else if Z.land pte PTE_U =? 0 then mret 0
      else mret (P2V (PTE_ADDR pte))
  end.

(** [buf] are the bytes still to be copied. *)
Fixpoint copyout_loop (fuel : nat) (pgdir va : Z) (buf : list Z) : V Z :=
  match fuel with
  | O => nofuel
  | S fuel' =>
      match buf with
      | [] => mret 0
      | _ =>
          let va0 := PGROUNDDOWN va in
          pa0 ← uva2ka pgdir va0;
          if pa0 =? 0 then mret (-1) else
          let off := Z.to_nat (va - va0) in
          let n := min (4096 - off) (length buf) in
          bs ← rdbytes pa0;
          setpage pa0 (Bytes (take off bs ++ take n buf ++ drop (off + n) bs)) ;;
          copyout_loop fuel' pgdir (u32 (va0 + PGSIZE)) (drop n buf)
      end
  end.

Definition copyout (pgdir va : Z) (buf : list Z) : V Z :=
  copyout_loop (S (S (length buf))) pgdir va buf.
End Vm.
