(* ===== verification/VmSpec.v ===== *)
(** * What the page table operations do (src/vm.c)

    [pte_at k d va] is the page table entry of [va] in the page directory [d],
    0 when there is no page table for it.  Mapping and unmapping change that
    function at the intended addresses only, and keep the tree of tables and
    the free list disjoint. *)

From stdpp Require Import prelude gmap strings list.
From Stdlib Require Import ZArith Lia.
From S2P Require Import Prelude Mmu Strings Kalloc Vm.

(** The table a directory entry points to. *)
Definition tbl (pde : Z) : Z := P2V (PTE_ADDR pde).

Definition table_at (k : kmem) (p : Z) (ws : list Z) : Prop :=
  pages k !! p = Some (Words ws) /\ length ws = 1024%nat.

Record ptree (k : kmem) (d : Z) (ws : list Z) : Prop := {
  pt_dir : table_at k d ws;
  pt_tables : forall i pde, aget ws i = Some pde -> present pde = true ->
    exists ts, table_at k (tbl pde) ts;
  pt_not_dir : forall i pde, aget ws i = Some pde -> present pde = true -> tbl pde <> d;
  pt_distinct : forall i j pde pde', aget ws i = Some pde -> aget ws j = Some pde' ->
    present pde = true -> present pde' = true -> tbl pde = tbl pde' -> i = j;
}.

Definition word_at (k : kmem) (p i : Z) : Z :=
  match pages k !! p with
  | Some (Words ws) => default 0 (aget ws i)
  | _ => 0
  end.

Definition pte_at (k : kmem) (d va : Z) : Z :=
  let pde := word_at k d (PDX va) in
  if present pde then word_at k (tbl pde) (PTX va) else 0.

Lemma table_word k p ws i :
  table_at k p ws -> 0 <= i < 1024 -> aget ws i = Some (word_at k p i).
Proof.
  intros [Hp Hlen] Hi. unfold word_at. rewrite Hp.
  unfold aget. destruct (Z.ltb_spec i 0); [lia|].
  destruct (lookup_lt_is_Some_2 ws (Z.to_nat i)) as [w Hw]; [lia|]. by rewrite Hw.
Qed.

Lemma rdw_run k p ws i c :
  table_at k p ws -> 0 <= i < 1024 -> rdw p i c k = Ok (word_at k p i) c k.
Proof.
  intros Ht Hi. unfold rdw. mrun. destruct Ht as [Hp Hlen]. rewrite Hp. unfold rd.
  rewrite (table_word k p ws) by done. done.
Qed.

Definition setword (p i v : Z) (ws : list Z) (k : kmem) : kmem :=
  k <| pages ::= <[p := Words (<[Z.to_nat i := v]> ws)]> |>.

Lemma wrw_run k p ws i v c :
  table_at k p ws -> 0 <= i < 1024 -> wrw p i v c k = Ok tt c (setword p i v ws k).
Proof.
  intros [Hp Hlen] Hi. unfold wrw, wr. mrun. rewrite Hp, aset_in by lia. mrun. done.
Qed.

Lemma word_setword k p ws i v p' i' :
  table_at k p ws -> 0 <= i < 1024 -> 0 <= i' ->
  word_at (setword p i v ws k) p' i' =
  if decide (p' = p /\ i' = i) then v else word_at k p' i'.
Proof.
  intros [Hp Hlen] Hi Hi'. unfold word_at, setword. simpl.
  destruct (decide (p' = p)) as [->|Hne].
  - rewrite lookup_insert_eq, Hp. unfold aget. destruct (Z.ltb_spec i' 0); [lia|].
    case_decide as Hd.
    + destruct Hd as [_ ->]. by rewrite list_lookup_insert_eq by lia.
    + rewrite list_lookup_insert_ne; [done|]. intros Heq. apply Hd. split; [done|lia].
  - rewrite lookup_insert_ne by done. rewrite decide_False by tauto. done.
Qed.

Lemma table_setword k p ws i v p' ws' :
  table_at k p ws -> table_at k p' ws' ->
  table_at (setword p i v ws k) p' (if decide (p' = p) then <[Z.to_nat i := v]> ws else ws').
Proof.
  intros [Hp Hlen] [Hp' Hlen']. unfold table_at, setword. simpl. case_decide as Hd.
  - subst. by rewrite lookup_insert_eq, length_insert.
  - by rewrite lookup_insert_ne.
Qed.

(** ** Entries *)

Lemma present_flags x fl : Z.testbit fl 0 = true -> present (Z.lor x fl) = true.
Proof.
  intros Hfl. unfold present, PTE_P. destruct (Z.eqb_spec (Z.land (Z.lor x fl) 1) 0) as [H0|]; [|done].
  assert (Hb : Z.testbit (Z.land (Z.lor x fl) 1) 0 = true)
    by (by rewrite Z.land_spec, Z.lor_spec, Hfl, orb_true_r).
  by rewrite H0 in Hb.
Qed.

Section Spec.
Context (kend kdata : Z).
Context (kend_low : KERNBASE < kend).

(** A physical page as the allocator hands it out. *)
Lemma good_page_facts p :
  good_page kend p ->
  p mod 4096 = 0 /\ 0 <= V2P p < PHYSTOP /\ V2P p mod 4096 = 0 /\ P2V (V2P p) = p.
Proof.
  intros [Hok Hr]. unfold kfree_ok in Hok. apply andb_prop in Hok as [Hok H3].
  apply andb_prop in Hok as [H1 H2]. unfold PGSIZE in *.
  assert (Hm : p mod 4096 = 0) by lia. split; [done|].
  unfold V2P, KERNBASE in *. rewrite u32_small in * by lia. split; [lia|]. split.
  - by rewrite <- (Zminus_mod_idemp_r p 2147483648), Z.sub_0_r.
  - rewrite <- (u32_small (p - 2147483648)) by lia. apply P2V_V2P. lia.
Qed.

Definition user_pde (p : Z) : Z := Z.lor (Z.lor (Z.lor (V2P p) PTE_P) PTE_W) PTE_U.

Lemma user_pde_facts p :
  good_page kend p -> present (user_pde p) = true /\ tbl (user_pde p) = p.
Proof.
  intros Hp. destruct (good_page_facts p Hp) as (_ & Hr & Hm & Hback).
  assert (He : user_pde p = Z.lor (V2P p) 7) by (unfold user_pde; by rewrite <- !Z.lor_assoc).
  rewrite He. split; [by apply present_flags|]. unfold tbl.
  destruct (PTE_ADDR_or (V2P p) 7) as [-> _]; [unfold PHYSTOP in Hr; lia|done|lia|done].
Qed.

(** ** walkpgdir *)

Lemma walk_present k d ws va alloc c :
  ptree k d ws -> present (word_at k d (PDX va)) = true ->
  walkpgdir d va alloc c k = Ok (Some (tbl (word_at k d (PDX va)), PTX va)) c k.
Proof.
  intros Ht Hp. unfold walkpgdir.
  rewrite bindE, (rdw_run k d ws) by (apply Ht || apply PDX_range). cbn [obind].
  by rewrite Hp.
Qed.

Lemma walk_absent k d ws va c :
  ptree k d ws -> present (word_at k d (PDX va)) = false ->
  walkpgdir d va false c k = Ok None c k.
Proof.
  intros Ht Hp. unfold walkpgdir.
  rewrite bindE, (rdw_run k d ws) by (apply Ht || apply PDX_range). cbn [obind].
  by rewrite Hp.
Qed.

(** Adding the fresh page [p] as the table for [va]. *)
Definition grown (k : kmem) (d : Z) (ws : list Z) (va p next : Z) : kmem :=
  setword d (PDX va) (user_pde p) ws
    (k <| freelist := next |> <| pages ::= <[p := zero_table]> |>).

Lemma pages_grown k d ws va p next :
  pages (grown k d ws va p next) =
  <[d := Words (<[Z.to_nat (PDX va) := user_pde p]> ws)]> (<[p := zero_table]> (pages k)).
Proof. done. Qed.

Lemma grown_tree k d ws va p next :
  ptree k d ws -> good_page kend p -> (exists n, pages k !! p = Some (Run n)) ->
  present (word_at k d (PDX va)) = false ->
  ptree (grown k d ws va p next) d (<[Z.to_nat (PDX va) := user_pde p]> ws) /\
  (forall va', pte_at (grown k d ws va p next) d va' = pte_at k d va') /\
  word_at (grown k d ws va p next) d (PDX va) = user_pde p /\
  (forall q pg, pages k !! q = Some pg -> (forall n, pg <> Run n) -> q <> d ->
     pages (grown k d ws va p next) !! q = Some pg).
Proof.
  intros Ht Hgood [n Hrun] Habs. destruct (user_pde_facts p Hgood) as [Hpres Htbl].
  pose proof (PDX_range va) as HPX. pose proof Ht as [[Hd Hlen] Htabs Hnd Hdist].
  assert (Hpd : p <> d) by (intros ->; congruence).
  set (k1 := k <| freelist := next |> <| pages ::= <[p := zero_table]> |>).
  assert (Hd1 : table_at k1 d ws) by (split; [simpl; by rewrite lookup_insert_ne|done]).
  assert (Hkeep : forall q ts, table_at k q ts -> q <> p /\ table_at k1 q ts).
  { intros q ts [Hq Hl]. assert (q <> p) by (intros ->; congruence). split; [done|].
    split; [simpl; by rewrite lookup_insert_ne|done]. }
  assert (Hold : forall i pde, aget ws i = Some pde -> present pde = true -> tbl pde <> p).
  { intros i pde Hi Hpp. destruct (Htabs i pde Hi Hpp) as [ts Hts]. by apply (Hkeep _ ts). }
  assert (Hw : forall i, 0 <= i -> word_at (grown k d ws va p next) d i =
    if decide (i = PDX va) then user_pde p else word_at k d i).
  { intros i Hi. unfold grown. fold k1. rewrite word_setword by done.
    destruct (decide (i = PDX va)) as [->|Hne]; [by rewrite decide_True|].
    rewrite decide_False by tauto. unfold word_at. simpl. by rewrite lookup_insert_ne. }
  assert (Hget : forall i pde, aget (<[Z.to_nat (PDX va) := user_pde p]> ws) i = Some pde ->
    present pde = true -> (i = PDX va /\ pde = user_pde p) \/ (i <> PDX va /\ aget ws i = Some pde)).
  { intros i pde. unfold aget. destruct (Z.ltb_spec i 0); [done|].
    intros [[Hi ->]|[Hi Hl]]%lookup_seq_insert _; [left; split; [lia|done]|right; split; [lia|done]]. }
  split_and!.
  - split.
    + unfold grown. fold k1. pose proof (table_setword k1 d ws (PDX va) (user_pde p) d ws Hd1 Hd1) as Hx.
      by rewrite decide_True in Hx.
    + intros i pde Hi Hpp. destruct (Hget i pde Hi Hpp) as [[-> ->]|[Hne Hi']].
      * rewrite Htbl. exists (replicate 1024 0). split; [|done]. rewrite pages_grown.
        rewrite lookup_insert_ne by done. apply lookup_insert_eq.
      * destruct (Htabs i pde Hi' Hpp) as [ts Hts]. exists ts.
        destruct (Hkeep _ _ Hts) as [_ [Hq Hl]]. split; [|done]. rewrite pages_grown.
        rewrite lookup_insert_ne by (by apply not_eq_sym, (Hnd i pde)). exact Hq.
    + intros i pde Hi Hpp. destruct (Hget i pde Hi Hpp) as [[-> ->]|[Hne Hi']];
        [by rewrite Htbl|by eapply Hnd].
    + intros i j pde pde' Hi Hj Hpp Hpp' Heq.
      destruct (Hget i pde Hi Hpp) as [[-> ->]|[Hne Hi']], (Hget j pde' Hj Hpp') as [[-> ->]|[Hne' Hj']].
      * done.
      * rewrite Htbl in Heq. by destruct (Hold j pde' Hj' Hpp').
      * rewrite Htbl in Heq. by destruct (Hold i pde Hi' Hpp).
      * by eapply Hdist.
  - intros va'. unfold pte_at. rewrite Hw by apply PDX_range.
    destruct (decide (PDX va' = PDX va)) as [He|Hne].
    + rewrite Hpres, He, Habs, Htbl. unfold word_at. rewrite pages_grown.
      rewrite lookup_insert_ne, lookup_insert_eq by done. unfold zero_table.
      pose proof (PTX_range va'). unfold aget. destruct (Z.ltb_spec (PTX va') 0); [lia|].
      by rewrite lookup_replicate_2 by lia.
    + destruct (present (word_at k d (PDX va'))) eqn:Hpp; [|done].
      assert (Hi : aget ws (PDX va') = Some (word_at k d (PDX va')))
        by (apply table_word; [done|apply PDX_range]).
      unfold word_at at 1 3. rewrite pages_grown.
      rewrite !lookup_insert_ne; [done|by apply not_eq_sym, (Hold _ _ Hi)|by apply not_eq_sym, (Hnd _ _ Hi)].
  - rewrite Hw by lia. by rewrite decide_True.
  - intros q pg Hq Hpg Hqd. rewrite pages_grown.
    rewrite !lookup_insert_ne; [done| |done]. intros ->. rewrite Hrun in Hq.
    injection Hq as <-. by apply (Hpg n).
Qed.

(** Pages that hold user data stay as they are, and tables stay tables. *)
Definition data_kept (k k' : kmem) : Prop :=
  (forall q bs, pages k !! q = Some (Bytes bs) -> pages k' !! q = Some (Bytes bs)) /\
  (forall q ws, pages k !! q = Some (Words ws) -> exists ws', pages k' !! q = Some (Words ws')).

#[global] Instance data_kept_preorder : PreOrder data_kept.
Proof.
  split.
  - intros k. split; [done|]. intros q ws Hq. by exists ws.
  - intros k1 k2 k3 [Hb1 Hw1] [Hb2 Hw2]. split; [by auto|].
    intros q ws Hq. destruct (Hw1 q ws Hq) as [ws' Hq']. by eapply Hw2.
Qed.

(** The pages that have left the free list [fl] for [fl'] are tables. *)
Definition tables_from (fl : list Z) (k' : kmem) (fl' : list Z) : Prop :=
  (forall p, p ∈ fl' -> p ∈ fl) /\
  (forall p, p ∈ fl -> p ∈ fl' \/ exists ws, pages k' !! p = Some (Words ws)).

Lemma tables_from_refl fl k' : tables_from fl k' fl.
Proof. split; [done|]. by left. Qed.

Lemma tables_from_trans fl1 k2 fl2 k3 fl3 :
  tables_from fl1 k2 fl2 -> data_kept k2 k3 -> tables_from fl2 k3 fl3 ->
  tables_from fl1 k3 fl3.
Proof.
  intros [Hs12 H12] [_ Hw] [Hs23 H23]. split; [by auto|]. intros p Hp.
  destruct (H12 p Hp) as [Hp2|[ws Hws]]; [by apply H23|]. right. by eapply Hw.
Qed.

(** The allocator and one page table tree in a kernel context. *)
Record vmok (k : kmem) (d : Z) (fl : list Z) (h : list lockid) : Prop := {
  vm_kinv : kinv kend k fl;
  vm_lock : lock_free k h;
  vm_tree : exists ws, ptree k d ws;
}.

(** walkpgdir() with [alloc]: the entry exists afterwards, no translation has
    changed, and at most one page left the free list. *)
Lemma walk_alloc k d fl h t va :
  vmok k d fl h ->
  (fl = [] /\ walkpgdir d va true (Ctx h t) k = Ok None (Ctx h t) k) \/
  exists k' fl', walkpgdir d va true (Ctx h t) k =
      Ok (Some (tbl (word_at k' d (PDX va)), PTX va)) (Ctx h t) k' /\
    present (word_at k' d (PDX va)) = true /\ vmok k' d fl' h /\
    (forall va', pte_at k' d va' = pte_at k d va') /\ data_kept k k' /\
    tables_from fl k' fl'.
Proof.
  intros [Hk Hl [ws Ht]]. destruct (present (word_at k d (PDX va))) eqn:Hp.
  { right. exists k, fl. rewrite (walk_present _ _ ws) by done.
    split_and!; try done; [by split; [..|exists ws]|apply tables_from_refl]. }
  destruct fl as [|p fl]; [left|right].
  - split; [done|]. unfold walkpgdir.
    rewrite bindE, (rdw_run k d ws) by (apply Ht || apply PDX_range). cbn [obind].
    rewrite Hp. cbn [negb]. by rewrite bindE, (kalloc_empty kend).
  - destruct (kalloc_cons kend k p fl h t Hk Hl) as (next & Hrun & Hk').
    pose proof (kinv_good _ _ _ Hk) as [Hgood _]%Forall_cons.
    pose proof (kinv_nodup _ _ _ Hk) as [Hnin _]%NoDup_cons.
    assert (Hr : exists n, pages k !! p = Some (Run n))
      by (eapply chain_Run; [apply Hk|apply elem_of_cons; by left]).
    destruct (grown_tree k d ws va p next Ht Hgood Hr Hp) as (Ht' & Hpte & Hw & Hkeep).
    assert (Hd : table_at (k <| freelist := next |> <| pages ::= <[p := zero_table]> |>) d ws).
    { destruct Ht as [[Hd Hlen] _ _ _]. split; [|done]. destruct Hr as [n Hr]. change (pages _) with (<[p := zero_table]> (pages k)).
      rewrite lookup_insert_ne; [done|]. intros ->. congruence. }
    exists (grown k d ws va p next), fl. rewrite Hw.
    destruct (user_pde_facts p Hgood) as [-> Htbl]. rewrite Htbl. split_and!; try done.
    + unfold walkpgdir.
      rewrite bindE, (rdw_run k d ws) by (apply Ht || apply PDX_range). cbn [obind].
      rewrite Hp. cbn [negb]. rewrite bindE, Hrun. cbn [obind].
      assert (Hp0 : (p =? 0) = false) by (destruct Hgood; lia). rewrite Hp0.
      unfold setpage. rewrite bindE. unfold modS at 1. cbn [obind].
      by rewrite bindE, (wrw_run _ d ws) by (exact Hd || apply PDX_range).
    + split; [|exact Hl|by eexists]. unfold grown, setword. apply kinv_write.
      * by apply kinv_write.
      * eapply (kinv_not_free kend _ fl d (Words ws)); [by apply kinv_write|apply Hd|done].
    + destruct Ht as [[Hd' _] _ _ _]. split; intros q ps Hq.
      * apply Hkeep; try done. intros ->. congruence.
      * destruct (decide (q = d)) as [->|Hqd].
        -- eexists. rewrite pages_grown. apply lookup_insert_eq.
        -- exists ps. by apply Hkeep.
    + split; [intros q Hq; apply elem_of_cons; by right|].
      intros q [->|Hq]%elem_of_cons; [right|by left]. exists (replicate 1024 0).
      rewrite pages_grown, lookup_insert_ne, lookup_insert_eq; [done|]. intros ->.
      destruct Ht as [[Hd' _] _ _ _], Hr. congruence.
Qed.

Lemma pte_read k d fl h va c :
  vmok k d fl h -> present (word_at k d (PDX va)) = true ->
  rdw (tbl (word_at k d (PDX va))) (PTX va) c k = Ok (pte_at k d va) c k.
Proof.
  intros [_ _ [ws Ht]] Hp. destruct (pt_tables _ _ _ Ht (PDX va) (word_at k d (PDX va))) as [ts Hts];
    [apply table_word; [apply Ht|apply PDX_range]|done|].
  rewrite (rdw_run k _ ts) by (done || apply PTX_range). unfold pte_at. by rewrite Hp.
Qed.

(** Writing the entry of [va] changes the translation of its page only. *)
Lemma pte_write k d fl h va v c :
  vmok k d fl h -> present (word_at k d (PDX va)) = true ->
  exists k', wrw (tbl (word_at k d (PDX va))) (PTX va) v c k = Ok tt c k' /\
    vmok k' d fl h /\ data_kept k k' /\
    (forall q, q <> tbl (word_at k d (PDX va)) -> pages k' !! q = pages k !! q) /\
    (exists ts, pages k' !! tbl (word_at k d (PDX va)) = Some (Words ts)) /\
    forall va', pte_at k' d va' =
      if decide (PGROUNDDOWN va' = PGROUNDDOWN va) then v else pte_at k d va'.
Proof.
  intros [Hk Hl [ws Ht]] Hp. set (pde := word_at k d (PDX va)) in *.
  assert (Hpde : aget ws (PDX va) = Some pde) by (apply table_word; [apply Ht|apply PDX_range]).
  destruct (pt_tables _ _ _ Ht _ _ Hpde Hp) as [ts Hts].
  pose proof (pt_not_dir _ _ _ Ht _ _ Hpde Hp) as Hnd.
  exists (setword (tbl pde) (PTX va) v ts k).
  rewrite (wrw_run k _ ts) by (done || apply PTX_range).
  assert (Hdir : table_at (setword (tbl pde) (PTX va) v ts k) d ws).
  { pose proof (table_setword k (tbl pde) ts (PTX va) v d ws Hts (pt_dir _ _ _ Ht)) as Hx.
    by rewrite decide_False in Hx by done. }
  split_and!; try done.
  - split; [|exact Hl|].
    + unfold setword. apply kinv_write; [done|].
      eapply (kinv_not_free kend k fl (tbl pde) (Words ts)); [done|apply Hts|done].
    + exists ws. split; [done| |apply Ht|apply Ht]. intros i pde' Hi Hp'.
      destruct (pt_tables _ _ _ Ht _ _ Hi Hp') as [ts' Hts']. eexists. by apply table_setword.
  - destruct Hts as [Hts _]. unfold data_kept, setword. cbn. split; intros q ps Hq.
    + rewrite lookup_insert_ne; [done|]. intros <-. congruence.
    + destruct (decide (q = tbl pde)) as [->|Hqd].
      * eexists. apply lookup_insert_eq.
      * exists ps. by rewrite lookup_insert_ne.
  - intros q Hq. unfold setword. cbn. by rewrite lookup_insert_ne.
  - eexists. unfold setword. cbn. apply lookup_insert_eq.
  - intros va'. unfold pte_at. pose proof (PDX_range va'). pose proof (PTX_range va').
    assert (Hw : forall p i, 0 <= i -> word_at (setword (tbl pde) (PTX va) v ts k) p i =
      if decide (p = tbl pde /\ i = PTX va) then v else word_at k p i)
      by (intros; apply word_setword; [exact Hts|apply PTX_range|lia]).
    rewrite !Hw by lia. rewrite (decide_False (P := d = _ /\ _)) by (intros [? _]; congruence).
    destruct (decide (PGROUNDDOWN va' = PGROUNDDOWN va)) as [He|Hne].
    + apply same_page_same_entry in He as [He1 He2]. rewrite He1. fold pde. rewrite Hp.
      by rewrite decide_True.
    + destruct (present (word_at k d (PDX va'))) eqn:Hpp; [|done].
      rewrite decide_False; [done|]. intros [He1 He2]. apply Hne, same_entry_same_page; [|done].
      eapply (pt_distinct _ _ _ Ht); try done. apply table_word; [apply Ht|lia].
Qed.

(** ** mappages *)

(** [k'] translates the page of [a] to [v] and every other page as [k] does. *)
Definition remapped (k k' : kmem) (d a v : Z) : Prop :=
  forall va, pte_at k' d va =
    if decide (PGROUNDDOWN va = PGROUNDDOWN a) then v else pte_at k d va.

Lemma map_loop_step f k d fl h t a last pa perm :
  vmok k d fl h -> present (pte_at k d a) = false ->
  (fl = [] /\ map_loop (S f) d a last pa perm (Ctx h t) k = Ok (-1) (Ctx h t) k) \/
  exists k' fl', map_loop (S f) d a last pa perm (Ctx h t) k =
      (if a =? last then mret 0
       else map_loop f d (u32 (a + PGSIZE)) last (u32 (pa + PGSIZE)) perm) (Ctx h t) k' /\
    vmok k' d fl' h /\ data_kept k k' /\ tables_from fl k' fl' /\
    remapped k k' d a (Z.lor (Z.lor pa perm) PTE_P).
Proof.
  intros Hok Hp. cbn [map_loop].
  destruct (walk_alloc k d fl h t a Hok) as [[-> Hw]|(k1 & fl1 & Hw & Hp1 & Hok1 & Hpte & Hk1 & Hfl)].
  { left. split; [done|]. by rewrite bindE, Hw. }
  right. rewrite bindE, Hw. cbn [obind].
  rewrite bindE, (pte_read k1 d fl1 h) by done. cbn [obind]. rewrite Hpte, Hp.
  destruct (pte_write k1 d fl1 h a (Z.lor (Z.lor pa perm) PTE_P) (Ctx h t) Hok1 Hp1)
    as (k2 & Hw2 & Hok2 & Hk2 & _ & _ & Hpte2).
  exists k2, fl1. rewrite bindE, Hw2. cbn [obind]. split_and!; try done.
  - by transitivity k1.
  - apply (tables_from_trans _ k1 fl1); [done..|]. apply tables_from_refl.
  - intros va. by rewrite Hpte2, Hpte.
Qed.

(** An entry that is present stops the kernel. *)
Lemma map_remap f k d fl h c a last pa perm :
  vmok k d fl h -> present (pte_at k d a) = true ->
  map_loop (S f) d a last pa perm c k = Panic "remap".
Proof.
  intros Hok Hp. assert (Hpd : present (word_at k d (PDX a)) = true).
  { unfold pte_at in Hp. by destruct (present (word_at k d (PDX a))). }
  pose proof Hok as [_ _ [ws Ht]]. cbn [map_loop].
  rewrite bindE, (walk_present k d ws) by done. cbn [obind].
  rewrite bindE, (pte_read k d fl h) by done. cbn [obind]. by rewrite Hp.
Qed.

Lemma PGROUNDDOWN_aligned a : 0 <= a < 2 ^ 32 -> a mod 4096 = 0 -> PGROUNDDOWN a = a.
Proof.
  intros Ha Hm. rewrite PGROUNDDOWN_div, u32_small by done.
  pose proof (Z.div_mod a 4096). lia.
Qed.

Lemma PGROUNDDOWN_mult va : exists q, PGROUNDDOWN va = 4096 * q.
Proof. rewrite PGROUNDDOWN_div. exists (u32 va / 4096). lia. Qed.

(** [n] pages from [a] on are translated linearly from [pa] on. *)
Definition mapped (k k' : kmem) (d a pa perm n : Z) : Prop :=
  forall va, pte_at k' d va =
    if decide (a <= PGROUNDDOWN va < a + 4096 * n)
    then Z.lor (Z.lor (pa + (PGROUNDDOWN va - a)) perm) PTE_P else pte_at k d va.

Lemma mapped_cons k k1 k' d a pa perm n :
  0 <= a < 2 ^ 32 -> a mod 4096 = 0 -> 0 <= n ->
  remapped k k1 d a (Z.lor (Z.lor pa perm) PTE_P) ->
  mapped k1 k' d (a + 4096) (pa + 4096) perm n ->
  mapped k k' d a pa perm (1 + n).
Proof.
  intros Ha Hm Hn H1 H2 va. rewrite H2, H1, (PGROUNDDOWN_aligned a) by done.
  destruct (PGROUNDDOWN_mult va) as [q Hq].
  assert (exists r, a = 4096 * r) as [r Hr] by (exists (a / 4096); pose proof (Z.div_mod a 4096); lia).
  repeat case_decide; try done; try lia.
  - do 2 f_equal. lia.
  - replace (PGROUNDDOWN va - a) with 0 by lia. by rewrite Z.add_0_r.
Qed.

Lemma map_loop_run n k d fl h t a pa perm :
  vmok k d fl h -> 0 <= a -> a mod 4096 = 0 -> a + 4096 * Z.of_nat n < 2 ^ 32 ->
  0 <= pa -> pa + 4096 * Z.of_nat n < 2 ^ 32 ->
  (forall va, a <= PGROUNDDOWN va <= a + 4096 * Z.of_nat n -> present (pte_at k d va) = false) ->
  exists r j k' fl', map_loop (S n) d a (a + 4096 * Z.of_nat n) pa perm (Ctx h t) k =
      Ok r (Ctx h t) k' /\
    vmok k' d fl' h /\ data_kept k k' /\ tables_from fl k' fl' /\
    mapped k k' d a pa perm j /\
    ((r = 0 /\ j = Z.of_nat n + 1) \/ (r = -1 /\ 0 <= j <= Z.of_nat n /\ fl' = [])).
Proof.
  revert k fl a pa. induction n as [|n IH]; intros k fl a pa Hok Ha Hm Har Hpa Hpr Hnp.
  all: assert (Hda : PGROUNDDOWN a = a) by (apply PGROUNDDOWN_aligned; [lia|done]).
  all: match goal with |- context [map_loop (S ?f) _ _ ?l _ _] =>
    destruct (map_loop_step f k d fl h t a l pa perm Hok) as [[-> Hr]|(k1 & fl1 & Hr & Hok1 & Hk1 & Hfl1 & Hm1)];
    [apply Hnp; lia| |] end.
  1, 3: exists (-1), 0, k, []; rewrite Hr; split_and!; try done; [apply tables_from_refl|
    intros va; rewrite decide_False by lia; done|right; split_and!; lia || done].
  - exists 0, 1, k1, fl1. rewrite Hr. replace (a + 4096 * Z.of_nat 0) with a by lia.
    rewrite Z.eqb_refl. split_and!; try done; [|by left].
    apply (mapped_cons k k1 k1 d a pa perm 0); [lia|done..|].
    intros va. by rewrite decide_False by lia.
  - destruct (Z.eqb_spec a (a + 4096 * Z.of_nat (S n))); [lia|].
    unfold PGSIZE in Hr. rewrite !u32_small in Hr by lia.
    destruct (IH k1 fl1 (a + 4096) (pa + 4096) Hok1) as (r & j & k' & fl' & Hr' & Hok' & Hk' & Hfl' & Hm' & Hc);
      try lia.
    { by rewrite <- Zplus_mod_idemp_r, Z.add_0_r. }
    { intros va Hva. rewrite Hm1, decide_False by lia. apply Hnp. lia. }
    replace (a + 4096 * Z.of_nat (S n)) with (a + 4096 + 4096 * Z.of_nat n) in Hr |- * by lia.
    exists r, (1 + j), k', fl'. rewrite Hr, Hr'. split_and!; try done.
    + by transitivity k1.
    + by apply (tables_from_trans _ k1 fl1).
    + apply (mapped_cons k k1); try done; lia.
    + destruct Hc as [[-> ->]|(-> & Hj & ->)]; [left|right]; split_and!; lia || done.
Qed.

(** ** User memory *)

Lemma ptree_ext k k' d ws :
  ptree k d ws ->
  (forall q ts, pages k !! q = Some (Words ts) -> pages k' !! q = Some (Words ts)) ->
  ptree k' d ws /\ forall va, pte_at k' d va = pte_at k d va.
Proof.
  intros Ht Hq. split.
  - destruct Ht as [[Hd Hl] Htabs Hnd Hdist]. split; [by split; [apply Hq|]| |done|done].
    intros i pde Hi Hp. destruct (Htabs i pde Hi Hp) as [ts [Hts Hlt]]. exists ts. split; [by apply Hq|done].
  - intros va. unfold pte_at. pose proof Ht as [[Hd Hl] Htabs Hnd Hdist].
    assert (Hw : word_at k' d (PDX va) = word_at k d (PDX va))
      by (unfold word_at; by rewrite Hd, (Hq d ws)). rewrite Hw.
    destruct (present (word_at k d (PDX va))) eqn:Hp; [|done].
    destruct (Htabs (PDX va) (word_at k d (PDX va))) as [ts [Hts _]];
      [apply table_word; [apply Ht|apply PDX_range]|done|].
    unfold word_at at 1 3. by rewrite Hts, (Hq _ ts).
Qed.

Definition frame (k : kmem) (d va : Z) : Z := tbl (pte_at k d va).

(** Below KERNBASE every present page has a data page of its own. *)
Record uspace (k : kmem) (d : Z) : Prop := {
  us_page : forall va, 0 <= va < KERNBASE -> present (pte_at k d va) = true ->
    good_page kend (frame k d va) /\ exists bs, pages k !! frame k d va = Some (Bytes bs);
  us_inj : forall va va', 0 <= va < KERNBASE -> 0 <= va' < KERNBASE ->
    present (pte_at k d va) = true -> present (pte_at k d va') = true ->
    frame k d va = frame k d va' -> PGROUNDDOWN va = PGROUNDDOWN va';
}.

Definition vminv (k : kmem) (d : Z) (fl : list Z) (h : list lockid) : Prop :=
  vmok k d fl h /\ uspace k d.

Lemma kfreed_vmok k d fl h p bs :
  vmok k d fl h -> good_page kend p -> pages k !! p = Some (Bytes bs) ->
  vmok (kfreed p k) d (p :: fl) h /\ (forall va, pte_at (kfreed p k) d va = pte_at k d va).
Proof.
  intros [Hk Hl [ws Ht]] Hp Hb.
  destruct (ptree_ext k (kfreed p k) d ws Ht) as [Ht' Hpte].
  { intros q ts Hq. unfold kfreed. cbn. rewrite lookup_insert_ne; [done|]. congruence. }
  split; [|done]. split; [|exact Hl|by exists ws].
  apply kfree_inv; [done..|]. by eapply kinv_not_free.
Qed.

Lemma pte_present_pde k d va :
  present (pte_at k d va) = true -> present (word_at k d (PDX va)) = true.
Proof. unfold pte_at. by destruct (present (word_at k d (PDX va))). Qed.

Lemma PGROUNDDOWN_idem va : PGROUNDDOWN (PGROUNDDOWN va) = PGROUNDDOWN va.
Proof.
  destruct (PGROUNDDOWN_spec (u32 va)) as [Hm Hr]; [apply u32_range|].
  rewrite (PGROUNDDOWN_aligned (PGROUNDDOWN va)); [done| |by rewrite PGROUNDDOWN_div, Z.mod_mul].
  rewrite PGROUNDDOWN_div. pose proof (u32_range va).
  pose proof (Z.mul_div_le (u32 va) 4096). pose proof (Z.div_pos (u32 va) 4096). lia.
Qed.

Lemma pte_at_page k d va va' :
  PGROUNDDOWN va = PGROUNDDOWN va' -> pte_at k d va = pte_at k d va'.
Proof. unfold pte_at. by intros [-> ->]%same_page_same_entry. Qed.

(** The effect of unmapping and freeing the page of [a]. *)
Lemma dealloc_one k d fl h t a :
  vminv k d fl h -> 0 <= a < KERNBASE -> present (pte_at k d a) = true ->
  exists k', (kfree kend (frame k d a) ;; wrw (tbl (word_at k d (PDX a))) (PTX a) 0) (Ctx h t) k =
      Ok tt (Ctx h t) k' /\ vminv k' d (frame k d a :: fl) h /\ remapped k k' d a 0 /\
    (forall q bs, pages k !! q = Some (Bytes bs) -> q <> frame k d a ->
       pages k' !! q = Some (Bytes bs)) /\
    (forall q ws, pages k !! q = Some (Words ws) -> exists ws', pages k' !! q = Some (Words ws')).
Proof.
  intros [Hok Hus] Ha Hp. destruct (us_page _ _ Hus a Ha Hp) as [Hgood [bs Hbs]].
  set (f := frame k d a) in *.
  destruct (kfreed_vmok k d fl h f bs Hok Hgood Hbs) as [Hok1 Hpte1].
  assert (Hw1 : word_at (kfreed f k) d (PDX a) = word_at k d (PDX a)).
  { unfold word_at, kfreed. cbn. rewrite lookup_insert_ne; [done|]. intros ->.
    destruct (vm_tree _ _ _ _ Hok) as [ws [[Hd _] _ _ _]]. congruence. }
  destruct (pte_write (kfreed f k) d (f :: fl) h a 0 (Ctx h t) Hok1) as (k' & Hw & Hok' & Hk' & Hq & _ & Hpte');
    [rewrite Hw1; by apply pte_present_pde|].
  rewrite Hw1 in Hw. exists k'. rewrite bindE, kfree_run by (apply Hgood || apply Hok).
  cbn [obind]. rewrite Hw.
  assert (Hmap : remapped k k' d a 0) by (intros va; by rewrite Hpte', Hpte1).
  assert (Hb : forall q bs, pages k !! q = Some (Bytes bs) -> q <> f -> pages k' !! q = Some (Bytes bs)).
  { intros q bs' Hq' Hne. apply Hk'. unfold kfreed. cbn. by rewrite lookup_insert_ne. }
  split_and!; try done.
  - split; [done|].
    assert (Hback : forall va, present (pte_at k' d va) = true ->
      PGROUNDDOWN va <> PGROUNDDOWN a /\ pte_at k' d va = pte_at k d va).
    { intros va. rewrite Hmap. by case_decide. }
    split.
    + intros va Hva Hpp. destruct (Hback va Hpp) as [Hne He]. unfold frame. rewrite He in Hpp |- *.
      destruct (us_page _ _ Hus va Hva Hpp) as [Hg [bs' Hbs']]. split; [done|]. exists bs'.
      apply Hb; [done|]. intros Heq. apply Hne. by apply (us_inj _ _ Hus).
    + intros va va' Hva Hva' Hpp Hpp'. destruct (Hback va Hpp) as [_ He], (Hback va' Hpp') as [_ He'].
      unfold frame. rewrite He, He' in *. by apply (us_inj _ _ Hus).
  - intros q ws Hq'. apply Hk' with ws. unfold kfreed. cbn. rewrite lookup_insert_ne; [done|]. congruence.
Qed.

(** The pages of [a, b) are unmapped and their frames are on the free list. *)
Record unmapped (k : kmem) (fl : list Z) (k' : kmem) (fl' : list Z) (d a b : Z) : Prop := {
  un_pte : forall va, pte_at k' d va =
    if decide (a <= PGROUNDDOWN va < b /\ present (pte_at k d va) = true) then 0 else pte_at k d va;
  un_free : forall p, p ∈ fl' <-> p ∈ fl \/ exists va,
    a <= PGROUNDDOWN va < b /\ present (pte_at k d va) = true /\ frame k d va = p;
  un_data : forall q bs, pages k !! q = Some (Bytes bs) -> q ∉ fl' -> pages k' !! q = Some (Bytes bs);
  un_tables : forall q ws, pages k !! q = Some (Words ws) ->
    exists ws', pages k' !! q = Some (Words ws');
}.

(** The pages between [a] and [a'] were not present. *)
Lemma unmapped_skip k fl k' fl' d a a' b :
  a <= a' -> (forall va, a <= PGROUNDDOWN va < a' -> present (pte_at k d va) = false) ->
  unmapped k fl k' fl' d a' b -> unmapped k fl k' fl' d a b.
Proof.
  intros Ha Hnp [Hpte Hfree Hd Ht].
  assert (He : forall va, (a <= PGROUNDDOWN va < b /\ present (pte_at k d va) = true) <->
    (a' <= PGROUNDDOWN va < b /\ present (pte_at k d va) = true)).
  { intros va. split; intros [Hr Hp]; (split; [|done]); [|lia].
    destruct (decide (PGROUNDDOWN va < a')); [|lia]. rewrite Hnp in Hp by lia. done. }
  split; try done.
  - intros va. rewrite Hpte. by apply decide_ext.
  - intros p. rewrite Hfree. do 2 f_equiv. intros va. specialize (He va). tauto.
Qed.

Lemma unmapped_cons k fl k1 k' fl' d a b :
  a < b -> PGROUNDDOWN a = a -> present (pte_at k d a) = true ->
  remapped k k1 d a 0 ->
  (forall q bs, pages k !! q = Some (Bytes bs) -> q <> frame k d a -> pages k1 !! q = Some (Bytes bs)) ->
  (forall q ws, pages k !! q = Some (Words ws) -> exists ws', pages k1 !! q = Some (Words ws')) ->
  unmapped k1 (frame k d a :: fl) k' fl' d (a + 4096) b -> unmapped k fl k' fl' d a b.
Proof.
  intros Hab Hda Hp H1 Hb Hw [Hpte Hfree Hd Ht].
  assert (Ha : exists r, a = 4096 * r) by (rewrite <- Hda; apply PGROUNDDOWN_mult).
  assert (H1' : forall va, present (pte_at k1 d va) = true <->
    PGROUNDDOWN va <> a /\ present (pte_at k d va) = true).
  { intros va. rewrite H1, Hda. case_decide; [|tauto]. split; [done|tauto]. }
  assert (Hne1 : forall va, PGROUNDDOWN va <> a -> pte_at k1 d va = pte_at k d va)
    by (intros va Hne; rewrite H1, decide_False; [done|by rewrite Hda]).
  assert (Hfa : frame k d a ∈ fl') by (apply Hfree; left; apply elem_of_cons; by left).
  split.
  - intros va. rewrite Hpte. destruct (PGROUNDDOWN_mult va) as [q Hq], Ha as [r Hr].
    destruct (decide (PGROUNDDOWN va = a)) as [He|Hne].
    + assert (Hpa : pte_at k d va = pte_at k d a) by (apply pte_at_page; by rewrite Hda).
      rewrite decide_False by lia. rewrite decide_True by (rewrite Hpa; split; [lia|done]).
      rewrite H1, decide_True by (by rewrite Hda). done.
    + rewrite Hne1 by done. apply decide_ext.
      split; intros [? ?]; (split; [lia|done]).
  - intros p. rewrite Hfree, elem_of_cons. split.
    + intros [[->|Hin]|(va & Hr & Hpv & <-)]; [right; exists a; rewrite Hda; split_and!; lia || done|by left|].
      right. exists va. apply H1' in Hpv as [Hne Hpv]. split_and!; [lia..|done|].
      unfold frame. by rewrite Hne1.
    + intros [Hin|(va & Hr & Hpv & <-)]; [by left; right|].
      destruct (decide (PGROUNDDOWN va = a)) as [He|Hne].
      * left; left. unfold frame. f_equal. apply pte_at_page. by rewrite Hda.
      * right. exists va. destruct (PGROUNDDOWN_mult va) as [q Hq], Ha as [r Hr'].
        split_and!; [lia..|by apply H1'|]. unfold frame. by rewrite Hne1.
  - intros q bs Hq Hnin. apply Hd; [|done]. apply Hb; [done|]. by intros ->.
  - intros q ws Hq. destruct (Hw q ws Hq) as [ws' Hq']. by eapply Ht.
Qed.

Lemma PGADDR_next a :
  0 <= a < KERNBASE -> u32 (u32 (PGADDR (PDX a + 1) 0 0 - PGSIZE) + PGSIZE) = (PDX a + 1) * 4194304.
Proof.
  intros Ha. assert (HP : PGADDR (PDX a + 1) 0 0 = (PDX a + 1) * 4194304).
  { unfold PGADDR, PDXSHIFT, PTXSHIFT. rewrite !Z.shiftl_mul_pow2 by lia.
    rewrite Z.mul_0_l, !Z.lor_0_r. change (2 ^ 22) with 4194304.
    apply u32_small. pose proof (PDX_range a). rewrite PDX_div in *. unfold KERNBASE in Ha.
    assert (u32 a / 4194304 < 512) by (apply Z.div_lt_upper_bound; rewrite ?u32_small; lia). lia. }
  rewrite HP. pose proof (PDX_range a) as HR. rewrite PDX_div in *. unfold KERNBASE, PGSIZE in *.
  assert (u32 a / 4194304 < 512) by (apply Z.div_lt_upper_bound; rewrite ?u32_small; lia).
  set (D := u32 a / 4194304) in *.
  rewrite (u32_small (_ - 4096)) by lia. rewrite u32_small; lia.
Qed.

(** Up to the next directory entry no page is present. *)
Lemma pde_absent_skip k d a :
  0 <= a < KERNBASE -> a mod 4096 = 0 -> present (word_at k d (PDX a)) = false ->
  a < (PDX a + 1) * 4194304 /\
  forall va, a <= PGROUNDDOWN va < (PDX a + 1) * 4194304 -> present (pte_at k d va) = false.
Proof.
  intros Ha Hm Hp. unfold KERNBASE in Ha. pose proof (PDX_div a) as HD. rewrite u32_small in HD by lia.
  pose proof (Z.div_mod a 4194304). pose proof (Z.mod_pos_bound a 4194304). split; [lia|].
  intros va Hva. unfold pte_at. replace (PDX va) with (PDX a); [by rewrite Hp|].
  rewrite (PDX_div va). rewrite PGROUNDDOWN_div in Hva. rewrite HD in *.
  replace (u32 va / 4194304) with (u32 va / 4096 * 4096 / 4194304).
  - apply Z.div_unique with (u32 va / 4096 * 4096 - 4194304 * (a / 4194304)); lia.
  - change 4194304 with (4096 * 1024). rewrite <- !Z.div_div by lia. by rewrite Z.div_mul.
Qed.

Lemma unmapped_nil k fl d h a b :
  vminv k d fl h -> b <= a -> unmapped k fl k fl d a b.
Proof.
  intros Hv Hab. split; [| |done|by eauto].
  - intros va. by rewrite decide_False by lia.
  - intros p. split; [by left|]. intros [?|(va & Hr & _)]; [done|lia].
Qed.

Lemma frame_addr_nonzero k d fl h va :
  vminv k d fl h -> 0 <= va < KERNBASE -> present (pte_at k d va) = true ->
  (PTE_ADDR (pte_at k d va) =? 0) = false.
Proof.
  intros [_ Hus] Hva Hp. destruct (us_page _ _ Hus va Hva Hp) as [[Hg _] _].
  destruct (Z.eqb_spec (PTE_ADDR (pte_at k d va)) 0) as [H0|]; [|done].
  unfold frame, tbl in Hg. rewrite H0 in Hg. unfold kfree_ok in Hg. change (P2V 0) with KERNBASE in Hg.
  apply andb_prop in Hg as [Hg _]. apply andb_prop in Hg as [_ Hg]. lia.
Qed.

Lemma dealloc_loop_run f k d fl h t a b :
  vminv k d fl h -> 0 <= a <= KERNBASE -> a mod 4096 = 0 -> b <= KERNBASE ->
  b - a <= 4096 * Z.of_nat f ->
  exists k' fl', dealloc_loop kend (S f) d a b (Ctx h t) k = Ok tt (Ctx h t) k' /\
    vminv k' d fl' h /\ unmapped k fl k' fl' d a b.
Proof.
  revert k fl a. induction f as [|f IH]; intros k fl a Hv Ha Hm Hb Hf.
  { cbn [dealloc_loop]. destruct (Z.ltb_spec a b); [lia|].
    exists k, fl. split_and!; [done|done|by eapply unmapped_nil]. }
  remember (S f) as f' eqn:Ef. cbn [dealloc_loop]. destruct (Z.ltb_spec a b); [|
    exists k, fl; split_and!; [done|done|by eapply unmapped_nil]].
  assert (Hda : PGROUNDDOWN a = a) by (apply PGROUNDDOWN_aligned; [unfold KERNBASE in *; lia|done]).
  assert (Hnext : u32 (a + PGSIZE) = a + 4096) by (apply u32_small; unfold KERNBASE, PGSIZE in *; lia).
  assert (Hm' : (a + 4096) mod 4096 = 0) by (by rewrite <- Zplus_mod_idemp_r, Z.add_0_r).
  pose proof Hv as [Hok Hus]. pose proof Hok as [_ _ [ws Ht]].
  assert (Hle : a + 4096 <= KERNBASE).
  { unfold KERNBASE in *. pose proof (Z.div_mod a 4096). lia. }
  destruct (present (word_at k d (PDX a))) eqn:Hpd.
  - rewrite bindE, (walk_present k d ws) by done. cbn [obind].
    rewrite bindE, (pte_read k d fl h) by done. cbn [obind]. rewrite Hnext.
    destruct (present (pte_at k d a)) eqn:Hp.
    + rewrite bindE. erewrite frame_addr_nonzero by (done || lia).
      destruct (dealloc_one k d fl h t a Hv) as (k1 & Hr & Hv1 & Hmap & Hd1 & Hw1); [lia|done|].
      change (P2V (PTE_ADDR (pte_at k d a))) with (frame k d a). rewrite Hr. cbn [obind].
      destruct (IH k1 (frame k d a :: fl) (a + 4096) Hv1) as (k' & fl' & Hr' & Hv' & Hun); try lia.
      exists k', fl'. split_and!; [done|done|]. by apply (unmapped_cons k fl k1).
    + rewrite bindE. unfold mret at 1, M_ret. cbn [obind].
      destruct (IH k fl (a + 4096) Hv) as (k' & fl' & Hr' & Hv' & Hun); try lia.
      exists k', fl'. split_and!; [done|done|]. eapply unmapped_skip; [|..|exact Hun]; [lia|].
      intros va Hva. rewrite <- Hp. f_equal. apply pte_at_page. rewrite Hda.
      destruct (PGROUNDDOWN_mult va). pose proof (Z.div_mod a 4096). lia.
  - rewrite bindE, (walk_absent k d ws) by done. cbn [obind].
    rewrite PGADDR_next by lia. destruct (pde_absent_skip k d a) as [Hlt Hskip]; [lia|done..|].
    assert (Hpx : (PDX a + 1) * 4194304 <= KERNBASE).
    { rewrite PDX_div, u32_small by (unfold KERNBASE in *; lia). unfold KERNBASE in *.
      assert (a / 4194304 < 512) by (apply Z.div_lt_upper_bound; lia). lia. }
    assert (Hpm : ((PDX a + 1) * 4194304) mod 4096 = 0)
      by (change 4194304 with (1024 * 4096); rewrite Z.mul_assoc; apply Z.mod_mul; lia).
    assert (a + 4096 <= (PDX a + 1) * 4194304).
    { pose proof (Z.div_mod a 4096). lia. }
    destruct (IH k fl ((PDX a + 1) * 4194304) Hv) as (k' & fl' & Hr' & Hv' & Hun); try lia.
    exists k', fl'. split_and!; [done|done|]. eapply unmapped_skip; [|..|exact Hun]; [lia|done].
Qed.

Lemma deallocuvm_run k d fl h t oldsz newsz :
  vminv k d fl h -> 0 <= newsz <= oldsz -> oldsz <= KERNBASE ->
  exists k' fl', deallocuvm kend d oldsz newsz (Ctx h t) k = Ok newsz (Ctx h t) k' /\
    vminv k' d fl' h /\ unmapped k fl k' fl' d (PGROUNDUP newsz) oldsz.
Proof.
  intros Hv Hn Ho. unfold deallocuvm.
  destruct (PGROUNDUP_spec newsz) as [Hm Hr]; [unfold KERNBASE in *; lia|].
  destruct (Z.leb_spec oldsz newsz).
  { assert (oldsz = newsz) as -> by lia. exists k, fl. split_and!; [done|done|].
    eapply unmapped_nil; [done|lia]. }
  destruct (dealloc_loop_run (Z.to_nat (oldsz / PGSIZE + 1)) k d fl h t (PGROUNDUP newsz) oldsz)
    as (k' & fl' & Hr' & Hv' & Hun); try done.
  - unfold KERNBASE in *. pose proof (Z.div_mod (PGROUNDUP newsz) 4096). lia.
  - unfold PGSIZE. pose proof (Z.div_mod oldsz 4096). pose proof (Z.mod_pos_bound oldsz 4096).
    pose proof (Z.div_pos oldsz 4096). lia.
  - exists k', fl'. by rewrite bindE, Hr'.
Qed.

(** ** allocuvm *)

(** A page taken from the free list and filled with data. *)
Definition taken (k : kmem) (p next : Z) (bs : list Z) : kmem :=
  k <| freelist := next |> <| pages ::= <[p := Bytes bs]> |>.

Lemma take_page k d p fl h t bs :
  vminv k d (p :: fl) h ->
  exists next, kalloc (Ctx h t) k = Ok p (Ctx h t) (k <| freelist := next |>) /\
    (p =? 0) = false /\
    vminv (taken k p next bs) d fl h /\
    (forall va, pte_at (taken k p next bs) d va = pte_at k d va) /\
    data_kept k (taken k p next bs) /\
    pages (taken k p next bs) !! p = Some (Bytes bs) /\
    (forall va, 0 <= va < KERNBASE -> present (pte_at k d va) = true -> frame k d va <> p).
Proof.
  intros [[Hk Hl [ws Ht]] Hus]. destruct (kalloc_cons kend k p fl h t Hk Hl) as (next & Hrun & Hk').
  pose proof (kinv_good _ _ _ Hk) as [[_ Hp0] _]%Forall_cons.
  pose proof (kinv_nodup _ _ _ Hk) as [Hnin _]%NoDup_cons.
  assert (Hr : exists n, pages k !! p = Some (Run n))
    by (eapply chain_Run; [apply Hk|apply elem_of_cons; by left]). destruct Hr as [n Hr].
  assert (Hpg : pages (taken k p next bs) = <[p := Bytes bs]> (pages k)) by done.
  assert (Hkeep : forall q pg, pages k !! q = Some pg -> (forall n, pg <> Run n) ->
    pages (taken k p next bs) !! q = Some pg).
  { intros q pg Hq Hpgn. rewrite Hpg, lookup_insert_ne; [done|]. intros ->. rewrite Hr in Hq.
    injection Hq as <-. by apply (Hpgn n). }
  destruct (ptree_ext k (taken k p next bs) d ws Ht) as [Ht' Hpte]; [by intros; apply Hkeep|].
  assert (Hne : forall va, 0 <= va < KERNBASE -> present (pte_at k d va) = true -> frame k d va <> p).
  { intros va Hva Hpv He. destruct (us_page _ _ Hus va Hva Hpv) as [_ [b Hb]]. congruence. }
  exists next. split_and!; try done; [lia|..].
  - split; [split; [by apply kinv_write|exact Hl|by exists ws]|].
    split; unfold frame; setoid_rewrite Hpte.
    + intros va Hva Hpv. destruct (us_page _ _ Hus va Hva Hpv) as [Hg [b Hb]]. split; [done|].
      exists b. by apply Hkeep.
    + apply Hus.
  - split; intros q ps Hq; [by apply Hkeep|]. exists ps. by apply Hkeep.
  - rewrite Hpg. apply lookup_insert_eq.
Qed.

Definition user_pte (p : Z) : Z := Z.lor (Z.lor (V2P p) (Z.lor PTE_W PTE_U)) PTE_P.

Lemma user_pte_facts p :
  good_page kend p ->
  present (user_pte p) = true /\ tbl (user_pte p) = p /\ PTE_FLAGS (user_pte p) = 7.
Proof.
  intros Hp. destruct (good_page_facts p Hp) as (_ & Hr & Hm & Hback).
  assert (He : user_pte p = Z.lor (V2P p) 7) by (unfold user_pte; by rewrite <- !Z.lor_assoc).
  rewrite He. split; [by apply present_flags|]. unfold tbl.
  destruct (PTE_ADDR_or (V2P p) 7) as [-> ->]; [unfold PHYSTOP in Hr; lia|done|lia|done].
Qed.

(** Mapping one page. *)
Lemma mappages_page k d fl h t a pa perm :
  vmok k d fl h -> 0 <= a -> a + 4096 <= 2 ^ 32 -> a mod 4096 = 0 -> 0 <= pa < 2 ^ 32 ->
  present (pte_at k d a) = false ->
  exists r k' fl', mappages d a PGSIZE pa perm (Ctx h t) k = Ok r (Ctx h t) k' /\
    vmok k' d fl' h /\ data_kept k k' /\ tables_from fl k' fl' /\
    ((r = 0 /\ remapped k k' d a (Z.lor (Z.lor pa perm) PTE_P)) \/
     (r = -1 /\ fl' = [] /\ forall va, pte_at k' d va = pte_at k d va)).
Proof.
  intros Hok Ha0 Ha1 Hm Hpa Hnp. unfold mappages, PGSIZE.
  assert (Hda : PGROUNDDOWN a = a) by (apply PGROUNDDOWN_aligned; [lia|done]).
  assert (Hl : PGROUNDDOWN (u32 (a + 4096 - 1)) = a).
  { rewrite u32_small by lia. destruct (PGROUNDDOWN_spec (a + 4096 - 1)); [lia|].
    pose proof (Z.div_mod a 4096). destruct (PGROUNDDOWN_mult (a + 4096 - 1)). lia. }
  rewrite Hda, Hl, Z.sub_diag. change (S (Z.to_nat (u32 0 / 4096))) with 1%nat.
  destruct (map_loop_run 0 k d fl h t a pa perm Hok) as (r & j & k' & fl' & Hr & Hok' & Hk' & Hfl & Hmap & Hc);
    [lia|done|lia..| |].
  { intros va Hva. rewrite <- Hnp. f_equal. apply pte_at_page. lia. }
  replace (a + 4096 * Z.of_nat 0) with a in Hr by lia.
  exists r, k', fl'. split_and!; try done. destruct Hc as [[-> ->]|(-> & Hj & ->)].
  - left. split; [done|]. intros va. rewrite Hmap, Hda. destruct (PGROUNDDOWN_mult va).
    pose proof (Z.div_mod a 4096). repeat case_decide; try done; try lia.
    do 2 f_equal. lia.
  - right. split_and!; [done..|]. intros va. by rewrite Hmap, decide_False by lia.
Qed.

(** Mapping a fresh data page keeps the user memory disjoint. *)
Lemma map_fresh_inv k k' d fl h a p bs :
  vmok k' d fl h -> uspace k d -> good_page kend p -> pages k !! p = Some (Bytes bs) ->
  (forall va, 0 <= va < KERNBASE -> present (pte_at k d va) = true -> frame k d va <> p) ->
  data_kept k k' -> remapped k k' d a (user_pte p) -> vminv k' d fl h.
Proof.
  intros Hok Hus Hp Hb Hne [Hk _] Hmap. split; [done|].
  destruct (user_pte_facts p Hp) as (Hpres & Htbl & _).
  assert (Hf : forall va, frame k' d va = if decide (PGROUNDDOWN va = PGROUNDDOWN a) then p else frame k d va).
  { intros va. unfold frame. rewrite Hmap. by case_decide. }
  split.
  - intros va Hva Hpv. rewrite Hf. rewrite Hmap in Hpv. case_decide.
    + split; [done|]. exists bs. by apply Hk.
    + destruct (us_page _ _ Hus va Hva Hpv) as [Hg [b Hb']]. split; [done|]. exists b. by apply Hk.
  - intros va va' Hva Hva' Hpv Hpv'. rewrite !Hf. rewrite Hmap in Hpv, Hpv'.
    repeat case_decide; intros He; [congruence| | |by apply (us_inj _ _ Hus)].
    + by destruct (Hne va Hva Hpv).
    + by destruct (Hne va' Hva' Hpv').
Qed.

(** What allocuvm() has done when it has come to page [a], holding the pages
    [hand]: from [a0] on there are zeroed pages from the free list. *)
Record progress (k0 : kmem) (fl0 : list Z) (k : kmem) (fl hand : list Z) (d a0 a : Z) : Prop := {
  pr_old : forall va, ~ (a0 <= PGROUNDDOWN va < a) -> pte_at k d va = pte_at k0 d va;
  pr_new : forall va, a0 <= PGROUNDDOWN va < a ->
    present (pte_at k d va) = true /\ PTE_FLAGS (pte_at k d va) = 7 /\
    pages k !! frame k d va = Some zero_bytes /\ frame k d va ∈ fl0;
  pr_kept : data_kept k0 k;
  pr_sub : forall p, p ∈ fl -> p ∈ fl0;
  pr_all : forall p, p ∈ fl0 -> p ∈ fl \/ p ∈ hand \/ (exists ws, pages k !! p = Some (Words ws)) \/
    exists va, a0 <= PGROUNDDOWN va < a /\ frame k d va = p;
}.

(** Taking tables from the free list does not disturb the progress. *)
Lemma progress_tables k0 fl0 k fl hand k' fl' d a0 a :
  progress k0 fl0 k fl hand d a0 a -> data_kept k k' ->
  (forall va, pte_at k' d va = pte_at k d va) -> tables_from fl k' fl' ->
  progress k0 fl0 k' fl' hand d a0 a.
Proof.
  intros [Ho Hn Hk Hs Ha] Hk' Hpte [Hsub Ht]. split.
  - intros va Hva. rewrite Hpte. by apply Ho.
  - intros va Hva. unfold frame. rewrite Hpte. destruct (Hn va Hva) as (? & ? & ? & ?).
    split_and!; try done. by apply Hk'.
  - by transitivity k.
  - auto.
  - intros p Hp. destruct (Ha p Hp) as [Hf|[Hh|[[ws Hw]|(va & Hr & Hf)]]].
    + destruct (Ht p Hf); [by left|by right; right; left].
    + by right; left.
    + right; right; left. by eapply Hk'.
    + right; right; right. exists va. unfold frame. by rewrite Hpte.
Qed.

Lemma progress_hand k0 fl0 k p fl d a0 a next :
  progress k0 fl0 k (p :: fl) [] d a0 a ->
  (forall va, pte_at (taken k p next (replicate 4096 0)) d va = pte_at k d va) ->
  data_kept k (taken k p next (replicate 4096 0)) ->
  progress k0 fl0 (taken k p next (replicate 4096 0)) fl [p] d a0 a.
Proof.
  intros [Ho Hn Hk Hs Ha] Hpte Hkept. split.
  - intros va Hva. rewrite Hpte. by apply Ho.
  - intros va Hva. unfold frame. rewrite Hpte. destruct (Hn va Hva) as (? & ? & ? & ?).
    split_and!; try done. by apply Hkept.
  - by transitivity k.
  - intros q Hq. apply Hs. apply elem_of_cons. by right.
  - intros q Hq. destruct (Ha q Hq) as [[->|Hf]%elem_of_cons|[[]%elem_of_nil|[[ws Hw]|(va & Hr & Hf)]]].
    + right; left. apply elem_of_cons. by left.
    + by left.
    + right; right; left. by eapply Hkept.
    + right; right; right. exists va. unfold frame. by rewrite Hpte.
Qed.

(** The page in hand is mapped at [a]. *)
Lemma progress_map k0 fl0 k fl p k' fl' d a0 a :
  progress k0 fl0 k fl [p] d a0 a -> p ∈ fl0 -> good_page kend p -> pages k !! p = Some zero_bytes ->
  a0 <= a -> PGROUNDDOWN a = a ->
  data_kept k k' -> tables_from fl k' fl' ->
  remapped k k' d a (user_pte p) -> progress k0 fl0 k' fl' [] d a0 (a + 4096).
Proof.
  intros [Ho Hn Hk Hs Ha] Hin Hp Hz Ha0 Hda Hk' [Hsub Ht] Hmap.
  destruct (user_pte_facts p Hp) as (Hpres & Htbl & Hfl).
  destruct (PGROUNDDOWN_mult a) as [r Hr]. rewrite Hda in Hr.
  assert (Hm' : forall va, pte_at k' d va = if decide (PGROUNDDOWN va = a) then user_pte p else pte_at k d va)
    by (intros va; by rewrite Hmap, Hda).
  assert (Hf : forall va, frame k' d va = if decide (PGROUNDDOWN va = a) then p else frame k d va).
  { intros va. unfold frame. rewrite Hm'. by case_decide. }
  split.
  - intros va Hva. rewrite Hm', decide_False by lia. apply Ho. lia.
  - intros va Hva. rewrite Hf, Hm'. destruct (PGROUNDDOWN_mult va). case_decide.
    + split_and!; try done. by apply Hk'.
    + destruct (Hn va) as (? & ? & ? & ?); [lia|]. split_and!; try done. by apply Hk'.
  - by transitivity k.
  - auto.
  - intros q Hq. destruct (Ha q Hq) as [Hff|[Hh|[[ws Hw]|(va & Hrr & Hff)]]].
    + destruct (Ht q Hff); [by left|by right; right; left].
    + apply list_elem_of_singleton in Hh as ->. right; right; right. exists a.
      rewrite Hf, decide_True by done. split; [lia|done].
    + right; right; left. by eapply Hk'.
    + right; right; right. exists va. rewrite Hf, decide_False by lia. split; [lia|done].
Qed.

(** Undoing the progress with deallocuvm(): everything is as it was, except
    that some pages have become tables. *)
Lemma alloc_fail k0 fl0 k fl hand d oldsz newsz a h t :
  kinv kend k0 fl0 -> vminv k d fl h -> progress k0 fl0 k fl hand d (PGROUNDUP oldsz) a ->
  (forall va, PGROUNDUP oldsz <= PGROUNDDOWN va < KERNBASE -> pte_at k0 d va = 0) ->
  0 <= oldsz <= newsz -> a < newsz < KERNBASE ->
  exists k' fl', deallocuvm kend d newsz oldsz (Ctx h t) k = Ok oldsz (Ctx h t) k' /\
    vminv k' d fl' h /\ (forall va, pte_at k' d va = pte_at k0 d va) /\
    (forall q bs, pages k0 !! q = Some (Bytes bs) -> pages k' !! q = Some (Bytes bs)) /\
    (forall p, p ∈ fl0 -> p ∈ fl' \/ p ∈ hand \/ exists ws, pages k' !! p = Some (Words ws)) /\
    (forall p bs, p ∈ hand -> pages k !! p = Some (Bytes bs) ->
       (forall va, 0 <= va < KERNBASE -> present (pte_at k d va) = true -> frame k d va <> p) ->
       pages k' !! p = Some (Bytes bs)).
Proof.
  intros Hk0 Hv [Ho Hn Hk Hs Ha] Hz Hsz Han.
  assert (Hdown : forall va, PGROUNDDOWN va < KERNBASE -> 0 <= PGROUNDDOWN va < KERNBASE).
  { intros va. destruct (PGROUNDDOWN_mult va) as [q Hq]. pose proof (PGROUNDDOWN_div va).
    pose proof (Z.div_pos (u32 va) 4096). pose proof (u32_range va). lia. }
  assert (Hpr : forall va, PGROUNDUP oldsz <= PGROUNDDOWN va < newsz -> present (pte_at k d va) = true ->
    PGROUNDDOWN va < a).
  { intros va Hva Hp. destruct (Z.lt_ge_cases (PGROUNDDOWN va) a); [done|].
    rewrite Ho, Hz in Hp by lia. done. }
  destruct (deallocuvm_run k d fl h t newsz oldsz Hv) as (k' & fl' & Hr & Hv' & [Upte Ufree Ud Ut]); [lia..|].
  assert (Hsub : forall p, p ∈ fl' -> p ∈ fl0).
  { intros p [Hin|(va & Hva & Hp & <-)]%Ufree; [by apply Hs|]. apply Hn. split; [lia|by apply Hpr]. }
  assert (Hdata : forall q bs, pages k0 !! q = Some (Bytes bs) -> q ∉ fl0).
  { intros q bs Hq. by eapply kinv_not_free. }
  exists k', fl'. split_and!; try done.
  - intros va. rewrite Upte. destruct (decide (PGROUNDUP oldsz <= PGROUNDDOWN va < a)) as [Hin|Hout].
    + destruct (Hn va Hin) as (Hp & _). rewrite decide_True by (split; [lia|done]).
      symmetry. apply Hz. lia.
    + rewrite <- Ho by done. rewrite decide_False; [done|]. intros [Hva Hp]. specialize (Hpr va Hva Hp). lia.
  - intros q bs Hq. apply Ud; [by apply Hk|]. intros Hin%Hsub. by eapply Hdata.
  - intros p Hp. destruct (Ha p Hp) as [Hf|[Hh|[[ws Hw]|(va & Hva & Hf)]]].
    + left. apply Ufree. by left.
    + by right; left.
    + right; right. by eapply Ut.
    + left. apply Ufree. right. exists va. split_and!; [lia..|by apply Hn|done].
  - intros p bs _ Hb Hne. apply Ud; [done|].
    intros [Hin|(va & Hva & Hp & Hf)]%Ufree.
    + revert Hin. by apply (kinv_not_free kend k fl p (Bytes bs)); [apply Hv| |].
    + apply (Hne (PGROUNDDOWN va)); [apply Hdown; lia|..].
      * rewrite <- Hp. f_equal. apply pte_at_page, PGROUNDDOWN_idem.
      * rewrite <- Hf. unfold frame. f_equal. apply pte_at_page, PGROUNDDOWN_idem.
Qed.

(** Everything translates as before and no page is lost. *)
Definition restored (k0 : kmem) (fl0 : list Z) (k : kmem) (fl : list Z) (d : Z) : Prop :=
  (forall va, pte_at k d va = pte_at k0 d va) /\
  (forall q bs, pages k0 !! q = Some (Bytes bs) -> pages k !! q = Some (Bytes bs)) /\
  (forall p, p ∈ fl0 -> p ∈ fl \/ exists ws, pages k !! p = Some (Words ws)).

(** The page in hand goes back when it could not be mapped. *)
Lemma alloc_fail_free k0 fl0 k fl p bs d oldsz newsz a h t :
  kinv kend k0 fl0 -> vminv k d fl h -> progress k0 fl0 k fl [p] d (PGROUNDUP oldsz) a ->
  (forall va, PGROUNDUP oldsz <= PGROUNDDOWN va < KERNBASE -> pte_at k0 d va = 0) ->
  0 <= oldsz <= newsz -> a < newsz < KERNBASE ->
  p ∈ fl0 -> good_page kend p -> pages k !! p = Some (Bytes bs) ->
  (forall va, 0 <= va < KERNBASE -> present (pte_at k d va) = true -> frame k d va <> p) ->
  exists k' fl', (deallocuvm kend d newsz oldsz ;; kfree kend p ;; mret 0) (Ctx h t) k =
      Ok 0 (Ctx h t) k' /\ vminv k' d fl' h /\ restored k0 fl0 k' fl' d.
Proof.
  intros Hk0 Hv Hpr Hz Hsz Han Hin Hp Hb Hne.
  destruct (alloc_fail _ _ _ _ _ _ _ _ _ h t Hk0 Hv Hpr Hz Hsz Han) as
    (k1 & fl1 & Hr & [Hok1 Hus1] & Hpte & Hd & Hall & Hhand).
  assert (Hb1 : pages k1 !! p = Some (Bytes bs)) by (apply Hhand; [apply elem_of_cons; by left|done..]).
  destruct (kfreed_vmok k1 d fl1 h p bs Hok1 Hp Hb1) as [Hok2 Hpte2].
  assert (Hpk0 : forall q bs, pages k0 !! q = Some (Bytes bs) -> q <> p).
  { intros q b Hq ->. revert Hin. by apply (kinv_not_free kend k0 fl0 p (Bytes b)). }
  exists (kfreed p k1), (p :: fl1). unfold restored. split_and!.
  - rewrite bindE, Hr. cbn [obind]. by rewrite bindE, kfree_run by (apply Hp || apply Hok1).
  - split; [done|]. split.
    + intros va Hva Hpv. unfold frame. rewrite Hpte2 in Hpv |- *.
      destruct (us_page _ _ Hus1 va Hva Hpv) as [Hg [b Hbb]]. split; [done|]. exists b.
      unfold kfreed. cbn. rewrite lookup_insert_ne; [done|]. intros Heq.
      rewrite Hpte in Hpv. apply (Hne va Hva); [|unfold frame; rewrite Heq, Hpte].
      * destruct (decide (PGROUNDUP oldsz <= PGROUNDDOWN va < a)) as [Hr'|Hr'].
        -- by apply (pr_new _ _ _ _ _ _ _ _ Hpr).
        -- by rewrite (pr_old _ _ _ _ _ _ _ _ Hpr).
      * destruct (decide (PGROUNDUP oldsz <= PGROUNDDOWN va < a)) as [Hr'|Hr'].
        -- rewrite Hz in Hpv by lia. done.
        -- by rewrite (pr_old _ _ _ _ _ _ _ _ Hpr).
    + unfold frame. setoid_rewrite Hpte2. apply Hus1.
  - intros va. by rewrite Hpte2, Hpte.
  - intros q b Hq. unfold kfreed. cbn. rewrite lookup_insert_ne; [by apply Hd|].
    by apply not_eq_sym, (Hpk0 q b).
  - intros q Hq. destruct (Hall q Hq) as [Hf|[Hh|[ws Hw]]].
    + left. apply elem_of_cons. by right.
    + left. by apply list_elem_of_singleton in Hh as ->; apply elem_of_cons; left.
    + right. exists ws. unfold kfreed. cbn. rewrite lookup_insert_ne; [done|]. congruence.
Qed.

Lemma alloc_loop_run f k0 fl0 k fl d oldsz newsz a h t :
  kinv kend k0 fl0 -> vminv k d fl h -> progress k0 fl0 k fl [] d (PGROUNDUP oldsz) a ->
  (forall va, PGROUNDUP oldsz <= PGROUNDDOWN va < KERNBASE -> pte_at k0 d va = 0) ->
  0 <= oldsz <= newsz -> newsz < KERNBASE -> a mod 4096 = 0 ->
  PGROUNDUP oldsz <= a -> (a = PGROUNDUP oldsz \/ a - 4096 < newsz) ->
  newsz - a <= 4096 * Z.of_nat f ->
  exists r t' k' fl', alloc_loop kend (S f) d a oldsz newsz (Ctx h t) k = Ok r (Ctx h t') k' /\
    vminv k' d fl' h /\
    ((r = newsz /\ exists a', progress k0 fl0 k' fl' [] d (PGROUNDUP oldsz) a' /\
        newsz <= a' /\ a' mod 4096 = 0 /\ (a' = PGROUNDUP oldsz \/ a' - 4096 < newsz)) \/
     (r = 0 /\ restored k0 fl0 k' fl' d)).
Proof.
  intros Hk0 Hv Hpr Hz Hsz Hn. revert k fl a t Hv Hpr.
  assert (Hup : 0 <= PGROUNDUP oldsz) by (destruct (PGROUNDUP_spec oldsz); unfold KERNBASE in *; lia).
  induction f as [|f IH]; intros k fl a t Hv Hpr Hm Ha Hlast Hf.
  { cbn [alloc_loop]. destruct (Z.ltb_spec a newsz); [lia|].
    exists newsz, t, k, fl. split_and!; [done..|]. left. split; [done|]. by exists a. }
  remember (S f) as f' eqn:Ef. cbn [alloc_loop]. destruct (Z.ltb_spec a newsz) as [Han|Han]; cycle 1.
  { exists newsz, t, k, fl. split_and!; [done..|]. left. split; [done|]. by exists a. }
  destruct fl as [|p fl].
  { rewrite bindE, (kalloc_empty kend) by apply Hv. cbn [obind]. rewrite Z.eqb_refl.
    unfold cprintf. rewrite bindE, emitE. cbn [obind].
    destruct (alloc_fail _ _ _ _ _ _ _ _ _ h (t ++ [Ecprintf "allocuvm out of memory\n" []]) Hk0 Hv Hpr Hz Hsz)
      as (k1 & fl1 & Hr & Hv1 & Hpte & Hd & Hall & _); [lia|].
    exists 0, (t ++ [Ecprintf "allocuvm out of memory\n" []]), k1, fl1. rewrite bindE, Hr. cbn [obind].
    split_and!; [done..|]. right. unfold restored. split_and!; try done. intros q Hq.
    destruct (Hall q Hq) as [?|[[]%elem_of_nil|?]]; [by left|by right]. }
  assert (Hpin : p ∈ fl0) by (apply (pr_sub _ _ _ _ _ _ _ _ Hpr), elem_of_cons; by left).
  assert (Hgood : good_page kend p)
    by (pose proof (kinv_good _ _ _ Hk0) as HF; rewrite Forall_forall in HF; by apply HF).
  destruct (take_page k d p fl h t (replicate 4096 0) Hv) as
    (next & Hrun & Hp0 & Hv1 & Hpte1 & Hk1 & Hpg1 & Hne1).
  assert (Hpr1 := progress_hand _ _ _ _ _ _ _ _ _ Hpr Hpte1 Hk1).
  set (k1 := taken k p next (replicate 4096 0)) in *.
  assert (Hda : PGROUNDDOWN a = a) by (apply PGROUNDDOWN_aligned; [unfold KERNBASE in *; lia|done]).
  assert (Hnp : pte_at k1 d a = 0).
  { rewrite (pr_old _ _ _ _ _ _ _ _ Hpr1), Hz by (rewrite Hda; lia). done. }
  assert (Hne : forall va, 0 <= va < KERNBASE -> present (pte_at k1 d va) = true -> frame k1 d va <> p)
    by (unfold frame; setoid_rewrite Hpte1; exact Hne1).
  destruct (good_page_facts p Hgood) as (_ & HpV & _ & _).
  destruct (mappages_page k1 d fl h t a (V2P p) (Z.lor PTE_W PTE_U)) as
    (r & k2 & fl2 & Hmap & Hok2 & Hk2 & Hfl2 & Hc);
    [apply Hv1|unfold KERNBASE, PHYSTOP in *; lia..|by rewrite Hnp|].
  rewrite bindE, Hrun. cbn [obind]. rewrite Hp0. unfold setpage. rewrite bindE. unfold modS at 1. cbn [obind].
  change (_ <| pages ::= _ |>) with k1. rewrite bindE, Hmap. cbn [obind].
  destruct Hc as [[-> Hre]|(-> & -> & Hsame)].
  - cbn [Z.ltb Z.compare]. unfold PGSIZE. rewrite u32_small by (unfold KERNBASE in *; lia). subst f'.
    apply (IH k2 fl2 (a + 4096) t).
    + by apply (map_fresh_inv k1 k2 d fl2 h a p (replicate 4096 0)); [|apply Hv1|..].
    + by apply (progress_map _ _ k1 fl p).
    + by rewrite <- Zplus_mod_idemp_r, Z.add_0_r.
    + lia.
    + right. lia.
    + lia.
  - cbn [Z.ltb Z.compare]. unfold cprintf. rewrite bindE, emitE. cbn [obind].
    assert (Hv2 : vminv k2 d [] h).
    { split; [done|]. split; unfold frame; setoid_rewrite Hsame; [|apply Hv1].
      intros va Hva Hpv. destruct (us_page _ _ (proj2 Hv1) va Hva Hpv) as [Hg [b Hb]]. split; [done|].
      exists b. by apply Hk2. }
    assert (Hpr2 : progress k0 fl0 k2 [] [p] d (PGROUNDUP oldsz) a)
      by (by apply (progress_tables _ _ k1 fl)).
    destruct (alloc_fail_free k0 fl0 k2 [] p (replicate 4096 0) d oldsz newsz a h
      (t ++ [Ecprintf "allocuvm out of memory (2)\n" []])) as (k3 & fl3 & Hr & Hv3 & Hres); try done.
    { by apply Hk2. }
    { unfold frame. setoid_rewrite Hsame. exact Hne. }
    exists 0, (t ++ [Ecprintf "allocuvm out of memory (2)\n" []]), k3, fl3.
    split_and!; [exact Hr|done|by right].
Qed.

(** ** copyout *)

(** The byte a user process finds at [va]. *)
Definition vbyte (k : kmem) (d va : Z) : option Z :=
  match pages k !! frame k d va with
  | Some (Bytes bs) => bs !! Z.to_nat (va mod 4096)
  | _ => None
  end.

(** [va] is mapped for the user, with a full page behind it. *)
Definition user_ok (k : kmem) (d va : Z) : Prop :=
  present (pte_at k d va) = true /\ Z.land (pte_at k d va) PTE_U <> 0 /\
  exists bs, pages k !! frame k d va = Some (Bytes bs) /\ length bs = 4096%nat.

Definition putpage (f : Z) (bs : list Z) (k : kmem) : kmem :=
  k <| pages ::= <[f := Bytes bs]> |>.

Lemma putpage_inv k d fl h f bs bs' :
  vminv k d fl h -> pages k !! f = Some (Bytes bs) ->
  vminv (putpage f bs' k) d fl h /\ forall va, pte_at (putpage f bs' k) d va = pte_at k d va.
Proof.
  intros [[Hk Hl [ws Ht]] Hus] Hf.
  destruct (ptree_ext k (putpage f bs' k) d ws Ht) as [Ht' Hpte].
  { intros q ts Hq. unfold putpage. cbn. rewrite lookup_insert_ne; [done|]. congruence. }
  split; [|done]. split; [split; [|exact Hl|by exists ws]|].
  - apply kinv_write; [done|]. by eapply kinv_not_free.
  - split; unfold frame; setoid_rewrite Hpte; [|apply Hus]. intros va Hva Hp.
    destruct (us_page _ _ Hus va Hva Hp) as [Hg [b Hb]]. split; [done|]. unfold putpage. cbn.
    destruct (decide (f = frame k d va)) as [->|Hne];
      [eexists; apply lookup_insert_eq|exists b; by rewrite lookup_insert_ne].
Qed.

Lemma uva2ka_ok k d fl h c va :
  vminv k d fl h -> user_ok k d va -> uva2ka d va c k = Ok (frame k d va) c k.
Proof.
  intros [Hok _] (Hp & Hu & _). pose proof (pte_present_pde _ _ _ Hp) as Hpd.
  pose proof Hok as [_ _ [ws Ht]]. unfold uva2ka.
  rewrite bindE, (walk_present k d ws) by done. cbn [obind].
  rewrite bindE, (pte_read k d fl h) by done. cbn [obind]. rewrite Hp. cbn [negb].
  destruct (Z.eqb_spec (Z.land (pte_at k d va) PTE_U) 0); done.
Qed.

(** The middle of a page replaced. *)
Lemma splice_lookup {A} (bs buf : list A) off n i :
  (n <= length buf)%nat -> (off + n <= length bs)%nat ->
  (take off bs ++ take n buf ++ drop (off + n) bs) !! i =
  if decide (off <= i < off + n)%nat then buf !! (i - off)%nat else bs !! i.
Proof.
  intros Hn Hl. case_decide as Hd.
  - rewrite lookup_app_r by (rewrite length_take; lia). rewrite length_take, min_l by lia.
    rewrite lookup_app_l by (rewrite length_take; lia). by rewrite lookup_take_lt by lia.
  - destruct (decide (i < off)%nat) as [Hi|Hi].
    + rewrite lookup_app_l by (rewrite length_take; lia). by rewrite lookup_take_lt by lia.
    + rewrite lookup_app_r by (rewrite length_take; lia). rewrite length_take, min_l by lia.
      rewrite lookup_app_r by (rewrite length_take; lia). rewrite length_take, min_l by lia.
      rewrite lookup_drop. f_equal. lia.
Qed.

Lemma copyout_step f k d fl h c va buf :
  vminv k d fl h -> 0 <= va < KERNBASE -> user_ok k d va -> buf <> [] ->
  let n := min (4096 - Z.to_nat (va mod 4096)) (length buf) in
  exists k', copyout_loop (S f) d va buf c k =
      copyout_loop f d (va - va mod 4096 + 4096) (drop n buf) c k' /\
    vminv k' d fl h /\ (forall x, pte_at k' d x = pte_at k d x) /\
    (forall x, user_ok k d x -> user_ok k' d x) /\
    forall x, 0 <= x < KERNBASE -> user_ok k d x ->
      vbyte k' d x = if decide (va <= x < va + Z.of_nat n) then buf !! Z.to_nat (x - va) else vbyte k d x.
Proof.
  intros Hv Hva Hu Hbuf n. unfold KERNBASE in Hva.
  assert (Hdown : forall x, 0 <= x < 2 ^ 32 -> PGROUNDDOWN x = x - x mod 4096).
  { intros x Hx. rewrite PGROUNDDOWN_div, u32_small by done. pose proof (Z.div_mod x 4096). lia. }
  pose proof (Z.mod_pos_bound va 4096) as Hoff.
  assert (Hpage : pte_at k d (PGROUNDDOWN va) = pte_at k d va)
    by (apply pte_at_page, PGROUNDDOWN_idem).
  assert (Hfr : frame k d (PGROUNDDOWN va) = frame k d va) by (unfold frame; by rewrite Hpage).
  assert (Hu0 : user_ok k d (PGROUNDDOWN va)) by (unfold user_ok; by rewrite Hfr, Hpage).
  pose proof Hu as (Hp & HU & bs & Hbs & Hlen).
  set (off := Z.to_nat (va mod 4096)).
  set (bs' := take off bs ++ take n buf ++ drop (off + n) bs).
  destruct (putpage_inv k d fl h (frame k d va) bs bs' Hv Hbs) as [Hv' Hpte].
  assert (Hlen' : length bs' = 4096%nat).
  { unfold bs'. rewrite !length_app, length_drop, !length_take. unfold n, off in *. lia. }
  assert (Hpg : forall q, pages (putpage (frame k d va) bs' k) !! q =
    if decide (q = frame k d va) then Some (Bytes bs') else pages k !! q).
  { intros q. unfold putpage. cbn. case_decide as Hq; [subst; apply lookup_insert_eq|by apply lookup_insert_ne]. }
  exists (putpage (frame k d va) bs' k). split; [|split; [exact Hv'|split; [exact Hpte|split]]].
  - destruct buf as [|b0 buf']; [done|]. cbn [copyout_loop].
    rewrite bindE, (uva2ka_ok k d fl h) by done. cbn [obind]. rewrite Hfr.
    destruct (us_page _ _ (proj2 Hv) va) as [[_ Hf0] _]; [unfold KERNBASE; lia|done|].
    destruct (Z.eqb_spec (frame k d va) 0); [lia|].
    unfold rdbytes. rewrite bindE. unfold getS at 1. rewrite bindE. cbn [obind]. rewrite Hbs.
    unfold mret at 1, M_ret. cbn [obind]. unfold setpage. rewrite bindE. unfold modS at 1. cbn [obind].
    rewrite Hdown by lia. replace (va - (va - va mod 4096)) with (va mod 4096) by lia.
    unfold PGSIZE. rewrite u32_small by lia. reflexivity.
  - intros x (Hpx & HUx & b & Hb & Hbl). unfold user_ok, frame. rewrite Hpte. split_and!; try done.
    rewrite Hpg. fold (frame k d x). case_decide; [by exists bs'|by exists b].
  - intros x Hx (Hpx & _). unfold vbyte, frame. rewrite Hpte, Hpg. fold (frame k d x) (frame k d va).
    assert (Hxp : PGROUNDDOWN x = x - x mod 4096) by (apply Hdown; unfold KERNBASE in Hx; lia).
    assert (Hvp : PGROUNDDOWN va = va - va mod 4096) by (apply Hdown; lia).
    pose proof (Z.mod_pos_bound x 4096). case_decide as He.
    + assert (Hsame : PGROUNDDOWN x = PGROUNDDOWN va)
        by (apply (us_inj _ _ (proj2 Hv)); unfold KERNBASE in *; done || lia).
      rewrite He, Hbs. unfold bs'. rewrite splice_lookup by (unfold n, off in *; lia).
      unfold off. repeat case_decide; try done; try (exfalso; lia). f_equal. lia.
    + rewrite decide_False; [done|]. intros Hr. apply He. unfold frame. f_equal. apply pte_at_page.
      rewrite Hxp, Hvp. destruct (PGROUNDDOWN_mult x), (PGROUNDDOWN_mult va). unfold n in Hr. lia.
Qed.

Lemma copyout_loop_run f k d fl h c va buf :
  vminv k d fl h -> 0 <= va -> va + Z.of_nat (length buf) <= KERNBASE -> (length buf < f)%nat ->
  (forall x, va <= x < va + Z.of_nat (length buf) -> user_ok k d x) ->
  exists k', copyout_loop f d va buf c k = Ok 0 c k' /\ vminv k' d fl h /\
    (forall x, pte_at k' d x = pte_at k d x) /\ (forall x, user_ok k d x -> user_ok k' d x) /\
    forall x, 0 <= x < KERNBASE -> user_ok k d x ->
      vbyte k' d x = if decide (va <= x < va + Z.of_nat (length buf))
                     then buf !! Z.to_nat (x - va) else vbyte k d x.
Proof.
  revert k va buf. induction f as [|f IH]; intros k va buf Hv Hva Hend Hf Hok; [lia|].
  destruct (decide (buf = [])) as [->|Hne].
  { exists k. split_and!; [done| |done|done|]; [exact Hv|]. intros x Hx _. by rewrite decide_False by (simpl; lia). }
  assert (Hl : (0 < length buf)%nat) by (by destruct buf; simpl in *; [|lia]).
  assert (Hu : user_ok k d va) by (apply Hok; lia).
  destruct (copyout_step f k d fl h c va buf Hv ltac:(lia) Hu Hne) as (k1 & Hr & Hv1 & Hpte1 & Hu1 & Hb1).
  pose proof (Z.mod_pos_bound va 4096) as Hoff.
  set (off := va mod 4096) in *. set (n := min (4096 - Z.to_nat off) (length buf)) in *.
  destruct (decide (n = length buf)) as [Hn|Hn].
  - exists k1. rewrite Hr, Hn, drop_all. split_and!; [by destruct f; [lia|]| |done|done|]; [exact Hv1|].
    intros x Hx Hux. rewrite Hb1, Hn by done. done.
  - assert (Hn' : n = (4096 - Z.to_nat off)%nat) by lia.
    destruct (IH k1 (va - off + 4096) (drop n buf) Hv1) as (k' & Hr' & Hv' & Hpte' & Hu' & Hb');
      rewrite ?length_drop in *; try lia.
    { intros x Hx. apply Hu1, Hok. lia. }
    exists k'. rewrite Hr, Hr'. split_and!; [done| | |auto|]; [exact Hv'|intros x; by rewrite Hpte'|].
    intros x Hx Hux. rewrite Hb', Hb1 by (done || by apply Hu1).
    repeat case_decide; try done; try lia. rewrite lookup_drop. f_equal. lia.
Qed.

Lemma copyout_run k d fl h c va buf :
  vminv k d fl h -> 0 <= va -> va + Z.of_nat (length buf) <= KERNBASE ->
  (forall x, va <= x < va + Z.of_nat (length buf) -> user_ok k d x) ->
  exists k', copyout d va buf c k = Ok 0 c k' /\ vminv k' d fl h /\
    (forall x, pte_at k' d x = pte_at k d x) /\ (forall x, user_ok k d x -> user_ok k' d x) /\
    forall x, 0 <= x < KERNBASE -> user_ok k d x ->
      vbyte k' d x = if decide (va <= x < va + Z.of_nat (length buf))
                     then buf !! Z.to_nat (x - va) else vbyte k d x.
Proof. intros Hv Hva Hend Hok. apply copyout_loop_run; try done. lia. Qed.

Lemma allocuvm_run k d fl h t oldsz newsz :
  vminv k d fl h -> 0 <= oldsz <= newsz -> newsz < KERNBASE ->
  (forall va, PGROUNDUP oldsz <= PGROUNDDOWN va < KERNBASE -> pte_at k d va = 0) ->
  exists r t' k' fl', allocuvm kend d oldsz newsz (Ctx h t) k = Ok r (Ctx h t') k' /\
    vminv k' d fl' h /\
    ((r = newsz /\ data_kept k k' /\
      (forall va, PGROUNDUP oldsz <= PGROUNDDOWN va < newsz ->
         present (pte_at k' d va) = true /\ PTE_FLAGS (pte_at k' d va) = 7 /\
         pages k' !! frame k' d va = Some zero_bytes /\ frame k' d va ∈ fl) /\
      (forall va, ~ (PGROUNDUP oldsz <= PGROUNDDOWN va < newsz) -> pte_at k' d va = pte_at k d va)) \/
     (r = 0 /\ restored k fl k' fl' d)).
Proof.
  intros Hv Ho Hn Hz. unfold allocuvm.
  destruct (Z.leb_spec KERNBASE newsz); [lia|]. destruct (Z.ltb_spec newsz oldsz); [lia|].
  destruct (PGROUNDUP_spec oldsz) as [Hm Hr]; [unfold KERNBASE in *; lia|].
  destruct (alloc_loop_run (Z.to_nat (newsz / PGSIZE + 1)) k fl k fl d oldsz newsz (PGROUNDUP oldsz) h t)
    as (r & t' & k' & fl' & Hrun & Hv' & Hc); try done; try lia.
  - apply Hv.
  - split; try done; [intros; lia|by left].
  - unfold PGSIZE. pose proof (Z.div_mod newsz 4096). pose proof (Z.mod_pos_bound newsz 4096).
    pose proof (Z.div_pos newsz 4096). lia.
  - exists r, t', k', fl'. split; [done|]. split; [done|].
    destruct Hc as [[-> (a' & [Po Pn Pk _ _] & Ha' & Hm' & Hlast)]|[-> Hres]]; [left|by right].
    split_and!; try done.
    + intros va Hva. apply Pn. lia.
    + intros va Hva. apply Po. intros Hin. apply Hva. split; [lia|].
      destruct (PGROUNDDOWN_mult va). pose proof (Z.div_mod a' 4096). lia.
Qed.

(** ** The theorems *)

(** C9: allocuvm() either gives the process zeroed, writable user pages of its
    own for all of [PGROUNDUP(oldsz), newsz), or fails and leaves every
    translation as it was, with all pages back on the free list except those
    that became page tables.  No other memory changes in either case. *)
Theorem allocuvm_spec k d fl h t oldsz newsz :
  vminv k d fl h -> 0 <= oldsz <= newsz -> newsz < KERNBASE ->
  (forall va, PGROUNDUP oldsz <= PGROUNDDOWN va < KERNBASE -> pte_at k d va = 0) ->
  exists r t' k' fl', allocuvm kend d oldsz newsz (Ctx h t) k = Ok r (Ctx h t') k' /\
    vminv k' d fl' h /\
    ((r = newsz /\ data_kept k k' /\
      (forall va, PGROUNDUP oldsz <= PGROUNDDOWN va < newsz ->
         present (pte_at k' d va) = true /\ PTE_FLAGS (pte_at k' d va) = 7 /\
         pages k' !! frame k' d va = Some zero_bytes /\ frame k' d va ∈ fl) /\
      (forall va, ~ (PGROUNDUP oldsz <= PGROUNDDOWN va < newsz) -> pte_at k' d va = pte_at k d va)) \/
     (r = 0 /\ restored k fl k' fl' d)).
Proof. exact (allocuvm_run k d fl h t oldsz newsz). Qed.

(** mappages() maps every page of the range, linearly from [pa] on, and
    changes no other translation and no page of data; or it runs out of memory
    with a prefix mapped and returns -1.  The allocator's free list and the
    tree of page tables stay intact and disjoint. *)
Theorem mappages_spec k d fl h t va size pa perm :
  vmok k d fl h -> 0 <= va -> 0 < size -> va + size <= 2 ^ 32 ->
  let a := PGROUNDDOWN va in
  let n := (PGROUNDDOWN (va + size - 1) - a) / 4096 in
  0 <= pa -> pa + 4096 * n < 2 ^ 32 ->
  (forall x, a <= PGROUNDDOWN x <= va + size - 1 -> present (pte_at k d x) = false) ->
  exists r j k' fl', mappages d va size pa perm (Ctx h t) k = Ok r (Ctx h t) k' /\
    vmok k' d fl' h /\ data_kept k k' /\ tables_from fl k' fl' /\
    mapped k k' d a pa perm j /\
    ((r = 0 /\ j = n + 1) \/ (r = -1 /\ 0 <= j <= n /\ fl' = [])).
Proof.
  intros Hok Hva Hs Hend a n Hpa Hpe Hnp. unfold mappages. fold a.
  rewrite (u32_small (va + size - 1)) by lia.
  destruct (PGROUNDDOWN_spec va) as [Hm1 Hr1]; [lia|]. fold a in Hm1, Hr1.
  destruct (PGROUNDDOWN_spec (va + size - 1)) as [Hm2 Hr2]; [lia|].
  set (b := PGROUNDDOWN (va + size - 1)) in *.
  destruct (PGROUNDDOWN_mult va) as [qa Hqa], (PGROUNDDOWN_mult (va + size - 1)) as [qb Hqb].
  fold a in Hqa. fold b in Hqb.
  assert (Hn : b = a + 4096 * n /\ 0 <= n).
  { unfold n. replace (b - a) with ((qb - qa) * 4096) by lia. rewrite Z.div_mul by lia. lia. }
  destruct Hn as [Hb Hn]. rewrite u32_small by lia. unfold PGSIZE. fold n.
  assert (0 <= a) by lia.
  destruct (map_loop_run (Z.to_nat n) k d fl h t a pa perm Hok) as (r & j & k' & fl' & Hr & Hrest);
    rewrite ?Z2Nat.id in * by done; try lia.
  { intros x Hx. apply Hnp. lia. }
  exists r, j, k', fl'. rewrite Hb. split; [exact Hr|]. exact Hrest.
Qed.


(** deallocuvm() unmaps exactly the present pages of
    [PGROUNDUP(newsz), oldsz) and puts their frames on the free list, whether
    or not the range has page tables. *)
Theorem deallocuvm_spec k d fl h t oldsz newsz :
  vminv k d fl h -> 0 <= newsz <= oldsz -> oldsz <= KERNBASE ->
  exists k' fl', deallocuvm kend d oldsz newsz (Ctx h t) k = Ok newsz (Ctx h t) k' /\
    vminv k' d fl' h /\ unmapped k fl k' fl' d (PGROUNDUP newsz) oldsz.
Proof. exact (deallocuvm_run k d fl h t oldsz newsz). Qed.

(** copyout() to mapped user pages returns 0 after writing exactly the
    bytes of the buffer at [va], across page boundaries: every other byte of
    the user memory and every translation is unchanged. *)
Theorem copyout_spec k d fl h c va buf :
  vminv k d fl h -> 0 <= va -> va + Z.of_nat (length buf) <= KERNBASE ->
  (forall x, va <= x < va + Z.of_nat (length buf) -> user_ok k d x) ->
  exists k', copyout d va buf c k = Ok 0 c k' /\ vminv k' d fl h /\
    (forall x, pte_at k' d x = pte_at k d x) /\
    forall x, 0 <= x < KERNBASE -> user_ok k d x ->
      vbyte k' d x = if decide (va <= x < va + Z.of_nat (length buf))
                     then buf !! Z.to_nat (x - va) else vbyte k d x.
Proof.
  intros Hv Hva Hend Hok. destruct (copyout_run k d fl h c va buf) as (k' & Hr & Hv' & Hp & _ & Hb); try done. by exists k'.
Qed.
End Spec.

(** ** A small address space *)

Definition demo_end : Z := 2149580800.
Definition demo_dir : Z := 2150629376.
Definition demo_tab : Z := 2150633472.
Definition demo_frame : Z := 2150637568.
Definition demo_free : list Z := [2150694912; 2150699008; 2150703104].

Definition demo_ws : list Z := <[0%nat := user_pde demo_tab]> (replicate 1024 0).
Definition demo_ts : list Z := <[0%nat := user_pte demo_frame]> (replicate 1024 0).

(** One page is mapped at address 0 and three pages are free. *)
Definition demo_mem : kmem := {|
  pages := <[demo_dir := Words demo_ws]> (<[demo_tab := Words demo_ts]>
    (<[demo_frame := zero_bytes]> (<[2150694912 := Run 2150699008]>
      (<[2150699008 := Run 2150703104]> (<[2150703104 := Run 0]> ∅)))));
  use_lock := false;
  freelist := 2150694912;
|}.

Lemma demo_low : KERNBASE < demo_end.
Proof. done. Qed.

Lemma demo_page p : p ∈ [demo_dir; demo_tab; demo_frame] ->
  pages demo_mem !! p = if decide (p = demo_dir) then Some (Words demo_ws)
    else if decide (p = demo_tab) then Some (Words demo_ts) else Some zero_bytes.
Proof.
  intros Hp. repeat (apply elem_of_cons in Hp as [->|Hp]); [..|by apply elem_of_nil in Hp];
    unfold demo_mem; cbn [pages]; by simplify_map_eq.
Qed.

Lemma replicate_head_lookup (v : Z) i x :
  aget (<[0%nat := v]> (replicate 1024 0)) i = Some x -> present x = true -> i = 0 /\ x = v.
Proof.
  unfold aget. destruct (Z.ltb_spec i 0); [done|].
  intros [[Hi ->]|[Hi [-> _]%lookup_replicate]]%lookup_seq_insert Hp; [split; [lia|done]|done].
Qed.

Lemma demo_mem_good p : p ∈ demo_frame :: demo_tab :: demo_free -> good_page demo_end p.
Proof.
  intros Hp. repeat (apply elem_of_cons in Hp as [->|Hp]); [..|by apply elem_of_nil in Hp]; by vm_compute.
Qed.

Lemma demo_tab_pde : present (user_pde demo_tab) = true /\ tbl (user_pde demo_tab) = demo_tab.
Proof. apply (user_pde_facts demo_end demo_low), demo_mem_good. set_solver. Qed.

Lemma demo_frame_pte :
  present (user_pte demo_frame) = true /\ tbl (user_pte demo_frame) = demo_frame /\
  PTE_FLAGS (user_pte demo_frame) = 7.
Proof. apply (user_pte_facts demo_end demo_low), demo_mem_good. set_solver. Qed.

Lemma demo_tab_at : table_at demo_mem demo_tab demo_ts.
Proof. split; [by rewrite demo_page by set_solver|done]. Qed.

Lemma demo_tree : ptree demo_mem demo_dir demo_ws.
Proof.
  assert (Hd : table_at demo_mem demo_dir demo_ws).
  { split; [by rewrite demo_page by set_solver|done]. }
  destruct demo_tab_pde as [Hp Ht].
  split; [done| | |].
  - intros i pde Hi Hpp. destruct (replicate_head_lookup _ _ _ Hi Hpp) as [-> ->]. rewrite Ht.
    exists demo_ts. apply demo_tab_at.
  - intros i pde Hi Hpp. destruct (replicate_head_lookup _ _ _ Hi Hpp) as [-> ->]. by rewrite Ht.
  - intros i j pde pde' Hi Hj Hpp Hpp' _.
    destruct (replicate_head_lookup _ _ _ Hi Hpp), (replicate_head_lookup _ _ _ Hj Hpp'). congruence.
Qed.

Lemma demo_pte va : present (pte_at demo_mem demo_dir va) = true ->
  PDX va = 0 /\ PTX va = 0 /\ pte_at demo_mem demo_dir va = user_pte demo_frame.
Proof.
  pose proof demo_tree as Ht. destruct demo_tab_pde as [Hp Htb].
  unfold pte_at. destruct (present (word_at demo_mem demo_dir (PDX va))) eqn:Hpd; [|done].
  pose proof (table_word demo_mem demo_dir demo_ws (PDX va) (pt_dir _ _ _ Ht) (PDX_range va)) as Hg.
  destruct (replicate_head_lookup _ _ _ Hg Hpd) as [Hx ->]. rewrite Htb. intros Hpt.
  pose proof (table_word demo_mem demo_tab demo_ts (PTX va) demo_tab_at (PTX_range va)) as Hg'.
  destruct (replicate_head_lookup _ _ _ Hg' Hpt) as [Hy ->]. done.
Qed.

Lemma demo_pte_0 va : PGROUNDDOWN va = 0 -> pte_at demo_mem demo_dir va = user_pte demo_frame.
Proof.
  intros Hz. rewrite (pte_at_page _ _ va 0) by done. unfold pte_at.
  assert (H0 : word_at demo_mem demo_dir (PDX 0) = user_pde demo_tab)
    by (unfold word_at; by rewrite demo_page by set_solver).
  rewrite H0. destruct demo_tab_pde as [-> ->].
  unfold word_at. by rewrite demo_page by set_solver.
Qed.

Lemma demo_inv : vminv demo_end demo_mem demo_dir demo_free [].
Proof.
  split; [split; [split| |by eexists; apply demo_tree]|].
  - unfold demo_mem. cbn. repeat (split; [done|]; eexists; split; [by simplify_map_eq|]). done.
  - apply (bool_decide_unpack _). by vm_compute.
  - apply Forall_forall. intros p Hp. apply demo_mem_good. set_solver.
  - done.
  - destruct demo_frame_pte as (_ & Ht & _).
    split.
    + intros va Hva Hp. destruct (demo_pte va Hp) as (_ & _ & He). unfold frame. rewrite He, Ht.
      split; [apply demo_mem_good; set_solver|]. eexists. by rewrite demo_page by set_solver.
    + intros va va' _ _ Hp Hp' _. destruct (demo_pte va Hp) as (? & ? & _), (demo_pte va' Hp') as (? & ? & _).
      apply same_entry_same_page; congruence.
Qed.

Lemma demo_absent va : PGROUNDDOWN va <> 0 -> present (pte_at demo_mem demo_dir va) = false.
Proof.
  intros Hne. destruct (present (pte_at demo_mem demo_dir va)) eqn:Hp; [|done].
  destruct (demo_pte va Hp) as (? & ? & _). destruct Hne.
  by apply (same_entry_same_page va 0).
Qed.

Lemma demo_zero va : PGROUNDDOWN va <> 0 -> pte_at demo_mem demo_dir va = 0.
Proof.
  intros Hne. pose proof demo_tree as Ht. pose proof (demo_absent va Hne) as Ha.
  assert (Hz : forall v i x, aget (<[0%nat := v]> (replicate 1024 0)) i = Some x -> x = v \/ x = 0).
  { intros v i x. unfold aget. destruct (Z.ltb_spec i 0); [done|].
    intros [[_ ->]|[_ [-> _]%lookup_replicate]]%lookup_seq_insert; [by left|by right]. }
  destruct demo_tab_pde as [Hp Htb].
  destruct demo_frame_pte as [Hp' _].
  unfold pte_at in *. destruct (present (word_at demo_mem demo_dir (PDX va))) eqn:Hpd; [|done].
  pose proof (table_word demo_mem demo_dir demo_ws (PDX va) (pt_dir _ _ _ Ht) (PDX_range va)) as Hg.
  destruct (replicate_head_lookup _ _ _ Hg Hpd) as [_ Hw]. rewrite Hw, Htb in *.
  destruct (Hz _ _ _ (table_word demo_mem demo_tab demo_ts (PTX va) demo_tab_at (PTX_range va))) as [He|He]; [|done].
  rewrite He in Ha. congruence.
Qed.

(** ** Witnesses *)

Lemma mappages_spec_witness :
  exists r j k' fl', mappages demo_dir 5000 8192 1048576 PTE_W (Ctx [] []) demo_mem = Ok r (Ctx [] []) k' /\
    vmok demo_end k' demo_dir fl' [] /\ data_kept demo_mem k' /\ tables_from demo_free k' fl' /\
    mapped demo_mem k' demo_dir 4096 1048576 PTE_W j /\
    ((r = 0 /\ j = 2 + 1) \/ (r = -1 /\ 0 <= j <= 2 /\ fl' = [])).
Proof.
  apply (mappages_spec demo_end demo_low); try done.
  - apply demo_inv.
  - intros x Hx. apply demo_absent. change (PGROUNDDOWN 5000) with 4096 in Hx. lia.
Defined.

Lemma allocuvm_spec_witness :
  exists r t' k' fl', allocuvm demo_end demo_dir 4096 9000 (Ctx [] []) demo_mem = Ok r (Ctx [] t') k' /\
    vminv demo_end k' demo_dir fl' [] /\
    ((r = 9000 /\ data_kept demo_mem k' /\
      (forall va, 4096 <= PGROUNDDOWN va < 9000 ->
         present (pte_at k' demo_dir va) = true /\ PTE_FLAGS (pte_at k' demo_dir va) = 7 /\
         pages k' !! frame k' demo_dir va = Some zero_bytes /\ frame k' demo_dir va ∈ demo_free) /\
      (forall va, ~ (4096 <= PGROUNDDOWN va < 9000) ->
         pte_at k' demo_dir va = pte_at demo_mem demo_dir va)) \/
     (r = 0 /\ restored demo_mem demo_free k' fl' demo_dir)).
Proof.
  apply (allocuvm_spec demo_end demo_low demo_mem demo_dir demo_free [] [] 4096 9000);
    [exact demo_inv|lia|done|].
  intros va Hva. apply demo_zero. change (PGROUNDUP 4096) with 4096 in Hva. lia.
Defined.

Lemma deallocuvm_spec_witness :
  exists k' fl', deallocuvm demo_end demo_dir 4000 0 (Ctx [] []) demo_mem = Ok 0 (Ctx [] []) k' /\
    vminv demo_end k' demo_dir fl' [] /\ unmapped demo_mem demo_free k' fl' demo_dir 0 4000.
Proof. apply (deallocuvm_spec demo_end demo_low); [exact demo_inv|lia|done]. Defined.

Lemma copyout_spec_witness :
  exists k', copyout demo_dir 100 [104; 105] (Ctx [] []) demo_mem = Ok 0 (Ctx [] []) k' /\
    vminv demo_end k' demo_dir demo_free [] /\
    (forall x, pte_at k' demo_dir x = pte_at demo_mem demo_dir x) /\
    forall x, 0 <= x < KERNBASE -> user_ok demo_mem demo_dir x ->
      vbyte k' demo_dir x = if decide (100 <= x < 102)
                     then [104; 105] !! Z.to_nat (x - 100) else vbyte demo_mem demo_dir x.
Proof.
  apply (copyout_spec demo_end demo_mem demo_dir demo_free [] (Ctx [] []) 100 [104; 105]);
    [exact demo_inv|lia|done|].
  intros x Hx. cbn in Hx. assert (Hd : PGROUNDDOWN x = 0).
  { rewrite PGROUNDDOWN_div, u32_small, Z.div_small by lia. done. }
  unfold user_ok, frame. rewrite demo_pte_0 by done.
  destruct demo_frame_pte as (-> & -> & _).
  split_and!; [done..|]. exists (replicate 4096 0).
  split; [by rewrite demo_page by set_solver|apply length_replicate].
Defined.
