(* ===== verification/Sleeplock.v ===== *)
(** * Sleeping locks (src/sleeplock.c)

    A sleeplock is a flag and the pid of its holder, protected by the spinlock
    [Lsleep id]; a process that finds it taken sleeps on the channel [id], the
    lock's address. *)

From stdpp Require Import prelude strings list.
From Stdlib Require Import ZArith Lia.
From S2P Require Import Prelude.

Record sleeplock := mksleeplock { locked : Z; lpid : Z }.

#[export] Instance sleeplock_settable : Settable sleeplock :=
  fun l => mksleeplock (locked l) (lpid l).

Definition initsleeplock (id : chan) : M sleeplock unit :=
  initlock (Lsleep id) "sleep lock" ;;
  modS (fun l => l <| locked := 0 |> <| lpid := 0 |>).

(** [while (lk->locked) sleep(lk, &lk->lk);], where [env] is what the rest of
    the machine does during each sleep. *)
Fixpoint sleep_until_free (id : chan) (env : list (sleeplock -> sleeplock)) : M sleeplock unit :=
  l ← getS;
  if locked l =? 0 then mret tt
  else
    match env with
    | [] => sleep id (Lsleep id) [] ;; undef
    | f :: env' => sleep id (Lsleep id) [f] ;; sleep_until_free id env'
    end.

(** [pid] is [myproc()->pid]. *)
Definition acquiresleep (id : chan) (pid : Z) (env : list (sleeplock -> sleeplock)) : M sleeplock unit :=
  acquire (Lsleep id) ;;
  sleep_until_free id env ;;
  modS (fun l => l <| locked := 1 |> <| lpid := pid |>) ;;
  release (Lsleep id).

Definition releasesleep (id : chan) : M sleeplock unit :=
  acquire (Lsleep id) ;;
  modS (fun l => l <| locked := 0 |> <| lpid := 0 |>) ;;
  wakeup id ;;
  release (Lsleep id).

Definition holdingsleep (id : chan) (pid : Z) : M sleeplock bool :=
  acquire (Lsleep id) ;;
  l ← getS;
  let r := negb (locked l =? 0) && (lpid l =? pid) in
  release (Lsleep id) ;;
  mret r.

(** ** What they do *)

(** The first state of the lock, along the sleeps, in which it is free. *)
Fixpoint first_free (env : list (sleeplock -> sleeplock)) (l : sleeplock) : option sleeplock :=
  if locked l =? 0 then Some l
  else match env with [] => None | f :: env' => first_free env' (f l) end.

Fixpoint last_state (env : list (sleeplock -> sleeplock)) (l : sleeplock) : sleeplock :=
  match env with [] => l | f :: env' => last_state env' (f l) end.

Lemma sleep_until_free_run id env t l :
  sleep_until_free id env (Ctx [Lsleep id] t) l =
  match first_free env l with
  | Some l' => Ok tt (Ctx [Lsleep id] t) l'
  | None => Blocked id (Lsleep id) (Ctx [Lsleep id] t) (last_state env l)
  end.
Proof.
  revert l. induction env as [|f env IH]; intros l; cbn [sleep_until_free first_free last_state]; mrun;
    destruct (locked l =? 0); try done; rewrite bindE.
  - by rewrite sleep_blocks.
  - rewrite sleep_alone. apply IH.
Qed.

(** acquiresleep() returns exactly when it finds the lock free at some
    point, then as its only holder and with no spinlock left; as long as the
    lock stays taken the process is asleep on the lock's channel. *)
Theorem acquiresleep_spec id pid env t l :
  acquiresleep id pid env (Ctx [] t) l =
  match first_free env l with
  | Some _ => Ok tt (Ctx [] t) (mksleeplock 1 pid)
  | None => Blocked id (Lsleep id) (Ctx [Lsleep id] t) (last_state env l)
  end.
Proof.
  unfold acquiresleep. mrun. rewrite sleep_until_free_run.
  destruct (first_free env l); cbn [obind]; [|done]. mrun. simpl.
  by destruct (decide (Lsleep id = Lsleep id)).
Qed.

Lemma acquiresleep_free id pid env h t l :
  Lsleep id ∉ h -> locked l = 0 ->
  acquiresleep id pid env (Ctx h t) l = Ok tt (Ctx h t) (mksleeplock 1 pid).
Proof.
  intros Hh Hl. unfold acquiresleep. mrun.
  assert (Hs : forall c, sleep_until_free id env c l = Ok tt c l)
    by (intros c; destruct env; cbn [sleep_until_free]; mrun; by rewrite Hl).
  rewrite Hs. cbn [obind]. mrun. done.
Qed.

Lemma releasesleep_run id h t l :
  Lsleep id ∉ h ->
  releasesleep id (Ctx h t) l = Ok tt (Ctx h (t ++ [Ewakeup id])) (mksleeplock 0 0).
Proof. intros Hh. unfold releasesleep, wakeup. mrun. done. Qed.

Lemma holdingsleep_run id pid h t l :
  Lsleep id ∉ h ->
  holdingsleep id pid (Ctx h t) l =
  Ok (negb (locked l =? 0) && (lpid l =? pid)) (Ctx h t) l.
Proof. intros Hh. unfold holdingsleep. mrun. done. Qed.
