(* ===== verification/Bio.v ===== *)
(** * The buffer cache (src/bio.c, src/buf.h) over a disk driver

    The buffers are the array [bufs]; [lru] is the list threaded through
    next/prev from [head.next], the most recently used, on.  The disk driver is
    the interface [DiskDriver], which src/memide.c implements here and
    src/ide.c in [Ide.v]. *)

From stdpp Require Import prelude gmap strings list.
From Stdlib Require Import ZArith Lia.
From S2P Require Import Prelude Sleeplock.

Definition BSIZE : Z := 512.
Definition NBUF : nat := 30.
Definition ROOTDEV : Z := 1.

Definition B_VALID : Z := 2.
Definition B_DIRTY : Z := 4.

Record buf := mkbuf {
  flags : Z;
  dev : Z;
  blockno : Z;
  block_lock : sleeplock;
  refcnt : Z;
  data : list Z;
}.

#[export] Instance buf_settable : Settable buf :=
  fun b => mkbuf (flags b) (dev b) (blockno b) (block_lock b) (refcnt b) (data b).

Record bcache (D : Type) := mkbcache {
  bufs : list buf;
  lru : list nat;
  disk : D;
}.
Arguments mkbcache {D} _ _ _.
Arguments bufs {D} _.
Arguments lru {D} _.
Arguments disk {D} _.

#[export] Instance bcache_settable D : Settable (bcache D) :=
  fun s => mkbcache (bufs s) (lru s) (disk s).

Definition valid (b : buf) : bool := negb (Z.land (flags b) B_VALID =? 0).
Definition dirty (b : buf) : bool := negb (Z.land (flags b) B_DIRTY =? 0).

(** The blocks a trace of effects wrote, oldest first. *)
Definition disk_write (e : event) : option (Z * list Z) :=
  match e with Edisk x d => Some (x, d) | _ => None end.
Definition disk_writes (t : list event) : list (Z * list Z) := omap disk_write t.

Section Buffers.
Context {D : Type}.
Implicit Types (i : nat) (s : bcache D).

Definition getb i : M (bcache D) buf := s ← getS; of_option (bufs s !! i).
Definition putb i (b : buf) : M (bcache D) unit :=
  modS (fun s => s <| bufs ::= <[i := b]> |>).
Definition modb i (f : buf -> buf) : M (bcache D) unit := b ← getb i; putb i (f b).

(** The sleeplock of buffer [i]. *)
Definition with_lock i {A} (m : M sleeplock A) : M (bcache D) A :=
  b ← getb i;
  zoom (fun _ : bcache D => block_lock b)
    (fun l s => s <| bufs ::= <[i := b <| block_lock := l |> ]> |>) m.

Definition holding_buf (pid : Z) i : M (bcache D) bool :=
  with_lock i (holdingsleep (Cbuflock i) pid).
End Buffers.

(** What the cache needs of a driver. *)
Class DiskDriver (D : Type) := {
  iderw : Z -> nat -> M (bcache D) unit;
}.

Section Bio.
Context {D : Type} `{DiskDriver D}.
Implicit Types (i : nat) (s : bcache D).

Definition binit : M (bcache D) unit :=
  initlock Lbcache "bcache" ;;
  modS (fun s => s <| lru := [] |>) ;;
  mfor (seq 0 NBUF) (fun i =>
    with_lock i (initsleeplock (Cbuflock i)) ;;
    modS (fun s => s <| lru ::= cons i |>)).

(** The first buffer of [l] that [ok] accepts. *)
Fixpoint scan (ok : buf -> bool) (bs : list buf) (l : list nat) : option nat :=
  match l with
  | [] => None
  | i :: l' =>
      match bs !! i with
      | Some b => if ok b then Some i else scan ok bs l'
      | None => None
      end
  end.

Definition bget (pid d x : Z) : M (bcache D) nat :=
  acquire Lbcache ;;
  s ← getS;
  match scan (fun b => (dev b =? d) && (blockno b =? x)) (bufs s) (lru s) with
  | Some i =>
      modb i (fun b => b <| refcnt ::= fun r => u32 (r + 1) |>) ;;
      release Lbcache ;;
      with_lock i (acquiresleep (Cbuflock i) pid []) ;;
      mret i
  | None =>
      match scan (fun b => (refcnt b =? 0) && negb (dirty b)) (bufs s) (reverse (lru s)) with
      | Some i =>
          modb i (fun b => b <| dev := d |> <| blockno := x |> <| flags := 0 |> <| refcnt := 1 |>) ;;
          release Lbcache ;;
          with_lock i (acquiresleep (Cbuflock i) pid []) ;;
          mret i
      | None => panic "bget: no buffers"
      end
  end.

Definition bread (pid d x : Z) : M (bcache D) nat :=
  i ← bget pid d x;
  b ← getb i;
  (if valid b then mret tt else iderw pid i) ;;
  mret i.

Definition bwrite (pid : Z) i : M (bcache D) unit :=
  h ← holding_buf pid i;
  if negb h then panic "bwrite" else
  modb i (fun b => b <| flags ::= fun f => Z.lor f B_DIRTY |>) ;;
  iderw pid i.

Definition brelse (pid : Z) i : M (bcache D) unit :=
  h ← holding_buf pid i;
  if negb h then panic "brelse" else
  with_lock i (releasesleep (Cbuflock i)) ;;
  acquire Lbcache ;;
  modb i (fun b => b <| refcnt ::= fun r => u32 (r - 1) |>) ;;
  b ← getb i;
  (if refcnt b =? 0 then modS (fun s => s <| lru ::= fun l => i :: remove Nat.eq_dec i l |>)
   else mret tt) ;;
  release Lbcache.
End Bio.

(** ** src/memide.c: the disk image in memory *)

Definition memdisk := list (list Z).

(** The image linked into the kernel, cut into [size / BSIZE] blocks. *)
Definition memide_ideinit (img : list Z) : memdisk :=
  (fun k => take (Z.to_nat BSIZE) (drop (k * Z.to_nat BSIZE) img))
    <$> seq 0 (Z.to_nat (u32 (Z.of_nat (length img)) / BSIZE)).

(** No interrupt ever comes from the memory disk: the handler is empty. *)
Definition memide_ideintr : M (bcache memdisk) unit := mret tt.

Definition memide_iderw (pid : Z) (i : nat) : M (bcache memdisk) unit :=
  h ← holding_buf pid i;
  if negb h then panic "iderw: buf not locked" else
  b ← getb i;
  if Z.land (flags b) (Z.lor B_VALID B_DIRTY) =? B_VALID then panic "iderw: nothing to do" else
  if negb (dev b =? 1) then panic "iderw: request not for disk 1" else
  s ← getS;
  let disksize := Z.of_nat (length (disk s)) in
  if disksize <=? blockno b then panic "iderw: block out of range" else
  p ← rd (disk s) (blockno b);
  (if dirty b then
     modb i (fun b => b <| flags ::= fun f => Z.land f (Z.lnot B_DIRTY) |>) ;;
     disk' ← wr (disk s) (blockno b) (data b);
     modS (fun s => s <| disk := disk' |>) ;;
     emit (Edisk (blockno b) (data b))
   else modb i (fun b => b <| data := p |>)) ;;
  modb i (fun b => b <| flags ::= fun f => Z.lor f B_VALID |>).

#[export] Instance memide_driver : DiskDriver memdisk := {| iderw := memide_iderw |}.
