(* ===== verification/BioSpec.v ===== *)
(** * The buffer cache implements an abstract cache (src/bio.c)

    [acache] is what the cache promises to its clients: the blocks on the disk,
    the modified blocks that may not be evicted, and the buffers in use with
    their contents.  [cache_rel] relates it to the buffers, and each operation
    is shown to do its abstract step, given a driver that satisfies
    [DriverOk]; the driver of src/memide.c does. *)

From stdpp Require Import prelude gmap strings list.
From Stdlib Require Import ZArith Lia.
From S2P Require Import Prelude Sleeplock Bio.

(** ** Flags *)

Lemma land_pow2 f n : 0 <= n -> negb (Z.land f (2 ^ n) =? 0) = Z.testbit f n.
Proof.
  intros Hn. assert (Hb : forall m, Z.testbit (2 ^ n) m = bool_decide (m = n)).
  { intros m. case_bool_decide as Hm; [subst; by apply Z.pow2_bits_true|].
    by apply Z.pow2_bits_false, not_eq_sym. }
  destruct (Z.testbit f n) eqn:Ht.
  - destruct (Z.eqb_spec (Z.land f (2 ^ n)) 0) as [H0|]; [|done].
    assert (Hl : Z.testbit (Z.land f (2 ^ n)) n = true)
      by (by rewrite Z.land_spec, Ht, Hb, bool_decide_true).
    by rewrite H0, Z.bits_0 in Hl.
  - replace (Z.land f (2 ^ n)) with 0; [done|]. symmetry. apply Z.bits_inj_0. intros m.
    rewrite Z.land_spec, Hb. case_bool_decide; [subst; by rewrite Ht|apply andb_false_r].
Qed.

Lemma valid_bit b : valid b = Z.testbit (flags b) 1.
Proof. exact (land_pow2 (flags b) 1 ltac:(lia)). Qed.

Lemma dirty_bit b : dirty b = Z.testbit (flags b) 2.
Proof. exact (land_pow2 (flags b) 2 ltac:(lia)). Qed.

Lemma dirty_set b : dirty (b <| flags ::= fun f => Z.lor f B_DIRTY |>) = true.
Proof.
  rewrite dirty_bit. change (Z.testbit (Z.lor (flags b) B_DIRTY) 2 = true).
  rewrite Z.lor_spec. apply orb_true_r.
Qed.

Lemma nothing_to_do b :
  (Z.land (flags b) (Z.lor B_VALID B_DIRTY) =? B_VALID) = valid b && negb (dirty b).
Proof.
  rewrite valid_bit, dirty_bit. change (Z.lor B_VALID B_DIRTY) with 6.
  assert (Hd : Z.land (flags b) 6 = Z.b2z (Z.testbit (flags b) 1) * 2 + Z.b2z (Z.testbit (flags b) 2) * 4).
  { apply Z.bits_inj'. intros n Hn. rewrite Z.land_spec.
    destruct (decide (n = 1)) as [->|]; [by destruct (Z.testbit _ 1), (Z.testbit _ 2)|].
    destruct (decide (n = 2)) as [->|]; [by destruct (Z.testbit _ 1), (Z.testbit _ 2)|].
    assert (H6 : forall k, 0 <= k <= 6 -> k mod 2 = 0 -> Z.testbit k n = false).
    { intros k Hk Hk2. pose proof (Z.div_mod k 2). destruct (decide (n = 0)) as [->|]; [by assert (k = 0 \/ k = 2 \/ k = 4 \/ k = 6) as [->|[->|[->| ->]]] by lia|].
      apply Z.bits_above_log2; [lia|]. destruct (decide (k = 0)) as [->|]; [simpl; lia|].
      apply Z.log2_lt_pow2; [lia|]. assert (2 ^ 3 <= 2 ^ n) by (apply Z.pow_le_mono_r; lia). lia. }
    rewrite (H6 6), andb_false_r by done.
    symmetry. apply H6; by destruct (Z.testbit _ 1), (Z.testbit _ 2). }
  rewrite Hd. by destruct (Z.testbit (flags b) 1), (Z.testbit (flags b) 2).
Qed.

(** The flags after the driver has synchronised a buffer. *)
Definition synced (f : Z) : Z := Z.lor (Z.land f (Z.lnot B_DIRTY)) B_VALID.

Lemma testbit_synced f : Z.testbit (synced f) 1 = true /\ Z.testbit (synced f) 2 = false.
Proof.
  unfold synced. rewrite !Z.lor_spec, !Z.land_spec, !Z.lnot_spec by lia.
  change (Z.testbit B_DIRTY 2) with true. rewrite andb_false_r, orb_true_r. done.
Qed.

Lemma synced_clean f : Z.testbit f 2 = false -> Z.lor f B_VALID = synced f.
Proof.
  intros Hf. unfold synced. f_equal. apply Z.bits_inj'. intros n Hn.
  rewrite Z.land_spec, Z.lnot_spec by lia.
  destruct (decide (n = 2)) as [->|Hne]; [by rewrite Hf|].
  change B_DIRTY with (2 ^ 2). rewrite Z.pow2_bits_false by done. by rewrite andb_true_r.
Qed.

(** ** The driver's contract *)

Definition locked_by (pid : Z) (b : buf) : Prop := block_lock b = mksleeplock 1 pid.

Class DriverOk (D : Type) `{DiskDriver D} := {
  dok : D -> Prop;
  dsize : D -> Z;
  dblock : D -> Z -> list Z;
  dblock_length : forall d x, dok d -> 0 <= x < dsize d -> length (dblock d x) = 512%nat;
  iderw_ok : forall pid i b t s,
    dok (disk s) -> bufs s !! i = Some b -> pid <> 0 -> locked_by pid b ->
    dev b = ROOTDEV -> 0 <= blockno b < dsize (disk s) -> length (data b) = 512%nat ->
    valid b && negb (dirty b) = false ->
    exists d' ev,
      iderw pid i (Ctx [] t) s = Ok tt (Ctx [] (t ++ ev))
        (s <| bufs ::= <[i := b <| flags ::= synced |>
             <| data := if dirty b then data b else dblock (disk s) (blockno b) |> ]> |>
           <| disk := d' |>) /\
      dok d' /\ dsize d' = dsize (disk s) /\
      disk_writes ev = (if dirty b then [(blockno b, data b)] else []) /\
      forall x, 0 <= x < dsize (disk s) ->
        dblock d' x = if dirty b && (x =? blockno b) then data b else dblock (disk s) x;
}.

(** ** Running the pieces *)

Section Runs.
Context {D : Type}.
Implicit Types (s : bcache D).

Lemma getb_run i b c s : bufs s !! i = Some b -> getb i c s = Ok b c s.
Proof. intros Hb. unfold getb. mrun. by rewrite Hb. Qed.

Lemma modb_run i b f c s :
  bufs s !! i = Some b -> modb i f c s = Ok tt c (s <| bufs ::= <[i := f b]> |>).
Proof. intros Hb. unfold modb. rewrite bindE, (getb_run i b) by done. done. Qed.

Lemma with_lock_run {A} i b (m : M sleeplock A) c s a c' l :
  bufs s !! i = Some b -> m c (block_lock b) = Ok a c' l ->
  with_lock i m c s = Ok a c' (s <| bufs ::= <[i := b <| block_lock := l |> ]> |>).
Proof.
  intros Hb Hm. unfold with_lock. rewrite bindE, (getb_run i b) by done. cbn [obind].
  unfold zoom. by rewrite Hm.
Qed.

Lemma buf_eta_lock b : b <| block_lock := block_lock b |> = b.
Proof. by destruct b. Qed.

Lemma bufs_same i b s : bufs s !! i = Some b -> s <| bufs ::= <[i := b]> |> = s.
Proof. intros Hb. destruct s as [bs l d]. cbv in Hb |- *. f_equal. by apply list_insert_id. Qed.

Lemma holding_buf_run pid i b h t s :
  bufs s !! i = Some b -> Lsleep (Cbuflock i) ∉ h ->
  holding_buf pid i (Ctx h t) s =
  Ok (negb (locked (block_lock b) =? 0) && (lpid (block_lock b) =? pid)) (Ctx h t) s.
Proof.
  intros Hb Hh. unfold holding_buf.
  erewrite with_lock_run; [|exact Hb|by apply holdingsleep_run].
  by rewrite buf_eta_lock, bufs_same.
Qed.

Lemma holding_mine pid i b h t s :
  bufs s !! i = Some b -> Lsleep (Cbuflock i) ∉ h -> locked_by pid b ->
  holding_buf pid i (Ctx h t) s = Ok true (Ctx h t) s.
Proof. intros Hb Hh Hl. rewrite (holding_buf_run pid i b) by done. rewrite Hl. simpl. by rewrite Z.eqb_refl. Qed.
End Runs.

(** ** src/memide.c satisfies the contract *)

#[export] Instance memide_ok : DriverOk memdisk.
Proof.
  refine {| dok := fun d => Forall (fun bl => length bl = 512%nat) d;
            dsize := fun d => Z.of_nat (length d);
            dblock := fun d x => default [] (d !! Z.to_nat x) |}.
  - intros d x Hd Hx. destruct (lookup_lt_is_Some_2 d (Z.to_nat x)) as [bl Hbl]; [lia|].
    rewrite Hbl. simpl. rewrite Forall_forall in Hd. apply Hd. by eapply list_elem_of_lookup_2.
  - intros pid i b t s Hok Hb Hpid Hl Hdev Hx Hlen Hflags. cbn [iderw memide_driver].
    assert (Hp : aget (disk s) (blockno b) = Some (default [] (disk s !! Z.to_nat (blockno b)))).
    { unfold aget. destruct (Z.ltb_spec (blockno b) 0); [lia|].
      by destruct (lookup_lt_is_Some_2 (disk s) (Z.to_nat (blockno b))) as [bl ->]; [lia|]. }
    assert (Hrun : memide_iderw pid i (Ctx [] t) s =
      ((if dirty b then
          modb i (fun b => b <| flags ::= fun f => Z.land f (Z.lnot B_DIRTY) |>) ;;
          disk' ← wr (disk s) (blockno b) (data b);
          modS (fun s => s <| disk := disk' |>) ;;
          emit (Edisk (blockno b) (data b))
        else modb i (fun b0 => b0 <| data := default [] (disk s !! Z.to_nat (blockno b)) |>)) ;;
       modb i (fun b => b <| flags ::= fun f => Z.lor f B_VALID |>)) (Ctx [] t) s).
    { unfold memide_iderw. rewrite bindE, (holding_mine pid i b) by (done || set_solver). cbn [obind negb].
      rewrite bindE, (getb_run i b) by done. cbn [obind].
      rewrite nothing_to_do, Hflags, Hdev. change (negb (ROOTDEV =? 1)) with false. mrun.
      destruct (Z.leb_spec (Z.of_nat (length (disk s))) (blockno b)); [lia|].
      unfold rd. rewrite Hp. mrun. done. }
    rewrite Hrun. clear Hrun.
    assert (Hi : (i < length (bufs s))%nat) by (by eapply lookup_lt_Some).
    destruct (dirty b) eqn:Hd.
    + exists (<[Z.to_nat (blockno b) := data b]> (disk s)), [Edisk (blockno b) (data b)].
      unfold wr. rewrite aset_in by lia. rewrite !bindE, (modb_run i b) by done. cbn [obind]. mrun.
      erewrite modb_run by (simpl; apply list_lookup_insert_eq; lia). simpl.
      split_and!; [|..].
      * unfold synced. f_equal. cbn. by rewrite list_insert_insert_eq.
      * apply Forall_insert; [done|done].
      * by rewrite length_insert.
      * done.
      * intros x Hx'. destruct (Z.eqb_spec x (blockno b)) as [->|Hne].
        -- by rewrite list_lookup_insert_eq by lia.
        -- by rewrite list_lookup_insert_ne by lia.
    + exists (disk s), []. rewrite app_nil_r. rewrite bindE, (modb_run i b) by done. cbn [obind].
      erewrite modb_run by (simpl; apply list_lookup_insert_eq; lia).
      rewrite dirty_bit in Hd. split_and!; try done.
      f_equal. destruct s as [bs lr dk]. cbn. by rewrite list_insert_insert_eq, synced_clean.
Defined.

(** ** The abstract cache *)

Record held_buf := Held { hblock : Z; hdata : list Z; hdirty : bool }.

Record acache := mkacache {
  adisk : Z -> list Z;              (* the blocks on the disk *)
  asize : Z;
  pins : gmap Z (list Z);           (* modified blocks, not in use *)
  aheld : gmap nat held_buf;        (* the buffers in use *)
}.

#[export] Instance acache_settable : Settable acache :=
  fun a => mkacache (adisk a) (asize a) (pins a) (aheld a).

(** The contents of block [x] for the next reader. *)
Definition aview (a : acache) (x : Z) : list Z := default (adisk a x) (pins a !! x).

Definition unheld (a : acache) (x : Z) : Prop :=
  forall i h, aheld a !! i = Some h -> hblock h <> x.

(** There is a buffer that holds [x] or may be recycled for it. *)
Definition room (a : acache) (x : Z) : Prop :=
  is_Some (pins a !! x) \/ (size (pins a) + size (aheld a) < NBUF)%nat.

Definition a_bread (a : acache) (i : nat) (x : Z) : acache :=
  a <| aheld ::= <[i := Held x (aview a x) (bool_decide (is_Some (pins a !! x)))]> |>
    <| pins ::= delete x |>.

Definition a_bwrite (a : acache) (i : nat) (h : held_buf) : acache :=
  a <| adisk ::= fun d x => if x =? hblock h then hdata h else d x |>
    <| aheld ::= <[i := Held (hblock h) (hdata h) false]> |>.

Definition a_brelse (a : acache) (i : nat) (h : held_buf) : acache :=
  a <| aheld ::= delete i |>
    <| pins ::= fun p => if hdirty h then <[hblock h := hdata h]> p else p |>.

Definition a_setdata (a : acache) (i : nat) (h : held_buf) (d : list Z) : acache :=
  a <| aheld ::= <[i := Held (hblock h) d (hdirty h)]> |>.

Definition a_pin (a : acache) (i : nat) (h : held_buf) : acache :=
  a <| aheld ::= <[i := Held (hblock h) (hdata h) true]> |>.

(** What the cache promises to its clients, for one process. *)
Class BlockCache (S : Type) := {
  c_bread : Z -> Z -> M S nat;
  c_bwrite : nat -> M S unit;
  c_brelse : nat -> M S unit;
  c_buf : nat -> M S buf;
  c_setdata : nat -> list Z -> M S unit;
  c_setdirty : nat -> M S unit;
  c_rel : S -> acache -> Prop;
  c_adisk_length : forall s a x, c_rel s a -> 0 <= x < asize a -> length (adisk a x) = 512%nat;
  c_bread_ok : forall s a x t,
    c_rel s a -> 0 <= x < asize a -> unheld a x -> room a x ->
    exists i s' ev, c_bread ROOTDEV x (Ctx [] t) s = Ok i (Ctx [] (t ++ ev)) s' /\
      disk_writes ev = [] /\ aheld a !! i = None /\ c_rel s' (a_bread a i x);
  c_bwrite_ok : forall s a i h t,
    c_rel s a -> aheld a !! i = Some h ->
    exists s' ev, c_bwrite i (Ctx [] t) s = Ok tt (Ctx [] (t ++ ev)) s' /\
      disk_writes ev = [(hblock h, hdata h)] /\ c_rel s' (a_bwrite a i h);
  c_brelse_ok : forall s a i h t,
    c_rel s a -> aheld a !! i = Some h ->
    hdirty h = true \/ hdata h = adisk a (hblock h) ->
    exists s' ev, c_brelse i (Ctx [] t) s = Ok tt (Ctx [] (t ++ ev)) s' /\
      disk_writes ev = [] /\ c_rel s' (a_brelse a i h);
  c_buf_ok : forall s a i h c,
    c_rel s a -> aheld a !! i = Some h ->
    exists b, c_buf i c s = Ok b c s /\ data b = hdata h /\ blockno b = hblock h /\
      length (hdata h) = 512%nat /\ 0 <= hblock h < asize a;
  c_setdata_ok : forall s a i h d c,
    c_rel s a -> aheld a !! i = Some h -> length d = 512%nat ->
    exists s', c_setdata i d c s = Ok tt c s' /\ c_rel s' (a_setdata a i h d);
  c_setdirty_ok : forall s a i h c,
    c_rel s a -> aheld a !! i = Some h ->
    exists s', c_setdirty i c s = Ok tt c s' /\ c_rel s' (a_pin a i h);
  c_held_fresh : forall s a i h,
    c_rel s a -> aheld a !! i = Some h -> pins a !! hblock h = None;
}.

Section Refinement.
Context {D : Type} `{DiskDriver D} `{!DriverOk D} (pid : Z) (pid_pos : pid <> 0).
Implicit Types (i : nat) (s : bcache D) (a : acache).

(** A buffer that nobody uses. *)
Definition idle_ok (a : acache) (b : buf) : Prop :=
  locked (block_lock b) = 0 /\ refcnt b = 0 /\
  (dev b = ROOTDEV ->
     0 <= blockno b < asize a /\
     if dirty b then valid b = true /\ pins a !! blockno b = Some (data b)
     else valid b = true -> data b = adisk a (blockno b)) /\
  (dev b <> ROOTDEV -> dirty b = false).

(** A buffer in use. *)
Definition used_ok (a : acache) (b : buf) (h : held_buf) : Prop :=
  locked_by pid b /\ refcnt b = 1 /\ dev b = ROOTDEV /\ valid b = true /\
  blockno b = hblock h /\ data b = hdata h /\ dirty b = hdirty h /\ 0 <= hblock h < asize a.

Definition buf_ok (a : acache) i (b : buf) : Prop :=
  length (data b) = 512%nat /\
  match aheld a !! i with Some h => used_ok a b h | None => idle_ok a b end.

Record cache_rel (s : bcache D) (a : acache) : Prop := {
  cr_len : length (bufs s) = NBUF;
  cr_lru : lru s ≡ₚ seq 0 NBUF;
  cr_dok : dok (disk s);
  cr_size : dsize (disk s) = asize a;
  cr_disk : forall x, 0 <= x < asize a -> dblock (disk s) x = adisk a x;
  cr_buf : forall i b, bufs s !! i = Some b -> buf_ok a i b;
  cr_uniq : forall i j b b', bufs s !! i = Some b -> bufs s !! j = Some b' ->
    dev b = ROOTDEV -> dev b' = ROOTDEV -> blockno b = blockno b' -> i = j;
  cr_held : forall i h, aheld a !! i = Some h -> is_Some (bufs s !! i);
  cr_pins : forall x d, pins a !! x = Some d -> exists i b,
    bufs s !! i = Some b /\ dev b = ROOTDEV /\ blockno b = x /\ dirty b = true /\ aheld a !! i = None;
}.

Lemma rel_used s a i h :
  cache_rel s a -> aheld a !! i = Some h -> exists b, bufs s !! i = Some b /\ used_ok a b h.
Proof.
  intros Hr Hh. destruct (cr_held _ _ Hr i h Hh) as [b Hb]. exists b. split; [done|].
  destruct (cr_buf _ _ Hr i b Hb) as [_ Hok]. by rewrite Hh in Hok.
Qed.

Lemma rel_idle s a i b :
  cache_rel s a -> bufs s !! i = Some b -> aheld a !! i = None -> idle_ok a b.
Proof. intros Hr Hb Hh. destruct (cr_buf _ _ Hr i b Hb) as [_ Hok]. by rewrite Hh in Hok. Qed.

(** A held block is not among the idle modified ones. *)
Lemma held_not_pinned s a i h :
  cache_rel s a -> aheld a !! i = Some h -> pins a !! hblock h = None.
Proof.
  intros Hr Hh. destruct (pins a !! hblock h) as [d|] eqn:Hp; [|done].
  destruct (cr_pins _ _ Hr _ _ Hp) as (j & b & Hb & Hd & Hx & _ & Hj).
  destruct (rel_used s a i h Hr Hh) as (b' & Hb' & _ & _ & Hd' & _ & Hx' & _).
  assert (i = j) by (eapply (cr_uniq _ _ Hr); eauto; congruence). congruence.
Qed.

(** ** Looking for a buffer *)

Lemma scan_Some ok bs l i :
  scan ok bs l = Some i -> i ∈ l /\ exists b, bs !! i = Some b /\ ok b = true.
Proof.
  induction l as [|j l IH]; simpl; [done|]. destruct (bs !! j) as [b|] eqn:Hb; [|done].
  destruct (ok b) eqn:Hok.
  - intros [= ->]. split; [apply elem_of_cons; by left|]. eauto.
  - intros Hs. destruct (IH Hs). split; [apply elem_of_cons; by right|done].
Qed.

Lemma scan_None ok bs l :
  (forall i, i ∈ l -> is_Some (bs !! i)) -> scan ok bs l = None ->
  forall i b, i ∈ l -> bs !! i = Some b -> ok b = false.
Proof.
  induction l as [|j l IH]; simpl; intros Hall Hs i b Hi Hb; [by apply elem_of_nil in Hi|].
  destruct (Hall j) as [bj Hbj]; [apply elem_of_cons; by left|]. rewrite Hbj in Hs.
  destruct (ok bj) eqn:Hok; [done|].
  apply elem_of_cons in Hi as [->|Hi]; [congruence|]. eapply IH; eauto.
  intros k Hk. apply Hall, elem_of_cons. by right.
Qed.

Lemma lru_all s a i : cache_rel s a -> i ∈ lru s <-> is_Some (bufs s !! i).
Proof.
  intros Hr. rewrite (cr_lru _ _ Hr), elem_of_seq, lookup_lt_is_Some, (cr_len _ _ Hr). lia.
Qed.

Local Opaque NBUF.

(** ** Operations on a held buffer *)

(** Buffer [i], in use for the same block, and the disk at that block change. *)
Lemma rel_update s a i h b b' h' d' ad :
  cache_rel s a -> aheld a !! i = Some h -> bufs s !! i = Some b ->
  hblock h' = hblock h -> length (data b') = 512%nat ->
  used_ok (a <| adisk := ad |>) b' h' ->
  dok d' -> dsize d' = asize a ->
  (forall x, 0 <= x < asize a -> dblock d' x = ad x) ->
  (forall x, x <> hblock h -> ad x = adisk a x) ->
  cache_rel (s <| bufs ::= <[i := b']> |> <| disk := d' |>)
            (a <| aheld ::= <[i := h']> |> <| adisk := ad |>).
Proof.
  intros Hr Hh Hb Hx Hlen Hu Hdok Hsz Hd Had.
  assert (Hi : (i < length (bufs s))%nat) by (by eapply lookup_lt_Some).
  destruct (rel_used s a i h Hr Hh) as (b0 & Hb0 & _ & _ & Hdev0 & _ & Hblk0 & _).
  rewrite Hb in Hb0. injection Hb0 as <-.
  pose proof Hu as (_ & _ & Hdev' & _ & Hblk' & _).
  assert (Hsame : forall j c, bufs s !! j = Some c -> j <> i -> dev c = ROOTDEV -> blockno c <> hblock h).
  { intros j c Hc Hne Hdc He. apply Hne. eapply (cr_uniq _ _ Hr); eauto. congruence. }
  split; simpl.
  - by rewrite length_insert, (cr_len _ _ Hr).
  - apply Hr.
  - done.
  - done.
  - done.
  - intros j c [[<- ->]|[Hne Hc]]%lookup_seq_insert.
    + split; [done|]. simpl. by rewrite lookup_insert_eq.
    + destruct (cr_buf _ _ Hr j c Hc) as [Hl Hok]. split; [done|]. simpl.
      rewrite lookup_insert_ne by done. destruct (aheld a !! j) as [hj|] eqn:Hj.
      * done.
      * destruct Hok as (H1 & H2 & H3 & H4). split_and!; try done. intros Hdc. destruct (H3 Hdc) as [Hr3 Hif].
        split; [done|]. simpl. destruct (dirty c); [done|]. rewrite Had; [done|]. by eapply Hsame.
  - intros j k c c' Hj Hk Hdc Hdc' He.
    apply lookup_seq_insert in Hj as [[<- ->]|[Hnj Hj]]; apply lookup_seq_insert in Hk as [[<- ->]|[Hnk Hk]].
    + done.
    + exfalso. eapply Hsame; [exact Hk|by apply not_eq_sym|done|congruence].
    + exfalso. eapply Hsame; [exact Hj|by apply not_eq_sym|done|congruence].
    + by eapply (cr_uniq _ _ Hr).
  - intros j hj Hj. destruct (decide (i = j)) as [<-|Hne].
    + rewrite list_lookup_insert_eq by done. done.
    + rewrite list_lookup_insert_ne by done. rewrite lookup_insert_ne in Hj by done. by eapply (cr_held _ _ Hr).
  - intros x d Hp. destruct (cr_pins _ _ Hr x d Hp) as (j & c & Hc & Hdc & Hbc & Hdd & Hj).
    assert (i <> j) by congruence. exists j, c.
    rewrite list_lookup_insert_ne, lookup_insert_ne by done. done.
Qed.

Lemma acache_eta_disk a : a <| adisk := adisk a |> = a.
Proof. by destruct a. Qed.

Lemma rel_update_buf s a i h b b' h' :
  cache_rel s a -> aheld a !! i = Some h -> bufs s !! i = Some b ->
  hblock h' = hblock h -> length (data b') = 512%nat -> used_ok a b' h' ->
  cache_rel (s <| bufs ::= <[i := b']> |>) (a <| aheld ::= <[i := h']> |>).
Proof.
  intros Hr Hh Hb Hx Hlen Hu.
  pose proof (rel_update s a i h b b' h' (disk s) (adisk a) Hr Hh Hb Hx Hlen) as HH.
  destruct s, a. apply HH; simpl; try done; apply Hr.
Qed.

(** Writing to the data of a held buffer. *)
Lemma setdata_run s a i h d c :
  cache_rel s a -> aheld a !! i = Some h -> length d = 512%nat ->
  exists s', modb i (fun b => b <| data := d |>) c s = Ok tt c s' /\ cache_rel s' (a_setdata a i h d).
Proof.
  intros Hr Hh Hd. destruct (rel_used s a i h Hr Hh) as (b & Hb & Hu).
  eexists. rewrite (modb_run i b) by done. split; [done|].
  eapply (rel_update_buf s a i h b); try done. destruct Hu as (? & ? & ? & ? & ? & ? & ? & ?). unfold used_ok. split_and!; done || (simpl; lia).
Qed.

(** Setting B_DIRTY in a held buffer. *)
Lemma pin_run s a i h c :
  cache_rel s a -> aheld a !! i = Some h ->
  exists s', modb i (fun b => b <| flags ::= fun f => Z.lor f B_DIRTY |>) c s = Ok tt c s' /\
    cache_rel s' (a_pin a i h).
Proof.
  intros Hr Hh. destruct (rel_used s a i h Hr Hh) as (b & Hb & Hu).
  destruct (cr_buf _ _ Hr i b Hb) as [Hl _].
  eexists. rewrite (modb_run i b) by done. split; [done|].
  eapply (rel_update_buf s a i h b); try done. destruct Hu as (? & ? & ? & Hv & ? & ? & ? & ?).
  unfold used_ok. split_and!; try done; try (simpl; lia).
  - rewrite valid_bit in *. change (Z.testbit (Z.lor (flags b) B_DIRTY) 1 = true). by rewrite Z.lor_spec, Hv.
  - apply dirty_set.
Qed.

Lemma bwrite_run s a i h t :
  cache_rel s a -> aheld a !! i = Some h ->
  exists s' ev, bwrite pid i (Ctx [] t) s = Ok tt (Ctx [] (t ++ ev)) s' /\
    disk_writes ev = [(hblock h, hdata h)] /\ cache_rel s' (a_bwrite a i h).
Proof.
  intros Hr Hh. destruct (rel_used s a i h Hr Hh) as (b & Hb & Hu).
  destruct (cr_buf _ _ Hr i b Hb) as [Hl _].
  pose proof Hu as (Hlk & Href & Hdev & Hv & Hblk & Hdat & Hdt & Hrange).
  set (b1 := b <| flags ::= fun f => Z.lor f B_DIRTY |>).
  assert (Hd1 : dirty b1 = true) by apply dirty_set.
  assert (Hi : (i < length (bufs s))%nat) by (by eapply lookup_lt_Some).
  destruct (iderw_ok pid i b1 t (s <| bufs ::= <[i := b1]> |>)) as (d' & ev & Hrun & Hdok & Hsz & Hev & Hd');
    try done.
  { apply Hr. }
  { simpl. by rewrite list_lookup_insert_eq. }
  { simpl. rewrite (cr_size _ _ Hr), Hblk. done. }
  { rewrite Hd1. apply andb_false_r. }
  rewrite Hd1 in Hrun, Hev, Hd'. simpl in Hev, Hd', Hsz. rewrite Hblk, Hdat in Hev.
  rewrite (cr_size _ _ Hr) in Hsz, Hd'.
  eexists _, ev. split_and!; [|done|].
  - unfold bwrite. rewrite bindE, (holding_mine pid i b) by (done || set_solver). cbn [obind negb].
    rewrite bindE, (modb_run i b) by done. cbn [obind]. fold b1. rewrite Hrun. done.
  - unfold a_bwrite.
    set (b2 := b1 <| flags ::= synced |> <| data := data b1 |>).
    set (ad := fun x => if x =? hblock h then hdata h else adisk a x).
    pose proof (rel_update s a i h b b2 (Held (hblock h) (hdata h) false) d' ad Hr Hh Hb) as HH.
    destruct s as [bs lr dk], a as [adk asz pn ah]. cbn in HH |- *.
    rewrite list_insert_insert_eq. apply HH; try done.
    + destruct (testbit_synced (flags b1)) as [Hs1 Hs2].
      unfold used_ok. split_and!; try done; [by rewrite valid_bit|by rewrite dirty_bit|apply Hrange..].
    + intros x Hx. rewrite Hd' by done. unfold ad. simpl. rewrite Hblk, Hdat.
      destruct (x =? hblock h); [done|]. by apply (cr_disk _ _ Hr).
    + intros x Hx. unfold ad. by destruct (Z.eqb_spec x (hblock h)).
Qed.

Lemma remove_perm (i : nat) l k : l ≡ₚ k -> NoDup k -> i ∈ k -> i :: remove Nat.eq_dec i l ≡ₚ k.
Proof.
  intros Hp Hnd Hi. rewrite <- Hp in Hi, Hnd. rewrite <- Hp. clear k Hp.
  induction l as [|j l IH]; [by apply elem_of_nil in Hi|]. apply NoDup_cons in Hnd as [Hj Hnd].
  simpl. destruct (Nat.eq_dec i j) as [->|Hne].
  - rewrite notin_remove; [done|]. by rewrite <- list_elem_of_In.
  - apply elem_of_cons in Hi as [->|Hi]; [done|]. rewrite perm_swap. by rewrite IH.
Qed.

(** A buffer is released clean, or pinned by B_DIRTY. *)
Lemma brelse_run s a i h t :
  cache_rel s a -> aheld a !! i = Some h ->
  hdirty h = true \/ hdata h = adisk a (hblock h) ->
  exists s' ev, brelse pid i (Ctx [] t) s = Ok tt (Ctx [] (t ++ ev)) s' /\
    disk_writes ev = [] /\ cache_rel s' (a_brelse a i h).
Proof.
  intros Hr Hh Hclean. destruct (rel_used s a i h Hr Hh) as (b & Hb & Hu).
  destruct (cr_buf _ _ Hr i b Hb) as [Hl _].
  pose proof Hu as (Hlk & Href & Hdev & Hv & Hblk & Hdat & Hdt & Hrange).
  assert (Hi : (i < length (bufs s))%nat) by (by eapply lookup_lt_Some).
  set (b2 := b <| block_lock := mksleeplock 0 0 |> <| refcnt := 0 |>).
  exists (s <| bufs ::= <[i := b2]> |> <| lru ::= fun l => i :: remove Nat.eq_dec i l |>), [Ewakeup (Cbuflock i)].
  split_and!; [|done|].
  - unfold brelse. rewrite bindE, (holding_mine pid i b) by (done || set_solver). cbn [obind negb].
    rewrite bindE. erewrite with_lock_run; [|exact Hb|apply releasesleep_run; set_solver]. cbn [obind]. mrun.
    erewrite modb_run by (simpl; by apply list_lookup_insert_eq). cbn [obind].
    rewrite bindE. erewrite getb_run by (simpl; apply list_lookup_insert_eq; by rewrite length_insert).
    cbn [obind]. simpl. rewrite Href. change (u32 (1 - 1)) with 0. cbn [Z.eqb]. mrun.
    f_equal. unfold b2. destruct s as [bs lr dk]. cbn. by rewrite list_insert_insert_eq.
  - pose proof (held_not_pinned s a i h Hr Hh) as Hnp.
    assert (Hother : forall j c, bufs s !! j = Some c -> j <> i -> dev c = ROOTDEV -> blockno c <> hblock h).
    { intros j c Hc Hne Hdc He. apply Hne. eapply (cr_uniq _ _ Hr); eauto. congruence. }
    split; simpl.
    + by rewrite length_insert, (cr_len _ _ Hr).
    + apply remove_perm; [apply Hr|apply NoDup_seq|].
      rewrite elem_of_seq. rewrite (cr_len _ _ Hr) in Hi. lia.
    + apply Hr.
    + apply Hr.
    + apply Hr.
    + intros j c [[<- ->]|[Hne Hc]]%lookup_seq_insert.
      * split; [done|]. simpl. rewrite lookup_delete_eq. split_and!; try done. intros _.
        change (blockno b2) with (blockno b). change (data b2) with (data b).
        change (dirty b2) with (dirty b). change (valid b2) with (valid b).
        rewrite Hdt, Hblk, Hdat. split; [done|]. destruct (hdirty h) eqn:Hdh.
        -- split; [done|]. unfold a_brelse. simpl. rewrite Hdh. apply lookup_insert_eq.
        -- intros _. by destruct Hclean.
      * destruct (cr_buf _ _ Hr j c Hc) as [Hlc Hok]. split; [done|]. simpl.
        rewrite lookup_delete_ne by done. destruct (aheld a !! j) as [hj|] eqn:Hj; [done|].
        destruct Hok as (H1 & H2 & H3 & H4). split_and!; try done. intros Hdc.
        destruct (H3 Hdc) as [Hr3 Hif]. split; [done|]. simpl. destruct (dirty c) eqn:Hdc'; [|done].
        destruct Hif as [Hvc Hpc]. split; [done|]. destruct (hdirty h); [|done].
        rewrite lookup_insert_ne; [done|]. apply not_eq_sym. by eapply Hother.
    + intros j k c c' Hj Hk Hdc Hdc' He.
      apply lookup_seq_insert in Hj as [[<- ->]|[Hnj Hj]]; apply lookup_seq_insert in Hk as [[<- ->]|[Hnk Hk]];
        by eapply (cr_uniq _ _ Hr).
    + intros j hj Hj. apply lookup_delete_Some in Hj as [Hne Hj].
      rewrite list_lookup_insert_ne by done. by eapply (cr_held _ _ Hr).
    + intros x d Hp. destruct (decide (hdirty h = true /\ x = hblock h)) as [[Hd ->]|Hn].
      * exists i, b2. rewrite list_lookup_insert_eq by done. rewrite lookup_delete_eq. split_and!; try done.
        change (dirty b2) with (dirty b). by rewrite Hdt.
      * assert (Hp' : pins a !! x = Some d).
        { destruct (hdirty h); [|done]. rewrite lookup_insert_ne in Hp; [done|]. intros <-. by apply Hn. }
        destruct (cr_pins _ _ Hr x d Hp') as (j & c & Hc & Hdc & Hbc & Hdd & Hj).
        assert (i <> j) by congruence. exists j, c.
        rewrite list_lookup_insert_ne, lookup_delete_ne by done. done.
Qed.

(** ** bread *)

(** Buffer [i] is taken for block [x]: it held [x] already, or nothing did and
    it was clean. *)
Lemma rel_take s a i x b b' d' :
  cache_rel s a -> bufs s !! i = Some b -> aheld a !! i = None ->
  (forall j c, bufs s !! j = Some c -> dev c = ROOTDEV -> blockno c = x -> j = i) ->
  (dirty b = true -> dev b = ROOTDEV /\ blockno b = x) ->
  length (data b') = 512%nat ->
  used_ok a b' (Held x (aview a x) (bool_decide (is_Some (pins a !! x)))) ->
  dok d' -> dsize d' = asize a ->
  (forall y, 0 <= y < asize a -> dblock d' y = adisk a y) ->
  cache_rel (s <| bufs ::= <[i := b']> |> <| disk := d' |>) (a_bread a i x).
Proof.
  intros Hr Hb Hi Hx Hd Hl Hu Hdok Hsz Hdisk.
  assert (Hlen : (i < length (bufs s))%nat) by (by eapply lookup_lt_Some).
  pose proof Hu as (_ & _ & Hdev' & _ & Hblk' & _). simpl in Hblk'.
  split; simpl.
  - by rewrite length_insert, (cr_len _ _ Hr).
  - apply Hr.
  - done.
  - done.
  - done.
  - intros j c [[<- ->]|[Hne Hc]]%lookup_seq_insert.
    + split; [done|]. simpl. by rewrite lookup_insert_eq.
    + destruct (cr_buf _ _ Hr j c Hc) as [Hlc Hok]. split; [done|]. simpl.
      rewrite lookup_insert_ne by done. destruct (aheld a !! j) as [hj|] eqn:Hj; [done|].
      destruct Hok as (H1 & H2 & H3 & H4). split_and!; try done. intros Hdc.
      destruct (H3 Hdc) as [Hr3 Hif]. split; [done|]. simpl. destruct (dirty c); [|done].
      destruct Hif as [Hvc Hpc]. split; [done|]. rewrite lookup_delete_ne; [done|].
      intros He. apply Hne. symmetry. by eapply Hx.
  - intros j k c c' Hj Hk Hdc Hdc' He.
    apply lookup_seq_insert in Hj as [[<- ->]|[Hnj Hj]]; apply lookup_seq_insert in Hk as [[<- ->]|[Hnk Hk]].
    + done.
    + symmetry. eapply Hx; eauto. congruence.
    + eapply Hx; eauto. congruence.
    + by eapply (cr_uniq _ _ Hr).
  - intros j hj Hj. destruct (decide (i = j)) as [<-|Hne].
    + by rewrite list_lookup_insert_eq.
    + rewrite list_lookup_insert_ne by done. rewrite lookup_insert_ne in Hj by done. by eapply (cr_held _ _ Hr).
  - intros y d [Hne Hp]%lookup_delete_Some.
    destruct (cr_pins _ _ Hr y d Hp) as (j & c & Hc & Hdc & Hbc & Hdd & Hj).
    assert (i <> j).
    { intros <-. rewrite Hb in Hc. injection Hc as <-. destruct (Hd Hdd). congruence. }
    exists j, c. rewrite list_lookup_insert_ne, lookup_insert_ne by done. done.
Qed.

(** From the locked buffer of [bget] to the result of [bread]. *)
Lemma bread_fill s a i x b b1 t :
  cache_rel s a -> bufs s !! i = Some b -> aheld a !! i = None -> 0 <= x < asize a ->
  (forall j c, bufs s !! j = Some c -> dev c = ROOTDEV -> blockno c = x -> j = i) ->
  (dirty b = true -> dev b = ROOTDEV /\ blockno b = x) ->
  length (data b1) = 512%nat ->
  locked_by pid b1 -> refcnt b1 = 1 -> dev b1 = ROOTDEV -> blockno b1 = x ->
  dirty b1 = bool_decide (is_Some (pins a !! x)) ->
  (valid b1 = true -> data b1 = aview a x) -> (dirty b1 = true -> valid b1 = true) ->
  exists s' ev, (b ← getb i; (if valid b then mret tt else iderw pid i) ;; mret i)
      (Ctx [] t) (s <| bufs ::= <[i := b1]> |>) = Ok i (Ctx [] (t ++ ev)) s' /\
    disk_writes ev = [] /\ cache_rel s' (a_bread a i x).
Proof.
  intros Hr Hb Hi Hxr Hx Hd Hl Hlk Href Hdev Hblk Hdt Hva Hdv.
  assert (Hlen : (i < length (bufs s))%nat) by (by eapply lookup_lt_Some).
  assert (Hb1 : bufs (s <| bufs ::= <[i := b1]> |>) !! i = Some b1) by (simpl; by rewrite list_lookup_insert_eq).
  rewrite bindE, (getb_run i b1) by done. cbn [obind]. destruct (valid b1) eqn:Hv.
  - exists (s <| bufs ::= <[i := b1]> |>), []. rewrite app_nil_r. split_and!; [done|done|].
    pose proof (rel_take s a i x b b1 (disk s) Hr Hb Hi Hx Hd Hl) as HH.
    destruct s. apply HH; try apply Hr. unfold used_ok. split_and!; try done; try (simpl; lia). by apply Hva.
  - assert (Hdf : dirty b1 = false) by (destruct (dirty b1); [by specialize (Hdv eq_refl)|done]).
    destruct (iderw_ok pid i b1 t (s <| bufs ::= <[i := b1]> |>)) as (d' & ev & Hrun & Hdok & Hsz & Hev & Hd');
      try done.
    { apply Hr. }
    { simpl. rewrite (cr_size _ _ Hr), Hblk. done. }
    { by rewrite Hv. }
    rewrite Hdf in Hrun, Hev, Hd'. simpl in Hsz, Hd'. rewrite (cr_size _ _ Hr) in Hsz, Hd'.
    eexists _, ev. rewrite bindE, Hrun. split_and!; [done|done|].
    set (b2 := b1 <| flags ::= synced |> <| data := dblock (disk s) (blockno b1) |>).
    pose proof (rel_take s a i x b b2 d' Hr Hb Hi Hx Hd) as HH.
    assert (Hpn : pins a !! x = None).
    { rewrite Hdt in Hdf. apply bool_decide_eq_false in Hdf. by apply eq_None_not_Some. }
    assert (Hdat : data b2 = adisk a x) by (simpl; rewrite Hblk; by apply (cr_disk _ _ Hr)).
    assert (Hr2 : cache_rel (s <| bufs ::= <[i := b2]> |> <| disk := d' |>) (a_bread a i x)).
    { apply HH; try done.
      - rewrite Hdat, <- (cr_disk _ _ Hr) by done. apply dblock_length; [apply Hr|by rewrite (cr_size _ _ Hr)].
      - destruct (testbit_synced (flags b1)) as [Hs1 Hs2]. unfold used_ok, aview. rewrite Hpn.
        split_and!; try done; [by rewrite valid_bit|by rewrite dirty_bit|simpl; lia..].
      - intros y Hy. rewrite Hd' by done. by apply (cr_disk _ _ Hr). }
    destruct s as [bs lr dk]. cbn in Hr2 |- *. by rewrite list_insert_insert_eq.
Qed.

(** The common end of bget(): count the reference, lock the buffer. *)
Lemma bget_tail i b f h t s :
  bufs s !! i = Some b -> Lbcache ∉ h -> Lsleep (Cbuflock i) ∉ h ->
  locked (block_lock (f b)) = 0 ->
  (modb i f ;; release Lbcache ;; with_lock i (acquiresleep (Cbuflock i) pid []) ;; mret i)
    (Ctx (Lbcache :: h) t) s =
  Ok i (Ctx h t) (s <| bufs ::= <[i := (f b) <| block_lock := mksleeplock 1 pid |> ]> |>).
Proof.
  intros Hb Hh Hs Hl. assert (Hi : (i < length (bufs s))%nat) by (by eapply lookup_lt_Some).
  rewrite bindE, (modb_run i b) by done. cbn [obind]. rewrite bindE, release_ok by done. cbn [obind].
  rewrite bindE. erewrite with_lock_run;
    [|simpl; by rewrite list_lookup_insert_eq|by apply acquiresleep_free]. cbn [obind]. mrun.
  f_equal. destruct s. cbn. by rewrite list_insert_insert_eq.
Qed.

(** If every buffer is in use or pinned, [room] fails. *)
Lemma cache_full s a :
  cache_rel s a ->
  (forall i b, bufs s !! i = Some b -> is_Some (aheld a !! i) \/ dirty b = true) ->
  (NBUF <= size (pins a) + size (aheld a))%nat.
Proof.
  intros Hr Hall.
  set (hl := filter (fun i => is_Some (aheld a !! i)) (seq 0 NBUF)).
  set (dl := filter (fun i => ~ is_Some (aheld a !! i)) (seq 0 NBUF)).
  assert (Hsplit : (length hl + length dl = NBUF)%nat).
  { rewrite <- length_app, <- (length_seq NBUF 0). unfold hl, dl.
    apply Permutation_length. apply filter_app_complement. }
  assert (Hh : (length hl <= size (aheld a))%nat).
  { rewrite <- size_dom. transitivity (size (list_to_set hl : gset nat)).
    - rewrite size_list_to_set; [done|]. apply NoDup_filter, NoDup_seq.
    - apply subseteq_size. intros j [Hj _]%elem_of_list_to_set%list_elem_of_filter. by apply elem_of_dom. }
  set (blk := fun i => match bufs s !! i with Some b => blockno b | None => 0 end).
  assert (Hdl : forall j, j ∈ dl -> exists b, bufs s !! j = Some b /\ dev b = ROOTDEV /\
    pins a !! blockno b = Some (data b)).
  { intros j [Hj Hs]%list_elem_of_filter. apply elem_of_seq in Hs.
    destruct (lookup_lt_is_Some_2 (bufs s) j) as [b Hb]; [rewrite (cr_len _ _ Hr); lia|].
    exists b. split; [done|]. destruct (Hall j b Hb) as [?|Hd]; [done|].
    apply eq_None_not_Some in Hj. destruct (rel_idle s a j b Hr Hb Hj) as (_ & _ & H3 & H4).
    destruct (decide (dev b = ROOTDEV)) as [He|Hne]; [|rewrite H4 in Hd; done].
    split; [done|]. destruct (H3 He) as [_ Hif]. rewrite Hd in Hif. apply Hif. }
  assert (Hd : (length dl <= size (pins a))%nat).
  { rewrite <- size_dom, <- (length_fmap blk dl). transitivity (size (list_to_set (blk <$> dl) : gset Z)).
    - rewrite size_list_to_set; [done|]. apply NoDup_fmap_2_strong; [|apply NoDup_filter, NoDup_seq].
      intros j k Hj Hk. destruct (Hdl j Hj) as (b & Hb & Hdb & _), (Hdl k Hk) as (b' & Hb' & Hdb' & _).
      unfold blk. rewrite Hb, Hb'. intros He. by eapply (cr_uniq _ _ Hr).
    - apply subseteq_size. intros y Hy%elem_of_list_to_set.
      apply list_elem_of_fmap in Hy as (j & -> & Hj). destruct (Hdl j Hj) as (b & Hb & _ & Hp).
      apply elem_of_dom. unfold blk. rewrite Hb, Hp. done. }
  lia.
Qed.

(** The block is cached. *)
Lemma bread_hit s a x t i :
  cache_rel s a -> 0 <= x < asize a -> unheld a x ->
  scan (fun b => (dev b =? ROOTDEV) && (blockno b =? x)) (bufs s) (lru s) = Some i ->
  exists s' ev, bread pid ROOTDEV x (Ctx [] t) s = Ok i (Ctx [] (t ++ ev)) s' /\
    disk_writes ev = [] /\ aheld a !! i = None /\ cache_rel s' (a_bread a i x).
Proof.
  intros Hr Hx Hun Hscan. unfold bread, bget. rewrite !bindE, acquire_ok by set_solver. cbn [obind].
  rewrite bindE, getSE. cbn [obind]. rewrite Hscan.
  apply scan_Some in Hscan as (_ & b & Hb & [Hdev Hblk]%andb_prop). apply Z.eqb_eq in Hdev, Hblk.
  assert (Hi : aheld a !! i = None).
  { destruct (aheld a !! i) as [h|] eqn:Hh; [|done]. destruct (rel_used s a i h Hr Hh) as (b' & Hb' & Hu).
    rewrite Hb in Hb'. injection Hb' as <-. destruct Hu as (_ & _ & _ & _ & Hxx & _).
    destruct (Hun i h Hh). congruence. }
  destruct (rel_idle s a i b Hr Hb Hi) as (Hlk & Href & Hidle & _). destruct (Hidle Hdev) as [_ Hif].
  destruct (cr_buf _ _ Hr i b Hb) as [Hl _].
  assert (Hpn : dirty b = bool_decide (is_Some (pins a !! x))).
  { destruct (dirty b) eqn:Hd; [by rewrite Hblk in Hif; destruct Hif as [_ ->]|].
    symmetry. apply bool_decide_false. intros [d Hp].
    destruct (cr_pins _ _ Hr x d Hp) as (j & c & Hc & Hdc & Hbc & Hdd & _).
    assert (i = j) by (eapply (cr_uniq _ _ Hr); eauto; congruence). congruence. }
  rewrite (bget_tail i b) by (done || set_solver). cbn [obind].
  destruct (bread_fill s a i x b ((b <| refcnt ::= fun r => u32 (r + 1) |>) <| block_lock := mksleeplock 1 pid |>) t)
    as (s' & ev & Hrun & Hev & Hr'); try done.
  { intros j c Hc Hdc Hbc. eapply (cr_uniq _ _ Hr); eauto. congruence. }
  { simpl. by rewrite Href. }
  { change (valid b = true -> data b = aview a x). intros Hv. unfold aview.
    rewrite Hpn in Hif. destruct (pins a !! x) as [d|] eqn:Hp.
    - rewrite bool_decide_true in Hif by done. rewrite Hblk, Hp in Hif. destruct Hif as [_ [= ->]]. done.
    - rewrite bool_decide_false in Hif by (by intros []). rewrite Hif by done. by rewrite Hblk. }
  { change (dirty b = true -> valid b = true). intros Hd. rewrite Hd in Hif. apply Hif. }
  exists s', ev. done.
Qed.

(** An idle clean buffer is recycled. *)
Lemma bread_miss s a x t i :
  cache_rel s a -> 0 <= x < asize a -> unheld a x ->
  scan (fun b => (dev b =? ROOTDEV) && (blockno b =? x)) (bufs s) (lru s) = None ->
  scan (fun b => (refcnt b =? 0) && negb (dirty b)) (bufs s) (reverse (lru s)) = Some i ->
  exists s' ev, bread pid ROOTDEV x (Ctx [] t) s = Ok i (Ctx [] (t ++ ev)) s' /\
    disk_writes ev = [] /\ aheld a !! i = None /\ cache_rel s' (a_bread a i x).
Proof.
  intros Hr Hx Hun Hscan Hscan2. unfold bread, bget. rewrite !bindE, acquire_ok by set_solver. cbn [obind].
  rewrite bindE, getSE. cbn [obind]. rewrite Hscan, Hscan2.
  pose proof (scan_None _ _ _ (fun j Hj => proj1 (lru_all s a j Hr) Hj) Hscan) as Hnone.
  apply scan_Some in Hscan2 as (_ & b & Hb & [Href Hdf]%andb_prop).
  apply Z.eqb_eq in Href. apply negb_true_iff in Hdf.
  assert (Hi : aheld a !! i = None).
  { destruct (aheld a !! i) as [h|] eqn:Hh; [|done]. destruct (rel_used s a i h Hr Hh) as (b' & Hb' & Hu).
    rewrite Hb in Hb'. injection Hb' as <-. destruct Hu as (_ & Hu & _). lia. }
  assert (Hno : forall j c, bufs s !! j = Some c -> dev c = ROOTDEV -> blockno c <> x).
  { intros j c Hc Hdc Hbc. assert (Hin : j ∈ lru s) by (by apply (lru_all s a j Hr)).
    specialize (Hnone j c Hin Hc). cbv beta in Hnone. rewrite Hdc, Hbc, !Z.eqb_refl in Hnone. done. }
  assert (Hpn : pins a !! x = None).
  { destruct (pins a !! x) as [d|] eqn:Hp; [|done].
    destruct (cr_pins _ _ Hr x d Hp) as (j & c & Hc & Hdc & Hbc & _). by destruct (Hno j c Hc Hdc). }
  destruct (cr_buf _ _ Hr i b Hb) as [Hl _]. destruct (rel_idle s a i b Hr Hb Hi) as (Hlk & _).
  rewrite (bget_tail i b) by (done || set_solver). cbn [obind].
  edestruct (bread_fill s a i x b) as (s' & ev & Hrun & Hev & Hr'); [..|exists s', ev; split_and!; [exact Hrun|done..]];
    try done.
  { intros j c Hc Hdc Hbc. by destruct (Hno j c Hc Hdc). }
  { rewrite Hdf. done. }
  { rewrite Hpn. done. }
Qed.

(** With [room] one of the two scans finds a buffer. *)
Lemma bread_found s a x :
  cache_rel s a -> room a x ->
  scan (fun b => (dev b =? ROOTDEV) && (blockno b =? x)) (bufs s) (lru s) = None ->
  scan (fun b => (refcnt b =? 0) && negb (dirty b)) (bufs s) (reverse (lru s)) <> None.
Proof.
  intros Hr Hroom Hscan Hscan2.
  pose proof (scan_None _ _ _ (fun j Hj => proj1 (lru_all s a j Hr) Hj) Hscan) as Hnone.
  assert (Hrev : forall j, j ∈ reverse (lru s) -> is_Some (bufs s !! j)).
  { intros j Hj. rewrite elem_of_reverse in Hj. exact (proj1 (lru_all s a j Hr) Hj). }
  pose proof (scan_None _ _ _ Hrev Hscan2) as Hfull.
  assert (Hle : (NBUF <= size (pins a) + size (aheld a))%nat).
  { apply (cache_full s a Hr). intros j b Hb. destruct (aheld a !! j) as [h|] eqn:Hj; [by left|right].
    assert (Hin : j ∈ reverse (lru s)) by (rewrite elem_of_reverse; by apply (lru_all s a j Hr)).
    specialize (Hfull j b Hin Hb). cbv beta in Hfull. destruct (rel_idle s a j b Hr Hb Hj) as (_ & Href & _).
    rewrite Href in Hfull. cbn [Z.eqb andb] in Hfull. by apply negb_false_iff in Hfull. }
  destruct Hroom as [[d Hp]|Hlt]; [|lia].
  destruct (cr_pins _ _ Hr x d Hp) as (j & c & Hc & Hdc & Hbc & _).
  assert (Hin : j ∈ lru s) by (by apply (lru_all s a j Hr)).
  specialize (Hnone j c Hin Hc). cbv beta in Hnone. rewrite Hdc, Hbc, !Z.eqb_refl in Hnone. done.
Qed.

Lemma bread_run s a x t :
  cache_rel s a -> 0 <= x < asize a -> unheld a x -> room a x ->
  exists i s' ev, bread pid ROOTDEV x (Ctx [] t) s = Ok i (Ctx [] (t ++ ev)) s' /\
    disk_writes ev = [] /\ aheld a !! i = None /\ cache_rel s' (a_bread a i x).
Proof.
  intros Hr Hx Hun Hroom. pose proof (bread_found s a x Hr Hroom) as Hf.
  destruct (scan (fun b => (dev b =? ROOTDEV) && (blockno b =? x)) (bufs s) (lru s)) as [i|] eqn:H1;
    [exists i; by apply bread_hit|].
  destruct (scan (fun b => (refcnt b =? 0) && negb (dirty b)) (bufs s) (reverse (lru s))) as [i|] eqn:H2;
    [exists i; by apply bread_miss|by destruct Hf].
Qed.
End Refinement.

#[export] Instance bio_cache {D} `{DriverOk D} (pid : Z) (Hpid : pid <> 0) : BlockCache (bcache D).
Proof.
  refine {|
    c_bread := bread pid;
    c_bwrite := bwrite pid;
    c_brelse := brelse pid;
    c_buf := getb;
    c_setdata := fun i d => modb i (fun b => b <| data := d |>);
    c_setdirty := fun i => modb i (fun b => b <| flags ::= fun f => Z.lor f B_DIRTY |>);
    c_rel := cache_rel pid;
  |}.
  - intros s a x Hr Hx. rewrite <- (cr_disk _ _ _ Hr) by done.
    apply dblock_length; [apply Hr|by rewrite (cr_size _ _ _ Hr)].
  - intros. by apply bread_run.
  - intros. by apply bwrite_run.
  - intros. by apply brelse_run.
  - intros s a i h c Hr Hh. destruct (rel_used pid s a i h Hr Hh) as (b & Hb & Hu).
    destruct (cr_buf _ _ _ Hr i b Hb) as [Hl _]. destruct Hu as (_ & _ & _ & _ & Hx & Hd & _ & Hrange).
    exists b. rewrite (getb_run i b) by done. rewrite <- Hd. done.
  - intros. by apply setdata_run.
  - intros. by apply pin_run.
  - intros. by eapply held_not_pinned.
Defined.

(** ** Initialisation *)

Definition zero_buf : buf := mkbuf 0 0 0 (mksleeplock 0 0) 0 (replicate 512 0).

(** The bss of the kernel: NBUF zeroed buffers. *)
Definition bcache0 {D} (d : D) : bcache D := mkbcache (replicate NBUF zero_buf) [] d.

Definition acache0 (dk : Z -> list Z) (n : Z) : acache := mkacache dk n ∅ ∅.

Lemma binit_loop {D} l (d : D) lr h t :
  (forall i, i ∈ l -> (i < NBUF)%nat) ->
  exists t', mfor l (fun i =>
      with_lock i (initsleeplock (Cbuflock i)) ;; modS (fun s => s <| lru ::= cons i |>))
    (Ctx h t) (mkbcache (replicate NBUF zero_buf) lr d) =
  Ok tt (Ctx h t') (mkbcache (replicate NBUF zero_buf) (reverse l ++ lr) d).
Proof.
  revert lr t. induction l as [|i l IH]; intros lr t Hl; [by exists t|]. cbn [mfor].
  assert (Hb : replicate NBUF zero_buf !! i = Some zero_buf)
    by (apply lookup_replicate_2, Hl, elem_of_cons; by left).
  destruct (IH (i :: lr) (t ++ [Einitlock (Lsleep (Cbuflock i)) "sleep lock"])) as [t' Ht'].
  { intros j Hj. apply Hl, elem_of_cons. by right. }
  exists t'. rewrite !bindE. erewrite with_lock_run; [|exact Hb|reflexivity]. cbn [obind]. mrun.
  rewrite reverse_cons, <- app_assoc. cbn [app]. etransitivity; [|exact Ht'].
  f_equal. change (mkbcache (<[i := zero_buf]> (replicate NBUF zero_buf)) (i :: lr) d =
    mkbcache (replicate NBUF zero_buf) (i :: lr) d). f_equal. by apply list_insert_id.
Qed.

Lemma binit_run {D} (d : D) h t :
  exists t', binit (Ctx h t) (bcache0 d) =
    Ok tt (Ctx h t') (mkbcache (replicate NBUF zero_buf) (reverse (seq 0 NBUF)) d).
Proof.
  unfold binit, initlock. mrun.
  edestruct (binit_loop (seq 0 NBUF) d [] h) as [t' Ht']; [|exists t'; rewrite app_nil_r in Ht'; exact Ht'].
  intros i Hi. apply elem_of_seq in Hi. lia.
Qed.

Lemma binit_rel {D} `{DriverOk D} pid (d : D) :
  dok d ->
  cache_rel pid (mkbcache (replicate NBUF zero_buf) (reverse (seq 0 NBUF)) d)
    (acache0 (dblock d) (dsize d)).
Proof.
  intros Hd. split; cbn [bufs lru disk acache0 asize adisk pins aheld]; try done.
  - by rewrite reverse_Permutation.
  - intros i b [-> _]%lookup_replicate. split; [apply length_replicate|].
    change (idle_ok (acache0 (dblock d) (dsize d)) zero_buf). by split_and!.
  - intros i j b b' [-> _]%lookup_replicate. done.
Qed.

(** ** Coherence *)

Section Coherence.
Context {D : Type} `{DriverOk D} (pid : Z) (pid_pos : pid <> 0).

(** The states a process can bring the cache into, from boot, with the
    contents it wrote: it reads blocks, writes to the buffers it holds, pins or
    writes them, and releases them clean or pinned. *)
Inductive cache_steps : bcache D -> acache -> Prop :=
| cs_boot d s h t t' :
    dok d -> binit (Ctx h t) (bcache0 d) = Ok tt (Ctx h t') s ->
    cache_steps s (acache0 (dblock d) (dsize d))
| cs_bread s a x i s' t c :
    cache_steps s a -> 0 <= x < asize a -> unheld a x -> room a x ->
    bread pid ROOTDEV x (Ctx [] t) s = Ok i c s' -> cache_steps s' (a_bread a i x)
| cs_data s a i h d s' t c :
    cache_steps s a -> aheld a !! i = Some h -> length d = 512%nat ->
    modb i (fun b => b <| data := d |>) (Ctx [] t) s = Ok tt c s' ->
    cache_steps s' (a_setdata a i h d)
| cs_pin s a i h s' t c :
    cache_steps s a -> aheld a !! i = Some h ->
    modb i (fun b => b <| flags ::= fun f => Z.lor f B_DIRTY |>) (Ctx [] t) s = Ok tt c s' ->
    cache_steps s' (a_pin a i h)
| cs_bwrite s a i h s' t c :
    cache_steps s a -> aheld a !! i = Some h ->
    bwrite pid i (Ctx [] t) s = Ok tt c s' -> cache_steps s' (a_bwrite a i h)
| cs_brelse s a i h s' t c :
    cache_steps s a -> aheld a !! i = Some h ->
    hdirty h = true \/ hdata h = adisk a (hblock h) ->
    brelse pid i (Ctx [] t) s = Ok tt c s' -> cache_steps s' (a_brelse a i h).

Lemma cache_steps_rel s a : cache_steps s a -> cache_rel pid s a.
Proof.
  induction 1 as [d s h t t' Hd Hrun|s a x i s' t c _ IH Hx Hu Hroom Hrun|s a i h d s' t c _ IH Hh Hd Hrun
    |s a i h s' t c _ IH Hh Hrun|s a i h s' t c _ IH Hh Hrun|s a i h s' t c _ IH Hh Hc Hrun].
  - destruct (binit_run d h t) as [t1 Hb]. rewrite Hb in Hrun. injection Hrun as _ <-. by apply binit_rel.
  - destruct (bread_run pid pid_pos s a x t IH Hx Hu Hroom) as (i' & s1 & ev & Hrun' & _ & _ & Hr).
    rewrite Hrun' in Hrun. by simplify_eq.
  - destruct (setdata_run pid s a i h d (Ctx [] t) IH Hh Hd) as (s1 & Hrun' & Hr).
    rewrite Hrun' in Hrun. by simplify_eq.
  - destruct (pin_run pid s a i h (Ctx [] t) IH Hh) as (s1 & Hrun' & Hr).
    rewrite Hrun' in Hrun. by simplify_eq.
  - destruct (bwrite_run pid pid_pos s a i h t IH Hh) as (s1 & ev & Hrun' & _ & Hr).
    rewrite Hrun' in Hrun. by simplify_eq.
  - destruct (brelse_run pid pid_pos s a i h t IH Hh Hc) as (s1 & ev & Hrun' & _ & Hr).
    rewrite Hrun' in Hrun. by simplify_eq.
Qed.

(** C8: Whatever a process has done to the cache since boot, bread() of a
    block it does not hold returns, without a disk write, a locked buffer with
    the contents last written to that block: those pinned by log_write() if
    the block is waiting for a commit, else those on the disk, however often
    the buffer was recycled in between.  The buffers it holds keep their
    contents. *)
Theorem bread_coherent s a x t :
  cache_steps s a -> 0 <= x < asize a -> unheld a x -> room a x ->
  exists i b s' ev, bread pid ROOTDEV x (Ctx [] t) s = Ok i (Ctx [] (t ++ ev)) s' /\
    disk_writes ev = [] /\ bufs s' !! i = Some b /\ aheld a !! i = None /\
    locked_by pid b /\ blockno b = x /\ data b = aview a x /\
    (forall j h, aheld a !! j = Some h -> exists b', bufs s' !! j = Some b' /\ data b' = hdata h).
Proof.
  intros Hs Hx Hu Hroom. pose proof (cache_steps_rel s a Hs) as Hr.
  destruct (bread_run pid pid_pos s a x t Hr Hx Hu Hroom) as (i & s' & ev & Hrun & Hev & Hi & Hr').
  destruct (rel_used pid s' (a_bread a i x) i (Held x (aview a x) (bool_decide (is_Some (pins a !! x)))) Hr')
    as (b & Hb & Hlk & _ & _ & _ & Hbx & Hbd & _); [apply lookup_insert_eq|].
  exists i, b, s', ev. split_and!; try done.
  intros j h Hj. assert (i <> j) by congruence.
  destruct (rel_used pid s' (a_bread a i x) j h Hr') as (b' & Hb' & Hu'); [simpl; by rewrite lookup_insert_ne|].
  exists b'. split; [done|]. apply Hu'.
Qed.
End Coherence.

(** Three blocks; block 1 has been written and released. *)
Definition demo_disk : memdisk := [replicate 512 0; replicate 512 1; replicate 512 2].

Lemma bread_coherent_witness :
  exists s i b s' ev, bread (D := memdisk) 7 ROOTDEV 1 (Ctx [] []) s = Ok i (Ctx [] ev) s' /\
    bufs s' !! i = Some b /\ data b = replicate 512 9.
Proof.
  assert (Hsteps : exists s a, cache_steps (D := memdisk) 7 s a /\ asize a = 3 /\
    aview a 1 = replicate 512 9 /\ aheld a = ∅ /\ pins a = ∅).
  { do 2 eexists. split.
    - eapply cs_brelse with (i := 0%nat) (t := []);
        [eapply cs_bwrite with (i := 0%nat) (t := []);
           [eapply cs_data with (i := 0%nat) (d := replicate 512 9) (t := []);
              [eapply cs_bread with (x := 1) (t := []);
                 [eapply cs_boot with (d := demo_disk) (h := []) (t := []); [|vm_compute; reflexivity]|..]|..]|..]|..].
      + by repeat constructor.
      + done.
      + intros i h Hh. cbn in Hh. by rewrite lookup_empty in Hh.
      + right. cbn. rewrite !map_size_empty. unfold NBUF. lia.
      + vm_compute. reflexivity.
      + vm_compute. reflexivity.
      + by vm_compute.
      + vm_compute. reflexivity.
      + vm_compute. reflexivity.
      + vm_compute. reflexivity.
      + vm_compute. reflexivity.
      + right. by vm_compute.
      + vm_compute. reflexivity.
    - by vm_compute. }
  destruct Hsteps as (s & a & Hs & Hsz & Hv & Hh & Hp).
  destruct (bread_coherent 7 ltac:(done) s a 1 [] Hs) as (i & b & s' & ev & Hrun & _ & Hb & _ & _ & _ & Hd & _).
  - lia.
  - intros j h Hj. by rewrite Hh in Hj.
  - right. rewrite Hh, Hp, !map_size_empty. unfold NBUF. lia.
  - exists s, i, b, s', ev. by rewrite <- Hv.
Defined.

(** ** The memory disk holds the image it was linked with *)

Lemma mjoin_block (bl : list (list Z)) k b : Forall (fun b => length b = Z.to_nat BSIZE) bl -> bl !! k = Some b ->
  take (Z.to_nat BSIZE) (drop (k * Z.to_nat BSIZE) (mjoin bl)) = b.
Proof.
  intros Hl. revert k. induction Hl as [|b0 bl Hb _ IH]; intros [|k] Hk; try done; cbn [mjoin list_join].
  - injection Hk as ->. cbn [Nat.mul]. rewrite drop_0. by apply take_app_length'.
  - replace (S k * Z.to_nat BSIZE)%nat with (length b0 + k * Z.to_nat BSIZE)%nat by (rewrite Hb; lia).
    rewrite drop_app_add. by apply IH.
Qed.

(** Written out block by block, as mkfs does, and linked into the kernel, an image
    comes back as the same blocks. *)
Lemma memide_ideinit_image (bl : list (list Z)) : Forall (fun b => length b = Z.to_nat BSIZE) bl ->
  Z.of_nat (length bl) * BSIZE < 2 ^ 32 -> memide_ideinit (mjoin bl) = bl.
Proof.
  intros Hl Hn. unfold memide_ideinit.
  assert (E : Z.of_nat (length (mjoin bl)) = Z.of_nat (length bl) * BSIZE).
  { clear Hn. induction Hl as [|b bl Hb _ IH]; [done|]. change (mjoin (b :: bl)) with (b ++ mjoin bl). cbn [length]. rewrite length_app, Nat2Z.inj_add, IH, Hb. unfold BSIZE. lia. }
  rewrite E, u32_small by (unfold BSIZE in *; lia). rewrite Z.div_mul by done. rewrite Nat2Z.id.
  apply list_eq. intros k. rewrite list_lookup_fmap. destruct (decide (k < length bl)%nat) as [Hk|Hk].
  - rewrite lookup_seq_lt by done. cbn. destruct (lookup_lt_is_Some_2 bl k Hk) as [b Hb]. rewrite Hb. f_equal. by apply mjoin_block.
  - rewrite lookup_seq_ge by lia. rewrite lookup_ge_None_2 by lia. done.
Qed.
