(* ===== verification/Layout.v ===== *)
(** * Little-endian words in a disk block

    The C code lays structs over the bytes of a block; here a field is read
    and written through [get_le] and [put_le]. *)

From stdpp Require Import prelude list.
From Stdlib Require Import ZArith Lia.
From S2P Require Import Prelude.

(** The value of bytes [bs], least significant first. *)
Fixpoint of_bytes (bs : list Z) : Z :=
  match bs with [] => 0 | b :: bs' => b + 256 * of_bytes bs' end.

(** The [n] low bytes of [v]. *)
Fixpoint to_bytes (n : nat) (v : Z) : list Z :=
  match n with O => [] | S n' => v mod 256 :: to_bytes n' (v / 256) end.

Definition get_le (n : nat) (bs : list Z) (off : nat) : Z := of_bytes (take n (drop off bs)).
Definition put_le (n : nat) (bs : list Z) (off : nat) (v : Z) : list Z :=
  take off bs ++ to_bytes n v ++ drop (off + n) bs.

Abbreviation get32 := (get_le 4).
Abbreviation get16 := (get_le 2).
Abbreviation put32 := (put_le 4).
Abbreviation put16 := (put_le 2).

Lemma length_to_bytes n v : length (to_bytes n v) = n.
Proof. revert v. induction n as [|n IH]; intros v; simpl; [done|]. by rewrite IH. Qed.

Lemma of_to_bytes n v : of_bytes (to_bytes n v) = v mod 256 ^ Z.of_nat n.
Proof.
  revert v. induction n as [|n IH]; intros v; [simpl; by rewrite Z.mod_1_r|].
  cbn [to_bytes of_bytes]. rewrite IH, Nat2Z.inj_succ, Z.pow_succ_r by lia.
  rewrite Z.rem_mul_r by lia. lia.
Qed.

Lemma of_to_bytes_small n v : 0 <= v < 256 ^ Z.of_nat n -> of_bytes (to_bytes n v) = v.
Proof. intros Hv. by rewrite of_to_bytes, Z.mod_small. Qed.

Lemma length_put_le n bs off v : (off + n <= length bs)%nat -> length (put_le n bs off v) = length bs.
Proof.
  intros Hl. unfold put_le. rewrite !length_app, length_take, length_drop, length_to_bytes. lia.
Qed.

(** ** Fields that do not overlap *)

Lemma get_put_same n bs off v :
  (off + n <= length bs)%nat -> get_le n (put_le n bs off v) off = v mod 256 ^ Z.of_nat n.
Proof.
  intros Hl. unfold get_le, put_le. rewrite drop_app_length'; [|rewrite length_take; lia].
  rewrite take_app_length' by (by rewrite length_to_bytes). apply of_to_bytes.
Qed.

Lemma take_drop_put n m bs off off' v :
  (off + n <= length bs)%nat -> (off' + m <= off \/ off + n <= off')%nat ->
  take m (drop off' (put_le n bs off v)) = take m (drop off' bs).
Proof.
  intros Hl Hd. apply list_eq. intros i. rewrite !lookup_take. case_decide as Hi; [|done].
  rewrite !lookup_drop. unfold put_le. destruct Hd as [Hd|Hd].
  - rewrite lookup_app_l by (rewrite length_take; lia). by rewrite lookup_take_lt by lia.
  - rewrite lookup_app_r by (rewrite length_take; lia). rewrite length_take, min_l by lia.
    rewrite lookup_app_r by (rewrite length_to_bytes; lia). rewrite length_to_bytes, lookup_drop.
    f_equal. lia.
Qed.

Lemma get_put_other n m bs off off' v :
  (off + n <= length bs)%nat -> (off' + m <= off \/ off + n <= off')%nat ->
  get_le m (put_le n bs off v) off' = get_le m bs off'.
Proof. intros Hl Hd. unfold get_le. by rewrite take_drop_put. Qed.

Lemma of_bytes_range bs : Forall (fun b => 0 <= b < 256) bs -> 0 <= of_bytes bs < 256 ^ Z.of_nat (length bs).
Proof.
  induction 1 as [|b bs Hb _ IH]; [simpl; lia|].
  cbn [of_bytes length]. rewrite Nat2Z.inj_succ, Z.pow_succ_r by lia. lia.
Qed.

Lemma to_of_bytes bs : Forall (fun b => 0 <= b < 256) bs -> to_bytes (length bs) (of_bytes bs) = bs.
Proof.
  induction 1 as [|b bs Hb _ IH]; [done|]. cbn [of_bytes length to_bytes].
  replace (b + 256 * of_bytes bs) with (of_bytes bs * 256 + b) by lia.
  rewrite Z.div_add_l, (Z.div_small b), Z.add_0_r by lia.
  rewrite Z.add_comm, Z.mod_add, Z.mod_small by lia. by rewrite IH.
Qed.
