(* ===== verification/Log.v ===== *)
(** * The write-ahead log (src/log.c)

    The log works on a buffer cache through the interface [BlockCache].  Its
    state is the global [log] and the cache; the log header overlays the bytes
    of the header block. *)

From stdpp Require Import prelude gmap strings list.
From Stdlib Require Import ZArith Lia.
From S2P Require Import Prelude Sleeplock Bio BioSpec Layout.

Definition MAXOPBLOCKS : Z := 10.
Definition LOGSIZE : Z := 30.

Record log := mklog {
  lstart : Z;
  lsize : Z;
  outstanding : Z;
  committing : Z;
  ldev : Z;
  lh_n : Z;
  lh_block : list Z;
}.

#[export] Instance log_settable : Settable log :=
  fun l => mklog (lstart l) (lsize l) (outstanding l) (committing l) (ldev l) (lh_n l) (lh_block l).

Record lstate (C : Type) := mklstate { thelog : log; cache : C }.
Arguments mklstate {C} _ _.
Arguments thelog {C} _.
Arguments cache {C} _.

#[export] Instance lstate_settable C : Settable (lstate C) :=
  fun s => mklstate (thelog s) (cache s).

Record superblock := mksb {
  sb_size : Z; sb_nblocks : Z; sb_ninodes : Z; sb_nlog : Z;
  sb_logstart : Z; sb_inodestart : Z; sb_bmapstart : Z;
}.

(** [memmove(sb, bp->data, sizeof( *sb))]. *)
Definition decode_sb (d : list Z) : superblock :=
  mksb (get32 d 0) (get32 d 4) (get32 d 8) (get32 d 12) (get32 d 16) (get32 d 20) (get32 d 24).

(** The offset of [lh->block\[i\]] in the header block. *)
Definition block_off (i : Z) : nat := Z.to_nat (4 + 4 * i).

Section Log.
Context {C : Type} `{BlockCache C}.
Abbreviation L := (M (lstate C)).

(** Calls into the cache. *)
Definition onc {A} (m : M C A) : L A := zoom cache (fun k s => s <| cache := k |>) m.
Definition modl (f : log -> log) : L unit := modS (fun s => s <| thelog ::= f |>).
Definition getl : L log := gets thelog.

Definition readsb (dev : Z) : L superblock :=
  bp ← onc (c_bread dev 1);
  b ← onc (c_buf bp);
  let sb := decode_sb (data b) in
  onc (c_brelse bp) ;;
  mret sb.

(** One iteration of install_trans(). *)
Definition install1 (tail : Z) : L unit :=
  l ← getl;
  lbuf ← onc (c_bread (ldev l) (u32 (lstart l + tail + 1)));
  blk ← rd (lh_block l) tail;
  dbuf ← onc (c_bread (ldev l) (u32 blk));
  lb ← onc (c_buf lbuf);
  onc (c_setdata dbuf (data lb)) ;;
  onc (c_bwrite dbuf) ;;
  onc (c_brelse lbuf) ;;
  onc (c_brelse dbuf).

(** [for (tail = 0; tail < log.lh.n; tail++)]. *)
Definition for_tail (l : log) (body : Z -> L unit) : L unit :=
  mfor (seq 0 (Z.to_nat (lh_n l))) (fun i => body (Z.of_nat i)).

Definition install_trans : L unit := l ← getl; for_tail l install1.

Definition read_head : L unit :=
  l ← getl;
  buf ← onc (c_bread (ldev l) (u32 (lstart l)));
  lh ← onc (c_buf buf);
  modl (fun l => l <| lh_n := s32 (get32 (data lh) 0) |>) ;;
  l' ← getl;
  for_tail l' (fun i =>
    l ← getl;
    (if Z.of_nat (length (data lh)) <? 4 + 4 * i + 4 then undef else mret tt) ;;
    blocks ← wr (lh_block l) i (s32 (get32 (data lh) (block_off i)));
    modl (fun l => l <| lh_block := blocks |>)) ;;
  onc (c_brelse buf).

(** The header block with [l]'s header written over it. *)
Fixpoint put_blocks (d : list Z) (i : Z) (bs : list Z) : list Z :=
  match bs with
  | [] => d
  | b :: bs' => put_blocks (put32 d (block_off i) (u32 b)) (i + 1) bs'
  end.

Definition put_header (l : log) (d : list Z) : list Z :=
  put_blocks (put32 d 0 (u32 (lh_n l))) 0 (take (Z.to_nat (lh_n l)) (lh_block l)).

Definition write_head : L unit :=
  l ← getl;
  buf ← onc (c_bread (ldev l) (u32 (lstart l)));
  hb ← onc (c_buf buf);
  (if Z.of_nat (length (lh_block l)) <? lh_n l then undef else mret tt) ;;
  onc (c_setdata buf (put_header l (data hb))) ;;
  onc (c_bwrite buf) ;;
  onc (c_brelse buf).

Definition recover_from_log : L unit :=
  read_head ;;
  install_trans ;;
  modl (fun l => l <| lh_n := 0 |>) ;;
  write_head.

Definition initlog (dev : Z) : L unit :=
  (if 512 <=? 4 + 4 * LOGSIZE then panic "initlog: too big logheader" else mret tt) ;;
  initlock Llog "log" ;;
  sb ← readsb dev;
  modl (fun l => l <| lstart := s32 (sb_logstart sb) |> <| lsize := s32 (sb_nlog sb) |> <| ldev := dev |>) ;;
  recover_from_log.

(** [env] is what the rest of the machine does during each sleep. *)
Fixpoint begin_loop (env : list (lstate C -> lstate C)) : L unit :=
  l ← getl;
  if negb (committing l =? 0) || (LOGSIZE <? s32 (lh_n l + s32 (s32 (outstanding l + 1) * MAXOPBLOCKS)))
  then match env with
       | [] => sleep Clog Llog [] ;; undef
       | f :: env' => sleep Clog Llog [f] ;; begin_loop env'
       end
  else modl (fun l => l <| outstanding ::= fun o => s32 (o + 1) |>) ;; release Llog.

Definition begin_op (env : list (lstate C -> lstate C)) : L unit :=
  acquire Llog ;; begin_loop env.

(** One iteration of write_log(). *)
Definition write_log1 (tail : Z) : L unit :=
  l ← getl;
  to ← onc (c_bread (ldev l) (u32 (lstart l + tail + 1)));
  blk ← rd (lh_block l) tail;
  from ← onc (c_bread (ldev l) (u32 blk));
  fb ← onc (c_buf from);
  onc (c_setdata to (data fb)) ;;
  onc (c_bwrite to) ;;
  onc (c_brelse from) ;;
  onc (c_brelse to).

Definition write_log : L unit := l ← getl; for_tail l write_log1.

Definition commit : L unit :=
  l ← getl;
  if 0 <? lh_n l then
    write_log ;;
    write_head ;;
    install_trans ;;
    modl (fun l => l <| lh_n := 0 |>) ;;
    write_head
  else mret tt.

Definition end_op : L unit :=
  acquire Llog ;;
  modl (fun l => l <| outstanding ::= fun o => s32 (o - 1) |>) ;;
  l ← getl;
  if negb (committing l =? 0) then panic "log.committing" else
  let do_commit := outstanding l =? 0 in
  (if do_commit then modl (fun l => l <| committing := 1 |>) else wakeup Clog) ;;
  release Llog ;;
  if do_commit then
    commit ;;
    acquire Llog ;;
    modl (fun l => l <| committing := 0 |>) ;;
    wakeup Clog ;;
    release Llog
  else mret tt.

(** The first [i] from [i] on with [log.lh.block\[i\] == x], or lh.n. *)
Fixpoint absorb (blocks : list Z) (n : nat) (x : Z) (i : Z) : Z :=
  match n, blocks with
  | S n', b :: bs => if u32 b =? x then i else absorb bs n' x (i + 1)
  | _, _ => i
  end.

Definition log_write (buf : nat) : L unit :=
  l ← getl;
  if (LOGSIZE <=? lh_n l) || (lsize l - 1 <=? lh_n l) then panic "too big a transaction" else
  if outstanding l <? 1 then panic "log_write outside of trans" else
  acquire Llog ;;
  b ← onc (c_buf buf);
  l ← getl;
  let i := absorb (lh_block l) (Z.to_nat (lh_n l)) (blockno b) 0 in
  blocks ← wr (lh_block l) i (s32 (blockno b));
  modl (fun l => l <| lh_block := blocks |>) ;;
  (if i =? lh_n l then modl (fun l => l <| lh_n ::= fun n => s32 (n + 1) |>) else mret tt) ;;
  onc (c_setdirty buf) ;;
  release Llog.
End Log.
