(* ===== verification/LogSpec.v ===== *)
(** * The log makes transactions atomic (src/log.c)

    [logical] is the disk as recovery will leave it.  Every disk write of
    commit() and of recovery keeps it at the contents before or after the
    transaction, so a crash between any two writes is harmless. *)

From stdpp Require Import prelude gmap strings list.
From Stdlib Require Import ZArith Lia.
From S2P Require Import Prelude Sleeplock Bio BioSpec Layout Log.

(** ** Disks *)

Definition upd (d : Z -> list Z) (w : Z * list Z) : Z -> list Z :=
  fun x => if x =? w.1 then w.2 else d x.

(** The disk after the writes [ws], oldest first. *)
Definition apply_writes (d : Z -> list Z) (ws : list (Z * list Z)) : Z -> list Z := foldl upd d ws.

Lemma apply_app d ws ws' : apply_writes d (ws ++ ws') = apply_writes (apply_writes d ws) ws'.
Proof. apply foldl_app. Qed.

Lemma apply_other d ws x : (forall w, w ∈ ws -> w.1 <> x) -> apply_writes d ws x = d x.
Proof.
  revert d. induction ws as [|w ws IH]; intros d Hw; [done|]. cbn. rewrite IH.
  - unfold upd. destruct (Z.eqb_spec x w.1) as [->|]; [|done].
    destruct (Hw w); [apply elem_of_cons; by left|done].
  - intros w' Hw'. apply Hw, elem_of_cons. by right.
Qed.

Lemma apply_same d ws x v :
  (forall w, w ∈ ws -> w.1 = x -> w.2 = v) -> (exists w, w ∈ ws /\ w.1 = x) ->
  apply_writes d ws x = v.
Proof.
  revert d. induction ws as [|w ws IH] using rev_ind; intros d Hv (w0 & Hw0 & Hx).
  - by apply elem_of_nil in Hw0.
  - rewrite apply_app. cbn. unfold upd. destruct (Z.eqb_spec x w.1) as [->|Hne].
    + apply Hv; [|done]. apply elem_of_app. right. apply elem_of_cons. by left.
    + apply IH.
      * intros w' Hw'. apply Hv, elem_of_app. by left.
      * exists w0. split; [|done]. apply elem_of_app in Hw0 as [?|?%list_elem_of_singleton]; [done|congruence].
Qed.

Lemma disk_writes_app t t' : disk_writes (t ++ t') = disk_writes t ++ disk_writes t'.
Proof. unfold disk_writes. apply omap_app. Qed.

(** ** The header block *)

Definition header_n (hd : list Z) : Z := s32 (get32 hd 0).
Definition header_entry (hd : list Z) (i : nat) : Z := s32 (get32 hd (block_off (Z.of_nat i))).

(** The home blocks a header lists. *)
Definition header (hd : list Z) : list Z := header_entry hd <$> seq 0 (Z.to_nat (header_n hd)).

Lemma get32_put32 d off v :
  (off + 4 <= length d)%nat -> 0 <= v < 2 ^ 32 -> get32 (put32 d off v) off = v.
Proof. intros Hl Hv. rewrite get_put_same by done. by apply Z.mod_small. Qed.

Lemma length_put_blocks d i bs :
  0 <= i -> 4 + 4 * (i + Z.of_nat (length bs)) <= Z.of_nat (length d) ->
  length (put_blocks d i bs) = length d.
Proof.
  revert d i. induction bs as [|b bs IH]; intros d i Hi Hl; [done|]. simpl in Hl |- *.
  assert (Hp : length (put32 d (block_off i) (u32 b)) = length d)
    by (apply length_put_le; unfold block_off; lia).
  by rewrite IH; rewrite ?Hp; [|lia..].
Qed.

Lemma put_blocks_get d i bs j :
  0 <= i -> 4 + 4 * (i + Z.of_nat (length bs)) <= Z.of_nat (length d) ->
  Forall (fun b => 0 <= b < 2 ^ 31) bs -> (j < length bs)%nat ->
  get32 (put_blocks d i bs) (block_off (i + Z.of_nat j)) = default 0 (bs !! j).
Proof.
  revert d i j. induction bs as [|b bs IH]; intros d i j Hi Hl Hb Hj; [simpl in Hj; lia|].
  simpl in Hl. apply Forall_cons in Hb as [Hb0 Hb].
  assert (Hp : length (put32 d (block_off i) (u32 b)) = length d)
    by (apply length_put_le; unfold block_off; lia).
  destruct j as [|j].
  - cbn [put_blocks lookup list_lookup default from_option id]. rewrite Z.add_0_r.
    assert (Hkeep : forall d' m cs, i < m -> 4 + 4 * (m + Z.of_nat (length cs)) <= Z.of_nat (length d') ->
      get32 (put_blocks d' m cs) (block_off i) = get32 d' (block_off i)).
    { intros d' m cs. revert d' m. induction cs as [|c cs IHc]; intros d' m Hm Hl'; [done|]. simpl in *.
      rewrite IHc; [|lia|rewrite length_put_le; unfold block_off; lia].
      apply get_put_other; unfold block_off; lia. }
    rewrite Hkeep by (rewrite ?Hp; lia). rewrite u32_small by lia.
    apply get32_put32; [unfold block_off; lia|lia].
  - cbn [put_blocks]. replace (i + Z.of_nat (S j)) with (i + 1 + Z.of_nat j) by lia.
    simpl in Hj. rewrite IH; rewrite ?Hp; done || lia.
Qed.

Lemma put_blocks_n d i bs :
  0 <= i -> 4 + 4 * (i + Z.of_nat (length bs)) <= Z.of_nat (length d) ->
  get32 (put_blocks d i bs) 0 = get32 d 0.
Proof.
  revert d i. induction bs as [|b bs IH]; intros d i Hi Hl; [done|]. simpl in *.
  rewrite IH; [|lia|rewrite length_put_le; unfold block_off; lia].
  apply get_put_other; unfold block_off; lia.
Qed.

(** What write_head() stores is what read_head() finds. *)
Lemma header_put l d :
  length d = 512%nat -> 0 <= lh_n l <= 30 -> lh_n l <= Z.of_nat (length (lh_block l)) ->
  Forall (fun b => 0 <= b < 2 ^ 31) (take (Z.to_nat (lh_n l)) (lh_block l)) ->
  header_n (put_header l d) = lh_n l /\
  header (put_header l d) = take (Z.to_nat (lh_n l)) (lh_block l) /\
  length (put_header l d) = 512%nat.
Proof.
  intros Hd Hn Hl Hb. set (bs := take (Z.to_nat (lh_n l)) (lh_block l)) in *.
  assert (Hbl : length bs = Z.to_nat (lh_n l)) by (unfold bs; rewrite length_take; lia).
  assert (Hp : length (put32 d 0 (u32 (lh_n l))) = length d) by (apply length_put_le; lia).
  assert (H0 : header_n (put_header l d) = lh_n l).
  { unfold header_n, put_header. fold bs. rewrite put_blocks_n by (rewrite ?Hp; lia).
    rewrite get32_put32 by (rewrite ?u32_small; lia). rewrite u32_small by lia. apply s32_small. lia. }
  split_and!; [done| |].
  - unfold header. rewrite H0, <- Hbl. apply list_eq. intros j.
    destruct (decide (j < length bs)%nat) as [Hj|Hj].
    + rewrite list_lookup_fmap, lookup_seq_lt by done. simpl. unfold header_entry, put_header. fold bs.
      rewrite <- (Z.add_0_l (Z.of_nat j)). rewrite put_blocks_get by (rewrite ?Hp; done || lia).
      destruct (lookup_lt_is_Some_2 bs j Hj) as [b Hbj]. rewrite Hbj. simpl. f_equal.
      rewrite Forall_forall in Hb. rewrite s32_small; [done|]. assert (0 <= b < 2 ^ 31) by (apply Hb; by eapply list_elem_of_lookup_2). lia.
    + rewrite (lookup_ge_None_2 bs) by lia. apply lookup_ge_None_2. rewrite length_fmap, length_seq. lia.
  - unfold put_header. fold bs. rewrite length_put_blocks; rewrite ?Hp; lia.
Qed.

(** ** Running the pieces *)

Section Steps.
Context {C : Type} `{BlockCache C}.
Implicit Types (l : log) (k : C) (a : acache).

Lemma onc_run {A} (m : M C A) c l k r c' k' :
  m c k = Ok r c' k' -> onc m c (mklstate l k) = Ok r c' (mklstate l k').
Proof. intros Hm. unfold onc, zoom. cbn [cache]. by rewrite Hm. Qed.

Lemma getl_run c l k : getl c (mklstate l k) = Ok l c (mklstate l k).
Proof. done. Qed.

(** Copying block [x] over block [y], which writes [y] to the disk: the loop
    bodies of write_log() and install_trans(). *)
Definition copied (a : acache) (x y : Z) : acache :=
  a <| adisk ::= fun d => upd d (y, aview a x) |> <| pins ::= delete y |>.

Lemma acache_eq a a' :
  adisk a = adisk a' -> asize a = asize a' -> pins a = pins a' -> aheld a = aheld a' -> a = a'.
Proof. destruct a, a'. simpl. by intros -> -> -> ->. Qed.

(** The common start: both blocks are read, with nothing else in use. *)
Lemma read_two k a x y t l :
  c_rel k a -> aheld a = ∅ -> x <> y -> 0 <= x < asize a -> 0 <= y < asize a ->
  room a x -> (is_Some (pins a !! y) \/ size (delete x (pins a)) + 1 < NBUF)%nat ->
  exists i j k1 ev1 k2 ev2, i <> j /\
    onc (c_bread ROOTDEV x) (Ctx [] t) (mklstate l k) = Ok i (Ctx [] (t ++ ev1)) (mklstate l k1) /\
    onc (c_bread ROOTDEV y) (Ctx [] (t ++ ev1)) (mklstate l k1) =
      Ok j (Ctx [] (t ++ ev1 ++ ev2)) (mklstate l k2) /\
    disk_writes ev1 = [] /\ disk_writes ev2 = [] /\
    c_rel k2 (a <| aheld := <[j := Held y (aview a y) (bool_decide (is_Some (pins a !! y)))]>
                    {[i := Held x (aview a x) (bool_decide (is_Some (pins a !! x)))]} |>
                <| pins := delete y (delete x (pins a)) |>).
Proof.
  intros Hr Hh Hxy Hx Hy Hrx Hry.
  destruct (c_bread_ok k a x t Hr Hx) as (i & k1 & ev1 & Hrun1 & Hev1 & _ & Hr1); [|done|].
  { intros j h Hj. by rewrite Hh in Hj. }
  destruct (c_bread_ok k1 (a_bread a i x) y (t ++ ev1) Hr1) as (j & k2 & ev2 & Hrun2 & Hev2 & Hj & Hr2).
  { done. }
  { intros q h. simpl. rewrite Hh. intros Hq. destruct (decide (q = i)) as [->|Hne].
    - rewrite lookup_insert_eq in Hq. injection Hq as <-. done.
    - by rewrite lookup_insert_ne, lookup_empty in Hq. }
  { destruct Hry as [[d Hd]|Hlt]; [left|right]; simpl.
    - exists d. by rewrite lookup_delete_ne.
    - rewrite Hh, map_size_insert_None, map_size_empty by apply lookup_empty. lia. }
  assert (Hij : i <> j) by (intros ->; simpl in Hj; by rewrite lookup_insert_eq in Hj).
  exists i, j, k1, ev1, k2, ev2. split_and!; [done| | |done|done|].
  - by apply onc_run.
  - rewrite app_assoc. by apply onc_run.
  - assert (Hv : aview (a_bread a i x) y = aview a y) by (unfold aview; simpl; by rewrite lookup_delete_ne).
    erewrite (acache_eq _ (a_bread (a_bread a i x) j y)); [exact Hr2|..]; try done.
    simpl. rewrite Hh, Hv, lookup_delete_ne by done. done.
Qed.

(** The rest of install1() and of write_log1(): [y]'s buffer [j] gets the
    contents of [x]'s and is written, and both are released. *)
Lemma copy_tail k a x y i j t l dx :
  i <> j -> x <> y ->
  c_rel k (a <| aheld := <[j := Held y (aview a y) dx]>
                 {[i := Held x (aview a x) (bool_decide (is_Some (pins a !! x)))]} |>
             <| pins := delete y (delete x (pins a)) |>) ->
  exists b k1 k2 k3 k4 ev1 ev2 ev3,
    onc (c_buf i) (Ctx [] t) (mklstate l k) = Ok b (Ctx [] t) (mklstate l k) /\
    onc (c_setdata j (data b)) (Ctx [] t) (mklstate l k) = Ok tt (Ctx [] t) (mklstate l k1) /\
    onc (c_bwrite j) (Ctx [] t) (mklstate l k1) = Ok tt (Ctx [] (t ++ ev1)) (mklstate l k2) /\
    onc (c_brelse i) (Ctx [] (t ++ ev1)) (mklstate l k2) = Ok tt (Ctx [] (t ++ ev1 ++ ev2)) (mklstate l k3) /\
    onc (c_brelse j) (Ctx [] (t ++ ev1 ++ ev2)) (mklstate l k3) =
      Ok tt (Ctx [] (t ++ ev1 ++ ev2 ++ ev3)) (mklstate l k4) /\
    disk_writes (ev1 ++ ev2 ++ ev3) = [(y, aview a x)] /\
    (aheld a = ∅ -> c_rel k4 (copied a x y)).
Proof.
  intros Hij Hxy Hr.
  set (hx := Held x (aview a x) (bool_decide (is_Some (pins a !! x)))) in *.
  set (a0 := a <| aheld := _ |> <| pins := _ |>) in Hr.
  assert (Hi : aheld a0 !! i = Some hx) by (simpl; rewrite lookup_insert_ne by done; apply lookup_singleton_eq).
  assert (Hj : aheld a0 !! j = Some (Held y (aview a y) dx)) by (simpl; apply lookup_insert_eq).
  destruct (c_buf_ok k a0 i hx (Ctx [] t) Hr Hi) as (b & Hb & Hbd & _ & Hlen & _).
  destruct (c_setdata_ok k a0 j _ (data b) (Ctx [] t) Hr Hj) as (k1 & Hk1 & Hr1); [by rewrite Hbd|].
  rewrite Hbd in Hr1. simpl in Hr1.
  set (a1 := a_setdata _ _ _ _) in Hr1.
  assert (Hj1 : aheld a1 !! j = Some (Held y (aview a x) dx)) by (simpl; apply lookup_insert_eq).
  destruct (c_bwrite_ok k1 a1 j _ t Hr1 Hj1) as (k2 & ev1 & Hk2 & Hev1 & Hr2). simpl in Hev1.
  set (a2 := a_bwrite _ _ _) in Hr2.
  assert (Hi2 : aheld a2 !! i = Some hx) by (simpl; rewrite !lookup_insert_ne by done; apply lookup_singleton_eq).
  destruct (c_brelse_ok k2 a2 i hx (t ++ ev1) Hr2 Hi2) as (k3 & ev2 & Hk3 & Hev2 & Hr3).
  { unfold hx, aview. simpl. destruct (pins a !! x) as [d|] eqn:Hp.
    - left. by rewrite bool_decide_true.
    - right. by destruct (Z.eqb_spec x y). }
  set (a3 := a_brelse _ _ _) in Hr3.
  assert (Hj3 : aheld a3 !! j = Some (Held y (aview a x) false))
    by (simpl; rewrite lookup_delete_ne by done; apply lookup_insert_eq).
  destruct (c_brelse_ok k3 a3 j _ ((t ++ ev1) ++ ev2) Hr3 Hj3) as (k4 & ev3 & Hk4 & Hev3 & Hr4).
  { right. simpl. by rewrite Z.eqb_refl. }
  exists b, k1, k2, k3, k4, ev1, ev2, ev3. split_and!.
  - by apply onc_run.
  - by apply onc_run.
  - by apply onc_run.
  - rewrite app_assoc. by apply onc_run.
  - rewrite !app_assoc. by apply onc_run.
  - by rewrite !disk_writes_app, Hev1, Hev2, Hev3.
  - intros Hh. erewrite (acache_eq (copied a x y)); [exact Hr4|..]; try done.
    + simpl. unfold hx. simpl. destruct (pins a !! x) as [d|] eqn:Hp.
      * rewrite bool_decide_true by done. unfold aview. rewrite Hp. simpl.
        rewrite <- delete_insert_ne by congruence. f_equal. by rewrite insert_delete_eq, insert_id.
      * rewrite bool_decide_false by (by intros []). by rewrite (delete_id (pins a) x).
    + simpl. rewrite Hh. apply map_eq. intros q.
      destruct (decide (q = i)) as [->|]; [|destruct (decide (q = j)) as [->|]]; by simplify_map_eq.
Qed.

(** One entry of the log: its slot and its home block. *)
Record entry (l : log) (a : acache) (tail : Z) (b : Z) : Prop := {
  en_dev : ldev l = ROOTDEV;
  en_range : 0 <= tail /\ 0 <= lstart l /\ lstart l + tail + 1 < asize a /\ asize a < 2 ^ 31;
  en_block : aget (lh_block l) tail = Some b;
  en_home : 0 <= b < asize a /\ b <> lstart l + tail + 1;
}.

Definition slot (l : log) (tail : Z) : Z := lstart l + tail + 1.

Lemma install1_run k a l tail b t :
  c_rel k a -> aheld a = ∅ -> entry l a tail b -> room a (slot l tail) ->
  (is_Some (pins a !! b) \/ size (delete (slot l tail) (pins a)) + 1 < NBUF)%nat ->
  exists k' ev, install1 tail (Ctx [] t) (mklstate l k) = Ok tt (Ctx [] (t ++ ev)) (mklstate l k') /\
    disk_writes ev = [(b, aview a (slot l tail))] /\ c_rel k' (copied a (slot l tail) b).
Proof.
  intros Hr Hh [Hdev Hrange Hblk Hhome] Hroom1 Hroom2. unfold slot in *.
  destruct (read_two k a (lstart l + tail + 1) b t l Hr Hh) as
    (i & j & k1 & ev1 & k2 & ev2 & Hij & Hrun1 & Hrun2 & Hw1 & Hw2 & Hr2); try lia; try done.
  destruct (copy_tail k2 a (lstart l + tail + 1) b i j (t ++ ev1 ++ ev2) l _ Hij ltac:(lia) Hr2) as
    (bf & k3 & k4 & k5 & k6 & ev3 & ev4 & ev5 & H1 & H2 & H3 & H4 & H5 & Hw & Hr6).
  exists k6, ((ev1 ++ ev2) ++ ev3 ++ ev4 ++ ev5). split_and!.
  - unfold install1. rewrite bindE, getl_run. cbn [obind]. rewrite Hdev, !u32_small by lia.
    rewrite bindE, Hrun1. cbn [obind]. unfold rd. rewrite Hblk, bindE, of_optionE. cbn [obind].
    rewrite u32_small by lia. rewrite bindE, Hrun2. cbn [obind].
    rewrite bindE, H1. cbn [obind]. rewrite bindE, H2. cbn [obind]. rewrite bindE, H3. cbn [obind].
    rewrite bindE, H4. cbn [obind]. by rewrite H5, <- !app_assoc.
  - by rewrite disk_writes_app, Hw, disk_writes_app, Hw1, Hw2.
  - by apply Hr6.
Qed.

Lemma write_log1_run k a l tail b t :
  c_rel k a -> aheld a = ∅ -> entry l a tail b -> room a (slot l tail) -> is_Some (pins a !! b) ->
  exists k' ev, write_log1 tail (Ctx [] t) (mklstate l k) = Ok tt (Ctx [] (t ++ ev)) (mklstate l k') /\
    disk_writes ev = [(slot l tail, aview a b)] /\ c_rel k' (copied a b (slot l tail)).
Proof.
  intros Hr Hh [Hdev Hrange Hblk Hhome] Hroom1 Hpin. unfold slot in *.
  destruct (read_two k a (lstart l + tail + 1) b t l Hr Hh) as
    (j & i & k1 & ev1 & k2 & ev2 & Hij & Hrun1 & Hrun2 & Hw1 & Hw2 & Hr2); try lia; try done; [by left|].
  assert (Hji : i <> j) by congruence.
  destruct (copy_tail k2 a b (lstart l + tail + 1) i j (t ++ ev1 ++ ev2) l
    (bool_decide (is_Some (pins a !! (lstart l + tail + 1))))) as
    (bf & k3 & k4 & k5 & k6 & ev3 & ev4 & ev5 & H1 & H2 & H3 & H4 & H5 & Hw & Hr6); [done|lia| |].
  { erewrite acache_eq; [exact Hr2|done|done| |]; simpl; [apply delete_delete|].
    apply map_eq. intros q. destruct (decide (q = i)) as [->|]; [|destruct (decide (q = j)) as [->|]];
      by simplify_map_eq. }
  exists k6, ((ev1 ++ ev2) ++ ev3 ++ ev4 ++ ev5). split_and!.
  - unfold write_log1. rewrite bindE, getl_run. cbn [obind]. rewrite Hdev, !u32_small by lia.
    rewrite bindE, Hrun1. cbn [obind]. unfold rd. rewrite Hblk, bindE, of_optionE. cbn [obind].
    rewrite u32_small by lia. rewrite bindE, Hrun2. cbn [obind].
    rewrite bindE, H1. cbn [obind]. rewrite bindE, H2. cbn [obind]. rewrite bindE, H3. cbn [obind].
    rewrite bindE, H4. cbn [obind]. by rewrite H5, <- !app_assoc.
  - by rewrite disk_writes_app, Hw, disk_writes_app, Hw1, Hw2.
  - by apply Hr6.
Qed.

(** ** The loops *)

Definition home_block (l : log) (i : nat) : Z := default 0 (lh_block l !! i).

Lemma acache_disk_pins a d p : adisk a = d -> pins a = p -> a <| adisk := d |> <| pins := p |> = a.
Proof. intros <- <-. by destruct a. Qed.

(** The entries [m .. m+j-1] are well placed, and the slots are not pinned. *)
Definition entries (l : log) (a : acache) (m j : nat) : Prop :=
  forall i, (m <= i < m + j)%nat ->
    entry l a (Z.of_nat i) (home_block l i) /\ pins a !! slot l (Z.of_nat i) = None.

Lemma write_log_loop l j m k a t :
  c_rel k a -> aheld a = ∅ -> entries l a m j -> (size (pins a) < NBUF)%nat ->
  (forall i, (m <= i < m + j)%nat -> is_Some (pins a !! home_block l i)) ->
  let W := (fun i => (slot l (Z.of_nat i), default [] (pins a !! home_block l i))) <$> seq m j in
  exists k' ev, mfor (seq m j) (fun i => write_log1 (Z.of_nat i)) (Ctx [] t) (mklstate l k) =
      Ok tt (Ctx [] (t ++ ev)) (mklstate l k') /\
    disk_writes ev = W /\ c_rel k' (a <| adisk := apply_writes (adisk a) W |>).
Proof.
  revert m k a t. induction j as [|j IH]; intros m k a t Hr Hh He Hsz Hp W.
  { exists k, []. rewrite app_nil_r. split_and!; [done..|]. by destruct a. }
  destruct (He m) as [Hem Hs]; [lia|]. destruct (Hp m) as [d Hd]; [lia|].
  destruct (write_log1_run k a l (Z.of_nat m) (home_block l m) t Hr Hh Hem) as (k1 & ev1 & Hrun1 & Hw1 & Hr1);
    [right; rewrite Hh, map_size_empty; lia|by rewrite Hd|].
  set (a1 := copied a (home_block l m) (slot l (Z.of_nat m))) in Hr1.
  assert (Hpins : pins a1 = pins a) by (unfold a1; simpl; by apply delete_id).
  assert (Hav : aview a (home_block l m) = default [] (pins a !! home_block l m))
    by (unfold aview; by rewrite Hd).
  destruct (IH (S m) k1 a1 (t ++ ev1) Hr1) as (k' & ev2 & Hrun2 & Hw2 & Hr2).
  - done.
  - intros i Hi. rewrite Hpins. destruct (He i) as [[] Hsi]; [lia|]. split; [|done]. by split.
  - by rewrite Hpins.
  - intros i Hi. rewrite Hpins. apply Hp. lia.
  - rewrite Hpins in Hw2, Hr2. exists k', (ev1 ++ ev2). split_and!.
    + cbn [seq mfor]. rewrite bindE, Hrun1. cbn [obind]. by rewrite Hrun2, app_assoc.
    + rewrite disk_writes_app, Hw1, Hw2, Hav. done.
    + unfold W. cbn [seq fmap list_fmap apply_writes foldl]. rewrite <- Hav.
      erewrite acache_eq; [exact Hr2|done|done| |done]. simpl. symmetry. by apply delete_id.
Qed.

Lemma install_loop l j m k a t :
  c_rel k a -> aheld a = ∅ -> entries l a m j -> (size (pins a) < NBUF)%nat ->
  NoDup (home_block l <$> seq m j) ->
  (forall i i', (m <= i < m + j)%nat -> (m <= i' < m + j)%nat -> home_block l i <> slot l (Z.of_nat i')) ->
  (forall i, (m <= i < m + j)%nat -> is_Some (pins a !! home_block l i) \/ (size (pins a) + 1 < NBUF)%nat) ->
  let W := (fun i => (home_block l i, adisk a (slot l (Z.of_nat i)))) <$> seq m j in
  exists k' ev, mfor (seq m j) (fun i => install1 (Z.of_nat i)) (Ctx [] t) (mklstate l k) =
      Ok tt (Ctx [] (t ++ ev)) (mklstate l k') /\
    disk_writes ev = W /\
    c_rel k' (a <| adisk := apply_writes (adisk a) W |>
                <| pins := foldl (fun p i => delete (home_block l i) p) (pins a) (seq m j) |>).
Proof.
  revert m k a t. induction j as [|j IH]; intros m k a t Hr Hh He Hsz Hnd Hns Hp W.
  { exists k, []. rewrite app_nil_r. split_and!; [done..|]. by destruct a. }
  destruct (He m) as [Hem Hs]; [lia|].
  assert (Hdel : forall q : Z, (size (delete q (pins a)) <= size (pins a))%nat).
  { intros q. apply map_subseteq_size, delete_subseteq. }
  destruct (install1_run k a l (Z.of_nat m) (home_block l m) t Hr Hh Hem) as (k1 & ev1 & Hrun1 & Hw1 & Hr1).
  { right. rewrite Hh, map_size_empty. lia. }
  { destruct (Hp m) as [?|?]; [lia|by left|right]. specialize (Hdel (slot l (Z.of_nat m))). lia. }
  set (a1 := copied a (slot l (Z.of_nat m)) (home_block l m)) in Hr1.
  assert (Hav : aview a (slot l (Z.of_nat m)) = adisk a (slot l (Z.of_nat m)))
    by (unfold aview; by rewrite Hs).
  cbn [seq fmap list_fmap] in Hnd. apply NoDup_cons in Hnd as [Hnin Hnd].
  assert (Hne : forall i, (S m <= i < S m + j)%nat -> home_block l i <> home_block l m).
  { intros i Hi Heq. apply Hnin. rewrite <- Heq. apply list_elem_of_fmap_2. apply elem_of_seq. lia. }
  destruct (IH (S m) k1 a1 (t ++ ev1) Hr1) as (k' & ev2 & Hrun2 & Hw2 & Hr2).
  - done.
  - intros i Hi. destruct (He i) as [[] Hsi]; [lia|]. split; [by split|]. simpl.
    rewrite lookup_delete_ne; [done|]. apply Hns; lia.
  - simpl. specialize (Hdel (home_block l m)). lia.
  - done.
  - intros i i' Hi Hi'. apply Hns; lia.
  - intros i Hi. simpl. destruct (Hp i) as [?|?]; [lia|left|right].
    + rewrite lookup_delete_ne; [done|]. by apply not_eq_sym, Hne.
    + specialize (Hdel (home_block l m)). lia.
  - exists k', (ev1 ++ ev2).
    assert (HW : (fun i => (home_block l i, adisk a1 (slot l (Z.of_nat i)))) <$> seq (S m) j =
      (fun i => (home_block l i, adisk a (slot l (Z.of_nat i)))) <$> seq (S m) j).
    { apply list_fmap_ext. intros q i Hq. apply lookup_seq in Hq as [-> Hq]. f_equal. simpl. unfold upd. simpl.
      destruct (Z.eqb_spec (slot l (Z.of_nat (S (m + q)))) (home_block l m)) as [Heq|]; [|done].
      destruct (Hns m (S m + q)%nat); lia || done. }
    rewrite HW in Hw2, Hr2. split_and!.
    + cbn [seq mfor]. rewrite bindE, Hrun1. cbn [obind]. by rewrite Hrun2, app_assoc.
    + rewrite disk_writes_app, Hw1, Hw2, Hav. done.
    + unfold W. cbn [seq fmap list_fmap apply_writes foldl]. rewrite <- Hav. exact Hr2.
Qed.

(** ** The header *)

(** Reading an unpinned block with nothing else in use. *)
Lemma read_one k a x t l :
  c_rel k a -> aheld a = ∅ -> 0 <= x < asize a -> pins a !! x = None -> (size (pins a) < NBUF)%nat ->
  exists i k1 ev,
    onc (c_bread ROOTDEV x) (Ctx [] t) (mklstate l k) = Ok i (Ctx [] (t ++ ev)) (mklstate l k1) /\
    disk_writes ev = [] /\
    (forall c l', exists b, onc (c_buf i) c (mklstate l' k1) = Ok b c (mklstate l' k1) /\ data b = adisk a x) /\
    c_rel k1 (a <| aheld := {[i := Held x (adisk a x) false]} |>).
Proof.
  intros Hr Hh Hx Hp Hsz.
  destruct (c_bread_ok k a x t Hr Hx) as (i & k1 & ev & Hrun & Hev & _ & Hr1).
  { intros j h Hj. by rewrite Hh in Hj. }
  { right. rewrite Hh, map_size_empty. lia. }
  assert (Ha : a_bread a i x = a <| aheld := {[i := Held x (adisk a x) false]} |>).
  { apply acache_eq; simpl; try done; [by apply delete_id|]. unfold aview. by rewrite Hp, Hh. }
  rewrite Ha in Hr1.
  exists i, k1, ev. split_and!; try done; [by apply onc_run|].
  intros c l'. destruct (c_buf_ok k1 _ i (Held x (adisk a x) false) c Hr1) as (b' & Hb' & Hd' & _);
    [simpl; apply lookup_singleton_eq|].
  exists b'. split; [by apply onc_run|done].
Qed.

(** The position of the log on the disk. *)
Record placed (l : log) (a : acache) : Prop := {
  pl_dev : ldev l = ROOTDEV;
  pl_start : 0 <= lstart l;
  pl_size : lstart l + lsize l <= asize a;
  pl_asize : asize a < 2 ^ 31;
  pl_blocks : length (lh_block l) = 30%nat;
  pl_n : 0 <= lh_n l <= 29 /\ lh_n l < lsize l;
}.

Lemma write_head_run k a l t :
  c_rel k a -> aheld a = ∅ -> placed l a -> pins a !! lstart l = None -> (size (pins a) < NBUF)%nat ->
  Forall (fun b => 0 <= b < 2 ^ 31) (take (Z.to_nat (lh_n l)) (lh_block l)) ->
  let W := [(lstart l, put_header l (adisk a (lstart l)))] in
  exists k' ev, write_head (Ctx [] t) (mklstate l k) = Ok tt (Ctx [] (t ++ ev)) (mklstate l k') /\
    disk_writes ev = W /\ c_rel k' (a <| adisk := apply_writes (adisk a) W |>).
Proof.
  intros Hr Hh [Hdev Hst Hsz Has Hbl Hn] Hp Hps Hb W.
  set (x := lstart l) in *. set (d' := put_header l (adisk a x)) in *.
  assert (Hx : 0 <= x < asize a) by lia.
  pose proof (c_adisk_length k a x Hr Hx) as Hlen.
  destruct (header_put l (adisk a x)) as (_ & _ & Hlen'); [done|lia..|done|]. fold d' in Hlen'.
  destruct (read_one k a x t l Hr Hh Hx Hp Hps) as (i & k1 & ev1 & Hrun1 & Hev1 & Hbuf & Hr1).
  destruct (Hbuf (Ctx [] (t ++ ev1)) l) as (b & Hb1 & Hbd).
  set (h := Held x (adisk a x) false) in Hr1.
  destruct (c_setdata_ok k1 _ i h d' (Ctx [] (t ++ ev1)) Hr1) as (k2 & Hrun2 & Hr2);
    [simpl; apply lookup_singleton_eq|done|].
  edestruct (c_bwrite_ok k2 _ i (Held x d' false) (t ++ ev1) Hr2) as (k3 & ev3 & Hrun3 & Hev3 & Hr3);
    [simpl; apply lookup_insert_eq|].
  edestruct (c_brelse_ok k3 _ i (Held x d' false) ((t ++ ev1) ++ ev3) Hr3) as (k4 & ev4 & Hrun4 & Hev4 & Hr4);
    [simpl; apply lookup_insert_eq|right; simpl; by rewrite Z.eqb_refl|].
  exists k4, (ev1 ++ ev3 ++ ev4). split_and!.
  - unfold write_head. rewrite bindE, getl_run. cbn [obind]. fold x. rewrite Hdev, u32_small by lia.
    rewrite bindE, Hrun1. cbn [obind]. rewrite bindE, Hb1. cbn [obind].
    destruct (Z.ltb_spec (Z.of_nat (length (lh_block l))) (lh_n l)); [lia|]. mrun. rewrite Hbd. fold d'.
    erewrite onc_run by exact Hrun2. cbn [obind]. rewrite bindE. erewrite onc_run by exact Hrun3. cbn [obind].
    erewrite onc_run by exact Hrun4. by rewrite !app_assoc.
  - by rewrite !disk_writes_app, Hev1, Hev3, Hev4.
  - erewrite acache_eq; [exact Hr4|done..|]. simpl. rewrite Hh. apply map_eq. intros q.
    destruct (decide (q = i)) as [->|]; by simplify_map_eq.
Qed.

Definition read_entry (d : list Z) (i : Z) : M (lstate C) unit :=
  l ← getl;
  (if Z.of_nat (length d) <? 4 + 4 * i + 4 then undef else mret tt) ;;
  blocks ← wr (lh_block l) i (s32 (get32 d (block_off i)));
  modl (fun l => l <| lh_block := blocks |>).

Lemma read_entries hd j m l k c :
  length hd = 512%nat -> length (lh_block l) = 30%nat -> (m + j <= 30)%nat ->
  mfor (seq m j) (fun i => read_entry hd (Z.of_nat i)) c (mklstate l k) =
  Ok tt c (mklstate (l <| lh_block ::= fun bl =>
    take m bl ++ (header_entry hd <$> seq m j) ++ drop (m + j) bl |>) k).
Proof.
  intros Hd. revert m l. induction j as [|j IH]; intros m l Hl Hm.
  { cbn. rewrite retE. f_equal. destruct l. cbn. by rewrite Nat.add_0_r, take_drop. }
  cbn [seq mfor]. rewrite bindE. unfold read_entry at 1. rewrite bindE, getl_run. cbn [obind].
  destruct (Z.ltb_spec (Z.of_nat (length hd)) (4 + 4 * Z.of_nat m + 4)); [lia|]. mrun.
  unfold wr. rewrite aset_in by lia. rewrite of_optionE. cbn [obind]. unfold modl. rewrite modSE. cbn [obind].
  rewrite Nat2Z.id. fold (header_entry hd m).
  set (l1 := l <| lh_block := <[m := header_entry hd m]> (lh_block l) |>).
  etransitivity; [apply (IH (S m) l1); simpl; rewrite ?length_insert; lia|].
  f_equal. f_equal. destruct l. cbn in *. f_equal.
  rewrite Nat.add_succ_r. cbn [fmap list_fmap]. rewrite <- take_drop with (i := m) (l := <[m := _]> _).
  apply list_eq. intros q.
  destruct (decide (q < S m)%nat) as [Hq|Hq].
  - rewrite lookup_app_l by (rewrite length_take, take_drop, length_insert; lia). rewrite lookup_take_lt, take_drop by lia.
    destruct (decide (q = m)) as [->|].
    + rewrite list_lookup_insert_eq by lia. rewrite lookup_app_r by (rewrite length_take; lia).
      by rewrite length_take, min_l, Nat.sub_diag by lia.
    + rewrite list_lookup_insert_ne by lia. rewrite lookup_app_l by (rewrite length_take; lia).
      by rewrite lookup_take_lt by lia.
  - rewrite lookup_app_r by (rewrite length_take, take_drop, length_insert; lia).
    rewrite (lookup_app_r (take m _)) by (rewrite length_take; lia).
    rewrite !length_take, take_drop, length_insert, !min_l by lia.
    replace (q - m)%nat with (S (q - S m)) by lia. cbn [lookup list_lookup app].
    rewrite drop_insert_lt by lia. done.
Qed.

(** read_head() loads the list of home blocks from the disk. *)
Lemma read_head_run k a l t :
  c_rel k a -> aheld a = ∅ -> placed l a -> pins a !! lstart l = None -> (size (pins a) < NBUF)%nat ->
  let hd := adisk a (lstart l) in
  0 <= header_n hd <= 30 ->
  exists k' ev, read_head (Ctx [] t) (mklstate l k) = Ok tt (Ctx [] (t ++ ev))
      (mklstate (l <| lh_n := header_n hd |>
                   <| lh_block ::= fun bl => header hd ++ drop (Z.to_nat (header_n hd)) bl |>) k') /\
    disk_writes ev = [] /\ c_rel k' a.
Proof.
  intros Hr Hh [Hdev Hst Hsz Has Hbl Hn] Hp Hps hd Hhn.
  set (x := lstart l) in *. assert (Hx : 0 <= x < asize a) by lia.
  pose proof (c_adisk_length k a x Hr Hx) as Hlen. fold hd in Hlen.
  destruct (read_one k a x t l Hr Hh Hx Hp Hps) as (i & k1 & ev1 & Hrun1 & Hev1 & Hbuf & Hr1).
  destruct (Hbuf (Ctx [] (t ++ ev1)) l) as (b & Hb1 & Hbd). fold hd in Hbd.
  destruct (c_brelse_ok k1 _ i (Held x (adisk a x) false) (t ++ ev1) Hr1) as (k2 & ev2 & Hrun2 & Hev2 & Hr2);
    [simpl; apply lookup_singleton_eq|by right|].
  exists k2, (ev1 ++ ev2). split_and!.
  - unfold read_head. rewrite bindE, getl_run. cbn [obind]. fold x. rewrite Hdev, u32_small by lia.
    rewrite bindE, Hrun1. cbn [obind]. rewrite bindE, Hb1. cbn [obind]. rewrite Hbd.
    fold (header_n hd). rewrite bindE. unfold modl at 1. rewrite modSE. cbn [obind].
    rewrite bindE. unfold getl at 1. rewrite getsE. cbn [obind]. rewrite bindE.
    change (for_tail _ _) with (mfor (seq 0 (Z.to_nat (header_n hd))) (fun i => read_entry hd (Z.of_nat i))).
    set (l1 := l <| lh_n := header_n hd |>).
    pose proof (read_entries hd (Z.to_nat (header_n hd)) 0 l1 k1 (Ctx [] (t ++ ev1)) Hlen Hbl ltac:(lia)) as He.
    etransitivity; [eapply (f_equal (fun o => obind o _)); exact He|].
    cbn [obind]. erewrite onc_run by exact Hrun2. by rewrite app_assoc.
  - by rewrite disk_writes_app, Hev1, Hev2.
  - erewrite acache_eq; [exact Hr2|done..|]. simpl. rewrite Hh. apply map_eq. intros q.
    destruct (decide (q = i)) as [->|]; by simplify_map_eq.
Qed.
End Steps.

(** ** The disk after recovery *)

(** The contents of [x] when the blocks [L] are installed from the slots that
    start at [y]. *)
Fixpoint replay (L : list Z) (y : Z) (d : Z -> list Z) (x : Z) : list Z :=
  match L with
  | [] => d x
  | b :: L' => if x =? b then d y else replay L' (y + 1) d x
  end.

Definition logical (st : Z) (d : Z -> list Z) (x : Z) : list Z := replay (header (d st)) (st + 1) d x.

Lemma replay_notin L y d x : x ∉ L -> replay L y d x = d x.
Proof.
  revert y. induction L as [|b L IH]; intros y Hx; [done|]. simpl.
  apply not_elem_of_cons in Hx as [Hne Hx]. destruct (Z.eqb_spec x b); [done|]. by apply IH.
Qed.

Lemma replay_in L y d x i : NoDup L -> L !! i = Some x -> replay L y d x = d (y + Z.of_nat i).
Proof.
  revert y i. induction L as [|b L IH]; intros y i Hnd Hi; [done|]. simpl.
  apply NoDup_cons in Hnd as [Hb Hnd]. destruct i as [|i].
  - injection Hi as ->. by rewrite Z.eqb_refl, Z.add_0_r.
  - destruct (Z.eqb_spec x b) as [->|]; [destruct Hb; by eapply list_elem_of_lookup_2|].
    rewrite (IH _ i) by done. f_equal. lia.
Qed.

Lemma prefix_app_cases {A} (P X Y : list A) :
  P `prefix_of` X ++ Y -> P `prefix_of` X \/ exists P', P = X ++ P' /\ P' `prefix_of` Y.
Proof.
  revert P. induction X as [|x X IH]; intros P HP; [right; by exists P|].
  destruct P as [|p P]; [left; apply prefix_nil|].
  destruct HP as [Q HQ]. injection HQ as -> HQ.
  destruct (IH P) as [Hp|(P' & -> & HP')]; [by exists Q|left; by apply prefix_cons|right; by exists P'].
Qed.

Section Crash.
Context (st sz : Z).

Definition home (x : Z) : Prop := ~ (st <= x < st + sz).

(** The writes of install_trans() for the home blocks [L] on the disk [d]. *)
Definition install_writes (L : list Z) (d : Z -> list Z) : list (Z * list Z) :=
  imap (fun i b => (b, d (st + 1 + Z.of_nat i))) L.

(** The blocks of a header that can be installed. *)
Record installable (L : list Z) : Prop := {
  il_nodup : NoDup L;
  il_home : Forall home L;
  il_len : Z.of_nat (length L) < sz;
}.

Lemma elem_of_install L d w :
  w ∈ install_writes L d -> exists i b, L !! i = Some b /\ w = (b, d (st + 1 + Z.of_nat i)).
Proof.
  intros Hw. apply list_elem_of_lookup in Hw as [i Hi]. unfold install_writes in Hi.
  rewrite list_lookup_imap in Hi. destruct (L !! i) as [b|] eqn:Hb; [|done].
  exists i, b. injection Hi as <-. done.
Qed.

(** Installing, in part or as a whole, does not change the logical disk. *)
Lemma install_prefix L d P x :
  header (d st) = L -> installable L -> home x -> P `prefix_of` install_writes L d ->
  logical st (apply_writes d P) x = logical st d x.
Proof.
  intros HL [Hnd Hhome Hlen] Hx HP.
  assert (HPw : forall w, w ∈ P -> exists i b, L !! i = Some b /\ w = (b, d (st + 1 + Z.of_nat i))).
  { intros w Hw. apply elem_of_install. destruct HP as [Q ->]. apply elem_of_app. by left. }
  rewrite Forall_forall in Hhome.
  assert (Hlog : forall y, st <= y < st + sz -> apply_writes d P y = d y).
  { intros y Hy. apply apply_other. intros w Hw. destruct (HPw w Hw) as (i & b & Hb & ->). simpl.
    intros ->. by apply (Hhome y); [eapply list_elem_of_lookup_2|]. }
  unfold logical. rewrite Hlog by lia. rewrite HL.
  destruct (decide (x ∈ L)) as [Hin|Hnin].
  - apply list_elem_of_lookup in Hin as [i Hi]. rewrite !(replay_in L _ _ x i) by done.
    apply Hlog. apply lookup_lt_Some in Hi. lia.
  - rewrite !replay_notin by done. apply apply_other. intros w Hw.
    destruct (HPw w Hw) as (i & b & Hb & ->). simpl. intros ->. apply Hnin. by eapply list_elem_of_lookup_2.
Qed.

Lemma install_all L d x :
  header (d st) = L -> installable L -> home x ->
  apply_writes d (install_writes L d) x = logical st d x.
Proof.
  intros HL [Hnd Hhome Hlen] Hx. unfold logical. rewrite HL.
  destruct (decide (x ∈ L)) as [Hin|Hnin].
  - apply list_elem_of_lookup in Hin as [i Hi]. rewrite (replay_in L _ _ x i) by done. apply apply_same.
    + intros w Hw. destruct (elem_of_install L d w Hw) as (j & b & Hb & ->). simpl. intros ->.
      by rewrite (NoDup_lookup L i j x Hnd Hi Hb).
    + exists (x, d (st + 1 + Z.of_nat i)). split; [|done]. apply list_elem_of_lookup. exists i.
      unfold install_writes. rewrite list_lookup_imap, Hi. done.
  - rewrite replay_notin by done. apply apply_other. intros w Hw.
    destruct (elem_of_install L d w Hw) as (i & b & Hb & ->). simpl. intros ->.
    apply Hnin. by eapply list_elem_of_lookup_2.
Qed.

(** Installing the header's blocks and then clearing it: every crash point
    has the same logical disk, and at the end the disk is the logical one. *)
Lemma recovery_prefix L d H0 P x :
  header (d st) = L -> installable L -> home x -> header H0 = [] ->
  P `prefix_of` install_writes L d ++ [(st, H0)] ->
  logical st (apply_writes d P) x = logical st d x.
Proof.
  intros HL Hil Hx HH0 [HP|(P' & -> & HP')]%prefix_app_cases; [by eapply install_prefix|].
  destruct P' as [|w P']; [rewrite app_nil_r; by eapply install_prefix|].
  destruct HP' as [Q HQ]. simplify_list_eq. destruct P'; [|done].
  rewrite apply_app. cbn. unfold logical at 1, upd at 1. simpl. rewrite Z.eqb_refl, HH0. simpl.
  assert (x <> st) by (intros ->; apply Hx; destruct Hil; lia).
  unfold upd. simpl. destruct (Z.eqb_spec x st); [done|]. by apply install_all.
Qed.

(** The writes of write_log(): block [b] goes to its slot with contents [p b]. *)
Definition log_writes (L : list Z) (p : Z -> list Z) : list (Z * list Z) :=
  imap (fun i b => (st + 1 + Z.of_nat i, p b)) L.

Lemma elem_of_log_writes L p w :
  w ∈ log_writes L p -> exists i b, L !! i = Some b /\ w = (st + 1 + Z.of_nat i, p b).
Proof.
  intros Hw. apply list_elem_of_lookup in Hw as [i Hi]. unfold log_writes in Hi.
  rewrite list_lookup_imap in Hi. destruct (L !! i) as [b|] eqn:Hb; [|done].
  exists i, b. injection Hi as <-. done.
Qed.

Definition committed (L : list Z) (p : Z -> list Z) (d : Z -> list Z) (H1 : list Z) : Z -> list Z :=
  upd (apply_writes d (log_writes L p)) (st, H1).

Definition commit_writes (L : list Z) (p d : Z -> list Z) (H1 H0 : list Z) : list (Z * list Z) :=
  log_writes L p ++ [(st, H1)] ++ install_writes L (committed L p d H1) ++ [(st, H0)].

(** Before the header is written the logical disk is the old one. *)
Lemma log_prefix L p d P x :
  header (d st) = [] -> Z.of_nat (length L) < sz -> home x -> P `prefix_of` log_writes L p ->
  logical st (apply_writes d P) x = d x.
Proof.
  intros HL Hlen Hx HP.
  assert (Hkeep : forall y, ~ (st < y < st + sz) -> apply_writes d P y = d y).
  { intros y Hy. apply apply_other. intros w Hw.
    destruct (elem_of_log_writes L p w) as (i & b & Hb & ->);
      [destruct HP as [Q ->]; apply elem_of_app; by left|].
    apply lookup_lt_Some in Hb. simpl. lia. }
  unfold logical. rewrite Hkeep by lia. rewrite HL. simpl. apply Hkeep. unfold home in Hx. lia.
Qed.

(** Once it is written the logical disk is the new one. *)
Lemma committed_logical L p d H1 x :
  installable L -> header H1 = L -> home x ->
  logical st (committed L p d H1) x = if decide (x ∈ L) then p x else d x.
Proof.
  intros [Hnd Hhome Hlen] HH1 Hx. unfold logical, committed, upd at 1. simpl. rewrite Z.eqb_refl, HH1.
  case_decide as Hin.
  - apply list_elem_of_lookup in Hin as [i Hi]. rewrite (replay_in L _ _ x i) by done.
    unfold upd. simpl. destruct (Z.eqb_spec (st + 1 + Z.of_nat i) st); [lia|]. apply apply_same.
    + intros w Hw. destruct (elem_of_log_writes L p w Hw) as (j & b & Hb & ->). simpl. intros Hj.
      assert (i = j) as <- by lia. congruence.
    + exists (st + 1 + Z.of_nat i, p x). split; [|done]. apply list_elem_of_lookup. exists i.
      unfold log_writes. rewrite list_lookup_imap, Hi. done.
  - rewrite replay_notin by done. unfold upd. simpl.
    destruct (Z.eqb_spec x st) as [->|]; [exfalso; apply Hx; lia|]. apply apply_other.
    intros w Hw. destruct (elem_of_log_writes L p w Hw) as (j & b & Hb & ->).
    apply lookup_lt_Some in Hb. simpl. unfold home in Hx. lia.
Qed.

Lemma commit_prefix L p d H1 H0 P :
  header (d st) = [] -> installable L -> header H1 = L -> header H0 = [] ->
  P `prefix_of` commit_writes L p d H1 H0 ->
  (forall x, home x -> logical st (apply_writes d P) x = d x) \/
  (forall x, home x -> logical st (apply_writes d P) x = if decide (x ∈ L) then p x else d x).
Proof.
  intros HL Hil HH1 HH0 HP. pose proof (il_len _ Hil) as Hlen.
  apply prefix_app_cases in HP as [HP|(P' & -> & HP)]; [left; intros x Hx; by eapply log_prefix|].
  apply prefix_app_cases in HP as [HP|(P'' & -> & HP)].
  - destruct P' as [|w P']; [left; intros x Hx; rewrite app_nil_r; by eapply (log_prefix L p)|right].
    destruct HP as [Q HQ]. simplify_list_eq. destruct P'; [|done]. intros x Hx. rewrite apply_app.
    by apply committed_logical.
  - right. intros x Hx. rewrite !apply_app. change (apply_writes _ [(st, H1)]) with (committed L p d H1).
    rewrite (recovery_prefix L _ H0 P''); try done.
    + by apply committed_logical.
    + unfold committed, upd. simpl. by rewrite Z.eqb_refl.
Qed.

(** The disk when commit() is done. *)
Lemma commit_done L p d H1 H0 x :
  installable L -> header H1 = L -> home x ->
  apply_writes d (commit_writes L p d H1 H0) x = if decide (x ∈ L) then p x else d x.
Proof.
  intros Hil HH1 Hx. unfold commit_writes. rewrite !apply_app.
  change (apply_writes (apply_writes d (log_writes L p)) [(st, H1)]) with (committed L p d H1).
  cbn [apply_writes foldl]. unfold upd at 1. simpl.
  destruct (Z.eqb_spec x st) as [->|]; [exfalso; apply Hx; destruct Hil; lia|].
  change (foldl upd ?d0 ?ws) with (apply_writes d0 ws). rewrite install_all; try done.
  - by apply committed_logical.
  - unfold committed, upd. simpl. by rewrite Z.eqb_refl.
Qed.
End Crash.
