(* ===== verification/LogAtomic.v ===== *)
(** * Atomic commit and recovery (src/log.c)

    commit(), end_op() and recover_from_log() run against any buffer cache
    with the interface [BlockCache]; their disk writes are those analysed in
    [LogSpec], so every crash leaves all or nothing of the transaction. *)

From stdpp Require Import prelude gmap strings list.
From Stdlib Require Import ZArith Lia.
From S2P Require Import Prelude Sleeplock Bio BioSpec Layout Log LogSpec.

(** The blocks of the transaction. *)
Definition logged (l : log) : list Z := take (Z.to_nat (lh_n l)) (lh_block l).

Lemma fmap_seq_imap {A} (F : nat -> Z -> A) l :
  0 <= lh_n l <= Z.of_nat (length (lh_block l)) ->
  (fun i => F i (home_block l i)) <$> seq 0 (Z.to_nat (lh_n l)) = imap F (logged l).
Proof.
  intros Hn. apply list_eq. intros i. rewrite list_lookup_imap, list_lookup_fmap. unfold logged, home_block.
  destruct (decide (i < Z.to_nat (lh_n l))%nat) as [Hi|Hi].
  - rewrite lookup_seq_lt, lookup_take_lt by lia. simpl.
    by destruct (lookup_lt_is_Some_2 (lh_block l) i) as [b ->]; [lia|].
  - rewrite (lookup_ge_None_2 (seq _ _)), lookup_take_ge by (rewrite ?length_seq; lia). done.
Qed.

Lemma logged_lookup l i b : logged l !! i = Some b -> home_block l i = b /\ aget (lh_block l) (Z.of_nat i) = Some b.
Proof.
  unfold logged, home_block, aget. intros [Hb Hi]%lookup_take_Some.
  destruct (Z.ltb_spec (Z.of_nat i) 0); [lia|]. by rewrite Nat2Z.id, Hb.
Qed.

(** The log and the cache hold a complete transaction, nothing is in use, and
    the header on the disk is clear. *)
Record commit_ready (l : log) (a : acache) : Prop := {
  rd_placed : placed l a;
  rd_idle : aheld a = ∅;
  rd_nodup : NoDup (logged l);
  rd_home : forall b, b ∈ logged l -> 0 <= b < asize a /\ home (lstart l) (lsize l) b;
  rd_pins : dom (pins a) = list_to_set (logged l);
  rd_clear : header_n (adisk a (lstart l)) = 0;
}.

Lemma ready_installable l a : commit_ready l a -> installable (lstart l) (lsize l) (logged l).
Proof.
  intros [[] _ Hnd Hh _ _]. split; [done| |].
  - apply Forall_forall. intros b Hb. by apply Hh.
  - unfold logged. rewrite length_take. lia.
Qed.

Lemma ready_size l a : commit_ready l a -> (size (pins a) < NBUF)%nat.
Proof.
  intros [[] _ Hnd _ Hd _]. rewrite <- size_dom, Hd, size_list_to_set by done.
  unfold logged. rewrite length_take. unfold NBUF. lia.
Qed.

(** Not in the transaction, not pinned. *)
Lemma ready_unpinned l a x : commit_ready l a -> ~ home (lstart l) (lsize l) x -> pins a !! x = None.
Proof.
  intros Hr Hx. apply not_elem_of_dom. rewrite (rd_pins _ _ Hr), elem_of_list_to_set. intros Hin.
  by destruct (rd_home _ _ Hr x Hin).
Qed.

Section Commit.
Context {C : Type} `{BlockCache C}.

(** The disk writes of commit(). *)
Definition ready_writes (l : log) (a : acache) : list (Z * list Z) :=
  let p b := default [] (pins a !! b) in
  let d1 := apply_writes (adisk a) (log_writes (lstart l) (logged l) p) in
  let H1 := put_header l (d1 (lstart l)) in
  let d2 := committed (lstart l) (logged l) p (adisk a) H1 in
  let d3 := apply_writes d2 (install_writes (lstart l) (logged l) d2) in
  commit_writes (lstart l) (logged l) p (adisk a) H1 (put_header (l <| lh_n := 0 |>) (d3 (lstart l))).

Lemma foldl_delete_lookup (f : nat -> Z) js (p : gmap Z (list Z)) x :
  foldl (fun p i => delete (f i) p) p js !! x = if decide (x ∈ f <$> js) then None else p !! x.
Proof.
  revert p. induction js as [|i js IH]; intros p; [done|]. cbn [foldl fmap list_fmap]. rewrite IH.
  repeat case_decide; try done.
  - exfalso. set_solver.
  - assert (x = f i) as -> by set_solver. apply lookup_delete_eq.
  - apply lookup_delete_ne. set_solver.
Qed.

Lemma home_blocks l :
  0 <= lh_n l <= Z.of_nat (length (lh_block l)) ->
  home_block l <$> seq 0 (Z.to_nat (lh_n l)) = logged l.
Proof.
  intros Hn. rewrite (fmap_seq_imap (fun _ b => b)) by done.
  apply list_eq. intros i. rewrite list_lookup_imap. by destruct (logged l !! i).
Qed.

(** Nothing of the log itself is pinned. *)
Definition log_unpinned (l : log) (a : acache) : Prop :=
  forall x, lstart l <= x < lstart l + lsize l -> pins a !! x = None.

(** The blocks a log lists, with their places. *)
Record tx_ok (l : log) (a : acache) : Prop := {
  tx_placed : placed l a;
  tx_idle : aheld a = ∅;
  tx_nodup : NoDup (logged l);
  tx_home : forall b, b ∈ logged l -> 0 <= b < asize a /\ home (lstart l) (lsize l) b;
  tx_log : log_unpinned l a;
  tx_size : (size (pins a) < NBUF)%nat;
}.

Lemma tx_entries l a :
  tx_ok l a -> entries l a 0 (Z.to_nat (lh_n l)) /\
  forall i, (i < Z.to_nat (lh_n l))%nat ->
    home_block l i ∈ logged l /\ lstart l < slot l (Z.of_nat i) < lstart l + lsize l.
Proof.
  intros [[Hdev Hst Hsz Has Hbl Hn] Hh Hnd Hhome Hlog _].
  assert (Hall : forall i, (i < Z.to_nat (lh_n l))%nat ->
    entry l a (Z.of_nat i) (home_block l i) /\ home_block l i ∈ logged l /\
    lstart l < slot l (Z.of_nat i) < lstart l + lsize l).
  { intros i Hi.
    destruct (lookup_lt_is_Some_2 (logged l) i) as [b Hb]; [unfold logged; rewrite length_take; lia|].
    destruct (logged_lookup l i b Hb) as [Hhb Hg]. rewrite Hhb.
    assert (Hin : b ∈ logged l) by (by eapply list_elem_of_lookup_2). destruct (Hhome b Hin) as [Hbr Hbh].
    unfold slot, home in *. split_and!; [|done|lia..]. split; [done|lia|done|lia]. }
  split; [|intros i Hi; by apply Hall].
  intros i Hi. destruct (Hall i) as (He & _ & Hs); [lia|]. split; [done|]. apply Hlog. lia.
Qed.

Lemma tx_bounds l a : tx_ok l a -> Forall (fun b => 0 <= b < 2 ^ 31) (logged l).
Proof.
  intros [[] _ _ Hh _ _]. apply Forall_forall. intros b Hb. destruct (Hh b Hb). lia.
Qed.

Lemma tx_len l a : tx_ok l a -> 0 <= lh_n l <= Z.of_nat (length (lh_block l)).
Proof. intros [[] _ _ _ _ _]. lia. Qed.

Lemma tx_disk l a d : tx_ok l a -> tx_ok l (a <| adisk := d |>).
Proof. intros [[] ? ? ? ? ?]. by split; [split|..]. Qed.

Lemma write_log_run k a l t :
  c_rel k a -> tx_ok l a -> (forall b, b ∈ logged l -> is_Some (pins a !! b)) ->
  let W := log_writes (lstart l) (logged l) (fun b => default [] (pins a !! b)) in
  exists k' ev, write_log (Ctx [] t) (mklstate l k) = Ok tt (Ctx [] (t ++ ev)) (mklstate l k') /\
    disk_writes ev = W /\ c_rel k' (a <| adisk := apply_writes (adisk a) W |>).
Proof.
  intros Hr Htx Hpin W. destruct (tx_entries l a Htx) as [He Hin]. pose proof (tx_len l a Htx) as Hlen.
  destruct (write_log_loop l (Z.to_nat (lh_n l)) 0 k a t Hr (tx_idle _ _ Htx) He (tx_size _ _ Htx))
    as (k' & ev & Hrun & Hw & Hr'); [intros i Hi; apply Hpin, Hin; lia|].
  rewrite (fmap_seq_imap (fun i b => (slot l (Z.of_nat i), default [] (pins a !! b)))) in Hw, Hr' by done.
  rewrite (imap_ext _ (fun i b => (lstart l + 1 + Z.of_nat i, default [] (pins a !! b)))) in Hw, Hr'
    by (intros i b _; unfold slot; f_equal; lia).
  exists k', ev. split; [|done]. unfold write_log. by rewrite bindE, getl_run.
Qed.

Lemma install_trans_run k a l t :
  c_rel k a -> tx_ok l a ->
  (forall b, b ∈ logged l -> is_Some (pins a !! b)) \/ (size (pins a) + 1 < NBUF)%nat ->
  let W := install_writes (lstart l) (logged l) (adisk a) in
  exists k' ev, install_trans (Ctx [] t) (mklstate l k) = Ok tt (Ctx [] (t ++ ev)) (mklstate l k') /\
    disk_writes ev = W /\
    c_rel k' (a <| adisk := apply_writes (adisk a) W |>
                <| pins := filter (fun kv => kv.1 ∉ logged l) (pins a) |>).
Proof.
  intros Hr Htx Hpin W. destruct (tx_entries l a Htx) as [He Hin]. pose proof (tx_len l a Htx) as Hlen.
  destruct (install_loop l (Z.to_nat (lh_n l)) 0 k a t Hr (tx_idle _ _ Htx) He (tx_size _ _ Htx))
    as (k' & ev & Hrun & Hw & Hr').
  { rewrite home_blocks by done. apply Htx. }
  { intros i j Hi Hj Heq. destruct (Hin i) as (Hi' & _); [lia|]. destruct (Hin j) as (_ & Hsl); [lia|].
    destruct (tx_home _ _ Htx _ Hi') as [_ Hho]. apply Hho. rewrite Heq. lia. }
  { intros i Hi. destruct Hpin as [Hpin|?]; [left; apply Hpin, Hin; lia|by right]. }
  rewrite (fmap_seq_imap (fun i b => (b, adisk a (slot l (Z.of_nat i))))) in Hw, Hr' by done.
  rewrite (imap_ext _ (fun i b => (b, adisk a (lstart l + 1 + Z.of_nat i)))) in Hw, Hr'
    by (intros i b _; unfold slot; do 2 f_equal; lia).
  exists k', ev. split_and!; [|done|].
  - unfold install_trans. by rewrite bindE, getl_run.
  - erewrite acache_eq; [exact Hr'|done|done| |done]. simpl. apply map_eq. intros x.
    rewrite foldl_delete_lookup, home_blocks by done. case_decide as Hx.
    + apply map_lookup_filter_None. right. intros ? _ Hn. by apply Hn.
    + destruct (pins a !! x) as [d|] eqn:Hd.
      * apply map_lookup_filter_Some. done.
      * apply map_lookup_filter_None. by left.
Qed.

Lemma ready_tx l a : commit_ready l a -> tx_ok l a.
Proof.
  intros Hr. split; try apply Hr; [|by eapply ready_size].
  intros x Hx. apply (ready_unpinned l a); [done|]. unfold home. lia.
Qed.

(** commit() from a complete transaction performs [ready_writes] and leaves
    an empty log and nothing pinned. *)
Lemma commit_run k a l t :
  c_rel k a -> commit_ready l a -> 0 < lh_n l ->
  exists k' ev, commit (Ctx [] t) (mklstate l k) =
      Ok tt (Ctx [] (t ++ ev)) (mklstate (l <| lh_n := 0 |>) k') /\
    disk_writes ev = ready_writes l a /\
    c_rel k' (a <| adisk := apply_writes (adisk a) (ready_writes l a) |> <| pins := ∅ |>).
Proof.
  intros Hr Hrd Hpos. pose proof (ready_tx l a Hrd) as Htx. pose proof (tx_bounds l a Htx) as Hbnd.
  pose proof (tx_placed _ _ Htx) as Hpl. pose proof Hpl as [Hdev Hst Hsz Has Hbl Hn].
  assert (Hpin : forall b, b ∈ logged l -> is_Some (pins a !! b)).
  { intros b Hb. apply elem_of_dom. by rewrite (rd_pins _ _ Hrd), elem_of_list_to_set. }
  destruct (write_log_run k a l t Hr Htx Hpin) as (k1 & ev1 & Hrun1 & Hw1 & Hr1).
  set (a1 := a <| adisk := _ |>) in Hr1. assert (Htx1 : tx_ok l a1) by (by apply tx_disk).
  destruct (write_head_run k1 a1 l (t ++ ev1) Hr1) as (k2 & ev2 & Hrun2 & Hw2 & Hr2); try apply Htx1; [lia|done|].
  set (a2 := a1 <| adisk := _ |>) in Hr2. assert (Htx2 : tx_ok l a2) by (by apply tx_disk).
  destruct (install_trans_run k2 a2 l ((t ++ ev1) ++ ev2) Hr2 Htx2) as (k3 & ev3 & Hrun3 & Hw3 & Hr3); [by left|].
  assert (Hp3 : filter (fun kv => kv.1 ∉ logged l) (pins a2) = ∅).
  { apply map_empty. intros x. apply map_lookup_filter_None. right. intros d Hd Hx. apply Hx.
    assert (Hdom : x ∈ dom (pins a)) by (by eapply elem_of_dom_2).
    by rewrite (rd_pins _ _ Hrd), elem_of_list_to_set in Hdom. }
  rewrite Hp3 in Hr3. set (a3 := a2 <| adisk := _ |> <| pins := ∅ |>) in Hr3.
  destruct (write_head_run k3 a3 (l <| lh_n := 0 |>) (((t ++ ev1) ++ ev2) ++ ev3) Hr3) as (k4 & ev4 & Hrun4 & Hw4 & Hr4);
    try done; [apply Htx|by split; try done; simpl; lia|simpl; rewrite map_size_empty; unfold NBUF; lia|].
  exists k4, (ev1 ++ ev2 ++ ev3 ++ ev4).
  assert (HW : ready_writes l a = disk_writes ev1 ++ disk_writes ev2 ++ disk_writes ev3 ++ disk_writes ev4)
    by (rewrite Hw1, Hw2, Hw3, Hw4; done).
  split_and!.
  - unfold commit. rewrite bindE, getl_run. cbn [obind]. destruct (Z.ltb_spec 0 (lh_n l)); [|lia].
    rewrite bindE, Hrun1. cbn [obind]. rewrite bindE, Hrun2. cbn [obind]. rewrite bindE, Hrun3. cbn [obind].
    rewrite bindE. unfold modl at 1. rewrite modSE. cbn [obind].
    etransitivity; [exact Hrun4|]. by rewrite !app_assoc.
  - by rewrite !disk_writes_app, HW.
  - rewrite HW, !apply_app, Hw1, Hw2, Hw3, Hw4. exact Hr4.
Qed.

(** ** Recovery *)

(** A header block that recovery can work with. *)
Record header_ok (l : log) (n : Z) (hd : list Z) : Prop := {
  ho_n : 0 <= header_n hd <= 29 /\ header_n hd < lsize l;
  ho_nodup : NoDup (header hd);
  ho_home : forall b, b ∈ header hd -> 0 <= b < n /\ home (lstart l) (lsize l) b;
}.

Lemma header_ok_installable l n hd : header_ok l n hd -> installable (lstart l) (lsize l) (header hd).
Proof.
  intros [Hn Hnd Hh]. split; [done|apply Forall_forall; intros b Hb; by apply Hh|].
  unfold header. rewrite length_fmap, length_seq. lia.
Qed.

Lemma header_clear_ok l n hd : 0 < lsize l -> header_n hd = 0 -> header_ok l n hd.
Proof.
  intros Hs Hz. assert (He : header hd = []) by (unfold header; by rewrite Hz).
  split; rewrite ?He; [lia|by constructor|set_solver].
Qed.

Lemma header_clear l d :
  length d = 512%nat -> header_n (put_header (l <| lh_n := 0 |>) d) = 0 /\
  header (put_header (l <| lh_n := 0 |>) d) = [].
Proof.
  intros Hd. destruct (header_put (l <| lh_n := 0 |>) d) as (Hn & Hh & _); try done; simpl; lia.
Qed.

Lemma recover_run k l d n t :
  c_rel k (acache0 d n) -> placed l (acache0 d n) -> header_ok l n (d (lstart l)) ->
  exists k' l' ev H0, recover_from_log (Ctx [] t) (mklstate l k) = Ok tt (Ctx [] (t ++ ev)) (mklstate l' k') /\
    lh_n l' = 0 /\ header_n H0 = 0 /\
    disk_writes ev = install_writes (lstart l) (header (d (lstart l))) d ++ [(lstart l, H0)] /\
    c_rel k' (acache0 (apply_writes d (disk_writes ev)) n).
Proof.
  intros Hr Hpl Hho. pose proof Hpl as [Hdev Hst Hsz Has Hbl Hn]. simpl in Hsz, Has.
  pose proof (ho_n _ _ _ Hho) as Hhn. set (hd := d (lstart l)) in *.
  destruct (read_head_run k _ l t Hr eq_refl Hpl) as (k1 & ev1 & Hrun1 & Hw1 & Hr1);
    [done|simpl; rewrite map_size_empty; unfold NBUF; lia|simpl; fold hd; lia|].
  cbn [acache0 adisk] in Hrun1. fold hd in Hrun1. set (l1 := l <| lh_n := _ |> <| lh_block ::= _ |>) in Hrun1.
  assert (Hhl : length (header hd) = Z.to_nat (header_n hd)) by (unfold header; by rewrite length_fmap, length_seq).
  assert (Hlog : logged l1 = header hd) by (unfold logged; simpl; rewrite take_app_length'; done).
  assert (Hpl1 : placed l1 (acache0 d n)).
  { split; try done; simpl; rewrite ?length_app, ?Hhl, ?length_drop; lia. }
  assert (Htx : tx_ok l1 (acache0 d n)).
  { split; try done; rewrite ?Hlog; [apply Hho|apply Hho|simpl; rewrite map_size_empty; unfold NBUF; lia]. }
  destruct (install_trans_run k1 _ l1 (t ++ ev1) Hr1 Htx) as (k2 & ev2 & Hrun2 & Hw2 & Hr2);
    [right; simpl; rewrite map_size_empty; unfold NBUF; lia|].
  rewrite Hlog in Hw2, Hr2. set (a2 := (acache0 d n) <| adisk := _ |> <| pins := _ |>) in Hr2.
  assert (Hp2 : pins a2 = ∅) by (simpl; by rewrite map_filter_empty).
  set (l2 := l1 <| lh_n := 0 |>).
  destruct (write_head_run k2 a2 l2 ((t ++ ev1) ++ ev2) Hr2) as (k3 & ev3 & Hrun3 & Hw3 & Hr3);
    try (rewrite Hp2, ?map_size_empty); try done; [split; try done; try apply Hpl1; simpl; lia|unfold NBUF; lia|].
  exists k3, l2, (ev1 ++ ev2 ++ ev3). eexists. split_and!; [| | |rewrite !disk_writes_app, Hw1, Hw2, Hw3; reflexivity|].
  - unfold recover_from_log. rewrite bindE, Hrun1. cbn [obind]. rewrite bindE, Hrun2. cbn [obind].
    rewrite bindE. unfold modl at 1. rewrite modSE. cbn [obind]. etransitivity; [exact Hrun3|]. by rewrite !app_assoc.
  - done.
  - apply header_clear. eapply (c_adisk_length k2 a2); [done|simpl; lia].
  - rewrite !disk_writes_app, Hw1, Hw2, Hw3. rewrite app_nil_l, apply_app.
    erewrite acache_eq; [exact Hr3|done|done|done|done].
Qed.

(** ** Crashes *)

(** The machine after a reboot with the disk [d]: a fresh cache and the log
    located by the superblock. *)
Definition booted (l : log) (n : Z) (d : Z -> list Z) (l2 : log) (k2 : C) : Prop :=
  c_rel k2 (acache0 d n) /\ placed l2 (acache0 d n) /\ lstart l2 = lstart l /\ lsize l2 = lsize l.

(** A block is as it was, or a write of it was the last. *)
Lemma apply_cases d ws x :
  apply_writes d ws x = d x \/ exists v, (x, v) ∈ ws /\ apply_writes d ws x = v.
Proof.
  induction ws as [|[y v] ws IH] using rev_ind; [by left|]. rewrite apply_app. cbn. unfold upd. simpl.
  destruct (Z.eqb_spec x y) as [->|Hne].
  - right. exists v. split; [|done]. set_solver.
  - destruct IH as [?|(v' & Hin & Hv)]; [by left|right]. exists v'. split; [set_solver|done].
Qed.

Lemma header_after l n d ws :
  (forall v, (lstart l, v) ∈ ws -> header_ok l n v) -> header_ok l n (d (lstart l)) ->
  header_ok l n (apply_writes d ws (lstart l)).
Proof.
  intros Hv Hd. destruct (apply_cases d ws (lstart l)) as [->|(v & Hin & ->)]; [done|by apply Hv].
Qed.

Lemma install_not_start st sz L d v : installable st sz L -> (st, v) ∉ install_writes st L d.
Proof.
  intros [_ Hh Hl] Hin. destruct (elem_of_install st L d _ Hin) as (i & b & Hb & [= <- _]).
  rewrite Forall_forall in Hh. apply (Hh st); [by eapply list_elem_of_lookup_2|].
  apply lookup_lt_Some in Hb. lia.
Qed.

Lemma log_not_start st L p v : (st, v) ∉ log_writes st L p.
Proof. intros Hin. destruct (elem_of_log_writes st L p _ Hin) as (i & b & _ & [= Hst _]). lia. Qed.

(** Recovery after a crash of recovery. *)
Lemma recover_logical k l d n t :
  c_rel k (acache0 d n) -> placed l (acache0 d n) -> header_ok l n (d (lstart l)) ->
  exists k' l' ev, recover_from_log (Ctx [] t) (mklstate l k) = Ok tt (Ctx [] (t ++ ev)) (mklstate l' k') /\
    lh_n l' = 0 /\ c_rel k' (acache0 (apply_writes d (disk_writes ev)) n) /\
    (forall x, home (lstart l) (lsize l) x -> apply_writes d (disk_writes ev) x = logical (lstart l) d x) /\
    header_n (apply_writes d (disk_writes ev) (lstart l)) = 0 /\
    forall P, P `prefix_of` disk_writes ev ->
      header_ok l n (apply_writes d P (lstart l)) /\
      forall x, home (lstart l) (lsize l) x -> logical (lstart l) (apply_writes d P) x = logical (lstart l) d x.
Proof.
  intros Hr Hpl Hho. pose proof (header_ok_installable _ _ _ Hho) as Hil.
  destruct (recover_run k l d n t Hr Hpl Hho) as (k' & l' & ev & H0 & Hrun & Hl' & HH0 & Hw & Hr').
  assert (HHe : header H0 = []) by (unfold header; by rewrite HH0).
  assert (Hs : 0 < lsize l) by (pose proof (ho_n _ _ _ Hho); lia).
  exists k', l', ev. rewrite Hw in *. split_and!; try done.
  - intros x Hx. rewrite apply_app. cbn. unfold upd. simpl.
    destruct (Z.eqb_spec x (lstart l)) as [->|]; [exfalso; apply Hx; lia|]. by apply (install_all _ (lsize l)).
  - rewrite apply_app. cbn. unfold upd. simpl. by rewrite Z.eqb_refl.
  - intros P HP. split.
    + apply header_after; [|done]. intros v Hin.
      assert (Hv : (lstart l, v) ∈ install_writes (lstart l) (header (d (lstart l))) d ++ [(lstart l, H0)])
        by (destruct HP as [Q ->]; set_solver).
      apply elem_of_app in Hv as [Hv|Hv%list_elem_of_singleton]; [by eapply install_not_start in Hv|].
      injection Hv as ->. by apply header_clear_ok.
    + intros x Hx. by eapply recovery_prefix.
Qed.

(** C11: Recovery is restartable: at whatever point recover_from_log() is cut
    off by a crash, the disk still has a usable header and the same contents
    after recovery; when it completes it has installed them and cleared the
    log. *)
Theorem recovery_restartable k l d n t :
  c_rel k (acache0 d n) -> placed l (acache0 d n) -> header_ok l n (d (lstart l)) ->
  exists k' l' ev, recover_from_log (Ctx [] t) (mklstate l k) = Ok tt (Ctx [] (t ++ ev)) (mklstate l' k') /\
    lh_n l' = 0 /\ c_rel k' (acache0 (apply_writes d (disk_writes ev)) n) /\
    (forall x, home (lstart l) (lsize l) x -> apply_writes d (disk_writes ev) x = logical (lstart l) d x) /\
    header_n (apply_writes d (disk_writes ev) (lstart l)) = 0 /\
    forall P, P `prefix_of` disk_writes ev ->
      header_ok l n (apply_writes d P (lstart l)) /\
      forall x, home (lstart l) (lsize l) x -> logical (lstart l) (apply_writes d P) x = logical (lstart l) d x.
Proof. exact (recover_logical k l d n t). Qed.

(** The crash points of commit(): a usable header, and the old or the new
    contents. *)
Lemma commit_crash k a l P :
  c_rel k a -> commit_ready l a -> P `prefix_of` ready_writes l a ->
  let d := apply_writes (adisk a) P in
  header_ok l (asize a) (d (lstart l)) /\
  ((forall x, home (lstart l) (lsize l) x -> logical (lstart l) d x = adisk a x) \/
   (forall x, home (lstart l) (lsize l) x -> logical (lstart l) d x = aview a x)) /\
  (P = ready_writes l a -> header_n (d (lstart l)) = 0 /\
    forall x, home (lstart l) (lsize l) x -> logical (lstart l) d x = aview a x).
Proof.
  intros Hr Hrd HP d. pose proof (ready_tx l a Hrd) as Htx. pose proof (ready_installable l a Hrd) as Hil.
  pose proof (tx_bounds l a Htx) as Hbnd. pose proof (tx_placed _ _ Htx) as [Hdev Hst Hsz Has Hbl Hn].
  unfold ready_writes in *.
  set (p := fun b => default [] (pins a !! b)) in *.
  set (H1 := put_header l _) in *. set (H0 := put_header (l <| lh_n := 0 |>) _) in *.
  assert (Hlen : forall x, 0 <= x < asize a -> length (adisk a x) = 512%nat)
    by (intros x Hx; by eapply (c_adisk_length k)).
  assert (Hd1 : apply_writes (adisk a) (log_writes (lstart l) (logged l) p) (lstart l) = adisk a (lstart l)).
  { apply apply_other. intros [y v] Hin; simpl; intros ->. by apply log_not_start in Hin. }
  destruct (header_put l (adisk a (lstart l))) as (HH1n & HH1 & HH1l); [apply Hlen; lia|lia|lia|done|].
  assert (HeH1 : H1 = put_header l (adisk a (lstart l))) by (unfold H1; by rewrite Hd1).
  rewrite <- HeH1 in HH1n, HH1, HH1l.
  assert (HH0 : header_n H0 = 0 /\ header H0 = []).
  { apply header_clear. rewrite apply_other; [unfold committed, upd; simpl; by rewrite Z.eqb_refl|].
    intros [y v] Hin; simpl; intros ->. by apply (install_not_start _ (lsize l)) in Hin. }
  destruct HH0 as [HH0n HH0].
  assert (Hc : header (adisk a (lstart l)) = []) by (unfold header; by rewrite (rd_clear _ _ Hrd)).
  assert (Hview : forall x, (if decide (x ∈ logged l) then p x else adisk a x) = aview a x).
  { intros x. unfold aview, p. case_decide as Hx; assert (Hdx := rd_pins _ _ Hrd).
    - assert (is_Some (pins a !! x)) as [v ->]; [|done]. apply elem_of_dom. by rewrite Hdx, elem_of_list_to_set.
    - assert (pins a !! x = None) as ->; [|done]. apply not_elem_of_dom. by rewrite Hdx, elem_of_list_to_set. }
  split_and!.
  - apply header_after; [|apply header_clear_ok; [lia|apply Hrd]]. intros v Hin.
    assert (Hv : (lstart l, v) ∈ commit_writes (lstart l) (logged l) p (adisk a) H1 H0)
      by (destruct HP as [Q ->]; set_solver).
    apply elem_of_app in Hv as [Hv|Hv]; [by apply log_not_start in Hv|].
    apply elem_of_cons in Hv as [[= ->]|Hv].
    + split; rewrite ?HH1, ?HH1n; [lia|apply Htx|apply Htx].
    + apply elem_of_app in Hv as [Hv|Hv%list_elem_of_singleton]; [by apply (install_not_start _ (lsize l)) in Hv|].
      injection Hv as ->. apply header_clear_ok; [lia|done].
  - destruct (commit_prefix (lstart l) (lsize l) (logged l) p (adisk a) H1 H0 P) as [Ho|Hnw]; try done; [by left|right].
    intros x Hx. by rewrite Hnw, Hview.
  - intros ->. assert (Hst0 : d (lstart l) = H0).
    { unfold d, commit_writes. rewrite !apply_app. cbn [apply_writes foldl]. unfold upd at 1. simpl. by rewrite Z.eqb_refl. }
    rewrite Hst0. split; [done|]. intros x Hx. unfold logical. rewrite Hst0, HH0. cbn [replay]. unfold d.
    by rewrite <- Hview, <- (commit_done (lstart l) (lsize l) (logged l) p (adisk a) H1 H0 x).
Qed.

(** C3: Transactions are atomic.  commit() of a complete transaction runs to
    the end; if the machine crashes after any number of its disk writes, the
    recovery at the next boot leaves on the disk, outside the log, either all
    of the old contents or all of the new ones, and the new ones if commit()
    had finished. *)
Theorem commit_atomic k a l t :
  c_rel k a -> commit_ready l a -> 0 < lh_n l ->
  exists k' ev, commit (Ctx [] t) (mklstate l k) =
      Ok tt (Ctx [] (t ++ ev)) (mklstate (l <| lh_n := 0 |>) k') /\
    c_rel k' (a <| adisk := apply_writes (adisk a) (disk_writes ev) |> <| pins := ∅ |>) /\
    forall P l2 k2 t2, P `prefix_of` disk_writes ev ->
      booted l (asize a) (apply_writes (adisk a) P) l2 k2 ->
      exists k3 l3 t3 d3, recover_from_log (Ctx [] t2) (mklstate l2 k2) = Ok tt (Ctx [] t3) (mklstate l3 k3) /\
        c_rel k3 (acache0 d3 (asize a)) /\ header_n (d3 (lstart l)) = 0 /\
        ((forall x, home (lstart l) (lsize l) x -> d3 x = adisk a x) \/
         (forall x, home (lstart l) (lsize l) x -> d3 x = aview a x)) /\
        (P = disk_writes ev -> forall x, home (lstart l) (lsize l) x -> d3 x = aview a x).
Proof.
  intros Hr Hrd Hpos. destruct (commit_run k a l t Hr Hrd Hpos) as (k' & ev & Hrun & Hw & Hr').
  exists k', ev. rewrite <- Hw in Hr'. split_and!; [done..|]. rewrite Hw. intros P l2 k2 t2 HP (Hr2 & Hpl2 & Hst & Hsz).
  destruct (commit_crash k a l P Hr Hrd HP) as (Hho & Hlog & Hall).
  destruct (recover_logical k2 l2 _ _ t2 Hr2 Hpl2) as (k3 & l3 & ev3 & Hrun3 & _ & Hr3 & Hd3 & Hc3 & _).
  { rewrite Hst. destruct Hho as [? ? Hh]. split; rewrite ?Hsz; try done. by rewrite Hst. }
  rewrite Hst, Hsz in *.
  exists k3, l3, (t2 ++ ev3), (apply_writes (apply_writes (adisk a) P) (disk_writes ev3)).
  split_and!; try done.
  - destruct Hlog as [Ho|Hn]; [left|right]; intros x Hx; rewrite Hd3 by done; auto.
  - intros HPe x Hx. rewrite Hd3 by done. by apply (proj2 (Hall HPe)).
Qed.

(** ** Recording a block *)

Lemma absorb_spec bs n x i :
  (n <= length bs)%nat ->
  let j := absorb bs n x i in
  i <= j <= i + Z.of_nat n /\
  (j < i + Z.of_nat n -> u32 (default 0 (bs !! Z.to_nat (j - i))) = x) /\
  (forall q, 0 <= q < j - i -> u32 (default 0 (bs !! Z.to_nat q)) <> x).
Proof.
  revert bs i. induction n as [|n IH]; intros bs i Hn; [by destruct bs; cbn; split_and!; intros; lia|].
  destruct bs as [|b bs]; [simpl in Hn; lia|]. cbn [absorb]. destruct (Z.eqb_spec (u32 b) x) as [Hb|Hb].
  { rewrite Z.sub_diag. split_and!; [lia..|done|lia]. }
  destruct (IH bs (i + 1)) as (H1 & H2 & H3); [simpl in Hn; lia|].
  set (j := absorb bs n x (i + 1)) in *. split_and!; [lia..| |].
  - intros Hj. replace (Z.to_nat (j - i)) with (S (Z.to_nat (j - (i + 1)))) by lia. apply H2. lia.
  - intros q Hq. destruct (decide (q = 0)) as [->|]; [done|].
    replace (Z.to_nat q) with (S (Z.to_nat (q - 1))) by lia. apply H3. lia.
Qed.

Lemma absorb_logged l x :
  0 <= lh_n l <= Z.of_nat (length (lh_block l)) -> Forall (fun b => 0 <= b < 2 ^ 31) (logged l) ->
  let j := absorb (lh_block l) (Z.to_nat (lh_n l)) x 0 in
  0 <= j <= lh_n l /\ (x ∈ logged l <-> j < lh_n l) /\
  (j < lh_n l -> lh_block l !! Z.to_nat j = Some x).
Proof.
  intros Hn Hb. destruct (absorb_spec (lh_block l) (Z.to_nat (lh_n l)) x 0) as (Hj1 & Hj2 & Hj3); [lia|].
  set (j := absorb _ _ _ _) in *. rewrite Z.sub_0_r in Hj2, Hj3. rewrite Z2Nat.id in Hj1, Hj2 by lia.
  rewrite Forall_forall in Hb.
  assert (Hfound : j < lh_n l -> logged l !! Z.to_nat j = Some x /\ lh_block l !! Z.to_nat j = Some x).
  { intros Hj. specialize (Hj2 ltac:(lia)).
    destruct (lookup_lt_is_Some_2 (lh_block l) (Z.to_nat j)) as [c Hc]; [lia|].
    assert (Hcl : logged l !! Z.to_nat j = Some c) by (unfold logged; by rewrite lookup_take_lt by lia).
    specialize (Hb c ltac:(by eapply list_elem_of_lookup_2)). rewrite Hc in Hj2. simpl in Hj2.
    rewrite u32_small in Hj2 by lia. by subst c. }
  split_and!; [lia..|split|by apply Hfound].
  - intros Hin. apply list_elem_of_lookup in Hin as [q Hq]. destruct (Z.lt_ge_cases j (lh_n l)); [done|].
    pose proof (lookup_lt_Some _ _ _ Hq) as Hql. assert (Hx := Hb x ltac:(by eapply list_elem_of_lookup_2)).
    unfold logged in Hq, Hql. rewrite length_take in Hql. rewrite lookup_take_lt in Hq by lia.
    destruct (Hj3 (Z.of_nat q)); [lia|]. rewrite Nat2Z.id, Hq. simpl. apply u32_small. lia.
  - intros Hj. destruct (Hfound Hj). by eapply list_elem_of_lookup_2.
Qed.

(** log_write() of a held buffer. *)
Lemma log_write_run k a l i h t :
  c_rel k a -> aheld a !! i = Some h -> 0 <= lh_n l -> length (lh_block l) = 30%nat ->
  Forall (fun b => 0 <= b < 2 ^ 31) (logged l) -> asize a < 2 ^ 31 ->
  if (LOGSIZE <=? lh_n l) || (lsize l - 1 <=? lh_n l)
  then log_write i (Ctx [] t) (mklstate l k) = Panic "too big a transaction"
  else if outstanding l <? 1
  then log_write i (Ctx [] t) (mklstate l k) = Panic "log_write outside of trans"
  else exists k' l', log_write i (Ctx [] t) (mklstate l k) = Ok tt (Ctx [] t) (mklstate l' k') /\
    c_rel k' (a_pin a i h) /\ length (lh_block l') = 30%nat /\
    logged l' = (if decide (hblock h ∈ logged l) then logged l else logged l ++ [hblock h]) /\
    l' = l <| lh_n := lh_n l' |> <| lh_block := lh_block l' |> /\ 0 <= lh_n l'.
Proof.
  intros Hr Hh Hn Hbl Hb Has. unfold log_write. rewrite bindE, getl_run. cbn [obind].
  destruct ((LOGSIZE <=? lh_n l) || (lsize l - 1 <=? lh_n l)) eqn:Hfull; [done|].
  destruct (outstanding l <? 1); [done|]. unfold LOGSIZE in Hfull.
  assert (Hn29 : lh_n l < 30) by lia.
  destruct (c_buf_ok k a i h (Ctx [Llog] t) Hr Hh) as (b & Hbuf & _ & Hbx & _ & Hbr).
  destruct (c_setdirty_ok k a i h (Ctx [Llog] t) Hr Hh) as (k' & Hdirty & Hr').
  rewrite bindE, acquire_ok by set_solver. cbn [obind]. rewrite bindE. erewrite onc_run by exact Hbuf.
  cbn [obind]. rewrite bindE, getl_run. cbn [obind]. rewrite Hbx.
  destruct (absorb_logged l (hblock h)) as (Hj1 & Hin & Hj2); [lia|done|]. set (j := absorb _ _ _ _) in *.
  unfold wr. rewrite aset_in by lia. rewrite bindE, of_optionE. cbn [obind]. rewrite s32_small by lia.
  set (l1 := l <| lh_block := <[Z.to_nat j := hblock h]> (lh_block l) |>).
  set (l2 := if j =? lh_n l then l1 <| lh_n ::= fun n => s32 (n + 1) |> else l1).
  exists k', l2. split_and!; [|done|..].
  - assert (Hset : forall l3, (onc (c_setdirty i) ;; release Llog) (Ctx [Llog] t) (mklstate l3 k) =
      Ok tt (Ctx [] t) (mklstate l3 k')).
    { intros l3. rewrite bindE. erewrite onc_run by exact Hdirty. cbn [obind]. by rewrite release_ok by set_solver. }
    unfold modl. rewrite bindE, modSE. cbn [obind]. rewrite bindE. unfold l2.
    destruct (j =? lh_n l); [rewrite modSE|rewrite retE]; cbn [obind]; apply Hset.
  - unfold l2, l1. by destruct (j =? lh_n l); simpl; rewrite length_insert.
  - case_decide as Hd.
    + apply Hin in Hd. unfold l2. destruct (Z.eqb_spec j (lh_n l)); [lia|]. unfold logged, l1. simpl.
      by rewrite list_insert_id by (apply Hj2; lia).
    + assert (Hj : j = lh_n l) by (destruct (Z.lt_ge_cases j (lh_n l)); [by destruct Hd; apply Hin|lia]).
      unfold l2. rewrite Hj, Z.eqb_refl. unfold logged, l1. simpl. rewrite s32_small by lia.
      replace (Z.to_nat (lh_n l + 1)) with (S (Z.to_nat (lh_n l))) by lia. rewrite Hj.
      rewrite (take_S_r _ _ (hblock h)) by (apply list_lookup_insert_eq; lia). by rewrite take_insert_ge by lia.
  - unfold l2, l1. clearbody j. destruct (j =? lh_n l); clear; by destruct l.
  - unfold l2, l1. destruct (j =? lh_n l); simpl; rewrite ?s32_small by lia; lia.
Qed.

(** log_write() of a held buffer records its block once: a block already in
    the transaction is absorbed, a new one is appended; the buffer is pinned
    with its contents.  It panics exactly outside of a transaction or when the
    log is full. *)
Theorem log_write_spec k a l i h t :
  c_rel k a -> aheld a !! i = Some h -> 0 <= lh_n l -> length (lh_block l) = 30%nat ->
  Forall (fun b => 0 <= b < 2 ^ 31) (logged l) -> asize a < 2 ^ 31 ->
  if (LOGSIZE <=? lh_n l) || (lsize l - 1 <=? lh_n l)
  then log_write i (Ctx [] t) (mklstate l k) = Panic "too big a transaction"
  else if outstanding l <? 1
  then log_write i (Ctx [] t) (mklstate l k) = Panic "log_write outside of trans"
  else exists k' l', log_write i (Ctx [] t) (mklstate l k) = Ok tt (Ctx [] t) (mklstate l' k') /\
    c_rel k' (a_pin a i h) /\ length (lh_block l') = 30%nat /\
    logged l' = (if decide (hblock h ∈ logged l) then logged l else logged l ++ [hblock h]) /\
    l' = l <| lh_n := lh_n l' |> <| lh_block := lh_block l' |> /\ 0 <= lh_n l'.
Proof. exact (log_write_run k a l i h t). Qed.
End Commit.
