(* ===== verification/LogWitness.v ===== *)
(** * The log on a small disk: admission, its limit, and examples (src/log.c) *)

From stdpp Require Import prelude gmap strings list.
From Stdlib Require Import ZArith Lia.
From S2P Require Import Prelude Sleeplock Bio BioSpec Layout Log LogSpec LogAtomic.

(** ** begin_op *)

Section Begin.
Context {C : Type}.

(** The log is not committing and has room for one more operation. *)
Definition admits (l : log) : bool :=
  (committing l =? 0) && (s32 (lh_n l + s32 (s32 (outstanding l + 1) * MAXOPBLOCKS)) <=? LOGSIZE).

Fixpoint first_admit (env : list (lstate C -> lstate C)) (s : lstate C) : option (lstate C) :=
  if admits (thelog s) then Some s
  else match env with [] => None | f :: env' => first_admit env' (f s) end.

Fixpoint asleep_state (env : list (lstate C -> lstate C)) (s : lstate C) : lstate C :=
  match env with [] => s | f :: env' => asleep_state env' (f s) end.

Lemma begin_loop_run env t s :
  begin_loop env (Ctx [Llog] t) s =
  match first_admit env s with
  | Some s' => Ok tt (Ctx [] t) (s' <| thelog ::= fun l => l <| outstanding ::= fun o => s32 (o + 1) |> |>)
  | None => Blocked Clog Llog (Ctx [Llog] t) (asleep_state env s)
  end.
Proof.
  revert s. induction env as [|f env IH]; intros s; cbn [begin_loop first_admit asleep_state];
    unfold getl; mrun; unfold admits; rewrite Z.leb_antisym; destruct (committing (thelog s) =? 0);
    cbn [negb orb andb]; try destruct (LOGSIZE <? _); cbn [negb];
    try (rewrite bindE, sleep_blocks; done); try (rewrite bindE, sleep_alone; apply IH);
    unfold modl; mrun; done.
Qed.

(** begin_op() returns exactly when it finds the log neither committing nor
    too full: then every admitted operation, this one included, can still log
    MAXOPBLOCKS blocks within LOGSIZE; else it sleeps on the log. *)
Theorem begin_op_spec env t s :
  begin_op env (Ctx [] t) s =
    match first_admit env s with
    | Some s' => Ok tt (Ctx [] t) (s' <| thelog ::= fun l => l <| outstanding ::= fun o => s32 (o + 1) |> |>)
    | None => Blocked Clog Llog (Ctx [Llog] t) (asleep_state env s)
    end /\
  forall s', first_admit env s = Some s' -> 0 <= outstanding (thelog s') < 1000 -> 0 <= lh_n (thelog s') <= LOGSIZE ->
    committing (thelog s') = 0 /\
    lh_n (thelog s') + (outstanding (thelog s') + 1) * MAXOPBLOCKS <= LOGSIZE.
Proof.
  split.
  - unfold begin_op. rewrite bindE, acquire_ok by set_solver. apply begin_loop_run.
  - revert s. induction env as [|f env IH]; intros s s'; cbn [first_admit]; destruct (admits (thelog s)) eqn:Ha;
      try done; try apply IH; intros [= <-] Ho Hn; unfold admits, LOGSIZE, MAXOPBLOCKS in *;
      apply andb_prop in Ha as [Hc Hl]; rewrite (s32_small (outstanding _ + 1)) in Hl by lia;
      rewrite (s32_small (_ * 10)), s32_small in Hl by lia; lia.
Qed.
End Begin.

(** ** A small disk *)

(** Blocks of zeroes; the header of the log is clear. *)
Definition demo_blocks : memdisk := replicate 80 (replicate 512 0).

Definition demo_pid : Z := 7.

#[local] Instance demo_cache : BlockCache (bcache memdisk) := bio_cache demo_pid ltac:(done).

Definition boot_cache : bcache memdisk :=
  mkbcache (replicate NBUF zero_buf) (reverse (seq 0 NBUF)) demo_blocks.

Definition demo_acache : acache := acache0 (dblock demo_blocks) (dsize demo_blocks).

Lemma boot_rel : c_rel boot_cache demo_acache.
Proof.
  apply (binit_rel demo_pid). apply Forall_replicate. by vm_compute.
Qed.

(** The log as mkfs lays it out: LOGSIZE blocks from block 2 on. *)
Definition demo_log (n : Z) : log := mklog 2 30 n 0 1 0 (replicate 30 0).

(** One operation's write of block [b]. *)
Definition write_block (b : Z) : M (lstate (bcache memdisk)) unit :=
  i ← onc (c_bread 1 b); log_write i ;; onc (c_brelse i).

Definition returns {S A} (o : out S A) : bool := match o with Ok _ _ _ => true | _ => false end.


(** Block 40 has been written by an operation and waits for the commit. *)
Definition pinned_acache : acache := demo_acache <| pins := {[40 := replicate 512 9]} |>.

Lemma cache_room (a : acache) x : pins a = ∅ -> aheld a = ∅ -> room a x.
Proof. intros Hp Hh. right. rewrite Hp, Hh, !map_size_empty. unfold NBUF. lia. Qed.

Lemma pinned_cache : exists k : bcache memdisk, c_rel k pinned_acache.
Proof.
  destruct (c_bread_ok boot_cache demo_acache 40 [] boot_rel) as (i & k1 & ev1 & _ & _ & _ & Hr1);
    [by vm_compute|by intros j h Hj|by apply cache_room|].
  set (h := Held 40 (replicate 512 0) false).
  assert (Ha : a_bread demo_acache i 40 = demo_acache <| aheld := {[i := h]} |>).
  { apply acache_eq; try done. }
  rewrite Ha in Hr1.
  destruct (c_setdata_ok k1 _ i h (replicate 512 9) (Ctx [] []) Hr1) as (k2 & _ & Hr2);
    [apply lookup_insert_eq|by vm_compute|].
  destruct (c_setdirty_ok k2 _ i (Held 40 (replicate 512 9) false) (Ctx [] []) Hr2) as (k3 & _ & Hr3); [apply lookup_insert_eq|].
  destruct (c_brelse_ok k3 _ i (Held 40 (replicate 512 9) true) [] Hr3) as (k4 & ev4 & _ & _ & Hr4); [apply lookup_insert_eq|by left|].
  exists k4. erewrite acache_eq; [exact Hr4|done|done|done|]. simpl. apply map_eq. intros q.
  destruct (decide (q = i)) as [->|]; by simplify_map_eq.
Qed.

(** The log with block 40 in the transaction. *)
Definition one_log : log := mklog 2 30 0 1 1 1 (40 :: replicate 29 0).

Lemma one_ready : commit_ready one_log pinned_acache.
Proof.
  split; try done.
  - apply NoDup_singleton.
  - intros b Hb. apply list_elem_of_singleton in Hb as ->. split; [by vm_compute|unfold home; simpl; lia].
Qed.

Lemma commit_atomic_witness :
  exists (k k' : bcache memdisk) ev, commit (Ctx [] []) (mklstate one_log k) =
      Ok tt (Ctx [] ev) (mklstate (one_log <| lh_n := 0 |>) k') /\
    forall P k2 t2, P `prefix_of` disk_writes ev ->
      booted one_log 80 (apply_writes (adisk pinned_acache) P) (demo_log 0) k2 ->
      exists k3 l3 t3 d3, recover_from_log (Ctx [] t2) (mklstate (demo_log 0) k2) = Ok tt (Ctx [] t3) (mklstate l3 k3) /\
        c_rel k3 (acache0 d3 80) /\
        (d3 40 = replicate 512 0 \/ d3 40 = replicate 512 9).
Proof.
  destruct pinned_cache as [k Hk].
  destruct (commit_atomic k pinned_acache one_log [] Hk one_ready ltac:(done)) as (k' & ev & Hrun & _ & Hcrash).
  exists k, k', ev. split; [exact Hrun|]. intros P k2 t2 HP Hb.
  destruct (Hcrash P (demo_log 0) k2 t2 HP Hb) as (k3 & l3 & t3 & d3 & Hrec & Hr3 & _ & Hd & _).
  exists k3, l3, t3, d3. split_and!; [done|done|].
  assert (Hh : home (lstart one_log) (lsize one_log) 40) by (unfold home; simpl; lia).
  destruct Hd as [Hd|Hd]; rewrite (Hd 40 Hh); [left|right]; reflexivity.
Defined.

Lemma recovery_restartable_witness :
  exists k' l' ev, recover_from_log (Ctx [] []) (mklstate (demo_log 0) boot_cache) = Ok tt (Ctx [] ev) (mklstate l' k') /\
    lh_n l' = 0.
Proof.
  destruct (recovery_restartable boot_cache (demo_log 0) (dblock demo_blocks) 80 [])
    as (k' & l' & ev & Hrun & Hl & _).
  - exact boot_rel.
  - by split.
  - by apply header_clear_ok.
  - exists k', l', ev. split; [exact Hrun|exact Hl].
Defined.

Lemma log_write_spec_witness :
  exists (k k' : bcache memdisk) i l', log_write i (Ctx [] []) (mklstate (demo_log 1) k) = Ok tt (Ctx [] []) (mklstate l' k') /\
    logged l' = [40].
Proof.
  destruct (c_bread_ok boot_cache demo_acache 40 [] boot_rel) as (i & k & ev & _ & _ & _ & Hr);
    [by vm_compute|by intros j h Hj|by apply cache_room|].
  set (h := Held 40 (aview demo_acache 40) (bool_decide (is_Some (pins demo_acache !! 40)))).
  destruct (log_write_spec k (a_bread demo_acache i 40) (demo_log 1) i h [] Hr) as (k' & l' & Hrun & _ & _ & Hl & _).
  - apply lookup_insert_eq.
  - done.
  - done.
  - by constructor.
  - by vm_compute.
  - exists k, k', i, l'. split; [exact Hrun|]. rewrite Hl. by rewrite decide_False by set_solver.
Defined.
