(* ===== verification/Store.v ===== *)
(** * The block store the file system works on

    The file system uses blocks only through bread(), brelse(), log_write() and
    the buffers' data, inside begin_op()/end_op().  [BlockStore] is that
    interface and [atx] what it promises: the contents of every block as the
    running operations see them, the contents a crash would leave, and the
    blocks of the current transaction.  The log over a buffer cache implements
    it. *)

From stdpp Require Import prelude gmap strings list.
From Stdlib Require Import ZArith Lia.
From S2P Require Import Prelude Sleeplock Bio BioSpec Layout Log LogSpec LogAtomic.

Class BlockStore (B : Type) := {
  t_readsb : Z -> M B superblock;
  t_bread : Z -> Z -> M B nat;
  t_brelse : nat -> M B unit;
  t_data : nat -> M B (list Z);
  t_setdata : nat -> list Z -> M B unit;
  t_log_write : nat -> M B unit;
  t_begin_op : M B unit;
  t_end_op : M B unit;
}.

#[export] Instance log_store C `{BlockCache C} : BlockStore (lstate C) := {|
  t_readsb := readsb;
  t_bread := fun d x => onc (c_bread d x);
  t_brelse := fun i => onc (c_brelse i);
  t_data := fun i => b ← onc (c_buf i); mret (data b);
  t_setdata := fun i d => onc (c_setdata i d);
  t_log_write := log_write;
  t_begin_op := begin_op [];
  t_end_op := end_op;
|}.

(** ** What the store promises *)

Record atx := mkatx {
  tview : Z -> list Z;                (* what a reader sees *)
  tdur : Z -> list Z;                 (* what is on the disk *)
  tlog : gset Z;                      (* the blocks of the transaction *)
  theld : gmap nat (Z * list Z);      (* the buffers in use, with their contents *)
  tops : Z;                           (* operations in progress *)
  tsize : Z;
  tstart : Z;                         (* the log's own blocks *)
  tlen : Z;
}.

#[export] Instance atx_settable : Settable atx := fun a =>
  mkatx (tview a) (tdur a) (tlog a) (theld a) (tops a) (tsize a) (tstart a) (tlen a).

(** A block of the disk outside the log. *)
Definition usable (a : atx) (x : Z) : Prop :=
  0 <= x < tsize a /\ ~ (tstart a <= x < tstart a + tlen a).

Definition t_unheld (a : atx) (x : Z) : Prop :=
  forall i y, theld a !! i = Some y -> y.1 <> x.

(** The transaction can take one more block. *)
Definition log_room (a : atx) : Prop :=
  (size (tlog a) < 29)%nat /\ Z.of_nat (size (tlog a)) < tlen a - 1.

Definition tset (v : Z -> list Z) (x : Z) (d : list Z) : Z -> list Z :=
  fun y => if y =? x then d else v y.

(** A machine that boots with the disk [d] recovers the contents [v]. *)
Definition recovers (a : atx) (d v : Z -> list Z) : Prop :=
  header_ok (mklog (tstart a) (tlen a) 0 0 ROOTDEV 0 []) (tsize a) (d (tstart a)) /\
  forall x, usable a x -> logical (tstart a) d x = v x.

Class BlockStoreOk (B : Type) `{BlockStore B} := {
  t_rel : B -> atx -> Prop;
  t_view_length : forall s a x, t_rel s a -> usable a x -> length (tview a x) = 512%nat;
  t_size_ok : forall s a, t_rel s a -> tsize a < 2 ^ 31;
  t_view_ext : forall s a v, t_rel s a -> (forall x, usable a x -> v x = tview a x) ->
    t_rel s (a <| tview := v |>);
  t_bread_ok : forall s a x t,
    t_rel s a -> usable a x -> t_unheld a x -> (size (tlog a) + size (theld a) < NBUF)%nat ->
    exists i s' ev, t_bread ROOTDEV x (Ctx [] t) s = Ok i (Ctx [] (t ++ ev)) s' /\ disk_writes ev = [] /\
      theld a !! i = None /\ t_rel s' (a <| theld ::= <[i := (x, tview a x)]> |>);
  t_data_ok : forall s a i x d c,
    t_rel s a -> theld a !! i = Some (x, d) -> t_data i c s = Ok d c s /\ length d = 512%nat /\ usable a x;
  t_setdata_ok : forall s a i x d d' c,
    t_rel s a -> theld a !! i = Some (x, d) -> length d' = 512%nat ->
    exists s', t_setdata i d' c s = Ok tt c s' /\ t_rel s' (a <| theld ::= <[i := (x, d')]> |>);
  t_log_write_ok : forall s a i x d t,
    t_rel s a -> theld a !! i = Some (x, d) -> log_room a -> 1 <= tops a ->
    exists s', t_log_write i (Ctx [] t) s = Ok tt (Ctx [] t) s' /\
      t_rel s' (a <| tlog ::= fun l => l ∪ {[x]} |>);
  t_brelse_ok : forall s a i x d t,
    t_rel s a -> theld a !! i = Some (x, d) -> x ∈ tlog a \/ d = tview a x ->
    exists s' ev, t_brelse i (Ctx [] t) s = Ok tt (Ctx [] (t ++ ev)) s' /\ disk_writes ev = [] /\
      t_rel s' (a <| theld ::= delete i |> <| tview ::= fun v => tset v x d |>);
  t_begin_ok : forall s a t,
    t_rel s a -> 0 <= tops a -> Z.of_nat (size (tlog a)) + (tops a + 1) * MAXOPBLOCKS <= LOGSIZE ->
    exists s', t_begin_op (Ctx [] t) s = Ok tt (Ctx [] t) s' /\ t_rel s' (a <| tops ::= Z.succ |>);
  t_crash_ok : forall s a, t_rel s a -> recovers a (tdur a) (tdur a);
  t_end_ok : forall s a t,
    t_rel s a -> 1 <= tops a < 1000 -> theld a = ∅ ->
    exists s' ev, t_end_op (Ctx [] t) s = Ok tt (Ctx [] (t ++ ev)) s' /\
      t_rel s' (a <| tops ::= Z.pred |> <| tdur := apply_writes (tdur a) (disk_writes ev) |>
                  <| tlog ::= fun l => if tops a =? 1 then ∅ else l |>) /\
      (if tops a =? 1
       then forall x, usable a x -> apply_writes (tdur a) (disk_writes ev) x = tview a x
       else disk_writes ev = []) /\
      forall P, P `prefix_of` disk_writes ev ->
        recovers a (apply_writes (tdur a) P) (tdur a) \/ recovers a (apply_writes (tdur a) P) (tview a);
}.
