(* ===== verification/StoreLog.v ===== *)
(** * The log implements the block store (src/log.c)

    [lrel] relates the log and the abstract cache below it to [atx]; every
    operation of the store does what [BlockStoreOk] says, and the end of a
    transaction is atomic. *)

From stdpp Require Import prelude gmap strings list.
From Stdlib Require Import ZArith Lia.
From S2P Require Import Prelude Sleeplock Bio BioSpec Layout Log LogSpec LogAtomic LogWitness Store.

Section LogStore.
Context {C : Type} `{BlockCache C}.

Record lrel (l : log) (k : acache) (a : atx) : Prop := {
  lr_placed : placed l k;
  lr_start : lstart l = tstart a;
  lr_lsize : lsize l = tlen a;
  lr_size : asize k = tsize a;
  lr_ops : outstanding l = tops a;
  lr_idle : committing l = 0;
  lr_nodup : NoDup (logged l);
  lr_log : tlog a = list_to_set (logged l);
  lr_home : forall b, b ∈ logged l -> usable a b;
  lr_clear : header_n (adisk k (lstart l)) = 0;
  lr_held : theld a = (fun h => (hblock h, hdata h)) <$> aheld k;
  lr_dirty : forall i h, aheld k !! i = Some h -> (hdirty h = true <-> hblock h ∈ logged l) /\ usable a (hblock h);
  lr_uniq : forall i j h h', aheld k !! i = Some h -> aheld k !! j = Some h' -> hblock h = hblock h' -> i = j;
  lr_pins : forall x, is_Some (pins k !! x) <-> x ∈ logged l /\ unheld k x;
  lr_view : forall x, usable a x -> unheld k x -> tview a x = aview k x;
  lr_clean : forall i h, aheld k !! i = Some h -> hblock h ∉ logged l -> tview a (hblock h) = adisk k (hblock h);
  lr_vlen : forall x, usable a x -> length (tview a x) = 512%nat;
  lr_dur : tdur a = adisk k;
}.

Definition log_rel (s : lstate C) (a : atx) : Prop :=
  exists k, c_rel (cache s) k /\ lrel (thelog s) k a.

Lemma lrel_lookup l k a i x d :
  lrel l k a -> theld a !! i = Some (x, d) ->
  exists h, aheld k !! i = Some h /\ hblock h = x /\ hdata h = d.
Proof.
  intros Hl Hi. rewrite (lr_held _ _ _ Hl), lookup_fmap in Hi.
  destruct (aheld k !! i) as [h|]; [|done]. simplify_eq/=. by exists h.
Qed.

Lemma lrel_unheld l k a x : lrel l k a -> t_unheld a x -> unheld k x.
Proof.
  intros Hl Hu i h Hi. apply (Hu i (hblock h, hdata h)).
  by rewrite (lr_held _ _ _ Hl), lookup_fmap, Hi.
Qed.

(** The pinned blocks and the buffers in use fit the bound on the cache. *)
Lemma lrel_room l k a x :
  lrel l k a -> (size (tlog a) + size (theld a) < NBUF)%nat -> room k x.
Proof.
  intros Hl Hs. right. rewrite (lr_held _ _ _ Hl), map_size_fmap in Hs.
  enough (size (pins k) <= size (tlog a))%nat by lia. rewrite <- size_dom.
  apply subseteq_size. intros y Hy%elem_of_dom. rewrite (lr_log _ _ _ Hl), elem_of_list_to_set.
  by apply (lr_pins _ _ _ Hl) in Hy as [? _].
Qed.

Lemma unheld_insert k i x d b y :
  (forall j h, <[i := Held x d b]> (aheld k) !! j = Some h -> hblock h <> y) -> aheld k !! i = None ->
  x <> y /\ unheld k y.
Proof.
  intros Hu Hi. split; [apply (Hu i (Held x d b)), lookup_insert_eq|].
  intros j h Hj. apply (Hu j h). rewrite lookup_insert_ne; [done|congruence].
Qed.

Lemma bread_store s a x t :
  log_rel s a -> usable a x -> t_unheld a x -> (size (tlog a) + size (theld a) < NBUF)%nat ->
  exists i s' ev, t_bread ROOTDEV x (Ctx [] t) s = Ok i (Ctx [] (t ++ ev)) s' /\ disk_writes ev = [] /\
    theld a !! i = None /\ log_rel s' (a <| theld ::= <[i := (x, tview a x)]> |>).
Proof.
  destruct s as [l c]. intros (k & Hr & Hl) Hx Hu Hs. simpl in Hr, Hl.
  pose proof (lrel_unheld _ _ _ _ Hl Hu) as Hux.
  destruct (c_bread_ok c k x t Hr) as (i & c' & ev & Hrun & Hw & Hi & Hr'); [|done|by eapply lrel_room|].
  { rewrite (lr_size _ _ _ Hl). apply Hx. }
  exists i, (mklstate l c'), ev. split_and!; [by apply onc_run|done|by rewrite (lr_held _ _ _ Hl), lookup_fmap, Hi|].
  exists (a_bread k i x). split; [done|]. destruct Hl as [Hpl ? ? ? ? ? ? Hlog Hhome ? Hheld Hdirty Huniq Hpins Hview Hclean Hvlen Hdur].
  assert (Hin : is_Some (pins k !! x) <-> x ∈ logged l) by (rewrite Hpins; naive_solver).
  split; try done.
  - by destruct Hpl.
  - simpl. by rewrite fmap_insert, Hheld, (Hview x).
  - intros j h. simpl. intros [[<- <-]|[Hne Hj]]%lookup_insert_Some; [|exact (Hdirty j h Hj)].
    simpl. rewrite bool_decide_eq_true. done.
  - intros j j' h h'. simpl.
    intros [[<- <-]|[Hne Hj]]%lookup_insert_Some [[<- <-]|[Hne' Hj']]%lookup_insert_Some; simpl; intros Hb; try done.
    + by destruct (Hux j' h' Hj').
    + by destruct (Hux j h Hj).
    + by apply (Huniq j j' h h').
  - intros y. simpl. rewrite lookup_delete_is_Some, Hpins. split.
    + intros (Hne & Hy & Hun). split; [done|]. intros j h Hj. simpl in Hj. apply lookup_insert_Some in Hj as [[<- <-]|[_ Hj]]; [done|by eapply Hun].
    + intros (Hy & Hun). destruct (unheld_insert k i x _ _ y Hun Hi) as [? ?]. done.
  - intros y Hy Hun. destruct (unheld_insert k i x _ _ y Hun Hi) as [Hne Hun'].
    unfold aview. simpl. rewrite lookup_delete_ne by done. by apply Hview.
  - intros j h. simpl. intros [[<- <-]|[Hne Hj]]%lookup_insert_Some Hnl; simpl in *; [|by eapply Hclean].
    rewrite Hview by done. unfold aview. destruct (pins k !! x) eqn:Hp; [|done]. destruct Hnl. by apply Hin.
Qed.

Lemma data_store s a i x d c :
  log_rel s a -> theld a !! i = Some (x, d) -> t_data i c s = Ok d c s /\ length d = 512%nat /\ usable a x.
Proof.
  destruct s as [l k0]. intros (k & Hr & Hl) Hi. destruct (lrel_lookup _ _ _ _ _ _ Hl Hi) as (h & Hh & <- & <-).
  destruct (c_buf_ok _ _ i h c Hr Hh) as (b & Hrun & Hb & _ & Hlen & _). simpl in Hl.
  split_and!; [|done|exact (proj2 (lr_dirty _ _ _ Hl i h Hh))].
  cbn [t_data log_store]. rewrite bindE. erewrite onc_run by exact Hrun. by rewrite <- Hb.
Qed.

Lemma same_fields l l' :
  l' = l <| lh_n := lh_n l' |> <| lh_block := lh_block l' |> ->
  lstart l' = lstart l /\ lsize l' = lsize l /\ outstanding l' = outstanding l /\ committing l' = committing l.
Proof. destruct l, l'. cbn. by intros [= -> -> -> -> ->]. Qed.

(** Changing a held buffer, and what it logs. *)
Lemma lrel_modify l l' k a i h h' :
  lrel l k a -> aheld k !! i = Some h -> hblock h' = hblock h ->
  (hdirty h' = true <-> hblock h ∈ logged l') ->
  placed l' k -> NoDup (logged l') -> l' = l <| lh_n := lh_n l' |> <| lh_block := lh_block l' |> ->
  (forall y, y ∈ logged l' <-> y ∈ logged l \/ (y = hblock h /\ y ∈ logged l')) ->
  lrel l' (k <| aheld ::= <[i := h']> |>)
    (a <| theld ::= <[i := (hblock h, hdata h')]> |> <| tlog := list_to_set (logged l') |>).
Proof.
  intros [Hpl ? ? ? ? ? ? Hlog Hhome ? Hheld Hdirty Huniq Hpins Hview Hclean Hvlen Hdur] Hi Hb Hd Hpl' Hnd Hl' Hin.
  assert (Hother : forall j h0, aheld k !! j = Some h0 -> j <> i -> hblock h0 <> hblock h) by naive_solver.
  assert (Hun : forall y, unheld (k <| aheld ::= <[i := h']> |>) y <-> unheld k y).
  { intros y. unfold unheld. simpl. split; intros Hu j h0 Hj.
    - destruct (decide (j = i)) as [->|]; [|apply (Hu j); by rewrite lookup_insert_ne].
      simplify_eq. rewrite <- Hb. apply (Hu i). apply lookup_insert_eq.
    - apply lookup_insert_Some in Hj as [[<- <-]|[_ Hj]]; [rewrite Hb|]; by eapply Hu. }
  destruct (same_fields l l' Hl') as (Es & Ez & Eo & Ec).
  split; try (rewrite ?Es, ?Ez, ?Eo, ?Ec; done); try done.
  - by destruct Hpl'.
  - intros y Hy. apply Hin in Hy as [Hy|[-> _]]; [by apply Hhome|]. exact (proj2 (Hdirty i h Hi)).
  - simpl. rewrite fmap_insert, Hheld. by rewrite Hb.
  - intros j h0. simpl. intros [[<- <-]|[Hne Hj]]%lookup_insert_Some.
    + rewrite Hb. split; [done|exact (proj2 (Hdirty i h Hi))].
    + destruct (Hdirty j h0 Hj) as [Hd0 Hu0]. split; [|exact Hu0]. rewrite Hd0, (Hin (hblock h0)).
      split; [by left|]. intros [?|[He _]]; [done|]. by destruct (Hother j h0).
  - intros j j' h0 h1. simpl.
    intros [[<- <-]|[Hne Hj]]%lookup_insert_Some [[<- <-]|[Hne' Hj']]%lookup_insert_Some He; try done.
    + destruct (Hother j' h1); congruence.
    + destruct (Hother j h0); congruence.
    + by eapply Huniq.
  - intros y. rewrite Hun. simpl. rewrite Hpins, (Hin y). split; [naive_solver|].
    intros [[?|[-> _]] Hu]; [done|]. by destruct (Hu i h Hi).
  - intros y Hy Hu. apply Hun in Hu. by apply (Hview y).
  - intros j h0. simpl. intros [[<- <-]|[Hne Hj]]%lookup_insert_Some Hnl.
    + rewrite Hb in *. apply (Hclean i h Hi). intros Hx. apply Hnl, Hin. by left.
    + apply (Hclean j h0 Hj). intros Hx. apply Hnl, Hin. by left.
Qed.

Lemma setdata_store s a i x d d' c :
  log_rel s a -> theld a !! i = Some (x, d) -> length d' = 512%nat ->
  exists s', t_setdata i d' c s = Ok tt c s' /\ log_rel s' (a <| theld ::= <[i := (x, d')]> |>).
Proof.
  destruct s as [l k0]. intros (k & Hr & Hl) Hi Hd'. destruct (lrel_lookup _ _ _ _ _ _ Hl Hi) as (h & Hh & <- & <-).
  simpl in Hr, Hl. destruct (c_setdata_ok k0 k i h d' c Hr Hh Hd') as (k1 & Hrun & Hr1).
  exists (mklstate l k1). split; [by apply onc_run|]. exists (a_setdata k i h d'). split; [done|].
  assert (Ha : a <| theld ::= <[i := (hblock h, d')]> |> =
    a <| theld ::= <[i := (hblock h, d')]> |> <| tlog := list_to_set (logged l) |>).
  { rewrite <- (lr_log _ _ _ Hl). by destruct a. }
  rewrite Ha. apply (lrel_modify l l k a i h (Held (hblock h) d' (hdirty h))); try done; try apply Hl; [|by destruct l|naive_solver].
  exact (proj1 (lr_dirty _ _ _ Hl i h Hh)).
Qed.

Lemma log_write_store s a i x d t :
  log_rel s a -> theld a !! i = Some (x, d) -> log_room a -> 1 <= tops a ->
  exists s', t_log_write i (Ctx [] t) s = Ok tt (Ctx [] t) s' /\ log_rel s' (a <| tlog ::= fun l => l ∪ {[x]} |>).
Proof.
  destruct s as [l k0]. intros (k & Hr & Hl) Hi [Hr1 Hr2] Hops. destruct (lrel_lookup _ _ _ _ _ _ Hl Hi) as (h & Hh & <- & <-).
  simpl in Hr, Hl. pose proof (lr_placed _ _ _ Hl) as [Hdev Hst Hsz Has Hbl Hn].
  assert (Hsize : Z.of_nat (size (tlog a)) = lh_n l).
  { rewrite (lr_log _ _ _ Hl), size_list_to_set by apply Hl. unfold logged. rewrite length_take. lia. }
  rewrite <- (lr_lsize _ _ _ Hl) in Hr2. rewrite <- (lr_ops _ _ _ Hl) in Hops.
  pose proof (log_write_run k0 k l i h t Hr Hh ltac:(lia) Hbl) as Hrun. unfold LOGSIZE in Hrun.
  destruct ((30 <=? lh_n l) || (lsize l - 1 <=? lh_n l)) eqn:Hfull; [lia|].
  destruct (outstanding l <? 1) eqn:Ho; [lia|].
  destruct Hrun as (k' & l' & Hrun & Hr' & Hbl' & Hlog & Hl' & Hn').
  { apply Forall_forall. intros b Hb. destruct (lr_home _ _ _ Hl b Hb) as [Hb' _].
    rewrite <- (lr_size _ _ _ Hl) in Hb'. lia. }
  { done. }
  exists (mklstate l' k'). split; [exact Hrun|]. exists (a_pin k i h). split; [done|].
  assert (Hx : hblock h ∈ logged l') by (rewrite Hlog; case_decide; set_solver).
  assert (Hln : logged l' = logged l \/ logged l' = logged l ++ [hblock h]) by (rewrite Hlog; case_decide; auto).
  assert (Ha : a <| tlog ::= fun l => l ∪ {[hblock h]} |> =
    a <| theld ::= <[i := (hblock h, hdata h)]> |> <| tlog := list_to_set (logged l') |>).
  { assert (Hs : tlog a ∪ {[hblock h]} = list_to_set (logged l')).
    { rewrite (lr_log _ _ _ Hl), Hlog. case_decide; set_solver. }
    destruct a. cbn in *. by rewrite Hs, insert_id. }
  rewrite Ha. clear Ha Hi. destruct (same_fields l l' Hl') as (Es & Ez & Eo & Ec).
  apply (lrel_modify l l' k a i h (Held (hblock h) (hdata h) true)); try done.
  - split; try (rewrite ?Es, ?Ez; done); [rewrite Hl'; apply Hdev|].
    assert (Hlen : (length (logged l') <= S (length (logged l)))%nat) by (destruct Hln as [->| ->]; rewrite ?length_app; simpl; lia).
    unfold logged in Hlen. rewrite !length_take in Hlen. rewrite Ez. lia.
  - rewrite Hlog. case_decide as Hd; [apply Hl|]. apply NoDup_app. split_and!; [apply Hl|set_solver|apply NoDup_singleton].
  - intros y. rewrite Hlog. case_decide; set_solver.
Qed.

Lemma brelse_store s a i x d t :
  log_rel s a -> theld a !! i = Some (x, d) -> x ∈ tlog a \/ d = tview a x ->
  exists s' ev, t_brelse i (Ctx [] t) s = Ok tt (Ctx [] (t ++ ev)) s' /\ disk_writes ev = [] /\
    log_rel s' (a <| theld ::= delete i |> <| tview ::= fun v => tset v x d |>).
Proof.
  destruct s as [l k0]. intros (k & Hr & Hl) Hi Hsame. destruct (lrel_lookup _ _ _ _ _ _ Hl Hi) as (h & Hh & <- & <-).
  simpl in Hr, Hl. destruct (c_buf_ok k0 k i h (Ctx [] t) Hr Hh) as (_ & _ & _ & _ & Hlen & _).
  pose proof (c_held_fresh k0 k i h Hr Hh) as Hnp.
  destruct Hl as [Hpl ? ? ? ? ? ? Hlog Hhome ? Hheld Hdirty Huniq Hpins Hview Hclean Hvlen Hdur].
  destruct (Hdirty i h Hh) as [Hd Hus].
  assert (Hok : hblock h ∉ logged l -> hdata h = adisk k (hblock h)).
  { intros Hn. rewrite Hlog, elem_of_list_to_set in Hsame. destruct Hsame as [?| ->]; [done|]. by apply (Hclean i h). }
  destruct (c_brelse_ok k0 k i h t Hr Hh) as (k1 & ev & Hrun & Hw & Hr1).
  { destruct (hdirty h) eqn:Hdh; [by left|right]. apply Hok. intros Hin%Hd. done. }
  exists (mklstate l k1), ev. split_and!; [by apply onc_run|done|]. exists (a_brelse k i h). split; [done|].
  assert (Hun : forall y, unheld (a_brelse k i h) y <-> y = hblock h \/ unheld k y).
  { intros y. unfold unheld. simpl. split.
    - intros Hu. destruct (decide (y = hblock h)) as [->|Hne]; [by left|right]. intros j h0 Hj.
      destruct (decide (j = i)) as [->|]; [congruence|]. apply (Hu j). by rewrite lookup_delete_ne.
    - intros [->|Hu] j h0 [Hne Hj]%lookup_delete_Some; [|by eapply Hu]. intros He. by destruct Hne; eapply Huniq. }
  split; try done.
  - by destruct Hpl.
  - simpl. by rewrite fmap_delete, Hheld.
  - intros j h0. simpl. intros [_ Hj]%lookup_delete_Some. exact (Hdirty j h0 Hj).
  - intros j j' h0 h1. simpl. intros [_ Hj]%lookup_delete_Some [_ Hj']%lookup_delete_Some. by apply Huniq.
  - intros y. rewrite Hun. simpl. destruct (hdirty h) eqn:Hdh.
    + rewrite lookup_insert_is_Some, Hpins. pose proof (proj1 Hd eq_refl). naive_solver.
    + rewrite Hpins. assert (hblock h ∉ logged l) by (intros Hin%Hd; done).
      split; [naive_solver|]. intros [Hy [->|Hu]]; done.
  - intros y Hy. rewrite Hun. unfold aview. simpl. unfold tset. destruct (Z.eqb_spec y (hblock h)) as [->|Hne].
    + intros _. destruct (hdirty h) eqn:Hdh; [by rewrite lookup_insert_eq|]. rewrite Hnp. apply Hok. intros Hin%Hd. done.
    + intros [?|Hu]; [done|]. rewrite (Hview y) by done.
      unfold aview. by destruct (hdirty h); rewrite ?lookup_insert_ne by done.
  - intros j h0. simpl. intros [Hne Hj]%lookup_delete_Some Hnl. unfold tset.
    destruct (Z.eqb_spec (hblock h0) (hblock h)) as [He|]; [by destruct Hne; eapply Huniq|]. by apply (Hclean j h0).
  - intros y Hy. simpl. unfold tset. destruct (y =? hblock h); [done|by apply Hvlen].
Qed.

Lemma begin_store s a t :
  log_rel s a -> 0 <= tops a -> Z.of_nat (size (tlog a)) + (tops a + 1) * MAXOPBLOCKS <= LOGSIZE ->
  exists s', t_begin_op (Ctx [] t) s = Ok tt (Ctx [] t) s' /\ log_rel s' (a <| tops ::= Z.succ |>).
Proof.
  destruct s as [l k0]. intros (k & Hr & Hl) Ho Hroom. simpl in Hr, Hl. unfold MAXOPBLOCKS, LOGSIZE in Hroom.
  pose proof (lr_placed _ _ _ Hl) as [Hdev Hst Hsz Has Hbl Hn].
  assert (Hsize : Z.of_nat (size (tlog a)) = lh_n l).
  { rewrite (lr_log _ _ _ Hl), size_list_to_set by apply Hl. unfold logged. rewrite length_take. lia. }
  assert (Hadm : admits l = true).
  { unfold admits, MAXOPBLOCKS, LOGSIZE. rewrite (lr_idle _ _ _ Hl), (lr_ops _ _ _ Hl).
    rewrite (s32_small (tops a + 1)) by lia. rewrite (s32_small (_ * 10)), s32_small by lia. lia. }
  exists (mklstate (l <| outstanding ::= fun o => s32 (o + 1) |>) k0). split.
  { cbn [t_begin_op log_store]. unfold begin_op. rewrite bindE, acquire_ok by set_solver. cbn [obind].
    rewrite begin_loop_run. cbn [first_admit]. cbn [thelog]. rewrite Hadm. done. }
  exists k. split; [done|]. cbn [thelog]. destruct Hl. split; try done.
  - simpl. rewrite lr_ops0, s32_small by lia. done.
Qed.

Lemma crash_store s a : log_rel s a -> recovers a (tdur a) (tdur a).
Proof.
  intros (k & _ & Hl). pose proof (lr_placed _ _ _ Hl) as [_ _ _ _ _ Hn].
  assert (Hz : header_n (tdur a (tstart a)) = 0).
  { rewrite (lr_dur _ _ _ Hl), <- (lr_start _ _ _ Hl). apply Hl. }
  split.
  - apply header_clear_ok; [simpl; rewrite <- (lr_lsize _ _ _ Hl); lia|done].
  - intros x _. unfold logical, header. by rewrite Hz.
Qed.

(** ** The end of a transaction *)

Lemma lrel_ready l k a : lrel l k a -> theld a = ∅ -> commit_ready l k.
Proof.
  intros Hl Hh. assert (Hk : aheld k = ∅).
  { rewrite (lr_held _ _ _ Hl) in Hh. by apply fmap_empty_inv in Hh. }
  split; try apply Hl; [done| |].
  - intros b Hb. destruct (lr_home _ _ _ Hl b Hb). unfold home.
    by rewrite (lr_size _ _ _ Hl), (lr_start _ _ _ Hl), (lr_lsize _ _ _ Hl).
  - apply set_eq. intros x. rewrite elem_of_dom, (lr_pins _ _ _ Hl), elem_of_list_to_set.
    split; [by intros []|]. intros Hx. split; [done|]. intros i h Hi. by rewrite Hk in Hi.
Qed.

Lemma lrel_view l k a x : lrel l k a -> theld a = ∅ -> usable a x -> tview a x = aview k x.
Proof.
  intros Hl Hh Hx. apply Hl; [done|]. intros i h Hi.
  rewrite (lr_held _ _ _ Hl) in Hh. apply fmap_empty_inv in Hh. by rewrite Hh in Hi.
Qed.

(** The log while it commits. *)
Definition closing (l : log) : log := l <| outstanding := 0 |> <| committing := 1 |>.

Lemma commit_store c k l a t :
  c_rel c k -> lrel l k a -> theld a = ∅ ->
  exists c' ev, commit (Ctx [] t) (mklstate (closing l) c) =
      Ok tt (Ctx [] (t ++ ev)) (mklstate ((closing l) <| lh_n := 0 |>) c') /\
    let d' := apply_writes (adisk k) (disk_writes ev) in
    c_rel c' (k <| adisk := d' |> <| pins := ∅ |>) /\ header_n (d' (lstart l)) = 0 /\
    (forall x, usable a x -> d' x = tview a x) /\
    forall P, P `prefix_of` disk_writes ev ->
      recovers a (apply_writes (tdur a) P) (tdur a) \/ recovers a (apply_writes (tdur a) P) (tview a).
Proof.
  intros Hr Hl Hh. pose proof (lrel_ready _ _ _ Hl Hh) as Hrd. set (l1 := closing l).
  assert (Hrd1 : commit_ready l1 k) by (by destruct Hrd as [[]]).
  assert (Hhome : forall x, usable a x -> home (lstart l1) (lsize l1) x).
  { intros x [_ Hx]. unfold home. simpl. by rewrite (lr_start _ _ _ Hl), (lr_lsize _ _ _ Hl). }
  destruct (decide (lh_n l = 0)) as [H0|H0].
  - assert (Hp : pins k = ∅).
    { apply map_empty. intros x. apply not_elem_of_dom. rewrite (rd_pins _ _ Hrd). unfold logged. rewrite H0. set_solver. }
    exists c, []. rewrite app_nil_r. cbn [disk_writes omap apply_writes foldl]. split_and!.
    + unfold commit. rewrite bindE, getl_run. cbn [obind]. simpl. rewrite H0. simpl.
      rewrite retE. do 2 f_equal. unfold l1, closing. destruct l. cbn in *. by subst.
    + erewrite acache_eq; [exact Hr|done..].
    + apply Hl.
    + intros x Hx. rewrite (lrel_view _ _ _ x Hl) by done. unfold aview. by rewrite Hp.
    + intros P HP. left. apply prefix_nil_inv in HP as ->. by apply (crash_store (mklstate l c)); exists k.
  - assert (Hpos : 0 < lh_n l1) by (simpl; destruct Hl as [[]]; lia).
    destruct (commit_run c k l1 t Hr Hrd1 Hpos) as (c' & ev & Hrun & Hw & Hr').
    exists c', ev. split; [exact Hrun|]. rewrite Hw.
    destruct (commit_crash c k l1 (ready_writes l1 k) Hr Hrd1 ltac:(done)) as (_ & _ & Hall).
    destruct (Hall eq_refl) as [Hz Hv]. split_and!; [done|done| |].
    + intros x Hx. rewrite (lrel_view _ _ _ x Hl), <- (Hv x) by auto. unfold logical, header. by rewrite Hz.
    + intros P HP. destruct (commit_crash c k l1 P Hr Hrd1 HP) as (Hho & Hor & _).
      rewrite (lr_dur _ _ _ Hl). unfold recovers. rewrite <- (lr_start _ _ _ Hl), <- (lr_size _ _ _ Hl).
      assert (Hho' : header_ok (mklog (lstart l) (tlen a) 0 0 ROOTDEV 0 []) (asize k) (apply_writes (adisk k) P (lstart l))).
      { rewrite <- (lr_lsize _ _ _ Hl). destruct Hho. by split. }
      change (lstart l1) with (lstart l) in *.
      destruct Hor as [Ho|Ho]; [left|right]; (split; [exact Hho'|]); intros x Hx; rewrite (Ho x) by auto;
        [done|by rewrite (lrel_view _ _ _ x Hl)].
Qed.

Lemma lrel_closed l k a d :
  lrel l k a -> theld a = ∅ -> tops a = 1 -> header_n (d (lstart l)) = 0 ->
  (forall x, usable a x -> d x = tview a x) ->
  lrel ((closing l) <| lh_n := 0 |> <| committing := 0 |>) (k <| adisk := d |> <| pins := ∅ |>)
    (a <| tops ::= Z.pred |> <| tdur := d |> <| tlog := ∅ |>).
Proof.
  intros [Hpl ? ? ? ? ? ? Hlog Hhome ? Hheld Hdirty Huniq Hpins Hview Hclean Hvlen Hdur] Hh H1 Hz Hv.
  assert (Hk : aheld k = ∅) by (rewrite Hheld in Hh; by apply fmap_empty_inv in Hh).
  split; try done.
  - destruct Hpl. split; try done. simpl. lia.
  - simpl. rewrite H1. done.
  - constructor.
  - intros b Hb. by apply elem_of_nil in Hb.
  - intros i h Hi. simpl in Hi. by rewrite Hk in Hi.
  - intros x. simpl. rewrite lookup_empty, is_Some_alt. split; [done|]. intros [Hx _]. by apply elem_of_nil in Hx.
  - intros x Hx _. symmetry. by apply Hv.
  - intros i h Hi. simpl in Hi. by rewrite Hk in Hi.
Qed.

Lemma end_store s a t :
  log_rel s a -> 1 <= tops a < 1000 -> theld a = ∅ ->
  exists s' ev, t_end_op (Ctx [] t) s = Ok tt (Ctx [] (t ++ ev)) s' /\
    log_rel s' (a <| tops ::= Z.pred |> <| tdur := apply_writes (tdur a) (disk_writes ev) |>
                <| tlog ::= fun l => if tops a =? 1 then ∅ else l |>) /\
    (if tops a =? 1
     then forall x, usable a x -> apply_writes (tdur a) (disk_writes ev) x = tview a x
     else disk_writes ev = []) /\
    forall P, P `prefix_of` disk_writes ev ->
      recovers a (apply_writes (tdur a) P) (tdur a) \/ recovers a (apply_writes (tdur a) P) (tview a).
Proof.
  destruct s as [l c]. intros (k & Hr & Hl) Ho Hh. simpl in Hr, Hl. pose proof (lr_ops _ _ _ Hl) as Hops.
  assert (Hs : s32 (outstanding l - 1) = tops a - 1) by (rewrite s32_small; lia).
  cbn [t_end_op log_store]. unfold end_op. rewrite bindE, acquire_ok by set_solver. cbn [obind].
  unfold modl, getl. rewrite bindE, modSE. cbn [obind]. rewrite bindE, getsE. cbn [obind].
  cbn. rewrite Hs, (lr_idle _ _ _ Hl). cbn [negb Z.eqb].
  destruct (Z.eqb_spec (tops a) 1) as [H1|H1].
  - destruct (Z.eqb_spec (tops a - 1) 0); [|lia].
    destruct (commit_store c k l a t Hr Hl Hh) as (c' & ev & Hrun & Hr' & Hz & Hv & HP).
    exists (mklstate ((closing l) <| lh_n := 0 |> <| committing := 0 |>) c'), (ev ++ [Ewakeup Clog]).
    rewrite disk_writes_app. cbn [disk_writes omap]. rewrite app_nil_r. split_and!; [| |by rewrite (lr_dur _ _ _ Hl)|done].
    + rewrite bindE, modSE. cbn [obind]. rewrite bindE, release_ok by set_solver. cbn [obind].
      match goal with |- (commit ≫= _) _ ?st = _ => change st with (mklstate ((closing l) <| outstanding := tops a - 1 |>) c) end.
      assert (Hc : (closing l) <| outstanding := tops a - 1 |> = closing l) by (rewrite H1; done).
      rewrite Hc, bindE, Hrun. cbn [obind]. unfold wakeup. mrun. by rewrite <- app_assoc.
    + exists (k <| adisk := apply_writes (adisk k) (disk_writes ev) |> <| pins := ∅ |>).
      split; [done|]. rewrite (lr_dur _ _ _ Hl). by apply lrel_closed.
  - destruct (Z.eqb_spec (tops a - 1) 0); [lia|]. exists (mklstate (l <| outstanding := tops a - 1 |>) c), [Ewakeup Clog].
    cbn [disk_writes omap disk_write apply_writes foldl]. split_and!; [| |done|].
    + unfold wakeup. mrun. by rewrite <- (lr_idle _ _ _ Hl).
    + exists k. split; [done|]. destruct Hl as [[]]. by split.
    + intros P HP. left. apply prefix_nil_inv in HP as ->. by apply (crash_store (mklstate l c)); exists k.
Qed.

#[export] Instance log_store_ok : BlockStoreOk (lstate C).
Proof.
  refine {| t_rel := log_rel |}.
  - intros s a x (k & _ & Hl). apply Hl.
  - intros s a (k & _ & Hl). rewrite <- (lr_size _ _ _ Hl). apply Hl.
  - intros s a v (k & Hr & Hl) Hv. exists k. split; [done|]. destruct Hl. split; try done.
    + intros x Hx Hu. simpl. rewrite Hv by done. by apply lr_view0.
    + intros i h Hi Hn. simpl. rewrite Hv by exact (proj2 (lr_dirty0 i h Hi)). by apply (lr_clean0 i).
    + intros x Hx. simpl. rewrite Hv by done. by apply lr_vlen0.
  - exact bread_store.
  - exact data_store.
  - exact setdata_store.
  - exact log_write_store.
  - exact brelse_store.
  - exact begin_store.
  - exact crash_store.
  - exact end_store.
Defined.
End LogStore.
