(* ===== verification/Fs.v ===== *)
(** * Inodes, directories and path names (src/fs.c, src/fs.h, src/file.h)

    The file system's state is the inode cache, the super block and the block
    store below.  A [struct inode *] is an index into the cache; structures on
    the disk overlay the bytes of a block.  [pid] is [myproc()->pid]. *)

From stdpp Require Import prelude gmap strings list.
From Stdlib Require Import ZArith Lia.
From S2P Require Import Strings Prelude Sleeplock Bio BioSpec Layout Log Store.

Definition ROOTINO : Z := 1.
Definition NDIRECT : Z := 12.
Definition NINDIRECT : Z := 128.
Definition MAXFILE : Z := NDIRECT + NINDIRECT.
Definition NINODE : nat := 50.
Definition NDEV : Z := 10.
Definition DIRSIZ : Z := 14.
Definition T_DIR : Z := 1.
Definition T_FILE : Z := 2.
Definition T_DEV : Z := 3.

(** Inodes per block, and bits of the free map per block. *)
Definition IPB : Z := 8.
Definition BPB : Z := 4096.

Definition IBLOCK (i : Z) (sb : superblock) : Z := u32 (i `quot` IPB + sb_inodestart sb).
Definition BBLOCK (b : Z) (sb : superblock) : Z := u32 (b `quot` BPB + sb_bmapstart sb).

(** ** The structures on the disk *)

Record dinode := mkdinode {
  d_type : Z; d_major : Z; d_minor : Z; d_nlink : Z; d_size : Z;
  d_addrs : list Z;
}.

(** [(struct dinode * )bp->data + inum%IPB], as an offset. *)
Definition dinode_off (inum : Z) : nat := Z.to_nat (64 * (inum mod IPB)).

Definition addr_off (off j : nat) : nat := (off + 12 + 4 * j)%nat.

Definition get_dinode (d : list Z) (off : nat) : dinode :=
  mkdinode (s16 (get16 d off)) (s16 (get16 d (off + 2))) (s16 (get16 d (off + 4)))
    (s16 (get16 d (off + 6))) (get32 d (off + 8))
    ((fun j => get32 d (addr_off off j)) <$> seq 0 13).

Fixpoint put_words (d : list Z) (off : nat) (ws : list Z) : list Z :=
  match ws with
  | [] => d
  | w :: ws' => put_words (put32 d off w) (off + 4) ws'
  end.

Definition put_dinode (d : list Z) (off : nat) (di : dinode) : list Z :=
  let d := put16 d off (u16 (d_type di)) in
  let d := put16 d (off + 2) (u16 (d_major di)) in
  let d := put16 d (off + 4) (u16 (d_minor di)) in
  let d := put16 d (off + 6) (u16 (d_nlink di)) in
  let d := put32 d (off + 8) (d_size di) in
  put_words d (off + 12) (d_addrs di).

(** [memmove(d + off, bs, length bs)] inside a block. *)
Definition put_bytes (d : list Z) (off : nat) (bs : list Z) : list Z :=
  take off d ++ bs ++ drop (off + length bs) d.

(** [d\[i\]] of a block's bytes. *)
Definition byte_at (d : list Z) (i : Z) : Z := default 0 (aget d i).
Definition set_byte (d : list Z) (i v : Z) : list Z := <[Z.to_nat i := v]> d.

Record dirent := mkdirent { de_inum : Z; de_name : list Z }.

Definition get_dirent (bs : list Z) : dirent :=
  mkdirent (get16 bs 0) (take (Z.to_nat DIRSIZ) (drop 2 bs)).

Definition put_dirent (de : dirent) : list Z := to_bytes 2 (de_inum de) ++ de_name de.

(** ** The inode cache *)

Record inode := mkinode {
  idev : Z;
  inum : Z;
  ref : Z;
  ilk : sleeplock;
  ivalid : Z;
  itype : Z;
  major : Z;
  minor : Z;
  nlink : Z;
  isize : Z;
  addrs : list Z;
}.

#[export] Instance inode_settable : Settable inode :=
  fun i => mkinode (idev i) (inum i) (ref i) (ilk i) (ivalid i) (itype i) (major i) (minor i)
    (nlink i) (isize i) (addrs i).

(** The fields that live on the disk. *)
Definition to_dinode (ip : inode) : dinode :=
  mkdinode (itype ip) (major ip) (minor ip) (nlink ip) (isize ip) (addrs ip).

Definition load_dinode (di : dinode) (ip : inode) : inode :=
  ip <| itype := d_type di |> <| major := d_major di |> <| minor := d_minor di |>
     <| nlink := d_nlink di |> <| isize := d_size di |> <| addrs := d_addrs di |>.

Record stat := mkstat { st_dev : Z; st_ino : Z; st_type : Z; st_nlink : Z; st_size : Z }.

Record fsstate (B : Type) := mkfs {
  icache : list inode;
  sb : superblock;
  store : B;
}.
Arguments mkfs {B} _ _ _.
Arguments icache {B} _.
Arguments sb {B} _.
Arguments store {B} _.

#[export] Instance fsstate_settable B : Settable (fsstate B) :=
  fun s => mkfs (icache s) (sb s) (store s).

(** A row of the table [devsw]: read() returns its result and the bytes it
    stored, write() gets the bytes; an absent function is a null pointer. *)
Record devops (B : Type) := mkdevops {
  dread : option (nat -> Z -> M (fsstate B) (Z * list Z));
  dwrite : option (nat -> list Z -> Z -> M (fsstate B) Z);
}.
Arguments mkdevops {B} _ _.
Arguments dread {B} _.
Arguments dwrite {B} _.

Section Fs.
Context {B : Type} `{BlockStore B} (pid : Z) (devsw : list (devops B)).
Abbreviation FS := (M (fsstate B)).

Definition onb {A} (m : M B A) : FS A := zoom store (fun k s => s <| store := k |>) m.
Definition geti (ip : nat) : FS inode := s ← getS; of_option (icache s !! ip).
Definition modi (ip : nat) (f : inode -> inode) : FS unit :=
  i ← geti ip; modS (fun s => s <| icache ::= <[ip := f i]> |>).
Definition getsb : FS superblock := gets sb.

Definition with_ilk {A} (ip : nat) (m : M sleeplock A) : FS A :=
  i ← geti ip;
  zoom (fun _ : fsstate B => ilk i)
    (fun l s => s <| icache ::= <[ip := i <| ilk := l |> ]> |>) m.

(** ** Blocks *)

Definition bzero (dev bno : Z) : FS unit :=
  bp ← onb (t_bread dev (u32 bno));
  onb (t_setdata bp (replicate 512 0)) ;;
  onb (t_log_write bp) ;;
  onb (t_brelse bp).

(** [for(bi = 0; bi < BPB && b + bi < sb.size; bi++)]: the first clear bit. *)
Fixpoint free_bit (d : list Z) (b size bi : Z) (n : nat) : option Z :=
  match n with
  | O => None
  | S n' =>
      if u32 (b + bi) <? size then
        if Z.land (byte_at d (bi / 8)) (Z.shiftl 1 (bi mod 8)) =? 0 then Some bi
        else free_bit d b size (bi + 1) n'
      else None
  end.

Fixpoint balloc_loop (dev b : Z) (n : nat) : FS Z :=
  sb ← getsb;
  if u32 b <? sb_size sb then
    match n with
    | O => nofuel
    | S n' =>
        bp ← onb (t_bread dev (BBLOCK b sb));
        d ← onb (t_data bp);
        match free_bit d b (sb_size sb) 0 (Z.to_nat BPB) with
        | Some bi =>
            onb (t_setdata bp
              (set_byte d (bi / 8) (u8 (Z.lor (byte_at d (bi / 8)) (Z.shiftl 1 (bi mod 8)))))) ;;
            onb (t_log_write bp) ;;
            onb (t_brelse bp) ;;
            bzero dev (s32 (b + bi)) ;;
            mret (u32 (b + bi))
        | None => onb (t_brelse bp) ;; balloc_loop dev (s32 (b + BPB)) n'
        end
    end
  else panic "balloc: out of blocks".

Definition balloc (dev : Z) : FS Z :=
  sb ← getsb;
  balloc_loop dev 0 (S (Z.to_nat (sb_size sb / BPB))).

Definition bfree (dev b : Z) : FS unit :=
  sb ← getsb;
  bp ← onb (t_bread dev (BBLOCK b sb));
  d ← onb (t_data bp);
  let bi := b mod BPB in
  let m := Z.shiftl 1 (bi mod 8) in
  if Z.land (byte_at d (bi / 8)) m =? 0 then panic "freeing free block" else
  onb (t_setdata bp (set_byte d (bi / 8) (u8 (Z.land (byte_at d (bi / 8)) (Z.lnot m))))) ;;
  onb (t_log_write bp) ;;
  onb (t_brelse bp).

(** ** Inodes *)

Definition iinit (dev : Z) : FS unit :=
  initlock Licache "icache" ;;
  mfor (seq 0 NINODE) (fun i => with_ilk i (initsleeplock (Cinodelock i))) ;;
  b ← onb (t_readsb dev);
  modS (fun s => s <| sb := b |>) ;;
  cprintf "sb: size %d nblocks %d ninodes %d nlog %d logstart %d inodestart %d bmap start %d"
    [sb_size b; sb_nblocks b; sb_ninodes b; sb_nlog b; sb_logstart b; sb_inodestart b; sb_bmapstart b].

Definition iget (dev inum' : Z) : FS nat :=
  acquire Licache ;;
  s ← getS;
  match find_index (fun ip => (0 <? ref ip) && (idev ip =? dev) && (inum ip =? inum')) (icache s) with
  | Some ip => modi ip (fun i => i <| ref ::= fun r => s32 (r + 1) |>) ;; release Licache ;; mret ip
  | None =>
      match find_index (fun ip => ref ip =? 0) (icache s) with
      | None => panic "iget: no inodes"
      | Some ip =>
          modi ip (fun i => i <| idev := dev |> <| inum := inum' |> <| ref := 1 |> <| ivalid := 0 |>) ;;
          release Licache ;; mret ip
      end
  end.

(** [memset(dip, 0, sizeof( *dip)); dip->type = type;] *)
Definition fresh_dinode (d : list Z) (off : nat) (type : Z) : list Z :=
  put16 (put_bytes d off (replicate 64 0)) off (u16 type).

Fixpoint ialloc_loop (dev type inum : Z) (n : nat) : FS nat :=
  sb ← getsb;
  if inum <? sb_ninodes sb then
    match n with
    | O => nofuel
    | S n' =>
        bp ← onb (t_bread dev (IBLOCK inum sb));
        d ← onb (t_data bp);
        if d_type (get_dinode d (dinode_off inum)) =? 0 then
          onb (t_setdata bp (fresh_dinode d (dinode_off inum) type)) ;;
          onb (t_log_write bp) ;;
          onb (t_brelse bp) ;;
          iget dev inum
        else onb (t_brelse bp) ;; ialloc_loop dev type (inum + 1) n'
    end
  else panic "ialloc: no inodes".

Definition ialloc (dev type : Z) : FS nat :=
  sb ← getsb;
  ialloc_loop dev type 1 (Z.to_nat (sb_ninodes sb)).

Definition iupdate (ip : nat) : FS unit :=
  i ← geti ip;
  sb ← getsb;
  bp ← onb (t_bread (idev i) (IBLOCK (inum i) sb));
  d ← onb (t_data bp);
  onb (t_setdata bp (put_dinode d (dinode_off (inum i)) (to_dinode i))) ;;
  onb (t_log_write bp) ;;
  onb (t_brelse bp).

Definition idup (ip : nat) : FS nat :=
  acquire Licache ;;
  modi ip (fun i => i <| ref ::= fun r => s32 (r + 1) |>) ;;
  release Licache ;;
  mret ip.

Definition ilock (p : option nat) : FS unit :=
  match p with
  | None => panic "ilock"
  | Some ip =>
      i ← geti ip;
      if ref i <? 1 then panic "ilock" else
      with_ilk ip (acquiresleep (Cinodelock ip) pid []) ;;
      i ← geti ip;
      if ivalid i =? 0 then
        sb ← getsb;
        bp ← onb (t_bread (idev i) (IBLOCK (inum i) sb));
        d ← onb (t_data bp);
        modi ip (load_dinode (get_dinode d (dinode_off (inum i)))) ;;
        onb (t_brelse bp) ;;
        modi ip (fun i => i <| ivalid := 1 |>) ;;
        i ← geti ip;
        if itype i =? 0 then panic "ilock: no type" else mret tt
      else mret tt
  end.

Definition iunlock (p : option nat) : FS unit :=
  match p with
  | None => panic "iunlock"
  | Some ip =>
      h ← with_ilk ip (holdingsleep (Cinodelock ip) pid);
      i ← geti ip;
      if negb h || (ref i <? 1) then panic "iunlock" else
      with_ilk ip (releasesleep (Cinodelock ip))
  end.

(** Freeing of the block whose number is at index [j] of [ws], if there is one. *)
Definition free_entry (dev : Z) (ws : list Z) (j : nat) : FS unit :=
  a ← of_option (ws !! j);
  if a =? 0 then mret tt else bfree dev a.

(** The words of an indirect block. *)
Definition words (d : list Z) : list Z := (fun j => get32 d (4 * j)) <$> seq 0 (Z.to_nat NINDIRECT).

Definition itrunc (ip : nat) : FS unit :=
  mfor (seq 0 (Z.to_nat NDIRECT)) (fun j =>
    i ← geti ip;
    a ← of_option (addrs i !! j);
    if a =? 0 then mret tt else
    bfree (idev i) a ;;
    modi ip (fun i => i <| addrs ::= <[j := 0]> |>)) ;;
  i ← geti ip;
  a ← rd (addrs i) NDIRECT;
  (if a =? 0 then mret tt else
   bp ← onb (t_bread (idev i) a);
   d ← onb (t_data bp);
   mfor (seq 0 (Z.to_nat NINDIRECT)) (free_entry (idev i) (words d)) ;;
   onb (t_brelse bp) ;;
   bfree (idev i) a ;;
   modi ip (fun i => i <| addrs ::= <[Z.to_nat NDIRECT := 0]> |>)) ;;
  modi ip (fun i => i <| isize := 0 |>) ;;
  iupdate ip.

Definition iput (ip : nat) : FS unit :=
  with_ilk ip (acquiresleep (Cinodelock ip) pid []) ;;
  i ← geti ip;
  (if negb (ivalid i =? 0) && (nlink i =? 0) then
     acquire Licache ;;
     i ← geti ip;
     let r := ref i in
     release Licache ;;
     if r =? 1 then
       itrunc ip ;;
       modi ip (fun i => i <| itype := 0 |>) ;;
       iupdate ip ;;
       modi ip (fun i => i <| ivalid := 0 |>)
     else mret tt
   else mret tt) ;;
  with_ilk ip (releasesleep (Cinodelock ip)) ;;
  acquire Licache ;;
  modi ip (fun i => i <| ref ::= fun r => s32 (r - 1) |>) ;;
  release Licache.

Definition iunlockput (ip : nat) : FS unit := iunlock (Some ip) ;; iput ip.

(** ** The contents of a file *)

Definition bmap (ip : nat) (bn : Z) : FS Z :=
  i ← geti ip;
  if bn <? NDIRECT then
    addr ← rd (addrs i) bn;
    if addr =? 0 then
      addr ← balloc (idev i);
      modi ip (fun i => i <| addrs ::= <[Z.to_nat bn := addr]> |>) ;;
      mret addr
    else mret addr
  else
    let bn := bn - NDIRECT in
    if bn <? NINDIRECT then
      addr ← rd (addrs i) NDIRECT;
      addr ← (if addr =? 0 then
                addr ← balloc (idev i);
                modi ip (fun i => i <| addrs ::= <[Z.to_nat NDIRECT := addr]> |>) ;;
                mret addr
              else mret addr);
      bp ← onb (t_bread (idev i) addr);
      a ← onb (t_data bp);
      let addr := get32 a (Z.to_nat (4 * bn)) in
      addr ← (if addr =? 0 then
                addr ← balloc (idev i);
                onb (t_setdata bp (put32 a (Z.to_nat (4 * bn)) addr)) ;;
                onb (t_log_write bp) ;;
                mret addr
              else mret addr);
      onb (t_brelse bp) ;;
      mret addr
    else panic "bmap: out of range".

Definition stati (ip : nat) : FS stat :=
  i ← geti ip;
  mret (mkstat (idev i) (inum i) (itype i) (nlink i) (isize i)).

(** [devsw\[ip->major\]], when there is such a row. *)
Definition devrow (i : inode) : option (devops B) :=
  if (major i <? 0) || (NDEV <=? major i) then None else aget devsw (major i).

(** The bytes the loop of readi() stores at dst, for the [n - tot] bytes left. *)
Fixpoint readi_loop (ip : nat) (off left : Z) (fuel : nat) : FS (list Z) :=
  if 0 <? left then
    match fuel with
    | O => nofuel
    | S fuel' =>
        i ← geti ip;
        x ← bmap ip (off / BSIZE);
        bp ← onb (t_bread (idev i) x);
        d ← onb (t_data bp);
        let m := left `min` (BSIZE - off mod BSIZE) in
        let bs := take (Z.to_nat m) (drop (Z.to_nat (off mod BSIZE)) d) in
        onb (t_brelse bp) ;;
        rest ← readi_loop ip (u32 (off + m)) (left - m) fuel';
        mret (bs ++ rest)
    end
  else mret [].

(** The number of iterations for [n] bytes is at most [n / BSIZE + 2]. *)
Definition io_fuel (n : Z) : nat := Z.to_nat (n / BSIZE + 2).

(** The result, and the bytes stored at dst. *)
Definition readi (ip : nat) (off n : Z) : FS (Z * list Z) :=
  i ← geti ip;
  if itype i =? T_DEV then
    match devrow i ≫= dread with
    | None => mret (-1, [])
    | Some f => f ip (s32 n)
    end
  else if (isize i <? off) || (u32 (off + n) <? off) then mret (-1, []) else
  let n := if isize i <? u32 (off + n) then u32 (isize i - off) else n in
  bs ← readi_loop ip off n (io_fuel n);
  mret (s32 n, bs).

(** The loop of writei(); [src] are the bytes still to be written.  The result
    is the final [off]. *)
Fixpoint writei_loop (ip : nat) (src : list Z) (off left : Z) (fuel : nat) : FS Z :=
  if 0 <? left then
    match fuel with
    | O => nofuel
    | S fuel' =>
        i ← geti ip;
        x ← bmap ip (off / BSIZE);
        bp ← onb (t_bread (idev i) x);
        d ← onb (t_data bp);
        let m := left `min` (BSIZE - off mod BSIZE) in
        (if Z.of_nat (length src) <? m then undef else mret tt) ;;
        onb (t_setdata bp (put_bytes d (Z.to_nat (off mod BSIZE)) (take (Z.to_nat m) src))) ;;
        onb (t_log_write bp) ;;
        onb (t_brelse bp) ;;
        writei_loop ip (drop (Z.to_nat m) src) (u32 (off + m)) (left - m) fuel'
    end
  else mret off.

Definition writei (ip : nat) (src : list Z) (off n : Z) : FS Z :=
  i ← geti ip;
  if itype i =? T_DEV then
    match devrow i ≫= dwrite with
    | None => mret (-1)
    | Some f => f ip src (s32 n)
    end
  else if (isize i <? off) || (u32 (off + n) <? off) then mret (-1) else
  if MAXFILE * BSIZE <? u32 (off + n) then mret (-1) else
  off ← writei_loop ip src off n (io_fuel n);
  i ← geti ip;
  (if (0 <? n) && (isize i <? off) then
     modi ip (fun i => i <| isize := off |>) ;;
     iupdate ip
   else mret tt) ;;
  mret (s32 n).

(** ** Directories *)

Definition namecmp (s t : list Z) : FS Z := of_option (strncmp s t (Z.to_nat DIRSIZ)).

Fixpoint dirlookup_loop (dp : nat) (name : list Z) (off : Z) (fuel : nat) : FS (option (nat * Z)) :=
  i ← geti dp;
  if off <? isize i then
    match fuel with
    | O => nofuel
    | S fuel' =>
        r ← readi dp off 16;
        if negb (r.1 =? 16) then panic "dirlookup read" else
        let de := get_dirent r.2 in
        if de_inum de =? 0 then dirlookup_loop dp name (u32 (off + 16)) fuel' else
        c ← namecmp name (de_name de);
        if c =? 0 then
          ip ← iget (idev i) (de_inum de);
          mret (Some (ip, off))
        else dirlookup_loop dp name (u32 (off + 16)) fuel'
    end
  else mret None.

(** The entry's inode and its offset. *)
Definition dirlookup (dp : nat) (name : list Z) : FS (option (nat * Z)) :=
  i ← geti dp;
  if negb (itype i =? T_DIR) then panic "dirlookup not DIR" else
  dirlookup_loop dp name 0 (S (Z.to_nat (isize i / 16))).

Fixpoint empty_dirent (dp : nat) (off : Z) (fuel : nat) : FS Z :=
  i ← geti dp;
  if u32 off <? isize i then
    match fuel with
    | O => nofuel
    | S fuel' =>
        r ← readi dp (u32 off) 16;
        if negb (r.1 =? 16) then panic "dirlink read" else
        if de_inum (get_dirent r.2) =? 0 then mret off
        else empty_dirent dp (s32 (off + 16)) fuel'
    end
  else mret off.

Definition dirlink (dp : nat) (name : list Z) (inum : Z) : FS Z :=
  o ← dirlookup dp name;
  match o with
  | Some (ip, _) => iput ip ;; mret (-1)
  | None =>
      i ← geti dp;
      off ← empty_dirent dp 0 (S (Z.to_nat (isize i / 16)));
      nm ← of_option (strncpy (replicate (Z.to_nat DIRSIZ) 0) name DIRSIZ);
      n ← writei dp (put_dirent (mkdirent (u16 inum) nm)) (u32 off) 16;
      if negb (n =? 16) then panic "dirlink" else mret 0
  end.

(** ** Paths *)

Fixpoint skip_slashes (path : list Z) : option (list Z) :=
  match path with
  | [] => None
  | c :: path' => if c =? 47 then skip_slashes path' else Some path
  end.

(** The element at the start of [path] and what follows it. *)
Fixpoint span_elem (path : list Z) : option (list Z * list Z) :=
  match path with
  | [] => None
  | c :: path' =>
      if (c =? 47) || (c =? 0) then Some ([], path)
      else '(s, rest) ← span_elem path'; Some (c :: s, rest)
  end.

(** The rest of the path, null when there is no element, and the contents of
    [name]; undefined when the path is not terminated. *)
Definition skipelem (path name : list Z) : option (option (list Z) * list Z) :=
  path ← skip_slashes path;
  if bool_decide (head path = Some 0) then Some (None, name) else
  '(s, path) ← span_elem path;
  let name :=
    if DIRSIZ <=? Z.of_nat (length s) then put_bytes name 0 (take (Z.to_nat DIRSIZ) s)
    else put_bytes name 0 (s ++ [0]) in
  path ← skip_slashes path;
  Some (Some path, name).

(** [while((path = skipelem(path, name)) != 0)]; the result is the inode and
    the last name. *)
Fixpoint namex_loop (ip : nat) (path name : list Z) (nameiparent : bool) (fuel : nat)
  : FS (option nat * list Z) :=
  o ← of_option (skipelem path name);
  match o with
  | (None, name) =>
      if nameiparent then iput ip ;; mret (None, name) else mret (Some ip, name)
  | (Some path, name) =>
      match fuel with
      | O => nofuel
      | S fuel' =>
          ilock (Some ip) ;;
          i ← geti ip;
          if negb (itype i =? T_DIR) then iunlockput ip ;; mret (None, name) else
          if nameiparent && bool_decide (head path = Some 0) then
            iunlock (Some ip) ;; mret (Some ip, name)
          else
            next ← dirlookup ip name;
            match next with
            | None => iunlockput ip ;; mret (None, name)
            | Some (next, _) => iunlockput ip ;; namex_loop next path name nameiparent fuel'
            end
      end
  end.

(** [cwd] is [myproc()->cwd]. *)
Definition namex (cwd : nat) (path : list Z) (nameiparent : bool) (name : list Z)
  : FS (option nat * list Z) :=
  c ← of_option (head path);
  ip ← (if c =? 47 then iget ROOTDEV ROOTINO else idup cwd);
  namex_loop ip path name nameiparent (length path).

Definition namei (cwd : nat) (path : list Z) : FS (option nat) :=
  r ← namex cwd path false (replicate (Z.to_nat DIRSIZ) 0);
  mret r.1.

Definition nameiparent (cwd : nat) (path name : list Z) : FS (option nat * list Z) :=
  namex cwd path true name.
End Fs.
