(* ===== verification/FsLogic.v ===== *)
(** * Reasoning about file system code

    [fwp m ic a Q]: from an inode cache [ic] and a block store with the abstract
    state [a], [m] runs to the end without a disk write, and its result and the
    new states satisfy [Q].  The rules are those of the operations of the block
    store; [budget] accounts for the blocks of the transaction. *)

From stdpp Require Import prelude gmap strings list.
From Stdlib Require Import ZArith Lia.
From S2P Require Import Prelude Sleeplock Bio BioSpec Layout Log LogSpec Store Fs.

(** Block [x] written with contents [d] in the transaction. *)
Definition a_write (a : atx) (x : Z) (d : list Z) : atx :=
  a <| tview ::= fun v => tset v x d |> <| tlog ::= fun l => l ∪ {[x]} |>.

Lemma tset_same v x d : tset v x d x = d.
Proof. unfold tset. by rewrite Z.eqb_refl. Qed.

Lemma tset_other v x d y : y <> x -> tset v x d y = v y.
Proof. intros Hne. unfold tset. by destruct (Z.eqb_spec y x). Qed.

(** The number of blocks the operation may write. *)
Class Cap := cap : nat.

(** A buffer can be taken. *)
Definition read_room (a : atx) : Prop := (size (tlog a) + size (theld a) < NBUF)%nat.

Section Budget.
Context {K : Cap}.

(** The transaction has room for [n] blocks besides those of [P], which may be
    written any number of times. *)
Record budget (P : gset Z) (a : atx) (n : nat) : Prop := {
  bg_cap : (size (tlog a ∪ P) + n <= cap)%nat;
  bg_cache : (size (tlog a ∪ P) + n <= 26)%nat;
  bg_log : Z.of_nat (size (tlog a ∪ P) + n) < tlen a - 1;
  bg_held : (size (theld a) <= 2)%nat;
  bg_ops : 1 <= tops a;
}.

Lemma budget_log_room P a n : budget P a n -> log_room a.
Proof.
  intros [_ Hc Hl _ _]. assert (size (tlog a) <= size (tlog a ∪ P))%nat by (apply subseteq_size; set_solver).
  split; lia.
Qed.

Lemma budget_read_room P a n : budget P a n -> read_room a.
Proof.
  intros [_ Hc _ Hh _]. assert (size (tlog a) <= size (tlog a ∪ P))%nat by (apply subseteq_size; set_solver).
  unfold read_room, NBUF. lia.
Qed.

Lemma budget_le P a n m : budget P a n -> (m <= n)%nat -> budget P a m.
Proof. intros [] Hm. split; try done; lia. Qed.

(** Writing a block of [P] is free, another one costs one. *)
Lemma budget_free P a n x d : budget P a n -> x ∈ tlog a ∪ P -> budget P (a_write a x d) n.
Proof.
  intros [Hk Hc Hl Hh Ho] Hx. assert (He : tlog (a_write a x d) ∪ P = tlog a ∪ P) by (simpl; set_solver).
  split; rewrite ?He; done.
Qed.

Lemma budget_write P a n x d : budget P a (S n) -> budget P (a_write a x d) n.
Proof.
  intros [Hk Hc Hl Hh Ho]. assert (He : (size (tlog (a_write a x d) ∪ P) <= S (size (tlog a ∪ P)))%nat).
  { replace (tlog (a_write a x d) ∪ P) with ((tlog a ∪ P) ∪ {[x]}) by (simpl; set_solver).
    destruct (decide (x ∈ tlog a ∪ P)).
    - replace (tlog a ∪ P ∪ {[x]}) with (tlog a ∪ P) by set_solver. lia.
    - rewrite size_union, size_singleton by set_solver. lia. }
  split; try done; simpl in *; lia.
Qed.

(** A block of the transaction stays in it. *)
Lemma log_keep P a x d y : y ∈ tlog a ∪ P -> y ∈ tlog (a_write a x d) ∪ P.
Proof. simpl. set_solver. Qed.

Lemma log_mono a x d y : y ∈ tlog a -> y ∈ tlog (a_write a x d).
Proof. simpl. set_solver. Qed.

Lemma log_self a x d : x ∈ tlog (a_write a x d).
Proof. simpl. set_solver. Qed.

End Budget.

Section Logic.
Context {B : Type} `{BlockStoreOk B} (SB : superblock).
Implicit Types (ic : list inode) (a : atx).

Definition fwp {A} (m : M (fsstate B) A) ic a (Q : A -> list inode -> atx -> Prop) : Prop :=
  forall b t, t_rel b a -> exists r ev b' ic' a',
    m (Ctx [] t) (mkfs ic SB b) = Ok r (Ctx [] (t ++ ev)) (mkfs ic' SB b') /\
    disk_writes ev = [] /\ t_rel b' a' /\ Q r ic' a'.

Lemma fwp_ret {A} (r : A) ic a (Q : A -> list inode -> atx -> Prop) : Q r ic a -> fwp (mret r) ic a Q.
Proof. intros HQ b t Hr. exists r, [], b, ic, a. by rewrite app_nil_r. Qed.

Lemma fwp_bind {A A'} (m : M (fsstate B) A) (f : A -> M (fsstate B) A') ic a Q :
  fwp m ic a (fun r ic' a' => fwp (f r) ic' a' Q) -> fwp (m ≫= f) ic a Q.
Proof.
  intros Hm b t Hr. destruct (Hm b t Hr) as (r & ev & b' & ic' & a' & Hrun & Hw & Hr' & Hf).
  destruct (Hf b' (t ++ ev) Hr') as (r2 & ev2 & b2 & ic2 & a2 & Hrun2 & Hw2 & Hr2 & HQ).
  exists r2, (ev ++ ev2), b2, ic2, a2. rewrite bindE, Hrun. cbn [obind].
  rewrite Hrun2, app_assoc, disk_writes_app, Hw, Hw2. done.
Qed.

Lemma fwp_mono {A} (m : M (fsstate B) A) ic a (Q Q' : A -> list inode -> atx -> Prop) :
  fwp m ic a Q -> (forall r ic' a', Q r ic' a' -> Q' r ic' a') -> fwp m ic a Q'.
Proof.
  intros Hm HQ b t Hr. destruct (Hm b t Hr) as (r & ev & b' & ic' & a' & Hrun & Hw & Hr' & Hf).
  exists r, ev, b', ic', a'. auto.
Qed.

(** A fact every related store gives. *)
Lemma fwp_rel {A} (m : M (fsstate B) A) ic a Q :
  (forall b, t_rel b a -> fwp m ic a Q) -> fwp m ic a Q.
Proof. intros Hm b t Hr. by apply (Hm b). Qed.

Lemma fwp_getsb ic a (Q : superblock -> list inode -> atx -> Prop) : Q SB ic a -> fwp getsb ic a Q.
Proof. intros HQ b t Hr. exists SB, [], b, ic, a. by rewrite app_nil_r. Qed.

Lemma fwp_geti ip i ic a (Q : inode -> list inode -> atx -> Prop) :
  ic !! ip = Some i -> Q i ic a -> fwp (geti ip) ic a Q.
Proof.
  intros Hi HQ b t Hr. exists i, [], b, ic, a. rewrite app_nil_r. unfold geti. mrun. simpl. by rewrite Hi.
Qed.

Lemma fwp_modi ip i f ic a (Q : unit -> list inode -> atx -> Prop) :
  ic !! ip = Some i -> Q tt (<[ip := f i]> ic) a -> fwp (modi ip f) ic a Q.
Proof.
  intros Hi HQ b t Hr. exists tt, [], b, (<[ip := f i]> ic), a. rewrite app_nil_r.
  unfold modi, geti. mrun. simpl. by rewrite Hi.
Qed.

Lemma fwp_option {A} (o : option A) (r : A) ic a (Q : A -> list inode -> atx -> Prop) :
  o = Some r -> Q r ic a -> fwp (of_option o) ic a Q.
Proof. intros -> HQ. by apply fwp_ret. Qed.

(** ** The operations of the store *)

Lemma onb_run {A} (m : M B A) c ic b r c' b' :
  m c b = Ok r c' b' -> onb m c (mkfs ic SB b) = Ok r c' (mkfs ic SB b').
Proof. intros Hm. unfold onb, zoom. simpl. by rewrite Hm. Qed.

Lemma fwp_bread x ic a (Q : nat -> list inode -> atx -> Prop) :
  usable a x -> t_unheld a x -> read_room a ->
  (forall i, theld a !! i = None -> Q i ic (a <| theld ::= <[i := (x, tview a x)]> |>)) ->
  fwp (onb (t_bread ROOTDEV x)) ic a Q.
Proof.
  intros Hx Hu Hs HQ b t Hr. destruct (t_bread_ok b a x t Hr Hx Hu Hs) as (i & b' & ev & Hrun & Hw & Hi & Hr').
  exists i, ev, b', ic, (a <| theld ::= <[i := (x, tview a x)]> |>).
  split_and!; [by apply onb_run|done|exact Hr'|by apply HQ].
Qed.

Lemma fwp_data i x d ic a (Q : list Z -> list inode -> atx -> Prop) :
  theld a !! i = Some (x, d) -> (length d = 512%nat -> Q d ic a) -> fwp (onb (t_data i)) ic a Q.
Proof.
  intros Hi HQ b t Hr. destruct (t_data_ok b a i x d (Ctx [] t) Hr Hi) as (Hrun & Hlen & _).
  exists d, [], b, ic, a. rewrite app_nil_r. split_and!; [by apply onb_run|done|done|by apply HQ].
Qed.

Lemma fwp_setdata i x d d' ic a (Q : unit -> list inode -> atx -> Prop) :
  theld a !! i = Some (x, d) -> length d' = 512%nat -> Q tt ic (a <| theld ::= <[i := (x, d')]> |>) ->
  fwp (onb (t_setdata i d')) ic a Q.
Proof.
  intros Hi Hl HQ b t Hr. destruct (t_setdata_ok b a i x d d' (Ctx [] t) Hr Hi Hl) as (b' & Hrun & Hr').
  exists tt, [], b', ic, (a <| theld ::= <[i := (x, d')]> |>). rewrite app_nil_r.
  split_and!; [by apply onb_run|done|exact Hr'|done].
Qed.

Lemma fwp_log_write i x d ic a (Q : unit -> list inode -> atx -> Prop) :
  theld a !! i = Some (x, d) -> log_room a -> 1 <= tops a -> Q tt ic (a <| tlog ::= fun l => l ∪ {[x]} |>) ->
  fwp (onb (t_log_write i)) ic a Q.
Proof.
  intros Hi Hl Ho HQ b t Hr. destruct (t_log_write_ok b a i x d t Hr Hi Hl Ho) as (b' & Hrun & Hr').
  exists tt, [], b', ic, (a <| tlog ::= fun l => l ∪ {[x]} |>). rewrite app_nil_r.
  split_and!; [by apply onb_run|done|exact Hr'|done].
Qed.

Lemma fwp_brelse i x d ic a (Q : unit -> list inode -> atx -> Prop) :
  theld a !! i = Some (x, d) -> x ∈ tlog a \/ d = tview a x ->
  Q tt ic (a <| theld ::= delete i |> <| tview ::= fun v => tset v x d |>) ->
  fwp (onb (t_brelse i)) ic a Q.
Proof.
  intros Hi Hx HQ b t Hr. destruct (t_brelse_ok b a i x d t Hr Hi Hx) as (b' & ev & Hrun & Hw & Hr').
  exists tt, ev, b', ic, (a <| theld ::= delete i |> <| tview ::= fun v => tset v x d |>).
  split_and!; [by apply onb_run|done|exact Hr'|done].
Qed.

(** Releasing a buffer that was only read. *)
Lemma fwp_brelse_clean i x ic a (Q : unit -> list inode -> atx -> Prop) :
  theld a !! i = None -> Q tt ic a ->
  fwp (onb (t_brelse i)) ic (a <| theld ::= <[i := (x, tview a x)]> |>) Q.
Proof.
  intros Hi HQ b t Hr. destruct (t_brelse_ok b _ i x (tview a x) t Hr) as (b' & ev & Hrun & Hw & Hr');
    [simpl; apply lookup_insert_eq|by right|].
  exists tt, ev, b', ic, a. split_and!; [by apply onb_run|done| |done].
  apply (t_view_ext _ _ (tview a)) in Hr'.
  - destruct a. cbn in *. by rewrite delete_insert_id in Hr' by done.
  - intros y _. simpl. destruct (decide (y = x)) as [->|]; [by rewrite tset_same|by rewrite tset_other].
Qed.

(** Writing back the contents of a buffer. *)
Lemma fwp_store_block {A} i x d d' (k : M (fsstate B) A) ic a Q :
  theld a !! i = None -> length d' = 512%nat -> log_room a -> 1 <= tops a ->
  fwp k ic (a_write a x d') Q ->
  fwp (onb (t_setdata i d') ;; onb (t_log_write i) ;; onb (t_brelse i) ;; k) ic
    (a <| theld ::= <[i := (x, d)]> |>) Q.
Proof.
  intros Hi Hl Hr Ho HQ. apply fwp_bind. eapply fwp_setdata; [apply lookup_insert_eq|done|].
  apply fwp_bind. eapply fwp_log_write; [apply lookup_insert_eq|exact Hr|exact Ho|].
  apply fwp_bind. eapply fwp_brelse; [apply lookup_insert_eq|left; simpl; set_solver|].
  match goal with |- fwp _ _ ?a' _ => replace a' with (a_write a x d'); [done|] end.
  destruct a. cbn in *. by rewrite insert_insert_eq, delete_insert_id.
Qed.

Lemma fwp_bind_ret {A} (m : M (fsstate B) A) ic a Q : fwp (m ≫= mret) ic a Q -> fwp m ic a Q.
Proof.
  intros Hm b t Hr. destruct (Hm b t Hr) as (r & ev & b' & ic' & a' & Hrun & Hrest).
  exists r, ev, b', ic', a'. split; [|done]. rewrite bindE in Hrun. by destruct (m _ _).
Qed.

(** The same when it is the last thing done. *)
Lemma fwp_store_block_last i x d d' ic a (Q : unit -> list inode -> atx -> Prop) :
  theld a !! i = None -> length d' = 512%nat -> log_room a -> 1 <= tops a ->
  Q tt ic (a_write a x d') ->
  fwp (onb (t_setdata i d') ;; onb (t_log_write i) ;; onb (t_brelse i)) ic
    (a <| theld ::= <[i := (x, d)]> |>) Q.
Proof.
  intros Hi Hl Hr Ho HQ. apply fwp_bind. eapply fwp_setdata; [apply lookup_insert_eq|done|].
  apply fwp_bind. eapply fwp_log_write; [apply lookup_insert_eq|exact Hr|exact Ho|].
  eapply fwp_brelse; [apply lookup_insert_eq|left; simpl; set_solver|].
  match goal with |- Q _ _ ?a' => replace a' with (a_write a x d'); [done|] end.
  destruct a. cbn in *. by rewrite insert_insert_eq, delete_insert_id.
Qed.
End Logic.
