(* ===== verification/FsAlloc.v ===== *)
(** * The block allocator (src/fs.c: balloc, bfree, bzero)

    [marked v b] says that the free map in the contents [v] has the bit of block
    [b] set.  balloc() returns the first block that is not marked, zeroed and
    marked; bfree() clears the mark. *)

From stdpp Require Import prelude gmap strings list.
From Stdlib Require Import ZArith Lia.
From S2P Require Import Prelude Sleeplock Bio BioSpec Layout Log LogSpec Store Fs FsLogic.

(** ** The free map *)

(** The block of the free map that holds the bit of [b], and its position. *)
Definition bmap_block (SB : superblock) (b : Z) : Z := sb_bmapstart SB + b / 4096.
Definition bit_of (d : list Z) (bi : Z) : bool := Z.testbit (byte_at d (bi / 8)) (bi mod 8).

Definition marked (SB : superblock) (v : Z -> list Z) (b : Z) : bool :=
  bit_of (v (bmap_block SB b)) (b mod 4096).

(** The contents of a block of the free map with a bit set or cleared. *)
Definition set_bit (d : list Z) (bi : Z) : list Z :=
  set_byte d (bi / 8) (u8 (Z.lor (byte_at d (bi / 8)) (Z.shiftl 1 (bi mod 8)))).
Definition clear_bit (d : list Z) (bi : Z) : list Z :=
  set_byte d (bi / 8) (u8 (Z.land (byte_at d (bi / 8)) (Z.lnot (Z.shiftl 1 (bi mod 8))))).

Lemma shiftl_1 n : 0 <= n -> Z.shiftl 1 n = 2 ^ n.
Proof. intros Hn. by rewrite Z.shiftl_1_l. Qed.

Lemma bit_of_land d bi :
  (Z.land (byte_at d (bi / 8)) (Z.shiftl 1 (bi mod 8)) =? 0) = negb (bit_of d bi).
Proof.
  pose proof (Z.mod_pos_bound bi 8 ltac:(lia)). rewrite shiftl_1 by lia.
  unfold bit_of. rewrite <- land_pow2 by lia. by rewrite negb_involutive.
Qed.

Lemma byte_at_set d i j v :
  0 <= i < Z.of_nat (length d) -> 0 <= j ->
  byte_at (set_byte d i v) j = if j =? i then v else byte_at d j.
Proof.
  intros Hi Hj. unfold byte_at, set_byte, aget. destruct (Z.ltb_spec j 0); [lia|].
  destruct (Z.eqb_spec j i) as [->|Hne]; [by rewrite list_lookup_insert_eq by lia|].
  by rewrite list_lookup_insert_ne by lia.
Qed.

Lemma testbit_pow2 n m : 0 <= n -> 0 <= m -> Z.testbit (2 ^ n) m = (m =? n).
Proof.
  intros Hn Hm. destruct (Z.eqb_spec m n) as [->|Hne]; [by apply Z.pow2_bits_true|by apply Z.pow2_bits_false, not_eq_sym].
Qed.

Lemma testbit_u8 z n : 0 <= n < 8 -> Z.testbit (u8 z) n = Z.testbit z n.
Proof. intros Hn. unfold u8. by rewrite Z.mod_pow2_bits_low by lia. Qed.

Lemma bit_split bi c : (c / 8 =? bi / 8) && (c mod 8 =? bi mod 8) = (c =? bi).
Proof.
  pose proof (Z.div_mod bi 8 ltac:(lia)). pose proof (Z.div_mod c 8 ltac:(lia)).
  destruct (Z.eqb_spec (c / 8) (bi / 8)), (Z.eqb_spec (c mod 8) (bi mod 8)), (Z.eqb_spec c bi); try done; subst; lia.
Qed.

Section Bits.
Context (d : list Z) (bi : Z) (Hd : length d = 512%nat) (Hbi : 0 <= bi < 4096).

Lemma bit_byte : 0 <= bi / 8 < Z.of_nat (length d) /\ 0 <= bi mod 8 < 8.
Proof. pose proof (Z.div_mod bi 8 ltac:(lia)). pose proof (Z.mod_pos_bound bi 8 ltac:(lia)). lia. Qed.

Lemma bit_of_set c : 0 <= c -> bit_of (set_bit d bi) c = (c =? bi) || bit_of d c.
Proof.
  intros Hc. destruct bit_byte as [Hb Hm]. unfold bit_of, set_bit.
  rewrite byte_at_set by (done || apply Z.div_pos; lia). pose proof (Z.mod_pos_bound c 8 ltac:(lia)).
  rewrite <- (bit_split bi c). destruct (Z.eqb_spec (c / 8) (bi / 8)) as [He|]; [|done].
  rewrite testbit_u8, Z.lor_spec, shiftl_1, testbit_pow2 by lia. rewrite <- He. simpl. apply orb_comm.
Qed.

Lemma bit_of_clear c : 0 <= c -> bit_of (clear_bit d bi) c = negb (c =? bi) && bit_of d c.
Proof.
  intros Hc. destruct bit_byte as [Hb Hm]. unfold bit_of, clear_bit.
  rewrite byte_at_set by (done || apply Z.div_pos; lia). pose proof (Z.mod_pos_bound c 8 ltac:(lia)).
  rewrite <- (bit_split bi c). destruct (Z.eqb_spec (c / 8) (bi / 8)) as [He|]; [|done].
  rewrite testbit_u8, Z.land_spec, Z.lnot_spec, shiftl_1, testbit_pow2 by lia. rewrite <- He. simpl. apply andb_comm.
Qed.

Lemma length_set_bit : length (set_bit d bi) = 512%nat.
Proof. unfold set_bit, set_byte. by rewrite length_insert. Qed.

Lemma length_clear_bit : length (clear_bit d bi) = 512%nat.
Proof. unfold clear_bit, set_byte. by rewrite length_insert. Qed.
End Bits.

(** ** The search *)

Lemma free_bit_spec d b size bi n :
  0 <= b -> 0 <= bi -> b + bi + Z.of_nat n < 2 ^ 32 ->
  match free_bit d b size bi n with
  | Some c => bi <= c < bi + Z.of_nat n /\ b + c < size /\ bit_of d c = false /\
              forall c', bi <= c' < c -> bit_of d c' = true
  | None => forall c', bi <= c' < bi + Z.of_nat n -> b + c' < size -> bit_of d c' = true
  end.
Proof.
  revert bi. induction n as [|n IH]; intros bi Hb Hbi Hlt; cbn [free_bit]; [intros; lia|].
  rewrite u32_small by lia. rewrite bit_of_land.
  destruct (Z.ltb_spec (b + bi) size) as [Hs|Hs]; [|intros; lia].
  destruct (bit_of d bi) eqn:Hbit; cbn [negb].
  - specialize (IH (bi + 1) Hb ltac:(lia) ltac:(lia)). destruct (free_bit d b size (bi + 1) n) as [c|].
    + destruct IH as (Hc & Hcs & Hcb & Hall). split_and!; try done; try lia.
      intros c' Hc'. destruct (decide (c' = bi)) as [->|]; [done|]. apply Hall. lia.
    + intros c' Hc' Hcs. destruct (decide (c' = bi)) as [->|]; [done|]. apply IH; lia.
  - split_and!; try done; try lia. 
Qed.

(** ** The layout of the disk *)

(** The first data block. *)
Definition dstart (SB : superblock) : Z := sb_bmapstart SB + sb_size SB / 4096 + 1.

Definition bmap_set (SB : superblock) : gset Z :=
  list_to_set (seqZ (sb_bmapstart SB) (sb_size SB / 4096 + 1)).

(** The log, the inodes, the free map and the data follow each other. *)
Record layout (SB : superblock) (a : atx) : Prop := {
  ly_size : sb_size SB <= tsize a < 2 ^ 31;
  ly_log : 0 <= tstart a /\ 0 <= tlen a /\ tstart a + tlen a <= sb_inodestart SB;
  ly_inodes : 0 <= sb_ninodes SB < 2 ^ 31 /\ sb_inodestart SB + sb_ninodes SB / 8 < sb_bmapstart SB;
  ly_data : dstart SB <= sb_size SB;
}.

(** The state of the disk between the operations on inodes: everything before
    the data is marked, so is every block in use, and the free map is not held. *)
Record fsok (SB : superblock) (a : atx) : Prop := {
  fo_layout : layout SB a;
  fo_meta : forall b, 0 <= b < dstart SB -> marked SB (tview a) b = true;
  fo_bmap : forall x, x ∈ bmap_set SB -> t_unheld a x;
  fo_held : forall i x d, theld a !! i = Some (x, d) -> marked SB (tview a) x = true;
}.

Section Alloc.
Context {B : Type} `{BlockStoreOk B} {K : Cap} (SB : superblock).
Implicit Types (ic : list inode) (a : atx).

Lemma elem_of_bmap_set x :
  x ∈ bmap_set SB <-> sb_bmapstart SB <= x <= sb_bmapstart SB + sb_size SB / 4096.
Proof. unfold bmap_set. rewrite elem_of_list_to_set, elem_of_seqZ. lia. Qed.

Lemma bmap_block_in b : 0 <= b < sb_size SB -> bmap_block SB b ∈ bmap_set SB.
Proof.
  intros Hb. apply elem_of_bmap_set. unfold bmap_block.
  pose proof (Z.div_le_mono b (sb_size SB) 4096 ltac:(lia) ltac:(lia)). pose proof (Z.div_pos b 4096 ltac:(lia) ltac:(lia)). lia.
Qed.

Lemma layout_bounds a : layout SB a ->
  0 <= sb_inodestart SB < 2 ^ 31 /\ 0 <= sb_bmapstart SB < 2 ^ 31 /\ 0 <= sb_size SB < 2 ^ 31 /\
  0 < dstart SB <= sb_size SB /\ 0 <= sb_ninodes SB < 2 ^ 31 /\ 0 <= sb_size SB / 4096.
Proof.
  intros [Hs Hl Hi Hd]. unfold dstart in *.
  assert (0 <= sb_ninodes SB / 8) by (apply Z.div_pos; lia).
  assert (0 <= sb_size SB / 4096) by (pose proof (Z.div_mod (sb_size SB) 4096 ltac:(lia)); pose proof (Z.mod_pos_bound (sb_size SB) 4096 ltac:(lia)); lia).
  pose proof (Z.div_mod (sb_ninodes SB) 8 ltac:(lia)). pose proof (Z.mod_pos_bound (sb_ninodes SB) 8 ltac:(lia)). lia.
Qed.

Lemma usable_bmap a x : layout SB a -> x ∈ bmap_set SB -> usable a x.
Proof.
  intros Hl Hx%elem_of_bmap_set. pose proof (layout_bounds a Hl). destruct Hl as [Hs Hl Hi Hd].
  assert (0 <= sb_ninodes SB / 8) by (apply Z.div_pos; lia). unfold dstart in *. split; lia.
Qed.

Lemma usable_data a x : layout SB a -> dstart SB <= x < sb_size SB -> usable a x.
Proof.
  intros Hl Hx. pose proof (layout_bounds a Hl). destruct Hl as [Hs Hl Hi Hd].
  assert (0 <= sb_ninodes SB / 8) by (apply Z.div_pos; lia). unfold dstart in *. split; lia.
Qed.

Lemma BBLOCK_eq a b : layout SB a -> 0 <= b < sb_size SB -> BBLOCK b SB = bmap_block SB b.
Proof.
  intros Hl Hb. pose proof (layout_bounds a Hl). unfold BBLOCK, bmap_block, BPB.
  rewrite Z.quot_div_nonneg by lia. rewrite u32_small; [lia|].
  pose proof (Z.div_pos b 4096 ltac:(lia) ltac:(lia)). pose proof (Z.div_le_upper_bound b 4096 b ltac:(lia) ltac:(lia)). lia.
Qed.

(** ** Allocation *)

Definition a_alloc (a : atx) (b : Z) : atx :=
  a_write (a_write a (bmap_block SB b) (set_bit (tview a (bmap_block SB b)) (b mod 4096))) b (replicate 512 0).

Lemma fsok_layout a a' :
  layout SB a -> tsize a' = tsize a -> tstart a' = tstart a -> tlen a' = tlen a -> layout SB a'.
Proof. intros [] H1 H2 H3. by split; rewrite ?H1, ?H2, ?H3. Qed.

Lemma mod_div_eq b c : c / 4096 = b / 4096 -> c mod 4096 = b mod 4096 -> c = b.
Proof. intros H1 H2. pose proof (Z.div_mod b 4096 ltac:(lia)). pose proof (Z.div_mod c 4096 ltac:(lia)). lia. Qed.

(** Marking a block in the contents. *)
Lemma marked_set v b c :
  length (v (bmap_block SB b)) = 512%nat -> 0 <= b -> 0 <= c ->
  marked SB (tset v (bmap_block SB b) (set_bit (v (bmap_block SB b)) (b mod 4096))) c =
  (c =? b) || marked SB v c.
Proof.
  intros Hlen Hb Hc. unfold marked. pose proof (Z.mod_pos_bound b 4096 ltac:(lia)). pose proof (Z.mod_pos_bound c 4096 ltac:(lia)).
  unfold tset. destruct (Z.eqb_spec (bmap_block SB c) (bmap_block SB b)) as [He|He].
  - rewrite bit_of_set by lia. rewrite He. f_equal. unfold bmap_block in He.
    destruct (Z.eqb_spec (c mod 4096) (b mod 4096)), (Z.eqb_spec c b); try done; [|congruence].
    exfalso. assert (c = b) by (apply mod_div_eq; lia). done.
  - destruct (Z.eqb_spec c b) as [->|]; done.
Qed.

Lemma marked_clear v b c :
  length (v (bmap_block SB b)) = 512%nat -> 0 <= b -> 0 <= c ->
  marked SB (tset v (bmap_block SB b) (clear_bit (v (bmap_block SB b)) (b mod 4096))) c =
  negb (c =? b) && marked SB v c.
Proof.
  intros Hlen Hb Hc. unfold marked. pose proof (Z.mod_pos_bound b 4096 ltac:(lia)). pose proof (Z.mod_pos_bound c 4096 ltac:(lia)).
  unfold tset. destruct (Z.eqb_spec (bmap_block SB c) (bmap_block SB b)) as [He|He].
  - rewrite bit_of_clear by lia. rewrite He. f_equal. unfold bmap_block in He.
    destruct (Z.eqb_spec (c mod 4096) (b mod 4096)), (Z.eqb_spec c b); try done; [|congruence].
    exfalso. assert (c = b) by (apply mod_div_eq; lia). done.
  - destruct (Z.eqb_spec c b) as [->|]; done.
Qed.

(** Other blocks do not matter to the marks. *)
Lemma marked_other v x d c :
  0 <= c < sb_size SB -> x ∉ bmap_set SB -> marked SB (tset v x d) c = marked SB v c.
Proof.
  intros Hc Hx. unfold marked. rewrite tset_other; [done|]. intros <-. by apply Hx, bmap_block_in.
Qed.

(** [b0] is the first block that is not marked. *)
Record first_unmarked (a : atx) (b0 : Z) : Prop := {
  fu_range : 0 <= b0 < sb_size SB;
  fu_free : marked SB (tview a) b0 = false;
  fu_first : forall c, 0 <= c < b0 -> marked SB (tview a) c = true;
}.

Lemma unmarked_data a b : fsok SB a -> 0 <= b < sb_size SB -> marked SB (tview a) b = false -> dstart SB <= b < sb_size SB.
Proof.
  intros Hf Hb Hm. destruct (Z.lt_ge_cases b (dstart SB)); [|lia].
  rewrite (fo_meta _ _ Hf b) in Hm; [done|lia].
Qed.

Lemma data_not_bmap b : dstart SB <= b -> b ∉ bmap_set SB.
Proof. unfold dstart. rewrite elem_of_bmap_set. lia. Qed.

Lemma view_len bs a x : t_rel bs a -> usable a x -> length (tview a x) = 512%nat.
Proof. apply t_view_length. Qed.

(** What an allocation changes. *)
Lemma marked_alloc a b c :
  layout SB a -> (forall x, usable a x -> length (tview a x) = 512%nat) ->
  dstart SB <= b < sb_size SB -> 0 <= c < sb_size SB ->
  marked SB (tview (a_alloc a b)) c = (c =? b) || marked SB (tview a) c.
Proof.
  intros Hl Hlen Hb Hc. pose proof (layout_bounds a Hl). unfold a_alloc. simpl.
  rewrite marked_other by (done || apply data_not_bmap; lia).
  apply marked_set; [|lia|lia]. apply Hlen, usable_bmap; [done|]. apply bmap_block_in. lia.
Qed.

Lemma view_alloc a b x :
  x <> b -> x <> bmap_block SB b -> tview (a_alloc a b) x = tview a x.
Proof. intros H1 H2. unfold a_alloc. simpl. by rewrite !tset_other. Qed.

Lemma fsok_alloc a b :
  fsok SB a -> (forall x, usable a x -> length (tview a x) = 512%nat) ->
  dstart SB <= b < sb_size SB -> (forall i x d, theld a !! i = Some (x, d) -> 0 <= x < sb_size SB) ->
  fsok SB (a_alloc a b).
Proof.
  intros [Hl Hm Hu Hh] Hlen Hb Hr. pose proof (layout_bounds a Hl). split.
  - by eapply fsok_layout.
  - intros c Hc. rewrite marked_alloc by (done || lia). rewrite Hm by lia. apply orb_true_r.
  - exact Hu.
  - intros i x d Hi. rewrite marked_alloc by (done || by eapply Hr). rewrite (Hh i x d Hi). apply orb_true_r.
Qed.

Lemma fwp_bzero P b n ic a (Q : unit -> list inode -> atx -> Prop) :
  usable a b -> t_unheld a b -> budget P a n -> 0 <= b < 2 ^ 31 ->
  Q tt ic (a_write a b (replicate 512 0)) -> fwp SB (bzero ROOTDEV b) ic a Q.
Proof.
  intros Hu Hn Hb Hr HQ. unfold bzero. rewrite u32_small by lia. apply fwp_bind.
  apply fwp_bread; [done|done|by eapply budget_read_room|]. intros i Hi.
  apply fwp_store_block_last; [done|apply length_replicate|by eapply budget_log_room|apply Hb|done].
Qed.

Lemma fwp_balloc_loop P b0 ic a Q n q :
  fsok SB a -> (forall x, usable a x -> length (tview a x) = 512%nat) -> first_unmarked a b0 ->
  budget P a 1 -> bmap_set SB ⊆ P -> 0 <= q -> 4096 * q <= b0 -> (Z.to_nat (b0 / 4096 - q) < n)%nat ->
  Q b0 ic (a_alloc a b0) -> fwp SB (balloc_loop ROOTDEV (4096 * q) n) ic a Q.
Proof.
  intros Hf Hlen Hfree Hbud HP. pose proof Hfree as [Hr Hm Hfirst].
  pose proof (fo_layout _ _ Hf) as Hl. pose proof (layout_bounds a Hl) as Hbnd.
  pose proof (unmarked_data a b0 Hf Hr Hm) as Hdata.
  revert q. induction n as [|n IH]; intros q Hq Hb0 Hn HQ; [lia|].
  cbn [balloc_loop]. apply fwp_bind, fwp_getsb. set (b := 4096 * q) in *.
  rewrite u32_small by lia. destruct (Z.ltb_spec b (sb_size SB)); [|lia].
  rewrite (BBLOCK_eq a b) by (done || lia).
  assert (Hin : bmap_block SB b ∈ bmap_set SB) by (apply bmap_block_in; lia).
  assert (Hbd : b / 4096 = q) by (unfold b; rewrite Z.mul_comm; by apply Z.div_mul).
  apply fwp_bind, fwp_bread; [by apply usable_bmap|by apply Hf|by eapply budget_read_room|]. intros i Hi.
  apply fwp_bind. eapply fwp_data; [apply lookup_insert_eq|]. intros Hdl. set (d := tview a (bmap_block SB b)) in *.
  assert (Hbits : forall c, 0 <= c < 4096 -> bit_of d c = marked SB (tview a) (b + c)).
  { intros c Hc. unfold marked, d, bmap_block. assert (He : (b + c) / 4096 = q).
    { unfold b. rewrite Z.mul_comm, Z.div_add_l, Z.div_small by lia. lia. }
    rewrite He, Hbd. f_equal. unfold b. rewrite Z.mul_comm, Z.add_comm, Z.mod_add, Z.mod_small by lia. done. }
  pose proof (free_bit_spec d b (sb_size SB) 0 (Z.to_nat BPB) ltac:(lia) ltac:(lia) ltac:(unfold BPB; lia)) as Hspec.
  change (Z.of_nat (Z.to_nat BPB)) with 4096 in Hspec.
  destruct (free_bit d b (sb_size SB) 0 (Z.to_nat BPB)) as [bi|].
  - destruct Hspec as (Hbi & Hsz & Hbit & Hall). rewrite Hbits in Hbit by lia.
    assert (b0 = b + bi) as ->.
    { destruct (Z.lt_trichotomy b0 (b + bi)) as [Hlt|[?|Hgt]]; [|done|].
      - specialize (Hall (b0 - b) ltac:(lia)). rewrite Hbits in Hall by lia.
        replace (b + (b0 - b)) with b0 in Hall by lia. congruence.
      - rewrite Hfirst in Hbit by lia. done. }
    assert (Hmod : (b + bi) mod 4096 = bi).
    { unfold b. rewrite Z.mul_comm, Z.add_comm, Z.mod_add, Z.mod_small by lia. done. }
    assert (Hblk : bmap_block SB (b + bi) = bmap_block SB b).
    { unfold bmap_block, b. rewrite (Z.mul_comm 4096 q), Z.div_add_l, Z.div_mul, (Z.div_small bi) by lia. lia. }
    change (set_byte d (bi / 8) _) with (set_bit d bi).
    apply fwp_store_block; [done|by apply length_set_bit|by eapply budget_log_room|apply Hbud|].
    rewrite s32_small, u32_small by lia.
    assert (Hub : t_unheld (a_write a (bmap_block SB b) (set_bit d bi)) (b + bi)).
    { intros j [x d'] Hj. simpl. intros ->. by rewrite (fo_held _ _ Hf j (b + bi) d' Hj) in Hbit. }
    apply fwp_bind. eapply (fwp_bzero P _ 1); [by apply (usable_data a)|exact Hub|apply budget_free; set_solver|lia|].
    apply fwp_ret. unfold a_alloc in HQ. by rewrite Hmod, Hblk in HQ.
  - assert (Hnext : 4096 * (q + 1) <= b0).
    { destruct (Z.lt_ge_cases b0 (4096 * (q + 1))); [|lia]. specialize (Hspec (b0 - b) ltac:(lia) ltac:(lia)).
      rewrite Hbits in Hspec by lia. replace (b + (b0 - b)) with b0 in Hspec by lia. congruence. }
    apply fwp_bind, fwp_brelse_clean; [done|]. unfold BPB. rewrite s32_small by lia.
    replace (b + 4096) with (4096 * (q + 1)) by lia.
    assert (q + 1 <= b0 / 4096) by (apply Z.div_le_lower_bound; lia). apply IH; [lia|lia|lia|done].
Qed.

Lemma fwp_balloc P b0 ic a Q :
  fsok SB a -> first_unmarked a b0 -> budget P a 1 -> bmap_set SB ⊆ P ->
  Q b0 ic (a_alloc a b0) -> fwp SB (balloc ROOTDEV) ic a Q.
Proof.
  intros Hf Hfree Hbud HP HQ. apply fwp_rel. intros bs Hbs. unfold balloc. apply fwp_bind, fwp_getsb.
  pose proof (layout_bounds a (fo_layout _ _ Hf)). pose proof (fu_range _ _ Hfree).
  apply (fwp_balloc_loop P b0 ic a Q _ 0); try done; [intros x; by eapply view_len|lia|].
  rewrite Z.sub_0_r. pose proof (Z.div_le_mono b0 (sb_size SB) 4096 ltac:(lia) ltac:(lia)). unfold BPB. lia.
Qed.

(** ** How many blocks are left *)

(** The elements of [l] that [f] rejects. *)
Definition rejected (f : Z -> bool) (l : list Z) : nat :=
  foldr (fun b n => if f b then n else S n) O l.

Lemma rejected_ext f g l : (forall c, c ∈ l -> f c = g c) -> rejected f l = rejected g l.
Proof.
  induction l as [|x l IH]; intros He; [done|]. cbn. fold (rejected f l) (rejected g l).
  rewrite IH, (He x) by set_solver. done.
Qed.

Lemma rejected_remove f g l b :
  NoDup l -> b ∈ l -> f b = false -> (forall c, c ∈ l -> g c = (c =? b) || f c) ->
  rejected f l = S (rejected g l).
Proof.
  intros Hnd. induction Hnd as [|x l Hx Hnd IH]; intros Hb Hf Hg; [by apply elem_of_nil in Hb|].
  assert (Hgx := Hg x ltac:(set_solver)). cbn. fold (rejected f l) (rejected g l). rewrite Hgx.
  destruct (Z.eqb_spec x b) as [->|Hne]; cbn [orb].
  - rewrite Hf. f_equal. apply rejected_ext. intros c Hc. rewrite Hg by set_solver.
    destruct (Z.eqb_spec c b) as [->|]; done.
  - assert (Hbl : b ∈ l) by set_solver. specialize (IH Hbl Hf ltac:(intros c Hc; apply Hg; set_solver)).
    destruct (f x); lia.
Qed.

Lemma rejected_pos f l : (0 < rejected f l)%nat -> exists b, b ∈ l /\ f b = false.
Proof.
  induction l as [|x l IH]; cbn; [lia|]. fold (rejected f l). destruct (f x) eqn:Hx.
  - intros Hn. destruct (IH Hn) as (b & Hb & Hf). exists b. set_solver.
  - intros _. exists x. set_solver.
Qed.

Definition nfree (v : Z -> list Z) : nat := rejected (marked SB v) (seqZ 0 (sb_size SB)).

Lemma nfree_first a : (0 < nfree (tview a))%nat -> exists b0, first_unmarked a b0.
Proof.
  intros Hn. set (l := seqZ 0 (sb_size SB)) in *.
  destruct (find_index (fun b => negb (marked SB (tview a) b)) l) as [n|] eqn:Hf.
  - apply find_index_Some in Hf as [(b & Hb & Hm) Hall]. apply lookup_seqZ in Hb as [-> Hlt].
    exists (0 + Z.of_nat n). split; [lia|by apply negb_true_iff|]. intros c Hc.
    apply negb_false_iff, (Hall (Z.to_nat c) c); [lia|]. apply lookup_seqZ. lia.
  - apply find_index_None in Hf. rewrite Forall_forall in Hf.
    destruct (rejected_pos _ _ Hn) as (b & Hb & Hm). specialize (Hf b Hb). by rewrite Hm in Hf.
Qed.

Lemma nfree_alloc a b :
  layout SB a -> (forall x, usable a x -> length (tview a x) = 512%nat) ->
  dstart SB <= b < sb_size SB -> marked SB (tview a) b = false ->
  nfree (tview a) = S (nfree (tview (a_alloc a b))).
Proof.
  intros Hl Hlen Hb Hm. pose proof (layout_bounds a Hl). apply (rejected_remove _ _ _ b); [apply NoDup_seqZ| |done|].
  - apply elem_of_seqZ. lia.
  - intros c Hc%elem_of_seqZ. apply marked_alloc; (done || lia).
Qed.

(** ** Freeing *)

Definition a_free (a : atx) (b : Z) : atx :=
  a_write a (bmap_block SB b) (clear_bit (tview a (bmap_block SB b)) (b mod 4096)).

Lemma bfree_bit b d : 0 <= b ->
  (Z.land (byte_at d (b mod BPB / 8)) (Z.shiftl 1 ((b mod BPB) mod 8)) =? 0) = negb (bit_of d (b mod 4096)).
Proof. intros Hb. unfold BPB. apply bit_of_land. Qed.

Lemma fwp_bfree P n b ic a (Q : unit -> list inode -> atx -> Prop) :
  fsok SB a -> 0 <= b < sb_size SB -> marked SB (tview a) b = true -> budget P a n ->
  Q tt ic (a_free a b) -> fwp SB (bfree ROOTDEV b) ic a Q.
Proof.
  intros Hf Hb Hm Hbud HQ. pose proof (fo_layout _ _ Hf) as Hl. unfold bfree. apply fwp_bind, fwp_getsb.
  rewrite (BBLOCK_eq a b) by done. assert (Hin := bmap_block_in b Hb).
  apply fwp_bind, fwp_bread; [by apply usable_bmap|by apply Hf|by eapply budget_read_room|]. intros i Hi.
  apply fwp_bind. eapply fwp_data; [apply lookup_insert_eq|]. intros Hdl.
  rewrite bfree_bit by lia. unfold marked in Hm. rewrite Hm. cbn [negb].
  apply fwp_store_block_last; [done| |by eapply budget_log_room|apply Hbud|exact HQ].
  by apply length_clear_bit.
Qed.

Lemma marked_free a b c :
  layout SB a -> (forall x, usable a x -> length (tview a x) = 512%nat) ->
  0 <= b < sb_size SB -> 0 <= c -> marked SB (tview (a_free a b)) c = negb (c =? b) && marked SB (tview a) c.
Proof.
  intros Hl Hlen Hb Hc. apply marked_clear; [|lia|lia]. apply Hlen, usable_bmap; [done|]. by apply bmap_block_in.
Qed.
End Alloc.
