(* ===== verification/FsFile.v ===== *)
(** * The contents of files (src/fs.c: bmap, readi, writei, iupdate)

    [bptr v ad bn] is the block that holds block [bn] of the file with the
    addresses [ad], given the contents [v] of the disk, and [wf_file] says that
    a file's blocks are distinct, marked data blocks.  bmap() finds or allocates
    a block; readi() and writei() read and replace a range of the bytes. *)

From stdpp Require Import prelude gmap strings list.
From Stdlib Require Import ZArith Lia.
From S2P Require Import Prelude Sleeplock Bio BioSpec Layout Log LogSpec Store Fs FsLogic FsAlloc.

(** The indirect block. *)
Definition ind_of (ad : list Z) : Z := default 0 (ad !! 12%nat).

Definition bptr (v : Z -> list Z) (ad : list Z) (bn : Z) : Z :=
  if bn <? 12 then default 0 (ad !! Z.to_nat bn)
  else if ind_of ad =? 0 then 0 else get32 (v (ind_of ad)) (Z.to_nat (4 * (bn - 12))).

(** The blocks of a file. *)
Definition owns (v : Z -> list Z) (ad : list Z) (x : Z) : Prop :=
  x <> 0 /\ (x = ind_of ad \/ exists bn, 0 <= bn < 140 /\ bptr v ad bn = x).

Section File.
Context {B : Type} `{BlockStoreOk B} {K : Cap} (SB : superblock).
Implicit Types (ic : list inode) (a : atx) (v : Z -> list Z) (ad : list Z).

Definition data_block v (x : Z) : Prop := dstart SB <= x < sb_size SB /\ marked SB v x = true.

Record wf_file v ad : Prop := {
  wf_len : length ad = 13%nat;
  wf_data : forall x, owns v ad x -> data_block v x;
  wf_inj : forall bn bn', 0 <= bn < 140 -> 0 <= bn' < 140 -> bptr v ad bn <> 0 -> bptr v ad bn = bptr v ad bn' -> bn = bn';
  wf_ind : forall bn, 0 <= bn < 140 -> bptr v ad bn <> 0 -> bptr v ad bn <> ind_of ad;
}.

Lemma none_held a x : theld a = ∅ -> t_unheld a x.
Proof. intros Hh i y Hy. by rewrite Hh in Hy. Qed.

Lemma owns_bptr v ad bn : 0 <= bn < 140 -> bptr v ad bn <> 0 -> owns v ad (bptr v ad bn).
Proof. intros Hbn Hne. split; [done|]. right. by exists bn. Qed.

Lemma owns_ind v ad : ind_of ad <> 0 -> owns v ad (ind_of ad).
Proof. intros Hne. split; [done|]. by left. Qed.

Lemma bptr_ext v v' ad bn : (ind_of ad <> 0 -> v' (ind_of ad) = v (ind_of ad)) -> bptr v' ad bn = bptr v ad bn.
Proof. intros He. unfold bptr. destruct (bn <? 12); [done|]. destruct (Z.eqb_spec (ind_of ad) 0); [done|]. by rewrite He. Qed.

Lemma owns_ext v v' ad x :
  (ind_of ad <> 0 -> v' (ind_of ad) = v (ind_of ad)) -> owns v' ad x <-> owns v ad x.
Proof. intros He. unfold owns. setoid_rewrite (bptr_ext v v' ad); [|done]. done. Qed.

(** A change of the disk that keeps the indirect block and the marks. *)
Lemma wf_file_ext v v' ad :
  wf_file v ad -> (ind_of ad <> 0 -> v' (ind_of ad) = v (ind_of ad)) ->
  (forall x, owns v ad x -> marked SB v x = true -> marked SB v' x = true) -> wf_file v' ad.
Proof.
  intros [Hl Hd Hi Hn] He Hm. split; [done|..].
  - intros x Hx. rewrite (owns_ext v) in Hx by done. destruct (Hd x Hx) as [? ?]. split; [done|by apply Hm].
  - intros bn bn'. rewrite !(bptr_ext v v' ad) by done. apply Hi.
  - intros bn. rewrite !(bptr_ext v v' ad) by done. apply Hn.
Qed.

(** ** bmap() of a block the file has *)

Lemma ad_lookup ad bn : length ad = 13%nat -> 0 <= bn < 13 -> aget ad bn = Some (default 0 (ad !! Z.to_nat bn)).
Proof.
  intros Hl Hb. unfold aget. destruct (Z.ltb_spec bn 0); [lia|].
  by destruct (lookup_lt_is_Some_2 ad (Z.to_nat bn)) as [x ->]; [lia|].
Qed.

Lemma fwp_rd {A} (l : list A) i x ic a (Q : A -> list inode -> atx -> Prop) :
  aget l i = Some x -> Q x ic a -> fwp SB (rd l i) ic a Q.
Proof. intros Hx. by apply fwp_option. Qed.

Lemma fwp_bmap_old ip i bn ic a (Q : Z -> list inode -> atx -> Prop) :
  fsok SB a -> ic !! ip = Some i -> idev i = ROOTDEV -> wf_file (tview a) (addrs i) -> theld a = ∅ ->
  0 <= bn < 140 -> bptr (tview a) (addrs i) bn <> 0 -> read_room a ->
  Q (bptr (tview a) (addrs i) bn) ic a -> fwp SB (bmap ip bn) ic a Q.
Proof.
  intros Hf Hi Hdev Hwf Hu Hbn Hne Hbud HQ. unfold bmap. apply fwp_bind. eapply fwp_geti; [done|].
  unfold bptr in Hne, HQ. unfold NDIRECT, NINDIRECT. destruct (Z.ltb_spec bn 12).
  - apply fwp_bind. eapply fwp_rd; [apply ad_lookup; [apply Hwf|lia]|].
    destruct (Z.eqb_spec (default 0 (addrs i !! Z.to_nat bn)) 0); [done|]. by apply fwp_ret.
  - destruct (Z.ltb_spec (bn - 12) 128); [|lia].
    apply fwp_bind. eapply fwp_rd; [apply ad_lookup; [apply Hwf|lia]|].
    change (default 0 (addrs i !! Z.to_nat 12)) with (ind_of (addrs i)).
    destruct (Z.eqb_spec (ind_of (addrs i)) 0) as [|Hind]; [done|]. apply fwp_bind, fwp_ret.
    pose proof (owns_ind (tview a) (addrs i) Hind) as Ho. destruct (wf_data _ _ Hwf _ Ho) as [Hr _].
    rewrite Hdev. apply fwp_bind, fwp_bread; [by apply (usable_data SB); [apply Hf|]|by apply none_held|done|].
    intros j Hj. apply fwp_bind. eapply fwp_data; [apply lookup_insert_eq|]. intros _.
    destruct (Z.eqb_spec (get32 (tview a (ind_of (addrs i))) (Z.to_nat (4 * (bn - 12)))) 0); [done|].
    apply fwp_bind, fwp_ret. apply fwp_bind, fwp_brelse_clean; [done|]. by apply fwp_ret.
Qed.

(** ** Linking a new block into a file *)

Lemma get32_zero off : get32 (replicate 512 0) off = 0.
Proof.
  unfold get_le. rewrite drop_replicate, take_replicate.
  generalize (4 `min` (512 - off))%nat. intros n. induction n as [|n IH]; [done|]. cbn. by rewrite IH.
Qed.

(** Block [b] becomes block [bn] of the file. *)
Lemma wf_link v ad v' ad' bn b :
  wf_file v ad -> length ad' = 13%nat -> ind_of ad' = ind_of ad -> 0 <= bn < 140 ->
  (forall bn', 0 <= bn' < 140 -> bptr v' ad' bn' = if bn' =? bn then b else bptr v ad bn') ->
  bptr v ad bn = 0 -> ~ owns v ad b -> b <> 0 -> b <> ind_of ad -> data_block v' b ->
  (forall x, owns v ad x -> marked SB v x = true -> marked SB v' x = true) ->
  wf_file v' ad' /\ forall x, owns v' ad' x <-> x = b \/ owns v ad x.
Proof.
  intros [Hl Hd Hi Hn] Hl' Hind Hbn Hp Hp0 Hno Hb Hbi Hdb Hm.
  assert (Hown : forall x, owns v' ad' x <-> x = b \/ owns v ad x).
  { intros x. unfold owns. rewrite Hind. split.
    - intros [Hx [He|(bn' & Hr & He)]]; [right; split; [done|by left]|].
      rewrite Hp in He by done. destruct (Z.eqb_spec bn' bn); [by left|]. right. split; [done|]. right. by exists bn'.
    - intros [->|[Hx [He|(bn' & Hr & He)]]]; (split; [done|]); [right; exists bn|by left|right; exists bn'].
      + split; [done|]. rewrite Hp, Z.eqb_refl by done. done.
      + split; [done|]. rewrite Hp by done. destruct (Z.eqb_spec bn' bn) as [->|]; [congruence|done]. }
  split; [|done]. split; [done|..].
  - intros x Hx. apply Hown in Hx as [->|Hx]; [done|]. destruct (Hd x Hx). split; [done|by apply Hm].
  - intros b1 b2 H1 H2. rewrite !Hp by done.
    destruct (Z.eqb_spec b1 bn) as [->|], (Z.eqb_spec b2 bn) as [->|]; try done; intros Hne He.
    + destruct Hno. rewrite He. apply owns_bptr; [done|]. by rewrite <- He.
    + destruct Hno. rewrite <- He. by apply owns_bptr.
    + by apply Hi.
  - intros b1 H1. rewrite Hp, Hind by done. destruct (Z.eqb_spec b1 bn); [done|]. by apply Hn.
Qed.

(** Block [b] becomes the indirect block. *)
Lemma wf_set_ind v ad v' ad' b :
  wf_file v ad -> length ad' = 13%nat -> ind_of ad = 0 -> ind_of ad' = b -> b <> 0 ->
  (forall bn', 0 <= bn' < 140 -> bptr v' ad' bn' = bptr v ad bn') ->
  ~ owns v ad b -> data_block v' b ->
  (forall x, owns v ad x -> marked SB v x = true -> marked SB v' x = true) ->
  wf_file v' ad' /\ forall x, owns v' ad' x <-> x = b \/ owns v ad x.
Proof.
  intros [Hl Hd Hi Hn] Hl' Hz Hind Hb Hp Hno Hdb Hm.
  assert (Hown : forall x, owns v' ad' x <-> x = b \/ owns v ad x).
  { intros x. unfold owns. rewrite Hind, Hz. split.
    - intros [Hx [He|(bn' & Hr & He)]]; [by left|]. right. split; [done|]. right. exists bn'. by rewrite <- Hp.
    - intros [->|[Hx [He|(bn' & Hr & He)]]]; (split; [done|]); [by left|done|right; exists bn'; by rewrite Hp]. }
  split; [|done]. split; [done|..].
  - intros x Hx. apply Hown in Hx as [->|Hx]; [done|]. destruct (Hd x Hx). split; [done|by apply Hm].
  - intros b1 b2 H1 H2. rewrite !Hp by done. by apply Hi.
  - intros b1 H1. rewrite Hp, Hind by done. intros Hne He. apply Hno. rewrite <- He. by apply owns_bptr.
Qed.

(** The addresses with entry [k] replaced. *)
Lemma ind_of_insert ad k b : (k < 12)%nat -> ind_of (<[k := b]> ad) = ind_of ad.
Proof. intros Hk. unfold ind_of. by rewrite list_lookup_insert_ne by lia. Qed.

Lemma ind_of_insert_12 ad b : length ad = 13%nat -> ind_of (<[12%nat := b]> ad) = b.
Proof. intros Hl. unfold ind_of. by rewrite list_lookup_insert_eq by lia. Qed.

Lemma bptr_direct v ad bn b bn' :
  length ad = 13%nat -> 0 <= bn < 12 -> 0 <= bn' < 140 ->
  bptr v (<[Z.to_nat bn := b]> ad) bn' = if bn' =? bn then b else bptr v ad bn'.
Proof.
  intros Hl Hbn Hbn'. unfold bptr. rewrite ind_of_insert by lia.
  destruct (Z.ltb_spec bn' 12); destruct (Z.eqb_spec bn' bn) as [->|]; try done; try lia.
  - by rewrite list_lookup_insert_eq by lia.
  - by rewrite list_lookup_insert_ne by lia.
Qed.

Lemma bptr_indirect v ad bn b bn' :
  ind_of ad <> 0 -> length (v (ind_of ad)) = 512%nat -> 0 <= b < 2 ^ 32 -> 12 <= bn < 140 -> 0 <= bn' < 140 ->
  bptr (tset v (ind_of ad) (put32 (v (ind_of ad)) (Z.to_nat (4 * (bn - 12))) b)) ad bn' =
  if bn' =? bn then b else bptr v ad bn'.
Proof.
  intros Hi Hl Hb Hbn Hbn'. unfold bptr. destruct (Z.eqb_spec (ind_of ad) 0); [done|]. rewrite tset_same.
  destruct (Z.ltb_spec bn' 12); destruct (Z.eqb_spec bn' bn) as [->|]; try done; try lia.
  - rewrite get_put_same by lia. apply Z.mod_small. change (256 ^ Z.of_nat 4) with (2 ^ 32). lia.
  - apply get_put_other; lia.
Qed.

Lemma bptr_new_ind v v' ad b bn' :
  length ad = 13%nat -> ind_of ad = 0 -> v' b = replicate 512 0 -> b <> 0 -> 0 <= bn' < 140 ->
  bptr v' (<[12%nat := b]> ad) bn' = bptr v ad bn'.
Proof.
  intros Hl Hi Hv Hb Hbn. unfold bptr. rewrite ind_of_insert_12, Hi by done. rewrite (proj2 (Z.eqb_neq b 0)) by done.
  rewrite Hv. destruct (Z.ltb_spec bn' 12); [by rewrite list_lookup_insert_ne by lia|]. apply get32_zero.
Qed.

(** ** How a file grows *)

Definition same_shape a a' : Prop :=
  theld a' = theld a /\ tops a' = tops a /\ tsize a' = tsize a /\ tstart a' = tstart a /\ tlen a' = tlen a /\ tdur a' = tdur a.

(** From the file with the addresses [ad] on the disk of [a] to [ad'] on that of
    [a']: the file keeps its blocks, new ones were free, and no block outside
    the file changes but those of the free map. *)
Record evolves a ad a' ad' : Prop := {
  ev_wf : wf_file (tview a') ad';
  ev_ok : fsok SB a';
  ev_shape : same_shape a a';
  ev_keep : forall bn, 0 <= bn < 140 -> bptr (tview a) ad bn <> 0 -> bptr (tview a') ad' bn = bptr (tview a) ad bn;
  ev_ind : ind_of ad <> 0 -> ind_of ad' = ind_of ad;
  ev_marks : forall c, 0 <= c < sb_size SB -> marked SB (tview a) c = true -> marked SB (tview a') c = true;
  ev_fresh : forall c, 0 <= c < sb_size SB -> marked SB (tview a') c = true -> marked SB (tview a) c = true \/ owns (tview a') ad' c;
  ev_owns : forall x, owns (tview a') ad' x -> marked SB (tview a) x = true -> owns (tview a) ad x;
  ev_view : forall x, 0 <= x < sb_size SB -> marked SB (tview a) x = true -> x ∉ bmap_set SB -> ~ owns (tview a) ad x ->
    tview a' x = tview a x;
}.

Lemma evolves_refl a ad : fsok SB a -> wf_file (tview a) ad -> evolves a ad a ad.
Proof. intros Hf Hw. split; try done; try naive_solver. Qed.

Lemma evolves_owned a ad a' ad' x : evolves a ad a' ad' -> owns (tview a) ad x -> owns (tview a') ad' x.
Proof.
  intros He [Hx [Hi|(bn & Hbn & Hb)]]; (split; [done|]).
  - left. rewrite (ev_ind _ _ _ _ He); congruence.
  - right. exists bn. split; [done|]. rewrite (ev_keep _ _ _ _ He); congruence.
Qed.

Lemma owned_range a ad x : fsok SB a -> wf_file (tview a) ad -> owns (tview a) ad x -> 0 <= x < sb_size SB.
Proof.
  intros Hf Hw Hx. destruct (wf_data _ _ Hw x Hx) as [Hr _].
  pose proof (layout_bounds SB a (fo_layout _ _ Hf)). lia.
Qed.

Lemma evolves_trans a ad a1 ad1 a2 ad2 : evolves a ad a1 ad1 -> evolves a1 ad1 a2 ad2 -> evolves a ad a2 ad2.
Proof.
  intros H1 H2. pose proof (ev_ok _ _ _ _ H2) as Hf2. pose proof (ev_wf _ _ _ _ H2) as Hw2. split; try done.
  - destruct (ev_shape _ _ _ _ H1) as (?&?&?&?&?&?), (ev_shape _ _ _ _ H2) as (?&?&?&?&?&?). split_and!; congruence.
  - intros bn Hbn Hne. pose proof (ev_keep _ _ _ _ H1 bn Hbn Hne) as E1. rewrite (ev_keep _ _ _ _ H2 bn Hbn); congruence.
  - intros Hne. pose proof (ev_ind _ _ _ _ H1 Hne) as E1. rewrite (ev_ind _ _ _ _ H2); congruence.
  - intros c Hc Hm. apply (ev_marks _ _ _ _ H2 c Hc), (ev_marks _ _ _ _ H1 c Hc Hm).
  - intros c Hc Hm. destruct (ev_fresh _ _ _ _ H2 c Hc Hm) as [Hm1|?]; [|by right].
    destruct (ev_fresh _ _ _ _ H1 c Hc Hm1) as [?|Ho]; [by left|]. right. by apply (evolves_owned _ _ _ _ _ H2).
  - intros x Ho Hm. pose proof (owned_range a2 ad2 x Hf2 Hw2 Ho) as Hr.
    apply (ev_owns _ _ _ _ H1); [|done]. apply (ev_owns _ _ _ _ H2); [done|]. by apply (ev_marks _ _ _ _ H1).
  - intros x Hx Hm Hb Hno. rewrite (ev_view _ _ _ _ H2), (ev_view _ _ _ _ H1); try done.
    + by apply (ev_marks _ _ _ _ H1).
    + intros Ho. apply Hno. by apply (ev_owns _ _ _ _ H1).
Qed.

(** A free block [b], allocated and linked. *)
Lemma evolves_link a ad b a' ad' :
  fsok SB a -> wf_file (tview a) ad -> theld a = ∅ -> dstart SB <= b < sb_size SB -> marked SB (tview a) b = false ->
  same_shape a a' -> wf_file (tview a') ad' -> (forall x, owns (tview a') ad' x <-> x = b \/ owns (tview a) ad x) ->
  (forall bn, 0 <= bn < 140 -> bptr (tview a) ad bn <> 0 -> bptr (tview a') ad' bn = bptr (tview a) ad bn) ->
  (ind_of ad <> 0 -> ind_of ad' = ind_of ad) ->
  (forall c, 0 <= c < sb_size SB -> marked SB (tview a') c = (c =? b) || marked SB (tview a) c) ->
  (forall x, x <> b -> x ∉ bmap_set SB -> ~ (x = ind_of ad /\ x <> 0) -> tview a' x = tview a x) ->
  evolves a ad a' ad'.
Proof.
  intros Hf Hw Hh Hb Hm Hs Hw' Ho Hk Hi Hmk Hv. pose proof (layout_bounds SB a (fo_layout _ _ Hf)).
  destruct Hs as (Sh & So & Ss & St & Sl & Sd). split; try done.
  - split.
    + apply (fsok_layout SB a a'); [apply Hf|done..].
    + intros c Hc. rewrite Hmk by lia. rewrite (fo_meta _ _ Hf c Hc). apply orb_true_r.
    + intros x _. apply none_held. congruence.
    + intros i x d Hx. rewrite Sh, Hh in Hx. done.
  - intros c Hc Hmc. rewrite Hmk, Hmc by done. apply orb_true_r.
  - intros c Hc Hmc. rewrite Hmk in Hmc by done. destruct (Z.eqb_spec c b) as [->|]; [right; apply Ho; by left|by left].
  - intros x Hx Hmx. apply Ho in Hx as [->|Hx]; [congruence|done].
  - intros x Hx Hmx Hnb Hno. apply Hv; [congruence|done|]. intros [-> Hx0]. by apply Hno, owns_ind.
Qed.

Section Link.
Context (a : atx) (ad : list Z) (b : Z).
Context (Hf : fsok SB a) (Hw : wf_file (tview a) ad) (Hh : theld a = ∅).
Context (Hlen : forall x, usable a x -> length (tview a x) = 512%nat).
Context (Hb : dstart SB <= b < sb_size SB) (Hm : marked SB (tview a) b = false).

Lemma fresh_not_owned : ~ owns (tview a) ad b.
Proof. intros Ho. destruct (wf_data _ _ Hw b Ho). congruence. Qed.

Lemma fresh_nonzero : b <> 0.
Proof. pose proof (layout_bounds SB a (fo_layout _ _ Hf)). lia. Qed.

Lemma data_not_map x : dstart SB <= x < sb_size SB -> x <> bmap_block SB b.
Proof.
  intros Hx ->. apply (data_not_bmap SB (bmap_block SB b)); [lia|]. apply bmap_block_in.
  pose proof (layout_bounds SB a (fo_layout _ _ Hf)). lia.
Qed.

Lemma alloc_owned x : owns (tview a) ad x -> tview (a_alloc SB a b) x = tview a x.
Proof.
  intros Ho. destruct (wf_data _ _ Hw x Ho) as [Hr _]. apply view_alloc; [|by apply data_not_map].
  intros ->. by apply fresh_not_owned.
Qed.

Lemma alloc_bptr bn : bptr (tview (a_alloc SB a b)) ad bn = bptr (tview a) ad bn.
Proof. apply bptr_ext. intros Hi. by apply alloc_owned, owns_ind. Qed.

Lemma alloc_owns x : owns (tview (a_alloc SB a b)) ad x <-> owns (tview a) ad x.
Proof. apply owns_ext. intros Hi. by apply alloc_owned, owns_ind. Qed.

Lemma alloc_marks c : 0 <= c < sb_size SB -> marked SB (tview (a_alloc SB a b)) c = (c =? b) || marked SB (tview a) c.
Proof. apply marked_alloc; [apply Hf|done|done]. Qed.

Lemma alloc_marks_owned x : owns (tview a) ad x -> marked SB (tview a) x = true -> marked SB (tview (a_alloc SB a b)) x = true.
Proof. intros Ho Hmx. rewrite alloc_marks by (by eapply owned_range). rewrite Hmx. apply orb_true_r. Qed.

Lemma alloc_data : data_block (tview (a_alloc SB a b)) b.
Proof.
  split; [done|]. pose proof (layout_bounds SB a (fo_layout _ _ Hf)). rewrite alloc_marks by lia. by rewrite Z.eqb_refl.
Qed.

Lemma alloc_zero : tview (a_alloc SB a b) b = replicate 512 0.
Proof. unfold a_alloc. simpl. apply tset_same. Qed.

Lemma alloc_view x : x <> b -> x ∉ bmap_set SB -> tview (a_alloc SB a b) x = tview a x.
Proof.
  intros Hx Hn. apply view_alloc; [done|]. intros ->. apply Hn, bmap_block_in.
  pose proof (layout_bounds SB a (fo_layout _ _ Hf)). lia.
Qed.

Lemma wf_alloc : wf_file (tview (a_alloc SB a b)) ad.
Proof. apply (wf_file_ext (tview a)); [done|intros Hi; by apply alloc_owned, owns_ind|apply alloc_marks_owned]. Qed.

(** As a direct block. *)
Lemma link_direct bn :
  0 <= bn < 12 -> bptr (tview a) ad bn = 0 ->
  let a' := a_alloc SB a b in let ad' := <[Z.to_nat bn := b]> ad in
  evolves a ad a' ad' /\
  forall bn', 0 <= bn' < 140 -> bptr (tview a') ad' bn' = if bn' =? bn then b else bptr (tview a) ad bn'.
Proof.
  intros Hbn H0' a' ad'. pose proof (wf_len _ _ Hw) as Hl.
  assert (Hp : forall bn', 0 <= bn' < 140 -> bptr (tview a') ad' bn' = if bn' =? bn then b else bptr (tview a) ad bn').
  { intros bn' Hr. unfold ad'. rewrite bptr_direct by done. by rewrite alloc_bptr. }
  assert (Hi : ind_of ad' = ind_of ad) by (apply ind_of_insert; lia).
  destruct (wf_link (tview a) ad (tview a') ad' bn b) as [Hw' Ho]; try done.
  - unfold ad'. by rewrite length_insert.
  - lia.
  - apply fresh_not_owned.
  - apply fresh_nonzero.
  - intros He. apply fresh_not_owned. rewrite He. apply owns_ind. rewrite <- He. apply fresh_nonzero.
  - apply alloc_data.
  - apply alloc_marks_owned.
  - split; [|done]. apply (evolves_link a ad b a' ad'); try done.
    + intros bn' Hr Hne. rewrite Hp by done. destruct (Z.eqb_spec bn' bn) as [->|]; [done|done].
    + intros c Hc. by apply alloc_marks.
    + intros x Hx Hn _. by apply alloc_view.
Qed.

(** Through the indirect block. *)
Lemma link_indirect bn :
  12 <= bn < 140 -> bptr (tview a) ad bn = 0 -> ind_of ad <> 0 ->
  let a' := a_write (a_alloc SB a b) (ind_of ad) (put32 (tview a (ind_of ad)) (Z.to_nat (4 * (bn - 12))) b) in
  evolves a ad a' ad /\
  forall bn', 0 <= bn' < 140 -> bptr (tview a') ad bn' = if bn' =? bn then b else bptr (tview a) ad bn'.
Proof.
  intros Hbn H0' Hi a'. pose proof (owns_ind (tview a) ad Hi) as Hoi. destruct (wf_data _ _ Hw _ Hoi) as [Hri Hmi].
  pose proof (layout_bounds SB a (fo_layout _ _ Hf)) as Hbnd.
  assert (Hib : ind_of ad <> b) by congruence.
  assert (Hp : forall bn', 0 <= bn' < 140 -> bptr (tview a') ad bn' = if bn' =? bn then b else bptr (tview a) ad bn').
  { intros bn' Hr. unfold a'. simpl. rewrite <- (alloc_owned _ Hoi). rewrite bptr_indirect; try done; [by rewrite alloc_bptr| |lia].
    rewrite alloc_owned by done. apply Hlen, (usable_data SB); [apply Hf|done]. }
  assert (Hmk : forall c, 0 <= c < sb_size SB -> marked SB (tview a') c = (c =? b) || marked SB (tview a) c).
  { intros c Hc. unfold a'. simpl. rewrite marked_other by (done || apply data_not_bmap; lia). by apply alloc_marks. }
  destruct (wf_link (tview a) ad (tview a') ad bn b) as [Hw' Ho]; try done.
  - apply Hw.
  - lia.
  - apply fresh_not_owned.
  - apply fresh_nonzero.
  - split; [done|]. rewrite Hmk by lia. by rewrite Z.eqb_refl.
  - intros x Hx Hmx. rewrite Hmk by (by eapply owned_range). rewrite Hmx. apply orb_true_r.
  - split; [|done]. apply (evolves_link a ad b a' ad); try done.
    + intros bn' Hr Hne. rewrite Hp by done. destruct (Z.eqb_spec bn' bn) as [->|]; [done|done].
    + intros x Hx Hn Hni. unfold a'. simpl. rewrite tset_other; [by apply alloc_view|]. intros ->. by apply Hni.
Qed.

(** As the indirect block. *)
Lemma link_new_ind :
  ind_of ad = 0 ->
  let a' := a_alloc SB a b in let ad' := <[12%nat := b]> ad in
  evolves a ad a' ad' /\ forall bn', 0 <= bn' < 140 -> bptr (tview a') ad' bn' = bptr (tview a) ad bn'.
Proof.
  intros Hi a' ad'. pose proof (wf_len _ _ Hw) as Hl.
  assert (Hp : forall bn', 0 <= bn' < 140 -> bptr (tview a') ad' bn' = bptr (tview a) ad bn').
  { intros bn' Hr. unfold ad'. apply bptr_new_ind; try done; [apply alloc_zero|apply fresh_nonzero]. }
  destruct (wf_set_ind (tview a) ad (tview a') ad' b) as [Hw' Ho]; try done.
  - unfold ad'. by rewrite length_insert.
  - by apply ind_of_insert_12.
  - apply fresh_nonzero.
  - apply fresh_not_owned.
  - apply alloc_data.
  - apply alloc_marks_owned.
  - split; [|done]. apply (evolves_link a ad b a' ad'); try done.
    + intros bn' Hr Hne. by apply Hp.
    + intros c Hc. by apply alloc_marks.
    + intros x Hx Hn _. by apply alloc_view.
Qed.
End Link.

(** ** bmap() *)

(** One for an indirect block yet to be allocated. *)
Definition cost ad : nat := if ind_of ad =? 0 then 1%nat else 0%nat.

Lemma budget_alloc P a n b :
  budget P a (S n) -> bmap_set SB ⊆ P -> 0 <= b < sb_size SB -> budget P (a_alloc SB a b) n /\ b ∈ tlog (a_alloc SB a b).
Proof.
  intros Hb HP Hr. split; [|apply log_self]. apply budget_write, budget_free; [done|].
  apply elem_of_union_r, HP, bmap_block_in, Hr.
Qed.

Record bmapped (P : gset Z) (n : nat) a ad bn r a' ad' : Prop := {
  bm_ev : evolves a ad a' ad';
  bm_ptr : bptr (tview a') ad' bn = r;
  bm_ne : r <> 0;
  bm_others : forall bn', 0 <= bn' < 140 -> bn' <> bn -> bptr (tview a') ad' bn' = bptr (tview a) ad bn';
  bm_data : forall bn', 0 <= bn' < 140 -> bptr (tview a) ad bn' <> 0 -> tview a' (bptr (tview a) ad bn') = tview a (bptr (tview a) ad bn');
  bm_zero : bptr (tview a) ad bn = 0 -> tview a' r = replicate 512 0;
  bm_budget : budget P a' (S n + cost ad') \/ (r ∈ tlog a' /\ budget P a' (n + cost ad'));
  bm_ind : ind_of ad' <> 0 -> ind_of ad' ∈ tlog a' ∪ P;
  bm_free : (nfree SB (tview a) + cost ad' <= S (nfree SB (tview a')) + cost ad)%nat;
  bm_same : bptr (tview a) ad bn <> 0 -> ad' = ad;
}.

Lemma cost_ind ad : ind_of ad <> 0 -> cost ad = 0%nat.
Proof. unfold cost. intros Hi. by destruct (Z.eqb_spec (ind_of ad) 0). Qed.

(** The block is new and direct. *)
Lemma bmapped_direct P n a ad bn b :
  fsok SB a -> wf_file (tview a) ad -> theld a = ∅ -> (forall x, usable a x -> length (tview a x) = 512%nat) ->
  first_unmarked SB a b -> 0 <= bn < 12 -> bptr (tview a) ad bn = 0 ->
  budget P a (S n + cost ad) -> bmap_set SB ⊆ P -> (ind_of ad <> 0 -> ind_of ad ∈ tlog a ∪ P) ->
  bmapped P n a ad bn b (a_alloc SB a b) (<[Z.to_nat bn := b]> ad).
Proof.
  intros Hf Hw Hh Hlen [Hr Hm _] Hbn Hz Hbud HP Hind. pose proof (unmarked_data SB a b Hf Hr Hm) as Hb.
  destruct (link_direct a ad b Hf Hw Hh Hlen Hb Hm bn Hbn Hz) as [Hev Hp].
  destruct (budget_alloc P a (n + cost ad) b Hbud HP Hr) as [Hbud' Hin].
  assert (Hi : ind_of (<[Z.to_nat bn := b]> ad) = ind_of ad) by (apply ind_of_insert; lia).
  assert (Hc : cost (<[Z.to_nat bn := b]> ad) = cost ad) by (unfold cost; by rewrite Hi).
  split; try done.
  - rewrite Hp, Z.eqb_refl by lia. done.
  - by eapply fresh_nonzero.
  - intros bn' Hr' Hne. rewrite Hp by done. by destruct (Z.eqb_spec bn' bn).
  - intros bn' Hr' Hne. apply (alloc_owned a ad b Hf Hw Hb Hm). by apply owns_bptr.
  - intros _. apply alloc_zero.
  - right. by rewrite Hc.
  - rewrite Hi. intros Hne. apply log_keep, log_keep, Hind, Hne.
  - rewrite Hc. rewrite (nfree_alloc SB a b) by (done || apply Hf). lia.
Qed.

(** The block is new and listed in the indirect block. *)
Lemma bmapped_indirect P n a ad bn b :
  fsok SB a -> wf_file (tview a) ad -> theld a = ∅ -> (forall x, usable a x -> length (tview a x) = 512%nat) ->
  first_unmarked SB a b -> 12 <= bn < 140 -> bptr (tview a) ad bn = 0 -> ind_of ad <> 0 ->
  budget P a (S n) -> bmap_set SB ⊆ P -> ind_of ad ∈ tlog a ∪ P ->
  bmapped P n a ad bn b
    (a_write (a_alloc SB a b) (ind_of ad) (put32 (tview a (ind_of ad)) (Z.to_nat (4 * (bn - 12))) b)) ad.
Proof.
  intros Hf Hw Hh Hlen [Hr Hm _] Hbn Hz Hi Hbud HP Hind. pose proof (unmarked_data SB a b Hf Hr Hm) as Hb.
  destruct (link_indirect a ad b Hf Hw Hh Hlen Hb Hm bn Hbn Hz Hi) as [Hev Hp]. pose proof (cost_ind ad Hi) as Hc.
  destruct (budget_alloc P a n b Hbud HP Hr) as [Hbud' Hin].
  assert (Hbi : b <> ind_of ad).
  { intros ->. by eapply fresh_not_owned; [| |by apply owns_ind]. }
  split; try done.
  - rewrite Hp, Z.eqb_refl by lia. done.
  - by eapply fresh_nonzero.
  - intros bn' Hr' Hne. rewrite Hp by done. by destruct (Z.eqb_spec bn' bn).
  - intros bn' Hr' Hne. simpl. rewrite tset_other by (by apply Hw).
    apply (alloc_owned a ad b Hf Hw Hb Hm). by apply owns_bptr.
  - intros _. simpl. rewrite tset_other by done. apply alloc_zero.
  - right. rewrite Hc, Nat.add_0_r. split; [by apply log_mono|]. apply budget_free; [done|]. by apply log_keep, log_keep.
  - intros _. apply elem_of_union_l, log_self.
  - rewrite Hc, Nat.add_0_r. destruct (wf_data _ _ Hw _ (owns_ind _ _ Hi)) as [Hri _].
    rewrite (nfree_alloc SB a b) by (done || apply Hf).
    assert (He : nfree SB (tview (a_write (a_alloc SB a b) (ind_of ad) (put32 (tview a (ind_of ad)) (Z.to_nat (4 * (bn - 12))) b)))
      = nfree SB (tview (a_alloc SB a b))); [|lia].
    apply rejected_ext. intros c Hc'%elem_of_seqZ. simpl. apply marked_other; [lia|apply data_not_bmap; lia].
Qed.

(** The indirect block is new too. *)
Lemma bmapped_new_ind P n a ad b bn r a' ad' :
  fsok SB a -> wf_file (tview a) ad -> theld a = ∅ -> (forall x, usable a x -> length (tview a x) = 512%nat) ->
  first_unmarked SB a b -> ind_of ad = 0 -> 0 <= bn < 140 -> bptr (tview a) ad bn = 0 ->
  bmapped P n (a_alloc SB a b) (<[12%nat := b]> ad) bn r a' ad' -> bmapped P n a ad bn r a' ad'.
Proof.
  intros Hf Hw Hh Hlen [Hr Hm _] Hi Hbn Hz [Hev Hp Hne Ho Hd Hzr Hbud Hind Hfree _].
  pose proof (unmarked_data SB a b Hf Hr Hm) as Hb.
  destruct (link_new_ind a ad b Hf Hw Hh Hlen Hb Hm Hi) as [Hev1 Hp1].
  split; try done.
  - by eapply evolves_trans.
  - intros bn' Hr' Hbn'. by rewrite Ho, Hp1.
  - intros bn' Hr' Hb'. rewrite <- (Hp1 bn') by done. rewrite Hd by (rewrite ?Hp1; done). rewrite Hp1 by done.
    apply (alloc_owned a ad b Hf Hw Hb Hm). by apply owns_bptr.
  - intros _. apply Hzr. by rewrite Hp1.
  - assert (Hc : cost ad = 1%nat) by (unfold cost; by rewrite Hi).
    rewrite (nfree_alloc SB a b) by (done || apply Hf).
    assert (Hc1 : cost (<[12%nat := b]> ad) = 0%nat).
    { apply cost_ind. rewrite ind_of_insert_12 by apply Hw. by eapply fresh_nonzero. }
    lia.
Qed.

Lemma evolves_len bs a ad a' ad' :
  t_rel bs a' -> evolves a ad a' ad' -> forall x, usable a' x -> length (tview a' x) = 512%nat.
Proof. intros Hr _ x. by apply (t_view_length bs). Qed.

(** Through an indirect block that exists. *)
Lemma fwp_bmap_indirect P n ip i ic a bn (Q : Z -> list inode -> atx -> Prop) :
  fsok SB a -> ic !! ip = Some i -> idev i = ROOTDEV -> wf_file (tview a) (addrs i) -> theld a = ∅ ->
  12 <= bn < 140 -> bptr (tview a) (addrs i) bn = 0 -> ind_of (addrs i) <> 0 -> (0 < nfree SB (tview a))%nat ->
  budget P a (S n) -> bmap_set SB ⊆ P -> ind_of (addrs i) ∈ tlog a ∪ P ->
  (forall r a', bmapped P n a (addrs i) bn r a' (addrs i) -> Q r ic a') ->
  fwp SB (bp ← onb (t_bread (idev i) (ind_of (addrs i)));
          d ← onb (t_data bp);
          addr ← (if get32 d (Z.to_nat (4 * (bn - 12))) =? 0 then
                    addr ← balloc (idev i);
                    onb (t_setdata bp (put32 d (Z.to_nat (4 * (bn - 12))) addr)) ;;
                    onb (t_log_write bp) ;;
                    mret addr
                  else mret (get32 d (Z.to_nat (4 * (bn - 12)))));
          onb (t_brelse bp) ;; mret addr) ic a Q.
Proof.
  intros Hf Hi Hdev Hw Hh Hbn Hz Hind Hfree Hbud HP Hin HQ. apply fwp_rel. intros bs Hbs.
  destruct (wf_data _ _ Hw _ (owns_ind (tview a) _ Hind)) as [Hri Hmi].
  destruct (nfree_first SB a Hfree) as [b Hb]. rewrite Hdev.
  apply fwp_bind, fwp_bread; [by apply (usable_data SB); [apply Hf|]|by apply none_held|by eapply budget_read_room|].
  intros j Hj. apply fwp_bind. eapply fwp_data; [apply lookup_insert_eq|]. intros Hdl.
  set (off := Z.to_nat (4 * (bn - 12))) in *. set (d := tview a (ind_of (addrs i))) in *.
  assert (Hg : get32 d off = 0).
  { unfold bptr in Hz. destruct (Z.ltb_spec bn 12); [lia|]. by destruct (Z.eqb_spec (ind_of (addrs i)) 0). }
  rewrite Hg. cbn [Z.eqb]. apply fwp_bind, fwp_bind.
  set (a1 := a <| theld ::= <[j := (ind_of (addrs i), d)]> |>).
  assert (Hf1 : fsok SB a1).
  { destruct Hf as [Hl Hm Hu Hk]. split; [by apply (fsok_layout SB a)|exact Hm|..].
    - intros x Hx k y. simpl. intros [[<- <-]|[_ Hk']]%lookup_insert_Some; [|by eapply Hu].
      simpl. intros He. apply (data_not_bmap SB (ind_of (addrs i))); [lia|by rewrite He].
    - intros k x dd. simpl. intros [[<- [= <- <-]]|[_ Hk']]%lookup_insert_Some; [done|by eapply Hk]. }
  assert (Hbud1 : budget P a1 (S n)).
  { destruct Hbud as [? ? ? ?]. split; try done. simpl. rewrite Hh, map_size_insert_None, map_size_empty by done. lia. }
  apply (fwp_balloc SB P b); [done|by destruct Hb|by eapply (budget_le _ _ _ 1); [exact Hbud1|lia]|done|].
  destruct (budget_alloc P a1 n b Hbud1 HP (fu_range _ _ _ Hb)) as [Hbud2 _].
  apply fwp_bind. eapply fwp_setdata; [apply lookup_insert_eq|by rewrite length_put_le by lia|].
  apply fwp_bind. eapply fwp_log_write; [apply lookup_insert_eq|exact (budget_log_room P _ _ Hbud2)|exact (bg_ops _ _ _ Hbud2)|].
  apply fwp_ret. apply fwp_bind. eapply fwp_brelse; [apply lookup_insert_eq|left; simpl; set_solver|].
  apply fwp_ret, HQ.
  match goal with |- bmapped _ _ _ _ _ _ ?a' _ =>
    replace a' with (a_write (a_alloc SB a b) (ind_of (addrs i)) (put32 d off b)) end.
  - apply bmapped_indirect; try done. intros x. by apply (t_view_length bs).
  - unfold a_alloc, a_write, a1. destruct a. cbn in *. by rewrite insert_insert_eq, delete_insert_id.
Qed.

Lemma fwp_bmap P n ip i ic a bn (Q : Z -> list inode -> atx -> Prop) :
  fsok SB a -> ic !! ip = Some i -> idev i = ROOTDEV -> wf_file (tview a) (addrs i) -> theld a = ∅ ->
  0 <= bn < 140 -> (bptr (tview a) (addrs i) bn = 0 -> (cost (addrs i) < nfree SB (tview a))%nat) ->
  budget P a (S n + cost (addrs i)) -> bmap_set SB ⊆ P -> (ind_of (addrs i) <> 0 -> ind_of (addrs i) ∈ tlog a ∪ P) ->
  (forall r a' ad', bmapped P n a (addrs i) bn r a' ad' -> Q r (<[ip := i <| addrs := ad' |>]> ic) a') ->
  fwp SB (bmap ip bn) ic a Q.
Proof.
  intros Hf Hi Hdev Hw Hh Hbn Hfree Hbud HP Hind HQ. apply fwp_rel. intros bs Hbs.
  assert (Hlen : forall x, usable a x -> length (tview a x) = 512%nat) by (intros x; by apply (t_view_length bs)).
  assert (Hsame : <[ip := i <| addrs := addrs i |>]> ic = ic) by (apply list_insert_id; by destruct i).
  destruct (decide (bptr (tview a) (addrs i) bn = 0)) as [Hz|Hne].
  2: { eapply fwp_bmap_old; try done; [by eapply budget_read_room|]. rewrite <- Hsame. apply HQ. split; try done; [by apply evolves_refl|by left|lia]. }
  specialize (Hfree Hz). destruct (nfree_first SB a) as [b Hb]; [lia|].
  assert (Hbud1 : budget P a 1) by (eapply budget_le; [exact Hbud|lia]).
  unfold bmap. apply fwp_bind. eapply fwp_geti; [done|]. unfold NDIRECT, NINDIRECT. destruct (Z.ltb_spec bn 12).
  - apply fwp_bind. eapply fwp_rd; [apply ad_lookup; [apply Hw|lia]|].
    assert (Hz' := Hz). unfold bptr in Hz'. destruct (Z.ltb_spec bn 12); [|lia]. rewrite Hz'. cbn [Z.eqb]. rewrite Hdev.
    apply fwp_bind. eapply (fwp_balloc SB P b); [done..|]. apply fwp_bind. eapply fwp_modi; [done|]. apply fwp_ret.
    apply (HQ b _ (<[Z.to_nat bn := b]> (addrs i))). apply bmapped_direct; (done || lia).
  - destruct (Z.ltb_spec (bn - 12) 128); [|lia].
    apply fwp_bind. eapply fwp_rd; [apply ad_lookup; [apply Hw|lia]|].
    change (default 0 (addrs i !! Z.to_nat 12)) with (ind_of (addrs i)).
    destruct (Z.eqb_spec (ind_of (addrs i)) 0) as [Hi0|Hi0].
    + (* a new indirect block *)
      assert (Hc : cost (addrs i) = 1%nat) by (unfold cost; by rewrite Hi0).
      rewrite Hdev. apply fwp_bind, fwp_bind. eapply (fwp_balloc SB P b); [done..|].
      apply fwp_bind. eapply fwp_modi; [done|]. apply fwp_ret. rewrite <- Hdev.
      destruct (budget_alloc P a (S n) b) as [Hbud2 Hin2]; [by rewrite Hc, Nat.add_1_r in Hbud|done|apply Hb|].
      pose proof (unmarked_data SB a b Hf (fu_range _ _ _ Hb) (fu_free _ _ _ Hb)) as Hbd.
      destruct (link_new_ind a (addrs i) b Hf Hw Hh Hlen Hbd (fu_free _ _ _ Hb) Hi0) as [Hev Hp].
      set (i1 := i <| addrs ::= <[Z.to_nat 12 := b]> |>).
      assert (Hib : ind_of (addrs i1) = b) by (apply ind_of_insert_12, Hw).
      assert (Hbne : b <> 0) by (by eapply fresh_nonzero).
      change (idev i) with (idev i1). rewrite <- Hib at 1.
      eapply (fwp_bmap_indirect P n ip i1); try done; rewrite ?Hib; try done.
      * apply (ev_ok _ _ _ _ Hev).
      * by rewrite list_lookup_insert_eq by (by eapply lookup_lt_Some).
      * apply (ev_wf _ _ _ _ Hev).
      * lia.
      * change (bptr (tview (a_alloc SB a b)) (<[12%nat := b]> (addrs i)) bn = 0). by rewrite Hp.
      * pose proof (nfree_alloc SB a b (fo_layout _ _ Hf) Hlen Hbd (fu_free _ _ _ Hb)). lia.
      * by apply elem_of_union_l.
      * intros r a' Hbm. replace (<[ip := i1]> ic) with (<[ip := i <| addrs := addrs i1 |>]> ic) by done.
        apply HQ. by eapply bmapped_new_ind.
    + apply fwp_bind, fwp_ret. rewrite (cost_ind _ Hi0) in *. rewrite Nat.add_0_r in Hbud.
      apply (fwp_bmap_indirect P n ip i); try done; [lia|by apply Hind|].
      intros r a' Hbm. rewrite <- Hsame. by apply HQ.
Qed.
End File.
