(* ===== verification/FsInode.v ===== *)
(** * Inodes on the disk (src/fs.c: iupdate; src/fs.h: struct dinode)

    The inode that iupdate() stores is the one a later load finds, and the other
    inodes of the block stay as they are. *)

From stdpp Require Import prelude gmap strings list.
From Stdlib Require Import ZArith Lia.
From S2P Require Import Prelude Sleeplock Bio BioSpec Layout Log LogSpec Store Fs FsLogic FsAlloc FsFile.

(** ** The structure in its block *)

(** Bounds on the length of a block with fields written over it. *)
Ltac plen :=
  match goal with
  | |- context [length (put_le ?n ?d ?o ?v)] => rewrite (length_put_le n d o v); plen
  | _ => lia
  end.

Lemma length_put_words d off ws : (off + 4 * length ws <= length d)%nat -> length (put_words d off ws) = length d.
Proof.
  revert d off. induction ws as [|w ws IH]; intros d off Hl; [done|]. cbn [put_words length] in *.
  rewrite IH; rewrite length_put_le; lia.
Qed.

(** A field before the words. *)
Lemma get_put_words_other m d off ws off' :
  (off + 4 * length ws <= length d)%nat -> (off' + m <= off \/ off + 4 * length ws <= off')%nat ->
  get_le m (put_words d off ws) off' = get_le m d off'.
Proof.
  revert d off. induction ws as [|w ws IH]; intros d off Hl Ho; [done|]. cbn [put_words length] in *.
  rewrite IH by (rewrite ?length_put_le; lia). apply get_put_other; lia.
Qed.

Lemma get_put_words d off ws j w :
  (off + 4 * length ws <= length d)%nat -> ws !! j = Some w -> 0 <= w < 2 ^ 32 ->
  get32 (put_words d off ws) (off + 4 * j) = w.
Proof.
  revert d off j. induction ws as [|x ws IH]; intros d off j Hl Hj Hw; [done|]. cbn [put_words length] in *.
  destruct j as [|j].
  - injection Hj as ->. rewrite get_put_words_other by (rewrite ?length_put_le; lia).
    rewrite Nat.mul_0_r, Nat.add_0_r, get_put_same by lia. by apply Z.mod_small.
  - replace (off + 4 * S j)%nat with (off + 4 + 4 * j)%nat by lia. apply IH; [rewrite length_put_le; lia|done|done].
Qed.

(** The values the fields of an inode can hold. *)
Record dinode_ok (di : dinode) : Prop := {
  dk_short : Forall (fun x => - 2 ^ 15 <= x < 2 ^ 15) [d_type di; d_major di; d_minor di; d_nlink di];
  dk_size : 0 <= d_size di < 2 ^ 32;
  dk_addrs : length (d_addrs di) = 13%nat;
  dk_words : Forall (fun x => 0 <= x < 2 ^ 32) (d_addrs di);
}.

Lemma s16_u16 x : - 2 ^ 15 <= x < 2 ^ 15 -> s16 (u16 x) = x.
Proof.
  intros Hx. unfold s16, u16. destruct (Z.lt_ge_cases x 0).
  - replace (x mod 2 ^ 16) with (x + 2 ^ 16) by (apply (Z.mod_unique x (2 ^ 16) (-1)); lia).
    replace (x + 2 ^ 16 + 2 ^ 15) with ((x + 2 ^ 15) + 1 * 2 ^ 16) by lia.
    rewrite Z.mod_add, Z.mod_small by lia. lia.
  - rewrite (Z.mod_small x), Z.mod_small by lia. lia.
Qed.

Lemma u16_range x : 0 <= u16 x < 2 ^ 16.
Proof. apply Z.mod_pos_bound. lia. Qed.

Lemma length_put_dinode d off di :
  length (d_addrs di) = 13%nat -> (off + 64 <= length d)%nat -> length (put_dinode d off di) = length d.
Proof.
  intros Ha Hl. unfold put_dinode. rewrite length_put_words; plen.
Qed.

Lemma get_put16 d off x : (off + 2 <= length d)%nat -> get16 (put16 d off (u16 x)) off = u16 x.
Proof. intros Hl. rewrite get_put_same by lia. apply Z.mod_small, u16_range. Qed.

Lemma get_put_dinode d off di :
  dinode_ok di -> (off + 64 <= length d)%nat -> get_dinode (put_dinode d off di) off = di.
Proof.
  intros [Hs Hsz Ha Hw] Hl. repeat rewrite Forall_cons in Hs. destruct Hs as (H1 & H2 & H3 & H4 & _).
  unfold put_dinode. set (d1 := put16 d off _). set (d2 := put16 d1 _ _). set (d3 := put16 d2 _ _).
  set (d4 := put16 d3 _ _). set (d5 := put32 d4 _ _).
  assert (L1 : length d1 = length d) by (apply length_put_le; lia).
  assert (L2 : length d2 = length d) by (unfold d2; rewrite length_put_le; lia).
  assert (L3 : length d3 = length d) by (unfold d3; rewrite length_put_le; lia).
  assert (L4 : length d4 = length d) by (unfold d4; rewrite length_put_le; lia).
  assert (L5 : length d5 = length d) by (unfold d5; rewrite length_put_le; lia).
  unfold get_dinode. rewrite !get_put_words_other by lia.
  assert (E1 : get16 d5 off = u16 (d_type di)).
  { unfold d5, d4, d3, d2. rewrite !get_put_other by plen. apply get_put16. plen. }
  assert (E2 : get16 d5 (off + 2) = u16 (d_major di)).
  { unfold d5, d4, d3. rewrite !get_put_other by plen. apply get_put16. plen. }
  assert (E3 : get16 d5 (off + 4) = u16 (d_minor di)).
  { unfold d5, d4. rewrite !get_put_other by plen. apply get_put16. plen. }
  assert (E4 : get16 d5 (off + 6) = u16 (d_nlink di)).
  { unfold d5. rewrite !get_put_other by plen. apply get_put16. plen. }
  assert (E5 : get32 d5 (off + 8) = d_size di).
  { unfold d5. rewrite get_put_same by plen. by apply Z.mod_small. }
  rewrite E1, E2, E3, E4, E5, !s16_u16 by done.
  assert (E6 : (fun j => get32 (put_words d5 (off + 12) (d_addrs di)) (addr_off off j)) <$> seq 0 13 = d_addrs di).
  { apply list_eq. intros j. rewrite list_lookup_fmap. destruct (decide (j < 13)%nat) as [Hj|Hj].
    - rewrite lookup_seq_lt by lia. destruct (lookup_lt_is_Some_2 (d_addrs di) j) as [w Hwj]; [lia|].
      rewrite Hwj. cbn. f_equal. unfold addr_off. apply get_put_words; [lia|done|].
      rewrite Forall_forall in Hw. apply Hw. by eapply list_elem_of_lookup_2.
    - rewrite !lookup_ge_None_2; [done|lia|rewrite length_seq; lia]. }
  rewrite E6. by destruct di.
Qed.

Lemma get_put_dinode_other d off di off' :
  length (d_addrs di) = 13%nat -> (off + 64 <= length d)%nat -> (off' + 64 <= off \/ off + 64 <= off')%nat ->
  get_dinode (put_dinode d off di) off' = get_dinode d off'.
Proof.
  intros Ha Hl Ho. unfold put_dinode, get_dinode.
  assert (Hg : forall m o, (o + m <= off \/ off + 64 <= o)%nat -> get_le m (put_words (put32 (put16 (put16 (put16 (put16 d off
    (u16 (d_type di))) (off + 2) (u16 (d_major di))) (off + 4) (u16 (d_minor di))) (off + 6) (u16 (d_nlink di)))
    (off + 8) (d_size di)) (off + 12) (d_addrs di)) o = get_le m d o).
  { intros m o Hmo. rewrite get_put_words_other by plen.
    rewrite !get_put_other by plen. done. }
  rewrite !Hg by lia. f_equal. apply list_fmap_ext. intros k j Hj. apply lookup_seq in Hj as [-> Hj].
  apply Hg. unfold addr_off. lia.
Qed.

(** ** The inode table *)

Definition iblk (SB : superblock) (n : Z) : Z := sb_inodestart SB + n / 8.
Definition dinode_at (SB : superblock) (v : Z -> list Z) (n : Z) : dinode :=
  get_dinode (v (iblk SB n)) (dinode_off n).

(** An inode that exists, with the values its fields can hold. *)
Record inode_ok (SB : superblock) (i : inode) : Prop := {
  ik_num : 0 <= inum i < sb_ninodes SB;
  ik_fields : dinode_ok (to_dinode i);
}.

Lemma inode_ok_ext SB i j : inode_ok SB i -> inum j = inum i -> to_dinode j = to_dinode i -> inode_ok SB j.
Proof. intros [Hn Hd] En Ed. split; [by rewrite En|by rewrite Ed]. Qed.

Section Inode.
Context {B : Type} `{BlockStoreOk B} {K : Cap} (SB : superblock).
Implicit Types (ic : list inode) (a : atx).

Lemma dinode_off_bound n : (dinode_off n + 64 <= 512)%nat.
Proof. unfold dinode_off, IPB. pose proof (Z.mod_pos_bound n 8 ltac:(lia)). lia. Qed.

Lemma iblk_range a n : layout SB a -> 0 <= n < sb_ninodes SB ->
  sb_inodestart SB <= iblk SB n < sb_bmapstart SB /\ IBLOCK n SB = iblk SB n.
Proof.
  intros Hl Hn. pose proof (layout_bounds SB a Hl). destruct Hl as [Hs Hl Hi Hd]. unfold iblk, IBLOCK, IPB.
  pose proof (Z.div_pos n 8 ltac:(lia) ltac:(lia)). pose proof (Z.div_le_mono n (sb_ninodes SB) 8 ltac:(lia) ltac:(lia)).
  split; [lia|]. rewrite Z.quot_div_nonneg by lia. rewrite u32_small; lia.
Qed.

Lemma iblk_usable a n : layout SB a -> 0 <= n < sb_ninodes SB -> usable a (iblk SB n).
Proof.
  intros Hl Hn. destruct (iblk_range a n Hl Hn) as [Hr _]. pose proof (layout_bounds SB a Hl).
  destruct Hl as [Hs Hl Hi Hd]. unfold dstart in *. split; lia.
Qed.

Lemma iblk_not_bmap a n : layout SB a -> 0 <= n < sb_ninodes SB -> iblk SB n ∉ bmap_set SB.
Proof. intros Hl Hn. destruct (iblk_range a n Hl Hn) as [Hr _]. rewrite elem_of_bmap_set. lia. Qed.

Lemma iblk_not_data a n : layout SB a -> 0 <= n < sb_ninodes SB -> iblk SB n < dstart SB.
Proof.
  intros Hl Hn. destruct (iblk_range a n Hl Hn) as [Hr _]. pose proof (layout_bounds SB a Hl). unfold dstart. lia.
Qed.

(** The disk with inode [i] stored. *)
Definition a_iupdate (a : atx) (i : inode) : atx :=
  a_write a (iblk SB (inum i)) (put_dinode (tview a (iblk SB (inum i))) (dinode_off (inum i)) (to_dinode i)).

Lemma fwp_iupdate P n ip i ic a (Q : unit -> list inode -> atx -> Prop) :
  layout SB a -> ic !! ip = Some i -> idev i = ROOTDEV -> inode_ok SB i -> t_unheld a (iblk SB (inum i)) ->
  budget P a n -> Q tt ic (a_iupdate a i) -> fwp SB (iupdate ip) ic a Q.
Proof.
  intros Hl Hi Hdev [Hn Hd] Hu Hbud HQ. unfold iupdate. apply fwp_bind. eapply fwp_geti; [done|].
  apply fwp_bind, fwp_getsb. destruct (iblk_range a _ Hl Hn) as [_ ->]. rewrite Hdev.
  apply fwp_bind, fwp_bread; [by apply iblk_usable|done|by eapply budget_read_room|]. intros j Hj.
  apply fwp_bind. eapply fwp_data; [apply lookup_insert_eq|]. intros Hlen.
  apply fwp_store_block_last; [done| |by eapply budget_log_room|apply Hbud|exact HQ].
  pose proof (dinode_off_bound (inum i)). rewrite length_put_dinode; [done|apply Hd|lia].
Qed.

(** iupdate() stores the inode and leaves the others. *)
Lemma dinode_at_iupdate a i n :
  layout SB a -> length (tview a (iblk SB (inum i))) = 512%nat -> inode_ok SB i -> 0 <= n < sb_ninodes SB ->
  dinode_at SB (tview (a_iupdate a i)) n = if n =? inum i then to_dinode i else dinode_at SB (tview a) n.
Proof.
  intros Hl Hlen [Hi Hd] Hn. unfold dinode_at, a_iupdate. simpl.
  pose proof (dinode_off_bound (inum i)). pose proof (dinode_off_bound n).
  destruct (Z.eqb_spec n (inum i)) as [->|Hne].
  - rewrite tset_same. apply get_put_dinode; [done|lia].
  - unfold tset. destruct (Z.eqb_spec (iblk SB n) (iblk SB (inum i))) as [He|]; [|done]. rewrite <- He in *.
    apply get_put_dinode_other; [apply Hd|lia|]. unfold iblk in He. unfold dinode_off, IPB.
    pose proof (Z.div_mod n 8 ltac:(lia)). pose proof (Z.div_mod (inum i) 8 ltac:(lia)).
    pose proof (Z.mod_pos_bound n 8 ltac:(lia)). pose proof (Z.mod_pos_bound (inum i) 8 ltac:(lia)). lia.
Qed.

(** Files and the free map do not see it. *)
Lemma iupdate_view a i x : x <> iblk SB (inum i) -> tview (a_iupdate a i) x = tview a x.
Proof. intros Hx. unfold a_iupdate. simpl. by apply tset_other. Qed.

Lemma iupdate_file a i ad :
  layout SB a -> 0 <= inum i < sb_ninodes SB -> wf_file SB (tview a) ad ->
  let v' := tview (a_iupdate a i) in
  wf_file SB v' ad /\ (forall bn, bptr v' ad bn = bptr (tview a) ad bn) /\
  (forall x, owns (tview a) ad x -> v' x = tview a x) /\
  (forall c, 0 <= c < sb_size SB -> marked SB v' c = marked SB (tview a) c).
Proof.
  intros Hl Hn Hw v'. pose proof (iblk_not_data a _ Hl Hn) as Hnd. pose proof (layout_bounds SB a Hl) as Hb.
  assert (Hmk : forall c, 0 <= c < sb_size SB -> marked SB v' c = marked SB (tview a) c).
  { intros c Hc. unfold v', a_iupdate. simpl. apply marked_other; [done|by eapply iblk_not_bmap]. }
  assert (Hown : forall x, owns (tview a) ad x -> v' x = tview a x).
  { intros x Hx. apply iupdate_view. destruct (wf_data _ _ _ Hw x Hx). lia. }
  assert (Hind : ind_of ad <> 0 -> v' (ind_of ad) = tview a (ind_of ad)) by (intros; by apply Hown, owns_ind).
  split_and!; try done.
  - apply (wf_file_ext SB (tview a)); [done|done|]. intros x Hx. rewrite Hmk; [done|].
    destruct (wf_data _ _ _ Hw x Hx). lia.
  - intros bn. by apply bptr_ext.
Qed.

Lemma iupdate_fsok a i : fsok SB a -> 0 <= inum i < sb_ninodes SB -> theld a = ∅ -> fsok SB (a_iupdate a i).
Proof.
  intros [Hl Hm Hu Hk] Hn Hh. pose proof (layout_bounds SB a Hl).
  assert (Hmk : forall c, 0 <= c < sb_size SB -> marked SB (tview (a_iupdate a i)) c = marked SB (tview a) c).
  { intros c Hc. unfold a_iupdate. simpl. apply marked_other; [done|by eapply iblk_not_bmap]. }
  split; [by apply (fsok_layout SB a)|..].
  - intros b Hb. rewrite Hmk by lia. by apply Hm.
  - exact Hu.
  - intros j x d Hj. simpl in Hj. by rewrite Hh in Hj.
Qed.
End Inode.
