(* ===== verification/FsIO.v ===== *)
(** * Reading and writing files (src/fs.c: readi, writei, iupdate)

    [fbyte v ad j] is byte [j] of a file.  readi() returns a slice of the bytes
    and changes nothing; writei() replaces a slice, allocating what it needs,
    and leaves everything outside the file alone. *)

From stdpp Require Import prelude gmap strings list.
From Stdlib Require Import ZArith Lia.
From S2P Require Import Prelude Sleeplock Bio BioSpec Layout Log LogSpec Store Fs FsLogic FsAlloc FsFile.

Definition fbyte (v : Z -> list Z) (ad : list Z) (j : Z) : option Z :=
  v (bptr v ad (j / 512)) !! Z.to_nat (j mod 512).

(** [n] bytes from [off] on. *)
Definition slice (v : Z -> list Z) (ad : list Z) (off n : Z) : list Z :=
  (fun j => default 0 (fbyte v ad j)) <$> seqZ off n.

(** The number of blocks that [n] bytes from [off] on touch. *)
Definition nblk (off n : Z) : Z := if n <=? 0 then 0 else (off mod 512 + n + 511) / 512.

(** The file has every block that [n] bytes from [off] on touch. *)
Definition has_blocks (v : Z -> list Z) (ad : list Z) (off n : Z) : Prop :=
  0 < n -> forall bn, off / 512 <= bn -> bn * 512 < off + n -> bptr v ad bn <> 0.

Lemma slice_app v ad off n m : 0 <= n -> 0 <= m -> slice v ad off (n + m) = slice v ad off n ++ slice v ad (off + n) m.
Proof. intros Hn Hm. unfold slice. by rewrite seqZ_app, fmap_app. Qed.

Lemma length_slice v ad off n : length (slice v ad off n) = Z.to_nat n.
Proof. unfold slice. by rewrite length_fmap, length_seqZ. Qed.

Lemma in_block off k : 0 <= off -> 0 <= k -> off mod 512 + k < 512 ->
  (off + k) / 512 = off / 512 /\ (off + k) mod 512 = off mod 512 + k.
Proof.
  intros Ho Hk Hlt. pose proof (Z.div_mod off 512 ltac:(lia)). pose proof (Z.mod_pos_bound off 512 ltac:(lia)).
  assert (E : off + k = off / 512 * 512 + (off mod 512 + k)) by lia.
  split; rewrite E; [rewrite Z.div_add_l, (Z.div_small (off mod 512 + k)) by lia; lia|].
  rewrite Z.add_comm, Z.mod_add, Z.mod_small by lia. done.
Qed.

(** A piece of a block is a piece of the file. *)
Lemma chunk_slice v ad off m :
  0 <= off -> 0 <= m -> off mod 512 + m <= 512 -> length (v (bptr v ad (off / 512))) = 512%nat ->
  take (Z.to_nat m) (drop (Z.to_nat (off mod 512)) (v (bptr v ad (off / 512)))) = slice v ad off m.
Proof.
  intros Ho Hm Hle Hlen. pose proof (Z.mod_pos_bound off 512 ltac:(lia)).
  apply list_eq. intros k. unfold slice. rewrite list_lookup_fmap, lookup_take. case_decide as Hk.
  - rewrite lookup_drop, lookup_seqZ_lt by lia. cbn. unfold fbyte.
    destruct (in_block off (Z.of_nat k)) as [-> ->]; [lia..|].
    replace (Z.to_nat (off mod 512 + Z.of_nat k)) with (Z.to_nat (off mod 512) + k)%nat by lia.
    by destruct (lookup_lt_is_Some_2 (v (bptr v ad (off / 512))) (Z.to_nat (off mod 512) + k)) as [x ->]; [lia|].
  - by rewrite lookup_seqZ_ge by lia.
Qed.

(** The steps of the loops. *)
Lemma nblk_step off left m :
  0 <= off -> 0 < left -> m = left `min` (512 - off mod 512) ->
  0 < m <= left /\ off mod 512 + m <= 512 /\ nblk off left = 1 + nblk (off + m) (left - m) /\
  (m < left -> (off + m) mod 512 = 0 /\ (off + m) / 512 = off / 512 + 1).
Proof.
  intros Ho Hl ->. pose proof (Z.mod_pos_bound off 512 ltac:(lia)). pose proof (Z.div_mod off 512 ltac:(lia)) as Hd.
  set (o := off mod 512) in *. unfold nblk. fold o.
  assert (Hfull : left `min` (512 - o) < left ->
    (off + left `min` (512 - o)) mod 512 = 0 /\ (off + left `min` (512 - o)) / 512 = off / 512 + 1).
  { intros Hlt. replace (off + left `min` (512 - o)) with ((off / 512 + 1) * 512) by lia.
    by rewrite Z.mod_mul, Z.div_mul. }
  split_and!; [lia..| |done]. destruct (Z.leb_spec left 0); [lia|].
  destruct (Z.leb_spec (left - left `min` (512 - o)) 0) as [Hz|Hz].
  - symmetry. apply (Z.div_unique _ 512 1 (o + left - 1)); lia.
  - destruct Hfull as [-> _]; [lia|]. replace (o + left + 511) with (1 * 512 + (0 + (left - left `min` (512 - o)) + 511)) by lia.
    by rewrite Z.div_add_l by lia.
Qed.

Lemma nblk_nonneg off n : 0 <= nblk off n.
Proof.
  unfold nblk. destruct (Z.leb_spec n 0); [done|]. apply Z.div_pos; [|lia].
  pose proof (Z.mod_pos_bound off 512 ltac:(lia)). lia.
Qed.

Lemma nblk_one off m : 0 < m -> off mod 512 + m <= 512 -> nblk off m = 1.
Proof.
  intros Hm Hle. unfold nblk. destruct (Z.leb_spec m 0); [lia|]. pose proof (Z.mod_pos_bound off 512 ltac:(lia)).
  symmetry. apply (Z.div_unique_pos _ _ _ (off mod 512 + m - 1)); lia.
Qed.

Lemma nblk_zero off n : 0 <= off -> 0 <= n -> nblk off n <= 0 -> n = 0.
Proof.
  intros Ho Hn Hle. destruct (Z.eq_dec n 0) as [|Hne]; [done|].
  destruct (nblk_step off n _ Ho ltac:(lia) eq_refl) as (_ & _ & Hs & _).
  pose proof (nblk_nonneg (off + n `min` (512 - off mod 512)) (n - n `min` (512 - off mod 512))). lia.
Qed.

Lemma io_fuel_enough off n : 0 <= off -> 0 <= n -> nblk off n <= Z.of_nat (io_fuel n).
Proof.
  intros Ho Hn. unfold nblk, io_fuel, BSIZE. pose proof (Z.mod_pos_bound off 512 ltac:(lia)).
  pose proof (Z.div_mod n 512 ltac:(lia)). pose proof (Z.mod_pos_bound n 512 ltac:(lia)).
  assert (0 <= n / 512) by (apply Z.div_pos; lia).
  destruct (Z.leb_spec n 0); [lia|].
  enough ((off mod 512 + n + 511) / 512 <= n / 512 + 2) by lia.
  enough ((off mod 512 + n + 511) / 512 < n / 512 + 3) by lia. apply Z.div_lt_upper_bound; lia.
Qed.

Section IO.
Context {B : Type} `{BlockStoreOk B} {K : Cap} (SB : superblock) (devsw : list (devops B)).
Implicit Types (ic : list inode) (a : atx) (v : Z -> list Z) (ad : list Z).

(** ** Reading *)

Lemma has_blocks_here v ad off n : 0 < n -> has_blocks v ad off n -> bptr v ad (off / 512) <> 0.
Proof. intros Hn Hb. apply Hb; [done|lia|]. pose proof (Z.mul_div_le off 512). lia. Qed.

Lemma has_blocks_rest v ad off n m : 0 <= m -> has_blocks v ad off n -> has_blocks v ad (off + m) (n - m).
Proof.
  intros Hm Hb Hn bn H1 H2. apply Hb; [lia| |lia]. pose proof (Z.div_le_mono off (off + m) 512). lia.
Qed.

Lemma fwp_readi_loop ip i ic a (Q : list Z -> list inode -> atx -> Prop) fuel off left :
  fsok SB a -> ic !! ip = Some i -> idev i = ROOTDEV -> wf_file SB (tview a) (addrs i) -> theld a = ∅ -> read_room a ->
  0 <= off -> 0 <= left -> off + left <= 140 * 512 -> has_blocks (tview a) (addrs i) off left ->
  nblk off left <= Z.of_nat fuel ->
  Q (slice (tview a) (addrs i) off left) ic a -> fwp SB (readi_loop ip off left fuel) ic a Q.
Proof.
  intros Hf Hi Hdev Hw Hh Hbud. revert off left Q.
  induction fuel as [|fuel IH]; intros off left Q Ho Hl Hmax Hhas Hfuel HQ.
  - assert (left = 0) as -> by (apply (nblk_zero off); lia).
    by apply fwp_ret.
  - cbn [readi_loop]. destruct (Z.ltb_spec 0 left) as [Hpos|]; [|assert (left = 0) as -> by lia; by apply fwp_ret].
    unfold BSIZE. destruct (nblk_step off left _ Ho Hpos eq_refl) as (Hm & Hmo & Hn & Hnext).
    set (m := left `min` (512 - off mod 512)) in *.
    pose proof (has_blocks_here _ _ _ _ Hpos Hhas) as Hne.
    assert (Hbn : 0 <= off / 512 < 140).
    { split; [apply Z.div_pos; lia|]. apply Z.div_lt_upper_bound; lia. }
    pose proof (owns_bptr (tview a) (addrs i) _ Hbn Hne) as Hown. destruct (wf_data _ _ _ Hw _ Hown) as [Hr _].
    apply fwp_bind. eapply fwp_geti; [done|]. apply fwp_bind. eapply (fwp_bmap_old SB); try done.
    rewrite Hdev. apply fwp_bind, fwp_bread; [by apply (usable_data SB); [apply Hf|]|by apply none_held|done|].
    intros j Hj. apply fwp_bind. eapply fwp_data; [apply lookup_insert_eq|]. intros Hlen.
    rewrite chunk_slice by (done || lia). apply fwp_bind, fwp_brelse_clean; [done|].
    rewrite u32_small by lia. apply fwp_bind, IH; [lia|lia|lia|by apply has_blocks_rest; [lia|]|lia|].
    apply fwp_ret. rewrite <- slice_app by lia. by replace (m + (left - m)) with left by lia.
Qed.

(** A file in memory whose blocks are all there. *)
Record file_ok v (i : inode) : Prop := {
  fk_dev : idev i = ROOTDEV;
  fk_type : itype i <> T_DEV;
  fk_size : 0 <= isize i <= 140 * 512;
  fk_wf : wf_file SB v (addrs i);
  fk_full : has_blocks v (addrs i) 0 (isize i);
}.

Definition content v (i : inode) : list Z := slice v (addrs i) 0 (isize i).

Lemma slice_content v ad size off n :
  0 <= off -> 0 <= n -> off + n <= size ->
  slice v ad off n = take (Z.to_nat n) (drop (Z.to_nat off) (slice v ad 0 size)).
Proof.
  intros Ho Hn Hle. replace size with (off + (n + (size - off - n))) by lia.
  rewrite !slice_app by lia. rewrite drop_app_length' by (rewrite length_slice; lia).
  by rewrite take_app_length' by (rewrite length_slice; lia).
Qed.

Lemma has_blocks_sub v ad size off n : 0 <= off -> off + n <= size -> has_blocks v ad 0 size -> has_blocks v ad off n.
Proof.
  intros Ho Hn Hb Hpos bn H1 H2. apply Hb; [lia| |lia]. change (0 / 512) with 0. pose proof (Z.div_pos off 512). lia.
Qed.

Lemma fwp_readi ip i ic a off n (Q : Z * list Z -> list inode -> atx -> Prop) :
  fsok SB a -> ic !! ip = Some i -> file_ok (tview a) i -> theld a = ∅ -> read_room a ->
  0 <= off <= isize i -> 0 <= n < 2 ^ 31 ->
  let n' := n `min` (isize i - off) in
  Q (n', take (Z.to_nat n') (drop (Z.to_nat off) (content (tview a) i))) ic a ->
  fwp SB (readi devsw ip off n) ic a Q.
Proof.
  intros Hf Hi [Hdev Hty Hsz Hw Hfull] Hh Hbud Ho Hn n' HQ. unfold readi. apply fwp_bind. eapply fwp_geti; [done|].
  destruct (Z.eqb_spec (itype i) T_DEV); [done|]. rewrite u32_small by lia.
  destruct (Z.ltb_spec (isize i) off); [lia|]. destruct (Z.ltb_spec (off + n) off); [lia|]. cbn [orb].
  assert (Hn' : (if isize i <? off + n then u32 (isize i - off) else n) = n').
  { destruct (Z.ltb_spec (isize i) (off + n)); [rewrite u32_small|]; lia. }
  rewrite Hn'. apply fwp_bind. eapply fwp_readi_loop; try done; [lia|lia|lia| |apply io_fuel_enough; lia|].
  - apply (has_blocks_sub _ _ (isize i)); [lia|lia|done].
  - apply fwp_ret. rewrite s32_small by lia. unfold content in HQ. by rewrite <- slice_content in HQ by lia.
Qed.

(** ** Writing *)

Lemma lookup_put_bytes d o bs j :
  (o + length bs <= length d)%nat ->
  put_bytes d o bs !! j = if decide (o <= j < o + length bs)%nat then bs !! (j - o)%nat else d !! j.
Proof.
  intros Hl. unfold put_bytes. case_decide as Hj.
  - rewrite lookup_app_r by (rewrite length_take; lia). rewrite length_take, min_l by lia.
    by rewrite lookup_app_l by lia.
  - destruct (decide (j < o)%nat).
    + rewrite lookup_app_l by (rewrite length_take; lia). by rewrite lookup_take_lt by lia.
    + rewrite lookup_app_r by (rewrite length_take; lia). rewrite length_take, min_l by lia.
      rewrite lookup_app_r by lia. rewrite lookup_drop. f_equal. lia.
Qed.

Lemma length_put_bytes d o bs : (o + length bs <= length d)%nat -> length (put_bytes d o bs) = length d.
Proof. intros Hl. unfold put_bytes. rewrite !length_app, length_take, length_drop. lia. Qed.

(** Writing a data block of the file. *)
Lemma evolves_write a ad bn d :
  fsok SB a -> wf_file SB (tview a) ad -> theld a = ∅ -> 0 <= bn < 140 -> bptr (tview a) ad bn <> 0 ->
  let a' := a_write a (bptr (tview a) ad bn) d in
  evolves SB a ad a' ad /\ (forall bn', bptr (tview a') ad bn' = bptr (tview a) ad bn') /\
  nfree SB (tview a') = nfree SB (tview a).
Proof.
  intros Hf Hw Hh Hbn Hne a'. set (r := bptr (tview a) ad bn) in *.
  destruct (wf_data _ _ _ Hw r (owns_bptr _ _ _ Hbn Hne)) as [Hr Hmr].
  assert (Hnb : r ∉ bmap_set SB) by (apply data_not_bmap; lia).
  pose proof (layout_bounds SB a (fo_layout _ _ Hf)) as Hbnd.
  assert (Hind : ind_of ad <> 0 -> tview a' (ind_of ad) = tview a (ind_of ad)).
  { intros _. unfold a'. simpl. apply tset_other. intros He. by apply (wf_ind _ _ _ Hw bn Hbn Hne). }
  assert (Hp : forall bn', bptr (tview a') ad bn' = bptr (tview a) ad bn') by (intros bn'; by apply bptr_ext).
  assert (Hmk : forall c, 0 <= c < sb_size SB -> marked SB (tview a') c = marked SB (tview a) c).
  { intros c Hc. unfold a'. simpl. by apply marked_other. }
  assert (How : forall x, owns (tview a') ad x <-> owns (tview a) ad x) by (intros x; by apply owns_ext).
  split_and!; [|done|by apply rejected_ext; intros c Hc%elem_of_seqZ; apply Hmk; lia]. split; try done.
  - apply (wf_file_ext SB (tview a)); [done|done|]. intros x Hx. by rewrite Hmk by (by eapply owned_range).
  - destruct Hf as [Hl Hm Hu Hk]. split; [by apply (fsok_layout SB a)|..].
    + intros b Hb. rewrite Hmk by lia. by apply Hm.
    + exact Hu.
    + intros j x dd Hj. simpl in Hj. by rewrite Hh in Hj.
  - intros c Hc. by rewrite Hmk.
  - intros c Hc. rewrite Hmk by done. by left.
  - intros x Hx _. by apply How.
  - intros x Hx Hmx Hxb Hno. unfold a'. simpl. apply tset_other. intros ->. by apply Hno, owns_bptr.
Qed.

Record wrote a ad off (src : list Z) left a' ad' : Prop := {
  wr_ev : evolves SB a ad a' ad';
  wr_bytes : forall j, off <= j < off + left -> fbyte (tview a') ad' j = src !! Z.to_nat (j - off);
  wr_keep : forall j, 0 <= j < 140 * 512 -> ~ (off <= j < off + left) -> bptr (tview a) ad (j / 512) <> 0 ->
    fbyte (tview a') ad' j = fbyte (tview a) ad j;
  wr_has : has_blocks (tview a') ad' off left;
  wr_same : has_blocks (tview a) ad off left -> ad' = ad;
  wr_free : (nfree SB (tview a) + cost ad' <= nfree SB (tview a') + Z.to_nat (nblk off left) + cost ad)%nat;
}.

(** One block. *)
Lemma wrote_block P n a ad off src m r a1 ad1 :
  fsok SB a -> wf_file SB (tview a) ad -> theld a = ∅ -> bmapped SB P n a ad (off / 512) r a1 ad1 ->
  0 <= off -> off + m <= 140 * 512 -> 0 < m -> off mod 512 + m <= 512 -> m <= Z.of_nat (length src) ->
  length (tview a1 r) = 512%nat ->
  wrote a ad off src m
    (a_write a1 r (put_bytes (tview a1 r) (Z.to_nat (off mod 512)) (take (Z.to_nat m) src))) ad1.
Proof.
  intros Hf Hw Hh [Hev Hp Hne Hoth Hdat _ _ _ Hfr Hsame] Ho Hmax Hm Hle Hsrc Hlen.
  set (bn := off / 512) in *. set (o := off mod 512) in *. set (d' := put_bytes _ _ _).
  assert (Hbn : 0 <= bn < 140). { split; [apply Z.div_pos; lia|]. apply Z.div_lt_upper_bound; lia. }
  assert (Hor : 0 <= o) by (apply Z.mod_pos_bound; lia).
  assert (Htl : length (take (Z.to_nat m) src) = Z.to_nat m) by (rewrite length_take; lia).
  destruct (ev_shape _ _ _ _ _ Hev) as [Hh1 _].
  destruct (evolves_write a1 ad1 bn d') as (Hev2 & Hp2 & Hfr2);
    [apply Hev|apply Hev|congruence|done|congruence|]. rewrite Hp in Hev2, Hp2, Hfr2.
  set (a2 := a_write a1 r d') in *.
  assert (Hfb : forall j, fbyte (tview a2) ad1 j =
    if decide (bptr (tview a1) ad1 (j / 512) = r) then d' !! Z.to_nat (j mod 512) else fbyte (tview a1) ad1 j).
  { intros j. unfold fbyte. rewrite Hp2. unfold a2 at 1. simpl. unfold tset.
    case_decide as Hd; [by rewrite Hd, Z.eqb_refl|]. by destruct (Z.eqb_spec (bptr (tview a1) ad1 (j / 512)) r). }
  split.
  - by eapply evolves_trans.
  - intros j Hj. destruct (in_block off (j - off)) as [E1 E2]; [lia|lia|fold o; lia|].
    replace (off + (j - off)) with j in E1, E2 by lia. fold bn o in E1, E2.
    rewrite Hfb, decide_True by (by rewrite E1). rewrite E2. unfold d'. rewrite lookup_put_bytes by lia.
    rewrite decide_True by lia. rewrite lookup_take_lt by lia. f_equal. lia.
  - intros j Hj Hout Hb. assert (Hjb : 0 <= j / 512 < 140). { split; [apply Z.div_pos; lia|]. apply Z.div_lt_upper_bound; lia. }
    pose proof (ev_keep _ _ _ _ _ Hev (j / 512) Hjb Hb) as Hkp.
    assert (Hf1 : fbyte (tview a1) ad1 j = fbyte (tview a) ad j).
    { unfold fbyte. by rewrite Hkp, (Hdat (j / 512)). }
    rewrite Hfb, <- Hf1. case_decide as Hd; [|done].
    assert (Hjbn : j / 512 = bn).
    { apply (wf_inj _ _ _ (ev_wf _ _ _ _ _ Hev)); try done; [by rewrite Hd|by rewrite Hd, Hp]. }
    unfold fbyte. rewrite Hjbn, Hp. unfold d'. rewrite lookup_put_bytes by lia. rewrite decide_False; [done|].
    intros Hin. apply Hout. pose proof (Z.div_mod j 512 ltac:(lia)) as Hdj. pose proof (Z.div_mod off 512 ltac:(lia)) as Hdo.
    pose proof (Z.mod_pos_bound j 512 ltac:(lia)). rewrite Hjbn in Hdj. fold bn o in Hdo. lia.
  - intros _ bn' H1 H2. rewrite Hp2. assert (bn' = bn) as ->; [|congruence].
    pose proof (Z.div_mod off 512 ltac:(lia)) as Hdo. fold bn o in Hdo. lia.
  - intros Hb. by apply Hsame, (has_blocks_here _ _ off m).
  - rewrite nblk_one by done. rewrite Hfr2. lia.
Qed.

Lemma wrote_app a ad off src m left a1 ad1 a2 ad2 :
  wrote a ad off src m a1 ad1 -> wrote a1 ad1 (off + m) (drop (Z.to_nat m) src) (left - m) a2 ad2 ->
  0 <= off -> 0 < m <= left -> off + left <= 140 * 512 -> nblk off left = nblk off m + nblk (off + m) (left - m) ->
  wrote a ad off src left a2 ad2.
Proof.
  intros [Hev1 Hb1 Hk1 Hh1 Hs1 Hf1] [Hev2 Hb2 Hk2 Hh2 Hs2 Hf2] Ho Hm Hmax Hnb.
  assert (Hr : forall j, 0 <= j < 140 * 512 -> 0 <= j / 512 < 140).
  { intros j Hj. split; [apply Z.div_pos; lia|]. apply Z.div_lt_upper_bound; lia. }
  assert (Hhas1 : forall bn, off / 512 <= bn -> bn * 512 < off + m -> bptr (tview a2) ad2 bn <> 0).
  { intros bn Hb Hbm. specialize (Hh1 ltac:(lia) bn Hb Hbm). rewrite (ev_keep _ _ _ _ _ Hev2); [done| |done].
    split; [|lia]. pose proof (Z.div_pos off 512). lia. }
  split.
  - by eapply evolves_trans.
  - intros j Hj. destruct (Z.lt_ge_cases j (off + m)) as [Hlt|Hge].
    + rewrite Hk2; [apply Hb1; lia|lia|lia|]. apply Hh1; [lia|apply Z.div_le_mono; lia|].
      pose proof (Z.mul_div_le j 512). lia.
    + rewrite Hb2 by lia. rewrite lookup_drop. f_equal. lia.
  - intros j Hj Hout Hb. rewrite Hk2, Hk1; try done; try lia.
    by rewrite (ev_keep _ _ _ _ _ Hev1) by auto.
  - intros _ bn H1 H2. destruct (Z.lt_ge_cases (bn * 512) (off + m)) as [|Hge]; [by apply Hhas1|].
    apply Hh2; [lia| |lia]. apply Z.div_le_upper_bound; lia.
  - intros Hb. assert (He : ad1 = ad).
    { apply Hs1. intros _ bn H1 H2. apply Hb; lia. }
    subst ad1. apply Hs2. intros Hpos bn H1 H2.
    assert (Hne : bptr (tview a) ad bn <> 0) by (apply (has_blocks_rest _ _ _ _ m ltac:(lia) Hb); done).
    rewrite (ev_keep _ _ _ _ _ Hev1); [done| |done]. pose proof (Z.div_pos (off + m) 512 ltac:(lia) ltac:(lia)). lia.
  - pose proof (nblk_nonneg off m). pose proof (nblk_nonneg (off + m) (left - m)). lia.
Qed.

Lemma wrote_nil a ad off src : fsok SB a -> wf_file SB (tview a) ad -> wrote a ad off src 0 a ad.
Proof. intros Hf Hw. split; [by apply evolves_refl|intros; lia|done|intros Hlt; lia|done|lia]. Qed.

(** The blocks to come exist, or there is room for them. *)
Definition room_for a ad off n : Prop :=
  has_blocks (tview a) ad off n \/ (Z.to_nat (nblk off n) + cost ad <= nfree SB (tview a))%nat.

Lemma room_for_next P n a ad off left r a1 ad1 a2 m :
  room_for a ad off left -> bmapped SB P n a ad (off / 512) r a1 ad1 -> evolves SB a ad a2 ad1 ->
  nfree SB (tview a2) = nfree SB (tview a1) ->
  0 <= off -> 0 < m <= left -> off + left <= 140 * 512 -> nblk off left = 1 + nblk (off + m) (left - m) ->
  room_for a2 ad1 (off + m) (left - m).
Proof.
  intros [Hb|Hn] Hbm Hev Hfr Ho Hm Hmax Hs; [left|right].
  - intros Hpos bn H1 H2. assert (Hne : bptr (tview a) ad bn <> 0).
    { apply (has_blocks_rest _ _ _ _ m ltac:(lia) Hb); done. }
    rewrite (ev_keep _ _ _ _ _ Hev); [done| |done]. pose proof (Z.div_pos (off + m) 512 ltac:(lia) ltac:(lia)). lia.
  - pose proof (bm_free _ _ _ _ _ _ _ _ _ Hbm). pose proof (nblk_nonneg (off + m) (left - m)). lia.
Qed.

Lemma fwp_writei_loop P q fuel ip i ic a src off left (Q : Z -> list inode -> atx -> Prop) :
  fsok SB a -> ic !! ip = Some i -> idev i = ROOTDEV -> wf_file SB (tview a) (addrs i) -> theld a = ∅ ->
  bmap_set SB ⊆ P -> (ind_of (addrs i) <> 0 -> ind_of (addrs i) ∈ tlog a ∪ P) ->
  0 <= off -> 0 <= left <= Z.of_nat (length src) -> off + left <= 140 * 512 -> nblk off left <= Z.of_nat fuel ->
  room_for a (addrs i) off left -> budget P a (Z.to_nat (nblk off left) + cost (addrs i) + q) ->
  (forall a' ad', wrote a (addrs i) off src left a' ad' -> budget P a' q ->
     Q (off + left) (<[ip := i <| addrs := ad' |>]> ic) a') ->
  fwp SB (writei_loop ip src off left fuel) ic a Q.
Proof.
  revert i ic a src off left Q. induction fuel as [|fuel IH];
    intros i ic a src off left Q Hf Hi Hdev Hw Hh HP Hind Ho Hl Hmax Hfuel Hroom Hbud HQ;
    (destruct (Z.eq_dec left 0) as [->|Hl0];
     [assert (Hnil : fwp SB (mret off) ic a Q);
      [apply fwp_ret; assert (Hsame : <[ip := i <| addrs := addrs i |>]> ic = ic) by (apply list_insert_id; by destruct i);
       rewrite <- Hsame, <- (Z.add_0_r off); apply HQ; [by apply wrote_nil|by eapply budget_le; [exact Hbud|lia]]
      |exact Hnil]|]).
  { destruct Hl0. by apply (nblk_zero off); lia. }
  cbn [writei_loop]. destruct (Z.ltb_spec 0 left); [|lia]. unfold BSIZE.
  destruct (nblk_step off left _ Ho ltac:(lia) eq_refl) as (Hm & Hmo & Hn & Hnext).
  set (m := left `min` (512 - off mod 512)) in *. pose proof (nblk_nonneg (off + m) (left - m)) as Hnn.
  assert (Hbn : 0 <= off / 512 < 140). { split; [apply Z.div_pos; lia|]. apply Z.div_lt_upper_bound; lia. }
  set (k := (Z.to_nat (nblk (off + m) (left - m)) + q)%nat).
  assert (Hbud1 : budget P a (S k + cost (addrs i))) by (eapply budget_le; [exact Hbud|unfold k; lia]).
  apply fwp_bind. eapply fwp_geti; [done|]. apply fwp_bind. eapply (fwp_bmap SB P k); try done.
  { intros Hz. destruct Hroom as [Hb|Hn']; [|lia]. destruct (has_blocks_here _ _ off left ltac:(lia) Hb Hz). }
  intros r a1 ad1 Hbm. apply fwp_rel. intros bs Hbs.
  pose proof (bm_ev _ _ _ _ _ _ _ _ _ Hbm) as Hev. destruct (ev_shape _ _ _ _ _ Hev) as (Hh1 & _).
  rewrite Hh in Hh1. pose proof (bm_ptr _ _ _ _ _ _ _ _ _ Hbm) as Hptr. pose proof (bm_ne _ _ _ _ _ _ _ _ _ Hbm) as Hrne.
  assert (Hown : owns (tview a1) ad1 r) by (rewrite <- Hptr; apply owns_bptr; [done|congruence]).
  destruct (wf_data _ _ _ (ev_wf _ _ _ _ _ Hev) r Hown) as [Hr _].
  assert (Hus : usable a1 r) by (by apply (usable_data SB); [apply (ev_ok _ _ _ _ _ Hev)|]).
  assert (Hlen1 : length (tview a1 r) = 512%nat) by (by apply (t_view_length bs)).
  assert (Hbr : budget P a1 0) by (destruct (bm_budget _ _ _ _ _ _ _ _ _ Hbm) as [Hb|[_ Hb]]; (eapply budget_le; [exact Hb|lia])).
  rewrite Hdev. apply fwp_bind, fwp_bread; [done|by apply none_held|by eapply budget_read_room|].
  intros j Hj. apply fwp_bind. eapply fwp_data; [apply lookup_insert_eq|]. intros _.
  destruct (Z.ltb_spec (Z.of_nat (length src)) m); [lia|]. apply fwp_bind, fwp_ret.
  set (d' := put_bytes (tview a1 r) (Z.to_nat (off mod 512)) (take (Z.to_nat m) src)).
  assert (Hd' : length d' = 512%nat).
  { unfold d'. rewrite length_put_bytes; [done|]. rewrite length_take. pose proof (Z.mod_pos_bound off 512). lia. }
  apply fwp_store_block; [done|done|by eapply budget_log_room|apply Hbr|].
  pose proof (wrote_block P k a (addrs i) off src m r a1 ad1 Hf Hw Hh Hbm Ho ltac:(lia) ltac:(lia) Hmo ltac:(lia) Hlen1) as Hwb.
  fold d' in Hwb. set (a2 := a_write a1 r d') in *. set (i1 := i <| addrs := ad1 |>).
  destruct (evolves_write a1 ad1 (off / 512) d') as (Hev2 & _ & Hfr);
    [apply Hev|apply Hev|done|done|congruence|]. rewrite Hptr in Hev2, Hfr. fold a2 in Hev2, Hfr.
  assert (Hbud2 : budget P a2 (k + cost ad1)).
  { destruct (bm_budget _ _ _ _ _ _ _ _ _ Hbm) as [Hb|[Hin Hb]]; [by apply budget_write|].
    apply budget_free; [done|]. by apply elem_of_union_l. }
  rewrite u32_small by lia. apply (IH i1); try done.
  - apply (ev_ok _ _ _ _ _ Hev2).
  - by rewrite list_lookup_insert_eq by (by eapply lookup_lt_Some).
  - apply (ev_wf _ _ _ _ _ Hev2).
  - intros Hne. apply log_keep. by apply (bm_ind _ _ _ _ _ _ _ _ _ Hbm).
  - lia.
  - rewrite length_drop. lia.
  - lia.
  - lia.
  - eapply (room_for_next P k a (addrs i) off left r a1 ad1 a2); try done. apply Hwb.
  - eapply budget_le; [exact Hbud2|]. unfold k. change (addrs i1) with ad1. lia.
  - intros a' ad' Hw2 Hq. rewrite list_insert_insert_eq. replace (off + m + (left - m)) with (off + left) by lia.
    apply HQ; [|done]. eapply wrote_app; try done. by rewrite (nblk_one off m) by lia.
Qed.
End IO.
