(* ===== verification/FsWrite.v ===== *)
(** * writei() and readi() as operations on a file's bytes (src/fs.c) *)

From stdpp Require Import prelude gmap strings list.
From Stdlib Require Import ZArith Lia.
From S2P Require Import Prelude Sleeplock Bio BioSpec Layout Log LogSpec Store Fs FsLogic FsAlloc FsFile FsInode FsIO.

Lemma lookup_slice v ad off n k : 0 <= n ->
  slice v ad off n !! k = if decide (Z.of_nat k < n) then Some (default 0 (fbyte v ad (off + Z.of_nat k))) else None.
Proof.
  intros Hn. unfold slice. rewrite list_lookup_fmap. case_decide as Hk.
  - by rewrite lookup_seqZ_lt by lia.
  - by rewrite lookup_seqZ_ge by lia.
Qed.

(** The bytes [c] with [src] stored from [off] on. *)
Definition splice (c : list Z) (off : Z) (src : list Z) : list Z :=
  take (Z.to_nat off) c ++ src ++ drop (Z.to_nat off + length src) c.

Lemma lookup_splice c off src k :
  0 <= off <= Z.of_nat (length c) ->
  splice c off src !! k =
    if decide (Z.to_nat off <= k < Z.to_nat off + length src)%nat then src !! (k - Z.to_nat off)%nat
    else c !! k.
Proof.
  intros Ho. unfold splice. case_decide; [|destruct (decide (k < Z.to_nat off)%nat)].
  - rewrite lookup_app_r by (rewrite length_take; lia). rewrite length_take, min_l by lia.
    by rewrite lookup_app_l by lia.
  - rewrite lookup_app_l by (rewrite length_take; lia). by rewrite lookup_take_lt by lia.
  - rewrite lookup_app_r by (rewrite length_take; lia). rewrite length_take, min_l by lia.
    rewrite lookup_app_r by lia. rewrite lookup_drop. f_equal. lia.
Qed.

Section Write.
Context {B : Type} `{BlockStoreOk B} {K : Cap} (SB : superblock) (devsw : list (devops B)).
Implicit Types (ic : list inode) (a : atx) (v : Z -> list Z) (ad : list Z).

Lemma wrote_content a ad off src a' ad' sz :
  let n := Z.of_nat (length src) in
  wrote SB a ad off src n a' ad' -> has_blocks (tview a) ad 0 sz -> 0 <= off <= sz ->
  off + n <= 140 * 512 -> sz <= 140 * 512 ->
  slice (tview a') ad' 0 (sz `max` (off + n)) = splice (slice (tview a) ad 0 sz) off src.
Proof.
  intros n Hw Hb Ho Hm Hsz. apply list_eq. intros k. rewrite lookup_slice by lia.
  rewrite lookup_splice by (rewrite length_slice; lia).
  rewrite !lookup_slice by lia. rewrite Z.add_0_l.
  destruct (decide (Z.to_nat off <= k < Z.to_nat off + length src)%nat) as [Hk|Hk].
  - rewrite decide_True by lia. rewrite (wr_bytes _ _ _ _ _ _ _ _ Hw) by lia.
    replace (Z.to_nat (Z.of_nat k - off)) with (k - Z.to_nat off)%nat by lia.
    by destruct (lookup_lt_is_Some_2 src (k - Z.to_nat off)) as [x ->]; [lia|].
  - rewrite (decide_ext (Z.of_nat k < sz `max` (off + n)) (Z.of_nat k < sz)) by lia.
    assert (Hkeep : Z.of_nat k < sz -> fbyte (tview a') ad' (Z.of_nat k) = fbyte (tview a) ad (Z.of_nat k)).
    { intros Hks. apply (wr_keep _ _ _ _ _ _ _ _ Hw); [lia|lia|]. apply Hb; [lia|apply Z.div_pos; lia|].
      pose proof (Z.mul_div_le (Z.of_nat k) 512 ltac:(lia)). lia. }
    case_decide; [by rewrite Hkeep|done].
Qed.

(** What writei() of [src] at [off] does to the file [i]: [i'] is the inode
    afterwards. *)
Record written a (i : inode) off src a' (i' : inode) : Prop := {
  wn_file : file_ok SB (tview a') i';
  wn_size : isize i' = isize i `max` (off + Z.of_nat (length src));
  wn_content : content (tview a') i' = splice (content (tview a) i) off src;
  wn_same : i' = i <| addrs := addrs i' |> <| isize := isize i' |>;
  wn_disk : dinode_at SB (tview a) (inum i) = to_dinode i -> dinode_at SB (tview a') (inum i) = to_dinode i';
  wn_inodes : forall n, 0 <= n < sb_ninodes SB -> n <> inum i -> dinode_at SB (tview a') n = dinode_at SB (tview a) n;
  wn_frame : forall x, 0 <= x < sb_size SB -> marked SB (tview a) x = true -> x ∉ bmap_set SB -> x <> iblk SB (inum i) ->
    ~ owns (tview a) (addrs i) x -> tview a' x = tview a x;
  wn_marks : forall x, 0 <= x < sb_size SB -> marked SB (tview a) x = true -> marked SB (tview a') x = true;
  wn_fresh : forall x, 0 <= x < sb_size SB -> marked SB (tview a') x = true ->
    marked SB (tview a) x = true \/ owns (tview a') (addrs i') x;
  wn_owns : forall x, owns (tview a') (addrs i') x -> marked SB (tview a) x = true -> owns (tview a) (addrs i) x;
  wn_ok : fsok SB a';
  wn_shape : same_shape a a';
  wn_free : (nfree SB (tview a) + cost (addrs i') <=
    nfree SB (tview a') + Z.to_nat (nblk off (Z.of_nat (length src))) + cost (addrs i))%nat;
}.

Lemma meta_marked a x : fsok SB a -> 0 <= x < dstart SB -> marked SB (tview a) x = true.
Proof. intros Hf. apply Hf. Qed.

Lemma meta_not_owned v ad x : wf_file SB v ad -> x < dstart SB -> ~ owns v ad x.
Proof. intros Hw Hx Ho. destruct (wf_data _ _ _ Hw x Ho). lia. Qed.

(** The inode table while a file is written. *)
Lemma evolves_inodes a ad a' ad' n :
  fsok SB a -> wf_file SB (tview a) ad -> evolves SB a ad a' ad' -> 0 <= n < sb_ninodes SB ->
  tview a' (iblk SB n) = tview a (iblk SB n).
Proof.
  intros Hf Hw Hev Hn. pose proof (fo_layout _ _ Hf) as Hl. pose proof (layout_bounds SB a Hl).
  pose proof (iblk_not_data SB a n Hl Hn). destruct (iblk_range SB a n Hl Hn) as [Hr _].
  apply (ev_view _ _ _ _ _ Hev); [lia|apply Hf; lia|by eapply iblk_not_bmap|by apply meta_not_owned].
Qed.

Lemma has_blocks_mono a ad a' ad' sz off n :
  evolves SB a ad a' ad' -> has_blocks (tview a) ad 0 sz -> has_blocks (tview a') ad' off n -> 0 <= off <= sz ->
  sz `max` (off + n) <= 140 * 512 -> has_blocks (tview a') ad' 0 (sz `max` (off + n)).
Proof.
  intros Hev Hb Hb' Ho Hm Hpos bn H1 H2. change (0 / 512) with 0 in H1.
  destruct (Z.lt_ge_cases (bn * 512) sz) as [Hlt|Hge].
  - assert (Hne : bptr (tview a) ad bn <> 0) by (apply Hb; [lia|done|lia]).
    rewrite (ev_keep _ _ _ _ _ Hev); [done|lia|done].
  - apply Hb'; [lia| |lia]. apply Z.div_le_upper_bound; lia.
Qed.

(** writei() that does not extend the file. *)
Lemma written_inside a i off src a' ad' :
  fsok SB a -> theld a = ∅ -> file_ok SB (tview a) i -> 0 <= off -> off + Z.of_nat (length src) <= isize i ->
  wrote SB a (addrs i) off src (Z.of_nat (length src)) a' ad' -> inode_ok SB i ->
  written a i off src a' (i <| addrs := ad' |>).
Proof.
  intros Hf Hh [Hdev Hty Hsz Hw Hfull] Ho Hin Hwr [Hn Hd]. pose proof (wr_ev _ _ _ _ _ _ _ _ Hwr) as Hev.
  assert (Had : ad' = addrs i).
  { apply (wr_same _ _ _ _ _ _ _ _ Hwr). apply (has_blocks_sub _ _ (isize i)); [done|lia|done]. }
  subst ad'. assert (Hi : i <| addrs := addrs i |> = i) by (by destruct i). rewrite Hi.
  assert (Hdi : forall n, 0 <= n < sb_ninodes SB -> dinode_at SB (tview a') n = dinode_at SB (tview a) n).
  { intros n Hn'. unfold dinode_at. by rewrite (evolves_inodes a (addrs i) a' (addrs i)). }
  split; try done.
  - split; try done; [apply (ev_wf _ _ _ _ _ Hev)|].
    intros Hpos bn H1 H2. rewrite (ev_keep _ _ _ _ _ Hev); [by apply Hfull|change (0 / 512) with 0 in H1; lia|by apply Hfull].
  - lia.
  - unfold content. rewrite <- (wrote_content a (addrs i) off src a' (addrs i) (isize i)) by (done || lia).
    f_equal. lia.
  - by rewrite Hdi.
  - intros n Hn' _. by apply Hdi.
  - intros x Hx Hm Hb _. by apply (ev_view _ _ _ _ _ Hev).
  - apply (ev_marks _ _ _ _ _ Hev).
  - apply (ev_fresh _ _ _ _ _ Hev).
  - apply (ev_owns _ _ _ _ _ Hev).
  - apply (ev_ok _ _ _ _ _ Hev).
  - apply (ev_shape _ _ _ _ _ Hev).
  - apply (wr_free _ _ _ _ _ _ _ _ Hwr).
Qed.

(** writei() that extends it, with the iupdate(). *)
Lemma written_extend a i off src a' ad' i' :
  fsok SB a -> theld a = ∅ -> file_ok SB (tview a) i -> 0 <= off <= isize i ->
  isize i < off + Z.of_nat (length src) <= 140 * 512 ->
  wrote SB a (addrs i) off src (Z.of_nat (length src)) a' ad' -> inode_ok SB i' ->
  i' = i <| addrs := ad' |> <| isize := off + Z.of_nat (length src) |> ->
  length (tview a' (iblk SB (inum i))) = 512%nat ->
  written a i off src (a_iupdate SB a' i') i'.
Proof.
  intros Hf Hh [Hdev Hty Hsz Hw Hfull] Ho Hin Hwr Hik -> Hlen. pose proof (wr_ev _ _ _ _ _ _ _ _ Hwr) as Hev.
  set (i' := i <| addrs := ad' |> <| isize := off + Z.of_nat (length src) |>) in *.
  destruct (ev_shape _ _ _ _ _ Hev) as [Hh' _]. rewrite Hh in Hh'. pose proof (ev_ok _ _ _ _ _ Hev) as Hf'.
  pose proof (fo_layout _ _ Hf') as Hl'. pose proof (ik_num _ _ Hik) as Hn. change (inum i') with (inum i) in Hn.
  destruct (iupdate_file SB a' i' ad' Hl' Hn (ev_wf _ _ _ _ _ Hev)) as (Hw2 & Hp2 & Hown2 & Hmk2).
  assert (Hfb : forall j, 0 <= j < off + Z.of_nat (length src) -> fbyte (tview (a_iupdate SB a' i')) ad' j = fbyte (tview a') ad' j).
  { intros j Hj. unfold fbyte. rewrite Hp2. rewrite Hown2; [done|]. apply owns_bptr.
    - split; [apply Z.div_pos; lia|apply Z.div_lt_upper_bound; lia].
    - apply (has_blocks_mono a (addrs i) a' ad' (isize i) off (Z.of_nat (length src)) Hev Hfull (wr_has _ _ _ _ _ _ _ _ Hwr) ltac:(lia) ltac:(lia));
        [lia|apply Z.div_pos; lia|]. pose proof (Z.mul_div_le j 512 ltac:(lia)). lia. }
  split; try done.
  - split; try done; [simpl; lia|]. simpl. intros Hpos bn H1 H2. rewrite Hp2.
    apply (has_blocks_mono a (addrs i) a' ad' (isize i) off (Z.of_nat (length src)) Hev Hfull (wr_has _ _ _ _ _ _ _ _ Hwr)); lia.
  - simpl. lia.
  - unfold content. rewrite <- (wrote_content a (addrs i) off src a' ad' (isize i)) by (done || lia). simpl.
    replace (isize i `max` (off + Z.of_nat (length src))) with (off + Z.of_nat (length src)) by lia.
    apply list_eq. intros k. rewrite !lookup_slice by lia. case_decide; [|done]. by rewrite Hfb by lia.
  - intros _. rewrite (dinode_at_iupdate SB a' i') by done. by rewrite Z.eqb_refl.
  - intros n Hn' Hne. rewrite (dinode_at_iupdate SB a' i') by done. change (inum i') with (inum i).
    destruct (Z.eqb_spec n (inum i)); [done|]. unfold dinode_at. by rewrite (evolves_inodes a (addrs i) a' ad').
  - intros x Hx Hm Hb Hxi Hno. rewrite iupdate_view by done. by apply (ev_view _ _ _ _ _ Hev).
  - intros x Hx Hm. rewrite Hmk2 by done. by apply (ev_marks _ _ _ _ _ Hev).
  - intros x Hx Hm. rewrite Hmk2 in Hm by done. destruct (ev_fresh _ _ _ _ _ Hev x Hx Hm) as [?|Hown]; [by left|right].
    rewrite (owns_ext (tview a')); [done|]. intros Hi. by apply Hown2, owns_ind.
  - intros x Ho' Hm. apply (ev_owns _ _ _ _ _ Hev); [|done]. rewrite <- (owns_ext (tview a')); [done|].
    intros Hi. by apply Hown2, owns_ind.
  - by apply iupdate_fsok.
  - exact (ev_shape _ _ _ _ _ Hev).
  - pose proof (wr_free _ _ _ _ _ _ _ _ Hwr). assert (nfree SB (tview (a_iupdate SB a' i')) = nfree SB (tview a')); [|simpl addrs; lia].
    apply rejected_ext. intros c Hc%elem_of_seqZ. apply Hmk2. lia.
Qed.

Lemma wf_words a ad : layout SB a -> wf_file SB (tview a) ad -> Forall (fun x => 0 <= x < 2 ^ 32) ad.
Proof.
  intros Hl Hw. pose proof (layout_bounds SB a Hl) as Hb. apply Forall_lookup. intros j x Hj.
  assert (Hlt := lookup_lt_Some _ _ _ Hj). rewrite (wf_len _ _ _ Hw) in Hlt.
  destruct (Z.eq_dec x 0) as [|Hx]; [lia|]. assert (Hown : owns (tview a) ad x).
  { split; [done|]. destruct (decide (j = 12%nat)) as [->|]; [left; unfold ind_of; by rewrite Hj|right].
    exists (Z.of_nat j). split; [lia|]. unfold bptr. destruct (Z.ltb_spec (Z.of_nat j) 12); [|lia].
    by rewrite Nat2Z.id, Hj. }
  destruct (wf_data _ _ _ Hw x Hown). lia.
Qed.

Lemma wrote_take a ad off src n a' ad' :
  wrote SB a ad off src n a' ad' -> 0 <= n <= Z.of_nat (length src) -> wrote SB a ad off (take (Z.to_nat n) src) n a' ad'.
Proof.
  intros [Hev Hb Hk Hh Hs Hf] Hn. split; try done. intros j Hj. rewrite Hb by done. by rewrite lookup_take_lt by lia.
Qed.

Lemma fwp_writei_n P q ip i ic a buf off n (Q : Z -> list inode -> atx -> Prop) :
  let src := take (Z.to_nat n) buf in 0 <= n <= Z.of_nat (length buf) ->
  fsok SB a -> ic !! ip = Some i -> file_ok SB (tview a) i -> inode_ok SB i -> theld a = ∅ ->
  bmap_set SB ∪ {[iblk SB (inum i)]} ⊆ P -> (ind_of (addrs i) <> 0 -> ind_of (addrs i) ∈ tlog a ∪ P) ->
  0 <= off <= isize i -> off + n <= 140 * 512 -> room_for SB a (addrs i) off n ->
  budget P a (Z.to_nat (nblk off n) + cost (addrs i) + q) ->
  (forall i' a', written a i off src a' i' -> budget P a' q -> Q n (<[ip := i']> ic) a') ->
  fwp SB (writei devsw ip buf off n) ic a Q.
Proof.
  intros src Hnb Hf Hi Hfk Hik Hh HP Hind Ho Hmax Hroom Hbud HQ. pose proof Hfk as [Hdev Hty Hsz Hw Hfull].
  assert (Hsrc : Z.of_nat (length src) = n) by (unfold src; rewrite length_take; lia).
  unfold writei. apply fwp_bind. eapply fwp_geti; [done|]. destruct (Z.eqb_spec (itype i) T_DEV); [done|].
  rewrite u32_small by lia. destruct (Z.ltb_spec (isize i) off); [lia|]. destruct (Z.ltb_spec (off + n) off); [lia|].
  cbn [orb]. change (MAXFILE * BSIZE) with (140 * 512). destruct (Z.ltb_spec (140 * 512) (off + n)); [lia|].
  rewrite s32_small by lia. apply fwp_bind. eapply (fwp_writei_loop SB P q); try done; [set_solver|lia|apply io_fuel_enough; lia|].
  intros a' ad' Hwr%wrote_take Hq; [|done]. fold src in Hwr. pose proof (wr_ev _ _ _ _ _ _ _ _ Hwr) as Hev. pose proof (ev_ok _ _ _ _ _ Hev) as Hf'.
  destruct (ev_shape _ _ _ _ _ Hev) as [Hh' _]. rewrite Hh in Hh'. pose proof (fo_layout _ _ Hf') as Hl'.
  assert (Hlt : (ip < length ic)%nat) by (by eapply lookup_lt_Some).
  set (i1 := i <| addrs := ad' |>). assert (Hi1 : <[ip := i1]> ic !! ip = Some i1) by (by rewrite list_lookup_insert_eq).
  apply fwp_bind. eapply fwp_geti; [exact Hi1|]. change (isize i1) with (isize i).
  destruct (decide (off + n <= isize i)) as [Hin|Hout].
  - destruct (Z.ltb_spec (isize i) (off + n)); [lia|]. rewrite andb_false_r. apply fwp_bind, fwp_ret, fwp_ret, HQ; [|done].
    apply (written_inside a i off src a' ad'); rewrite ?Hsrc; (done || lia).
  - destruct (Z.ltb_spec (isize i) (off + n)); [|lia]. destruct (Z.ltb_spec 0 n); [|lia]. cbn [andb].
    apply fwp_rel. intros bs Hbs. set (i2 := i1 <| isize := off + n |>).
    assert (Hik2 : inode_ok SB i2).
    { destruct Hik as [Hn Hd]. split; [exact Hn|]. destruct Hd as [Hs Hz Ha Hwd]. pose proof (layout_bounds SB a' Hl').
      split; [exact Hs|simpl; lia|apply (ev_wf _ _ _ _ _ Hev)|].
      by apply (wf_words a'), (ev_wf _ _ _ _ _ Hev). }
    apply fwp_bind, fwp_bind. eapply fwp_modi; [exact Hi1|]. rewrite list_insert_insert_eq.
    eapply (fwp_iupdate SB P q ip i2); [done|by rewrite list_lookup_insert_eq|exact Hdev|done|by apply none_held|done|].
    apply fwp_ret, HQ; [|apply budget_free; [done|]; apply elem_of_union_r; set_solver].
    apply (written_extend a i off src a' ad' i2); rewrite ?Hsrc; try done. apply (t_view_length bs); [done|].
    apply (iblk_usable SB a'); [done|apply Hik].
Qed.
Lemma fwp_writei P q ip i ic a src off (Q : Z -> list inode -> atx -> Prop) :
  let n := Z.of_nat (length src) in
  fsok SB a -> ic !! ip = Some i -> file_ok SB (tview a) i -> inode_ok SB i -> theld a = ∅ ->
  bmap_set SB ∪ {[iblk SB (inum i)]} ⊆ P -> (ind_of (addrs i) <> 0 -> ind_of (addrs i) ∈ tlog a ∪ P) ->
  0 <= off <= isize i -> off + n <= 140 * 512 -> room_for SB a (addrs i) off n ->
  budget P a (Z.to_nat (nblk off n) + cost (addrs i) + q) ->
  (forall i' a', written a i off src a' i' -> budget P a' q -> Q n (<[ip := i']> ic) a') ->
  fwp SB (writei devsw ip src off n) ic a Q.
Proof.
  intros n Hf Hi Hfk Hik Hh HP Hind Ho Hmax Hroom Hbud HQ. eapply (fwp_writei_n P q); try done; [lia|].
  unfold n. rewrite Nat2Z.id, take_ge by lia. exact HQ.
Qed.

Lemma file_ok_ext v i j : file_ok SB v i -> idev j = idev i -> to_dinode j = to_dinode i -> file_ok SB v j.
Proof. intros [Hd Ht Hs Hw Hf] Ed E. unfold to_dinode in E. injection E as E1 _ _ _ E5 E6. split; by rewrite ?Ed, ?E1, ?E5, ?E6. Qed.

Lemma written_inode a i off src a' i' : inode_ok SB i -> written a i off src a' i' -> inode_ok SB i'.
Proof.
  intros [Hn [Hs _ _ _]] Hw. pose proof (wn_file _ _ _ _ _ _ Hw) as [_ _ Hsz Hwf _].
  rewrite (wn_same _ _ _ _ _ _ Hw). split; [exact Hn|]. split; [exact Hs|simpl; lia|apply (wf_len _ _ _ Hwf)|].
  apply (wf_words a'); [apply fo_layout, Hw|done].
Qed.
End Write.
