(* ===== verification/FsDir.v ===== *)
(** * Directories (src/fs.c: iget, dirlookup, dirlink, namecmp)

    A directory's bytes are those of a list of entries, a number and a name of at
    most DIRSIZ bytes.  dirlookup() finds the first entry in use with the name
    and dirlink() adds one, so that the next dirlookup() finds it. *)

From stdpp Require Import prelude gmap strings list.
From Stdlib Require Import ZArith Lia.
From S2P Require Import Strings Prelude Sleeplock Bio BioSpec Layout Log LogSpec Store Fs FsLogic FsAlloc FsFile FsInode FsIO FsWrite.

(** ** Names in buffers *)

Definition valid_name (str : list Z) : Prop := Forall (fun x => 0 < x < 256) str /\ (length str <= 14)%nat.

(** The buffer holds the name, and a nul behind it unless it has [k] bytes. *)
Fixpoint holds (k : nat) (nb str : list Z) : Prop :=
  match k, str, nb with
  | O, [], _ => True
  | S _, [], x :: _ => x = 0
  | S k', c :: str', x :: nb' => x = c /\ holds k' nb' str'
  | _, _, _ => False
  end.

Lemma holds_len k nb str : holds k nb str -> (length str <= k)%nat.
Proof.
  revert nb str. induction k as [|k IH]; intros [|x nb] [|c str]; simpl; try done; try lia.
  intros [_ Hh]. specialize (IH _ _ Hh). lia.
Qed.

Lemma holds_field k str : (length str <= k)%nat -> holds k (field k str) str.
Proof.
  revert str. induction k as [|k IH]; intros [|c str] Hl; simpl in *; try done; [lia|].
  split; [done|]. apply IH. lia.
Qed.

Lemma strncmp_holds k nb str str2 :
  holds k nb str -> Forall (fun x => 0 < x < 256) str -> Forall (fun x => 0 < x < 256) str2 -> (length str2 <= k)%nat ->
  exists r, strncmp nb (field k str2) k = Some r /\ (r = 0 <-> str = str2).
Proof.
  revert nb str str2. induction k as [|k IH]; intros nb str str2 Hh H1 H2 Hl.
  - destruct str, str2, nb; simpl in *; try done; try lia; by exists 0.
  - destruct str as [|c str], nb as [|x nb]; simpl in Hh; try done.
    + subst x. destruct str2 as [|y str2]; cbn [field take app length Nat.sub replicate strncmp Z.eqb negb andb].
      * exists (u8 0 - u8 0). done.
      * apply Forall_cons in H2 as [Hy _]. exists (u8 0 - u8 y). rewrite !u8_small by lia. split; [done|]. split; [lia|done].
    + destruct Hh as [-> Hh]. apply Forall_cons in H1 as [Hc H1]. destruct str2 as [|y str2].
      * exists (u8 c - u8 0). cbn. destruct (Z.eqb_spec c 0); [lia|]. cbn. split; [done|]. rewrite !u8_small by lia. split; [lia|done].
      * apply Forall_cons in H2 as [Hy H2]. simpl in Hl. destruct (IH nb str str2 Hh H1 H2 ltac:(lia)) as (r & Hr & Hiff).
        cbn [field take app strncmp length Nat.sub]. destruct (Z.eqb_spec c 0); [lia|]. cbn [negb andb].
        destruct (Z.eqb_spec c y) as [->|Hne].
        -- exists r. split; [exact Hr|]. rewrite Hiff. split; [by intros ->|by intros [= ->]].
        -- exists (u8 c - u8 y). split; [done|]. rewrite !u8_small by lia. split; [lia|]. by intros [= ? _].
Qed.

Lemma strncpy_holds k s nb str :
  length s = k -> holds k nb str -> Forall (fun x => 0 < x < 256) str -> strncpy_nat s nb k = Some (field k str).
Proof.
  revert s nb str. induction k as [|k IH]; intros s nb str Hs Hh H1.
  - destruct s; [|done]. destruct str; [done|by destruct nb].
  - destruct s as [|y s]; [done|]. injection Hs as Hs. destruct str as [|c str], nb as [|x nb]; simpl in Hh; try done.
    + subst x. cbn. rewrite zero_fill_spec by lia. rewrite drop_ge by lia. rewrite app_nil_r. done.
    + destruct Hh as [-> Hh]. apply Forall_cons in H1 as [Hc H1]. cbn. destruct (Z.eqb_spec c 0); [lia|].
      by rewrite (IH s nb str).
Qed.

(** ** Entries *)

Definition dent : Type := Z * list Z.
Definition dent_ok (e : dent) : Prop := 0 <= e.1 < 2 ^ 16 /\ valid_name e.2.

Definition enc (e : dent) : list Z := put_dirent (mkdirent e.1 (field 14 e.2)).
Definition dir_bytes (es : list dent) : list Z := mjoin (enc <$> es).

Lemma length_enc e : length (enc e) = 16%nat.
Proof. unfold enc, put_dirent. simpl. by rewrite length_field. Qed.

Lemma get_enc e : dent_ok e -> get_dirent (enc e) = mkdirent e.1 (field 14 e.2).
Proof.
  intros [Hn _]. unfold get_dirent, enc, put_dirent. cbn [de_inum de_name]. f_equal.
  - unfold get_le. rewrite drop_0, take_app_length' by (by rewrite length_to_bytes). apply of_to_bytes_small. done.
  - rewrite drop_app_length' by (by rewrite length_to_bytes). apply take_ge. by rewrite length_field.
Qed.

Lemma length_dir_bytes es : length (dir_bytes es) = (16 * length es)%nat.
Proof.
  induction es as [|e es IH]; [done|]. change (dir_bytes (e :: es)) with (enc e ++ dir_bytes es).
  rewrite length_app, length_enc, IH. simpl. lia.
Qed.

Lemma dir_bytes_entry es k e :
  es !! k = Some e -> take 16 (drop (16 * k) (dir_bytes es)) = enc e.
Proof.
  revert k. induction es as [|x es IH]; intros k Hk; [done|]. change (dir_bytes (x :: es)) with (enc x ++ dir_bytes es).
  destruct k as [|k].
  - injection Hk as ->. rewrite Nat.mul_0_r, drop_0. by rewrite take_app_length' by (by rewrite length_enc).
  - replace (16 * S k)%nat with (16 + 16 * k)%nat by lia.
    rewrite <- drop_drop, drop_app_length' by (by rewrite length_enc). by apply IH.
Qed.

(** The entry dirlookup() looks for: its number and offset. *)
Fixpoint dir_find (str : list Z) (es : list dent) (off : Z) : option (Z * Z) :=
  match es with
  | [] => None
  | e :: es' =>
      if (e.1 =? 0) || negb (bool_decide (str = e.2)) then dir_find str es' (off + 16) else Some (e.1, off)
  end.

(** The place for a new entry, and the directory with it. *)
Definition free_slot (es : list dent) : nat :=
  match find_index (fun e : dent => e.1 =? 0) es with Some k => k | None => length es end.

Definition dir_add (es : list dent) (e : dent) : list dent :=
  take (free_slot es) es ++ e :: drop (S (free_slot es)) es.

Lemma free_slot_le es : (free_slot es <= length es)%nat.
Proof. unfold free_slot. destruct (find_index _ es) eqn:Hf; [|done]. apply find_index_lt in Hf. lia. Qed.

Lemma dir_bytes_app es es' : dir_bytes (es ++ es') = dir_bytes es ++ dir_bytes es'.
Proof. unfold dir_bytes. by rewrite fmap_app, join_app. Qed.

Lemma dir_add_bytes es e : dir_bytes (dir_add es e) = splice (dir_bytes es) (16 * Z.of_nat (free_slot es)) (enc e).
Proof.
  pose proof (free_slot_le es) as Hle. set (k := free_slot es) in *. unfold dir_add, splice. fold k.
  rewrite dir_bytes_app. change (dir_bytes (e :: drop (S k) es)) with (enc e ++ dir_bytes (drop (S k) es)).
  replace (Z.to_nat (16 * Z.of_nat k)) with (16 * k)%nat by lia. rewrite length_enc.
  assert (Hsplit : dir_bytes es = dir_bytes (take k es) ++ dir_bytes (drop k es)) by (by rewrite <- dir_bytes_app, take_drop).
  assert (Hlk : length (dir_bytes (take k es)) = (16 * k)%nat) by (rewrite length_dir_bytes, length_take; lia).
  rewrite Hsplit at 1. rewrite take_app_length' by done. f_equal. f_equal.
  rewrite Hsplit, <- drop_drop, drop_app_length' by done.
  destruct (drop k es) as [|x r] eqn:Hd.
  - rewrite (drop_ge es) by (apply (f_equal length) in Hd; rewrite length_drop in Hd; simpl in Hd; lia). done.
  - change (dir_bytes (x :: r)) with (enc x ++ dir_bytes r). rewrite drop_app_length' by (by rewrite length_enc).
    f_equal. replace (S k) with (k + 1)%nat by lia. by rewrite <- drop_drop, Hd.
Qed.

Lemma dir_find_app str es es' off :
  dir_find str es off = None -> dir_find str (es ++ es') off = dir_find str es' (off + 16 * Z.of_nat (length es)).
Proof.
  revert off. induction es as [|e es IH]; intros off Hn; [by rewrite Z.add_0_r|]. cbn [dir_find app length] in *.
  destruct ((e.1 =? 0) || negb (bool_decide (str = e.2))); [|done]. rewrite IH by done. f_equal. lia.
Qed.

Lemma dir_find_prefix str es es' off : dir_find str (es ++ es') off = None -> dir_find str es off = None.
Proof.
  revert off. induction es as [|e es IH]; intros off Hn; [done|]. cbn [dir_find app] in *.
  destruct ((e.1 =? 0) || negb (bool_decide (str = e.2))); [|done]. by eapply IH.
Qed.

Lemma dir_find_add str es n :
  dir_find str es 0 = None -> n <> 0 -> dir_find str (dir_add es (n, str)) 0 = Some (n, 16 * Z.of_nat (free_slot es)).
Proof.
  intros Hn Hz. unfold dir_add. pose proof (free_slot_le es) as Hle. set (k := free_slot es) in *.
  assert (Ht : dir_find str (take k es) 0 = None) by (apply (dir_find_prefix _ _ (drop k es)); by rewrite take_drop).
  rewrite dir_find_app by done. rewrite length_take, min_l by lia. cbn [dir_find fst snd].
  rewrite (proj2 (Z.eqb_neq n 0)), bool_decide_true by done. done.
Qed.

Lemma dir_find_other str str' es n :
  str' <> str -> dir_find str' (dir_add es (n, str)) 0 = dir_find str' es 0.
Proof.
  intros Hne. enough (Hall : forall off, dir_find str' (dir_add es (n, str)) off = dir_find str' es off) by apply Hall.
  unfold dir_add, free_slot. induction es as [|e es IH]; intros off; cbn [find_index].
  - cbn [take drop app dir_find fst snd length]. rewrite bool_decide_false by done. by rewrite orb_true_r.
  - destruct (Z.eqb_spec e.1 0) as [He|He].
    + cbn [take drop app dir_find fst snd]. rewrite (bool_decide_false (str' = str)) by done.
      cbn [negb]. by rewrite orb_true_r, He.
    + specialize (IH (off + 16)). destruct (find_index (fun e : dent => e.1 =? 0) es) as [k|]; cbn [fmap option_fmap option_map].
      * cbn [take drop app dir_find]. by rewrite IH.
      * cbn [length take drop app dir_find]. by rewrite IH.
Qed.

(** ** The inode cache *)

(** The entry that iget() takes, and the cache afterwards. *)
Definition iget_ic (dev n : Z) (ic : list inode) : option (nat * list inode) :=
  match find_index (fun ip => (0 <? ref ip) && (idev ip =? dev) && (inum ip =? n)) ic with
  | Some ip => Some (ip, alter (fun i => i <| ref ::= fun r => s32 (r + 1) |>) ip ic)
  | None =>
      ip ← find_index (fun ip => ref ip =? 0) ic;
      Some (ip, alter (fun i => i <| idev := dev |> <| inum := n |> <| ref := 1 |> <| ivalid := 0 |>) ip ic)
  end.

Section Dir.
Context {B : Type} `{BlockStoreOk B} {K : Cap} (SB : superblock) (devsw : list (devops B)).
Implicit Types (ic : list inode) (a : atx).

Lemma alter_lookup_insert {A} (f : A -> A) (l : list A) ip x : l !! ip = Some x -> alter f ip l = <[ip := f x]> l.
Proof. apply alter_insert. Qed.

Lemma fwp_iget dev n ip ic ic' a (Q : nat -> list inode -> atx -> Prop) :
  iget_ic dev n ic = Some (ip, ic') -> Q ip ic' a -> fwp SB (iget dev n) ic a Q.
Proof.
  intros Hg HQ b t Hr. exists ip, [], b, ic', a. rewrite app_nil_r. split_and!; try done.
  unfold iget. rewrite bindE, acquire_ok by set_solver. cbn [obind]. rewrite bindE, getSE. cbn [obind icache].
  unfold iget_ic in Hg. destruct (find_index _ ic) as [k|] eqn:Hf.
  - injection Hg as <- <-. apply find_index_Some in Hf as [(i & Hi & _) _]. rewrite (alter_insert _ _ _ i) by done.
    unfold modi, geti. mrun. cbn [icache]. rewrite Hi. mrun. done.
  - destruct (find_index (fun ip => ref ip =? 0) ic) as [k|] eqn:Hf2; [|done]. injection Hg as <- <-.
    apply find_index_Some in Hf2 as [(i & Hi & _) _]. rewrite (alter_insert _ _ _ i) by done.
    unfold modi, geti. mrun. cbn [icache]. rewrite Hi. mrun. done.
Qed.

(** ** A directory *)

Record dir_ok a (i : inode) (es : list dent) : Prop := {
  dr_file : file_ok SB (tview a) i;
  dr_type : itype i = T_DIR;
  dr_bytes : content (tview a) i = dir_bytes es;
  dr_ents : Forall dent_ok es;
}.

Lemma dir_size a i es : dir_ok a i es -> isize i = 16 * Z.of_nat (length es).
Proof.
  intros [Hf _ Hb _]. apply (f_equal length) in Hb. unfold content in Hb.
  rewrite length_slice, length_dir_bytes in Hb. destruct (fk_size _ _ _ Hf). lia.
Qed.

(** Reading an entry. *)
Lemma fwp_read_dirent ip i ic a es j e (Q : Z * list Z -> list inode -> atx -> Prop) :
  fsok SB a -> ic !! ip = Some i -> dir_ok a i es -> theld a = ∅ -> read_room a -> es !! j = Some e ->
  Q (16, enc e) ic a -> fwp SB (readi devsw ip (16 * Z.of_nat j) 16) ic a Q.
Proof.
  intros Hf Hi Hd Hh Hbud Hj HQ. pose proof (dir_size _ _ _ Hd) as Hsz. pose proof (lookup_lt_Some _ _ _ Hj).
  eapply (fwp_readi SB devsw); try done; [apply Hd|lia|].
  replace (16 `min` (isize i - 16 * Z.of_nat j)) with 16 by lia.
  rewrite (dr_bytes _ _ _ Hd). replace (Z.to_nat (16 * Z.of_nat j)) with (16 * j)%nat by lia.
  change (Z.to_nat 16) with 16%nat. by rewrite (dir_bytes_entry _ _ e).
Qed.

Lemma lookup_step {A} (l : list A) j x r : drop j l = x :: r -> l !! j = Some x /\ drop (S j) l = r.
Proof.
  intros Hd. split.
  - rewrite <- (Nat.add_0_r j), <- lookup_drop, Hd. done.
  - replace (S j) with (j + 1)%nat by lia. by rewrite <- drop_drop, Hd.
Qed.

Lemma fwp_dirlookup_loop dp i ic a es name str (Q : option (nat * Z) -> list inode -> atx -> Prop) fuel j :
  fsok SB a -> ic !! dp = Some i -> dir_ok a i es -> theld a = ∅ -> read_room a ->
  holds 14 name str -> valid_name str -> (length es - j <= fuel)%nat -> (j <= length es)%nat ->
  match dir_find str (drop j es) (16 * Z.of_nat j) with
  | None => Q None ic a
  | Some (n, off) => exists ip ic', iget_ic ROOTDEV n ic = Some (ip, ic') /\ Q (Some (ip, off)) ic' a
  end ->
  fwp SB (dirlookup_loop devsw dp name (16 * Z.of_nat j) fuel) ic a Q.
Proof.
  intros Hf Hi Hd Hh Hbud Hname [Hstr Hsl]. pose proof (dir_size _ _ _ Hd) as Hsz.
  destruct (fk_size _ _ _ (dr_file _ _ _ Hd)) as [_ Hmax].
  revert j. induction fuel as [|fuel IH]; intros j Hfuel Hj HQ;
    cbn [dirlookup_loop]; apply fwp_bind; (eapply fwp_geti; [done|]); rewrite Hsz;
    (destruct (Z.ltb_spec (16 * Z.of_nat j) (16 * Z.of_nat (length es))) as [Hlt|Hge];
     [|rewrite drop_ge in HQ by lia; by apply fwp_ret]); [lia|].
  destruct (drop j es) as [|e r] eqn:Hdrop; [apply (f_equal length) in Hdrop; rewrite length_drop in Hdrop; simpl in Hdrop; lia|].
  destruct (lookup_step _ _ _ _ Hdrop) as [He Hr]. pose proof (dr_ents _ _ _ Hd) as Hents.
  rewrite Forall_lookup in Hents. specialize (Hents _ _ He). destruct (Hents) as [_ [Hes Hel]].
  apply fwp_bind. eapply fwp_read_dirent; try done. cbn [fst snd Z.eqb negb]. rewrite get_enc by done. cbn [de_inum de_name].
  rewrite u32_small by lia. replace (16 * Z.of_nat j + 16) with (16 * Z.of_nat (S j)) in * by lia.
  cbn [dir_find] in HQ. rewrite <- Hr in HQ. replace (16 * Z.of_nat j + 16) with (16 * Z.of_nat (S j)) in HQ by lia.
  destruct (Z.eqb_spec e.1 0) as [Hz|Hz]; [apply IH; [lia|lia|done]|]. cbn [orb] in HQ.
  destruct (strncmp_holds 14 name str e.2 Hname Hstr Hes Hel) as (c & Hc & Hiff).
  apply fwp_bind. unfold namecmp. eapply fwp_option; [exact Hc|].
  destruct (Z.eqb_spec c 0) as [Hc0|Hc0].
  - rewrite bool_decide_true in HQ by (by apply Hiff). cbn [negb] in HQ. destruct HQ as (ip & ic' & Hg & HQ).
    rewrite (fk_dev _ _ _ (dr_file _ _ _ Hd)). apply fwp_bind. eapply fwp_iget; [exact Hg|]. by apply fwp_ret.
  - rewrite bool_decide_false in HQ by (by rewrite <- Hiff). apply IH; [lia|lia|done].
Qed.

Lemma fwp_dirlookup dp i ic a es name str (Q : option (nat * Z) -> list inode -> atx -> Prop) :
  fsok SB a -> ic !! dp = Some i -> dir_ok a i es -> theld a = ∅ -> read_room a ->
  holds 14 name str -> valid_name str ->
  match dir_find str es 0 with
  | None => Q None ic a
  | Some (n, off) => exists ip ic', iget_ic ROOTDEV n ic = Some (ip, ic') /\ Q (Some (ip, off)) ic' a
  end ->
  fwp SB (dirlookup devsw dp name) ic a Q.
Proof.
  intros Hf Hi Hd Hh Hbud Hname Hstr HQ. unfold dirlookup. apply fwp_bind. eapply fwp_geti; [done|].
  rewrite (dr_type _ _ _ Hd). cbn [T_DIR Z.eqb negb]. rewrite (dir_size _ _ _ Hd).
  apply (fwp_dirlookup_loop dp i ic a es name str _ _ 0); try done; [|lia].
  rewrite Z.mul_comm, Z.div_mul by lia. lia.
Qed.

(** ** Adding an entry *)

Lemma free_slot_cons e es : free_slot (e :: es) = if e.1 =? 0 then 0%nat else S (free_slot es).
Proof. unfold free_slot. cbn [find_index]. destruct (e.1 =? 0); [done|]. by destruct (find_index _ es). Qed.

Lemma fwp_empty_dirent dp i ic a es (Q : Z -> list inode -> atx -> Prop) fuel j :
  fsok SB a -> ic !! dp = Some i -> dir_ok a i es -> theld a = ∅ -> read_room a ->
  (length es - j <= fuel)%nat -> (j <= length es)%nat ->
  Q (16 * Z.of_nat (j + free_slot (drop j es))) ic a -> fwp SB (empty_dirent devsw dp (16 * Z.of_nat j) fuel) ic a Q.
Proof.
  intros Hf Hi Hd Hh Hbud. pose proof (dir_size _ _ _ Hd) as Hsz.
  destruct (fk_size _ _ _ (dr_file _ _ _ Hd)) as [_ Hmax].
  revert j. induction fuel as [|fuel IH]; intros j Hfuel Hj HQ;
    cbn [empty_dirent]; apply fwp_bind; (eapply fwp_geti; [done|]); rewrite Hsz, u32_small by lia;
    (destruct (Z.ltb_spec (16 * Z.of_nat j) (16 * Z.of_nat (length es))) as [Hlt|Hge];
     [|rewrite drop_ge in HQ by lia; change (free_slot []) with 0%nat in HQ; rewrite Nat.add_0_r in HQ; by apply fwp_ret]); [lia|].
  destruct (drop j es) as [|e r] eqn:Hdrop; [apply (f_equal length) in Hdrop; rewrite length_drop in Hdrop; simpl in Hdrop; lia|].
  destruct (lookup_step _ _ _ _ Hdrop) as [He Hr]. pose proof (dr_ents _ _ _ Hd) as Hents.
  rewrite Forall_lookup in Hents. specialize (Hents _ _ He).
  apply fwp_bind. eapply fwp_read_dirent; try done. cbn [fst snd Z.eqb negb]. rewrite get_enc by done. cbn [de_inum].
  rewrite free_slot_cons in HQ. destruct (Z.eqb_spec e.1 0) as [Hz|Hz].
  - rewrite Nat.add_0_r in HQ. by apply fwp_ret.
  - rewrite s32_small by lia. replace (16 * Z.of_nat j + 16) with (16 * Z.of_nat (S j)) by lia.
    apply IH; [lia|lia|]. rewrite Hr. by replace (S j + free_slot r)%nat with (j + S (free_slot r))%nat by lia.
Qed.

Lemma dir_ok_written a i es e a' i' :
  dir_ok a i es -> dent_ok e -> written SB a i (16 * Z.of_nat (free_slot es)) (enc e) a' i' -> dir_ok a' i' (dir_add es e).
Proof.
  intros [Hf Ht Hb He] Hok Hw. split.
  - apply Hw.
  - by rewrite (wn_same _ _ _ _ _ _ _ Hw).
  - by rewrite (wn_content _ _ _ _ _ _ _ Hw), Hb, dir_add_bytes.
  - unfold dir_add. apply Forall_app. split; [by apply Forall_take|]. constructor; [done|by apply Forall_drop].
Qed.

Lemma fwp_dirlink pid P q dp i ic a es name str n (Q : Z -> list inode -> atx -> Prop) :
  let off := 16 * Z.of_nat (free_slot es) in
  fsok SB a -> ic !! dp = Some i -> dir_ok a i es -> inode_ok SB i -> theld a = ∅ ->
  holds 14 name str -> valid_name str -> 0 <= n < 2 ^ 16 -> dir_find str es 0 = None ->
  bmap_set SB ∪ {[iblk SB (inum i)]} ⊆ P -> (ind_of (addrs i) <> 0 -> ind_of (addrs i) ∈ tlog a ∪ P) ->
  off + 16 <= 140 * 512 -> room_for SB a (addrs i) off 16 -> budget P a (Z.to_nat (nblk off 16) + cost (addrs i) + q) ->
  (forall i' a', written SB a i off (enc (n, str)) a' i' -> dir_ok a' i' (dir_add es (n, str)) -> budget P a' q ->
     Q 0 (<[dp := i']> ic) a') ->
  fwp SB (dirlink pid devsw dp name n) ic a Q.
Proof.
  intros off Hf Hi Hd Hik Hh Hname Hstr Hn Habs HP Hind Hmax Hroom Hbud HQ.
  assert (Hbud0 : read_room a) by (by eapply budget_read_room).
  pose proof (free_slot_le es) as Hfs. pose proof (dir_size _ _ _ Hd) as Hsz.
  unfold dirlink. apply fwp_bind. eapply fwp_dirlookup; try done. rewrite Habs.
  apply fwp_bind. eapply fwp_geti; [done|]. apply fwp_bind.
  eapply (fwp_empty_dirent dp i ic a es _ _ 0); try done; [rewrite Hsz, Z.mul_comm, Z.div_mul by lia; lia|lia|].
  rewrite drop_0, Nat.add_0_l. fold off. apply fwp_bind. eapply fwp_option.
  { unfold strncpy. apply (strncpy_holds (Z.to_nat DIRSIZ) _ name str); [apply length_replicate|done|apply Hstr]. }
  unfold u16. rewrite Z.mod_small by lia. rewrite u32_small by (unfold off; lia).
  change (put_dirent (mkdirent n (field (Z.to_nat DIRSIZ) str))) with (enc (n, str)).
  assert (He : dent_ok (n, str)) by done. pose proof (length_enc (n, str)) as Hlen.
  apply fwp_bind. change 16 with (Z.of_nat 16). rewrite <- Hlen.
  eapply (fwp_writei SB devsw P q); try done; rewrite ?Hlen; try done; [apply Hd|unfold off; lia|].
  intros i' a' Hw Hq. cbn [Z.of_nat Z.eqb negb]. apply fwp_ret, HQ; [done|by eapply dir_ok_written|done].
Qed.
End Dir.
