(* ===== verification/FsCache.v ===== *)
(** * The inode cache (src/fs.c: iget, idup, ilock, iunlock, iput)

    [ic_ok] is the cache's invariant: every inode is cached at most once, a valid
    entry agrees with the disk, and exactly the inodes of [L] are locked.
    [refs ic n] counts the references to inode [n]. *)

From stdpp Require Import prelude gmap strings list.
From Stdlib Require Import ZArith Lia.
From S2P Require Import Strings Prelude Sleeplock Bio BioSpec Layout Log LogSpec Store Fs FsLogic FsAlloc FsFile FsInode FsIO FsWrite FsDir.

(** ** Counting references *)

Definition ref1 (n : Z) (i : inode) : Z := if (0 <? ref i) && (inum i =? n) then ref i else 0.

Fixpoint refs (ic : list inode) (n : Z) : Z :=
  match ic with [] => 0 | i :: ic' => ref1 n i + refs ic' n end.

Lemma refs_insert ic ip i i' n :
  ic !! ip = Some i -> refs (<[ip := i']> ic) n = refs ic n - ref1 n i + ref1 n i'.
Proof.
  revert ip. induction ic as [|x ic IH]; intros [|ip] Hi; try done.
  - injection Hi as ->. cbn [insert list_insert refs]. lia.
  - change (<[S ip := i']> (x :: ic)) with (x :: <[ip := i']> ic). cbn [refs]. rewrite (IH ip Hi). lia.
Qed.

Lemma refs_pos ic n :
  (forall ip i, ic !! ip = Some i -> 0 <= ref i) -> 0 < refs ic n ->
  exists ip i, ic !! ip = Some i /\ 0 < ref i /\ inum i = n.
Proof.
  induction ic as [|x ic IH]; intros Hr Hp; [done|]. cbn [refs] in Hp. unfold ref1 in Hp.
  destruct (Z.ltb_spec 0 (ref x)), (Z.eqb_spec (inum x) n); cbn [andb] in Hp;
    [by exists 0%nat, x|..]; (destruct IH as (ip & i & Hi & Hr' & Hn); [intros ip i Hi; by apply (Hr (S ip))|lia|by exists (S ip), i]).
Qed.

Lemma refs_same ic ip i i' n :
  ic !! ip = Some i -> ref i' = ref i -> inum i' = inum i -> refs (<[ip := i']> ic) n = refs ic n.
Proof. intros Hi Hr Hn. rewrite (refs_insert _ _ i) by done. unfold ref1. rewrite Hr, Hn. lia. Qed.

Lemma refs_nonneg ic n : (forall ip i, ic !! ip = Some i -> 0 <= ref i) -> 0 <= refs ic n.
Proof.
  induction ic as [|x ic IH]; intros Hr; cbn [refs]; [done|]. specialize (IH (fun k j E => Hr (S k) j E)).
  unfold ref1. case_match; lia.
Qed.

(** The number of free entries. *)
Definition free1 (i : inode) : Z := if ref i =? 0 then 1 else 0.

Fixpoint nfreei (ic : list inode) : Z := match ic with [] => 0 | i :: ic' => free1 i + nfreei ic' end.

Lemma nfreei_insert ic ip i i' : ic !! ip = Some i -> nfreei (<[ip := i']> ic) = nfreei ic - free1 i + free1 i'.
Proof.
  revert ip. induction ic as [|x ic IH]; intros [|ip] Hi; try done.
  - injection Hi as ->. cbn [insert list_insert nfreei]. lia.
  - change (<[S ip := i']> (x :: ic)) with (x :: <[ip := i']> ic). cbn [nfreei]. rewrite (IH ip Hi). lia.
Qed.

Lemma nfreei_pos ic : 0 < nfreei ic -> exists ip i, ic !! ip = Some i /\ ref i = 0.
Proof.
  induction ic as [|x ic IH]; intros Hp; [done|]. cbn [nfreei] in Hp. unfold free1 in Hp.
  destruct (Z.eqb_spec (ref x) 0); [by exists 0%nat, x|]. destruct IH as (ip & i & Hi & Hr); [lia|by exists (S ip), i].
Qed.

Section Cache.
Context {B : Type} `{BlockStoreOk B} {K : Cap} (SB : superblock) (pid : Z).
Implicit Types (ic : list inode) (a : atx) (v : Z -> list Z) (L : gset nat).

(** An entry in use: it agrees with the disk once it is valid. *)
Record entry_ok v (i : inode) : Prop := {
  en_dev : idev i = ROOTDEV;
  en_num : 0 <= inum i < sb_ninodes SB;
  en_valid : ivalid i <> 0 -> to_dinode i = dinode_at SB v (inum i);
}.

Record ic_ok (M : Z) L v ic : Prop := {
  io_ref : forall ip i, ic !! ip = Some i -> 0 <= ref i <= M;
  io_lock : forall ip i, ic !! ip = Some i -> ilk i = if decide (ip ∈ L) then mksleeplock 1 pid else mksleeplock 0 0;
  io_uniq : forall ip ip' i i', ic !! ip = Some i -> ic !! ip' = Some i' -> 0 < ref i -> 0 < ref i' -> inum i = inum i' -> ip = ip';
  io_entry : forall ip i, ic !! ip = Some i -> 0 < ref i -> entry_ok v i;
  io_held : forall ip, ip ∈ L -> exists i, ic !! ip = Some i /\ 0 < ref i;
}.

(** Changing one entry. *)
Lemma ic_ok_insert M M' L L' v ic ip i i' :
  ic_ok M L v ic -> ic !! ip = Some i -> M <= M' -> 0 <= ref i' <= M' ->
  ilk i' = (if decide (ip ∈ L') then mksleeplock 1 pid else mksleeplock 0 0) -> (ip ∈ L' -> 0 < ref i') ->
  (forall k, k <> ip -> k ∈ L' <-> k ∈ L) ->
  (0 < ref i' -> entry_ok v i' /\ forall k j, ic !! k = Some j -> 0 < ref j -> inum j = inum i' -> k = ip) ->
  ic_ok M' L' v (<[ip := i']> ic).
Proof.
  intros [Hr Hl Hu He Hh] Hi HM Hr' Hl' Hp' HL Hn. assert (Hlt := lookup_lt_Some _ _ _ Hi). split.
  - intros k j [[<- ->]|[Hne Hj]]%lookup_seq_insert; [done|]. specialize (Hr k j Hj). lia.
  - intros k j [[<- ->]|[Hne Hj]]%lookup_seq_insert; [done|]. rewrite (Hl k j Hj).
    specialize (HL k ltac:(done)). repeat case_decide; try done; exfalso; tauto.
  - intros k k' j j' [[<- ->]|[Hne Hj]]%lookup_seq_insert [[<- ->]|[Hne' Hj']]%lookup_seq_insert Hp Hpj E; try done.
    + symmetry. by apply (proj2 (Hn Hp) k' j').
    + by apply (proj2 (Hn Hpj) k j).
    + by eapply Hu.
  - intros k j [[<- ->]|[Hne Hj]]%lookup_seq_insert Hp; [by apply Hn|by eapply He].
  - intros k Hk. destruct (decide (k = ip)) as [->|Hne].
    + exists i'. rewrite list_lookup_insert_eq by done. auto.
    + rewrite list_lookup_insert_ne by done. apply Hh. by apply HL.
Qed.

(** The same inode under another name, or more references. *)
Lemma ic_ok_update M M' L v ic ip i i' :
  ic_ok M L v ic -> ic !! ip = Some i -> M <= M' -> 0 < ref i -> 0 < ref i' <= M' -> ilk i' = ilk i -> inum i' = inum i ->
  entry_ok v i' -> ic_ok M' L v (<[ip := i']> ic).
Proof.
  intros Hok Hi HM Hr Hr' Hl Hn He. eapply ic_ok_insert; try done; [lia|by rewrite Hl, (io_lock _ _ _ _ Hok ip i)|intros _; lia|].
  intros _. split; [done|]. intros k j Hj Hp E. symmetry. eapply (io_uniq _ _ _ _ Hok ip k i j); try done. congruence.
Qed.

(** ** iget() *)

Lemma find_match M L v ic n ip i :
  ic_ok M L v ic -> ic !! ip = Some i -> 0 < ref i -> inum i = n ->
  find_index (fun i => (0 <? ref i) && (idev i =? ROOTDEV) && (inum i =? n)) ic = Some ip.
Proof.
  intros Hok Hi Hr Hn. apply find_index_Some. split.
  - exists i. split; [done|]. rewrite (en_dev _ _ (io_entry _ _ _ _ Hok ip i Hi Hr)), Hn, !Z.eqb_refl. lia.
  - intros k j Hlt Hj. destruct (Z.ltb_spec 0 (ref j)), (Z.eqb_spec (inum j) n); rewrite ?andb_false_r; try done.
    assert (k = ip); [|lia]. eapply (io_uniq _ _ _ _ Hok k ip j i); try done. congruence.
Qed.

(** What iget() does to the cache: one more reference to inode [n], found or
    put into a free entry, and every entry in use kept. *)
Record got (n : Z) ic (ip : nat) ic' : Prop := {
  got_entry : exists i, ic' !! ip = Some i /\ inum i = n /\ 0 < ref i /\
    nfreei ic' + (if ref i =? 1 then 1 else 0) = nfreei ic;
  got_refs : forall m, refs ic' m = refs ic m + if m =? n then 1 else 0;
  got_keep : forall k j, ic !! k = Some j -> 0 < ref j ->
    exists j', ic' !! k = Some j' /\ 0 < ref j' /\ j' = j <| ref := ref j' |>;
  got_other : forall k j, ic !! k = Some j -> 0 < ref j -> inum j <> n -> ic' !! k = Some j;
}.

Lemma iget_found M L v n ic ip i :
  ic_ok M L v ic -> M + 1 < 2 ^ 31 -> ic !! ip = Some i -> 0 < ref i -> inum i = n ->
  let ic' := alter (fun i => i <| ref ::= fun r => s32 (r + 1) |>) ip ic in got n ic ip ic' /\ ic_ok (M + 1) L v ic'.
Proof.
  intros Hok HM Hi Hp Hn. assert (Hlt := lookup_lt_Some _ _ _ Hi). pose proof (io_ref _ _ _ _ Hok ip i Hi) as Href.
  cbn zeta. rewrite (alter_insert _ _ _ i) by done. set (i' := i <| ref ::= fun r => s32 (r + 1) |>).
  assert (Hr' : ref i' = ref i + 1) by (apply s32_small; lia). split; [split|].
  - exists i'. rewrite list_lookup_insert_eq, (nfreei_insert _ _ i) by done. unfold free1. rewrite Hr'.
    split_and!; [done|done|lia|]. destruct (Z.eqb_spec (ref i) 0), (Z.eqb_spec (ref i + 1) 0), (Z.eqb_spec (ref i + 1) 1); lia.
  - intros m. rewrite (refs_insert _ _ i) by done. unfold ref1. rewrite Hr'. change (inum i') with (inum i).
    destruct (Z.ltb_spec 0 (ref i)), (Z.ltb_spec 0 (ref i + 1)); try lia. rewrite (Z.eqb_sym m n), Hn. destruct (n =? m); cbn; lia.
  - intros k j Hj Hpj. destruct (decide (k = ip)) as [->|]; [|exists j; rewrite list_lookup_insert_ne by done; by destruct j].
    exists i'. rewrite list_lookup_insert_eq by done. split_and!; [done|lia|]. simplify_eq. by destruct i.
  - intros k j Hj Hpj Hne. destruct (decide (k = ip)) as [->|]; [simplify_eq|by rewrite list_lookup_insert_ne].
  - eapply ic_ok_update; try done; [lia|lia|]. destruct (io_entry _ _ _ _ Hok ip i Hi Hp). by split.
Qed.

Lemma iget_ok M L v n ic :
  ic_ok M L v ic -> 0 <= M -> M + 1 < 2 ^ 31 -> 0 <= n < sb_ninodes SB -> 0 < nfreei ic ->
  exists ip ic', iget_ic ROOTDEV n ic = Some (ip, ic') /\ got n ic ip ic' /\ ic_ok (M + 1) L v ic'.
Proof.
  intros Hok HM0 HM Hn Hroom. unfold iget_ic.
  destruct (find_index (fun i => (0 <? ref i) && (idev i =? ROOTDEV) && (inum i =? n)) ic) as [ip|] eqn:Hf.
  { exists ip. eexists. split; [reflexivity|]. pose proof Hf as [(i & Hi & Hm) _]%find_index_Some.
    eapply iget_found; [done|done|exact Hi|lia|lia]. }
  assert (Hno : forall k j, ic !! k = Some j -> 0 < ref j -> inum j <> n).
  { intros k j Hj Hp E. by rewrite (find_match M L v ic n k j) in Hf. }
  destruct (nfreei_pos ic Hroom) as (ip0 & i0 & Hi0 & Hr0).
  destruct (find_index (fun i => ref i =? 0) ic) as [ip|] eqn:Hf2.
  2: { apply find_index_None in Hf2. rewrite Forall_lookup in Hf2. specialize (Hf2 _ _ Hi0). simpl in Hf2. lia. }
  pose proof Hf2 as [(i & Hi & Hz) _]%find_index_Some. apply Z.eqb_eq in Hz. assert (Hlt := lookup_lt_Some _ _ _ Hi).
  exists ip. cbn [mbind option_bind]. eexists. split; [reflexivity|]. rewrite (alter_insert _ _ _ i) by done.
  set (i' := i <| idev := ROOTDEV |> <| inum := n |> <| ref := 1 |> <| ivalid := 0 |>).
  assert (HipL : ip ∉ L). { intros Hin. destruct (io_held _ _ _ _ Hok ip Hin) as (j & Hj & Hp). simplify_eq. lia. }
  split; [split|].
  - exists i'. rewrite list_lookup_insert_eq, (nfreei_insert _ _ i) by done. unfold free1. rewrite Hz. split_and!; try done. cbn. lia.
  - intros m. rewrite (refs_insert _ _ i) by done. unfold ref1. rewrite Hz. change (inum i') with n. change (ref i') with 1.
    cbn. rewrite (Z.eqb_sym m n). destruct (n =? m); lia.
  - intros k j Hj Hpj. destruct (decide (k = ip)) as [->|]; [simplify_eq; lia|].
    exists j. rewrite list_lookup_insert_ne by done. by destruct j.
  - intros k j Hj Hpj Hne. destruct (decide (k = ip)) as [->|]; [simplify_eq; lia|by rewrite list_lookup_insert_ne].
  - eapply ic_ok_insert; try done; [lia|simpl; lia|exact (io_lock _ _ _ _ Hok ip i Hi)|].
    intros _. split; [by split|]. intros k j Hj Hp E. by destruct (Hno k j).
Qed.

(** The reference counts bound each other. *)
Lemma ref_le_refs ic ip i :
  (forall k j, ic !! k = Some j -> 0 <= ref j) -> ic !! ip = Some i -> ref i <= refs ic (inum i).
Proof.
  revert ip. induction ic as [|x ic IH]; intros [|ip] Hr Hi; try done; cbn [refs].
  - injection Hi as ->. specialize (refs_nonneg ic (inum i) (fun k j E => Hr (S k) j E)). unfold ref1.
    pose proof (Hr 0%nat i eq_refl). rewrite Z.eqb_refl. destruct (Z.ltb_spec 0 (ref i)); cbn; lia.
  - specialize (IH ip (fun k j E => Hr (S k) j E) Hi). pose proof (Hr 0%nat x eq_refl). unfold ref1. case_match; lia.
Qed.

Lemma ic_ok_tighten M M' L v ic : ic_ok M L v ic -> (forall m, refs ic m <= M') -> ic_ok M' L v ic.
Proof.
  intros [Hr Hl Hu He Hh] HM. split; try done. intros ip i Hi. specialize (HM (inum i)).
  pose proof (ref_le_refs ic ip i (fun k j E => proj1 (Hr k j E)) Hi). pose proof (Hr ip i Hi). lia.
Qed.

Lemma refs_unique M L v ic ip i :
  ic_ok M L v ic -> ic !! ip = Some i -> 0 < ref i -> refs ic (inum i) = ref i.
Proof.
  intros Hok Hi Hp. set (z := i <| ref := 0 |>).
  pose proof (refs_insert ic ip i z (inum i) Hi) as E.
  replace (ref1 (inum i) z) with 0 in E by done. unfold ref1 in E. rewrite Z.eqb_refl in E.
  destruct (Z.ltb_spec 0 (ref i)); [|lia]. cbn [andb] in E.
  assert (Hge : forall k j, <[ip := z]> ic !! k = Some j -> 0 <= ref j).
  { intros k j [[<- ->]|[_ Hj]]%lookup_seq_insert; [done|]. by apply (io_ref _ _ _ _ Hok k). }
  destruct (Z.lt_ge_cases 0 (refs (<[ip := z]> ic) (inum i))) as [Hgt|];
    [|pose proof (refs_nonneg _ (inum i) Hge); lia].
  destruct (refs_pos _ _ Hge Hgt) as (k & j & [[<- ->]|[Hne Hj]]%lookup_seq_insert & Hpj & Ej); [done|].
  exfalso. apply Hne. by eapply (io_uniq _ _ _ _ Hok ip k i j).
Qed.

Lemma refs_le M L v ic m : ic_ok M L v ic -> 0 <= M -> refs ic m <= M.
Proof.
  intros Hok HM. destruct (Z.lt_ge_cases 0 (refs ic m)) as [Hgt|]; [|lia].
  destruct (refs_pos ic m) as (k & j & Hj & Hp & <-); [intros; by eapply (io_ref _ _ _ _ Hok)|done|].
  rewrite (refs_unique _ _ _ _ _ _ Hok Hj Hp). by apply (io_ref _ _ _ _ Hok k).
Qed.

(** ** Locking *)

Lemma fwp_with_ilk {A} (m : M sleeplock A) ip i ic a r l' ev (Q : A -> list inode -> atx -> Prop) :
  ic !! ip = Some i -> (forall t, m (Ctx [] t) (ilk i) = Ok r (Ctx [] (t ++ ev)) l') -> disk_writes ev = [] ->
  Q r (<[ip := i <| ilk := l' |>]> ic) a -> fwp SB (with_ilk ip m) ic a Q.
Proof.
  intros Hi Hm Hev HQ b t Hr. exists r, ev, b, (<[ip := i <| ilk := l' |>]> ic), a. split_and!; try done.
  unfold with_ilk, geti. mrun. cbn [icache]. rewrite Hi. mrun. unfold zoom. by rewrite Hm.
Qed.

(** An inode locked and loaded. *)
Definition ilocked v (i : inode) : inode :=
  (if ivalid i =? 0 then (load_dinode (dinode_at SB v (inum i)) i) <| ivalid := 1 |> else i)
    <| ilk := mksleeplock 1 pid |>.

Lemma ilocked_same v i : ref (ilocked v i) = ref i /\ inum (ilocked v i) = inum i /\ idev (ilocked v i) = idev i.
Proof. unfold ilocked. by destruct (ivalid i =? 0). Qed.

Lemma ilocked_disk v i : entry_ok v i -> to_dinode (ilocked v i) = dinode_at SB v (inum i) /\ ivalid (ilocked v i) <> 0.
Proof.
  intros [_ _ Hv]. unfold ilocked. destruct (Z.eqb_spec (ivalid i) 0) as [Hz|Hz].
  - split; [|done]. by destruct (dinode_at SB v (inum i)) eqn:E; unfold to_dinode; simpl; rewrite ?E.
  - split; [by rewrite <- Hv|done].
Qed.

Lemma ic_ok_lock M L v ic ip i :
  ic_ok M L v ic -> ic !! ip = Some i -> 0 < ref i -> ic_ok M (L ∪ {[ip]}) v (<[ip := ilocked v i]> ic).
Proof.
  intros Hok Hi Hr. destruct (ilocked_same v i) as (Er & En & Ed). pose proof (io_entry _ _ _ _ Hok ip i Hi Hr) as He.
  eapply ic_ok_insert; try done.
  - rewrite Er. by apply (io_ref _ _ _ _ Hok ip).
  - rewrite decide_True by set_solver. unfold ilocked. done.
  - by rewrite Er.
  - set_solver.
  - intros _. split.
    + destruct He as [H1 H2 H3]. split; rewrite ?En, ?Ed; try done. intros _. by apply ilocked_disk; split.
    + intros k j Hj Hp E. symmetry. eapply (io_uniq _ _ _ _ Hok ip k i j); try done. congruence.
Qed.

Lemma fwp_ilock M L ip i ic a (Q : unit -> list inode -> atx -> Prop) :
  layout SB a -> ic_ok M L (tview a) ic -> ic !! ip = Some i -> 0 < ref i -> ip ∉ L -> theld a = ∅ -> read_room a ->
  (ivalid i = 0 -> d_type (dinode_at SB (tview a) (inum i)) <> 0) ->
  Q tt (<[ip := ilocked (tview a) i]> ic) a -> fwp SB (ilock pid (Some ip)) ic a Q.
Proof.
  intros Hl Hok Hi Hr HL Hh Hbud Hty HQ. assert (Hlt := lookup_lt_Some _ _ _ Hi).
  pose proof (io_entry _ _ _ _ Hok ip i Hi Hr) as [Hdev Hnum _].
  cbn [ilock]. apply fwp_bind. eapply fwp_geti; [done|]. destruct (Z.ltb_spec (ref i) 1); [lia|].
  assert (Hfree : ilk i = mksleeplock 0 0) by (rewrite (io_lock _ _ _ _ Hok ip i Hi); by rewrite decide_False).
  apply fwp_bind. eapply (fwp_with_ilk _ ip i ic a tt (mksleeplock 1 pid) []); [done| |done|].
  { intros t. rewrite app_nil_r. apply acquiresleep_free; [set_solver|by rewrite Hfree]. }
  set (i1 := i <| ilk := mksleeplock 1 pid |>). assert (Hi1 : <[ip := i1]> ic !! ip = Some i1) by (by rewrite list_lookup_insert_eq).
  apply fwp_bind. eapply fwp_geti; [exact Hi1|]. change (ivalid i1) with (ivalid i). change (inum i1) with (inum i). change (idev i1) with (idev i).
  unfold ilocked in HQ. destruct (Z.eqb_spec (ivalid i) 0) as [Hz|Hz]; [|by apply fwp_ret].
  apply fwp_bind, fwp_getsb. destruct (iblk_range SB a _ Hl Hnum) as [_ ->]. rewrite Hdev.
  apply fwp_bind, fwp_bread; [by apply iblk_usable|by apply none_held|done|]. intros j Hj.
  apply fwp_bind. eapply fwp_data; [apply lookup_insert_eq|]. intros _.
  change (get_dinode (tview a (iblk SB (inum i))) (dinode_off (inum i))) with (dinode_at SB (tview a) (inum i)).
  set (di := dinode_at SB (tview a) (inum i)) in *.
  apply fwp_bind. eapply fwp_modi; [exact Hi1|]. rewrite list_insert_insert_eq.
  apply fwp_bind, fwp_brelse_clean; [done|].
  apply fwp_bind. eapply fwp_modi; [by rewrite list_lookup_insert_eq|]. rewrite list_insert_insert_eq.
  apply fwp_bind. eapply fwp_geti; [by rewrite list_lookup_insert_eq|].
  cbn [load_dinode itype]. change (itype _) with (d_type di) at 1.
  destruct (Z.eqb_spec (d_type di) 0); [by destruct Hty|]. apply fwp_ret. exact HQ.
Qed.

Definition iunlocked (i : inode) : inode := i <| ilk := mksleeplock 0 0 |>.

Lemma fwp_iunlock M L ip i ic a (Q : unit -> list inode -> atx -> Prop) :
  ic_ok M L (tview a) ic -> ic !! ip = Some i -> 0 < ref i -> ip ∈ L -> pid <> 0 ->
  Q tt (<[ip := iunlocked i]> ic) a -> fwp SB (iunlock pid (Some ip)) ic a Q.
Proof.
  intros Hok Hi Hr HL Hpid HQ. assert (Hlt := lookup_lt_Some _ _ _ Hi).
  assert (Hk : ilk i = mksleeplock 1 pid) by (rewrite (io_lock _ _ _ _ Hok ip i Hi); by rewrite decide_True).
  cbn [iunlock]. apply fwp_bind.
  eapply (fwp_with_ilk _ ip i ic a true (ilk i) []); [done| |done|].
  { intros t. rewrite app_nil_r, holdingsleep_run by set_solver. rewrite Hk. cbn. by rewrite Z.eqb_refl. }
  assert (Hs : <[ip := i <| ilk := ilk i |>]> ic = ic) by (apply list_insert_id; by destruct i). rewrite Hs.
  apply fwp_bind. eapply fwp_geti; [done|]. destruct (Z.ltb_spec (ref i) 1); [lia|]. cbn [negb orb].
  eapply (fwp_with_ilk _ ip i ic a tt (mksleeplock 0 0) [Ewakeup (Cinodelock ip)]); [done| |done|done].
  intros t. apply releasesleep_run. set_solver.
Qed.

Lemma ic_ok_unlock M L v ic ip i :
  ic_ok M L v ic -> ic !! ip = Some i -> 0 < ref i -> ic_ok M (L ∖ {[ip]}) v (<[ip := iunlocked i]> ic).
Proof.
  intros Hok Hi Hr. eapply ic_ok_insert; try done.
  - exact (io_ref _ _ _ _ Hok ip i Hi).
  - rewrite decide_False by set_solver. done.
  - set_solver.
  - intros _. split.
    + destruct (io_entry _ _ _ _ Hok ip i Hi Hr). by split.
    + intros k j Hj Hp E. symmetry. by eapply (io_uniq _ _ _ _ Hok ip k i j).
Qed.

(** iput() of an inode that is not freed. *)
Definition iputted (i : inode) : inode := i <| ref := ref i - 1 |>.

Lemma fwp_iput M L ip i ic a (Q : unit -> list inode -> atx -> Prop) :
  ic_ok M L (tview a) ic -> M < 2 ^ 31 -> ic !! ip = Some i -> 0 < ref i -> ip ∉ L ->
  ivalid i = 0 \/ nlink i <> 0 \/ ref i <> 1 ->
  Q tt (<[ip := iputted i]> ic) a -> fwp SB (iput pid ip) ic a Q.
Proof.
  intros Hok HM Hi Hr HL Hkeep HQ. assert (Hlt := lookup_lt_Some _ _ _ Hi). pose proof (io_ref _ _ _ _ Hok ip i Hi) as Hrm.
  assert (Hfree : ilk i = mksleeplock 0 0) by (rewrite (io_lock _ _ _ _ Hok ip i Hi); by rewrite decide_False).
  unfold iput. apply fwp_bind. eapply (fwp_with_ilk _ ip i ic a tt (mksleeplock 1 pid) []); [done| |done|].
  { intros t. rewrite app_nil_r. apply acquiresleep_free; [set_solver|by rewrite Hfree]. }
  set (i1 := i <| ilk := mksleeplock 1 pid |>). assert (Hi1 : <[ip := i1]> ic !! ip = Some i1) by (by rewrite list_lookup_insert_eq).
  apply fwp_bind. eapply fwp_geti; [exact Hi1|]. change (ivalid i1) with (ivalid i). change (nlink i1) with (nlink i).
  set (rest := (with_ilk ip (releasesleep (Cinodelock ip)) ;; acquire Licache ;;
    modi ip (fun i0 => i0 <| ref ::= fun r => s32 (r - 1) |>) ;; release Licache)).
  assert (Hrest : fwp SB rest (<[ip := i1]> ic) a Q).
  { unfold rest. apply fwp_bind. eapply (fwp_with_ilk _ ip i1 _ a tt (mksleeplock 0 0) [Ewakeup (Cinodelock ip)]); [exact Hi1| |done|].
    { intros t. apply releasesleep_run. set_solver. }
    rewrite list_insert_insert_eq. assert (Hs : <[ip := i1 <| ilk := mksleeplock 0 0 |>]> ic = ic).
    { apply list_insert_id. rewrite Hi. f_equal. unfold i1. rewrite <- Hfree. by destruct i. }
    rewrite Hs. intros b t Hb. exists tt, [], b, (<[ip := iputted i]> ic), a. rewrite app_nil_r. split_and!; try done.
    unfold modi, geti. mrun. cbn [icache]. rewrite Hi. mrun. cbn [update]. unfold iputted. simpl. rewrite s32_small by lia. done. }
  destruct (negb (ivalid i =? 0) && (nlink i =? 0)) eqn:Hc; [|by apply fwp_bind, fwp_ret].
  apply fwp_bind. intros b t Hb. rewrite bindE, acquire_ok by set_solver. cbn [obind].
  rewrite bindE. unfold geti at 1. mrun. cbn [icache]. rewrite Hi1. mrun. change (ref i1) with (ref i).
  destruct (Z.eqb_spec (ref i) 1); [lia|]. exists tt, [], b, (<[ip := i1]> ic), a. rewrite app_nil_r. by mrun.
Qed.

Lemma ic_ok_put M L v ic ip i :
  ic_ok M L v ic -> ic !! ip = Some i -> 0 < ref i -> ip ∉ L -> ic_ok M L v (<[ip := iputted i]> ic).
Proof.
  intros Hok Hi Hr HL. pose proof (io_ref _ _ _ _ Hok ip i Hi). eapply ic_ok_insert; try done.
  - simpl. lia.
  - exact (io_lock _ _ _ _ Hok ip i Hi).
  - intros _. split.
    + destruct (io_entry _ _ _ _ Hok ip i Hi Hr). by split.
    + intros k j Hj Hp E. symmetry. by eapply (io_uniq _ _ _ _ Hok ip k i j).
Qed.

(** One inode written, on the disk and in its entry. *)
Lemma ic_ok_write M L v v' ic ip i i' :
  ic_ok M L v ic -> ic !! ip = Some i -> 0 < ref i ->
  (forall n, 0 <= n < sb_ninodes SB -> n <> inum i -> dinode_at SB v' n = dinode_at SB v n) ->
  ref i' = ref i -> ilk i' = ilk i -> inum i' = inum i -> idev i' = idev i ->
  to_dinode i' = dinode_at SB v' (inum i) -> ic_ok M L v' (<[ip := i']> ic).
Proof.
  intros Hok Hi Hr Hv Er El En Ed Hd. assert (Hlt := lookup_lt_Some _ _ _ Hi).
  pose proof Hok as [H1 H2 H3 H4 H5]. pose proof (H4 ip i Hi Hr) as [Hdev Hnum _]. split.
  - intros k j [[<- ->]|[_ Hj]]%lookup_seq_insert; [|by apply (H1 k)]. rewrite Er. by apply (H1 ip).
  - intros k j [[<- ->]|[_ Hj]]%lookup_seq_insert; [|by apply (H2 k)]. rewrite El. by apply (H2 ip).
  - intros k k' j j' [[<- ->]|[Hne Hj]]%lookup_seq_insert [[<- ->]|[Hne' Hj']]%lookup_seq_insert Hp Hpj E; try done.
    + eapply (H3 ip k' i j'); try done. congruence.
    + eapply (H3 k ip j i); try done. congruence.
    + by eapply H3.
  - intros k j [[<- ->]|[Hne Hj]]%lookup_seq_insert Hp; [split; rewrite ?En; try done; congruence|].
    destruct (H4 k j Hj Hp) as [Hdj Hnj Hvj]. split; try done. intros Hval. rewrite Hv; [by apply Hvj|done|].
    intros E. apply Hne. by eapply (H3 ip k i j).
  - intros k Hk. destruct (H5 k Hk) as (j & Hj & Hp). destruct (decide (k = ip)) as [->|].
    + exists i'. rewrite list_lookup_insert_eq by done. split; [done|lia].
    + exists j. by rewrite list_lookup_insert_ne.
Qed.
End Cache.
