(* ===== verification/FsPath.v ===== *)
(** * Path names (src/fs.c: skipelem, namex, namei, nameiparent)

    The elements of a path, the directory tree of a file system, and the theorem
    that namex() walks the tree along the elements and keeps the reference counts
    of the inode cache. *)

From stdpp Require Import prelude gmap strings list.
From Stdlib Require Import ZArith Lia.
From S2P Require Import Strings Prelude Sleeplock Bio BioSpec Layout Log LogSpec Store Fs FsLogic FsAlloc FsFile FsInode FsIO FsWrite FsDir FsCache.

(** ** The elements of a path *)

Fixpoint split_slash (str : list Z) : list (list Z) :=
  match str with
  | [] => [[]]
  | c :: str' =>
      if c =? 47 then [] :: split_slash str'
      else match split_slash str' with x :: r => (c :: x) :: r | [] => [[c]] end
  end.

Definition elems (str : list Z) : list (list Z) := filter (fun e => e <> []) (split_slash str).

Lemma elems_slash str : elems (47 :: str) = elems str.
Proof. unfold elems. cbn [split_slash]. rewrite Z.eqb_refl. by rewrite filter_cons_False by tauto. Qed.

Lemma split_app s str :
  Forall (fun c => c <> 47) s -> str = [] \/ head str = Some 47 ->
  exists r, split_slash (s ++ str) = s :: r /\ split_slash str = [] :: r.
Proof.
  intros Hs Hstr. induction s as [|c s IH].
  - destruct Hstr as [->|Hh]; [by exists []|]. destruct str as [|x str]; [done|]. injection Hh as ->.
    exists (split_slash str). by split.
  - apply Forall_cons in Hs as [Hc Hs]. destruct (IH Hs) as (r & E & E'). exists r. split; [|done].
    cbn [app split_slash]. rewrite E. by destruct (Z.eqb_spec c 47).
Qed.

Lemma elems_app s str :
  s <> [] -> Forall (fun c => c <> 47) s -> str = [] \/ head str = Some 47 -> elems (s ++ str) = s :: elems str.
Proof.
  intros Hne Hs Hstr. destruct (split_app s str Hs Hstr) as (r & E & E'). unfold elems. rewrite E, E'.
  rewrite filter_cons_True by done. by rewrite (filter_cons_False _ []) by tauto.
Qed.

Lemma Forall_incl {A} (Q : A -> Prop) l l' : incl l l' -> Forall Q l' -> Forall Q l.
Proof. rewrite !List.Forall_forall. auto. Qed.

Lemma skip_slashes_spec path str :
  cstring path str ->
  exists path' str', skip_slashes path = Some path' /\ cstring path' str' /\ elems str' = elems str /\
    head str' <> Some 47 /\ (length path' <= length path)%nat /\ incl path' path.
Proof.
  revert path. induction str as [|c str IH]; intros path Hp; pose proof Hp as [_ [rest ->]].
  - exists (0 :: rest), []. cbn. split_and!; try done. apply incl_refl.
  - cbn [app] in *. apply cstring_cons in Hp as [Hc Hp]. cbn [skip_slashes]. destruct (Z.eqb_spec c 47) as [->|Hne].
    + destruct (IH _ Hp) as (path' & str' & E & Hs & He & Hh & Hl & Hin). exists path', str'.
      rewrite elems_slash. split_and!; try done; [simpl; lia|by apply incl_tl].
    + eexists _, (c :: str). split_and!; try reflexivity; [by apply cstring_cons|by intros [= ->]|apply incl_refl].
Qed.

Lemma span_elem_spec path str :
  cstring path str ->
  exists s path' str', span_elem path = Some (s, path') /\ path = s ++ path' /\ str = s ++ str' /\ cstring path' str' /\
    Forall (fun c => c <> 47) s /\ (str' = [] \/ head str' = Some 47).
Proof.
  revert path. induction str as [|c str IH]; intros path Hp; pose proof Hp as [_ [rest ->]].
  - exists [], (0 :: rest), []. cbn. split_and!; auto.
  - cbn [app] in *. pose proof Hp as Hp'. apply cstring_cons in Hp as [Hc Hp]. cbn [span_elem].
    destruct (Z.eqb_spec c 47) as [->|Hne]; cbn [orb].
    + eexists [], _, (47 :: str). split_and!; try reflexivity; auto.
    + destruct (Z.eqb_spec c 0); [done|]. destruct (IH _ Hp) as (s & path' & str' & E & Epath & -> & Hs & Hf & Hh).
      exists (c :: s), path', str'. rewrite E. cbn. split_and!; try done; [by rewrite Epath|by constructor].
Qed.

(** The name left in the buffer. *)
Lemma holds_app k s r : (length s <= k)%nat -> (length s = k \/ head r = Some 0) -> holds k (s ++ r) s.
Proof.
  revert k. induction s as [|c s IH]; intros [|k] Hl Hr; simpl in *; try lia; try done.
  - destruct Hr as [|Hr]; [lia|]. destruct r; by simplify_eq/=.
  - split; [done|]. apply IH; [lia|]. destruct Hr; [left; lia|by right].
Qed.

Lemma skipelem_spec path str name :
  cstring path str -> (14 <= length name)%nat ->
  match elems str with
  | [] => skipelem path name = Some (None, name)
  | e :: r =>
      exists path' str' name', skipelem path name = Some (Some path', name') /\
        cstring path' str' /\ elems str' = r /\ bool_decide (head path' = Some 0) = bool_decide (r = []) /\
        holds 14 name' (take 14 e) /\ length name' = length name /\ Forall (fun x => x <> 0) e /\ incl e path /\ incl path' path /\
        (length path' < length path)%nat
  end.
Proof.
  intros Hp Hn. unfold skipelem.
  destruct (skip_slashes_spec _ _ Hp) as (p1 & s1 & -> & Hp1 & <- & Hh1 & Hl1 & Hi1). cbn [mbind option_bind].
  destruct s1 as [|c s1]; pose proof Hp1 as [Hz [rest Erest]]; [by rewrite Erest|].
  assert (Hc : c <> 0 /\ c <> 47) by (apply Forall_cons in Hz as [? _]; split; [done|by intros ->]).
  rewrite bool_decide_false by (rewrite Erest; cbn; intros [= ->]; tauto).
  destruct (span_elem_spec _ _ Hp1) as (e & p2 & s2 & -> & Ep & Es & Hp2 & He & Hs2). cbn [mbind option_bind].
  assert (Hne : e <> []).
  { intros ->. cbn in Es. subst s2. destruct Hs2 as [|[= ->]]; [done|tauto]. }
  rewrite Es, (elems_app e s2 Hne He Hs2).
  destruct (skip_slashes_spec _ _ Hp2) as (p3 & s3 & -> & Hp3 & <- & Hh3 & Hl3 & Hi3). cbn [mbind option_bind].
  eexists p3, s3, _. split; [reflexivity|].
  assert (Hlen : (length p1 = length e + length p2)%nat) by (by rewrite Ep, length_app).
  assert (length e <> 0)%nat by (by destruct e).
  assert (Hin : incl e p1 /\ incl p2 p1) by (rewrite Ep; split; intros x; rewrite in_app_iff; auto).
  split_and!; try done.
  - destruct s3 as [|x s3]; pose proof Hp3 as [Hz3 [rest3 E3]]; rewrite E3; [done|].
    apply Forall_cons in Hz3 as [Hx _]. rewrite bool_decide_false by (cbn; intros [= ->]; tauto).
    destruct (span_elem_spec _ _ Hp3) as (e3 & p4 & s4 & _ & _ & E4 & _ & He3 & Hs4). rewrite E4, elems_app; try done.
    intros ->. cbn in E4. subst s4. by destruct Hs4.
  - unfold put_bytes. rewrite take_0. cbn [app]. change DIRSIZ with 14. destruct (Z.leb_spec 14 (Z.of_nat (length e))).
    + apply holds_app; rewrite length_take; lia.
    + rewrite take_ge, <- app_assoc by lia. apply holds_app; [lia|by right].
  - change DIRSIZ with 14. destruct (Z.leb_spec 14 (Z.of_nat (length e))); apply length_put_bytes; rewrite ?length_app, ?length_take; cbn [length]; lia.
  - rewrite Es in Hz. by apply Forall_app in Hz as [? _].
  - eapply incl_tran; [apply Hin|done].
  - eapply incl_tran; [exact Hi3|]. eapply incl_tran; [apply Hin|done].
  - lia.
Qed.

(** ** The tree *)

Inductive node :=
| NDir (es : list dent)
| NFile.

(** Where namex() gets from inode [n]; with [par] it stops one level early. *)
Fixpoint walk (T : Z -> option node) (n : Z) (es : list (list Z)) (par : bool) : option Z :=
  match es with
  | [] => if par then None else Some n
  | e :: r =>
      match T n with
      | Some (NDir ents) =>
          if par && bool_decide (r = []) then Some n else
          '(m, _) ← dir_find (take 14 e) ents 0; walk T m r par
      | _ => None
      end
  end.

Lemma dir_find_entry str es off m o : dir_find str es off = Some (m, o) -> m <> 0 /\ (m, str) ∈ es.
Proof.
  revert off. induction es as [|e es IH]; intros off Hf; [done|]. cbn [dir_find] in Hf.
  destruct (Z.eqb_spec e.1 0); cbn [orb] in Hf; [destruct (IH _ Hf); split; [done|by right]|].
  case_bool_decide; cbn [negb] in Hf; [|destruct (IH _ Hf); split; [done|by right]].
  simplify_eq. split; [done|]. destruct e. left.
Qed.

Section Path.
Context {B : Type} `{BlockStoreOk B} {K : Cap} (SB : superblock) (pid : Z) (devsw : list (devops B)).
Implicit Types (ic : list inode) (a : atx).

(** An inode of the tree, as any copy in the cache that agrees with the disk shows it. *)
Record node_ok a (T : Z -> option node) (n : Z) (x : node) : Prop := {
  no_num : 0 <= n < sb_ninodes SB;
  no_type : d_type (dinode_at SB (tview a) n) <> 0;
  no_link : d_nlink (dinode_at SB (tview a) n) <> 0;
  no_dir : match x with
    | NDir es => (forall i, idev i = ROOTDEV -> to_dinode i = dinode_at SB (tview a) n -> dir_ok SB a i es) /\
        forall m str, (m, str) ∈ es -> m <> 0 -> is_Some (T m)
    | NFile => d_type (dinode_at SB (tview a) n) <> T_DIR
    end;
}.

Definition tree_ok a T : Prop := forall n x, T n = Some x -> node_ok a T n x.

(** ** One step of the walk *)

(** The loop holds one reference to inode [n], in entry [ip], over the counts [R]. *)
Record at_inode (M : Z) (R : Z -> Z) a (n : Z) (ip : nat) ic : Prop := {
  hd_ok : ic_ok SB pid (M + 1) ∅ (tview a) ic;
  hd_entry : exists i, ic !! ip = Some i /\ inum i = n /\ 0 < ref i /\ 2 <= nfreei ic + (if ref i =? 1 then 1 else 0);
  hd_refs : forall m, refs ic m = R m + if m =? n then 1 else 0;
}.

Definition released (M : Z) (R : Z -> Z) a ic : Prop :=
  ic_ok SB pid (M + 1) ∅ (tview a) ic /\ forall m, refs ic m = R m.

Lemma unlockput_ok M v ic ip j :
  ic_ok SB pid M {[ip]} v ic -> ic !! ip = Some j -> 0 < ref j ->
  let ic' := <[ip := iputted (iunlocked j)]> ic in
  ic_ok SB pid M ∅ v ic' /\ (forall m, refs ic' m = refs ic m - if m =? inum j then 1 else 0) /\
  nfreei ic' = nfreei ic + if ref j =? 1 then 1 else 0.
Proof.
  intros Hok Hj Hr ic'. assert (Hlt := lookup_lt_Some _ _ _ Hj). split_and!.
  - unfold ic'. rewrite <- (list_insert_insert_eq ic ip _ (iunlocked j)).
    replace (∅ : gset nat) with (({[ip]} : gset nat) ∖ {[ip]}) by set_solver.
    apply ic_ok_put; [by apply ic_ok_unlock|by rewrite list_lookup_insert_eq|done|set_solver].
  - intros m. unfold ic'. rewrite (refs_insert _ _ j) by done. unfold ref1. simpl. rewrite (Z.eqb_sym m).
    destruct (Z.ltb_spec 0 (ref j)), (Z.ltb_spec 0 (ref j - 1)), (Z.eqb_spec (inum j) m); cbn; lia.
  - unfold ic'. rewrite (nfreei_insert _ _ j) by done. unfold free1. simpl.
    destruct (Z.eqb_spec (ref j) 0), (Z.eqb_spec (ref j - 1) 0), (Z.eqb_spec (ref j) 1); lia.
Qed.

Lemma fwp_unlockput M ic ip j a (Q : unit -> list inode -> atx -> Prop) :
  ic_ok SB pid M {[ip]} (tview a) ic -> M < 2 ^ 31 -> pid <> 0 -> ic !! ip = Some j -> 0 < ref j -> nlink j <> 0 ->
  Q tt (<[ip := iputted (iunlocked j)]> ic) a -> fwp SB (iunlockput pid ip) ic a Q.
Proof.
  intros Hok HM Hpid Hj Hr Hn HQ. assert (Hlt := lookup_lt_Some _ _ _ Hj). unfold iunlockput. apply fwp_bind.
  eapply fwp_iunlock; try done; [set_solver|].
  eapply (fwp_iput SB pid M ({[ip]} ∖ {[ip]})); [by apply ic_ok_unlock|done|by rewrite list_lookup_insert_eq|done|set_solver|by right; left|].
  by rewrite list_insert_insert_eq.
Qed.

(** Taking the next inode and putting the current one. *)
Lemma at_inode_next M R a n ip ic i m nx ic2 :
  at_inode M R a n ip ic -> ic !! ip = Some i -> (forall k, 0 <= R k <= M) ->
  let ic1 := <[ip := ilocked SB pid (tview a) i]> ic in
  got m ic1 nx ic2 -> ic_ok SB pid (M + 2) {[ip]} (tview a) ic2 ->
  exists j, ic2 !! ip = Some j /\ 0 < ref j /\ nlink j = nlink (ilocked SB pid (tview a) i) /\
    at_inode M R a m nx (<[ip := iputted (iunlocked j)]> ic2).
Proof.
  intros [Hok (i' & Hi' & En & Hr & Hfree) Hrefs] Hi HR ic1 [(i2 & Hi2 & Em & Hr2 & Hf2) Hg Hkeep Hother] Hok2.
  assert (i' = i) as -> by congruence. subst n m. assert (Hlt := lookup_lt_Some _ _ _ Hi). destruct (ilocked_same SB pid (tview a) i) as (Er & En1 & _).
  set (l := ilocked SB pid (tview a) i) in *. assert (Hl : ic1 !! ip = Some l) by (unfold ic1; by rewrite list_lookup_insert_eq).
  assert (Hfr1 : nfreei ic1 = nfreei ic) by (unfold ic1; rewrite (nfreei_insert _ _ i) by done; unfold free1; rewrite Er; lia).
  assert (Hrf1 : forall m, refs ic1 m = refs ic m) by (intros; by eapply refs_same).
  destruct (Hkeep ip l Hl) as (j & Hj & Hrj & Ej); [lia|]. exists j.
  assert (Hlt2 := lookup_lt_Some _ _ _ Hj). assert (Hjn : inum j = inum i) by (rewrite Ej; by rewrite <- En1).
  split_and!; try done; [by rewrite Ej|]. destruct (unlockput_ok _ _ _ _ _ Hok2 Hj Hrj) as (Ho & Hrf & Hnf).
  assert (Hrefs' : forall k, refs (<[ip := iputted (iunlocked j)]> ic2) k = R k + if k =? inum i2 then 1 else 0).
  { intros k. rewrite Hrf, Hg, Hrf1, Hrefs, Hjn. lia. }
  split; [|destruct (decide (nx = ip)) as [->|Hne]|done].
  - eapply ic_ok_tighten; [done|]. intros k. rewrite Hrefs'. specialize (HR k). destruct (k =? inum i2); lia.
  - assert (j = i2) as -> by congruence. exists (iputted (iunlocked i2)). rewrite list_lookup_insert_eq by done.
    pose proof (refs_unique _ _ _ _ _ _ _ _ Hok2 Hi2 Hr2) as Eu. rewrite Hg, Hrf1, Z.eqb_refl in Eu.
    rewrite Hjn, (refs_unique _ _ _ _ _ _ _ _ Hok Hi Hr) in Eu. split_and!; [done|done|simpl; lia|].
    rewrite Hnf. simpl. replace (ref i2 - 1) with (ref i) by lia. lia.
  - exists i2. rewrite list_lookup_insert_ne by done. split_and!; try done. rewrite Hnf.
    assert (Hnm : inum l <> inum i2).
    { intros E. apply Hne. apply (io_uniq _ _ _ _ _ _ Hok2 nx ip i2 j); try done. congruence. }
    specialize (Hother ip l Hl ltac:(lia) Hnm). assert (j = l) as -> by congruence. rewrite Er. lia.
Qed.

(** ** The walk *)

(** The outcome: one more reference to the inode found, or none. *)
Definition resolved (M : Z) (R : Z -> Z) a (w : option Z) (r : option nat) ic : Prop :=
  ic_ok SB pid (M + 1) ∅ (tview a) ic /\
  (forall m, refs ic m = R m + if bool_decide (w = Some m) then 1 else 0) /\
  match w, r with
  | Some n, Some ip => exists i, ic !! ip = Some i /\ inum i = n /\ 0 < ref i
  | None, None => True
  | _, _ => False
  end.

(** The name that is left for the caller of nameiparent(). *)
Definition last_name (par : bool) (es : list (list Z)) (r : option nat * list Z) : Prop :=
  par = true -> is_Some r.1 -> exists e, last es = Some e /\ holds 14 r.2 (take 14 e).

Lemma at_inode_resolved M R a n ip ic : at_inode M R a n ip ic -> resolved M R a (Some n) (Some ip) ic.
Proof.
  intros [Hok (i & Hi & En & Hr & _) Hrefs]. split_and!; [done| |by exists i].
  intros m. rewrite Hrefs. case_bool_decide; destruct (Z.eqb_spec m n); naive_solver.
Qed.

Section Walk.
Context (M : Z) (R : Z -> Z) (a : atx) (T : Z -> option node).
Hypothesis Hfs : fsok SB a.
Hypothesis HT : tree_ok a T.
Hypothesis Hheld : theld a = ∅.
Hypothesis Hbud : read_room a.
Hypothesis HR : forall m, 0 <= R m <= M.
Hypothesis HM : 0 <= M /\ M + 2 < 2 ^ 31.
Hypothesis Hpid : pid <> 0.

Lemma valid_links v n x i :
  v = tview a -> T n = Some x -> entry_ok SB v i -> inum i = n -> ivalid i = 0 \/ nlink i <> 0.
Proof.
  intros -> Hx [_ _ Hv] En. destruct (Z.eqb_spec (ivalid i) 0) as [|Hz]; [by left|right].
  pose proof (no_link _ _ _ _ (HT _ _ Hx)) as Hl. rewrite <- En, <- Hv in Hl by done. done.
Qed.

(** iput() at the end of a path that has no parent. *)
Lemma at_inode_iput n ip ic (Q : unit -> list inode -> atx -> Prop) :
  at_inode M R a n ip ic -> is_Some (T n) ->
  (forall ic', resolved M R a None None ic' -> Q tt ic' a) -> fwp SB (iput pid ip) ic a Q.
Proof.
  intros [Hok (i & Hi & En & Hr & _) Hrefs] [x Hx] HQ.
  pose proof (valid_links _ n x i eq_refl Hx (io_entry _ _ _ _ _ _ Hok ip i Hi Hr) En) as Hv.
  eapply (fwp_iput SB pid (M + 1) ∅); try done; [lia|tauto|]. apply HQ.
  assert (Hrefs' : forall m, refs (<[ip := iputted i]> ic) m = R m).
  { intros m. rewrite (refs_insert _ _ i) by done. unfold ref1. simpl. rewrite Hrefs, En, (Z.eqb_sym m).
    destruct (Z.ltb_spec 0 (ref i)), (Z.ltb_spec 0 (ref i - 1)), (Z.eqb_spec n m); cbn; lia. }
  split_and!; try done; [by apply ic_ok_put|]. intros m. rewrite Hrefs', bool_decide_false by done. lia.
Qed.

(** iunlockput() of the current inode when the walk fails. *)
Lemma at_inode_fail n ip ic i (Q : unit -> list inode -> atx -> Prop) :
  at_inode M R a n ip ic -> is_Some (T n) -> ic !! ip = Some i ->
  (forall ic', resolved M R a None None ic' -> Q tt ic' a) ->
  fwp SB (iunlockput pid ip) (<[ip := ilocked SB pid (tview a) i]> ic) a Q.
Proof.
  intros [Hok (i' & Hi' & En & Hr & _) Hrefs] [x Hx] Hi HQ. assert (i' = i) as -> by congruence.
  assert (Hlt := lookup_lt_Some _ _ _ Hi). destruct (ilocked_same SB pid (tview a) i) as (Er & En1 & _).
  destruct (ilocked_disk SB pid _ _ (io_entry _ _ _ _ _ _ Hok ip i Hi Hr)) as [Hd _].
  set (l := ilocked SB pid (tview a) i) in *. set (ic1 := <[ip := l]> ic).
  assert (Hl : ic1 !! ip = Some l) by (unfold ic1; by rewrite list_lookup_insert_eq).
  assert (Hok1 : ic_ok SB pid (M + 1) {[ip]} (tview a) ic1).
  { replace ({[ip]} : gset nat) with ((∅ : gset nat) ∪ {[ip]}) by set_solver. by apply ic_ok_lock. }
  eapply fwp_unlockput; [exact Hok1|lia|done|exact Hl|lia| |].
  { pose proof (no_link _ _ _ _ (HT _ _ Hx)) as Hn. rewrite <- En, <- Hd in Hn. done. }
  apply HQ. destruct (unlockput_ok _ _ _ _ _ Hok1 Hl) as (Ho & Hrf & _); [lia|].
  split_and!; try done. intros m. rewrite Hrf. unfold ic1. rewrite (refs_same _ _ i), Hrefs by done. rewrite En1, En, bool_decide_false by done. lia.
Qed.

(** iunlock() of the parent that is the result. *)
Lemma at_inode_parent n ip ic i (Q : unit -> list inode -> atx -> Prop) :
  at_inode M R a n ip ic -> ic !! ip = Some i ->
  (forall ic', resolved M R a (Some n) (Some ip) ic' -> Q tt ic' a) ->
  fwp SB (iunlock pid (Some ip)) (<[ip := ilocked SB pid (tview a) i]> ic) a Q.
Proof.
  intros [Hok (i' & Hi' & En & Hr & _) Hrefs] Hi HQ. assert (i' = i) as -> by congruence.
  assert (Hlt := lookup_lt_Some _ _ _ Hi). destruct (ilocked_same SB pid (tview a) i) as (Er & En1 & _).
  set (l := ilocked SB pid (tview a) i) in *. set (ic1 := <[ip := l]> ic).
  assert (Hl : ic1 !! ip = Some l) by (unfold ic1; by rewrite list_lookup_insert_eq).
  assert (Hok1 : ic_ok SB pid (M + 1) ({[ip]}) (tview a) ic1).
  { replace ({[ip]} : gset nat) with ((∅ : gset nat) ∪ {[ip]}) by set_solver. by apply ic_ok_lock. }
  eapply fwp_iunlock; [exact Hok1|exact Hl|lia|set_solver|done|]. apply HQ. split_and!.
  - replace (∅ : gset nat) with (({[ip]} : gset nat) ∖ {[ip]}) by set_solver. apply ic_ok_unlock; [done|done|lia].
  - intros m. rewrite (refs_same _ _ l) by done. unfold ic1. rewrite (refs_same _ _ i), Hrefs by done.
    case_bool_decide; destruct (Z.eqb_spec m n); naive_solver.
  - exists (iunlocked l). unfold ic1. rewrite list_lookup_insert_eq by (by rewrite length_insert). split_and!; [done|by rewrite <- En, <- En1|change (ref (iunlocked l)) with (ref l); lia].
Qed.

Lemma at_inode_ilock n ip ic x (Q : unit -> list inode -> atx -> Prop) :
  at_inode M R a n ip ic -> T n = Some x ->
  (forall i, ic !! ip = Some i -> inum i = n -> 0 < ref i -> entry_ok SB (tview a) i ->
     Q tt (<[ip := ilocked SB pid (tview a) i]> ic) a) -> fwp SB (ilock pid (Some ip)) ic a Q.
Proof.
  intros [Hok (i & Hi & En & Hr & _) _] Hx HQ. pose proof (io_entry _ _ _ _ _ _ Hok ip i Hi Hr) as He.
  eapply (fwp_ilock SB pid (M + 1) ∅); [by apply fo_layout|done|done|done|apply not_elem_of_empty|done|done| |by apply HQ].
  intros _. rewrite En. by apply (no_type _ _ _ _ (HT _ _ Hx)).
Qed.

(** dirlookup() takes a reference to the next inode. *)
Lemma at_inode_dirlookup n ip ic i es name e (Q : option (nat * Z) -> list inode -> atx -> Prop) :
  at_inode M R a n ip ic -> T n = Some (NDir es) -> ic !! ip = Some i ->
  holds 14 name (take 14 e) -> Forall (fun x => 0 < x < 256) e ->
  let ic1 := <[ip := ilocked SB pid (tview a) i]> ic in
  match dir_find (take 14 e) es 0 with
  | None => Q None ic1 a
  | Some (m, off) => forall nx ic2 j, ic2 !! ip = Some j -> 0 < ref j -> nlink j <> 0 -> is_Some (T m) ->
      ic_ok SB pid (M + 2) {[ip]} (tview a) ic2 ->
      at_inode M R a m nx (<[ip := iputted (iunlocked j)]> ic2) -> Q (Some (nx, off)) ic2 a
  end -> fwp SB (dirlookup devsw ip name) ic1 a Q.
Proof.
  intros Hhold Hx Hi Hname He ic1 HQ. pose proof Hhold as [Hok (i' & Hi' & En & Hr & Hfree) Hrefs]. assert (i' = i) as -> by congruence.
  assert (Hlt := lookup_lt_Some _ _ _ Hi). destruct (ilocked_same SB pid (tview a) i) as (Er & En1 & Ed1).
  pose proof (io_entry _ _ _ _ _ _ Hok ip i Hi Hr) as Hent. destruct (ilocked_disk SB pid _ _ Hent) as [Hd _].
  pose proof (HT _ _ Hx) as [Hnum _ Hlink [Hdir Hclosed]].
  set (l := ilocked SB pid (tview a) i) in *. assert (Hl : ic1 !! ip = Some l) by (unfold ic1; by rewrite list_lookup_insert_eq).
  assert (Hok1 : ic_ok SB pid (M + 1) {[ip]} (tview a) ic1).
  { replace ({[ip]} : gset nat) with ((∅ : gset nat) ∪ {[ip]}) by set_solver. by apply ic_ok_lock. }
  rewrite <- En, <- Hd in Hlink. eapply (fwp_dirlookup SB devsw); try done.
  { apply Hdir; [by rewrite Ed1, (en_dev _ _ _ Hent)|by rewrite <- En]. }
  { split; [by apply Forall_take|]. rewrite length_take. lia. }
  destruct (dir_find (take 14 e) es 0) as [[m off]|] eqn:Hf; [|done].
  apply dir_find_entry in Hf as [Hm0 Hin]. destruct (Hclosed m _ Hin Hm0) as [y Hy].
  assert (Hfr1 : nfreei ic1 = nfreei ic) by (unfold ic1; rewrite (nfreei_insert _ _ i) by done; unfold free1; rewrite Er; lia).
  destruct (iget_ok SB pid (M + 1) {[ip]} (tview a) m ic1) as (nx & ic2 & Hg & Hgot & Hok2);
    [done|lia|lia|by apply (no_num _ _ _ _ (HT _ _ Hy))|destruct (ref i =? 1); lia|].
  exists nx, ic2. split; [done|]. replace (M + 1 + 1) with (M + 2) in Hok2 by lia.
  destruct (at_inode_next M R a n ip ic i m nx ic2) as (j & Hj & Hrj & Hnl & Hnext); try done.
  eapply HQ; try done. rewrite Hnl. exact Hlink.
Qed.

Lemma fwp_namex_loop par path str name n ip ic fuel :
  at_inode M R a n ip ic -> is_Some (T n) -> cstring path str -> Forall (fun x => 0 <= x < 256) path ->
  (14 <= length name)%nat -> (length path <= fuel)%nat ->
  fwp SB (namex_loop pid devsw ip path name par fuel) ic a (fun r ic' a' =>
    a' = a /\ resolved M R a (walk T n (elems str) par) r.1 ic' /\ last_name par (elems str) r).
Proof.
  revert path str name n ip ic. induction fuel as [|fuel IH]; intros path str name n ip ic Hhold HTn Hpath Hbytes Hname Hfuel.
  { destruct Hpath as [_ [rest ->]]. rewrite length_app in Hfuel. simpl in Hfuel. lia. }
  pose proof (skipelem_spec path str name Hpath Hname) as Hskip. cbn [namex_loop]. apply fwp_bind.
  destruct (elems str) as [|e r] eqn:Hel.
  { eapply fwp_option; [exact Hskip|]. cbn [walk]. destruct par.
    - apply fwp_bind. eapply at_inode_iput; [done|done|]. intros ic' Hres. apply fwp_ret. split_and!; try done. by intros _ [? [=]].
    - apply fwp_ret. split_and!; try done. by apply at_inode_resolved. }
  destruct Hskip as (path' & str' & name' & Hs & Hp' & Hr' & Hlast & Hn' & Hlen & Hnz & Hine & Hinp & Hshort).
  eapply fwp_option; [exact Hs|]. cbn beta iota.
  destruct HTn as [x Hx]. apply fwp_bind. eapply at_inode_ilock; [done|done|]. intros i Hi En Hr Hent.
  assert (Hlt := lookup_lt_Some _ _ _ Hi). destruct (ilocked_disk SB pid _ _ Hent) as [Hd _].
  apply fwp_bind. eapply fwp_geti; [by rewrite list_lookup_insert_eq|].
  replace (itype (ilocked SB pid (tview a) i)) with (d_type (dinode_at SB (tview a) n)) by (by rewrite <- En, <- Hd).
  cbn [walk]. rewrite Hx. pose proof (no_dir _ _ _ _ (HT _ _ Hx)) as Hdir.
  destruct x as [es|]; cycle 1.
  { destruct (Z.eqb_spec (d_type (dinode_at SB (tview a) n)) T_DIR); [done|]. cbn [negb]. apply fwp_bind.
    eapply at_inode_fail; try done. intros ic' Hres. apply fwp_ret. split_and!; try done. by intros _ [? [=]]. }
  assert (Hty : d_type (dinode_at SB (tview a) n) = T_DIR).
  { destruct Hdir as [Hdir _]. rewrite <- En, <- Hd. eapply dr_type, Hdir; [|by rewrite Hd, En].
    by rewrite (proj2 (proj2 (ilocked_same SB pid (tview a) i))), (en_dev _ _ _ Hent). }
  rewrite Hty. cbn [T_DIR Z.eqb negb Pos.eqb]. rewrite Hlast. destruct (par && bool_decide (r = [])) eqn:Hpar.
  { apply andb_true_iff in Hpar as [-> ->%bool_decide_eq_true]. apply fwp_bind. eapply at_inode_parent; [done|done|].
    intros ic' Hres. apply fwp_ret. split_and!; try done. intros _ _. by exists e. }
  assert (Hbe : Forall (fun x => 0 < x < 256) e).
  { apply (Forall_incl _ _ _ Hine) in Hbytes. eapply Forall_impl; [exact (proj2 (Forall_and _ _) (conj Hnz Hbytes))|]. cbn. lia. }
  apply fwp_bind. eapply at_inode_dirlookup; try done.
  destruct (dir_find (take 14 e) es 0) as [[m off]|]; cbn [mbind option_bind].
  - intros nx ic2 j Hj Hrj Hnl HTm Hok2 Hnext. apply fwp_bind. eapply fwp_unlockput; [exact Hok2|lia|done|done|done|done|].
    eapply fwp_mono; [eapply IH; try done; [by eapply Forall_incl|lia|lia]|].
    intros [r' nm] ic' a'. rewrite Hr'. intros (-> & Hres & Hnm). split_and!; try done. intros Hp Hsome.
    destruct (Hnm Hp Hsome) as (e' & Hl' & Hh'). exists e'. by destruct r.
  - apply fwp_bind. eapply at_inode_fail; try done. intros ic' Hres. apply fwp_ret. split_and!; try done. by intros _ [? [=]].
Qed.
End Walk.

(** Where a walk starts. *)
Definition start_of (path : list Z) (cwd_num : Z) : Z :=
  if bool_decide (head path = Some 47) then ROOTINO else cwd_num.

Lemma fwp_namex M ic a T par cwd ci path str name :
  fsok SB a -> tree_ok a T -> theld a = ∅ -> read_room a -> ic_ok SB pid M ∅ (tview a) ic ->
  0 <= M -> M + 2 < 2 ^ 31 -> pid <> 0 -> 2 <= nfreei ic ->
  ic !! cwd = Some ci -> 0 < ref ci -> is_Some (T (inum ci)) -> is_Some (T ROOTINO) ->
  cstring path str -> Forall (fun x => 0 <= x < 256) path -> (14 <= length name)%nat ->
  let w := walk T (start_of path (inum ci)) (elems str) par in
  fwp SB (namex pid devsw cwd path par name) ic a (fun r ic' a' =>
    a' = a /\ resolved M (refs ic) a w r.1 ic' /\ last_name par (elems str) r).
Proof.
  intros Hfs HT Hheld Hbud Hok HM0 HM Hpid Hfree Hci Hrc HTc HTr Hpath Hbytes Hname w.
  assert (HR : forall m, 0 <= refs ic m <= M).
  { intros m. split; [|by eapply refs_le]. apply refs_nonneg. intros q i Hi. by apply (io_ref _ _ _ _ _ _ Hok q). }
  assert (Hnext : forall n ip ic', got n ic ip ic' -> ic_ok SB pid (M + 1) ∅ (tview a) ic' -> at_inode M (refs ic) a n ip ic').
  { intros n ip ic' [(i & Hi & En & Hr & Hf) Hg _ _] Hok'. split; [done|exists i|done]. split_and!; try done. lia. }
  unfold namex. apply fwp_bind. destruct path as [|c path]; [destruct Hpath as [_ [? E]]; by destruct str|].
  eapply fwp_option; [reflexivity|]. apply fwp_bind. unfold w, start_of. cbn [head].
  destruct (Z.eqb_spec c 47) as [->|Hc].
  - rewrite bool_decide_true by done. destruct HTr as [x Hx].
    destruct (iget_ok SB pid M ∅ (tview a) ROOTINO ic) as (ip & ic' & Hg & Hgot & Hok');
      [done|done|lia|by apply (no_num _ _ _ _ (HT _ _ Hx))|lia|].
    eapply fwp_iget; [done|]. eapply fwp_namex_loop; eauto.
  - rewrite bool_decide_false by congruence.
    destruct (iget_found SB pid M ∅ (tview a) (inum ci) ic cwd ci) as [Hgot Hok']; [done|lia|done|done|done|].
    set (ic' := alter _ cwd ic) in *. assert (Hd : forall Q : nat -> list inode -> atx -> Prop, Q cwd ic' a -> fwp SB (idup cwd) ic a Q).
    { intros Q HQ b t Hb. exists cwd, [], b, ic', a. rewrite app_nil_r. split_and!; try done.
      unfold idup, modi, geti, ic'. mrun. cbn [icache]. rewrite Hci. mrun. by rewrite (alter_insert _ _ _ ci) by done. }
    apply Hd. eapply fwp_namex_loop; eauto.
Qed.
End Path.
