(* ===== verification/FsSpec.v ===== *)
(** * What the operations of the file system do (src/fs.c)

    The statements about balloc, iupdate, iget, writei, readi, dirlink and namex,
    for every block store that keeps the promises of [BlockStoreOk]. *)

From stdpp Require Import prelude gmap strings list.
From Stdlib Require Import ZArith Lia.
From S2P Require Import Strings Prelude Sleeplock Bio BioSpec Layout Log LogSpec Store Fs FsLogic FsAlloc FsFile FsInode FsIO FsWrite FsDir FsCache FsPath.

Section FsSpec.
Context {B : Type} `{BlockStoreOk B} {K : Cap} (SB : superblock) (pid : Z) (devsw : list (devops B)).
Implicit Types (ic : list inode) (a : atx).

(** balloc() returns the lowest free block, marked and filled with zeroes, and
    changes nothing else but the free map; bfree() of it gives the old map back. *)
Theorem balloc_bfree P b0 ic a :
  fsok SB a -> theld a = ∅ -> first_unmarked SB a b0 -> budget P a 1 -> bmap_set SB ⊆ P ->
  fwp SB (balloc ROOTDEV) ic a (fun r ic' a' =>
    r = b0 /\ ic' = ic /\ theld a' = ∅ /\ tview a' b0 = replicate 512 0 /\
    (forall c, 0 <= c < sb_size SB -> marked SB (tview a') c = (c =? b0) || marked SB (tview a) c) /\
    (forall x, x <> b0 -> x ∉ bmap_set SB -> tview a' x = tview a x) /\
    fwp SB (bfree ROOTDEV r) ic' a' (fun _ ic'' a'' =>
      ic'' = ic /\ forall c, 0 <= c < sb_size SB -> marked SB (tview a'') c = marked SB (tview a) c)).
Proof.
  intros Hf Hh Hb Hbud HP. apply fwp_rel. intros bs Hbs.
  assert (Hlen : forall x, usable a x -> length (tview a x) = 512%nat) by (intros x; by apply (t_view_length bs)).
  pose proof (unmarked_data SB a b0 Hf (fu_range _ _ _ Hb) (fu_free _ _ _ Hb)) as Hd.
  pose proof (fo_layout _ _ Hf) as Hl. pose proof (layout_bounds SB a Hl).
  assert (Hnb : b0 ∉ bmap_set SB) by (apply data_not_bmap; lia).
  assert (Hmk : forall c, 0 <= c < sb_size SB -> marked SB (tview (a_alloc SB a b0)) c = (c =? b0) || marked SB (tview a) c)
    by (intros c Hc; by apply marked_alloc).
  eapply fwp_balloc; try done. split_and!; try done.
  - unfold a_alloc. apply tset_same.
  - intros x Hx Hxb. unfold a_alloc. cbn [a_write tview]. simpl. rewrite !tset_other; [done| |done].
    intros ->. apply Hxb, bmap_block_in. lia.
  - apply fwp_rel. intros bs' Hbs'. eapply (fwp_bfree SB P 0).
    + apply fsok_alloc; try done. intros i x d Hx. by rewrite Hh in Hx.
    + lia.
    + rewrite Hmk by lia. by rewrite Z.eqb_refl.
    + eapply (budget_alloc SB P a 0); try done. lia.
    + split; [done|]. intros c Hc. rewrite marked_free, Hmk; try done; [|by eapply fsok_layout|by intros x; apply (t_view_length bs')|lia..].
      destruct (Z.eqb_spec c b0) as [->|]; [|done]. symmetry. apply (fu_free _ _ _ Hb).
Qed.

(** iupdate() writes the copy in the cache: ilock() reads the same fields back,
    and no other inode on the disk changes. *)
Theorem iupdate_roundtrip P n ip i ic a :
  fsok SB a -> ic !! ip = Some i -> idev i = ROOTDEV -> inode_ok SB i -> theld a = ∅ -> budget P a (S n) ->
  fwp SB (iupdate ip) ic a (fun _ ic' a' =>
    ic' = ic /\ dinode_at SB (tview a') (inum i) = to_dinode i /\
    (forall j, inum j = inum i -> ivalid j = 0 -> to_dinode (ilocked SB pid (tview a') j) = to_dinode i) /\
    (forall m, 0 <= m < sb_ninodes SB -> m <> inum i -> dinode_at SB (tview a') m = dinode_at SB (tview a) m) /\
    (forall x, x <> iblk SB (inum i) -> tview a' x = tview a x)).
Proof.
  intros Hf Hi Hd Hk Hh Hb. apply fwp_rel. intros bs Hbs.
  assert (Hlen : length (tview a (iblk SB (inum i))) = 512%nat).
  { apply (t_view_length bs); [done|]. apply (iblk_usable SB a); [apply Hf|apply Hk]. }
  pose proof (fun m => dinode_at_iupdate SB a i m (fo_layout _ _ Hf) Hlen Hk) as Hdi.
  eapply (fwp_iupdate SB P (S n) ip i); try done; [by apply Hf|by apply none_held|].
  assert (Hself : dinode_at SB (tview (a_iupdate SB a i)) (inum i) = to_dinode i).
  { rewrite Hdi by apply Hk. by rewrite Z.eqb_refl. }
  split_and!; try done.
  - intros j Ej Hv. unfold ilocked. rewrite Hv, Ej, Hself. by destruct i.
  - intros m Hm Hne. rewrite Hdi by done. by destruct (Z.eqb_spec m (inum i)).
  - intros x. apply iupdate_view.
Qed.

(** C19: iget() gives one more reference to the inode, in the entry that has it or
    in a free one: every inode stays cached at most once, the entries in use keep
    their contents and locks, and no other count changes. *)
Theorem iget_spec M L n ic a :
  ic_ok SB pid M L (tview a) ic -> 0 <= M -> M + 1 < 2 ^ 31 -> 0 <= n < sb_ninodes SB ->
  0 < nfreei ic \/ 0 < refs ic n ->
  fwp SB (iget ROOTDEV n) ic a (fun ip ic' a' => a' = a /\ got n ic ip ic' /\ ic_ok SB pid (M + 1) L (tview a) ic').
Proof.
  intros Hok HM0 HM Hn [Hfree|Hcached].
  - destruct (iget_ok SB pid M L (tview a) n ic) as (ip & ic' & Hg & Hgot & Hok'); try done. by eapply fwp_iget.
  - destruct (refs_pos ic n) as (ip & i & Hi & Hr & En); [intros k j Hj; by apply (io_ref _ _ _ _ _ _ Hok k)|done|].
    destruct (iget_found SB pid M L (tview a) n ic ip i Hok HM Hi Hr En) as [Hgot Hok'].
    eapply fwp_iget; [|done]. unfold iget_ic. by rewrite (find_match SB pid M L (tview a) ic n ip i).
Qed.

(** C12: What writei() stores readi() returns; the rest of the file stays, its size
    grows to the end of the write, and no other inode or block in use changes. *)
Theorem read_after_write P q ip i ic a src off :
  let n := Z.of_nat (length src) in
  fsok SB a -> ic !! ip = Some i -> file_ok SB (tview a) i -> inode_ok SB i -> theld a = ∅ ->
  bmap_set SB ∪ {[iblk SB (inum i)]} ⊆ P -> (ind_of (addrs i) <> 0 -> ind_of (addrs i) ∈ tlog a ∪ P) ->
  0 <= off <= isize i -> off + n <= 140 * 512 -> room_for SB a (addrs i) off n ->
  budget P a (Z.to_nat (nblk off n) + cost (addrs i) + q) ->
  fwp SB (r ← writei devsw ip src off n; s ← readi devsw ip off n; mret (r, s)) ic a (fun r ic' a' =>
    r = (n, (n, src)) /\ exists i', ic' = <[ip := i']> ic /\ written SB a i off src a' i').
Proof.
  intros n Hf Hi Hfk Hik Hh HP Hind Ho Hmax Hroom Hbud. apply fwp_bind.
  eapply (fwp_writei SB devsw P q); try done. fold n. intros i' a' Hw Hq.
  pose proof (wn_size _ _ _ _ _ _ _ Hw) as Hsz. fold n in Hsz. destruct (wn_shape _ _ _ _ _ _ _ Hw) as [Hh' _].
  apply fwp_bind. eapply (fwp_readi SB devsw ip i'); try done;
    [apply Hw|by rewrite list_lookup_insert_eq by (by eapply lookup_lt_Some)|apply Hw|congruence|by eapply budget_read_room|lia|lia|].
  apply fwp_ret. rewrite Z.min_l by lia. split; [|by exists i']. do 2 f_equal.
  rewrite (wn_content _ _ _ _ _ _ _ Hw). unfold splice.
  assert (Hlt : (Z.to_nat off <= length (content (tview a) i))%nat) by (unfold content; rewrite length_slice; lia).
  rewrite drop_app_length' by (rewrite length_take; lia). apply take_app_length'. lia.
Qed.

(** C13: dirlink() of a new name makes dirlookup() find the inode under that name,
    in the first free slot, and finds every other name as before. *)
Theorem dirlink_lookup P q dp i ic a es name str n :
  let off := 16 * Z.of_nat (free_slot es) in
  fsok SB a -> ic !! dp = Some i -> dir_ok SB a i es -> inode_ok SB i -> theld a = ∅ ->
  holds 14 name str -> valid_name str -> 0 < n < 2 ^ 16 -> dir_find str es 0 = None ->
  bmap_set SB ∪ {[iblk SB (inum i)]} ⊆ P -> (ind_of (addrs i) <> 0 -> ind_of (addrs i) ∈ tlog a ∪ P) ->
  off + 16 <= 140 * 512 -> room_for SB a (addrs i) off 16 -> budget P a (Z.to_nat (nblk off 16) + cost (addrs i) + q) ->
  fwp SB (dirlink pid devsw dp name n) ic a (fun r ic1 a' =>
    r = 0 /\ exists i', ic1 = <[dp := i']> ic /\ dir_ok SB a' i' (dir_add es (n, str)) /\
    (forall str', str' <> str -> dir_find str' (dir_add es (n, str)) 0 = dir_find str' es 0) /\
    forall ip ic', iget_ic ROOTDEV n ic1 = Some (ip, ic') ->
      fwp SB (dirlookup devsw dp name) ic1 a' (fun o ic'' a'' => o = Some (ip, off) /\ ic'' = ic' /\ a'' = a')).
Proof.
  intros off Hf Hi Hd Hik Hh Hname Hstr Hn Habs HP Hind Hmax Hroom Hbud.
  eapply (fwp_dirlink SB devsw pid P q); try done; [lia|]. intros i' a' Hw Hd' Hq. split; [done|].
  exists i'. split_and!; try done; [intros str'; by apply dir_find_other|]. intros ip ic' Hg.
  destruct (wn_shape _ _ _ _ _ _ _ Hw) as [Hh' _].
  eapply (fwp_dirlookup SB devsw); try done; [apply Hw|by rewrite list_lookup_insert_eq by (by eapply lookup_lt_Some)|congruence|by eapply budget_read_room|].
  rewrite dir_find_add by (done || lia). by exists ip, ic'.
Qed.

(** C5: namex() walks the directory tree along the elements of the path, from the
    root or the current directory, and returns the inode it gets to, or 0; with
    [par] it stops at the parent and leaves the last element in the buffer.  The
    caller gets one reference to the inode found, every other count is as before,
    and no inode is left locked. *)
Theorem namex_spec M ic a T par cwd ci path str name :
  fsok SB a -> tree_ok SB a T -> theld a = ∅ -> read_room a -> ic_ok SB pid M ∅ (tview a) ic ->
  0 <= M -> M + 2 < 2 ^ 31 -> pid <> 0 -> 2 <= nfreei ic ->
  ic !! cwd = Some ci -> 0 < ref ci -> is_Some (T (inum ci)) -> is_Some (T ROOTINO) ->
  cstring path str -> Forall (fun x => 0 <= x < 256) path -> (14 <= length name)%nat ->
  let w := walk T (start_of path (inum ci)) (elems str) par in
  fwp SB (namex pid devsw cwd path par name) ic a (fun r ic' a' =>
    a' = a /\ resolved SB pid M (refs ic) a w r.1 ic' /\ last_name par (elems str) r).
Proof. apply fwp_namex. Qed.
End FsSpec.
