(* ===== verification/File.v ===== *)
(** * Open files (src/file.c, src/file.h, and pipealloc() of src/pipe.c)

    The table of open files over the file system, the pipes and the page
    allocator.  A [struct file *] is an index into the table, a [struct pipe *]
    the address of the pipe's page. *)

From stdpp Require Import prelude gmap strings list.
From Stdlib Require Import ZArith Lia.
From S2P Require Import Strings Prelude Kalloc Pipe Sleeplock Bio BioSpec Layout Log Store Fs.

Definition NFILE : nat := 100.

Inductive ftype := FD_NONE | FD_PIPE | FD_INODE.

#[export] Instance ftype_eq_dec : EqDecision ftype.
Proof. solve_decision. Defined.

Record file := mkfile {
  type : ftype;
  fref : Z;
  readable : Z;
  writable : Z;
  fpipe : Z;
  fip : nat;
  foff : Z;
}.

#[export] Instance file_settable : Settable file :=
  fun f => mkfile (type f) (fref f) (readable f) (writable f) (fpipe f) (fip f) (foff f).

(** The files, what they refer to, and [myproc()->killed]. *)
Record fstate (B : Type) := mkfstate {
  ftable : list file;
  fs : fsstate B;
  pipes : gmap Z pipe;
  kpages : kmem;
  fkilled : Z;
}.
Arguments mkfstate {B} _ _ _ _ _.
Arguments ftable {B} _.
Arguments fs {B} _.
Arguments pipes {B} _.
Arguments kpages {B} _.
Arguments fkilled {B} _.

#[export] Instance fstate_settable B : Settable (fstate B) :=
  fun s => mkfstate (ftable s) (fs s) (pipes s) (kpages s) (fkilled s).

Section File.
Context {B : Type} `{BlockStore B} (pid : Z) (devsw : list (devops B)) (kend : Z).
Abbreviation F := (M (fstate B)).

Definition onfs {A} (m : M (fsstate B) A) : F A := zoom fs (fun k s => s <| fs := k |>) m.
Definition onkmem {A} (m : M kmem A) : F A := zoom kpages (fun k s => s <| kpages := k |>) m.
Definition begin_tx : F unit := onfs (onb t_begin_op).
Definition end_tx : F unit := onfs (onb t_end_op).

Definition getf (f : nat) : F file := s ← getS; of_option (ftable s !! f).
Definition modf (f : nat) (g : file -> file) : F unit :=
  x ← getf f; modS (fun s => s <| ftable ::= <[f := g x]> |>).

(** The code of Pipe on the pipe at [a]. *)
Definition onpipe {A} (a : Z) (m : M pworld A) : F A :=
  s ← getS;
  p ← of_option (pipes s !! a);
  zoom (fun s => mkpworld p (fkilled s))
    (fun w s => s <| pipes ::= <[a := the_pipe w]> |> <| fkilled := my_killed w |>) m.

Definition fileinit : F unit := initlock Lftable "ftable".

Definition filealloc : F (option nat) :=
  acquire Lftable ;;
  s ← getS;
  match find_index (fun f => fref f =? 0) (ftable s) with
  | Some f => modf f (fun x => x <| fref := 1 |>) ;; release Lftable ;; mret (Some f)
  | None => release Lftable ;; mret None
  end.

Definition filedup (f : nat) : F nat :=
  acquire Lftable ;;
  x ← getf f;
  if fref x <? 1 then panic "filedup" else
  modf f (fun x => x <| fref ::= fun r => s32 (r + 1) |>) ;;
  release Lftable ;;
  mret f.

(** pipeclose(), with the kfree() it ends in when both sides are closed. *)
Definition fpipeclose (a w : Z) : F unit :=
  onpipe a (pipeclose a w) ;;
  s ← getS;
  p ← of_option (pipes s !! a);
  if (readopen p =? 0) && (writeopen p =? 0) then onkmem (kfree kend a) else mret tt.

Definition fileclose (f : nat) : F unit :=
  acquire Lftable ;;
  x ← getf f;
  if fref x <? 1 then panic "fileclose" else
  modf f (fun x => x <| fref ::= fun r => s32 (r - 1) |>) ;;
  x ← getf f;
  if 0 <? fref x then release Lftable else
  let ff := x in
  modf f (fun x => x <| fref := 0 |> <| type := FD_NONE |>) ;;
  release Lftable ;;
  match type ff with
  | FD_PIPE => fpipeclose (fpipe ff) (writable ff)
  | FD_INODE => begin_tx ;; onfs (iput pid (fip ff)) ;; end_tx
  | FD_NONE => mret tt
  end.

Definition filestat (f : nat) : F (Z * option stat) :=
  x ← getf f;
  match type x with
  | FD_INODE =>
      onfs (ilock pid (Some (fip x))) ;;
      st ← onfs (stati (fip x));
      onfs (iunlock pid (Some (fip x))) ;;
      mret (0, Some st)
  | _ => mret (-1, None)
  end.

(** The result and the bytes stored at addr. *)
Definition fileread (f : nat) (n : Z) : F (Z * list Z) :=
  x ← getf f;
  if readable x =? 0 then mret (-1, []) else
  match type x with
  | FD_PIPE => onpipe (fpipe x) (piperead (fpipe x) n [])
  | FD_INODE =>
      onfs (ilock pid (Some (fip x))) ;;
      r ← onfs (readi devsw (fip x) (foff x) (u32 n));
      (if 0 <? r.1 then modf f (fun x => x <| foff ::= fun o => u32 (o + r.1) |>) else mret tt) ;;
      onfs (iunlock pid (Some (fip x))) ;;
      mret r
  | FD_NONE => panic "fileread"
  end.

(** [((MAXOPBLOCKS-1-1-2) / 2) * 512]. *)
Definition max_write : Z := (MAXOPBLOCKS - 1 - 1 - 2) / 2 * 512.

(** [while(i < n)]: [addr] are the bytes from [i] on; the result is the final [i]. *)
Fixpoint filewrite_loop (f : nat) (addr : list Z) (i n : Z) (fuel : nat) : F Z :=
  if i <? n then
    match fuel with
    | O => nofuel
    | S fuel' =>
        let n1 := if max_write <? n - i then max_write else n - i in
        x ← getf f;
        begin_tx ;;
        onfs (ilock pid (Some (fip x))) ;;
        r ← onfs (writei devsw (fip x) addr (foff x) n1);
        (if 0 <? r then modf f (fun x => x <| foff ::= fun o => u32 (o + r) |>) else mret tt) ;;
        onfs (iunlock pid (Some (fip x))) ;;
        end_tx ;;
        if r <? 0 then mret i else
        if negb (r =? n1) then panic "short filewrite" else
        filewrite_loop f (drop (Z.to_nat r) addr) (i + r) n fuel'
    end
  else mret i.

(** [addr] are the bytes at the user address. *)
Definition filewrite (f : nat) (addr : list Z) (n : Z) : F Z :=
  x ← getf f;
  if writable x =? 0 then mret (-1) else
  match type x with
  | FD_PIPE =>
      if Z.of_nat (length addr) <? n then undef else
      onpipe (fpipe x) (pipewrite (fpipe x) (take (Z.to_nat n) addr) [])
  | FD_INODE =>
      i ← filewrite_loop f addr 0 n (Z.to_nat (n / max_write + 1));
      mret (if i =? n then n else -1)
  | FD_NONE => panic "filewrite"
  end.

(** A page that kalloc() returns is filled with 1s by kfree(). *)
Definition junk_pipe : pipe := mkpipe (replicate 512 1) 0 0 0 0.

Definition fpipeinit (a : Z) : F unit :=
  modS (fun s => s <| pipes ::= <[a := junk_pipe]> |>) ;;
  onpipe a (pipeinit a).

(** [bad:] of pipealloc() *)
Definition pipealloc_bad (f0 f1 : option nat) : F (option (nat * nat)) :=
  (if f0 is Some f then fileclose f else mret tt) ;;
  (if f1 is Some f then fileclose f else mret tt) ;;
  mret None.

(** The two files, or [None] for -1. *)
Definition pipealloc : F (option (nat * nat)) :=
  f0 ← filealloc;
  f1 ← (if f0 is Some _ then filealloc else mret None);
  match f0, f1 with
  | Some r, Some w =>
      p ← onkmem kalloc;
      if p =? 0 then pipealloc_bad f0 f1 else
      fpipeinit p ;;
      modf r (fun x => x <| type := FD_PIPE |> <| readable := 1 |> <| writable := 0 |> <| fpipe := p |>) ;;
      modf w (fun x => x <| type := FD_PIPE |> <| readable := 0 |> <| writable := 1 |> <| fpipe := p |>) ;;
      mret (Some (r, w))
  | _, _ => pipealloc_bad f0 f1
  end.
End File.
