(* ===== verification/FileTable.v ===== *)
(** * Reference counts of open files (src/file.c: filealloc, filedup, fileclose)

    Whoever got a file from filealloc() or filedup() holds it until fileclose().
    The counts in the table are the numbers of holders, so a file in use is never
    given out again and a last close is the close of the last holder. *)

From stdpp Require Import prelude gmap strings list.
From Stdlib Require Import ZArith Lia.
From S2P Require Import Strings Prelude Kalloc Pipe Sleeplock Bio BioSpec Layout Log Store Fs File.

Section FileTable.
Context {B : Type} `{BlockStore B} (pid kend : Z).
Implicit Types s : fstate B.

(** ** Code that does not touch the table *)

Definition keeps_table {A} (m : M (fstate B) A) : Prop :=
  forall c s r c' s', m c s = Ok r c' s' -> ftable s' = ftable s.

Lemma kt_ret {A} (r : A) : keeps_table (mret r).
Proof. by intros c s r' c' s' [= _ _ <-]. Qed.

Lemma kt_bind {A A'} (m : M (fstate B) A) (f : A -> M (fstate B) A') :
  keeps_table m -> (forall r, keeps_table (f r)) -> keeps_table (m ≫= f).
Proof.
  intros Hm Hf c s r c' s'. rewrite bindE. destruct (m c s) as [r1 c1 s1| | | | |] eqn:E; try done. cbn [obind].
  intros E2. by rewrite (Hf _ _ _ _ _ _ E2), (Hm _ _ _ _ _ E).
Qed.

Lemma kt_getS : keeps_table getS.
Proof. by intros c s r' c' s' [= _ _ <-]. Qed.

Lemma kt_option {A} (o : option A) : keeps_table (of_option o).
Proof. destruct o; [apply kt_ret|done]. Qed.

Lemma kt_zoom {T A} (get : fstate B -> T) put (m : M T A) :
  (forall k s, ftable (put k s) = ftable s) -> keeps_table (zoom get put m).
Proof.
  intros Hp c s r c' s'. unfold zoom. destruct (m c (get s)); try done. intros [= _ _ <-]. apply Hp.
Qed.

Lemma kt_onpipe {A} a (m : M pworld A) : keeps_table (onpipe a m).
Proof.
  apply kt_bind; [apply kt_getS|]. intros s. apply kt_bind; [apply kt_option|]. intros p. by apply kt_zoom.
Qed.

Lemma kt_last ff :
  keeps_table (match type ff with
  | FD_PIPE => fpipeclose kend (fpipe ff) (writable ff)
  | FD_INODE => begin_tx ;; onfs (iput pid (fip ff)) ;; end_tx
  | FD_NONE => mret tt
  end).
Proof.
  destruct (type ff); [apply kt_ret| |].
  - apply kt_bind; [apply kt_onpipe|]. intros _. apply kt_bind; [apply kt_getS|]. intros s.
    apply kt_bind; [apply kt_option|]. intros p. case_match; [by apply kt_zoom|apply kt_ret].
  - apply kt_bind; [by apply kt_zoom|]. intros _. apply kt_bind; [by apply kt_zoom|]. intros _. by apply kt_zoom.
Qed.

(** ** The three operations on the table *)

Definition settab (f : nat) (x : file) s : fstate B := s <| ftable ::= <[f := x]> |>.

Lemma modf_run f g x c s : ftable s !! f = Some x -> modf f g c s = Ok tt c (settab f (g x) s).
Proof. intros Hx. unfold modf, getf. mrun. rewrite Hx. mrun. done. Qed.

Lemma getf_run f x c s : ftable s !! f = Some x -> getf f c s = Ok x c s.
Proof. intros Hx. unfold getf. mrun. by rewrite Hx. Qed.

Lemma filealloc_run t s :
  filealloc (Ctx [] t) s =
  match find_index (fun f => fref f =? 0) (ftable s) with
  | Some f => match ftable s !! f with
              | Some x => Ok (Some f) (Ctx [] t) (settab f (x <| fref := 1 |>) s)
              | None => Undef
              end
  | None => Ok None (Ctx [] t) s
  end.
Proof.
  unfold filealloc. mrun. destruct (find_index _ _) as [f|]; [|by mrun].
  destruct (ftable s !! f) as [x|] eqn:Hx.
  - rewrite bindE, (modf_run f _ x) by done. cbn [obind]. by mrun.
  - rewrite bindE. unfold modf, getf. mrun. by rewrite Hx.
Qed.

Lemma filedup_run f x t s :
  ftable s !! f = Some x -> 0 < fref x < 2 ^ 31 - 1 ->
  filedup f (Ctx [] t) s = Ok f (Ctx [] t) (settab f (x <| fref := fref x + 1 |>) s).
Proof.
  intros Hx Hr. unfold filedup. mrun. rewrite (getf_run f x) by done. cbn [obind].
  destruct (Z.ltb_spec (fref x) 1); [lia|]. rewrite bindE, (modf_run f _ x) by done. cbn [obind]. mrun.
  unfold update. by rewrite s32_small by lia.
Qed.

(** fileclose() by one of several holders, and by the last. *)
Lemma fileclose_run f x t s :
  ftable s !! f = Some x -> 0 < fref x < 2 ^ 31 ->
  fileclose pid kend f (Ctx [] t) s =
  if 1 <? fref x then Ok tt (Ctx [] t) (settab f (x <| fref := fref x - 1 |>) s)
  else (match type x with
        | FD_PIPE => fpipeclose kend (fpipe x) (writable x)
        | FD_INODE => begin_tx ;; onfs (iput pid (fip x)) ;; end_tx
        | FD_NONE => mret tt
        end) (Ctx [] t) (settab f (x <| fref := 0 |> <| type := FD_NONE |>) s).
Proof.
  intros Hx Hr. assert (Hlt := lookup_lt_Some _ _ _ Hx). unfold fileclose. mrun. rewrite (getf_run f x) by done. cbn [obind].
  destruct (Z.ltb_spec (fref x) 1); [lia|]. rewrite bindE, (modf_run f _ x) by done. cbn [obind].
  set (x1 := x <| fref ::= fun r => s32 (r - 1) |>). assert (Hx1 : x1 = x <| fref := fref x - 1 |>).
  { unfold x1, update. simpl. by rewrite s32_small by lia. }
  set (s1 := settab f x1 s). assert (Hs1 : ftable s1 !! f = Some x1) by (by apply list_lookup_insert_eq).
  rewrite bindE, (getf_run f x1) by done. cbn [obind].
  replace (fref x1) with (fref x - 1) by (by rewrite Hx1). destruct (Z.ltb_spec 1 (fref x)), (Z.ltb_spec 0 (fref x - 1)); try lia.
  - mrun. unfold s1. by rewrite Hx1.
  - rewrite bindE, (modf_run f _ x1) by done. cbn [obind]. mrun.
    assert (Hs : settab f (x1 <| fref := 0 |> <| type := FD_NONE |>) s1 = settab f (x <| fref := 0 |> <| type := FD_NONE |>) s).
    { unfold s1, settab, update. simpl. by rewrite list_insert_insert_eq. }
    rewrite Hs. done.
Qed.

(** ** The holders *)

Definition more (hd : nat -> Z) (f : nat) (d : Z) : nat -> Z := fun g => if Nat.eqb g f then hd g + d else hd g.

(** A step of some thread: it gets, duplicates or closes a file, or uses files
    in a way that leaves the counts alone, as fileread() and filewrite() do. *)
Inductive fstep : fstate B * (nat -> Z) -> fstate B * (nat -> Z) -> Prop :=
| fs_alloc t c f s s' hd : filealloc (Ctx [] t) s = Ok (Some f) c s' -> fstep (s, hd) (s', more hd f 1)
| fs_full t c s s' hd : filealloc (Ctx [] t) s = Ok None c s' -> fstep (s, hd) (s', hd)
| fs_dup t c f g s s' hd : 0 < hd f < 2 ^ 31 - 1 -> filedup f (Ctx [] t) s = Ok g c s' -> fstep (s, hd) (s', more hd f 1)
| fs_close t c f s s' hd : 0 < hd f -> fileclose pid kend f (Ctx [] t) s = Ok tt c s' -> fstep (s, hd) (s', more hd f (-1))
| fs_use s s' hd : fref <$> ftable s' = fref <$> ftable s -> fstep (s, hd) (s', hd).

Record counted (s : fstate B) (hd : nat -> Z) : Prop := {
  ct_refs : forall f x, ftable s !! f = Some x -> fref x = hd f;
  ct_range : forall f, 0 <= hd f < 2 ^ 31;
  ct_table : forall f, 0 < hd f -> (f < length (ftable s))%nat;
}.

Lemma counted_held s hd f : counted s hd -> 0 < hd f -> exists x, ftable s !! f = Some x /\ fref x = hd f.
Proof.
  intros Hc Hf. destruct (lookup_lt_is_Some_2 (ftable s) f) as [x Hx]; [by apply (ct_table _ _ Hc)|].
  exists x. split; [done|]. by apply (ct_refs _ _ Hc).
Qed.

Lemma counted_set s s' hd f x d :
  counted s hd -> (f < length (ftable s))%nat -> ftable s' = <[f := x]> (ftable s) -> fref x = hd f + d -> 0 <= hd f + d < 2 ^ 31 ->
  counted s' (more hd f d).
Proof.
  intros [Hr Hb Ht] Hf E Hx Hd. split; unfold more.
  - intros g y Hy. rewrite E in Hy. apply lookup_seq_insert in Hy as [[<- ->]|[Hne Hy]]; [by rewrite Nat.eqb_refl|].
    destruct (Nat.eqb_spec g f) as [->|]; [done|by apply Hr].
  - intros g. by destruct (Nat.eqb_spec g f) as [->|]; [|apply Hb].
  - intros g. rewrite E, length_insert. destruct (Nat.eqb_spec g f) as [->|]; [done|apply Ht].
Qed.

Lemma fstep_counted s hd s' hd' : fstep (s, hd) (s', hd') -> counted s hd -> counted s' hd'.
Proof.
  intros Hs Hc. inversion Hs as [t c f ? ? ? Ha|t c ? ? ? Ha|t c f g ? ? ? Hf Hd|t c f ? ? ? Hf Hd|? ? ? Hu]; subst.
  - rewrite filealloc_run in Ha. destruct (find_index _ _) as [f'|] eqn:Hi; [|done].
    apply find_index_Some in Hi as [(x & Hx & Hz) _]. rewrite Hx in Ha. injection Ha as -> _ <-. apply Z.eqb_eq in Hz.
    rewrite (ct_refs _ _ Hc f x Hx) in Hz. eapply counted_set; [done|by eapply lookup_lt_Some|done| |]; simpl; rewrite ?Hz; lia.
  - rewrite filealloc_run in Ha. destruct (find_index _ _) as [f'|] eqn:Hi; [by destruct (ftable s !! f')|]. by injection Ha as _ <-.
  - destruct (counted_held _ _ _ Hc (proj1 Hf)) as (x & Hx & Hr). rewrite (filedup_run f x) in Hd by (done || lia).
    injection Hd as _ _ <-. eapply counted_set; [done|by eapply lookup_lt_Some|done| |]; simpl; lia.
  - destruct (counted_held _ _ _ Hc Hf) as (x & Hx & Hr). pose proof (ct_range _ _ Hc f). rewrite (fileclose_run f x) in Hd by (done || lia).
    destruct (Z.ltb_spec 1 (fref x)).
    + injection Hd as _ <-. eapply counted_set; [done|by eapply lookup_lt_Some|done| |]; simpl; lia.
    + apply kt_last in Hd. eapply counted_set; [done|by eapply lookup_lt_Some|exact Hd| |]; simpl; lia.
  - destruct Hc as [Hr Hb Ht]. split; [|done|].
    + intros f x Hx. assert (Hl : (fref <$> ftable s') !! f = Some (fref x)) by (by rewrite list_lookup_fmap, Hx).
      rewrite Hu, list_lookup_fmap in Hl. destruct (ftable s !! f) as [y|] eqn:Hy; [|done]. injection Hl as <-. by apply Hr.
    + intros f Hf. apply (f_equal length) in Hu. rewrite !length_fmap in Hu. rewrite Hu. by apply Ht.
Qed.

(** C10: After any sequence of filealloc(), filedup() and fileclose() by their holders
    and other uses, the count of every file is the number of its holders.  So
    filealloc() gives out a file nobody holds, filedup() of a held file succeeds,
    and fileclose() reaches the pipe or the inode only for the last holder. *)
Theorem file_refs s0 s hd :
  Forall (fun x => fref x = 0) (ftable s0) -> rtc fstep (s0, fun _ => 0) (s, hd) ->
  (forall f x, ftable s !! f = Some x -> fref x = hd f) /\
  (forall t f c s', filealloc (Ctx [] t) s = Ok (Some f) c s' -> hd f = 0) /\
  (forall t f, 0 < hd f < 2 ^ 31 - 1 -> exists s', filedup f (Ctx [] t) s = Ok f (Ctx [] t) s' /\ fs s' = fs s /\ pipes s' = pipes s) /\
  (forall t f, 1 < hd f -> exists s', fileclose pid kend f (Ctx [] t) s = Ok tt (Ctx [] t) s' /\ fs s' = fs s /\ pipes s' = pipes s).
Proof.
  intros H0' Hsteps. assert (Hc : counted s hd).
  { change (counted (s, hd).1 (s, hd).2). revert Hsteps. generalize (s, hd). intros z Hz.
    assert (Hinit : counted (s0, fun _ : nat => 0).1 (s0, fun _ : nat => 0).2).
    { split; [|intros f; cbn; lia|intros f; cbn; lia]. intros f x Hx. rewrite Forall_lookup in H0'. by apply (H0' f). }
    induction Hz as [y|[y1 h1] [y2 h2] y3 Hst _ IH]; [done|]. apply IH. by eapply fstep_counted. }
  split_and!.
  - apply (ct_refs _ _ Hc).
  - intros t f c s' Ha. rewrite filealloc_run in Ha. destruct (find_index _ _) as [f'|] eqn:Hi; [|done].
    apply find_index_Some in Hi as [(x & Hx & Hz) _]. rewrite Hx in Ha. injection Ha as -> _ _.
    rewrite <- (ct_refs _ _ Hc f x Hx). lia.
  - intros t f Hf. destruct (counted_held _ _ _ Hc (proj1 Hf)) as (x & Hx & Hr). eexists.
    rewrite (filedup_run f x) by (done || lia). done.
  - intros t f Hf. destruct (counted_held s hd f Hc) as (x & Hx & Hr); [lia|]. pose proof (ct_range _ _ Hc f). eexists.
    rewrite (fileclose_run f x) by (done || lia). destruct (Z.ltb_spec 1 (fref x)); [done|lia].
Qed.
End FileTable.
