(* ===== verification/FileSpec.v ===== *)
(** * Writing to an open file, with crashes (src/file.c: filewrite)

    [fcrun] is the logic of the code that runs transactions: besides the result it
    speaks of every disk a crash can leave.  filewrite() splits a write into
    transactions; a crash leaves a whole number of them. *)

From stdpp Require Import prelude gmap strings list.
From Stdlib Require Import ZArith Lia.
From S2P Require Import Strings Prelude Kalloc Pipe Sleeplock Bio BioSpec Layout Log LogSpec Store Fs FsLogic FsAlloc FsFile FsInode FsIO FsWrite FsDir FsCache File.

Section FileSpec.
Context {B : Type} `{BlockStoreOk B} (SB : superblock) (pid : Z) (devsw : list (devops B)).
Context (pi : gmap Z pipe) (kp : kmem) (kl : Z).
Implicit Types (ft : list file) (ic : list inode) (a : atx) (d : Z -> list Z).

Definition fcrun {A} (m : M (fstate B) A) ft ic a (C : (Z -> list Z) -> Prop)
    (Q : A -> list file -> list inode -> atx -> Prop) : Prop :=
  forall b t, t_rel b a -> exists r ev b' ft' ic' a',
    m (Ctx [] t) (mkfstate ft (mkfs ic SB b) pi kp kl) =
      Ok r (Ctx [] (t ++ ev)) (mkfstate ft' (mkfs ic' SB b') pi kp kl) /\
    t_rel b' a' /\ tdur a' = apply_writes (tdur a) (disk_writes ev) /\
    (forall P, P `prefix_of` disk_writes ev -> C (apply_writes (tdur a) P)) /\ Q r ft' ic' a'.

Lemma fcrun_ret {A} (r : A) ft ic a C (Q : A -> list file -> list inode -> atx -> Prop) :
  C (tdur a) -> Q r ft ic a -> fcrun (mret r) ft ic a C Q.
Proof.
  intros HC HQ b t Hr. exists r, [], b, ft, ic, a. rewrite app_nil_r. split_and!; try done.
  intros P HP. by apply prefix_nil_inv in HP as ->.
Qed.

Lemma fcrun_bind {A A'} (m : M (fstate B) A) (f : A -> M (fstate B) A') ft ic a C Q :
  fcrun m ft ic a C (fun r ft' ic' a' => fcrun (f r) ft' ic' a' C Q) -> fcrun (m ≫= f) ft ic a C Q.
Proof.
  intros Hm b t Hr. destruct (Hm b t Hr) as (r & ev & b1 & ft1 & ic1 & a1 & E1 & Hr1 & Hd1 & HC1 & Hf).
  destruct (Hf b1 (t ++ ev) Hr1) as (r2 & ev2 & b2 & ft2 & ic2 & a2 & E2 & Hr2 & Hd2 & HC2 & HQ).
  exists r2, (ev ++ ev2), b2, ft2, ic2, a2. rewrite bindE, E1. cbn [obind]. rewrite E2, app_assoc.
  rewrite disk_writes_app, apply_app, <- Hd1. split_and!; try done.
  intros P [HP|(P' & -> & HP)]%prefix_app_cases; [by apply HC1|]. rewrite apply_app, <- Hd1. by apply HC2.
Qed.

Lemma fcrun_mono {A} (m : M (fstate B) A) ft ic a C (Q Q' : A -> list file -> list inode -> atx -> Prop) :
  fcrun m ft ic a C Q -> (forall r ft' ic' a', Q r ft' ic' a' -> Q' r ft' ic' a') -> fcrun m ft ic a C Q'.
Proof.
  intros Hm HQ b t Hr. destruct (Hm b t Hr) as (r & ev & b1 & ft1 & ic1 & a1 & Hrest).
  exists r, ev, b1, ft1, ic1, a1. naive_solver.
Qed.

Lemma fcrun_getf f x ft ic a C (Q : file -> list file -> list inode -> atx -> Prop) :
  ft !! f = Some x -> C (tdur a) -> Q x ft ic a -> fcrun (getf f) ft ic a C Q.
Proof.
  intros Hx HC HQ b t Hr. exists x, [], b, ft, ic, a. rewrite app_nil_r. split_and!; try done.
  - unfold getf. mrun. cbn [ftable]. by rewrite Hx.
  - intros P HP. by apply prefix_nil_inv in HP as ->.
Qed.

Lemma fcrun_modf f x g ft ic a C (Q : unit -> list file -> list inode -> atx -> Prop) :
  ft !! f = Some x -> C (tdur a) -> Q tt (<[f := g x]> ft) ic a -> fcrun (modf f g) ft ic a C Q.
Proof.
  intros Hx HC HQ b t Hr. exists tt, [], b, (<[f := g x]> ft), ic, a. rewrite app_nil_r. split_and!; try done.
  - unfold modf, getf. mrun. cbn [ftable]. rewrite Hx. mrun. done.
  - intros P HP. by apply prefix_nil_inv in HP as ->.
Qed.

(** Code of the file system between the transactions' ends. *)
Lemma fcrun_fs {A} (m : M (fsstate B) A) ft ic a C (Q : A -> list file -> list inode -> atx -> Prop) :
  C (tdur a) -> fwp SB m ic a (fun r ic' a' => tdur a' = tdur a /\ Q r ft ic' a') -> fcrun (onfs m) ft ic a C Q.
Proof.
  intros HC Hm b t Hr. destruct (Hm b t Hr) as (r & ev & b' & ic' & a' & Hrun & Hw & Hr' & Hd & HQ).
  exists r, ev, b', ft, ic', a'. rewrite Hw. split_and!; try done.
  - unfold onfs, zoom. cbn [fs]. by rewrite Hrun.
  - intros P HP. by apply prefix_nil_inv in HP as ->.
Qed.

Lemma fcrun_begin ft ic a C (Q : unit -> list file -> list inode -> atx -> Prop) :
  tops a = 0 -> tlog a = ∅ -> C (tdur a) -> Q tt ft ic (a <| tops := 1 |>) -> fcrun begin_tx ft ic a C Q.
Proof.
  intros Ho Hl HC HQ b t Hr. destruct (t_begin_ok b a t Hr) as (b' & Hrun & Hr'); [lia|rewrite Hl, Ho; done|].
  exists tt, [], b', ft, ic, (a <| tops := 1 |>). rewrite app_nil_r. split_and!; try done.
  - unfold begin_tx, onfs, onb, zoom. cbn [fs store]. by rewrite Hrun.
  - replace (a <| tops := 1 |>) with (a <| tops ::= Z.succ |>); [done|]. unfold update. simpl. by rewrite Ho.
  - intros P HP. by apply prefix_nil_inv in HP as ->.
Qed.

Lemma fcrun_end ft ic a (C : (Z -> list Z) -> Prop) (Q : unit -> list file -> list inode -> atx -> Prop) :
  tops a = 1 -> theld a = ∅ ->
  (forall d, recovers a d (tdur a) \/ recovers a d (tview a) -> C d) ->
  (forall d', (forall x, usable a x -> d' x = tview a x) ->
     Q tt ft ic (a <| tops := 0 |> <| tdur := d' |> <| tlog := ∅ |>)) ->
  fcrun end_tx ft ic a C Q.
Proof.
  intros Ho Hh HC HQ b t Hr. destruct (t_end_ok b a t Hr) as (b' & ev & Hrun & Hr' & Hd & Hcrash); [lia|done|].
  rewrite Ho in *. cbn [Z.eqb Pos.eqb] in *.
  exists tt, ev, b', ft, ic, (a <| tops := 0 |> <| tdur := apply_writes (tdur a) (disk_writes ev) |> <| tlog := ∅ |>).
  split_and!; try done.
  - unfold end_tx, onfs, onb, zoom. cbn [fs store]. by rewrite Hrun.
  - match type of Hr' with t_rel _ ?z => replace (a <| tops := 0 |> <| tdur := _ |> <| tlog := ∅ |>) with z; [done|] end.
    unfold update. simpl. by rewrite Ho.
  - intros P HP. apply HC. by apply Hcrash.
  - by apply HQ.
Qed.

(** ** The state between two transactions *)

Record quiet a : Prop := {
  qt_log : tlog a = ∅;
  qt_held : theld a = ∅;
  qt_ops : tops a = 0;
  qt_dur : forall x, usable a x -> tdur a x = tview a x;
}.

(** The bytes of inode [n] on the disk. *)
Definition file_bytes (v : Z -> list Z) (n : Z) : list Z :=
  slice v (d_addrs (dinode_at SB v n)) 0 (d_size (dinode_at SB v n)).

(** Open file [f] is the regular file in entry [ip] of the inode cache, at the
    offset [off]. *)
Record open_at (M : Z) ft ic a (f ip : nat) (n off : Z) : Prop := {
  oa_file : exists x, ft !! f = Some x /\ type x = FD_INODE /\ fip x = ip /\ foff x = off /\ writable x <> 0;
  oa_fs : fsok SB a;
  oa_cache : ic_ok SB pid M ∅ (tview a) ic;
  oa_inode : exists i, ic !! ip = Some i /\ inum i = n /\ 0 < ref i;
  oa_disk : forall i, idev i = ROOTDEV -> inum i = n -> to_dinode i = dinode_at SB (tview a) n ->
    file_ok SB (tview a) i /\ inode_ok SB i;
  oa_type : d_type (dinode_at SB (tview a) n) <> 0;
  oa_off : 0 <= off <= d_size (dinode_at SB (tview a) n);
}.

(** The log can take the blocks of one operation. *)
Definition log_fits a : Prop := (size (bmap_set SB) <= 1)%nat /\ MAXOPBLOCKS < tlen a - 1.

Definition opcap : Cap := Z.to_nat MAXOPBLOCKS.

(** The blocks that every write of file [n] may write. *)
Definition pool a (i : inode) : gset Z :=
  bmap_set SB ∪ {[iblk SB (inum i)]} ∪ (if ind_of (addrs i) =? 0 then ∅ else {[ind_of (addrs i)]}).

Lemma size_union_le (X Y : gset Z) : (size (X ∪ Y) <= size X + size Y)%nat.
Proof.
  replace (X ∪ Y) with (X ∪ (Y ∖ X)); [|apply set_eq; intros x; destruct (decide (x ∈ X)); set_solver].
  rewrite size_union by set_solver. assert (size (Y ∖ X) <= size Y)%nat by (apply subseteq_size; set_solver). lia.
Qed.

Lemma nblk_chunk off n : 0 <= n <= 1536 -> nblk off n <= 4.
Proof.
  intros Hn. unfold nblk. destruct (Z.leb_spec n 0); [done|]. pose proof (Z.mod_pos_bound off 512 ltac:(lia)).
  assert ((off mod 512 + n + 511) / 512 < 5); [|lia]. apply Z.div_lt_upper_bound; lia.
Qed.

(** The reservation of begin_op() is enough for one chunk. *)
Lemma pool_budget a i off n :
  log_fits a -> quiet a -> 0 <= n <= 1536 ->
  budget (K := opcap) (pool a i) (a <| tops := 1 |>) (Z.to_nat (nblk off n) + cost (addrs i) + 0).
Proof.
  intros [Hb Hl] [Hlog Hheld _ _] Hn. pose proof (nblk_chunk off n Hn). pose proof (nblk_nonneg off n).
  assert (Hs : (size (tlog (a <| tops := 1%Z |>) ∪ pool a i) + cost (addrs i) <= 3)%nat).
  { simpl. rewrite Hlog. unfold pool, cost. rewrite (left_id_L ∅ (∪)). destruct (ind_of (addrs i) =? 0);
      rewrite ?(right_id_L ∅ (∪)); [pose proof (size_union_le (bmap_set SB) {[iblk SB (inum i)]})|
      pose proof (size_union_le (bmap_set SB ∪ {[iblk SB (inum i)]}) {[ind_of (addrs i)]});
      pose proof (size_union_le (bmap_set SB) {[iblk SB (inum i)]})]; rewrite ?size_singleton in *; lia. }
  unfold MAXOPBLOCKS in Hl. split; [unfold cap, opcap; change (Z.to_nat MAXOPBLOCKS) with 10%nat; lia|lia| | |done].
  - simpl tlen. lia.
  - simpl. rewrite Hheld, map_size_empty. lia.
Qed.

(** The state after the transaction of a chunk. *)
Definition settled a d : atx := a <| tops := 0 |> <| tdur := d |> <| tlog := ∅ |>.

Lemma ilocked_disk_file M ft ic a f ip n off i :
  open_at M ft ic a f ip n off -> ic !! ip = Some i -> 0 < ref i -> inum i = n ->
  let l := ilocked SB pid (tview a) i in
  file_ok SB (tview a) l /\ inode_ok SB l /\ to_dinode l = dinode_at SB (tview a) n /\ inum l = n.
Proof.
  intros Ho Hi Hr En l. destruct (ilocked_same SB pid (tview a) i) as (_ & En' & Ed').
  pose proof (io_entry _ _ _ _ _ _ (oa_cache _ _ _ _ _ _ _ _ Ho) ip i Hi Hr) as He.
  destruct (ilocked_disk SB pid _ _ He) as [Hd _]. rewrite En in Hd. fold l in En', Ed', Hd.
  destruct (oa_disk _ _ _ _ _ _ _ _ Ho l) as [Hf Hk]; [rewrite Ed'; apply (en_dev _ _ _ He)|congruence|done|].
  split_and!; congruence.
Qed.

Lemma open_after M ft ic a f ip n off i x src a2 i' d :
  let l := ilocked SB pid (tview a) i in
  let len := Z.of_nat (length src) in
  open_at M ft ic a f ip n off -> ic !! ip = Some i -> 0 < ref i -> inum i = n -> ft !! f = Some x ->
  written SB (a <| tops := 1 |>) l off src a2 i' ->
  open_at M (<[f := x <| foff := off + len |>]> ft) (<[ip := iunlocked i']> ic) (settled a2 d) f ip n (off + len).
Proof.
  intros l len Ho Hi Hr En Hx Hw. destruct (ilocked_disk_file _ _ _ _ _ _ _ _ _ Ho Hi Hr En) as (Hf & Hk & Hd & Enl).
  fold l in Hf, Hk, Hd, Enl. assert (Hlt := lookup_lt_Some _ _ _ Hi). assert (Hltf := lookup_lt_Some _ _ _ Hx).
  destruct (ilocked_same SB pid (tview a) i) as (Er & _ & Ed). fold l in Er, Ed.
  pose proof (wn_disk _ _ _ _ _ _ _ Hw) as Hd'. rewrite Enl in Hd'. specialize (Hd' (eq_sym Hd)).
  pose proof (wn_same _ _ _ _ _ _ _ Hw) as Hsame. pose proof (written_inode _ _ _ _ _ _ _ Hk Hw) as Hk'.
  assert (Hi' : inum i' = n /\ ref i' = ref i /\ idev i' = idev i) by (rewrite Hsame; by rewrite <- Enl, <- Er, <- Ed).
  destruct Hi' as (Eni & Eri & Edi). pose proof (en_dev _ _ _ (io_entry _ _ _ _ _ _ (oa_cache _ _ _ _ _ _ _ _ Ho) ip i Hi Hr)) as Hdev.
  destruct (oa_file _ _ _ _ _ _ _ _ Ho) as (x' & Hx' & Ht & Hfi & Hof & Hwr). assert (x' = x) as -> by congruence. split.
  - exists (x <| foff := off + len |>). by rewrite list_lookup_insert_eq.
  - destruct (wn_ok _ _ _ _ _ _ _ Hw) as [[? ? ? ?] ? ? ?]. split; [split|..]; done.
  - eapply (ic_ok_write SB pid M ∅ (tview a)); try done; [apply Ho| | |by rewrite En|rewrite En; exact (eq_sym Hd')].
    + intros m Hm Hne. apply (wn_inodes _ _ _ _ _ _ _ Hw); [done|congruence].
    + rewrite (io_lock _ _ _ _ _ _ (oa_cache _ _ _ _ _ _ _ _ Ho) ip i Hi). by rewrite decide_False by set_solver.
  - exists (iunlocked i'). rewrite list_lookup_insert_eq by done. split_and!; [done|done|simpl; lia].
  - intros j Hdj Hnj Hj. change (tview (settled a2 d)) with (tview a2) in *. split.
    + eapply file_ok_ext; [apply (wn_file _ _ _ _ _ _ _ Hw)|congruence|congruence].
    + eapply inode_ok_ext; [exact Hk'|congruence|congruence].
  - change (tview (settled a2 d)) with (tview a2). rewrite Hd'. pose proof (oa_type _ _ _ _ _ _ _ _ Ho) as Hty.
    rewrite <- Hd in Hty. by rewrite Hsame.
  - change (tview (settled a2 d)) with (tview a2). rewrite Hd'. change (d_size (to_dinode i')) with (isize i').
    rewrite (wn_size _ _ _ _ _ _ _ Hw). pose proof (oa_off _ _ _ _ _ _ _ _ Ho). unfold len. lia.
Qed.

(** What a chunk keeps of the disk: the other inodes, and the blocks in use that
    are not the file's. *)
Record keeps (n : Z) a a' : Prop := {
  kp_inodes : forall m, 0 <= m < sb_ninodes SB -> m <> n -> dinode_at SB (tview a') m = dinode_at SB (tview a) m;
  kp_marks : forall x, 0 <= x < sb_size SB -> marked SB (tview a) x = true -> marked SB (tview a') x = true;
  kp_owns : forall x, 0 <= x < sb_size SB -> owns (tview a') (d_addrs (dinode_at SB (tview a') n)) x -> marked SB (tview a) x = true ->
    owns (tview a) (d_addrs (dinode_at SB (tview a) n)) x;
  kp_blocks : forall x, 0 <= x < sb_size SB -> marked SB (tview a) x = true -> x ∉ bmap_set SB -> x <> iblk SB n ->
    ~ owns (tview a) (d_addrs (dinode_at SB (tview a) n)) x -> tview a' x = tview a x;
  kp_place : tsize a' = tsize a /\ tstart a' = tstart a /\ tlen a' = tlen a;
}.

Lemma keeps_refl n a : keeps n a a.
Proof. by split. Qed.

Lemma keeps_trans n a a1 a2 : keeps n a a1 -> keeps n a1 a2 -> keeps n a a2.
Proof.
  intros [I1 M1 O1 B1 (S1 & T1 & L1)] [I2 M2 O2 B2 (S2 & T2 & L2)]. split.
  - intros m Hm Hne. by rewrite I2, I1.
  - auto.
  - auto.
  - intros x Hx Hm Hb Hi Hno. rewrite B2; auto.
  - split_and!; congruence.
Qed.

Lemma written_keeps a l off src a2 i' d n :
  inum l = n -> to_dinode l = dinode_at SB (tview a) n -> written SB (a <| tops := 1 |>) l off src a2 i' -> keeps n a (settled a2 d).
Proof.
  intros En Hd Hw. pose proof (wn_disk _ _ _ _ _ _ _ Hw) as Hd'. rewrite En in Hd'. specialize (Hd' (eq_sym Hd)).
  destruct (wn_shape _ _ _ _ _ _ _ Hw) as (_ & _ & Hs). split; change (tview (settled a2 d)) with (tview a2).
  - intros m Hm Hne. apply (wn_inodes _ _ _ _ _ _ _ Hw); [done|congruence].
  - apply (wn_marks _ _ _ _ _ _ _ Hw).
  - intros x _. rewrite Hd', <- Hd. apply (wn_owns _ _ _ _ _ _ _ Hw).
  - intros x Hx Hm Hb Hi. rewrite <- Hd. apply (wn_frame _ _ _ _ _ _ _ Hw x Hx Hm Hb). by rewrite En.
  - split_and!; apply Hs.
Qed.

Definition cost_of a (n : Z) : nat := cost (d_addrs (dinode_at SB (tview a) n)).

(** A step of filewrite(): the disk before and after. *)
Record chunk_done (n off : Z) (src : list Z) a a' : Prop := {
  cd_bytes : file_bytes (tview a') n = splice (file_bytes (tview a) n) off src;
  cd_keeps : keeps n a a';
  cd_free : (nfree SB (tview a) + cost_of a' n <=
    nfree SB (tview a') + Z.to_nat (nblk off (Z.of_nat (length src))) + cost_of a n)%nat;
  cd_quiet : quiet a';
}.

Lemma chunk_written a l off src a2 i' d n :
  quiet a -> inum l = n -> to_dinode l = dinode_at SB (tview a) n -> written SB (a <| tops := 1 |>) l off src a2 i' ->
  (forall x, usable a2 x -> d x = tview a2 x) -> chunk_done n off src a (settled a2 d).
Proof.
  intros Hq En Hd Hw Hdur. pose proof (wn_disk _ _ _ _ _ _ _ Hw) as Hd'. rewrite En in Hd'. specialize (Hd' (eq_sym Hd)).
  split; change (tview (settled a2 d)) with (tview a2); unfold file_bytes, cost_of; change (tview (settled a2 d)) with (tview a2);
    rewrite ?Hd', <- ?Hd.
  - apply (wn_content _ _ _ _ _ _ _ Hw).
  - by eapply written_keeps.
  - apply (wn_free _ _ _ _ _ _ _ Hw).
  - destruct (wn_shape _ _ _ _ _ _ _ Hw) as (Hh & _). split; try done. simpl. rewrite Hh. apply Hq.
Qed.

Lemma fcrun_rel {A} (m : M (fstate B) A) ft ic a C Q :
  (forall b, t_rel b a -> fcrun m ft ic a C Q) -> fcrun m ft ic a C Q.
Proof. intros Hm b t Hr. by apply (Hm b). Qed.

Lemma recovers_quiet b a : t_rel b a -> quiet a -> recovers a (tdur a) (tview a).
Proof.
  intros Hr [_ _ _ Hd]. destruct (t_crash_ok b a Hr) as [Hh Hl]. split; [done|]. intros x Hx. rewrite Hl by done. by apply Hd.
Qed.

(** [if(r > 0) f->off += r] *)
Lemma fcrun_advance f x off r ft ic a C (Q : unit -> list file -> list inode -> atx -> Prop) :
  ft !! f = Some x -> foff x = off -> 0 <= r -> 0 <= off + r < 2 ^ 32 -> C (tdur a) ->
  Q tt (<[f := x <| foff := off + r |>]> ft) ic a ->
  fcrun (if 0 <? r then modf f (fun x => x <| foff ::= fun o => u32 (o + r) |>) else mret tt) ft ic a C Q.
Proof.
  intros Hx Hoff Hr Hu HC HQ. destruct (Z.ltb_spec 0 r).
  - eapply fcrun_modf; [done|done|]. replace (x <| foff ::= fun o => u32 (o + r) |>) with (x <| foff := off + r |>); [done|].
    unfold update. simpl. by rewrite Hoff, u32_small.
  - apply fcrun_ret; [done|]. rewrite list_insert_id in HQ; [done|]. replace (off + r) with (foff x) by lia. by destruct x.
Qed.

(** One transaction of filewrite(), and what follows. *)
Lemma fcrun_chunk {A} R ft ic a f ip n off x buf n1 (k : Z -> M (fstate B) A) (C : (Z -> list Z) -> Prop) Q :
  open_at R ft ic a f ip n off -> quiet a -> log_fits a -> ft !! f = Some x -> pid <> 0 ->
  0 < n1 <= 1536 -> n1 <= Z.of_nat (length buf) -> off + n1 <= 140 * 512 ->
  (Z.to_nat (nblk off n1) + cost_of a n <= nfree SB (tview a))%nat ->
  let src := take (Z.to_nat n1) buf in
  (forall d, recovers a d (tview a) -> C d) ->
  (forall a' d, chunk_done n off src a a' -> recovers a d (tview a') -> C d) ->
  (forall ft' ic' a', open_at R ft' ic' a' f ip n (off + n1) -> chunk_done n off src a a' -> fcrun (k n1) ft' ic' a' C Q) ->
  fcrun (begin_tx ;;
    onfs (ilock pid (Some ip)) ;;
    r ← onfs (writei devsw ip buf off n1);
    (if 0 <? r then modf f (fun x => x <| foff ::= fun o => u32 (o + r) |>) else mret tt) ;;
    onfs (iunlock pid (Some ip)) ;;
    end_tx ;;
    k r) ft ic a C Q.
Proof.
  intros Ho Hq Hl Hx Hpid Hn1 Hbuf Hmax Hfree src HC0 HC1 HQ. apply fcrun_rel. intros b Hb.
  destruct (oa_inode _ _ _ _ _ _ _ _ Ho) as (i & Hi & En & Hr). set (l := ilocked SB pid (tview a) i).
  destruct (ilocked_disk_file _ _ _ _ _ _ _ _ _ Ho Hi Hr En) as (Hf & Hk & Hd & Enl). fold l in Hf, Hk, Hd, Enl.
  assert (Hlt := lookup_lt_Some _ _ _ Hi). pose proof (oa_cache _ _ _ _ _ _ _ _ Ho) as Hok.
  assert (HCd : C (tdur a)) by (by eapply HC0, recovers_quiet).
  assert (Hsrc : Z.of_nat (length src) = n1) by (unfold src; rewrite length_take; lia).
  set (a1 := a <| tops := 1 |>). assert (Hf1 : fsok SB a1).
  { destruct (oa_fs _ _ _ _ _ _ _ _ Ho) as [[? ? ? ?] ? ? ?]. split; [split|..]; done. }
  pose proof (pool_budget a l off n1 Hl Hq ltac:(lia)) as Hbud. fold a1 in Hbud.
  apply fcrun_bind, fcrun_begin; [apply Hq|apply Hq|done|]. fold a1.
  apply fcrun_bind, fcrun_fs; [done|]. eapply (fwp_ilock SB pid R ∅); [apply Hf1|done|done|done|set_solver|apply Hq|by eapply budget_read_room| |].
  { intros _. rewrite En. apply (oa_type _ _ _ _ _ _ _ _ Ho). }
  split; [done|]. apply fcrun_bind, fcrun_fs; [done|]. change (ilocked SB pid (tview a1) i) with l.
  eapply (fwp_writei_n (K := opcap) SB devsw (pool a l) 0); try done;
    [lia|by rewrite list_lookup_insert_eq|apply Hq|unfold pool; set_solver| | | |].
  { intros Hne. unfold pool. destruct (Z.eqb_spec (ind_of (addrs l)) 0); [done|set_solver]. }
  { pose proof (oa_off _ _ _ _ _ _ _ _ Ho) as Hoff. rewrite <- Hd in Hoff. exact Hoff. }
  { right. unfold cost_of in Hfree. rewrite <- Hd in Hfree. exact Hfree. }
  fold src. intros i' a2 Hw _. destruct (wn_shape _ _ _ _ _ _ _ Hw) as (Hh2 & Ho2 & Hs2 & Ht2 & Hl2 & Hd2).
  split; [done|]. rewrite list_insert_insert_eq. assert (HCd2 : C (tdur a2)) by (by rewrite Hd2).
  destruct (oa_file _ _ _ _ _ _ _ _ Ho) as (x' & Hx' & _ & _ & Hof & _). assert (x' = x) as -> by congruence.
  pose proof (oa_off _ _ _ _ _ _ _ _ Ho). apply fcrun_bind, (fcrun_advance f x off n1); [done|done|lia|lia|done|].
  pose proof (wn_same _ _ _ _ _ _ _ Hw) as Hsame. destruct (ilocked_same SB pid (tview a) i) as (Er & _ & _). fold l in Er.
  assert (Hri : ref i' = ref l) by (by rewrite Hsame).
  apply fcrun_bind, fcrun_fs; [done|]. eapply (fwp_iunlock SB pid R {[ip]});
    [|by rewrite list_lookup_insert_eq|lia|set_solver|done|].
  { rewrite <- (list_insert_insert_eq ic ip _ l). eapply (ic_ok_write SB pid R {[ip]} (tview a) _ _ ip l).
    - replace ({[ip]} : gset nat) with ((∅ : gset nat) ∪ {[ip]}) by set_solver. by apply ic_ok_lock.
    - by rewrite list_lookup_insert_eq.
    - lia.
    - apply (wn_inodes _ _ _ _ _ _ _ Hw).
    - done.
    - by rewrite Hsame.
    - by rewrite Hsame.
    - by rewrite Hsame.
    - symmetry. apply (wn_disk _ _ _ _ _ _ _ Hw). by rewrite Enl. }
  split; [done|]. rewrite list_insert_insert_eq. apply fcrun_bind, fcrun_end; [by rewrite Ho2|rewrite Hh2; apply Hq|..].
  - intros d Hrec. assert (Hr2 : forall v, recovers a2 d v -> recovers a d v).
    { intros v [Hhd Hlg]. unfold recovers, usable in *. rewrite Hs2, Ht2, Hl2 in *. done. }
    destruct Hrec as [Hrec|Hrec]; apply Hr2 in Hrec.
    + apply HC0. destruct Hrec as [Hhd Hlg]. split; [done|]. intros y Hy. rewrite Hlg by done. rewrite Hd2. by apply Hq.
    + eapply (HC1 (settled a2 (tview a2))); [|exact Hrec]. by eapply chunk_written.
  - intros d Hdur. apply HQ; [|by eapply chunk_written]. rewrite <- Hsrc. by eapply open_after.
Qed.

(** ** The whole write *)

Lemma splice_app c off s1 s2 :
  0 <= off <= Z.of_nat (length c) ->
  splice (splice c off s1) (off + Z.of_nat (length s1)) s2 = splice c off (s1 ++ s2).
Proof.
  intros Ho. assert (Hlen : (Z.to_nat off + length s1 <= length (splice c off s1))%nat).
  { unfold splice. rewrite !length_app, length_take, length_drop. lia. }
  apply list_eq. intros k. rewrite !lookup_splice by lia. rewrite length_app.
  repeat case_decide; try lia; try done.
  - rewrite lookup_app_r by lia. f_equal. lia.
  - by rewrite lookup_app_l by lia.
Qed.

(** The number of transactions of a write. *)
Definition chunks (n : Z) : nat := Z.to_nat ((n + 1535) / 1536).

(** The disks that a crash during the write can leave: recovery finds the file
    with a prefix of the bytes that is a whole number of chunks. *)
Definition crash_ok a (n off : Z) (src : list Z) d : Prop :=
  exists j v, (j <= length src)%nat /\ (j = length src \/ (1536 | Z.of_nat j)) /\
    recovers a d v /\ file_bytes v n = splice (file_bytes (tview a) n) off (take j src).

(** The write so far: [j] bytes. *)
Record progress R ft0 ic0 a0 (f ip : nat) n off (src : list Z) (j : nat) ft ic a : Prop := {
  pg_open : open_at R ft ic a f ip n (off + Z.of_nat j);
  pg_bytes : file_bytes (tview a) n = splice (file_bytes (tview a0) n) off (take j src);
  pg_keeps : keeps n a0 a;
  pg_quiet : quiet a;
  pg_free : (4 * chunks (Z.of_nat (length src) - Z.of_nat j) + cost_of a n <= nfree SB (tview a))%nat;
}.

Lemma chunks_step n : 0 < n -> chunks n = S (chunks (n - 1536 `min` n)).
Proof.
  intros Hn. unfold chunks. destruct (Z.le_gt_cases n 1536).
  - rewrite Z.min_r by lia. replace (n - n + 1535) with 1535 by lia.
    replace ((n + 1535) / 1536) with 1; [done|]. apply (Z.div_unique _ _ _ (n - 1)); lia.
  - rewrite Z.min_l by lia. replace (n + 1535) with ((n - 1536 + 1535) + 1 * 1536) by lia. rewrite Z.div_add by lia.
    pose proof (Z.div_pos (n - 1536 + 1535) 1536). lia.
Qed.

Lemma length_file_bytes v n : 0 <= d_size (dinode_at SB v n) -> Z.of_nat (length (file_bytes v n)) = d_size (dinode_at SB v n).
Proof. intros Hn. unfold file_bytes. rewrite length_slice; lia. Qed.

(** One chunk more. *)
Lemma chunk_bytes R ft0 ic0 a0 f ip n off src j ft ic a a' (m : nat) :
  0 <= off <= d_size (dinode_at SB (tview a0) n) ->
  progress R ft0 ic0 a0 f ip n off src j ft ic a -> (j + m <= length src)%nat ->
  chunk_done n (off + Z.of_nat j) (take m (drop j src)) a a' ->
  file_bytes (tview a') n = splice (file_bytes (tview a0) n) off (take (j + m) src) /\ keeps n a0 a'.
Proof.
  intros Hoff [Ho Hb Hk Hq Hf] Hj [Hb' Hk' Hf' Hq']. split; [|by eapply keeps_trans].
  assert (Hlj : length (take j src) = j) by (rewrite length_take; lia).
  rewrite Hb', Hb. pose proof (splice_app (file_bytes (tview a0) n) off (take j src) (take m (drop j src))) as E.
  rewrite Hlj in E. rewrite E by (rewrite length_file_bytes; lia). f_equal.
  rewrite <- (take_drop j (take (j + m) src)). rewrite take_take, min_l by lia. f_equal. by rewrite take_drop_commute.
Qed.

Lemma progress_step R ft0 ic0 a0 f ip n off src j ft ic a ft' ic' a' (m : nat) :
  0 <= off <= d_size (dinode_at SB (tview a0) n) ->
  progress R ft0 ic0 a0 f ip n off src j ft ic a -> (j < length src)%nat ->
  m = Z.to_nat (1536 `min` (Z.of_nat (length src) - Z.of_nat j)) ->
  open_at R ft' ic' a' f ip n (off + Z.of_nat j + Z.of_nat m) ->
  chunk_done n (off + Z.of_nat j) (take m (drop j src)) a a' ->
  progress R ft0 ic0 a0 f ip n off src (j + m) ft' ic' a'.
Proof.
  intros Hoff Hp Hj Hm Ho' Hc. destruct (chunk_bytes _ _ _ _ _ _ _ _ _ _ _ _ _ _ m Hoff Hp ltac:(lia) Hc) as [Hb Hk].
  destruct Hc as [_ _ Hf' Hq']. pose proof (pg_free _ _ _ _ _ _ _ _ _ _ _ _ _ Hp) as Hf.
  assert (Hlm : length (take m (drop j src)) = m) by (rewrite length_take, length_drop; lia). split; try done.
  - by rewrite Nat2Z.inj_add, Z.add_assoc.
  - rewrite Hlm in Hf'. pose proof (nblk_chunk (off + Z.of_nat j) (Z.of_nat m) ltac:(lia)).
    rewrite (chunks_step (Z.of_nat (length src) - Z.of_nat j)) in Hf by lia.
    replace (Z.of_nat (length src) - Z.of_nat (j + m)) with
      (Z.of_nat (length src) - Z.of_nat j - 1536 `min` (Z.of_nat (length src) - Z.of_nat j)) by lia. lia.
Qed.

Section Write.
Context (R : Z) (ft0 : list file) (ic0 : list inode) (a0 : atx) (f ip : nat) (n off : Z) (src : list Z).
Hypothesis Hfit : log_fits a0.
Hypothesis Hpid : pid <> 0.
Hypothesis Hmax : off + Z.of_nat (length src) <= 140 * 512.
Hypothesis Hoff : 0 <= off <= d_size (dinode_at SB (tview a0) n).

Lemma recovers_keeps a d v : keeps n a0 a -> recovers a d v -> recovers a0 d v.
Proof. intros [_ _ _ _ (E1 & E2 & E3)] Hr. unfold recovers, usable in *. by rewrite E1, E2, E3 in Hr. Qed.

(** Where the write is between two chunks, also after a crash. *)
Lemma progress_crash j ft ic a d :
  progress R ft0 ic0 a0 f ip n off src j ft ic a -> (j <= length src)%nat -> j = length src \/ (1536 | Z.of_nat j) ->
  recovers a d (tview a) -> crash_ok a0 n off src d.
Proof.
  intros [Ho Hb Hk Hq Hf] Hj Hdiv Hr. exists j, (tview a). split_and!; try done. by eapply recovers_keeps.
Qed.

Lemma fcrun_write_loop fuel j ft ic a :
  progress R ft0 ic0 a0 f ip n off src j ft ic a -> (j <= length src)%nat -> j = length src \/ (1536 | Z.of_nat j) ->
  (chunks (Z.of_nat (length src) - Z.of_nat j) <= fuel)%nat ->
  fcrun (filewrite_loop pid devsw f (drop j src) (Z.of_nat j) (Z.of_nat (length src)) fuel) ft ic a
    (crash_ok a0 n off src) (fun r ft' ic' a' =>
      r = Z.of_nat (length src) /\ progress R ft0 ic0 a0 f ip n off src (length src) ft' ic' a').
Proof.
  revert j ft ic a. induction fuel as [|fuel IH]; intros j ft ic a Hp Hj Hdiv Hfuel.
  all: apply fcrun_rel; intros b Hb; assert (HC : crash_ok a0 n off src (tdur a))
    by (eapply progress_crash; try done; by eapply recovers_quiet; [|apply Hp]).
  all: cbn [filewrite_loop]; destruct (Z.ltb_spec (Z.of_nat j) (Z.of_nat (length src))) as [Hlt|Hge];
    [|assert (j = length src) as -> by lia; apply fcrun_ret; done].
  { rewrite chunks_step in Hfuel by lia. lia. }
  rewrite chunks_step in Hfuel by lia. change max_write with 1536.
  set (n1 := if 1536 <? _ then _ else _).
  assert (Hn1 : n1 = 1536 `min` (Z.of_nat (length src) - Z.of_nat j)) by (unfold n1; case_match; lia).
  set (m := Z.to_nat n1). assert (Hm : Z.of_nat m = n1) by lia.
  pose proof Hp as [Ho Hby Hk Hq Hf]. destruct (oa_file _ _ _ _ _ _ _ _ Ho) as (x & Hx & _ & Hfip & Hfo & _).
  apply fcrun_bind. eapply fcrun_getf; [exact Hx|done|]. rewrite Hfip, Hfo.
  assert (Hdiv' : (j + m)%nat = length src \/ (1536 | Z.of_nat (j + m))).
  { destruct Hdiv as [|[q Hq']]; [lia|]. destruct (Z.le_gt_cases 1536 (Z.of_nat (length src) - Z.of_nat j)); [right; exists (q + 1)|left]; lia. }
  eapply (fcrun_chunk R); try done; try lia.
  - destruct Hfit as [H1 H2]. split; [done|]. by rewrite (proj2 (proj2 (kp_place _ _ _ Hk))).
  - rewrite length_drop. lia.
  - rewrite chunks_step in Hf by lia. pose proof (nblk_chunk (off + Z.of_nat j) n1 ltac:(lia)). lia.
  - intros d Hr. by eapply progress_crash.
  - fold m. intros a' d Hc Hr. destruct (chunk_bytes _ _ _ _ _ _ _ _ _ _ _ _ _ _ m Hoff Hp ltac:(lia) Hc) as [Hb2 _].
    exists (j + m)%nat, (tview a'). split_and!; try done; [lia|by eapply recovers_keeps].
  - fold m. intros ft' ic' a' Ho' Hc. destruct (Z.ltb_spec n1 0); [lia|]. rewrite Z.eqb_refl. cbn [negb].
    rewrite drop_drop, <- Hm, <- Nat2Z.inj_add. rewrite <- Hm in Ho'. apply IH; [|lia|done|].
    + eapply progress_step; try done; [lia|exact (f_equal Z.to_nat Hn1)].
    + replace (Z.of_nat (length src) - Z.of_nat (j + m)) with
        (Z.of_nat (length src) - Z.of_nat j - 1536 `min` (Z.of_nat (length src) - Z.of_nat j)) by lia. lia.
Qed.

Lemma fcrun_filewrite :
  open_at R ft0 ic0 a0 f ip n off -> quiet a0 ->
  (4 * chunks (Z.of_nat (length src)) + cost_of a0 n <= nfree SB (tview a0))%nat ->
  fcrun (filewrite pid devsw f src (Z.of_nat (length src))) ft0 ic0 a0 (crash_ok a0 n off src)
    (fun r ft' ic' a' => r = Z.of_nat (length src) /\ progress R ft0 ic0 a0 f ip n off src (length src) ft' ic' a').
Proof.
  intros Ho Hq Hf. assert (Hp : progress R ft0 ic0 a0 f ip n off src 0 ft0 ic0 a0).
  { split; try done; [by rewrite Z.add_0_r| |by rewrite Z.sub_0_r].
    rewrite take_0. unfold splice. cbn [app length]. by rewrite Nat.add_0_r, take_drop. }
  apply fcrun_rel. intros b Hb.
  assert (HC : crash_ok a0 n off src (tdur a0)).
  { eapply progress_crash; [exact Hp|lia|right; exists 0; lia|by eapply recovers_quiet]. }
  destruct (oa_file _ _ _ _ _ _ _ _ Ho) as (x & Hx & Hty & _ & _ & Hw). unfold filewrite.
  apply fcrun_bind. eapply fcrun_getf; [exact Hx|done|]. destruct (Z.eqb_spec (writable x) 0); [done|]. rewrite Hty.
  apply fcrun_bind. eapply fcrun_mono; [apply (fcrun_write_loop _ 0 ft0 ic0 a0 Hp); [lia|right; exists 0; lia|]|].
  - rewrite Z.sub_0_r. change max_write with 1536. unfold chunks.
    assert ((Z.of_nat (length src) + 1535) / 1536 <= Z.of_nat (length src) / 1536 + 1); [|lia].
    replace (Z.of_nat (length src) / 1536 + 1) with ((Z.of_nat (length src) + 1 * 1536) / 1536) by (by rewrite Z.div_add).
    apply Z.div_le_mono; lia.
  - intros r ft' ic' a' [-> Hp']. rewrite Z.eqb_refl. apply fcrun_rel. intros b' Hb'.
    apply fcrun_ret; [|done]. eapply progress_crash; [exact Hp'|lia|by left|]. by eapply recovers_quiet; [|apply Hp'].
Qed.
End Write.

(** C2: A write() of [src] to a regular file stores it at the file's offset and
    moves the offset behind it; no other inode and no block of another file
    changes.  Wherever the machine stops meanwhile, recovery finds the file with a
    whole number of chunks of the write, and nothing else of it. *)
Theorem filewrite_spec R ft ic a f ip n off src :
  open_at R ft ic a f ip n off -> quiet a -> log_fits a -> pid <> 0 ->
  off + Z.of_nat (length src) <= 140 * 512 ->
  (4 * chunks (Z.of_nat (length src)) + cost_of a n <= nfree SB (tview a))%nat ->
  fcrun (filewrite pid devsw f src (Z.of_nat (length src))) ft ic a (crash_ok a n off src)
    (fun r ft' ic' a' =>
      r = Z.of_nat (length src) /\ open_at R ft' ic' a' f ip n (off + Z.of_nat (length src)) /\ quiet a' /\
      file_bytes (tview a') n = splice (file_bytes (tview a) n) off src /\ keeps n a a').
Proof.
  intros Ho Hq Hl Hpid Hmax Hfree. eapply fcrun_mono; [apply (fcrun_filewrite R ft ic a f ip n off src); try done; apply Ho|].
  intros r ft' ic' a' [-> [Ho' Hb Hk Hq' _]]. split_and!; try done. rewrite firstn_all in Hb. exact Hb.
Qed.

(** One chunk of filewrite() writes no more blocks than begin_op() reserves for
    an operation, when the free map is one block. *)
Theorem chunk_reservation ic a ip i buf off n :
  quiet a -> log_fits a -> fsok SB a -> ic !! ip = Some i -> file_ok SB (tview a) i -> inode_ok SB i ->
  0 <= n <= max_write -> n <= Z.of_nat (length buf) -> 0 <= off <= isize i -> off + n <= 140 * 512 ->
  room_for SB a (addrs i) off n ->
  fwp SB (writei devsw ip buf off n) ic (a <| tops := 1 |>) (fun r ic' a' =>
    r = n /\ Z.of_nat (size (tlog a')) <= MAXOPBLOCKS).
Proof.
  intros Hq Hl Hf Hi Hfk Hk Hn Hbuf Ho Hmax Hroom. change max_write with 1536 in Hn.
  pose proof (pool_budget a i off n Hl Hq Hn) as Hbud.
  eapply (fwp_writei_n (K := opcap) SB devsw (pool a i) 0); try done; [lia| |apply Hq|unfold pool; set_solver| |].
  - destruct Hf as [[? ? ? ?] ? ? ?]. split; [split|..]; done.
  - intros Hne. unfold pool. destruct (Z.eqb_spec (ind_of (addrs i)) 0); [done|set_solver].
  - intros i' a' _ Hb. split; [done|]. pose proof (bg_cap _ _ _ Hb) as Hc. unfold cap, opcap in Hc.
    assert (size (tlog a') <= size (tlog a' ∪ pool a i))%nat by (apply subseteq_size; set_solver).
    unfold MAXOPBLOCKS in *. lia.
Qed.

(** The offset moved. *)
Lemma open_moved R ft ic a f ip n off x i off' :
  open_at R ft ic a f ip n off -> ic !! ip = Some i -> 0 < ref i -> ft !! f = Some x ->
  0 <= off' <= d_size (dinode_at SB (tview a) n) ->
  open_at R (<[f := x <| foff := off' |>]> ft) (<[ip := iunlocked (ilocked SB pid (tview a) i)]> ic) a f ip n off'.
Proof.
  intros Ho Hi Hr Hx Hoff. assert (Hlt := lookup_lt_Some _ _ _ Hi). assert (Hltf := lookup_lt_Some _ _ _ Hx).
  destruct (oa_file _ _ _ _ _ _ _ _ Ho) as (x' & Hx' & Ht & Hfi & _ & Hwr). assert (x' = x) as -> by congruence.
  destruct (oa_inode _ _ _ _ _ _ _ _ Ho) as (i' & Hi' & En & _). assert (i' = i) as -> by congruence.
  destruct (ilocked_same SB pid (tview a) i) as (Er & Eni & _). set (l := ilocked SB pid (tview a) i) in *. split; try apply Ho; try done.
  - exists (x <| foff := off' |>). by rewrite list_lookup_insert_eq.
  - rewrite <- (list_insert_insert_eq ic ip _ l). replace (∅ : gset nat) with (((∅ : gset nat) ∪ {[ip]}) ∖ {[ip]}) by set_solver.
    apply ic_ok_unlock; [apply ic_ok_lock; [apply Ho|done|done]|by rewrite list_lookup_insert_eq|lia].
  - exists (iunlocked l). rewrite list_lookup_insert_eq by done. split_and!; [done|by rewrite <- En, <- Eni|change (ref (iunlocked l)) with (ref l); lia].
Qed.

End FileSpec.
