(* ===== verification/FsWitness.v ===== *)
(** * A small file system (examples for the theorems on src/fs.c and src/file.c)

    A disk of 80 blocks as mkfs lays it out: the log from block 2 on, two inodes in
    block 32, the free map in block 35, the root directory in block 36 and the
    file [a] with the contents [hello] in block 37. *)

From stdpp Require Import prelude gmap strings list.
From Stdlib Require Import ZArith Lia.
From S2P Require Import Strings Prelude Kalloc Pipe Sleeplock Bio BioSpec Layout Log LogSpec LogAtomic LogWitness Store StoreLog Fs FsLogic FsAlloc FsFile FsInode FsIO FsWrite FsDir FsCache FsPath FsSpec File FileTable FileSpec.

Definition demo_sb : superblock := mksb 80 44 16 30 2 32 35.

Definition pad (l : list Z) : list Z := l ++ replicate (512 - length l) 0.
Definition one_block (b : Z) : list Z := b :: replicate 12 0.
Definition hello : list Z := [104; 101; 108; 108; 111].
Definition root_ents : list dent := [(1, [46]); (1, [46; 46]); (2, [97])].
Definition root_dinode : dinode := mkdinode T_DIR 0 0 1 48 (one_block 36).
Definition file_dinode : dinode := mkdinode T_FILE 0 0 1 5 (one_block 37).

Definition fs_disk : memdisk :=
  <[32%nat := put_dinode (put_dinode (replicate 512 0) 64 root_dinode) 128 file_dinode]>
  (<[35%nat := pad (replicate 4 255 ++ [63])]>
  (<[36%nat := pad (dir_bytes root_ents)]>
  (<[37%nat := pad hello]> demo_blocks))).

Definition fs_a : atx := mkatx (dblock fs_disk) (dblock fs_disk) ∅ ∅ 0 80 2 30.

#[local] Instance fs_cache : BlockCache (bcache memdisk) := bio_cache demo_pid ltac:(done).

(** Between the transactions, and in one. *)
Definition fs_tx : atx := fs_a <| tops := 1 |>.

Definition fs_store (o : Z) : lstate (bcache memdisk) :=
  mklstate (demo_log o) (mkbcache (replicate NBUF zero_buf) (reverse (seq 0 NBUF)) fs_disk).

(** A check of every number of a range. *)
Lemma all_below (n : Z) (f : Z -> bool) : forallb f (seqZ 0 n) = true -> forall x, 0 <= x < n -> f x = true.
Proof. intros Hall x Hx. rewrite forallb_forall in Hall. apply Hall, list_elem_of_In, elem_of_seqZ. lia. Qed.

Lemma disk_lengths x : 0 <= x < 80 -> length (dblock fs_disk x) = 512%nat.
Proof.
  intros Hx. apply Nat.eqb_eq. revert x Hx. apply (all_below 80 (fun b => Nat.eqb (length (dblock fs_disk b)) 512)).
  vm_compute. reflexivity.
Qed.

Lemma fs_rel o : t_rel (fs_store o) (fs_a <| tops := o |>).
Proof.
  exists (acache0 (dblock fs_disk) 80). split.
  - assert (E : dsize fs_disk = 80) by (vm_compute; reflexivity). rewrite <- E. apply (binit_rel demo_pid fs_disk).
    unfold dok. simpl. unfold fs_disk. repeat (apply Forall_insert; [|vm_compute; reflexivity]).
    apply Forall_replicate. vm_compute. reflexivity.
  - split; try done; try (by vm_compute).
    + constructor.
    + intros b Hb. inversion Hb.
    + intros x. split; [intros [? Hx]; cbn [pins acache0] in Hx; by rewrite lookup_empty in Hx|]. intros [Hx _]. inversion Hx.
    + intros x [Hx _]. by apply disk_lengths.
Qed.

(** ** Its files *)

Lemma bptr_one v b bn : 0 <= bn < 140 -> bptr v (one_block b) bn = if bn =? 0 then b else 0.
Proof.
  intros Hbn. unfold bptr. destruct (Z.ltb_spec bn 12); [|by destruct (Z.eqb_spec bn 0); [lia|]].
  destruct (Z.eqb_spec bn 0) as [->|]; [done|]. unfold one_block.
  replace (Z.to_nat bn) with (S (Z.to_nat (bn - 1))) by lia. change ((b :: replicate 12 0) !! S (Z.to_nat (bn - 1))) with (replicate 12 0 !! Z.to_nat (bn - 1)).
  by rewrite lookup_replicate_2 by lia.
Qed.

Lemma owns_one v b x : owns v (one_block b) x -> x = b /\ x <> 0.
Proof.
  intros [Hx [E|(bn & Hbn & E)]]; [by rewrite E in Hx|]. rewrite bptr_one in E by done. destruct (bn =? 0); [done|congruence].
Qed.

Lemma wf_one b : 36 <= b < 38 -> wf_file demo_sb (tview fs_a) (one_block b).
Proof.
  intros Hb. assert (Hm : marked demo_sb (tview fs_a) b = true).
  { assert (b = 36 \/ b = 37) as [->| ->] by lia; vm_compute; reflexivity. }
  split; [done|..].
  - intros x [-> _]%owns_one. split; [change (dstart demo_sb) with 36; cbn [sb_size demo_sb]; lia|done].
  - intros bn bn' Hbn Hbn'. rewrite !bptr_one by done. destruct (Z.eqb_spec bn 0), (Z.eqb_spec bn' 0); congruence.
  - intros bn Hbn. rewrite bptr_one by done. by destruct (bn =? 0).
Qed.

Lemma blocks_one v b n : b <> 0 -> 0 < n <= 512 -> has_blocks v (one_block b) 0 n.
Proof. intros Hb Hn _ bn H1 H2. change (0 / 512) with 0 in H1. rewrite bptr_one by lia. by destruct (Z.eqb_spec bn 0); [|lia]. Qed.

Lemma fs_layout : layout demo_sb fs_a.
Proof. split; vm_compute; repeat split; congruence. Qed.

Lemma fs_ok : fsok demo_sb fs_a.
Proof.
  split; [exact fs_layout| | |].
  - change (dstart demo_sb) with 36. apply (all_below 36). vm_compute. reflexivity.
  - intros x _. by apply none_held.
  - intros i x d Hx. change (theld fs_a) with (∅ : gmap nat (Z * list Z)) in Hx. by rewrite lookup_empty in Hx.
Qed.

Lemma root_on_disk : dinode_at demo_sb (tview fs_a) 1 = root_dinode.
Proof. vm_compute. reflexivity. Qed.

Lemma file_on_disk : dinode_at demo_sb (tview fs_a) 2 = file_dinode.
Proof. vm_compute. reflexivity. Qed.

Lemma one_file_ok i b n :
  idev i = ROOTDEV -> itype i <> T_DEV -> isize i = n -> addrs i = one_block b -> 36 <= b < 38 -> 0 < n <= 512 ->
  file_ok demo_sb (tview fs_a) i.
Proof. intros Hd Ht Hs Ha Hb Hn. split; rewrite ?Hs, ?Ha; try done; [lia|by apply wf_one|apply blocks_one; lia]. Qed.

Lemma root_ok i : idev i = ROOTDEV -> to_dinode i = root_dinode -> dir_ok demo_sb fs_a i root_ents.
Proof.
  intros Hd E. unfold to_dinode, root_dinode in E. injection E as Ety _ _ _ Es Ea. split.
  - apply (one_file_ok i 36 48); try done; rewrite ?Ety; done.
  - done.
  - unfold content. rewrite Es, Ea. vm_compute. reflexivity.
  - repeat constructor; vm_compute; congruence.
Qed.

Definition demo_tree (n : Z) : option node :=
  if n =? 1 then Some (NDir root_ents) else if n =? 2 then Some NFile else None.

Lemma demo_tree_ok : tree_ok demo_sb fs_a demo_tree.
Proof.
  intros n x Hx. unfold demo_tree in Hx. destruct (Z.eqb_spec n 1) as [->|]; [|destruct (Z.eqb_spec n 2) as [->|]; [|done]];
    injection Hx as <-; split; rewrite ?root_on_disk, ?file_on_disk; try (vm_compute; congruence).
  - vm_compute. split; congruence.
  - split; [intros i; apply root_ok|]. intros m str Hin Hm. repeat (apply elem_of_cons in Hin as [[= -> ->]|Hin]; [done|]). inversion Hin.
  - vm_compute. split; congruence.
Qed.

(** ** The witnesses *)

#[local] Instance fs_cap : Cap := 26%nat.

Definition demo_dev : list (devops (lstate (bcache memdisk))) := [].

Lemma fs_ok_tx : fsok demo_sb fs_tx.
Proof. destruct fs_ok as [[? ? ? ?] ? ? ?]. split; [split|..]; done. Qed.

Definition demo_pool : gset Z := bmap_set demo_sb ∪ {[32]}.

Lemma demo_budget : budget demo_pool fs_tx 8.
Proof. split; vm_compute; try congruence; lia. Qed.

Lemma balloc_bfree_witness :
  exists ev b' ic', balloc ROOTDEV (Ctx [] []) (mkfs [] demo_sb (fs_store 1)) = Ok 38 (Ctx [] ev) (mkfs ic' demo_sb b') /\ disk_writes ev = [].
Proof.
  assert (Hb : first_unmarked demo_sb fs_tx 38).
  { split; [vm_compute; split; congruence|vm_compute; reflexivity|]. apply (all_below 38). vm_compute. reflexivity. }
  destruct (balloc_bfree demo_sb demo_pool 38 [] fs_tx fs_ok_tx eq_refl Hb (budget_le demo_pool fs_tx 8 1 demo_budget ltac:(lia)) ltac:(set_solver)
    (fs_store 1) [] (fs_rel 1)) as (r & ev & b' & ic' & a' & Hrun & Hw & _ & -> & _).
  exists ev, b', ic'. split; [exact Hrun|exact Hw].
Defined.

(** The inode cache with the two inodes, not yet read. *)
Definition entry (n r : Z) : inode := mkinode ROOTDEV n r (mksleeplock 0 0) 0 0 0 0 0 0 (replicate 13 0).
Definition demo_ic : list inode := entry 1 1 :: entry 2 1 :: replicate 48 (entry 0 0).

Lemma demo_ic_lookup k i : demo_ic !! k = Some i -> (k = 0%nat /\ i = entry 1 1) \/ (k = 1%nat /\ i = entry 2 1) \/ i = entry 0 0.
Proof.
  destruct k as [|[|k]]; intros Hi; [left|right; left|right; right]; try (by injection Hi as <-).
  by apply (lookup_replicate_1 48) in Hi as [-> _].
Qed.

Lemma demo_ic_ok v : ic_ok demo_sb demo_pid 1 ∅ v demo_ic.
Proof.
  split.
  - intros k i [[-> ->]|[[-> ->]| ->]]%demo_ic_lookup; cbn; lia.
  - intros k i [[-> ->]|[[-> ->]| ->]]%demo_ic_lookup; by rewrite decide_False by set_solver.
  - intros k k' i i' [[-> ->]|[[-> ->]| ->]]%demo_ic_lookup [[-> ->]|[[-> ->]| ->]]%demo_ic_lookup; cbn; lia.
  - intros k i [[-> ->]|[[-> ->]| ->]]%demo_ic_lookup; cbn; try lia; intros _; split; cbn; try done; lia.
  - intros k Hk. set_solver.
Qed.

Ltac all_small := cbn; repeat (apply List.Forall_cons; [vm_compute; split; congruence|]); apply List.Forall_nil.

(** The inode of the file in the cache, read. *)
Definition file_inode : inode := mkinode ROOTDEV 2 1 (mksleeplock 1 demo_pid) 1 T_FILE 0 0 1 5 (one_block 37).
Definition root_inode : inode := mkinode ROOTDEV 1 1 (mksleeplock 1 demo_pid) 1 T_DIR 0 0 1 48 (one_block 36).

Lemma file_inode_ok : inode_ok demo_sb file_inode /\ inode_ok demo_sb root_inode.
Proof. split; (split; [cbn; lia|split; [all_small|cbn; lia|done|all_small]]). Qed.

Lemma file_inode_file : file_ok demo_sb (tview fs_tx) file_inode.
Proof. by apply (one_file_ok file_inode 37 5). Qed.

Lemma iupdate_roundtrip_witness :
  let i := file_inode <| nlink := 2 |> in
  exists ev b' ic', iupdate 0 (Ctx [] []) (mkfs [i] demo_sb (fs_store 1)) = Ok tt (Ctx [] ev) (mkfs ic' demo_sb b') /\ ic' = [i].
Proof.
  intros i. assert (Hi : inode_ok demo_sb i).
  { split; [cbn; lia|split; [all_small|cbn; lia|done|all_small]]. }
  destruct (iupdate_roundtrip demo_sb demo_pid demo_pool 7 0 i [i] fs_tx fs_ok_tx eq_refl eq_refl Hi eq_refl demo_budget
    (fs_store 1) [] (fs_rel 1)) as ([] & ev & b' & ic' & a' & Hrun & _ & _ & Hic & _).
  exists ev, b', ic'. split; [exact Hrun|exact Hic].
Defined.

Lemma iget_spec_witness :
  exists ip ev b' ic', iget ROOTDEV 2 (Ctx [] []) (mkfs demo_ic demo_sb (fs_store 1)) = Ok ip (Ctx [] ev) (mkfs ic' demo_sb b') /\ refs ic' 2 = 2.
Proof.
  destruct (iget_spec demo_sb demo_pid 1 ∅ 2 demo_ic fs_tx (demo_ic_ok _) ltac:(lia) ltac:(lia) ltac:(cbn; lia) ltac:(left; vm_compute; reflexivity)
    (fs_store 1) [] (fs_rel 1)) as (ip & ev & b' & ic' & a' & Hrun & _ & _ & _ & Hgot & _).
  exists ip, ev, b', ic'. split; [exact Hrun|]. rewrite (got_refs _ _ _ _ Hgot). vm_compute. reflexivity.
Defined.

Lemma read_after_write_witness :
  exists ev b' ic', (r ← writei demo_dev 0 [1; 2; 3] 5 3; s ← readi demo_dev 0 5 3; mret (r, s)) (Ctx [] [])
    (mkfs [file_inode] demo_sb (fs_store 1)) = Ok (3, (3, [1; 2; 3])) (Ctx [] ev) (mkfs ic' demo_sb b').
Proof.
  destruct (read_after_write demo_sb demo_dev demo_pool 4 0 file_inode [file_inode] fs_tx [1; 2; 3] 5 fs_ok_tx eq_refl
    file_inode_file (proj1 file_inode_ok) eq_refl ltac:(vm_compute; set_solver) ltac:(done) ltac:(cbn; lia) ltac:(cbn; lia)
    ltac:(left; apply (has_blocks_sub _ _ 512); [lia|cbn; lia|apply blocks_one; lia]) (budget_le demo_pool fs_tx 8 6 demo_budget ltac:(vm_compute; lia))
    (fs_store 1) [] (fs_rel 1)) as (r & ev & b' & ic' & a' & Hrun & _ & _ & -> & _).
  exists ev, b', ic'. exact Hrun.
Defined.

Lemma dirlink_lookup_witness :
  exists ev b' ic', dirlink demo_pid demo_dev 0 [98; 0] 2 (Ctx [] []) (mkfs [root_inode] demo_sb (fs_store 1)) =
    Ok 0 (Ctx [] ev) (mkfs ic' demo_sb b').
Proof.
  assert (Hname : valid_name [98]) by (split; [all_small|cbn; lia]).
  assert (Hdir : dir_ok demo_sb fs_tx root_inode root_ents).
  { destruct (root_ok root_inode eq_refl eq_refl) as [[? ? ? ? ?] ? ? ?]. by split. }
  destruct (dirlink_lookup demo_sb demo_pid demo_dev demo_pool 4 0 root_inode [root_inode] fs_tx root_ents [98; 0] [98] 2
    fs_ok_tx eq_refl Hdir (proj2 file_inode_ok) eq_refl (conj eq_refl eq_refl) Hname ltac:(lia) ltac:(vm_compute; reflexivity)
    ltac:(vm_compute; set_solver) ltac:(done) ltac:(vm_compute; congruence)
    ltac:(left; apply (has_blocks_sub _ _ 512); [vm_compute; congruence|vm_compute; congruence|apply blocks_one; lia])
    (budget_le demo_pool fs_tx 8 6 demo_budget ltac:(vm_compute; lia))
    (fs_store 1) [] (fs_rel 1)) as (r & ev & b' & ic' & a' & Hrun & _ & _ & -> & _).
  exists ev, b', ic'. exact Hrun.
Defined.

(** The path [/a]. *)
Lemma namex_spec_witness :
  exists ip i name ev b' ic', namex demo_pid demo_dev 0 [47; 97; 0] false (replicate 14 0) (Ctx [] [])
      (mkfs demo_ic demo_sb (fs_store 0)) = Ok (Some ip, name) (Ctx [] ev) (mkfs ic' demo_sb b') /\
    ic' !! ip = Some i /\ inum i = 2.
Proof.
  destruct (namex_spec demo_sb demo_pid demo_dev 1 demo_ic fs_a demo_tree false 0 (entry 1 1) [47; 97; 0] [47; 97] (replicate 14 0)
    fs_ok demo_tree_ok eq_refl ltac:(vm_compute; lia) (demo_ic_ok _) ltac:(lia) ltac:(lia) ltac:(done) ltac:(vm_compute; congruence)
    eq_refl ltac:(done) ltac:(by eexists) ltac:(by eexists) ltac:(split; [repeat constructor; congruence|by exists []])
    ltac:(all_small) ltac:(cbn; lia) (fs_store 0) [] (fs_rel 0))
    as ([r name] & ev & b' & ic' & a' & Hrun & _ & _ & _ & (_ & _ & Hres) & _).
  assert (Hw : walk demo_tree (start_of [47; 97; 0] (inum (entry 1 1))) (elems [47; 97]) false = Some 2) by (vm_compute; reflexivity).
  rewrite Hw in Hres. destruct r as [ip|]; [|destruct Hres]. destruct Hres as (i & Hi & En & _).
  exists ip, i, name, ev, b', ic'. split; [exact Hrun|]. split; [exact Hi|exact En].
Defined.

Definition demo_ft : list file := [mkfile FD_INODE 1 1 1 0 1 0].

Lemma demo_open : open_at demo_sb demo_pid 1 demo_ft demo_ic fs_a 0 1 2 0.
Proof.
  split.
  - by exists (mkfile FD_INODE 1 1 1 0 1 0).
  - exact fs_ok.
  - apply demo_ic_ok.
  - by exists (entry 2 1).
  - intros i Hd Hn E. rewrite file_on_disk in E. split.
    + apply (file_ok_ext demo_sb _ file_inode); [exact file_inode_file|done|done].
    + apply (inode_ok_ext _ file_inode); [apply file_inode_ok|done|done].
  - by rewrite file_on_disk.
  - rewrite file_on_disk. cbn. lia.
Qed.

Lemma demo_quiet : quiet fs_a.
Proof. by split. Qed.

Lemma demo_fits : log_fits demo_sb fs_a.
Proof. split; vm_compute; [lia|reflexivity]. Qed.

Lemma filewrite_spec_witness :
  exists ev s', filewrite demo_pid demo_dev 0 [7; 8; 9] 3 (Ctx [] [])
      (mkfstate demo_ft (mkfs demo_ic demo_sb (fs_store 0)) ∅ (mkkmem ∅ false 0) 0) = Ok 3 (Ctx [] ev) s' /\
    forall P, P `prefix_of` disk_writes ev -> crash_ok demo_sb fs_a 2 0 [7; 8; 9] (apply_writes (dblock fs_disk) P).
Proof.
  destruct (filewrite_spec demo_sb demo_pid demo_dev ∅ (mkkmem ∅ false 0) 0 1 demo_ft demo_ic fs_a 0 1 2 0 [7; 8; 9]
    demo_open demo_quiet demo_fits ltac:(done) ltac:(cbn; lia) ltac:(vm_compute; lia) (fs_store 0) [] (fs_rel 0))
    as (r & ev & b' & ft' & ic' & a' & Hrun & _ & _ & Hcrash & -> & _).
  exists ev. eexists. split; [exact Hrun|exact Hcrash].
Defined.

Lemma chunk_reservation_witness :
  exists ev b' ic', writei demo_dev 0 [1; 2; 3] 0 3 (Ctx [] []) (mkfs [file_inode] demo_sb (fs_store 1)) =
    Ok 3 (Ctx [] ev) (mkfs ic' demo_sb b').
Proof.
  destruct (chunk_reservation demo_sb demo_dev [file_inode] fs_a 0 file_inode [1; 2; 3] 0 3 demo_quiet demo_fits fs_ok eq_refl
    file_inode_file (proj1 file_inode_ok) ltac:(vm_compute; split; congruence) ltac:(cbn; lia) ltac:(cbn; lia) ltac:(lia)
    ltac:(left; apply blocks_one; lia) (fs_store 1) [] (fs_rel 1)) as (r & ev & b' & ic' & a' & Hrun & _ & _ & -> & _).
  exists ev, b', ic'. exact Hrun.
Defined.


(** ** The table of open files *)

Definition closed_file : file := mkfile FD_NONE 0 0 0 0 0 0.
Definition boot_files : fstate (lstate (bcache memdisk)) :=
  mkfstate (replicate NFILE closed_file) (mkfs demo_ic demo_sb (fs_store 0)) ∅ (mkkmem ∅ false 0) 0.

(** One filealloc(); the holder can duplicate the file. *)
Lemma file_refs_witness :
  exists s s', filealloc (Ctx [] []) boot_files = Ok (Some 0%nat) (Ctx [] []) s /\ filedup 0 (Ctx [] []) s = Ok 0%nat (Ctx [] []) s'.
Proof.
  eexists. assert (Ha : filealloc (Ctx [] []) boot_files = Ok (Some 0%nat) (Ctx [] []) (settab 0 (closed_file <| fref := 1 |>) boot_files)).
  { rewrite filealloc_run. reflexivity. }
  assert (Hz : Forall (fun x => fref x = 0) (ftable boot_files)) by (apply Forall_replicate; reflexivity).
  destruct (file_refs demo_pid 0 boot_files _ _ Hz (rtc_once _ _ (fs_alloc demo_pid 0 [] _ _ _ _ (fun _ => 0) Ha))) as (_ & _ & Hdup & _).
  destruct (Hdup [] 0%nat ltac:(cbn; lia)) as (s' & Hrun & _). exists s'. split; [exact Ha|exact Hrun].
Defined.
