(* ===== verification/Syscall.v ===== *)
(** * System call arguments and dispatch (src/syscall.c, src/syscall.h)

    The kernel reads system call arguments through the user's page table, which
    is loaded: [u_load] and [u_store] access a byte at a virtual address of the
    running process. *)

From stdpp Require Import prelude gmap strings list.
From Stdlib Require Import ZArith Lia.
From S2P Require Import Spinlock Strings Prelude Mmu Proc Layout.

Class UserOps (E : Type) := {
  u_load : Z -> M E Z;
  u_store : Z -> Z -> M E unit;
}.

(** The system calls, by number. *)
Inductive sysname :=
| Sfork | Sexit | Swait | Spipe | Sread | Skill | Sexec | Sfstat | Schdir | Sdup | Sgetpid
| Ssbrk | Ssleep | Suptime | Sopen | Swrite | Smknod | Sunlink | Slink | Smkdir | Sclose
| Scps | Schpr | Swaitx | SsetPriority.

Definition syscalls : list (option sysname) :=
  [None; Some Sfork; Some Sexit; Some Swait; Some Spipe; Some Sread; Some Skill; Some Sexec;
   Some Sfstat; Some Schdir; Some Sdup; Some Sgetpid; Some Ssbrk; Some Ssleep; Some Suptime;
   Some Sopen; Some Swrite; Some Smknod; Some Sunlink; Some Slink; Some Smkdir; Some Sclose;
   Some Scps; Some Schpr; Some Swaitx; Some SsetPriority].

Section Syscall.
Context {E : Type} `{KernelOps E} `{UserOps E} (me : nat).
Abbreviation K := (M (pstate E)).

(** [n] bytes of user memory from [addr] on. *)
Fixpoint uload (addr : Z) (n : nat) : K (list Z) :=
  match n with
  | O => mret []
  | S n' => b ← lift (u_load addr); bs ← uload (u32 (addr + 1)) n'; mret (b :: bs)
  end.

Fixpoint ustore (addr : Z) (bs : list Z) : K unit :=
  match bs with
  | [] => mret tt
  | b :: bs' => lift (u_store addr b) ;; ustore (u32 (addr + 1)) bs'
  end.

Definition fetchint (addr : Z) : K (option Z) :=
  p ← getp me;
  if (sz p <=? addr) || (sz p <? u32 (addr + 4)) then mret None else
  bs ← uload addr 4;
  mret (Some (s32 (of_bytes bs))).

(** [for(s = *pp; s < ep; s++) if( *s == 0) return s - *pp;], with the bytes
    looked at. *)
Fixpoint fetchstr_loop (s ep : Z) (n : nat) : K (option (list Z)) :=
  if s <? ep then
    match n with
    | O => nofuel
    | S n' =>
        b ← lift (u_load s);
        if b =? 0 then mret (Some [0]) else
        r ← fetchstr_loop (u32 (s + 1)) ep n';
        mret (cons b <$> r)
    end
  else mret None.

(** The string, with its final nul. *)
Definition fetchstr (addr : Z) : K (option (list Z)) :=
  p ← getp me;
  if sz p <=? addr then mret None else
  fetchstr_loop addr (sz p) (Z.to_nat (sz p - addr)).

Definition argint (n : Z) : K (option Z) :=
  p ← getp me;
  f ← of_option (tf p);
  fetchint (u32 (tf_esp f + 4 + 4 * n)).

Definition argptr (n size : Z) : K (option Z) :=
  i ← argint n;
  match i with
  | None => mret None
  | Some i =>
      p ← getp me;
      if (size <? 0) || (sz p <=? u32 i) || (sz p <? u32 (u32 i + size)) then mret None
      else mret (Some (u32 i))
  end.

Definition argstr (n : Z) : K (option (list Z)) :=
  addr ← argint n;
  match addr with
  | None => mret None
  | Some addr => fetchstr (u32 addr)
  end.

(** [sys] runs a system call of the table. *)
Definition syscall (sys : sysname -> K Z) : K unit :=
  p ← getp me;
  f ← of_option (tf p);
  let num := s32 (tf_eax f) in
  let ret v := setp me (fun p => p <| tf ::= fmap (fun f => f <| tf_eax := u32 v |>) |>) in
  match (if (0 <? num) && (num <? Z.of_nat (length syscalls)) then aget syscalls num else None) with
  | Some (Some sc) => v ← sys sc; ret v
  | _ =>
      cprintf "%d %s: unknown sys call %d\n" (pid p :: name p ++ [num]) ;;
      ret (-1)
  end.
End Syscall.
