(* ===== verification/Sysproc.v ===== *)
(** * System calls about processes (src/sysproc.c) *)

From stdpp Require Import prelude gmap strings list.
From Stdlib Require Import ZArith Lia.
From S2P Require Import Spinlock Strings Prelude Mmu Proc Layout Syscall.

Section Sysproc.
Context {E : Type} `{KernelOps E} `{UserOps E} (pol : policy) (me : nat).
Abbreviation K := (M (pstate E)).
Implicit Types resumes : list (pstate E -> pstate E).

Definition sys_fork : K Z := fork me.

Definition sys_exit (resume : option (pstate E -> pstate E)) : K Z := exit me resume ;; mret 0.

Definition sys_wait resumes : K Z := wait pol me resumes.

Definition sys_kill : K Z :=
  a ← argint me 0;
  match a with None => mret (-1) | Some pid0 => kill pid0 end.

Definition sys_getpid : K Z := p ← getp me; mret (pid p).

Definition sys_sbrk : K Z :=
  a ← argint me 0;
  match a with
  | None => mret (-1)
  | Some n =>
      p ← getp me;
      let addr := s32 (sz p) in
      r ← growproc me n;
      if r <? 0 then mret (-1) else mret addr
  end.

(** [while(ticks - ticks0 < n)]: each sleep takes the next of the [resume]s. *)
Fixpoint sleep_loop (ticks0 n : Z) resumes : K Z :=
  s ← getS;
  if u32 (ticks s - ticks0) <? u32 n then
    p ← getp me;
    if negb (killed p =? 0) then release Ltickslock ;; mret (-1) else
    match resumes with
    | [] => sleep (Some me) Cticks (Some Ltickslock) None ;; undef
    | f :: resumes' =>
        sleep (Some me) Cticks (Some Ltickslock) (Some f) ;; sleep_loop ticks0 n resumes'
    end
  else release Ltickslock ;; mret 0.

Definition sys_sleep resumes : K Z :=
  a ← argint me 0;
  match a with
  | None => mret (-1)
  | Some n =>
      acquire Ltickslock ;;
      ticks0 ← gets ticks;
      sleep_loop ticks0 n resumes
  end.

Definition sys_uptime : K Z :=
  acquire Ltickslock ;;
  xticks ← gets ticks;
  release Ltickslock ;;
  mret (s32 xticks).

Definition sys_cps : K Z := cps pol.

Definition sys_chpr : K Z :=
  a ← argint me 0;
  match a with
  | None => mret (-1)
  | Some pid0 =>
      b ← argint me 1;
      match b with None => mret (-1) | Some pr => chpr pid0 pr end
  end.

Definition sys_waitx resumes : K Z :=
  a ← argptr me 0 4;
  match a with
  | None => mret (-1)
  | Some wtime =>
      b ← argptr me 1 4;
      match b with
      | None => mret (-1)
      | Some rtime =>
          r ← waitx me resumes;
          (match r.2 with
           | Some (w, x) =>
               ustore wtime (to_bytes 4 (u32 w)) ;; ustore rtime (to_bytes 4 (u32 x))
           | None => mret tt
           end) ;;
          mret r.1
      end
  end.

Definition sys_setPriority : K Z :=
  a ← argint me 0;
  match a with
  | None => mret (-1)
  | Some pid0 =>
      b ← argint me 1;
      match b with None => mret (-1) | Some prio => setPriority prio pid0 end
  end.
End Sysproc.
