(* ===== verification/SyscallSpec.v ===== *)
(** * What the kernel takes from the user (src/syscall.c, src/sysproc.c)

    The arguments of system calls are checked against the size of the process: the
    theorems say exactly which words, ranges and strings argint, argptr and argstr
    accept, for every memory that is mapped up to that size ([UserOpsOk]). *)

From stdpp Require Import prelude gmap strings list.
From Stdlib Require Import ZArith Lia.
From S2P Require Import Spinlock Strings Prelude Mmu Proc ProcInv ProcSpec Layout Syscall Sysproc.

(** A load from a mapped address gives the byte there and changes nothing. *)
Class UserOpsOk (E : Type) `{UserOps E} := {
  u_mem : E -> Z -> option Z;
  u_load_ok : forall a b c e, u_mem e a = Some b -> u_load a c e = Ok b c e;
}.

(** The bytes up to the first nul, with it. *)
Fixpoint cut0 (l : list Z) : option (list Z) :=
  match l with
  | [] => None
  | b :: l' => if b =? 0 then Some [0] else cons b <$> cut0 l'
  end.

Lemma cut0_spec l :
  match cut0 l with
  | Some bs => exists str, bs = str ++ [0] /\ Forall (fun b => b <> 0) str /\ bs `prefix_of` l
  | None => Forall (fun b => b <> 0) l
  end.
Proof.
  induction l as [|b l IH]; cbn [cut0]; [by constructor|]. destruct (Z.eqb_spec b 0) as [->|Hb].
  - exists []. split_and!; [done|by constructor|]. by exists l.
  - destruct (cut0 l) as [bs|]; cbn [fmap option_fmap option_map]; [|by constructor].
    destruct IH as (str & -> & Hs & Hp). exists (b :: str). split_and!; [done|by constructor|]. by apply prefix_cons.
Qed.

Section SyscallSpec.
Context {E : Type} `{KernelOps E} `{UserOpsOk E} (me : nat).
Implicit Types s : pstate E.

Definition ubyte (e : E) (a : Z) : Z := default 0 (u_mem e a).
Definition ubytes (e : E) (a : Z) (n : nat) : list Z := ubyte e <$> seqZ a (Z.of_nat n).

(** The memory of the process is mapped up to its size, which ends below the kernel. *)
Record user_ok s (p : proc) (f : trapframe) : Prop := {
  uo_proc : procs s !! me = Some p;
  uo_tf : tf p = Some f;
  uo_size : 0 <= sz p <= KERNBASE;
  uo_map : forall a, 0 <= a < sz p -> is_Some (u_mem (env s) a);
}.

Lemma ubytes_S e a n : ubytes e a (S n) = ubyte e a :: ubytes e (a + 1) n.
Proof. unfold ubytes. rewrite Nat2Z.inj_succ, seqZ_cons by lia. cbn. by rewrite Z.pred_succ. Qed.

Lemma length_ubytes e a n : length (ubytes e a n) = n.
Proof. unfold ubytes. rewrite length_fmap, length_seqZ. lia. Qed.

Lemma take_ubytes e a n k : (k <= n)%nat -> take k (ubytes e a n) = ubytes e a k.
Proof.
  intros Hk. unfold ubytes. replace (Z.of_nat n) with (Z.of_nat k + Z.of_nat (n - k)) by lia.
  rewrite seqZ_app, fmap_app by lia. apply take_app_length'. rewrite length_fmap, length_seqZ. lia.
Qed.

Lemma load_run s p f a c : user_ok s p f -> 0 <= a < sz p -> lift (u_load a) c s = Ok (ubyte (env s) a) c s.
Proof.
  intros [Hp _ _ Hm] Ha. destruct (Hm a Ha) as [b Hb]. rewrite (lift_ok _ _ _ b c (env s)) by (by apply u_load_ok).
  unfold ubyte. rewrite Hb. by destruct s.
Qed.

Lemma uload_run s p f n a c :
  user_ok s p f -> 0 <= a -> a + Z.of_nat n <= sz p -> uload a n c s = Ok (ubytes (env s) a n) c s.
Proof.
  intros Hu. revert a. induction n as [|n IH]; intros a Ha Hn; cbn [uload]; [done|].
  rewrite bindE, (load_run s p f) by (done || lia). cbn [obind]. pose proof (uo_size _ _ _ Hu) as Hs. unfold KERNBASE in Hs.
  destruct n as [|n'].
  - cbn [uload]. mrun. by rewrite (ubytes_S _ a).
  - rewrite u32_small by lia. rewrite bindE, IH by lia. cbn [obind]. mrun. by rewrite (ubytes_S _ a).
Qed.

(** The word at [a], and argument [n] of the system call. *)
Definition word s (p : proc) (a : Z) : option Z :=
  if a + 4 <=? sz p then Some (s32 (of_bytes (ubytes (env s) a 4))) else None.
Definition arg s (p : proc) (f : trapframe) (n : Z) : option Z := word s p (u32 (tf_esp f + 4 + 4 * n)).

Lemma fetchint_run s p f a c :
  user_ok s p f -> 0 <= a < 2 ^ 32 -> fetchint me a c s = Ok (word s p a) c s.
Proof.
  intros Hu Ha. pose proof (uo_size _ _ _ Hu) as Hs. unfold KERNBASE in Hs. unfold fetchint, word.
  rewrite bindE, (getp_run me p) by apply Hu. cbn [obind]. destruct (Z.leb_spec (a + 4) (sz p)).
  - rewrite u32_small by lia. destruct (Z.leb_spec (sz p) a), (Z.ltb_spec (sz p) (a + 4)); try lia. cbn [orb].
    rewrite bindE, (uload_run s p f) by (done || lia). cbn [obind]. by mrun.
  - destruct (Z.leb_spec (sz p) a); [by mrun|]. rewrite u32_small by lia. destruct (Z.ltb_spec (sz p) (a + 4)); [|lia]. by mrun.
Qed.

Lemma argint_run s p f n c : user_ok s p f -> argint me n c s = Ok (arg s p f n) c s.
Proof.
  intros Hu. unfold argint. rewrite bindE, (getp_run me p) by apply Hu. cbn [obind]. rewrite (uo_tf _ _ _ Hu). mrun.
  apply (fetchint_run s p f); [done|]. apply Z.mod_pos_bound. lia.
Qed.

(** C18: argptr() accepts a pointer exactly when the whole block of [size] bytes
    behind it is memory of the process; nothing the user passes wraps around. *)
Theorem argptr_spec s p f n size c :
  user_ok s p f -> size < 2 ^ 31 ->
  argptr me n size c s =
    Ok (i ← arg s p f n; if bool_decide (0 <= size /\ u32 i < sz p /\ u32 i + size <= sz p) then Some (u32 i) else None) c s.
Proof.
  intros Hu Hsize. unfold argptr. rewrite bindE, (argint_run s p f) by done. cbn [obind].
  destruct (arg s p f n) as [i|]; cbn [mbind option_bind]; [|by mrun]. rewrite bindE, (getp_run me p) by apply Hu. cbn [obind].
  pose proof (uo_size _ _ _ Hu) as Hs. unfold KERNBASE in Hs. assert (Hi : 0 <= u32 i < 2 ^ 32) by (apply Z.mod_pos_bound; lia).
  destruct (Z.ltb_spec size 0); [rewrite bool_decide_false by lia; by mrun|].
  destruct (Z.leb_spec (sz p) (u32 i)); [rewrite bool_decide_false by lia; by mrun|].
  rewrite (u32_small (u32 i + size)) by lia. cbn [orb].
  destruct (Z.ltb_spec (sz p) (u32 i + size)); [rewrite bool_decide_false by lia|rewrite bool_decide_true by lia]; by mrun.
Qed.

Lemma fetchstr_loop_run s p f n a c :
  user_ok s p f -> 0 <= a -> a + Z.of_nat n = sz p -> fetchstr_loop a (sz p) n c s = Ok (cut0 (ubytes (env s) a n)) c s.
Proof.
  intros Hu. pose proof (uo_size _ _ _ Hu) as Hs. unfold KERNBASE in Hs. revert a. induction n as [|n IH]; intros a Ha Hn; cbn [fetchstr_loop].
  - destruct (Z.ltb_spec a (sz p)); [lia|]. by mrun.
  - destruct (Z.ltb_spec a (sz p)); [|lia]. rewrite bindE, (load_run s p f) by (done || lia). cbn [obind].
    rewrite ubytes_S. cbn [cut0]. destruct (ubyte (env s) a =? 0); [by mrun|].
    rewrite u32_small by lia. rewrite bindE, IH by lia. cbn [obind]. by mrun.
Qed.

(** argstr() returns the string at the pointer with its nul when it ends inside
    the memory of the process, and fails when the pointer or the string does not
    lie in it; it always returns. *)
Theorem argstr_spec s p f n c :
  user_ok s p f ->
  exists r, argstr me n c s = Ok r c s /\
    match r with
    | Some bs => exists i str, arg s p f n = Some i /\ bs = str ++ [0] /\ Forall (fun b => b <> 0) str /\
        u32 i + Z.of_nat (length bs) <= sz p /\ bs = ubytes (env s) (u32 i) (length bs)
    | None => arg s p f n = None \/ exists i, arg s p f n = Some i /\
        forall a, u32 i <= a < sz p -> ubyte (env s) a <> 0
    end.
Proof.
  intros Hu. unfold argstr. rewrite bindE, (argint_run s p f) by done. cbn [obind].
  destruct (arg s p f n) as [i|]; [|exists None; split; [by mrun|by left]]. unfold fetchstr.
  rewrite bindE, (getp_run me p) by apply Hu. cbn [obind]. assert (Hi : 0 <= u32 i < 2 ^ 32) by (apply Z.mod_pos_bound; lia).
  destruct (Z.leb_spec (sz p) (u32 i)); [exists None; split; [by mrun|right; exists i; split; [done|intros; lia]]|].
  set (l := ubytes (env s) (u32 i) (Z.to_nat (sz p - u32 i))). exists (cut0 l).
  split; [apply (fetchstr_loop_run s p f); [done|lia|lia]|]. pose proof (cut0_spec l) as Hl. destruct (cut0 l) as [bs|].
  - destruct Hl as (str & -> & Hstr & Hp). exists i, str. assert (Hlen := prefix_length _ _ Hp).
    unfold l in Hlen. rewrite length_ubytes in Hlen. split_and!; try done; [lia|].
    destruct Hp as [r Hr]. apply (f_equal (take (length (str ++ [0])))) in Hr. rewrite take_app_length in Hr. rewrite <- Hr at 1.
    apply take_ubytes. lia.
  - right. exists i. split; [done|]. intros a Ha. rewrite Forall_lookup in Hl. apply (Hl (Z.to_nat (a - u32 i))).
    unfold l, ubytes. rewrite list_lookup_fmap, lookup_seqZ_lt by lia. cbn. do 2 f_equal. lia.
Qed.

(** setPriority() takes its first argument for the pid and its second for the
    priority.  The call setPriority(prio, num) of src/setPriority.c, which asks for
    priority [prio] for process [num], gives process [prio] the priority [num],
    and process [num] keeps the priority it had. *)
Theorem setPriority_swapped s p f prio num i h t :
  user_ok s p f -> arg s p f 0 = Some prio -> arg s p f 1 = Some num -> 0 <= num <= 100 -> Lptable ∉ h ->
  find_index (fun q => pid q =? prio) (procs s) = Some i ->
  let s' := s <| procs ::= alter (fun q => q <| priority := num |>) i |> in
  sys_setPriority me (Ctx h t) s = Ok 24 (Ctx h (t ++ [Esti])) s' /\
  (num <> prio -> forall j q, procs s !! j = Some q -> pid q = num -> procs s' !! j = Some q).
Proof.
  intros Hu H0' H1' Hnum Hh Hi s'. split.
  - unfold sys_setPriority. rewrite bindE, (argint_run s p f) by done. cbn [obind]. rewrite H0'.
    rewrite bindE, (argint_run s p f) by done. cbn [obind]. rewrite H1'. unfold setPriority. mrun.
    destruct (Z.ltb_spec num 0), (Z.ltb_spec 100 num); try lia. cbn [orb]. mrun. rewrite Hi. mrun. rewrite setpE. cbn [obind]. mrun. done.
  - intros Hne j q Hj Hq. unfold s'. cbn [procs update]. simpl. destruct (decide (i = j)) as [->|Hij].
    + apply find_index_Some in Hi as [(x & Hx & Ex) _]. assert (x = q) as -> by congruence. lia.
    + by rewrite list_lookup_alter_ne.
Qed.
End SyscallSpec.

(** ** Witnesses *)

(** A process with 64 bytes of memory and the arguments 3 and 2 on its stack. *)
#[local] Instance mem_user : UserOps (gmap Z Z) := {|
  u_load a := e ← getS; of_option (e !! a);
  u_store a b := modS (fun e => <[a := b]> e);
|}.

#[local] Instance mem_user_ok : UserOpsOk (gmap Z Z).
Proof. refine {| u_mem := fun e a => e !! a |}. intros a b c e Hb. unfold u_load. simpl. mrun. by rewrite Hb. Defined.

#[local] Instance mem_kernel : KernelOps (gmap Z Z) := {|
  k_kalloc := mret 0; k_kfree _ := mret tt; k_setupkvm := mret 0; k_inituvm _ := mret tt;
  k_allocuvm _ _ n := mret n; k_deallocuvm _ _ n := mret n; k_copyuvm _ _ := mret 0; k_freevm _ := mret tt;
  k_switchuvm _ _ := mret tt; k_switchkvm := mret tt; k_filedup _ := mret tt; k_fileclose _ := mret tt;
  k_idup _ := mret tt; k_iput _ := mret tt; k_namei _ := mret None; k_begin_op := mret tt; k_end_op := mret tt;
  k_iinit _ := mret tt; k_initlog _ := mret tt;
|}.

Definition user_bytes : list Z :=
  replicate 4 0 ++ [3; 0; 0; 0; 2; 0; 0; 0] ++ [104; 105; 0] ++ replicate 49 9.
Definition user_mem : gmap Z Z := list_to_map (zip (seqZ 0 64) user_bytes).
Definition user_tf : trapframe := trapframe0 <| tf_esp := 0 |>.
Definition user_proc : proc :=
  proc0 <| state := RUNNING |> <| pid := 2 |> <| sz := 64 |> <| tf := Some user_tf |> <| priority := 60 |>.
Definition other_proc : proc := proc0 <| state := RUNNABLE |> <| pid := 3 |> <| priority := 60 |>.
Definition user_state : pstate (gmap Z Z) :=
  mkpstate [user_proc; other_proc] None 4 (replicate 5 (replicate 64 None)) [-1; -1; -1; -1; -1] 30 false (Some 0%nat) user_mem.

Lemma user_state_ok : user_ok 0 user_state user_proc user_tf.
Proof.
  split; [done|done|unfold KERNBASE; cbn; lia|]. intros a Ha.
  assert (Hall : forallb (fun a => match user_mem !! a with Some _ => true | None => false end) (seqZ 0 64) = true) by (vm_compute; reflexivity).
  rewrite forallb_forall in Hall. specialize (Hall a). change (u_mem (env user_state) a) with (user_mem !! a).
  destruct (user_mem !! a); [by eexists|]. discriminate Hall. apply list_elem_of_In, elem_of_seqZ. cbn in Ha. lia.
Qed.

(** The pointer 3 with 61 bytes behind it is accepted. *)
Lemma argptr_spec_witness : argptr 0 0 61 (Ctx [] []) user_state = Ok (Some 3) (Ctx [] []) user_state.
Proof.
  rewrite (argptr_spec 0 user_state user_proc user_tf 0 61 (Ctx [] []) user_state_ok ltac:(lia)). vm_compute. reflexivity.
Defined.

Lemma argstr_spec_witness : exists r, argstr 0 0 (Ctx [] []) user_state = Ok r (Ctx [] []) user_state.
Proof.
  destruct (argstr_spec 0 user_state user_proc user_tf 0 (Ctx [] []) user_state_ok) as (r & Hrun & _). by exists r.
Defined.

(** setPriority(3, 2): process 3 gets priority 2. *)
Lemma setPriority_swapped_witness :
  exists s', sys_setPriority 0 (Ctx [] []) user_state = Ok 24 (Ctx [] [Esti]) s' /\
    procs s' !! 0%nat = Some user_proc /\ procs s' !! 1%nat = Some (other_proc <| priority := 2 |>).
Proof.
  destruct (setPriority_swapped 0 user_state user_proc user_tf 3 2 1 [] [] user_state_ok ltac:(vm_compute; reflexivity)
    ltac:(vm_compute; reflexivity) ltac:(lia) ltac:(set_solver) ltac:(vm_compute; reflexivity)) as [Hrun Hkeep].
  eexists. split; [exact Hrun|]. split; [exact (Hkeep ltac:(lia) 0%nat user_proc eq_refl eq_refl)|reflexivity].
Defined.
