(* ===== verification/Trap.v ===== *)
(** * Traps (src/trap.c, src/traps.h)

    [trap] runs on one CPU ([cpuid]) with the process [me] or none.  What it
    calls in the drivers is the interface [IrqOps]; [sys] runs the system calls,
    and [resume] says how the CPU comes back after a yield, as in [Proc]. *)

From stdpp Require Import prelude gmap strings list.
From Stdlib Require Import ZArith Lia.
From S2P Require Import Spinlock Strings Prelude Mmu Proc Layout Syscall.

Definition T_SYSCALL : Z := 64.
Definition T_IRQ0 : Z := 32.
Definition IRQ_TIMER : Z := 0.
Definition IRQ_KBD : Z := 1.
Definition IRQ_COM1 : Z := 4.
Definition IRQ_IDE : Z := 14.
Definition IRQ_SPURIOUS : Z := 31.

Class IrqOps (E : Type) := {
  k_ideintr : M E unit;
  k_kbdintr : M E unit;
  k_uartintr : M E unit;
}.

(** ** The interrupt table *)

Record gatedesc := mkgate {
  g_off_15_0 : Z; g_cs : Z; g_args : Z; g_rsv1 : Z; g_type : Z; g_s : Z; g_dpl : Z; g_p : Z;
  g_off_31_16 : Z;
}.

Definition STS_IG32 : Z := 14.
Definition STS_TG32 : Z := 15.

(** SETGATE, with [u16] and the like for the widths of the bit fields. *)
Definition SETGATE (istrap : bool) (sel off d : Z) : gatedesc :=
  mkgate (Z.land (u32 off) 65535) (u16 sel) 0 0 (if istrap then STS_TG32 else STS_IG32) 0 (d mod 4) 1
    (Z.shiftr (u32 off) 16).

(** [vectors] are the addresses of vectors.S, which vectors.pl generates. *)
Definition idt_of (vectors : list Z) : list gatedesc :=
  <[Z.to_nat T_SYSCALL :=
     SETGATE true (Z.shiftl SEG_KCODE 3) (default 0 (vectors !! Z.to_nat T_SYSCALL)) DPL_USER]>
  ((fun i => SETGATE false (Z.shiftl SEG_KCODE 3) (default 0 (vectors !! i)) 0) <$> seq 0 256).

Section Trap.
Context {E : Type} `{KernelOps E} `{UserOps E} `{IrqOps E}.
Context (pol : policy) (cpuid : Z) (cr2 : Z).
Abbreviation K := (M (pstate E)).
Implicit Types (me : option nat) (resume : option (pstate E -> pstate E)).

Definition tvinit (vectors : list Z) : K (list gatedesc) :=
  initlock Ltickslock "time" ;; mret (idt_of vectors).

(** [a\[q\] += 1] *)
Definition bump (a : list Z) (q : Z) : K (list Z) :=
  x ← rd a q; wr a q (s32 (x + 1)).

(** The accounting of a clock tick for the running process. *)
Definition account (i : nat) : K unit :=
  p ← getp i;
  match state p with
  | SLEEPING => setp i (fun p => p <| iotime ::= fun t => s32 (t + 1) |>)
  | RUNNING =>
      setp i (fun p => p <| rtime ::= fun t => s32 (t + 1) |>) ;;
      tk ← bump (pticks p) (current_queue p);
      setp i (fun p => p <| pticks := tk |>) ;;
      tot ← bump (total_ticks p) (current_queue p);
      setp i (fun p => p <| total_ticks := tot |>)
  | _ => mret tt
  end.

(** The timer interrupt. *)
Definition timer me : K unit :=
  if cpuid =? 0 then
    acquire Ltickslock ;;
    modS (fun s => s <| ticks ::= fun t => u32 (t + 1) |>) ;;
    wakeup Cticks ;;
    release Ltickslock ;;
    match me with Some i => account i | None => mret tt end
  else mret tt.

(** The switch on the trap number. *)
Definition handle (f : trapframe) me : K unit :=
  let n := tf_trapno f in
  if n =? T_IRQ0 + IRQ_TIMER then timer me ;; emit Eeoi
  else if n =? T_IRQ0 + IRQ_IDE then lift k_ideintr ;; emit Eeoi
  else if n =? T_IRQ0 + IRQ_IDE + 1 then mret tt
  else if n =? T_IRQ0 + IRQ_KBD then lift k_kbdintr ;; emit Eeoi
  else if n =? T_IRQ0 + IRQ_COM1 then lift k_uartintr ;; emit Eeoi
  else if (n =? T_IRQ0 + 7) || (n =? T_IRQ0 + IRQ_SPURIOUS) then
    cprintf "cpu%d: spurious interrupt at %x:%x\n" [cpuid; tf_cs f; tf_eip f] ;; emit Eeoi
  else match me with
  | None =>
      cprintf "myproc\n" [] ;;
      cprintf "unexpected trap %d from cpu %d eip %x (cr2=0x%x)\n" [n; cpuid; tf_eip f; cr2] ;;
      panic "trap"
  | Some i =>
      if Z.land (tf_cs f) 3 =? 0 then
        cprintf "lala\n" [] ;;
        cprintf "unexpected trap %d from cpu %d eip %x (cr2=0x%x)\n" [n; cpuid; tf_eip f; cr2] ;;
        panic "trap"
      else
        p ← getp i;
        cprintf "pid %d %s: trap %d err %d on cpu %d eip 0x%x addr 0x%x--kill proc\n"
          (pid p :: name p ++ [n; tf_err f; cpuid; tf_eip f; cr2]) ;;
        setp i (fun p => p <| killed := 1 |>)
  end.

(** [if (myproc() && myproc()->killed && (tf->cs & 3) == DPL_USER) exit();] *)
Definition exit_if_killed (f : trapframe) me : K unit :=
  match me with
  | None => mret tt
  | Some i =>
      p ← getp i;
      if negb (killed p =? 0) && (Z.land (tf_cs f) 3 =? DPL_USER) then exit i None else mret tt
  end.

(** The policies that preempt on a clock tick. *)
Definition preemptive : bool := match pol with DEFAULT | PRIORITY | MLFQ => true | FCFS => false end.

Definition preempt (f : trapframe) me resume : K unit :=
  match me with
  | None => mret tt
  | Some i =>
      p ← getp i;
      if is_state RUNNING p && (tf_trapno f =? T_IRQ0 + IRQ_TIMER) && preemptive
      then yield i resume else mret tt
  end.

(** [if (myproc()->killed) exit();] around a system call. *)
Definition exit_killed (i : nat) : K unit :=
  p ← getp i;
  if negb (killed p =? 0) then exit i None else mret tt.

Definition trap (sys : nat -> sysname -> K Z) (f : trapframe) me resume : K unit :=
  if tf_trapno f =? T_SYSCALL then
    i ← of_option me;
    exit_killed i ;;
    setp i (fun p => p <| tf := Some f |>) ;;
    syscall i (sys i) ;;
    exit_killed i
  else
    handle f me ;;
    exit_if_killed f me ;;
    preempt f me resume ;;
    exit_if_killed f me.
End Trap.
