(* ===== verification/TrapSpec.v ===== *)
(** * The clock interrupt (src/trap.c)

    What a clock tick does to the process table, and which policies it preempts. *)

From stdpp Require Import prelude gmap strings list.
From Stdlib Require Import ZArith Lia.
From S2P Require Import Spinlock Strings Prelude Mmu Proc ProcInv ProcSpec Layout Syscall Trap.

Section TrapSpec.
Context {E : Type} `{KernelOps E} `{UserOps E} `{IrqOps E} (pol : policy) (cpuid cr2 : Z).
Implicit Types s : pstate E.

Lemma rd_ok {A} (a : list A) (q : Z) x c s : aget a q = Some x -> rd a q c s = Ok x c s.
Proof. intros Hx. unfold rd. by rewrite Hx. Qed.

Definition plus1 (q : Z) (a : list Z) : list Z := <[Z.to_nat q := s32 (default 0 (aget a q) + 1)]> a.

Lemma bump_run a q c s : 0 <= q < Z.of_nat (length a) -> bump a q c s = Ok (plus1 q a) c s.
Proof.
  intros Hq. unfold bump. destruct (lookup_lt_is_Some_2 a (Z.to_nat q)) as [x Hx]; [lia|].
  assert (Hg : aget a q = Some x) by (unfold aget; destruct (Z.ltb_spec q 0); [lia|done]).
  rewrite bindE, (rd_ok a q x) by done. cbn [obind]. unfold wr, aset, plus1. rewrite Hg.
  destruct (Z.leb_spec 0 q); [|lia]. destruct (Z.ltb_spec q (Z.of_nat (length a))); [|lia]. done.
Qed.

(** The process a tick is charged to, and the table after the tick. *)
Definition charged (p : proc) : proc :=
  p <| rtime ::= fun t => s32 (t + 1) |> <| pticks ::= plus1 (current_queue p) |>
    <| total_ticks ::= plus1 (current_queue p) |>.

Definition ticked (i : nat) (p : proc) s : pstate E :=
  let tk := u32 (ticks s + 1) in
  upd i (charged p) (s <| ticks := tk |> <| procs ::= fmap (wake (Some Cticks) tk) |>).

Record running s (i : nat) (p : proc) : Prop := {
  rn_slot : procs s !! i = Some p;
  rn_state : state p = RUNNING;
  rn_queue : 0 <= current_queue p < 5;
  rn_ticks : length (pticks p) = 5%nat /\ length (total_ticks p) = 5%nat;
}.

Lemma wake_running ch tk p : state p = RUNNING -> wake ch tk p = p.
Proof. intros Hs. unfold wake, is_state. by rewrite Hs. Qed.

Lemma account_run i p c s : running s i p -> account i c s = Ok tt c (upd i (charged p) s).
Proof.
  intros [Hp Hs Hq [Hl1 Hl2]]. unfold account. rewrite bindE, (getp_run i p) by done. cbn [obind]. rewrite Hs.
  rewrite bindE, (setp_upd i _ c s p) by done. cbn [obind].
  rewrite bindE, bump_run by (rewrite Hl1; lia). cbn [obind].
  rewrite bindE. erewrite setp_upd by (by eapply lookup_upd). cbn [obind]. rewrite upd_upd.
  rewrite bindE, bump_run by (rewrite Hl2; lia). cbn [obind].
  erewrite setp_upd by (by eapply lookup_upd). rewrite upd_upd. done.
Qed.

Lemma timer_run i p h t s :
  running s i p -> Ltickslock ∉ h -> Lptable ∉ h -> cpuid = 0 ->
  timer cpuid (Some i) (Ctx h t) s = Ok tt (Ctx h t) (ticked i p s).
Proof.
  intros Hr Hh1 Hh2 Hc. unfold timer. rewrite Hc. cbn [Z.eqb]. mrun. rewrite wakeup_run by set_solver. cbn [obind]. mrun.
  apply account_run. destruct Hr as [Hp Hs Hq Hl]. split; try done. simpl. rewrite list_lookup_fmap, Hp. cbn. by rewrite wake_running.
Qed.


(** A clock interrupt takes the CPU from a process that is not killed under
    every policy but FCFS: there the process goes on, RUNNING, with the tick
    charged; under the others it goes through yield(). *)
Theorem timer_preempts sys f i p resume h t s :
  running s i p -> killed p = 0 -> Ltickslock ∉ h -> Lptable ∉ h -> cpuid = 0 -> tf_trapno f = T_IRQ0 + IRQ_TIMER ->
  trap pol cpuid cr2 sys f (Some i) resume (Ctx h t) s =
    match pol with
    | FCFS => Ok tt (Ctx h (t ++ [Eeoi])) (ticked i p s)
    | _ => (yield i resume ;; exit_if_killed f (Some i)) (Ctx h (t ++ [Eeoi])) (ticked i p s)
    end.
Proof.
  intros Hr Hk Hh1 Hh2 Hc Hn. pose proof Hr as [Hp Hs _ _].
  assert (Hp' : procs (ticked i p s) !! i = Some (charged p)).
  { unfold ticked. eapply lookup_upd. simpl. rewrite list_lookup_fmap, Hp. done. }
  assert (Hx : forall c, exit_if_killed f (Some i) c (ticked i p s) = Ok tt c (ticked i p s)).
  { intros c. unfold exit_if_killed. rewrite bindE, (getp_run i (charged p)) by done. cbn [obind].
    change (killed (charged p)) with (killed p). by rewrite Hk. }
  unfold trap, handle. rewrite Hn, Z.eqb_refl. change (T_IRQ0 + IRQ_TIMER =? T_SYSCALL) with false. cbn iota.
  rewrite bindE, bindE, (timer_run i p) by done. cbn [obind]. mrun. rewrite Hx. cbn [obind].
  unfold preempt. rewrite bindE, bindE, (getp_run i (charged p)) by done. cbn [obind].
  unfold is_state. change (state (charged p)) with (state p). rewrite Hs, Hn, bool_decide_true by done.
  cbn [andb Z.eqb Pos.eqb]. rewrite Z.eqb_refl. unfold preemptive. destruct pol; cbn [andb]; try done.
  mrun. apply Hx.
Qed.
End TrapSpec.

(** ** Witnesses *)

#[local] Existing Instance demo_ops.
#[local] Instance unit_user : UserOps unit := {| u_load _ := mret 0; u_store _ _ := mret tt |}.
#[local] Instance unit_irq : IrqOps unit := {| k_ideintr := mret tt; k_kbdintr := mret tt; k_uartintr := mret tt |}.

Lemma demo_running : running demo 1 demo_sh.
Proof. by split. Qed.


(** Under FCFS the process keeps the CPU. *)
Lemma timer_preempts_witness :
  let f := trapframe0 <| tf_trapno := T_IRQ0 + IRQ_TIMER |> in
  trap FCFS 0 0 (fun _ _ => mret 0) f (Some 1%nat) None (Ctx [] []) demo = Ok tt (Ctx [] [Eeoi]) (ticked 1 demo_sh demo).
Proof.
  intros f. apply (timer_preempts FCFS 0 0 (fun _ _ => mret 0) f 1 demo_sh None [] [] demo demo_running); try reflexivity; set_solver.
Defined.
