(* ===== verification/Sysfile.v ===== *)
(** * System calls about files (src/sysfile.c, src/fcntl.h)

    Descriptors and the current directory are fields of the process; the open
    files are reached through [FileEnv], which places the state of [File] in the
    environment of [Proc]. *)

From stdpp Require Import prelude gmap strings list.
From Stdlib Require Import ZArith Lia.
From S2P Require Import Spinlock Strings Prelude Mmu Kalloc Pipe Sleeplock Bio BioSpec Layout Log Store Fs File Proc Syscall.

Definition O_RDONLY : Z := 0.
Definition O_WRONLY : Z := 1.
Definition O_RDWR : Z := 2.
Definition O_CREATE : Z := 512.
Definition MAXARG : nat := 32.

Class FileEnv (E B : Type) := {
  e_get : E -> fstate B;
  e_put : fstate B -> E -> E;
}.

Section Sysfile.
Context {E B : Type} `{KernelOps E} `{UserOps E} `{BlockStore B} `{FileEnv E B}.
Context (devsw : list (devops B)) (kend : Z) (me : nat).
Abbreviation K := (M (pstate E)).

(** A call into the file layer by the process [me], whose [killed] it sees. *)
Definition onfile {A} (m : M (fstate B) A) : K A :=
  p ← getp me;
  lift (zoom e_get e_put (modS (fun s => s <| fkilled := Proc.killed p |>) ;; m)).

(** A call into the file system. *)
Definition onfs' {A} (m : M (fsstate B) A) : K A := onfile (onfs m).
Definition op_begin : K unit := onfile begin_tx.
Definition op_end : K unit := onfile end_tx.
Definition mypid : K Z := p ← getp me; mret (Proc.pid p).
Definition mycwd : K nat := p ← getp me; of_option (Proc.cwd p).

Definition lock (ip : nat) : K unit := pid ← mypid; onfs' (ilock pid (Some ip)).
Definition unlock (ip : nat) : K unit := pid ← mypid; onfs' (iunlock pid (Some ip)).
Definition put (ip : nat) : K unit := pid ← mypid; onfs' (iput pid ip).
Definition unlockput (ip : nat) : K unit := pid ← mypid; onfs' (iunlockput pid ip).
Definition close (f : nat) : K unit := pid ← mypid; onfile (fileclose pid kend f).
Definition inode_of (ip : nat) : K inode := onfs' (geti ip).
Definition path_inode (path : list Z) : K (option nat) :=
  pid ← mypid; w ← mycwd; onfs' (namei pid devsw w path).
Definition path_parent (path : list Z) : K (option nat * list Z) :=
  pid ← mypid; w ← mycwd; onfs' (nameiparent pid devsw w path (replicate (Z.to_nat DIRSIZ) 0)).

(** The descriptor and the file. *)
Definition argfd (n : Z) : K (option (Z * nat)) :=
  a ← argint me n;
  match a with
  | None => mret None
  | Some fd =>
      if (fd <? 0) || (Z.of_nat NOFILE <=? fd) then mret None else
      p ← getp me;
      o ← rd (ofile p) fd;
      mret ((fun f => (fd, f)) <$> o)
  end.

Definition set_fd (fd : Z) (x : option nat) : K unit :=
  p ← getp me;
  fs ← wr (ofile p) fd x;
  setp me (fun p => p <| ofile := fs |>).

Definition fdalloc (f : nat) : K (option Z) :=
  p ← getp me;
  match find_index (fun o => bool_decide (o = None)) (ofile p) with
  | Some fd => set_fd (Z.of_nat fd) (Some f) ;; mret (Some (Z.of_nat fd))
  | None => mret None
  end.

Definition sys_dup : K Z :=
  a ← argfd 0;
  match a with
  | None => mret (-1)
  | Some (_, f) =>
      fd ← fdalloc f;
      match fd with
      | None => mret (-1)
      | Some fd => onfile (filedup f) ;; mret fd
      end
  end.

(** [argfd(0, 0, &f) < 0 || argint(2, &n) < 0 || argptr(1, &p, n) < 0] *)
Definition arg_io : K (option (nat * Z * Z)) :=
  a ← argfd 0;
  match a with
  | None => mret None
  | Some (_, f) =>
      n ← argint me 2;
      match n with
      | None => mret None
      | Some n =>
          p ← argptr me 1 n;
          mret ((fun p => (f, p, n)) <$> p)
      end
  end.

Definition sys_read : K Z :=
  a ← arg_io;
  match a with
  | None => mret (-1)
  | Some (f, p, n) =>
      pid ← mypid;
      r ← onfile (fileread pid devsw f n);
      ustore p r.2 ;;
      mret r.1
  end.

Definition sys_write : K Z :=
  a ← arg_io;
  match a with
  | None => mret (-1)
  | Some (f, p, n) =>
      bs ← uload p (Z.to_nat n);
      pid ← mypid;
      onfile (filewrite pid devsw f bs n)
  end.

Definition sys_close : K Z :=
  a ← argfd 0;
  match a with
  | None => mret (-1)
  | Some (fd, f) => set_fd fd None ;; close f ;; mret 0
  end.

(** [*st = x], field by field. *)
Definition store_stat (st : Z) (x : stat) : K unit :=
  ustore st (to_bytes 2 (u16 (st_type x))) ;;
  ustore (u32 (st + 4)) (to_bytes 4 (st_dev x)) ;;
  ustore (u32 (st + 8)) (to_bytes 4 (st_ino x)) ;;
  ustore (u32 (st + 12)) (to_bytes 2 (u16 (st_nlink x))) ;;
  ustore (u32 (st + 16)) (to_bytes 4 (st_size x)).

Definition sys_fstat : K Z :=
  a ← argfd 0;
  match a with
  | None => mret (-1)
  | Some (_, f) =>
      st ← argptr me 1 20;
      match st with
      | None => mret (-1)
      | Some st =>
          pid ← mypid;
          r ← onfile (filestat pid f);
          (match r.2 with Some x => store_stat st x | None => mret tt end) ;;
          mret r.1
      end
  end.

(** [ip->nlink += d; iupdate(ip);] *)
Definition add_nlink (ip : nat) (d : Z) : K unit :=
  onfs' (modi ip (fun i => i <| nlink ::= fun n => s16 (n + d) |>)) ;;
  onfs' (iupdate ip).

(** [bad:] of sys_link() *)
Definition link_bad (ip : nat) : K Z :=
  lock ip ;; add_nlink ip (-1) ;; unlockput ip ;; op_end ;; mret (-1).

Definition link_op (old new : list Z) : K Z :=
  op_begin ;;
  o ← path_inode old;
  match o with
  | None => op_end ;; mret (-1)
  | Some ip =>
      lock ip ;;
      i ← inode_of ip;
      if itype i =? T_DIR then unlockput ip ;; op_end ;; mret (-1) else
      add_nlink ip 1 ;;
      unlock ip ;;
      '(o, name) ← path_parent new;
      match o with
      | None => link_bad ip
      | Some dp =>
          lock dp ;;
          d ← inode_of dp;
          i ← inode_of ip;
          pid ← mypid;
          bad ← (if negb (idev d =? idev i) then mret true else
                 r ← onfs' (dirlink pid devsw dp name (inum i)); mret (r <? 0));
          if (bad : bool) then unlockput dp ;; link_bad ip else
          unlockput dp ;;
          put ip ;;
          op_end ;;
          mret 0
      end
  end.

Definition sys_link : K Z :=
  a ← argstr me 0;
  match a with
  | None => mret (-1)
  | Some old =>
      b ← argstr me 1;
      match b with None => mret (-1) | Some new => link_op old new end
  end.

(** [for(off=2*sizeof(de); off<dp->size; off+=sizeof(de))] *)
Fixpoint isdirempty_loop (dp : nat) (off : Z) (fuel : nat) : K bool :=
  i ← inode_of dp;
  if u32 off <? isize i then
    match fuel with
    | O => nofuel
    | S fuel' =>
        r ← onfs' (readi devsw dp (u32 off) 16);
        if negb (r.1 =? 16) then panic "isdirempty: readi" else
        if negb (de_inum (get_dirent r.2) =? 0) then mret false else
        isdirempty_loop dp (s32 (off + 16)) fuel'
    end
  else mret true.

Definition isdirempty (dp : nat) : K bool :=
  i ← inode_of dp; isdirempty_loop dp 32 (Z.to_nat (isize i / 16)).

(** [bad:] of sys_unlink() *)
Definition unlink_bad (dp : nat) : K Z := unlockput dp ;; op_end ;; mret (-1).

(** sys_unlink() once the entry, at [off] of [dp], and its inode are known. *)
Definition unlink_entry (dp ip : nat) (off : Z) : K Z :=
  lock ip ;;
  i ← inode_of ip;
  if nlink i <? 1 then panic "unlink: nlink < 1" else
  full ← (if itype i =? T_DIR then e ← isdirempty ip; mret (negb e) else mret false);
  if (full : bool) then unlockput ip ;; unlink_bad dp else
  n ← onfs' (writei devsw dp (replicate 16 0) off 16);
  if negb (n =? 16) then panic "unlink: writei" else
  (if itype i =? T_DIR then add_nlink dp (-1) else mret tt) ;;
  unlockput dp ;;
  add_nlink ip (-1) ;;
  unlockput ip ;;
  op_end ;;
  mret 0.

Definition dot : list Z := lit ".".
Definition dotdot : list Z := lit "..".

Definition unlink_op (path : list Z) : K Z :=
  op_begin ;;
  '(o, name) ← path_parent path;
  match o with
  | None => op_end ;; mret (-1)
  | Some dp =>
      lock dp ;;
      c1 ← onfs' (namecmp name dot);
      c2 ← (if c1 =? 0 then mret 0 else onfs' (namecmp name dotdot));
      if (c1 =? 0) || (c2 =? 0) then unlink_bad dp else
      e ← onfs' (dirlookup devsw dp name);
      match e with
      | None => unlink_bad dp
      | Some (ip, off) => unlink_entry dp ip off
      end
  end.

Definition sys_unlink : K Z :=
  a ← argstr me 0;
  match a with None => mret (-1) | Some path => unlink_op path end.

(** create() when the name is new: allocate the inode and link it. *)
Definition create_new (dp : nat) (name : list Z) (type maj min : Z) : K (option nat) :=
  d ← inode_of dp;
  pid ← mypid;
  ip ← onfs' (ialloc (idev d) type);
  lock ip ;;
  onfs' (modi ip (fun i => i <| major := maj |> <| minor := min |> <| nlink := 1 |>)) ;;
  onfs' (iupdate ip) ;;
  i ← inode_of ip;
  (if type =? T_DIR then
     add_nlink dp 1 ;;
     r1 ← onfs' (dirlink pid devsw ip dot (inum i));
     r2 ← (if r1 <? 0 then mret 0 else onfs' (dirlink pid devsw ip dotdot (inum d)));
     if (r1 <? 0) || (r2 <? 0) then panic "create dots" else mret tt
   else mret tt) ;;
  r ← onfs' (dirlink pid devsw dp name (inum i));
  if r <? 0 then panic "create: dirlink" else
  unlockput dp ;;
  mret (Some ip).

Definition create (path : list Z) (type maj min : Z) : K (option nat) :=
  '(o, name) ← path_parent path;
  match o with
  | None => mret None
  | Some dp =>
      lock dp ;;
      e ← onfs' (dirlookup devsw dp name);
      match e with
      | Some (ip, _) =>
          unlockput dp ;;
          lock ip ;;
          i ← inode_of ip;
          if (type =? T_FILE) && (itype i =? T_FILE) then mret (Some ip)
          else unlockput ip ;; mret None
      | None => create_new dp name type maj min
      end
  end.

(** sys_open() up to a locked inode; [None] after the early end_op(). *)
Definition open_inode (path : list Z) (omode : Z) : K (option nat) :=
  if negb (Z.land omode O_CREATE =? 0) then
    o ← create path T_FILE 0 0;
    match o with
    | None => op_end ;; mret None
    | Some ip => mret (Some ip)
    end
  else
    o ← path_inode path;
    match o with
    | None => op_end ;; mret None
    | Some ip =>
        lock ip ;;
        i ← inode_of ip;
        if (itype i =? T_DIR) && negb (omode =? O_RDONLY)
        then unlockput ip ;; op_end ;; mret None
        else mret (Some ip)
    end.

(** [!(omode & O_WRONLY)] and [(omode & O_WRONLY) || (omode & O_RDWR)]. *)
Definition mode_readable (omode : Z) : Z := if Z.land omode O_WRONLY =? 0 then 1 else 0.
Definition mode_writable (omode : Z) : Z :=
  if negb (Z.land omode O_WRONLY =? 0) || negb (Z.land omode O_RDWR =? 0) then 1 else 0.

Definition open_op (path : list Z) (omode : Z) : K Z :=
  op_begin ;;
  o ← open_inode path omode;
  match o with
  | None => mret (-1)
  | Some ip =>
      f ← onfile filealloc;
      fd ← (if f is Some f then fdalloc f else mret None);
      match f, fd with
      | Some f, Some fd =>
          unlock ip ;;
          op_end ;;
          onfile (modf f (fun x => x <| type := FD_INODE |> <| fip := ip |> <| foff := 0 |>
            <| readable := mode_readable omode |> <| writable := mode_writable omode |>)) ;;
          mret fd
      | _, _ =>
          (if f is Some f then close f else mret tt) ;;
          unlockput ip ;;
          op_end ;;
          mret (-1)
      end
  end.

Definition sys_open : K Z :=
  a ← argstr me 0;
  match a with
  | None => mret (-1)
  | Some path =>
      m ← argint me 1;
      match m with None => mret (-1) | Some omode => open_op path omode end
  end.

(** The end of sys_mkdir() and sys_mknod(). *)
Definition created (o : option nat) : K Z :=
  match o with
  | None => op_end ;; mret (-1)
  | Some ip => unlockput ip ;; op_end ;; mret 0
  end.

Definition sys_mkdir : K Z :=
  op_begin ;;
  a ← argstr me 0;
  o ← (if a is Some path then create path T_DIR 0 0 else mret None);
  created o.

Definition sys_mknod : K Z :=
  op_begin ;;
  a ← argstr me 0;
  maj ← (if a is Some _ then argint me 1 else mret None);
  min ← (if maj is Some _ then argint me 2 else mret None);
  o ← (match a, maj, min with
       | Some path, Some maj, Some min => create path T_DEV (s16 maj) (s16 min)
       | _, _, _ => mret None
       end);
  created o.

Definition sys_chdir : K Z :=
  op_begin ;;
  a ← argstr me 0;
  o ← (if a is Some path then path_inode path else mret None);
  match o with
  | None => op_end ;; mret (-1)
  | Some ip =>
      lock ip ;;
      i ← inode_of ip;
      if negb (itype i =? T_DIR) then unlockput ip ;; op_end ;; mret (-1) else
      unlock ip ;;
      w ← mycwd;
      put w ;;
      op_end ;;
      setp me (fun p => p <| Proc.cwd := Some ip |>) ;;
      mret 0
  end.

(** The loop of sys_exec(): the arguments up to the null pointer, or [None]. *)
Fixpoint exec_args (uargv i : Z) (n : nat) : K (option (list (list Z))) :=
  match n with
  | O => mret None
  | S n' =>
      uarg ← fetchint me (u32 (uargv + 4 * i));
      match uarg with
      | None => mret None
      | Some a =>
          if u32 a =? 0 then mret (Some []) else
          s ← fetchstr me (u32 a);
          match s with
          | None => mret None
          | Some s => rest ← exec_args uargv (i + 1) n'; mret (cons s <$> rest)
          end
      end
  end.

(** [exec] is exec.c's. *)
Definition sys_exec (exec : list Z -> list (list Z) -> K Z) : K Z :=
  a ← argstr me 0;
  match a with
  | None => mret (-1)
  | Some path =>
      u ← argint me 1;
      match u with
      | None => mret (-1)
      | Some uargv =>
          args ← exec_args (u32 uargv) 0 MAXARG;
          match args with None => mret (-1) | Some argv => exec path argv end
      end
  end.

Definition sys_pipe : K Z :=
  a ← argptr me 0 8;
  match a with
  | None => mret (-1)
  | Some fd =>
      pid ← mypid;
      o ← onfile (pipealloc pid kend);
      match o with
      | None => mret (-1)
      | Some (rf, wf) =>
          fd0 ← fdalloc rf;
          fd1 ← (if fd0 is Some _ then fdalloc wf else mret None);
          match fd0, fd1 with
          | Some fd0, Some fd1 =>
              ustore fd (to_bytes 4 fd0) ;;
              ustore (u32 (fd + 4)) (to_bytes 4 fd1) ;;
              mret 0
          | _, _ =>
              (if fd0 is Some fd0 then set_fd fd0 None else mret tt) ;;
              close rf ;;
              close wf ;;
              mret (-1)
          end
      end
  end.
End Sysfile.
