(* ===== verification/SysfileSpec.v ===== *)
(** * Descriptors (src/sysfile.c: argfd, fdalloc, sys_dup) *)

From stdpp Require Import prelude gmap strings list.
From Stdlib Require Import ZArith Lia.
From S2P Require Import Spinlock Strings Prelude Mmu Kalloc Pipe Sleeplock Bio BioSpec Layout Log Store Fs File FileTable FsWitness Proc ProcInv ProcSpec Syscall Sysproc SyscallSpec Sysfile.

(** The open files are a part of the environment. *)
Class FileEnvOk (E B : Type) `{FileEnv E B} := {
  e_get_put : forall k e, e_get (e_put k e) = k;
}.

Section SysfileSpec.
Context {E B : Type} `{KernelOps E} `{UserOpsOk E} `{BlockStore B} `{FileEnvOk E B} (me : nat).
Implicit Types s : pstate E.

(** The open file behind a descriptor. *)
Definition open_fd (p : proc) (fd : Z) : option nat :=
  if bool_decide (0 <= fd < Z.of_nat NOFILE) then mjoin (aget (ofile p) fd) else None.

Definition free_fd (p : proc) : option nat := find_index (fun o : option nat => bool_decide (o = None)) (ofile p).

Lemma argfd_run s p f n c :
  user_ok me s p f -> length (ofile p) = NOFILE ->
  argfd me n c s = Ok (fd ← arg s p f n; x ← open_fd p fd; Some (fd, x)) c s.
Proof.
  intros Hu Hl. unfold argfd. rewrite bindE, (argint_run me s p f) by done. cbn [obind].
  destruct (arg s p f n) as [fd|]; cbn [mbind option_bind]; [|by mrun]. unfold open_fd.
  destruct (Z.ltb_spec fd 0); [rewrite bool_decide_false by lia; by mrun|].
  destruct (Z.leb_spec (Z.of_nat NOFILE) fd); [rewrite bool_decide_false by lia; by mrun|]. rewrite bool_decide_true by lia. cbn [orb].
  rewrite bindE, (getp_run me p) by apply Hu. cbn [obind]. unfold rd, aget. destruct (Z.ltb_spec fd 0); [lia|].
  destruct (lookup_lt_is_Some_2 (ofile p) (Z.to_nat fd)) as [o Ho]; [lia|]. rewrite Ho. mrun. by destruct o.
Qed.

(** The state with descriptor [fd] referring to file [x]. *)
Definition with_fd (p : proc) (fd : nat) (x : nat) s : pstate E := upd me (p <| ofile ::= <[fd := Some x]> |>) s.

Lemma fdalloc_run s p x c :
  procs s !! me = Some p ->
  fdalloc me x c s = match free_fd p with
    | Some fd => Ok (Some (Z.of_nat fd)) c (with_fd p fd x s)
    | None => Ok None c s
    end.
Proof.
  intros Hp. unfold fdalloc, free_fd. rewrite bindE, (getp_run me p) by done. cbn [obind].
  destruct (find_index _ (ofile p)) as [fd|] eqn:Hf; [|by mrun]. assert (Hlt := find_index_lt _ _ _ Hf).
  unfold set_fd. rewrite bindE, bindE, (getp_run me p) by done. cbn [obind]. unfold wr, aset.
  destruct (Z.leb_spec 0 (Z.of_nat fd)), (Z.ltb_spec (Z.of_nat fd) (Z.of_nat (length (ofile p)))); try lia. cbn [andb].
  mrun. rewrite (setp_upd me _ c s p) by done. cbn [obind]. mrun. by rewrite Nat2Z.id.
Qed.

(** dup() of an open descriptor returns the lowest free one, makes it refer to
    the same open file and counts one more reference to that file; it fails and
    changes nothing when the descriptor is not open or none is free. *)
Theorem sys_dup_spec s p f x t :
  user_ok me s p f -> length (ofile p) = NOFILE ->
  (forall fd g, arg s p f 0 = Some fd -> open_fd p fd = Some g -> ftable (e_get (env s)) !! g = Some x /\ 0 < fref x < 2 ^ 31 - 1) ->
  match (fd ← arg s p f 0; open_fd p fd), free_fd p with
  | Some g, Some fd' =>
      exists s', sys_dup me (Ctx [] t) s = Ok (Z.of_nat fd') (Ctx [] t) s' /\
        procs s' = procs (with_fd p fd' g s) /\
        ftable (e_get (env s')) = <[g := x <| fref := fref x + 1 |>]> (ftable (e_get (env s)))
  | _, _ => sys_dup me (Ctx [] t) s = Ok (-1) (Ctx [] t) s
  end.
Proof.
  intros Hu Hl Hx. unfold sys_dup. rewrite bindE, (argfd_run s p f) by done. cbn [obind].
  destruct (arg s p f 0) as [fd|]; cbn [mbind option_bind]; [|by mrun]. specialize (Hx fd).
  destruct (open_fd p fd) as [g|]; cbn [mbind option_bind]; [|by mrun]. destruct (Hx g eq_refl eq_refl) as [Hg Hr].
  rewrite bindE, (fdalloc_run s p) by apply Hu. destruct (free_fd p) as [fd'|]; cbn [obind]; [|by mrun].
  set (s1 := with_fd p fd' g s). assert (Hp1 : procs s1 !! me = Some (p <| ofile ::= <[fd' := Some g]> |>)) by (by eapply lookup_upd, Hu).
  rewrite bindE. unfold onfile. rewrite bindE, (getp_run me _ _ _ Hp1). cbn [obind]. unfold lift, zoom. mrun.
  change (env s1) with (env s). erewrite (filedup_run g x); [|done|done]. cbn [obind]. mrun.
  eexists. split; [reflexivity|]. split; [done|]. cbn [env update]. simpl. by rewrite e_get_put.
Qed.
End SysfileSpec.

(** ** Witness: descriptor 3 of a process that has it open *)

Definition denv : Type := gmap Z Z * fstate (lstate (bcache memdisk)).

#[export] Instance denv_files : FileEnv denv (lstate (bcache memdisk)) := {| e_get := snd; e_put k e := (e.1, k) |}.

#[export] Instance denv_files_ok : FileEnvOk denv (lstate (bcache memdisk)).
Proof. by split. Qed.

#[export] Instance denv_user : UserOps denv := {|
  u_load a := e ← getS; of_option (e.1 !! a);
  u_store a b := modS (fun e : denv => (<[a := b]> e.1, e.2));
|}.

#[export] Instance denv_user_ok : UserOpsOk denv.
Proof. refine {| u_mem := fun e a => e.1 !! a |}. intros a b c e Hb. unfold u_load. simpl. mrun. by rewrite Hb. Defined.

#[export] Instance denv_kernel : KernelOps denv := {|
  k_kalloc := mret 0; k_kfree _ := mret tt; k_setupkvm := mret 0; k_inituvm _ := mret tt;
  k_allocuvm _ _ n := mret n; k_deallocuvm _ _ n := mret n; k_copyuvm _ _ := mret 0; k_freevm _ := mret tt;
  k_switchuvm _ _ := mret tt; k_switchkvm := mret tt; k_filedup _ := mret tt; k_fileclose _ := mret tt;
  k_idup _ := mret tt; k_iput _ := mret tt; k_namei _ := mret None; k_begin_op := mret tt; k_end_op := mret tt;
  k_iinit _ := mret tt; k_initlog _ := mret tt;
|}.

Definition fd_proc : proc := user_proc <| ofile := [None; None; None; Some 0%nat] ++ replicate 12 None |>.
Definition fd_file : file := mkfile FD_INODE 1 1 1 0 1 0.
Definition fd_state : pstate denv :=
  mkpstate [fd_proc] None 4 (replicate 5 (replicate 64 None)) [-1; -1; -1; -1; -1] 30 false (Some 0%nat)
    (user_mem, mkfstate [fd_file] (mkfs demo_ic demo_sb (fs_store 0)) ∅ (mkkmem ∅ false 0) 0).

Lemma fd_state_ok : user_ok 0 fd_state fd_proc user_tf.
Proof. split; [done|done|exact (uo_size _ _ _ _ user_state_ok)|exact (uo_map _ _ _ _ user_state_ok)]. Qed.

Lemma sys_dup_spec_witness :
  exists s', sys_dup 0 (Ctx [] []) fd_state = Ok 0 (Ctx [] []) s' /\ fref <$> ftable (e_get (env s')) !! 0%nat = Some 2.
Proof.
  assert (E1 : arg fd_state fd_proc user_tf 0 = Some 3) by (vm_compute; reflexivity).
  assert (E2 : open_fd fd_proc 3 = Some 0%nat) by (vm_compute; reflexivity).
  assert (E3 : free_fd fd_proc = Some 0%nat) by (vm_compute; reflexivity).
  pose proof (sys_dup_spec 0 fd_state fd_proc user_tf fd_file [] fd_state_ok eq_refl) as Hd.
  rewrite E1, E3 in Hd. cbn [mbind option_bind] in Hd. rewrite E2 in Hd. destruct Hd as (s' & Hrun & _ & Ht).
  { intros fd g [= <-] Hg. rewrite E2 in Hg. injection Hg as <-. split; [reflexivity|cbn; lia]. }
  exists s'. split; [exact Hrun|]. rewrite Ht. reflexivity.
Defined.
