(* ===== verification/Ide.v ===== *)
(** * The IDE driver (src/ide.c)

    The requests wait in a chain of buffers, [idequeue] and the [qnext] fields;
    the first of them is the one the controller works on.  The controller is
    hardware: [IdeCtl] is its registers as the driver uses them, [IdeCtlOk] what
    the driver relies on, and [simctl] a controller that does it.  The theorems
    say that the chain is a queue served in order, under any interleaving of
    requests and interrupts, and that the driver satisfies the contract
    [DriverOk] of the buffer cache. *)

From stdpp Require Import prelude gmap strings list.
From Stdlib Require Import ZArith Lia.
From S2P Require Import Prelude Sleeplock Bio BioSpec.

Definition SECTOR_SIZE : Z := 512.
Definition FSSIZE : Z := 1000.
Definition IDE_BSY : Z := 128.
Definition IDE_DRDY : Z := 64.
Definition IDE_DF : Z := 32.
Definition IDE_ERR : Z := 1.
Definition IDE_CMD_READ : Z := 32.
Definition IDE_CMD_WRITE : Z := 48.
Definition IDE_CMD_RDMUL : Z := 196.
Definition IDE_CMD_WRMUL : Z := 197.
Definition IRQ_IDE : Z := 14.

(** ** The controller *)

Class IdeCtl (C : Type) := {
  c_inb : Z -> C -> Z * C;
  c_outb : Z -> Z -> C -> C;
  c_outsl : list Z -> C -> C;          (* outsl() to the data port *)
  c_insl : C -> list Z * C;            (* insl() of a sector from it *)
  polls : nat;                         (* the polls after which it is ready *)
}.

Record ide (C : Type) := mkide {
  idequeue : option nat;
  qnext : gmap nat nat;                (* b->qnext of each buffer; absent is 0 *)
  havedisk1 : bool;
  ctl : C;
}.
Arguments mkide {C} _ _ _ _.
Arguments idequeue {C} _.
Arguments qnext {C} _.
Arguments havedisk1 {C} _.
Arguments ctl {C} _.

#[export] Instance ide_settable C : Settable (ide C) :=
  fun d => mkide (idequeue d) (qnext d) (havedisk1 d) (ctl d).

Section Ide.
Context {C : Type} `{IdeCtl C}.
Implicit Types (i : nat) (s : bcache (ide C)).

Definition modd (f : ide C -> ide C) : M (bcache (ide C)) unit := modS (fun s => s <| disk ::= f |>).

Definition inb (port : Z) : M (bcache (ide C)) Z :=
  s ← getS;
  let '(v, c') := c_inb port (ctl (disk s)) in
  modd (fun d => d <| ctl := c' |>) ;;
  mret v.

Definition outb (port v : Z) : M (bcache (ide C)) unit :=
  modd (fun d => d <| ctl ::= c_outb port (u8 v) |>).

Fixpoint idewait_loop (fuel : nat) : M (bcache (ide C)) Z :=
  match fuel with
  | O => nofuel
  | S fuel' =>
      r ← inb 0x1f7;
      if Z.land r (Z.lor IDE_BSY IDE_DRDY) =? IDE_DRDY then mret r else idewait_loop fuel'
  end.

Definition idewait (checkerr : bool) : M (bcache (ide C)) Z :=
  r ← idewait_loop polls;
  mret (if checkerr && negb (Z.land r (Z.lor IDE_DF IDE_ERR) =? 0) then -1 else 0).

(** [for(i=0; i<1000; i++) if(inb(0x1f7) != 0)...] *)
Fixpoint probe (n : nat) : M (bcache (ide C)) unit :=
  match n with
  | O => mret tt
  | S n' =>
      r ← inb 0x1f7;
      if negb (r =? 0) then modd (fun d => d <| havedisk1 := true |>) else probe n'
  end.

Definition ideinit (ncpu : Z) : M (bcache (ide C)) unit :=
  initlock Lide "ide" ;;
  emit (Eioapic IRQ_IDE (ncpu - 1)) ;;
  idewait false ;;
  outb 0x1f6 (Z.lor 0xe0 (Z.shiftl 1 4)) ;;
  probe 1000 ;;
  outb 0x1f6 (Z.lor 0xe0 (Z.shiftl 0 4)).

(** The data of a write reaches the disk with outsl(). *)
Definition idestart (o : option nat) : M (bcache (ide C)) unit :=
  match o with
  | None => panic "idestart"
  | Some i =>
      b ← getb i;
      if FSSIZE <=? blockno b then panic "incorrect blockno" else
      let sector_per_block := BSIZE / SECTOR_SIZE in
      let sector := s32 (blockno b * sector_per_block) in
      let read_cmd := if sector_per_block =? 1 then IDE_CMD_READ else IDE_CMD_RDMUL in
      let write_cmd := if sector_per_block =? 1 then IDE_CMD_WRITE else IDE_CMD_WRMUL in
      if 7 <? sector_per_block then panic "idestart" else
      idewait false ;;
      outb 0x3f6 0 ;;
      outb 0x1f2 sector_per_block ;;
      outb 0x1f3 (Z.land sector 0xff) ;;
      outb 0x1f4 (Z.land (Z.shiftr sector 8) 0xff) ;;
      outb 0x1f5 (Z.land (Z.shiftr sector 16) 0xff) ;;
      outb 0x1f6 (Z.lor (Z.lor 0xe0 (Z.shiftl (Z.land (dev b) 1) 4)) (Z.land (Z.shiftr sector 24) 0x0f)) ;;
      if dirty b then
        outb 0x1f7 write_cmd ;;
        modd (fun d => d <| ctl ::= c_outsl (data b) |>) ;;
        emit (Edisk (blockno b) (data b))
      else outb 0x1f7 read_cmd
  end.

(** The data of a read is taken, and the buffer is now valid and clean. *)
Definition finish i : M (bcache (ide C)) unit :=
  b ← getb i;
  r ← (if dirty b then mret (-1) else idewait true);
  (if negb (dirty b) && (0 <=? r) then
     s ← getS;
     let '(l, c') := c_insl (ctl (disk s)) in
     modd (fun d => d <| ctl := c' |>) ;;
     modb i (fun b => b <| data := l |>)
   else mret tt) ;;
  modb i (fun b => b <| flags ::= fun f => Z.lor f B_VALID |>) ;;
  modb i (fun b => b <| flags ::= fun f => Z.land f (Z.lnot B_DIRTY) |>).

Definition ideintr : M (bcache (ide C)) unit :=
  acquire Lide ;;
  s ← getS;
  match idequeue (disk s) with
  | None => release Lide
  | Some i =>
      modd (fun d => d <| idequeue := qnext d !! i |>) ;;
      finish i ;;
      wakeup (Cbuf i) ;;
      s ← getS;
      (if bool_decide (idequeue (disk s) <> None) then idestart (idequeue (disk s)) else mret tt) ;;
      release Lide
  end.

(** The walk of iderw() to the end of the queue: the buffer, from [i] on, whose
    [qnext] is the first empty link. *)
Fixpoint last_link (qn : gmap nat nat) (i : nat) (fuel : nat) : option nat :=
  match fuel with
  | O => None
  | S fuel' => match qn !! i with None => Some i | Some j => last_link qn j fuel' end
  end.

Definition append i : M (bcache (ide C)) unit :=
  modd (fun d => d <| qnext ::= delete i |>) ;;
  s ← getS;
  let d := disk s in
  match idequeue d with
  | None => modd (fun d => d <| idequeue := Some i |>)
  | Some h =>
      match last_link (qnext d) h (Datatypes.S (size (qnext d))) with
      | Some l => modd (fun d => d <| qnext ::= <[l := i]> |>)
      | None => nofuel
      end
  end.

(** The part of iderw() that queues the request. *)
Definition enqueue i : M (bcache (ide C)) unit :=
  append i ;;
  s ← getS;
  if bool_decide (idequeue (disk s) = Some i) then idestart (Some i) else mret tt.

(** [while((b->flags & (B_VALID|B_DIRTY)) != B_VALID) sleep(b, &idelock);] *)
Fixpoint iderw_wait i (env : list (bcache (ide C) -> bcache (ide C))) : M (bcache (ide C)) unit :=
  b ← getb i;
  if Z.land (flags b) (Z.lor B_VALID B_DIRTY) =? B_VALID then mret tt else
  match env with
  | [] => sleep (Cbuf i) Lide [] ;; undef
  | f :: env' => sleep (Cbuf i) Lide [f] ;; iderw_wait i env'
  end.

Definition ide_iderw (env : list (bcache (ide C) -> bcache (ide C))) (pid : Z) i : M (bcache (ide C)) unit :=
  h ← holding_buf pid i;
  if negb h then panic "iderw: buf not locked" else
  b ← getb i;
  if Z.land (flags b) (Z.lor B_VALID B_DIRTY) =? B_VALID then panic "iderw: nothing to do" else
  s ← getS;
  if negb (dev b =? 0) && negb (havedisk1 (disk s)) then panic "iderw: ide disk 1 not present" else
  acquire Lide ;;
  enqueue i ;;
  iderw_wait i env ;;
  release Lide.

(** What an interrupt does to the machine while a thread sleeps. *)
Definition interrupt s : bcache (ide C) :=
  match ideintr (Ctx [] []) s with Ok _ _ s' => s' | _ => s end.
End Ide.

(** ** What the driver relies on *)

(** A command waits for its data in [Writing], and has its data ready to be taken
    in [Reading]. *)
Inductive phase := Idle | Reading (drive lba : Z) | Writing (drive lba : Z).

Fixpoint poll {C} `{IdeCtl C} (fuel : nat) (c : C) : option (Z * C) :=
  match fuel with
  | O => None
  | S fuel' =>
      let '(r, c') := c_inb 0x1f7 c in
      if Z.land r (Z.lor IDE_BSY IDE_DRDY) =? IDE_DRDY then Some (r, c') else poll fuel' c'
  end.

Class IdeCtlOk (C : Type) `{IdeCtl C} := {
  cphase : C -> phase;
  cregs : C -> Z -> Z;
  platter : C -> Z -> Z -> list Z;
  platter_length : forall c d x, length (platter c d x) = 512%nat;
  (* it becomes ready within [polls] looks at its status, and has no error *)
  poll_ok : forall c, (forall d x, cphase c <> Writing d x) ->
    exists r c', poll polls c = Some (r, c') /\ Z.land r (Z.lor IDE_DF IDE_ERR) = 0 /\
      cphase c' = cphase c /\ cregs c' = cregs c /\ platter c' = platter c;
  reg_ok : forall c p v, cphase c = Idle -> p ∈ [0x3f6; 0x1f2; 0x1f3; 0x1f4; 0x1f5; 0x1f6] -> 0 <= v < 256 ->
    cphase (c_outb p v c) = Idle /\ platter (c_outb p v c) = platter c /\
    forall p', cregs (c_outb p v c) p' = if p' =? p then v else cregs c p';
  (* a command is for the sector and drive in the registers *)
  command_ok : forall c v d x, cphase c = Idle -> v = IDE_CMD_READ \/ v = IDE_CMD_WRITE ->
    cregs c 0x3f6 = 0 -> cregs c 0x1f2 = 1 ->
    d = Z.land (Z.shiftr (cregs c 0x1f6) 4) 1 ->
    x = cregs c 0x1f3 + 2 ^ 8 * cregs c 0x1f4 + 2 ^ 16 * cregs c 0x1f5 + 2 ^ 24 * Z.land (cregs c 0x1f6) 0x0f ->
    cphase (c_outb 0x1f7 v c) = (if v =? IDE_CMD_READ then Reading d x else Writing d x) /\
    platter (c_outb 0x1f7 v c) = platter c;
  outsl_ok : forall c d x l, cphase c = Writing d x -> length l = 512%nat ->
    cphase (c_outsl l c) = Idle /\
    forall d' x', platter (c_outsl l c) d' x' = if (d' =? d) && (x' =? x) then l else platter c d' x';
  insl_ok : forall c d x, cphase c = Reading d x ->
    exists c', c_insl c = (platter c d x, c') /\ cphase c' = Idle /\ platter c' = platter c;
}.

(** ** The queue *)

Fixpoint links (qn : gmap nat nat) (i : nat) (q : list nat) : Prop :=
  match q with [] => qn !! i = None | j :: q' => qn !! i = Some j /\ links qn j q' end.

Definition queue {C} (d : ide C) (q : list nat) : Prop :=
  match q with [] => idequeue d = None | i :: q' => idequeue d = Some i /\ links (qnext d) i q' end.

Lemma links_delete qn k i q : k ∉ i :: q -> links qn i q -> links (delete k qn) i q.
Proof.
  revert i. induction q as [|j q IH]; intros i Hk; cbn; rewrite lookup_delete_ne by set_solver; [done|].
  intros [? ?]. split; [done|]. apply IH; set_solver.
Qed.

Lemma links_size qn i q : NoDup (i :: q) -> links qn i q -> (length q <= size qn)%nat.
Proof.
  revert qn i. induction q as [|j q IH]; intros qn i Hnd; cbn; [lia|]. intros [Hi Hl].
  apply NoDup_cons in Hnd as [Hni Hnd]. specialize (IH (delete i qn) j Hnd (links_delete _ _ _ _ Hni Hl)).
  rewrite map_size_delete, Hi in IH.
  assert (size qn <> 0%nat) by (intros Hz%map_size_empty_inv; by subst qn). lia.
Qed.

Lemma last_link_run qn i q fuel l :
  links qn i q -> (length q < fuel)%nat -> last (i :: q) = Some l -> last_link qn i fuel = Some l.
Proof.
  revert i fuel. induction q as [|j q IH]; intros i fuel; (destruct fuel; [cbn; lia|]); cbn [links last_link length].
  - intros -> _ [= <-]. done.
  - intros [-> Hl] Hf. rewrite last_cons_cons. apply IH; [done|lia].
Qed.

Lemma links_snoc qn i q l k :
  links qn i q -> last (i :: q) = Some l -> NoDup (i :: q) -> k ∉ i :: q -> qn !! k = None ->
  links (<[l := k]> qn) i (q ++ [k]).
Proof.
  revert i. induction q as [|j q IH]; intros i; cbn [links app].
  - intros _ [= <-] _ Hk Hn. split; [apply lookup_insert_eq|]. rewrite lookup_insert_ne by set_solver. done.
  - intros [Hi Hl] Hla [Hni Hnd]%NoDup_cons Hk Hn. rewrite last_cons_cons in Hla. split.
    + rewrite lookup_insert_ne; [done|]. intros <-. apply Hni. by apply last_Some_elem_of.
    + apply IH; try done. set_solver.
Qed.

(** ** Running the driver *)

Section IdeRuns.
Context {C : Type} `{IdeCtlOk C}.
Implicit Types (i : nat) (s : bcache (ide C)) (b : buf).

Definition set_ctl s (c : C) : bcache (ide C) := s <| disk ::= fun d => d <| ctl := c |> |>.

Lemma append_run i q c s :
  queue (disk s) q -> NoDup q -> i ∉ q ->
  exists d, append i c s = Ok tt c (s <| disk := d |>) /\ queue d (q ++ [i]) /\
    ctl d = ctl (disk s) /\ havedisk1 d = havedisk1 (disk s).
Proof.
  intros Hq Hnd Hi. unfold append, modd. mrun. destruct s as [bs lr [hd qn h1 ct]]. cbn -[last_link] in Hq |- *.
  destruct q as [|h q]; cbn in Hq.
  - subst hd. eexists. split; [reflexivity|]. cbn. by rewrite lookup_delete_eq.
  - destruct Hq as [-> Hl]. apply (links_delete _ i) in Hl; [|done].
    destruct (last (h :: q)) as [l|] eqn:Hla; [|by apply last_None in Hla].
    rewrite (last_link_run _ _ q _ l); [|done|pose proof (links_size _ _ _ Hnd Hl); lia|done].
    eexists. split; [reflexivity|]. cbn. split_and!; try done.
    apply links_snoc; try done. apply lookup_delete_eq.
Qed.

Lemma idewait_loop_run fuel c s :
  idewait_loop fuel c s = match poll fuel (ctl (disk s)) with Some (r, c') => Ok r c (set_ctl s c') | None => NoFuel end.
Proof.
  revert s. induction fuel as [|fuel IH]; intros s; [done|]. cbn [idewait_loop poll]. unfold inb at 1. mrun.
  destruct (c_inb _ _) as [r c']. unfold modd. mrun. destruct (_ =? _); [done|]. rewrite IH. done.
Qed.

Lemma idewait_run e c s :
  (forall d x, cphase (ctl (disk s)) <> Writing d x) ->
  exists c', idewait e c s = Ok 0 c (set_ctl s c') /\ cphase c' = cphase (ctl (disk s)) /\
    cregs c' = cregs (ctl (disk s)) /\ platter c' = platter (ctl (disk s)).
Proof.
  intros Hp. destruct (poll_ok _ Hp) as (r & c' & Hpoll & Hr & Hsame). exists c'. split; [|done].
  unfold idewait. rewrite bindE, idewait_loop_run, Hpoll. cbn [obind]. rewrite Hr. by rewrite andb_false_r.
Qed.

(** A register write, when the controller is idle. *)
Lemma outb_run p v c s :
  outb p v c s = Ok tt c (set_ctl s (c_outb p (u8 v) (ctl (disk s)))).
Proof. done. Qed.

(** The four address registers spell the sector. *)
Lemma address x :
  0 <= x < 1000 ->
  u8 (Z.land x 0xff) + 2 ^ 8 * u8 (Z.land (Z.shiftr x 8) 0xff) + 2 ^ 16 * u8 (Z.land (Z.shiftr x 16) 0xff) = x /\
  Z.land (Z.shiftr x 24) 0x0f = 0.
Proof.
  intros Hx. change 0xff with (Z.ones 8). change 0x0f with (Z.ones 4).
  rewrite !Z.land_ones, !Z.shiftr_div_pow2, !u8_small by (lia || apply (Z.mod_pos_bound _ 256); lia).
  rewrite (Z.div_small x (2 ^ 16)), (Z.div_small x (2 ^ 24)) by lia. pose proof (Z.div_mod x 256).
  assert (0 <= x / 256 < 4) by (split; [apply Z.div_pos|apply Z.div_lt_upper_bound]; lia).
  change (2 ^ 8) with 256. rewrite (Z.mod_small (x / 256)) by lia. split; [|done]. change (0 mod 256) with 0. lia.
Qed.

Lemma drive_bits d :
  u8 (Z.lor (Z.lor 0xe0 (Z.shiftl (Z.land d 1) 4)) 0) = 0xe0 + 16 * Z.land d 1 /\
  Z.land (Z.shiftr (0xe0 + 16 * Z.land d 1) 4) 1 = Z.land d 1 /\ Z.land (0xe0 + 16 * Z.land d 1) 0x0f = 0.
Proof.
  assert (Z.land d 1 = 0 \/ Z.land d 1 = 1) as [-> | ->]; [|done..].
  pose proof (Z.land_ones d 1) as E. change (Z.ones 1) with 1 in E. rewrite E by lia. pose proof (Z.mod_pos_bound d (2 ^ 1)). lia.
Qed.

(** Writes to a series of registers. *)
Definition set_regs (l : list (Z * Z)) (c : C) : C := foldl (fun c '(p, v) => c_outb p (u8 v) c) c l.

Lemma set_regs_ok l c :
  cphase c = Idle -> Forall (fun x => x.1 ∈ [0x3f6; 0x1f2; 0x1f3; 0x1f4; 0x1f5; 0x1f6]) l ->
  cphase (set_regs l c) = Idle /\ platter (set_regs l c) = platter c /\
  forall p, cregs (set_regs l c) p = foldl (fun r '(q, v) => if p =? q then u8 v else r) (cregs c p) l.
Proof.
  revert c. induction l as [|[q v] l IH]; intros c Hc Hl; [done|]. apply Forall_cons in Hl as [Hq Hl].
  destruct (reg_ok c q (u8 v) Hc Hq (u8_range v)) as (Hc' & Hp' & Hr'). destruct (IH _ Hc' Hl) as (? & Hp & Hr).
  split_and!; [done|by rewrite <- Hp'|]. intros p. by rewrite Hr, Hr'.
Qed.

(** The sectors after the request of a buffer, and the controller that works on
    it. *)
Definition plat_after b (pl : Z -> Z -> list Z) : Z -> Z -> list Z := fun d x =>
  if dirty b && (d =? Z.land (dev b) 1) && (x =? blockno b) then data b else pl d x.

Definition started b (pl : Z -> Z -> list Z) (c : C) : Prop :=
  cphase c = (if dirty b then Idle else Reading (Z.land (dev b) 1) (blockno b)) /\
  forall d x, platter c d x = plat_after b pl d x.

Definition writes_of b : list event := if dirty b then [Edisk (blockno b) (data b)] else [].

(** A buffer that asks for something the driver can do. *)
Definition pending b : Prop :=
  valid b && negb (dirty b) = false /\ 0 <= blockno b < FSSIZE /\ length (data b) = 512%nat.

(** The registers that name the sector of a buffer. *)
Definition regs_of b : list (Z * Z) :=
  [(0x3f6, 0); (0x1f2, 1); (0x1f3, Z.land (blockno b) 0xff); (0x1f4, Z.land (Z.shiftr (blockno b) 8) 0xff);
   (0x1f5, Z.land (Z.shiftr (blockno b) 16) 0xff);
   (0x1f6, Z.lor (Z.lor 0xe0 (Z.shiftl (Z.land (dev b) 1) 4)) (Z.land (Z.shiftr (blockno b) 24) 0x0f))].

Lemma command_run b v c :
  cphase c = Idle -> 0 <= blockno b < 1000 -> v = IDE_CMD_READ \/ v = IDE_CMD_WRITE ->
  let c' := c_outb 0x1f7 v (set_regs (regs_of b) c) in
  cphase c' = (if v =? IDE_CMD_READ then Reading else Writing) (Z.land (dev b) 1) (blockno b) /\ platter c' = platter c.
Proof.
  intros Hc Hx Hv c'. destruct (address (blockno b) Hx) as [Haddr Hhigh]. destruct (drive_bits (dev b)) as (Hd1 & Hd2 & Hd3).
  destruct (set_regs_ok (regs_of b) c) as (Hc1 & Hp1 & Hr1); [done|repeat constructor; set_solver|]. unfold c'. rewrite <- Hp1.
  unfold regs_of in *. rewrite Hhigh in *.
  replace ((if v =? IDE_CMD_READ then Reading else Writing) (Z.land (dev b) 1) (blockno b)) with
    (if v =? IDE_CMD_READ then Reading (Z.land (dev b) 1) (blockno b) else Writing (Z.land (dev b) 1) (blockno b)) by (by destruct (v =? _)).
  apply command_ok; try done; rewrite !Hr1; cbn -[Z.land Z.shiftr u8 Z.lor Z.shiftl]; rewrite ?Hd1, ?Hd2, ?Hd3; lia || done.
Qed.

Lemma idestart_run i b h t s :
  bufs s !! i = Some b -> pending b -> cphase (ctl (disk s)) = Idle ->
  exists c', idestart (Some i) (Ctx h t) s = Ok tt (Ctx h (t ++ writes_of b)) (set_ctl s c') /\
    started b (platter (ctl (disk s))) c'.
Proof.
  intros Hb (_ & Hx & Hlen) Hidle. unfold idestart. rewrite bindE, (getb_run i b) by done. cbn [obind].
  change (BSIZE / SECTOR_SIZE) with 1. rewrite Z.mul_1_r, (s32_small (blockno b)) by (unfold FSSIZE in Hx; lia).
  destruct (Z.leb_spec FSSIZE (blockno b)); [lia|]. change (7 <? 1) with false. change (1 =? 1) with true. cbn match.
  destruct (idewait_run false (Ctx h t) s) as (c0 & Hw & Hp0 & Hr0 & Hpl0); [by rewrite Hidle|].
  rewrite bindE, Hw. cbn [obind]. rewrite Hidle in Hp0. unfold writes_of, started, plat_after. destruct s as [bs lr d]. cbn [disk ctl] in *.
  destruct (dirty b); rewrite !bindE; cbn [obind outb modd].
  - destruct (command_run b IDE_CMD_WRITE c0) as [Hc Hp]; [done|done|by right|].
    destruct (outsl_ok _ _ _ (data b) Hc Hlen) as [Hc' Hp'].
    eexists. split; [reflexivity|]. split; [exact Hc'|]. intros d' x'. cbn [andb]. rewrite Hp'. by rewrite Hp, Hpl0.
  - destruct (command_run b IDE_CMD_READ c0) as [Hc Hp]; [done|done|by left|].
    eexists. rewrite app_nil_r. split; [reflexivity|]. split; [exact Hc|]. intros d' x'. cbn [andb]. rewrite <- Hpl0. exact (f_equal (fun f => f d' x') Hp).
Qed.

(** ** The driver as a queue of requests served in order *)

Record aide := mkaide {
  abufs : list buf;
  aqueue : list nat;
  aplat : Z -> Z -> list Z;
  aserved : list nat;
}.

Inductive ievent :=
| Request (i : nat)                (* iderw() up to its first sleep *)
| Interrupt                        (* ideintr() *)
| Owner (i : nat) (b : buf).       (* the owner of a buffer changes it *)

Definition pending_dec b : Decision (pending b).
Proof. unfold pending. apply _. Defined.
#[local] Existing Instance pending_dec.

(** A request is served by bringing the buffer and the disk in agreement. *)
Definition serve b (pl : Z -> Z -> list Z) : buf :=
  b <| flags ::= synced |> <| data := if dirty b then data b else pl (Z.land (dev b) 1) (blockno b) |>.

Definition astep (e : ievent) (a : aide) : option aide :=
  match e with
  | Request i =>
      b ← abufs a !! i;
      if decide (pending b /\ i ∉ aqueue a) then Some (mkaide (abufs a) (aqueue a ++ [i]) (aplat a) (aserved a)) else None
  | Interrupt =>
      match aqueue a with
      | [] => Some a
      | i :: q =>
          b ← abufs a !! i;
          Some (mkaide (<[i := serve b (aplat a)]> (abufs a)) q (plat_after b (aplat a)) (aserved a ++ [i]))
      end
  | Owner i b =>
      if decide (i ∉ aqueue a) then Some (mkaide (<[i := b]> (abufs a)) (aqueue a) (aplat a) (aserved a)) else None
  end.

Definition arun (es : list ievent) (a : aide) : option aide := foldl (fun o e => a ← o; astep e a) (Some a) es.

Lemma arun_None es : foldl (fun o e => a ← o; astep e a) None es = None.
Proof. by induction es. Qed.

Definition istep (e : ievent) : M (bcache (ide C)) unit :=
  match e with
  | Request i => acquire Lide ;; enqueue i ;; release Lide
  | Interrupt => ideintr
  | Owner i b => putb i b
  end.

Definition wakeups (t : list event) : list nat :=
  omap (fun e => match e with Ewakeup (Cbuf i) => Some i | _ => None end) t.

(** The write of the first request is on the disk before its interrupt comes. *)
Record ide_rel (t : list event) s (a : aide) : Prop := {
  ir_bufs : bufs s = abufs a;
  ir_queue : queue (disk s) (aqueue a);
  ir_nodup : NoDup (aqueue a);
  ir_pending : Forall (fun i => exists b, abufs a !! i = Some b /\ pending b) (aqueue a);
  ir_served : wakeups t = aserved a;
  ir_ctl : match aqueue a with
           | [] => cphase (ctl (disk s)) = Idle /\ forall d x, platter (ctl (disk s)) d x = aplat a d x
           | i :: _ => exists b, abufs a !! i = Some b /\ started b (aplat a) (ctl (disk s))
           end;
}.

Lemma serve_flags f : Z.land (Z.lor f B_VALID) (Z.lnot B_DIRTY) = synced f.
Proof. unfold synced. rewrite Z.land_lor_distr_l. done. Qed.

Lemma wakeups_app t t' : wakeups (t ++ t') = wakeups t ++ wakeups t'.
Proof. apply omap_app. Qed.

Lemma wakeups_writes b : wakeups (writes_of b) = [].
Proof. unfold writes_of. by destruct (dirty b). Qed.

Lemma started_ext b pl pl' c : (forall d x, pl d x = pl' d x) -> started b pl c -> started b pl' c.
Proof. intros Hpl [Hc Hp]. split; [done|]. intros d x. rewrite Hp. unfold plat_after. by rewrite Hpl. Qed.

Lemma queue_ctl (d : ide C) c q : queue d q -> queue (d <| ctl := c |>) q.
Proof. by destruct d, q. Qed.

Lemma request_sim t s a i a' :
  ide_rel t s a -> astep (Request i) a = Some a' ->
  exists t' s', istep (Request i) (Ctx [] t) s = Ok tt (Ctx [] t') s' /\ ide_rel t' s' a'.
Proof.
  intros [Hb Hq Hnd Hp Hs Hc]. cbn [astep istep]. destruct (abufs a !! i) as [b|] eqn:Hi; [|done]. cbn [mbind option_bind].
  case_decide as Hd; [|done]. destruct Hd as [Hpb Hni]. intros [= <-].
  destruct (append_run i (aqueue a) (Ctx [Lide] t) s Hq Hnd Hni) as (d & Hrun & Hqd & Hctl & _).
  mrun. unfold enqueue. rewrite bindE, Hrun. cbn [obind]. mrun.
  assert (Hnd' : NoDup (aqueue a ++ [i])) by (apply NoDup_app; split_and!; [done|set_solver|apply NoDup_singleton]).
  assert (Hp' : Forall (fun i => exists b, abufs a !! i = Some b /\ pending b) (aqueue a ++ [i])) by (apply Forall_app_2; [done|]; constructor; eauto).
  destruct (aqueue a) as [|h q] eqn:Eq; destruct Hqd as [Hh Hl].
  - rewrite bool_decide_true by done. destruct Hc as [Hidle Hpl].
    destruct (idestart_run i b [Lide] t (s <| disk := d |>)) as (c' & Hst & Hc'); [by cbn; rewrite Hb|done|by cbn; rewrite Hctl|].
    rewrite Hst. cbn [obind]. mrun. eexists _, _. split; [reflexivity|].
    constructor; cbn [app abufs aqueue aplat aserved]; try done.
    + by rewrite wakeups_app, wakeups_writes, app_nil_r.
    + exists b. split; [done|]. eapply started_ext; [|exact Hc']. intros. cbn. by rewrite Hctl.
  - rewrite bool_decide_false by (cbn; rewrite Hh; set_solver). mrun. eexists _, _. split; [reflexivity|].
    constructor; cbn [app abufs aqueue aplat aserved]; try done. cbn. by rewrite Hctl.
Qed.

Lemma finish_run i b pl c s :
  bufs s !! i = Some b -> started b pl (ctl (disk s)) ->
  exists c', finish i c s = Ok tt c ((set_ctl s c') <| bufs ::= <[i := serve b pl]> |>) /\
    cphase c' = Idle /\ forall d x, platter c' d x = plat_after b pl d x.
Proof.
  intros Hb [Hph Hpl]. unfold finish. rewrite bindE, (getb_run i b) by done. cbn [obind].
  assert (Hi : (i < length (bufs s))%nat) by (by eapply lookup_lt_Some).
  destruct (dirty b) eqn:Hd; cbn [negb andb].
  - exists (ctl (disk s)). mrun. rewrite (modb_run i b) by done. cbn [obind].
    erewrite modb_run by (cbn; apply list_lookup_insert_eq; lia). split; [|done]. f_equal.
    destruct s as [bs lr []], b. unfold serve. rewrite Hd. cbn. by rewrite list_insert_insert_eq, serve_flags.
  - destruct (idewait_run true c s) as (c0 & Hw & Hp0 & _ & Hpl0); [by rewrite Hph|].
    rewrite bindE, Hw. cbn [obind]. change (0 <=? 0) with true. cbn match. rewrite Hph in Hp0.
    destruct (insl_ok c0 _ _ Hp0) as (c1 & Hin & Hp1 & Hpl1). rewrite !bindE. unfold getS. cbn [obind].
    change (ctl (disk (set_ctl s c0))) with c0. rewrite Hin. exists c1. unfold modd. mrun.
    rewrite (modb_run i b) by done. cbn [obind]. rewrite bindE.
    do 2 (erewrite modb_run by (cbn; rewrite ?list_lookup_insert_eq by (rewrite ?length_insert; lia); reflexivity); cbn [obind]).
    split; [|split; [done|intros; by rewrite Hpl1, Hpl0]]. f_equal.
    rewrite Hpl0, Hpl. unfold serve, plat_after. rewrite Hd. destruct s as [bs lr []], b. cbn.
    by rewrite !list_insert_insert_eq, serve_flags.
Qed.

Lemma queue_pop (d : ide C) i q : links (qnext d) i q -> queue (d <| idequeue := qnext d !! i |>) q.
Proof. destruct d, q; cbn; [done|]. intros [-> ?]. done. Qed.

Lemma pending_after a i b q :
  i ∉ q -> Forall (fun j => exists b, abufs a !! j = Some b /\ pending b) q ->
  Forall (fun j => exists b', <[i := b]> (abufs a) !! j = Some b' /\ pending b') q.
Proof.
  intros Hi Hq. rewrite Forall_forall in Hq |- *. intros j Hj. rewrite list_lookup_insert_ne by (by intros ->). by apply Hq.
Qed.

(** The interrupt of the first request, up to the start of the next one. *)
Lemma ideintr_head i q b pl t s :
  queue (disk s) (i :: q) -> bufs s !! i = Some b -> started b pl (ctl (disk s)) ->
  exists d,
    let s2 := s <| bufs ::= <[i := serve b pl]> |> <| disk := d |> in
    ideintr (Ctx [] t) s =
      ((match q with [] => mret tt | j :: _ => idestart (Some j) end) ;; release Lide) (Ctx [Lide] (t ++ [Ewakeup (Cbuf i)])) s2 /\
    queue d q /\ havedisk1 d = havedisk1 (disk s) /\ cphase (ctl d) = Idle /\
    forall dr x, platter (ctl d) dr x = plat_after b pl dr x.
Proof.
  intros [Hh Hl] Hb Hst. apply queue_pop in Hl.
  destruct (finish_run i b pl (Ctx [Lide] t) (s <| disk ::= fun d => d <| idequeue := qnext d !! i |> |>)) as (c' & Hf & Hidle & Hpl); [done|done|].
  exists ((disk s) <| idequeue := qnext (disk s) !! i |> <| ctl := c' |>). split_and!; [|by apply queue_ctl|done..].
  unfold ideintr. mrun. rewrite Hh. unfold modd. mrun. rewrite Hf. cbn [obind]. unfold wakeup. mrun.
  destruct q as [|j q]; [rewrite bool_decide_false; [done|by intros Hx; apply Hx]|].
  destruct Hl as [Hj _]. rewrite bool_decide_true by (cbn in *; by rewrite Hj). cbn in Hj |- *. by rewrite Hj.
Qed.

Lemma interrupt_sim t s a a' :
  ide_rel t s a -> astep Interrupt a = Some a' ->
  exists t' s', istep Interrupt (Ctx [] t) s = Ok tt (Ctx [] t') s' /\ ide_rel t' s' a'.
Proof.
  intros Hrel. pose proof Hrel as [Hb Hq Hnd Hp Hs Hc]. cbn [astep istep]. destruct (aqueue a) as [|i q] eqn:Eq.
  { intros [= <-]. unfold ideintr. mrun. rewrite Hq. mrun. by eexists _, _. }
  destruct Hc as (b & Hi & Hst). rewrite Hi. cbn [mbind option_bind]. intros [= <-].
  apply NoDup_cons in Hnd as [Hni Hnd]. apply Forall_cons in Hp as [_ Hp]. apply (pending_after a i (serve b (aplat a))) in Hp; [|done].
  destruct (ideintr_head i q b (aplat a) t s Hq) as (d & Hrun & Hqd & _ & Hidle & Hpl); [by rewrite Hb|done|].
  rewrite Hrun. clear Hrun. set (s2 := s <| bufs ::= _ |> <| disk := d |>).
  assert (Hb2 : bufs s2 = <[i := serve b (aplat a)]> (abufs a)) by (cbn; by rewrite Hb).
  assert (Hw : wakeups (t ++ [Ewakeup (Cbuf i)]) = aserved a ++ [i]) by (by rewrite wakeups_app, Hs).
  destruct q as [|j q].
  - mrun. eexists _, _. split; [reflexivity|]. by constructor.
  - pose proof Hp as [(bj & Hbj & Hpj) _]%Forall_cons.
    destruct (idestart_run j bj [Lide] (t ++ [Ewakeup (Cbuf i)]) s2) as (c2 & Hst2 & Hc2); [by rewrite Hb2|done|done|].
    rewrite bindE, Hst2. cbn [obind]. mrun. eexists _, _. split; [reflexivity|]. constructor; try done.
    + by rewrite wakeups_app, wakeups_writes, app_nil_r.
    + exists bj. split; [done|]. by eapply started_ext; [|exact Hc2].
Qed.

Lemma istep_sim t s a e a' :
  ide_rel t s a -> astep e a = Some a' ->
  exists t' s', istep e (Ctx [] t) s = Ok tt (Ctx [] t') s' /\ ide_rel t' s' a'.
Proof.
  destruct e as [i| |i b]; [apply request_sim|apply interrupt_sim|].
  intros [Hb Hq Hnd Hp Hs Hc]. cbn. case_decide; [|done]. intros [= <-]. eexists _, _. split; [reflexivity|].
  constructor; cbn; try done; [by rewrite Hb|by apply pending_after|].
  destruct (aqueue a); [done|]. rewrite list_lookup_insert_ne by set_solver. done.
Qed.

(** C34: Under every interleaving of requests, interrupts and changes to buffers that
    are not queued, the chain of qnext fields is a queue: the requests are served in
    the order they came, each by one interrupt, which gives a buffer the current
    contents of its sector or the sector the contents of the buffer, and wakes the
    buffer's owner. *)
Theorem ide_refines t s a es a' :
  ide_rel t s a -> arun es a = Some a' ->
  exists t' s', mfor es istep (Ctx [] t) s = Ok tt (Ctx [] t') s' /\ ide_rel t' s' a'.
Proof.
  revert t s a. induction es as [|e es IH]; intros t s a Hrel; unfold arun; cbn [foldl mfor].
  { intros [= <-]. by eexists _, _. }
  cbn [mbind option_bind]. destruct (astep e a) as [a1|] eqn:He; [|by rewrite arun_None].
  intros Hrun. destruct (istep_sim t s a e a1 Hrel He) as (t1 & s1 & H1 & Hrel1).
  rewrite bindE, H1. cbn [obind]. by eapply IH.
Qed.

(** ** The contract of the buffer cache *)

(** A request that finds the queue empty is served by the interrupt that comes
    while its thread sleeps. *)
Lemma ide_iderw_alone pid i b t s :
  idequeue (disk s) = None -> havedisk1 (disk s) = true -> cphase (ctl (disk s)) = Idle ->
  bufs s !! i = Some b -> locked_by pid b -> pending b ->
  exists d,
    ide_iderw [interrupt] pid i (Ctx [] t) s =
      Ok tt (Ctx [] (t ++ writes_of b)) (s <| bufs ::= <[i := serve b (platter (ctl (disk s)))]> |> <| disk := d |>) /\
    idequeue d = None /\ havedisk1 d = true /\ cphase (ctl d) = Idle /\
    forall dr x, platter (ctl d) dr x = plat_after b (platter (ctl (disk s))) dr x.
Proof.
  intros Hq H1 Hidle Hb Hl Hp. assert (Hi : (i < length (bufs s))%nat) by (by eapply lookup_lt_Some).
  unfold ide_iderw. rewrite bindE, (holding_mine pid i b) by (done || set_solver). cbn [obind negb].
  rewrite bindE, (getb_run i b) by done. cbn [obind]. rewrite nothing_to_do, (proj1 Hp), bindE, getSE. cbn [obind].
  rewrite H1, andb_false_r. mrun.
  destruct (append_run i [] (Ctx [Lide] t) s) as (d & Happ & [Hh Hln] & Hctl & Hh1); [done|constructor|set_solver|].
  unfold enqueue. rewrite bindE, Happ. cbn [obind]. mrun. rewrite bool_decide_true by done.
  destruct (idestart_run i b [Lide] t (s <| disk := d |>)) as (c & Hst & Hc); [done|done|by cbn; rewrite Hctl|].
  rewrite Hst. cbn [obind iderw_wait]. set (s1 := set_ctl _ c).
  rewrite !bindE, (getb_run i b) by done. cbn [obind]. rewrite nothing_to_do, (proj1 Hp), bindE, sleep_alone. cbn [obind].
  destruct (ideintr_head i [] b (platter (ctl (disk s))) [] s1) as (d2 & Hrun & Hq2 & Hh2 & Hp2 & Hpl2); [by split|done| |].
  { eapply started_ext; [|exact Hc]. intros. cbn. by rewrite Hctl. }
  assert (Hint : interrupt s1 = s <| bufs ::= <[i := serve b (platter (ctl (disk s)))]> |> <| disk := d2 |>).
  { unfold interrupt. rewrite Hrun. mrun. done. }
  rewrite Hint. exists d2. split_and!; try done; [|by rewrite Hh2, <- H1, <- Hh1].
  rewrite bindE. erewrite getb_run by (cbn; by rewrite list_lookup_insert_eq by lia). cbn [obind].
  rewrite nothing_to_do, valid_bit, dirty_bit. cbn -[synced Z.testbit]. destruct (testbit_synced (flags b)) as [-> ->]. mrun. done.
Qed.
End IdeRuns.

#[export] Instance ide_driver {C} `{IdeCtl C} : DiskDriver (ide C) := {| iderw := ide_iderw [interrupt] |}.

(** The driver, when every request is waited for, satisfies the contract that the
    buffer cache relies on. *)
#[export] Instance ide_ok {C} `{IdeCtlOk C} : DriverOk (ide C).
Proof.
  refine {| dok := fun d => idequeue d = None /\ havedisk1 d = true /\ cphase (ctl d) = Idle;
            dsize := fun _ => FSSIZE; dblock := fun d x => platter (ctl d) 1 x |}.
  - intros d x _ _. apply platter_length.
  - intros pid i b t s (Hq & H1 & Hidle) Hb _ Hl Hdev Hx Hlen Hfl.
    destruct (ide_iderw_alone pid i b t s Hq H1 Hidle Hb Hl) as (d & Hrun & Hq' & H1' & Hidle' & Hpl); [done|].
    exists d, (writes_of b). unfold serve, plat_after in *. rewrite Hdev in *. change (Z.land ROOTDEV 1) with 1 in *. split_and!; try done.
    + unfold writes_of. by destruct (dirty b).
    + intros x _. rewrite Hpl. by rewrite andb_true_r.
Defined.

(** ** A controller *)

Record simctl := mksimctl {
  sregs : gmap Z Z;
  sphase : phase;
  sdisk : gmap (Z * Z) (list Z);
  sbusy : bool;                        (* the next look at the status finds it busy *)
}.

#[export] Instance simctl_settable : Settable simctl :=
  fun c => mksimctl (sregs c) (sphase c) (sdisk c) (sbusy c).

Definition sector_of (o : option (list Z)) : list Z := take 512 (default [] o ++ replicate 512 0).

Definition sim_command (v : Z) (c : simctl) : simctl :=
  let r p := default 0 (sregs c !! p) in
  let d := Z.land (Z.shiftr (r 0x1f6) 4) 1 in
  let x := r 0x1f3 + 2 ^ 8 * r 0x1f4 + 2 ^ 16 * r 0x1f5 + 2 ^ 24 * Z.land (r 0x1f6) 0x0f in
  c <| sphase := if v =? IDE_CMD_READ then Reading d x else Writing d x |> <| sbusy := true |>.

#[export] Instance simctl_ctl : IdeCtl simctl := {|
  c_inb p c := if sbusy c then (IDE_BSY, c <| sbusy := false |>) else (IDE_DRDY, c);
  c_outb p v c := if p =? 0x1f7 then sim_command v c else c <| sregs ::= <[p := v]> |>;
  c_outsl l c := match sphase c with Writing d x => c <| sphase := Idle |> <| sdisk ::= <[(d, x) := l]> |> | _ => c end;
  c_insl c := match sphase c with
              | Reading d x => (sector_of (sdisk c !! (d, x)), c <| sphase := Idle |>)
              | _ => (replicate 512 0, c)
              end;
  polls := 2;
|}.

#[export] Instance simctl_ok : IdeCtlOk simctl.
Proof.
  refine {| cphase := sphase; cregs c p := default 0 (sregs c !! p); platter c d x := sector_of (sdisk c !! (d, x)) |}.
  - intros c d x. unfold sector_of. rewrite length_take, length_app, length_replicate. lia.
  - intros [rg ph dk []] _; by eexists _, _.
  - intros c p v Hc Hp Hv. cbn [c_outb simctl_ctl]. destruct (Z.eqb_spec p 0x1f7) as [->|]; [exfalso; set_solver|].
    split_and!; [done|done|]. intros p'. cbn. destruct (Z.eqb_spec p' p) as [->|]; [by rewrite lookup_insert_eq|by rewrite lookup_insert_ne].
  - intros c v d x Hc Hv _ _ -> ->. done.
  - intros c d x l Hc Hl. cbn [c_outsl simctl_ctl]. rewrite Hc. split; [done|]. intros d' x'. cbn.
    destruct (Z.eqb_spec d' d) as [->|], (Z.eqb_spec x' x) as [->|]; cbn [andb]; try by rewrite lookup_insert_ne by congruence.
    rewrite lookup_insert_eq. unfold sector_of. change (default [] (Some l)) with l. by rewrite take_app_le, take_ge by lia.
  - intros c d x Hc. cbn [c_insl simctl_ctl]. rewrite Hc. by eexists.
Defined.

(** Two reads and a write of one sector: the second read finds what was written. *)
Definition demo_buf (f x : Z) (l : list Z) : buf := mkbuf f 1 x (mksleeplock 1 1) 1 l.
Definition demo_ide : bcache (ide simctl) :=
  mkbcache [demo_buf 0 7 (replicate 512 0); demo_buf B_DIRTY 7 (replicate 512 9); demo_buf 0 7 (replicate 512 0)] [0%nat; 1%nat; 2%nat]
    (mkide None ∅ true (mksimctl ∅ Idle {[ (1, 7) := replicate 512 5 ]} false)).
Definition demo_events : list ievent :=
  [Request 0; Request 1; Interrupt; Request 2; Interrupt; Interrupt].

Lemma ide_refines_witness :
  exists a' t' s', arun demo_events (mkaide (bufs demo_ide) [] (platter (ctl (disk demo_ide))) []) = Some a' /\
    mfor demo_events istep (Ctx [] []) demo_ide = Ok tt (Ctx [] t') s' /\ ide_rel t' s' a' /\
    aserved a' = [0%nat; 1%nat; 2%nat] /\ data <$> abufs a' = [replicate 512 5; replicate 512 9; replicate 512 9].
Proof.
  assert (Ha : exists a', arun demo_events (mkaide (bufs demo_ide) [] (platter (ctl (disk demo_ide))) []) = Some a' /\
    aserved a' = [0%nat; 1%nat; 2%nat] /\ data <$> abufs a' = [replicate 512 5; replicate 512 9; replicate 512 9]).
  { eexists. split; [vm_compute; reflexivity|]. split; vm_compute; reflexivity. }
  destruct Ha as (a' & Ha & Hs & Hd).
  destruct (ide_refines [] demo_ide (mkaide (bufs demo_ide) [] (platter (ctl (disk demo_ide))) []) demo_events a') as (t' & s' & Hrun & Hrel); [|exact Ha|].
  { constructor; cbn [aqueue abufs aplat aserved]; reflexivity || constructor; reflexivity. }
  exists a', t', s'. exact (conj Ha (conj Hrun (conj Hrel (conj Hs Hd)))).
Defined.
