(* ===== verification/Printf.v ===== *)
(** * printf() of the user library (src/printf.c)

    A call is modelled by the bytes it writes to its descriptor; the arguments
    behind the format are the words on the stack, and [str_at] is the memory that
    a pointer among them names.  [None] is an access outside the arguments or the
    buffer of printint().  The theorems: the numeral printed for an integer is the
    integer, read back by atoi(), and the state machine of printf() does what the
    conversions of the format say, one by one. *)

From stdpp Require Import prelude list.
From Stdlib Require Import ZArith Lia.
From S2P Require Import Prelude Strings.

(** "0123456789ABCDEF" *)
Definition digits : list Z := [48;49;50;51;52;53;54;55;56;57;65;66;67;68;69;70].

(** [do{ buf[i++] = digits[x % base]; }while((x /= base) != 0);] with the [buf] of
    16 bytes filled up to [i]; 32 turns are enough for a 32-bit [x]. *)
Fixpoint digits_loop (digs : list Z) (base x : Z) (buf : list Z) (fuel : nat) : option (list Z) :=
  match fuel with
  | O => None
  | S fuel' =>
      if (16 <=? length buf)%nat then None else
      d ← aget digs (x mod base);
      let x' := x / base in
      if x' =? 0 then Some (buf ++ [d]) else digits_loop digs base x' (buf ++ [d]) fuel'
  end.

Definition printint (xx base : Z) (sgn : bool) : option (list Z) :=
  let neg := sgn && (xx <? 0) in
  let x := if neg then u32 (- xx) else u32 xx in
  buf ← digits_loop digits base x [] 32;
  buf ← (if neg then if (16 <=? length buf)%nat then None else Some (buf ++ [45]) else Some buf);
  Some (reverse buf).

Section Printf.
(** The nul-terminated string at an address. *)
Context (str_at : Z -> list Z).

Definition null_str : list Z := [40;110;117;108;108;41].

(** What a conversion writes, and the arguments it leaves. *)
Definition convert (c : Z) (ap : list Z) : option (list Z * list Z) :=
  if c =? 100 then
    a ← head ap; o ← printint (s32 a) 10 true; Some (o, tail ap)
  else if (c =? 120) || (c =? 112) then
    a ← head ap; o ← printint (s32 a) 16 false; Some (o, tail ap)
  else if c =? 115 then
    s ← head ap; Some (if s =? 0 then null_str else str_at s, tail ap)
  else if c =? 99 then
    a ← head ap; Some ([u8 a], tail ap)
  else if c =? 37 then Some ([c], ap)
  else Some ([37; c], ap).

(** The loop over the format; [state] is 0 or '%'. *)
Fixpoint printf_loop (fmt : list Z) (state : Z) (ap : list Z) : option (list Z) :=
  match fmt with
  | [] => Some []
  | c :: fmt' =>
      if state =? 0 then
        if c =? 37 then printf_loop fmt' 37 ap
        else o ← printf_loop fmt' 0 ap; Some (c :: o)
      else if state =? 37 then
        '(o, ap') ← convert c ap; o' ← printf_loop fmt' 0 ap'; Some (o ++ o')
      else printf_loop fmt' state ap
  end.

Definition printf (fmt ap : list Z) : option (list Z) := printf_loop fmt 0 ap.
End Printf.

(** ** Numerals *)

(** The value of a numeral, most significant digit first. *)
Definition value (base : Z) (ds : list Z) : Z := foldl (fun n d => n * base + d) 0 ds.

Definition digit (d : Z) : Z := nth (Z.to_nat d) digits 0.

Definition numeral (base : Z) (ds : list Z) : Prop :=
  Forall (fun d => 0 <= d < base) ds /\ (ds = [0] \/ exists d ds', ds = d :: ds' /\ d <> 0).

Lemma value_snoc base ds d : value base (ds ++ [d]) = value base ds * base + d.
Proof. unfold value. by rewrite foldl_app. Qed.

Lemma aget_digit d : 0 <= d < 16 -> aget digits d = Some (digit d).
Proof.
  intros Hd. unfold aget, digit. destruct (Z.ltb_spec d 0); [lia|].
  destruct (lookup_lt_is_Some_2 digits (Z.to_nat d)) as [x Hx]; [cbn; lia|]. by rewrite nth_lookup, Hx.
Qed.

(** The loop puts the digits into the buffer, least significant first. *)
Lemma digits_loop_spec base k x buf fuel :
  2 <= base <= 16 -> 0 <= x < base ^ Z.of_nat k -> (1 <= k)%nat -> (length buf + k <= 16)%nat -> (k <= fuel)%nat ->
  exists ds, digits_loop digits base x buf fuel = Some (buf ++ reverse (digit <$> ds)) /\
    value base ds = x /\ numeral base ds /\ (length ds <= k)%nat.
Proof.
  intros Hb. revert x buf fuel. induction k as [|k IH]; intros x buf fuel Hx Hk Hl Hf; [lia|]. destruct fuel as [|fuel]; [lia|].
  cbn [digits_loop]. destruct (Nat.leb_spec 16 (length buf)); [lia|]. pose proof (Z.mod_pos_bound x base ltac:(lia)) as Hm.
  rewrite aget_digit by lia. cbn [mbind option_bind]. pose proof (Z.div_mod x base ltac:(lia)) as Hdm.
  destruct (Z.eqb_spec (x / base) 0) as [E|E].
  - exists [x mod base]. split_and!; [done|cbn; lia| |cbn; lia]. split; [by constructor|].
    destruct (decide (x mod base = 0)) as [->|]; [by left|right; by eexists _, _].
  - destruct k as [|k]; [rewrite Z.div_small in E by lia; done|].
    destruct (IH (x / base) (buf ++ [digit (x mod base)]) fuel) as (ds & Hrun & Hv & [Hd Hc] & Hlen); [|lia|rewrite length_app; cbn; lia|lia|].
    { split; [apply Z.div_pos; lia|]. apply Z.div_lt_upper_bound; [lia|]. rewrite <- Z.pow_succ_r by lia.
      replace (Z.succ (Z.of_nat (S k))) with (Z.of_nat (S (S k))) by lia. lia. }
    exists (ds ++ [x mod base]). rewrite Hrun, fmap_app, reverse_app, <- app_assoc. split_and!; [done|rewrite value_snoc; lia| |rewrite length_app; cbn; lia].
    split; [by apply Forall_app_2; [|constructor]|]. destruct Hc as [->|(d & ds' & -> & Hne)]; [by cbn in Hv|]. right. by eexists _, _.
Qed.

Lemma printint_spec xx base sgn :
  - 2 ^ 31 <= xx < 2 ^ 31 -> base = 10 \/ base = 16 ->
  let neg := sgn && (xx <? 0) in
  exists ds, printint xx base sgn = Some ((if neg then [45] else []) ++ (digit <$> ds)) /\
    numeral base ds /\ value base ds = (if neg then - xx else u32 xx).
Proof.
  intros Hx Hb neg. set (x := if neg then u32 (- xx) else u32 xx).
  assert (Hxr : 0 <= x < 10 ^ 10).
  { assert (0 <= x < 2 ^ 32) by (unfold x; destruct neg; apply u32_range). lia. }
  assert (Hpow : 10 ^ 10 <= base ^ Z.of_nat 10) by (destruct Hb as [-> | ->]; done).
  destruct (digits_loop_spec base 10 x [] 32) as (ds & Hrun & Hv & Hn & Hl); [lia|lia|lia|cbn; lia|lia|].
  exists ds. assert (Hxv : x = if neg then - xx else u32 xx).
  { unfold x, neg. destruct sgn; [|done]. cbn [andb]. destruct (Z.ltb_spec xx 0); [|done]. apply u32_small. lia. }
  rewrite <- Hxv. split_and!; try done. unfold printint. fold neg. fold x. rewrite Hrun. cbn [mbind option_bind app].
  destruct neg.
  - rewrite length_reverse, length_fmap. destruct (Nat.leb_spec 16 (length ds)); [lia|]. cbn [mbind option_bind].
    by rewrite reverse_app, reverse_involutive.
  - cbn [mbind option_bind]. by rewrite reverse_involutive.
Qed.

(** "%d" prints every int as its decimal numeral, with a sign exactly for the
    negative ones: atoi() reads the digits back as the absolute value, and there
    are no superfluous zeros.  The 16 bytes of the buffer are enough. *)
Theorem printf_roundtrip str_at xx :
  - 2 ^ 31 <= xx < 2 ^ 31 ->
  exists s, printf str_at [37; 100] [u32 xx] = Some ((if xx <? 0 then [45] else []) ++ s) /\
    atoi (s ++ [0]) = Some (s32 (Z.abs xx)) /\ (head s = Some 48 -> s = [48]).
Proof.
  intros Hx. destruct (printint_spec xx 10 true Hx) as (ds & Hp & [Hd Hc] & Hv); [by left|].
  exists (Z.add 48 <$> ds). assert (Hdig : digit <$> ds = Z.add 48 <$> ds).
  { apply list_fmap_ext. intros i d Hi. rewrite Forall_lookup in Hd. specialize (Hd i d Hi).
    assert (d = 0 \/ d = 1 \/ d = 2 \/ d = 3 \/ d = 4 \/ d = 5 \/ d = 6 \/ d = 7 \/ d = 8 \/ d = 9) by lia. naive_solver. }
  rewrite Hdig in Hp. cbn [andb] in Hp, Hv. split_and!.
  - unfold printf. cbn -[printint u32 s32]. replace (s32 (u32 xx)) with xx by (unfold s32, u32; rewrite Zplus_mod_idemp_l; fold (s32 xx); by rewrite s32_small).
    rewrite Hp. cbn. by rewrite app_nil_r.
  - rewrite atoi_spec; [|eapply Forall_impl; [exact Hd|cbn; lia]|lia]. change (digits_value ds) with (value 10 ds). rewrite Hv.
    destruct (Z.ltb_spec xx 0); [by rewrite Z.abs_neq by lia|]. by rewrite Z.abs_eq, u32_small by lia.
  - destruct Hc as [->|(d & ds' & -> & Hne)]; [done|]. cbn. intros [= Hz]. lia.
Qed.

Lemma printf_roundtrip_witness :
  exists s, printf (fun _ => []) [37; 100] [u32 (-2147483648)] = Some ((if -2147483648 <? 0 then [45] else []) ++ s) /\
    atoi (s ++ [0]) = Some (s32 (Z.abs (-2147483648))) /\ (head s = Some 48 -> s = [48]).
Proof. apply (printf_roundtrip (fun _ => []) (-2147483648)). lia. Defined.

(** ** The format *)

(** A format is a sequence of bytes to copy and conversions; a last '%' is dropped. *)
Inductive directive := Copy (c : Z) | Conv (c : Z).

Fixpoint directives (fmt : list Z) : list directive :=
  match fmt with
  | [] => []
  | c :: fmt' =>
      if c =? 37 then match fmt' with [] => [] | d :: fmt'' => Conv d :: directives fmt'' end
      else Copy c :: directives fmt'
  end.

Fixpoint render (str_at : Z -> list Z) (ds : list directive) (ap : list Z) : option (list Z) :=
  match ds with
  | [] => Some []
  | Copy c :: ds' => o ← render str_at ds' ap; Some (c :: o)
  | Conv c :: ds' => '(o, ap') ← convert str_at c ap; o' ← render str_at ds' ap'; Some (o ++ o')
  end.

(** The state machine of printf() does what the directives of the format say. *)
Theorem printf_spec str_at fmt ap : printf str_at fmt ap = render str_at (directives fmt) ap.
Proof.
  unfold printf. remember (length fmt) as n eqn:Hn. revert fmt ap Hn.
  induction n as [n IH] using lt_wf_ind. intros fmt ap ->. destruct fmt as [|c fmt]; [done|]. cbn [printf_loop directives].
  change (0 =? 0) with true. cbn match. destruct (c =? 37).
  - destruct fmt as [|d fmt]; [done|]. cbn [printf_loop render]. change (37 =? 0) with false. change (37 =? 37) with true. cbn match.
    destruct (convert str_at d ap) as [[o ap']|]; [|done]. cbn [mbind option_bind]. rewrite (IH (length fmt)) by (done || cbn; lia). done.
  - cbn [render]. rewrite (IH (length fmt)) by (done || cbn; lia). done.
Qed.
