(* ===== verification/UmallocSpec.v ===== *)
(** * The allocator keeps blocks apart (src/umalloc.c)

    The heap is described by the list of its blocks in the order of their
    addresses, each free or in use: [heap_ok] says that the free ones, behind
    [base], are the circular list in memory.  malloc() and free() are shown to
    split, flip and merge blocks of that list and to change no other block. *)

From stdpp Require Import prelude gmap strings list.
From Stdlib Require Import ZArith Lia.
From S2P Require Import Prelude Umalloc.

(** ** Chains of headers *)

(** A block: its address and its size in units of 8 bytes. *)
Abbreviation block := (Z * Z)%type.

Definition nxt (z : Z) (L : list block) : Z := match L with [] => z | (b, _) :: _ => b end.

Fixpoint chain (h : gmap Z header) (L : list block) (z : Z) : Prop :=
  match L with
  | [] => True
  | (a, n) :: L' => h !! a = Some (mkheader (nxt z L') n) /\ chain h L' z
  end.

Fixpoint asc (lo : Z) (L : list block) : Prop :=
  match L with [] => True | (a, _) :: L' => lo < a /\ asc a L' end.

Lemma chain_app h L1 L2 z : chain h (L1 ++ L2) z <-> chain h L1 (nxt z L2) /\ chain h L2 z.
Proof.
  induction L1 as [|[a n] L1 IH]; cbn [app chain]; [tauto|].
  replace (nxt z (L1 ++ L2)) with (nxt (nxt z L2) L1) by (by destruct L1 as [|[]]). rewrite IH. tauto.
Qed.

Lemma chain_link h L z a x : a ∉ L.*1 -> chain h L z -> chain (<[a := x]> h) L z.
Proof.
  induction L as [|[b n] L IH]; cbn; [done|]. intros Ha [Hb HL]. rewrite lookup_insert_ne by set_solver. split; [done|]. apply IH; set_solver.
Qed.

Lemma asc_lower lo L : asc lo L -> Forall (fun y => lo < y.1) L.
Proof.
  revert lo. induction L as [|[b m] L IH]; intros lo; cbn; [done|]. intros [Hb HL]. constructor; [done|].
  eapply Forall_impl; [by apply IH|]. cbn. lia.
Qed.

Lemma asc_weaken lo lo' L : lo' <= lo -> asc lo L -> asc lo' L.
Proof. destruct L as [|[b m] L]; cbn; [done|]. intros ? [? ?]. split; [lia|done]. Qed.

Lemma asc_raise lo lo' L : Forall (fun y => lo' < y.1) L -> asc lo L -> asc lo' L.
Proof. destruct L as [|[b m] L]; cbn; [done|]. intros [? _]%Forall_cons [? ?]. done. Qed.

Lemma asc_app lo L1 L2 : asc lo (L1 ++ L2) -> asc lo L1 /\ asc lo L2 /\ Forall (fun x => Forall (fun y => x.1 < y.1) L2) L1.
Proof.
  revert lo. induction L1 as [|[a n] L1 IH]; intros lo; cbn [app asc]; [done|]. intros [Hlo Ha]. destruct (IH a Ha) as (H1 & H2 & H3).
  split_and!; [done|done|apply (asc_weaken a); [lia|done]|]. constructor; [by apply asc_lower|done].
Qed.

Section Find.
Context {E : Type} `{Sbrk E}.
Implicit Types (s : heap E).

Lemma geth_run a h c s : hdr s !! a = Some h -> geth a c s = Ok h c s.
Proof. intros Ha. unfold geth. mrun. by rewrite Ha. Qed.

Lemma free_find_run bp p h fuel c s :
  hdr s !! p = Some h ->
  free_find bp p fuel c s =
    if ((p <? bp) && (bp <? ptr h)) || ((ptr h <=? p) && ((p <? bp) || (bp <? ptr h))) then Ok p c s
    else match fuel with O => NoFuel | S fuel' => free_find bp (ptr h) fuel' c s end.
Proof.
  intros Hp. destruct fuel; cbn [free_find]; rewrite bindE, (geth_run p h c s Hp); cbn [obind];
    destruct (p <? bp), (bp <? ptr h), (ptr h <=? p); done.
Qed.

(** The walk of free() to the last block [p] before [bp], from a block before it. *)
Lemma walk_fwd bp lo X p n Lb z c s fuel :
  chain (hdr s) (X ++ (p, n) :: Lb) z -> asc lo (X ++ [(p, n)]) -> p < bp ->
  match Lb with [] => z <= p | (b, _) :: _ => bp < b end -> (length X <= fuel)%nat ->
  free_find bp (nxt p X) fuel c s = Ok p c s.
Proof.
  revert lo fuel. induction X as [|[a m] X IH]; intros lo fuel Hch Hasc Hp Hb Hf; cbn [app chain asc nxt length] in *.
  - destruct Hch as [Hp0 _]. rewrite (free_find_run _ _ _ _ _ _ Hp0). cbn [ptr]. destruct Lb as [|[b m] Lb]; cbn [nxt] in *.
    + rewrite (proj2 (Z.ltb_lt p bp) Hp), (proj2 (Z.leb_le z p) Hb). cbn [andb orb]. by rewrite orb_true_r.
    + by rewrite (proj2 (Z.ltb_lt p bp) Hp), (proj2 (Z.ltb_lt bp b) Hb).
  - destruct Hch as [Ha Hch], Hasc as [Hlo Hasc]. rewrite (free_find_run _ _ _ _ _ _ Ha). cbn [ptr].
    replace (nxt z (X ++ (p, n) :: Lb)) with (nxt p X) by (by destruct X as [|[]]).
    assert (Hn : a < nxt p X <= p).
    { destruct X as [|[b k] X]; cbn in Hasc |- *; [lia|]. destruct Hasc as [? Hasc]. split; [done|].
      apply asc_lower, Forall_app in Hasc as [_ Hasc]. rewrite Forall_singleton in Hasc. cbn in Hasc. lia. }
    destruct (Z.ltb_spec bp (nxt p X)); [lia|]. destruct (Z.leb_spec (nxt p X) a); [lia|]. rewrite andb_false_r. cbn [andb orb].
    destruct fuel as [|fuel]; [lia|]. apply (IH a); try done; lia.
Qed.

(** From a block behind [bp] the walk goes on to the end of the list and to [z]. *)
Lemma walk_wrap bp lo Y z c s fuel :
  chain (hdr s) Y z -> asc lo Y -> bp <= lo -> z <= bp -> Y <> [] -> (length Y <= fuel)%nat ->
  free_find bp (nxt z Y) fuel c s = free_find bp z (fuel - length Y) c s.
Proof.
  revert lo fuel. induction Y as [|[a m] Y IH]; intros lo fuel Hch Hasc Hlo Hz Hne Hf; [done|]. cbn [chain asc nxt length] in *.
  destruct Hch as [Ha Hch], Hasc as [Hla Hasc]. rewrite (free_find_run _ _ _ _ _ _ Ha). cbn [ptr].
  destruct (Z.ltb_spec a bp); [lia|]. cbn [andb orb]. destruct fuel as [|fuel]; [lia|]. cbn [Nat.sub].
  destruct Y as [|[b k] Y]; cbn [nxt].
  - destruct (Z.ltb_spec bp z); [lia|]. rewrite andb_false_r. cbn [length]. by rewrite Nat.sub_0_r.
  - cbn [asc] in Hasc. destruct (Z.leb_spec b a); [lia|]. cbn [andb]. apply (IH a); [done|done|lia|done|done|lia].
Qed.

(** The walk finds the place of [bp] from wherever it starts. *)
Lemma free_find_spec bp lo La p n Lb q c s fuel :
  let L := La ++ (p, n) :: Lb in
  chain (hdr s) L (nxt 0 L) -> asc lo L -> p < bp ->
  Forall (fun y => bp < y.1) Lb -> q ∈ L.*1 -> (length L <= fuel)%nat ->
  free_find bp q fuel c s = Ok p c s.
Proof.
  intros L Hch Hasc Hp Hb Hq Hf. set (z := nxt 0 L) in *. destruct (asc_app _ _ _ Hasc) as (HascA & _ & Hlt).
  assert (Hz : z <= p).
  { unfold z, L. destruct La as [|[a m] La]; cbn; [lia|]. apply Forall_cons in Hlt as [Hl _]. apply Forall_cons in Hl as [Hl _]. cbn in Hl. lia. }
  assert (HL : L = (La ++ [(p, n)]) ++ Lb) by (by rewrite <- app_assoc). rewrite HL in Hasc, Hq.
  destruct (asc_app _ _ _ Hasc) as (Hasc1 & Hasc2 & Hlt2).
  assert (Hb' : match Lb with [] => z <= p | (b, _) :: _ => bp < b end) by (destruct Lb as [|[]]; [done|by apply Forall_cons in Hb as [? _]]).
  apply list_elem_of_fmap in Hq as ([q' m] & -> & Hq). cbn [fst]. apply elem_of_app in Hq as [Hq|Hq].
  - apply list_elem_of_split in Hq as (X & Y & HX). destruct Y as [|y Y _] using rev_ind.
    + apply app_inj_2 in HX as [-> [= -> ->]]; [|done]. apply chain_app in Hch as [_ Hch].
      apply (walk_fwd bp (q' - 1) [] q' m Lb z); cbn; try done; lia.
    + rewrite app_comm_cons, app_assoc in HX. apply app_inj_2 in HX as [-> [= <-]]; [|done].
      unfold L in Hch, Hf. rewrite <- app_assoc in Hch, Hasc1. apply chain_app in Hch as [_ Hch]. apply asc_app in Hasc1 as (_ & Hasc1 & _).
      apply (walk_fwd bp lo ((q', m) :: Y) p n Lb z); try done. rewrite !length_app in Hf. cbn in *. lia.
  - apply list_elem_of_split in Hq as (X & Y & HY). assert (Hch2 : chain (hdr s) ((q', m) :: Y) z).
    { rewrite HL, HY, app_assoc in Hch. by apply chain_app in Hch as [_ Hch]. }
    rewrite HY in Hasc2, Hb. apply asc_app in Hasc2 as (_ & Hasc2 & _). apply Forall_app in Hb as [_ Hb].
    apply (asc_raise lo bp) in Hasc2; [|done]. assert (Hlen : (length La + S (length Y) <= fuel)%nat).
    { rewrite HL, HY, !length_app in Hf. cbn in *. lia. }
    change q' with (nxt z ((q', m) :: Y)). rewrite (walk_wrap bp bp); try done; try lia; [|cbn; lia].
    replace z with (nxt p La) by (unfold z, L; by destruct La as [|[]]). apply (walk_fwd bp lo La p n Lb z); try done. cbn. lia.
Qed.
End Find.

(** ** The blocks of the heap *)

(** Address, size, and whether it is free; in ascending order between [lo] and [hi]. *)
Abbreviation cell := (Z * Z * bool)%type.

Fixpoint sorted_from (lo : Z) (T : list cell) (hi : Z) : Prop :=
  match T with
  | [] => lo <= hi
  | (a, n, _) :: T' => lo <= a /\ 1 <= n /\ sorted_from (a + 8 * n) T' hi
  end.

Definition pick (f : bool) (T : list cell) : list block :=
  omap (fun '(a, n, f') => if Bool.eqb f f' then Some (a, n) else None) T.
Abbreviation frees := (pick true).
Abbreviation used := (pick false).

Lemma pick_cons f a n f' T : pick f ((a, n, f') :: T) = (if Bool.eqb f f' then [(a, n)] else []) ++ pick f T.
Proof. unfold pick. cbn. by destruct (Bool.eqb f f'). Qed.

#[local] Arguments pick : simpl never.

Lemma sorted_app lo T1 T2 hi :
  sorted_from lo (T1 ++ T2) hi <-> exists mid, sorted_from lo T1 mid /\ sorted_from mid T2 hi.
Proof.
  revert lo. induction T1 as [|[[a n] f] T1 IH]; intros lo; cbn [app sorted_from].
  - split; [intros Hs; exists lo; split; [lia|done]|]. intros (mid & Hm & Hs).
    destruct T2 as [|[[a n] f] T2]; cbn in *; [lia|]. split; [lia|tauto].
  - rewrite IH. naive_solver.
Qed.

Lemma sorted_le lo T hi : sorted_from lo T hi -> lo <= hi.
Proof. revert lo. induction T as [|[[a n] f] T IH]; intros lo; cbn; [done|]. intros (? & ? & Hs). apply IH in Hs. lia. Qed.

Lemma sorted_mono lo lo' T hi hi' : lo' <= lo -> hi <= hi' -> sorted_from lo T hi -> sorted_from lo' T hi'.
Proof.
  revert lo lo'. induction T as [|[[a n] f] T IH]; intros lo lo'; cbn; [lia|]. intros ? ? (? & ? & Hs). split_and!; [lia|done|].
  eapply IH; [|done|exact Hs]. lia.
Qed.

Lemma sorted_in lo T hi a n f : sorted_from lo T hi -> (a, n, f) ∈ T -> lo <= a /\ 1 <= n /\ a + 8 * n <= hi.
Proof.
  intros Hs (T1 & T2 & ->)%list_elem_of_split. apply sorted_app in Hs as (mid & H1 & H2). cbn in H2.
  destruct H2 as (? & ? & H2%sorted_le). apply sorted_le in H1. lia.
Qed.

Lemma pick_app f T1 T2 : pick f (T1 ++ T2) = pick f T1 ++ pick f T2.
Proof. apply omap_app. Qed.

Lemma elem_of_pick f T a n : (a, n) ∈ pick f T <-> (a, n, f) ∈ T.
Proof.
  unfold pick. rewrite list_elem_of_omap. split.
  - intros ([[a' n'] f'] & Hin & Hx). destruct f, f'; cbn in Hx; by simplify_eq.
  - intros Hin. exists (a, n, f). split; [done|]. by destruct f.
Qed.

Lemma sorted_asc g lo T hi : sorted_from lo T hi -> asc (lo - 1) (pick g T).
Proof.
  revert lo. induction T as [|[[a n] f] T IH]; intros lo; [done|]. cbn [sorted_from]. intros (? & ? & Hs). apply IH in Hs.
  rewrite pick_cons. destruct (Bool.eqb g f); cbn; [split; [lia|]|]; (eapply asc_weaken; [|exact Hs]; lia).
Qed.

(** Different blocks have different addresses. *)
Lemma sorted_apart lo T hi a n f a' n' f' :
  sorted_from lo T hi -> (a, n, f) ∈ T -> (a', n', f') ∈ T -> (a, n, f) = (a', n', f') \/ a + 8 * n <= a' \/ a' + 8 * n' <= a.
Proof.
  intros Hs Hin Hin'. apply list_elem_of_split in Hin as (T1 & T2 & ->). apply sorted_app in Hs as (mid & H1 & H2). cbn in H2.
  destruct H2 as (Hm & Hn & H2). apply elem_of_app in Hin' as [Hin'|[Heq|Hin']%elem_of_cons].
  - pose proof (sorted_in _ _ _ _ _ _ H1 Hin'). lia.
  - by left.
  - pose proof (sorted_in _ _ _ _ _ _ H2 Hin'). lia.
Qed.

(** A free block that ends where the rest begins is the last one. *)
Lemma last_free lo T1 b F p m :
  sorted_from lo T1 b -> frees T1 = F ++ [(p, m)] -> p + 8 * m = b -> exists T, T1 = T ++ [(p, m, true)] /\ frees T = F.
Proof.
  intros Hs HF Hb. destruct T1 as [|[[x k] f] T _] using rev_ind; [by destruct F|].
  rewrite pick_app, pick_cons in HF. destruct f; cbn [Bool.eqb app] in HF; change (frees []) with (@nil block) in HF.
  - apply app_inj_2 in HF as [<- [= -> ->]]; [|done]. by exists T.
  - rewrite app_nil_r in HF. assert (Hin : (p, m, true) ∈ T) by (apply elem_of_pick; rewrite HF; set_solver).
    apply sorted_app in Hs as (mid & H1 & H2). cbn in H2. pose proof (sorted_in _ _ _ _ _ _ H1 Hin). lia.
Qed.

(** A free block that begins where the last one ends is the next one. *)
Lemma first_free lo T2 hi x k F :
  sorted_from lo T2 hi -> frees T2 = (x, k) :: F -> x = lo -> exists T, T2 = (x, k, true) :: T /\ frees T = F.
Proof.
  intros Hs HF ->. destruct T2 as [|[[y j] f] T]; [done|]. cbn in Hs. destruct Hs as (Hy & Hj & Hs). rewrite pick_cons in HF. destruct f; cbn [Bool.eqb app] in HF.
  - injection HF as -> -> <-. by exists T.
  - assert (Hin : (lo, k, true) ∈ T) by (apply elem_of_pick; rewrite HF; set_solver). pose proof (sorted_in _ _ _ _ _ _ Hs Hin). lia.
Qed.

(** ** free() *)

(** What sbrk() promises: memory above all it gave out before, or nothing. *)
Class SbrkOk (E : Type) `{Sbrk E} := {
  top : E -> Z;
  top_range : forall e, 0 < top e < 2 ^ 31;
  sbrk_ok : forall n e, 0 <= n < 2 ^ 31 ->
    let '(r, e') := sbrk n e in
    (r = 4294967295 /\ top e' = top e) \/ (top e <= r /\ top e' = r + n);
}.

Section Blocks.
Context {E : Type} `{SbrkOk E} (base : Z).
Implicit Types (s : heap E) (T : list cell).

Record heap_ok s T : Prop := {
  hk_base : 0 < base;
  hk_cycle : chain (hdr s) ((base, 0) :: frees T) base;
  hk_used : forall a n, (a, n) ∈ used T -> exists q, hdr s !! a = Some (mkheader q n);
  hk_sorted : sorted_from (base + 8) T (top (env s));
  hk_freep : freep s ∈ ((base, 0) :: frees T).*1;
}.

Lemma padd_small p n : 0 <= p + 8 * n < 2 ^ 32 -> padd p n = p + 8 * n.
Proof. intros Hp. unfold padd, HDRSIZE. by apply u32_small. Qed.

Lemma heap_ok_asc s T : heap_ok s T -> asc (base - 1) ((base, 0) :: frees T).
Proof.
  intros [Hb _ _ Hs _]. cbn. split; [lia|]. eapply asc_weaken; [|eapply (sorted_asc true), Hs]. lia.
Qed.

(** The headers of the list are all in memory. *)
Lemma chain_size h L z : NoDup L.*1 -> chain h L z -> (length L <= map_size h)%nat.
Proof.
  intros Hnd Hch. assert (Hsub : list_to_set L.*1 ⊆ dom h).
  { intros a Ha. rewrite elem_of_list_to_set in Ha. apply list_elem_of_fmap in Ha as ([b n] & -> & Hin). clear Hnd.
    induction L as [|[c k] L IH]; [by apply elem_of_nil in Hin|]. destruct Hch as [Hc Hch].
    apply elem_of_cons in Hin as [[= -> ->]|Hin]; [|by apply IH]. apply elem_of_dom. eauto. }
  apply subseteq_size in Hsub. rewrite size_list_to_set, length_fmap in Hsub by done. by rewrite size_dom in Hsub.
Qed.

Lemma asc_NoDup lo L : asc lo L -> NoDup L.*1.
Proof.
  revert lo. induction L as [|[a n] L IH]; intros lo; cbn; [constructor|]. intros [Hlo Ha]. constructor; [|by eapply IH].
  intros Hin. apply list_elem_of_fmap in Hin as ([b k] & -> & Hin). apply asc_lower in Ha. rewrite Forall_forall in Ha.
  specialize (Ha _ Hin). cbn in Ha. lia.
Qed.

(** The units in a list of blocks. *)
Definition units (F : list block) : Z := foldr (fun x u => x.2 + u) 0 F.

Lemma units_app F1 F2 : units (F1 ++ F2) = units F1 + units F2.
Proof. induction F1 as [|x F1 IH]; cbn; [done|]. unfold units in *. cbn. lia. Qed.

Lemma seth_run a h c s : seth a h c s = Ok tt c (s <| hdr ::= <[a := h]> |>).
Proof. done. Qed.

Lemma seth_bind {A} a h (f : M (heap E) A) c s : (seth a h ;; f) c s = f c (s <| hdr ::= <[a := h]> |>).
Proof. done. Qed.

Lemma setptr_run a q h c s : hdr s !! a = Some h -> setptr a q c s = Ok tt c (s <| hdr ::= <[a := h <| ptr := q |> ]> |>).
Proof. intros Ha. unfold setptr. rewrite bindE, (geth_run a h) by done. done. Qed.

(** The block [(b, n)] is joined with the free block that follows it, if that
    touches it. *)
Lemma join_next_run b n p m q T2 hi c s :
  hdr s !! b = Some (mkheader q n) -> hdr s !! p = Some (mkheader (nxt base (frees T2)) m) -> chain (hdr s) (frees T2) base ->
  0 < base -> base <= b -> 1 <= n -> sorted_from (b + 8 * n) T2 hi -> hi < 2 ^ 31 ->
  exists n1 T2r, join_next b p c s = Ok tt c (s <| hdr ::= <[b := mkheader (nxt base (frees T2r)) n1]> |>) /\
    chain (hdr s) (frees T2r) base /\ sorted_from (b + 8 * n1) T2r hi /\ n <= n1 /\ used T2r = used T2 /\
    units (frees T2r) + n1 = units (frees T2) + n /\ (length (frees T2r) <= length (frees T2))%nat.
Proof.
  intros Hb Hp Hch Hbase Hbb Hn Hs Hhi. pose proof (sorted_le _ _ _ Hs) as Hle. unfold join_next.
  rewrite bindE, (geth_run b _ _ _ Hb). cbn [obind]. rewrite bindE, (geth_run p _ _ _ Hp). cbn [obind ptr size].
  rewrite padd_small by lia.
  destruct (Z.eqb_spec (b + 8 * n) (nxt base (frees T2))) as [Heq|Hne].
  - destruct (frees T2) as [|[x k] F] eqn:HF; cbn [nxt] in Heq; [lia|]. cbn [chain nxt] in Hch, Hp. destruct Hch as [Hx Hch].
    destruct (first_free _ _ _ x k F Hs HF ltac:(done)) as (T & -> & <-). cbn [sorted_from] in Hs. destruct Hs as (_ & Hk & Hs).
    pose proof (sorted_le _ _ _ Hs). cbn [nxt]. rewrite bindE, (geth_run x _ _ _ Hx). cbn [obind ptr size]. rewrite u32_small by lia.
    exists (n + k), T. split_and!; [done|done| |lia|by rewrite pick_cons| |cbn; lia].
    + eapply sorted_mono; [| |exact Hs]; lia.
    + unfold units. cbn. lia.
  - rewrite (setptr_run b _ _ _ _ Hb). exists n, T2. split_and!; done || lia.
Qed.

(** The last free block before [b] is joined with [b], if it touches it. *)
(** The last free block before [b] is joined with [b], or linked to it. *)
Lemma join_prev_run b n1 p m y T1 La T2 hi c s :
  (base, 0) :: frees T1 = La ++ [(p, m)] -> sorted_from (base + 8) T1 b -> sorted_from (b + 8 * n1) T2 hi ->
  0 < base -> 1 <= n1 -> hi < 2 ^ 31 ->
  chain (hdr s) La p -> hdr s !! p = Some (mkheader y m) -> hdr s !! b = Some (mkheader (nxt base (frees T2)) n1) ->
  chain (hdr s) (frees T2) base ->
  exists h T, join_prev b p c s = Ok tt c (s <| hdr ::= <[p := h]> |>) /\
    chain (<[p := h]> (hdr s)) ((base, 0) :: frees T) base /\ sorted_from (base + 8) T hi /\
    p ∈ ((base, 0) :: frees T).*1 /\ used T = used T1 ++ used T2 /\ units (frees T) = units (frees T1) + n1 + units (frees T2) /\
    (exists x k, (x, k) ∈ frees T /\ n1 <= k) /\ (length (frees T) <= length (frees T1) + 1 + length (frees T2))%nat.
Proof.
  intros HL Hs1 Hs2 Hbase Hn Hhi HLa Hp Hb Hch. pose proof (sorted_le _ _ _ Hs1). pose proof (sorted_le _ _ _ Hs2).
  assert (Hs : sorted_from (base + 8) (T1 ++ (b, n1, true) :: T2) hi) by (apply sorted_app; exists b; cbn; split_and!; done || lia).
  assert (Hasc : asc (base - 1) (La ++ [(p, m)] ++ (b, n1) :: frees T2)).
  { rewrite app_assoc, <- HL. cbn. split; [lia|]. apply (sorted_asc true) in Hs. rewrite pick_app, pick_cons in Hs. eapply asc_weaken; [|exact Hs]. lia. }
  pose proof (asc_NoDup _ _ Hasc) as Hnd. rewrite !fmap_app in Hnd. cbn in Hnd.
  apply NoDup_app in Hnd as (_ & HpLa & [Hp2 _]%NoDup_cons).
  assert (HpLa' : p ∉ La.*1) by (intros Hin; by apply (HpLa p Hin), list_elem_of_here).
  assert (Hp2' : p ∉ (frees T2).*1) by set_solver. assert (Hpb : p <> b) by set_solver.
  assert (Hpm : base <= p /\ 0 <= m /\ p + 8 * m <= b).
  { assert (Hin : (p, m) ∈ (base, 0) :: frees T1) by (rewrite HL; set_solver). apply elem_of_cons in Hin as [[= -> ->]|Hin]; [lia|].
    apply elem_of_pick in Hin. pose proof (sorted_in _ _ _ _ _ _ Hs1 Hin). lia. }
  unfold join_prev. rewrite bindE, (geth_run p _ _ _ Hp). cbn [obind size]. rewrite padd_small by lia.
  destruct (Z.eqb_spec (p + 8 * m) b) as [Heq|Hne].
  - rewrite bindE, (geth_run b _ _ _ Hb). cbn [obind ptr size]. rewrite u32_small by lia. rewrite seth_run.
    assert (HT : exists T, T1 = T ++ [(p, m, true)] /\ (base, 0) :: frees T = La).
    { destruct La as [|x La]; [injection HL as Hx Hy _; lia|]. injection HL as <- HL.
      destruct (last_free _ _ _ _ _ _ Hs1 HL Heq) as (T & -> & <-). by exists T. }
    destruct HT as (T & -> & <-). eexists _, (T ++ (p, m + n1, true) :: T2). split; [reflexivity|].
    rewrite ?pick_app, ?pick_cons. cbn [Bool.eqb app]. change (pick true []) with (@nil block). change (pick false []) with (@nil block).
    split_and!.
    + rewrite app_comm_cons. apply chain_app. split; [by apply chain_link|]. split; [by rewrite lookup_insert_eq|by apply chain_link].
    + apply sorted_app in Hs1 as (mid & Hs1 & Hm). cbn in Hm. apply sorted_app. exists mid. split; [done|]. cbn. split_and!; [lia|lia|].
      by replace (p + 8 * (m + n1)) with (b + 8 * n1) by lia.
    + rewrite app_comm_cons, fmap_app. set_solver.
    + by rewrite app_nil_r.
    + rewrite !units_app. unfold units. cbn. lia.
    + exists p, (m + n1). split; [set_solver|lia].
    + rewrite !length_app. cbn. lia.
  - rewrite (setptr_run p _ _ _ _ Hp). eexists _, (T1 ++ (b, n1, true) :: T2). split; [reflexivity|].
    rewrite !pick_app, !pick_cons. cbn [Bool.eqb app]. rewrite app_comm_cons, HL. split_and!; [|done| |done| | |].
    + rewrite <- app_assoc. apply chain_app. split; [by apply chain_link|]. cbn. rewrite lookup_insert_eq, lookup_insert_ne by done.
      split_and!; [done|done|by apply chain_link].
    + rewrite !fmap_app. set_solver.
    + rewrite !units_app. unfold units. cbn. lia.
    + exists b, n1. split; [set_solver|lia].
    + rewrite length_app. cbn. lia.
Qed.

(** Nothing is at the address of a block but the block. *)
Lemma block_addr lo T hi a n f a' n' f' :
  sorted_from lo T hi -> (a, n, f) ∈ T -> (a', n', f') ∈ T -> a = a' -> (n, f) = (n', f').
Proof.
  intros Hs Hin Hin' ->. pose proof (sorted_in _ _ _ _ _ _ Hs Hin). pose proof (sorted_in _ _ _ _ _ _ Hs Hin').
  destruct (sorted_apart _ _ _ _ _ _ _ _ _ Hs Hin Hin') as [[= -> ->]|]; [done|lia].
Qed.

Lemma frees_addr lo T hi a n : sorted_from lo T hi -> (a, n, false) ∈ T -> lo = base + 8 -> a ∉ ((base, 0) :: frees T).*1.
Proof.
  intros Hs Hin -> Ha. apply list_elem_of_fmap in Ha as ([a' n'] & -> & Ha). cbn [fst] in *. pose proof (sorted_in _ _ _ _ _ _ Hs Hin).
  apply elem_of_cons in Ha as [[= -> ->]|Ha]; [lia|]. apply elem_of_pick in Ha. pose proof (block_addr _ _ _ _ _ _ _ _ _ Hs Hin Ha eq_refl). done.
Qed.

Lemma free_run T1 b n T2 c s :
  heap_ok s (T1 ++ (b, n, false) :: T2) ->
  exists T' s', free (b + 8) c s = Ok tt c s' /\ heap_ok s' T' /\ used T' = used T1 ++ used T2 /\
    units (frees T') = units (frees (T1 ++ (b, n, false) :: T2)) + n /\ env s' = env s /\
    (exists x k, (x, k) ∈ frees T' /\ n <= k) /\
    (length (frees T') <= S (length (frees (T1 ++ (b, n, false) :: T2))))%nat.
Proof.
  set (T := T1 ++ (b, n, false) :: T2). intros Hok. pose proof (heap_ok_asc s T Hok) as Hasc. destruct Hok as [Hbase Hcyc Hused Hs Hfp].
  pose proof (top_range (env s)) as Htop. assert (HbT : (b, n, false) ∈ T) by set_solver.
  pose proof (frees_addr _ _ _ _ _ Hs HbT eq_refl) as HbF. pose proof (sorted_in _ _ _ _ _ _ Hs HbT) as Hb.
  assert (Hfrees : frees T = frees T1 ++ frees T2) by (unfold T; by rewrite pick_app, pick_cons).
  assert (HLa : exists La p m, (base, 0) :: frees T1 = La ++ [(p, m)]).
  { destruct (exists_last (l := (base, 0) :: frees T1)) as (La & [p m] & HLa); [done|eauto]. }
  destruct HLa as (La & p & m & HLa). assert (HL : (base, 0) :: frees T = La ++ (p, m) :: frees T2).
  { rewrite Hfrees, app_comm_cons, HLa, <- app_assoc. done. }
  rewrite HL in Hcyc, Hasc, Hfp, HbF. pose proof Hs as Hs0. apply sorted_app in Hs0 as (mid & Hs1 & Hm & Hn & Hs2).
  apply (sorted_mono _ (base + 8) _ _ b) in Hs1; [|lia|done].
  assert (HpT1 : p < b).
  { assert (Hin : (p, m) ∈ (base, 0) :: frees T1) by (rewrite HLa; set_solver). apply elem_of_cons in Hin as [[= -> ->]|Hin]; [lia|].
    apply elem_of_pick in Hin. pose proof (sorted_in _ _ _ _ _ _ Hs1 Hin). lia. }
  destruct (Hused b n) as [q Hq]; [by apply elem_of_pick|].
  unfold free. rewrite padd_small by lia. replace (b + 8 + 8 * -1) with b by lia. mrun.
  rewrite (free_find_spec b (base - 1) La p m (frees T2)); cbn [obind]; try done.
  2: { rewrite <- HL. cbn [nxt]. by rewrite HL. }
  2: { apply (sorted_asc true), asc_lower in Hs2. eapply Forall_impl; [exact Hs2|]. cbn. lia. }
  2: { eapply chain_size; [by eapply asc_NoDup|done]. }
  apply chain_app in Hcyc as [HchA [Hp Hch2]]. rewrite fmap_app in HbF. cbn in HbF.
  assert (HbLa : b ∉ La.*1) by set_solver. assert (Hpb : p <> b) by lia.
  destruct (join_next_run b n p m q T2 (top (env s)) c s Hq Hp Hch2) as (n1 & T2r & Hj1 & Hch1 & Hsr & Hn1 & Hu1 & Hun1 & Hl1); [lia..|done|lia|].
  rewrite bindE, Hj1. cbn [obind]. set (s1 := s <| hdr ::= _ |>).
  assert (Hb2 : b ∉ (frees T2r).*1).
  { intros Hin. apply list_elem_of_fmap in Hin as ([x k] & -> & Hin). apply elem_of_pick in Hin. pose proof (sorted_in _ _ _ _ _ _ Hsr Hin). cbn in *. lia. }
  destruct (join_prev_run b n1 p m (nxt base (frees T2)) T1 La T2r (top (env s)) c s1) as (hp & T' & Hj2 & Hcyc' & Hs' & Hp' & Hu' & Hun' & (x & k & Hx & Hk) & Hl');
    try done; try lia; [by apply chain_link|cbn; by rewrite lookup_insert_ne|cbn; by rewrite lookup_insert_eq|by apply chain_link|].
  rewrite bindE, Hj2. cbn [obind]. rewrite modSE. exists T'. eexists. split; [reflexivity|]. split_and!; [|by rewrite Hu', Hu1|rewrite Hfrees, units_app; lia|done|exists x, k; split; [done|lia]|rewrite Hfrees, length_app; lia].
  split; [done|exact Hcyc'| |exact Hs'|exact Hp'].
  clear x k Hx Hk. intros a k Ha. rewrite Hu', Hu1 in Ha. assert (HaT : (a, k, false) ∈ T).
  { apply elem_of_app in Ha as [Ha|Ha]; apply elem_of_pick in Ha; apply elem_of_app; [by left|by right; apply elem_of_cons; right]. }
  assert (Hap : a <> p).
  { intros ->. apply (frees_addr _ _ _ _ _ Hs HaT eq_refl). rewrite HL. apply list_elem_of_fmap. exists (p, m). split; [done|].
    apply elem_of_app. right. apply list_elem_of_here. }
  assert (Hab : a <> b).
  { intros ->. apply elem_of_app in Ha as [Ha|Ha]; apply elem_of_pick in Ha;
      [pose proof (sorted_in _ _ _ _ _ _ Hs1 Ha)|pose proof (sorted_in _ _ _ _ _ _ Hs2 Ha)]; lia. }
  cbn. rewrite !lookup_insert_ne by done. apply Hused. by apply elem_of_pick.
Qed.

(** ** malloc() *)

(** The block before another one in the list is found by its link. *)
Lemma pred_unique h La p m a k Lb z x q j :
  chain h (La ++ (p, m) :: (a, k) :: Lb) z -> NoDup (La ++ (p, m) :: (a, k) :: Lb).*1 -> a <> z ->
  x ∈ (La ++ (p, m) :: (a, k) :: Lb).*1 -> h !! x = Some (mkheader q j) -> q = a -> x = p.
Proof.
  intros Hch Hnd Haz Hx Hq ->. apply list_elem_of_fmap in Hx as ([x' i] & -> & Hx). cbn [fst] in *.
  apply list_elem_of_split in Hx as (X & Y & HX). rewrite HX in Hch. apply chain_app in Hch as [_ [Hx _]]. rewrite Hq in Hx.
  injection Hx as Ha _. destruct Y as [|[a' k'] Y]; [done|]. cbn in Ha. subst a'.
  assert (Hat : forall A y B k0, (A ++ y :: (a, k0) :: B : list block).*1 !! length (A ++ [y]) = Some a).
  { intros A y B k0. replace (A ++ y :: (a, k0) :: B) with ((A ++ [y]) ++ (a, k0) :: B) by (by rewrite <- app_assoc).
    rewrite list_lookup_fmap, list_lookup_middle by done. done. }
  assert (Hlen : length (X ++ [(x', i)]) = length (La ++ [(p, m)])).
  { rewrite NoDup_alt in Hnd. apply (Hnd _ _ a); [rewrite HX|]; apply Hat. }
  rewrite !length_app in Hlen. cbn in Hlen. apply app_inj_1 in HX as [_ [= -> _ _ _]]; [done|lia].
Qed.

(** A free block in its place: the blocks around it and the list through it. *)
Record placed s T a k T1 T2 La p m : Prop := {
  pl_T : T = T1 ++ (a, k, true) :: T2;
  pl_L : (base, 0) :: frees T1 = La ++ [(p, m)];
  pl_before : chain (hdr s) La p;
  pl_prev : hdr s !! p = Some (mkheader a m);
  pl_block : hdr s !! a = Some (mkheader (nxt base (frees T2)) k);
  pl_after : chain (hdr s) (frees T2) base;
  pl_nodup : NoDup (p :: a :: La.*1 ++ (frees T2).*1);
  pl_unique : forall x j, x ∈ ((base, 0) :: frees T).*1 -> hdr s !! x = Some (mkheader a j) -> x = p;
}.

Lemma place s T a k : heap_ok s T -> (a, k) ∈ frees T -> exists T1 T2 La p m, placed s T a k T1 T2 La p m.
Proof.
  intros Hok Ha. pose proof (heap_ok_asc s T Hok) as Hasc. destruct Hok as [Hbase Hcyc Hused Hs Hfp].
  apply elem_of_pick in Ha as HaT. apply list_elem_of_split in HaT as (T1 & T2 & HT).
  pose proof (sorted_in _ _ _ _ _ _ Hs (proj1 (elem_of_pick _ _ _ _) Ha)) as Hak.
  destruct (exists_last (l := (base, 0) :: frees T1)) as (La & [p m] & HLa); [done|].
  assert (HL : (base, 0) :: frees T = La ++ (p, m) :: (a, k) :: frees T2).
  { rewrite HT, pick_app, pick_cons, app_comm_cons, HLa, <- app_assoc. done. }
  assert (Hnd : NoDup (La ++ (p, m) :: (a, k) :: frees T2).*1) by (rewrite <- HL; by eapply asc_NoDup).
  rewrite HL in Hcyc. pose proof Hcyc as Hcyc0. apply chain_app in Hcyc as [HchA [Hp [Hha Hch2]]].
  exists T1, T2, La, p, m. split; try done.
  - rewrite fmap_app in Hnd. cbn in Hnd. by rewrite <- !Permutation_middle in Hnd.
  - intros x j Hx Hxa. rewrite HL in Hx. eapply pred_unique; [exact Hcyc0|done|lia|done|exact Hxa|done].
Qed.

Definition given s T s' T' r nunits T1 T2 : Prop :=
  heap_ok s' T' /\ r <> 0 /\ used T = used T1 ++ used T2 /\ used T' = used T1 ++ (r - 8, nunits) :: used T2 /\
  units (frees T') + nunits = units (frees T) /\ env s' = env s.

(** No block in use has the address of a header of the list. *)
Lemma used_apart s T a k x : heap_ok s T -> (a, k) ∈ used T -> x ∈ ((base, 0) :: frees T).*1 -> a <> x.
Proof. intros [_ _ _ Hs _] Ha Hx ->. apply elem_of_pick in Ha. by apply (frees_addr _ _ _ _ _ Hs Ha eq_refl). Qed.

Lemma placed_in s T a k T1 T2 La p m :
  placed s T a k T1 T2 La p m -> (a, k, true) ∈ T /\ (base, 0) :: frees T = La ++ (p, m) :: (a, k) :: frees T2 /\
  p ∈ ((base, 0) :: frees T).*1 /\ a ∈ ((base, 0) :: frees T).*1 /\ used T = used T1 ++ used T2 /\
  units (frees T) = units (frees T1) + k + units (frees T2).
Proof.
  intros [HT HLa _ _ _ _ _ _]. assert (HL : (base, 0) :: frees T = La ++ (p, m) :: (a, k) :: frees T2).
  { rewrite HT, pick_app, pick_cons, app_comm_cons, HLa, <- app_assoc. done. }
  split; [rewrite HT; apply elem_of_app; right; apply list_elem_of_here|]. split; [done|]. rewrite HL, fmap_app.
  split; [apply elem_of_app; right; left|]. split; [apply elem_of_app; right; right; left|].
  rewrite HT, !pick_app, !pick_cons. split; [done|]. cbn. rewrite units_app. unfold units. cbn. lia.
Qed.

Lemma carve_all s T a k T1 T2 La p m c :
  heap_ok s T -> placed s T a k T1 T2 La p m ->
  exists s' T', carve k p a (mkheader (nxt base (frees T2)) k) c s = Ok (a + 8) c s' /\ given s T s' T' (a + 8) k T1 T2.
Proof.
  intros Hok Hpl. pose proof (placed_in _ _ _ _ _ _ _ _ _ Hpl) as (HaT & HL & HpL & HaL & HuT & HunT).
  pose proof (fun x n => used_apart s T x n p Hok) as Hap. destruct Hok as [Hbase Hcyc Hused Hs Hfp], Hpl as [HT HLa HchA Hp Hha Hch2 Hnd _].
  pose proof (top_range (env s)) as Htop. pose proof (sorted_in _ _ _ _ _ _ Hs HaT) as Hak.
  rewrite !NoDup_cons, not_elem_of_cons, !not_elem_of_app in Hnd. destruct Hnd as ((Hpa & HpA & Hp2) & (HaA & Ha2) & _).
  unfold carve. cbn [size ptr]. rewrite Z.eqb_refl. rewrite !bindE, (setptr_run p _ _ _ _ Hp). cbn [obind]. mrun. rewrite padd_small by lia.
  set (T' := T1 ++ (a, k, false) :: T2). eexists _, T'. split; [reflexivity|].
  assert (HF' : (base, 0) :: frees T' = La ++ (p, m) :: frees T2).
  { unfold T'. rewrite pick_app, pick_cons, app_comm_cons, HLa, <- app_assoc. done. }
  assert (HU' : used T' = used T1 ++ (a, k) :: used T2) by (unfold T'; by rewrite pick_app, pick_cons).
  unfold given. replace (a + 8 - 8) with a by lia. split_and!; try done; [|lia|].
  - split; [done|rewrite HF'|rewrite HU'| |rewrite HF'].
    + apply chain_app. split; [by apply chain_link|]. split; [cbn; by rewrite lookup_insert_eq|by apply chain_link].
    + intros x n Hx. cbn. rewrite <- Permutation_middle, <- HuT in Hx. apply elem_of_cons in Hx as [[= -> ->]|Hx].
      * rewrite lookup_insert_ne by done. eauto.
      * rewrite lookup_insert_ne by (apply not_eq_sym, (Hap x n Hx), HpL). by apply Hused.
    + unfold T'. rewrite HT in Hs. apply sorted_app in Hs as (mid & Hs1 & Hs2). apply sorted_app. by exists mid.
    + rewrite fmap_app. apply elem_of_app. right. left.
  - assert (E1 : frees T1 ++ frees T2 = frees T') by (unfold T'; by rewrite pick_app, pick_cons). rewrite <- E1, units_app. lia.
Qed.

Lemma carve_tail s T a k T1 T2 La p m n c :
  heap_ok s T -> placed s T a k T1 T2 La p m -> 1 <= n < k ->
  exists s' T', let r := a + 8 * (k - n) + 8 in
    carve n p a (mkheader (nxt base (frees T2)) k) c s = Ok r c s' /\ given s T s' T' r n T1 T2.
Proof.
  intros Hok Hpl Hn. pose proof (placed_in _ _ _ _ _ _ _ _ _ Hpl) as (HaT & HL & HpL & HaL & HuT & HunT).
  pose proof (fun x i => used_apart s T x i a Hok) as Haa. destruct Hok as [Hbase Hcyc Hused Hs Hfp], Hpl as [HT HLa HchA Hp Hha Hch2 Hnd _].
  pose proof (top_range (env s)) as Htop. pose proof (sorted_in _ _ _ _ _ _ Hs HaT) as Hak.
  rewrite !NoDup_cons, not_elem_of_cons, !not_elem_of_app in Hnd. destruct Hnd as ((Hpa & HpA & Hp2) & (HaA & Ha2) & _).
  unfold carve. cbn [size ptr]. destruct (Z.eqb_spec k n); [lia|]. rewrite (u32_small (k - n)) by lia.
  unfold setsize, seth. mrun. rewrite !padd_small by (rewrite ?padd_small; lia).
  set (T' := T1 ++ (a, k - n, true) :: (a + 8 * (k - n), n, false) :: T2). eexists _, T'. split; [reflexivity|].
  assert (HF' : (base, 0) :: frees T' = La ++ (p, m) :: (a, k - n) :: frees T2).
  { unfold T'. rewrite pick_app, !pick_cons, app_comm_cons, HLa, <- app_assoc. done. }
  assert (HU' : used T' = used T1 ++ (a + 8 * (k - n), n) :: used T2) by (unfold T'; by rewrite pick_app, !pick_cons).
  assert (Hs' : sorted_from (base + 8) T' (top (env s))).
  { rewrite HT in Hs. apply sorted_app in Hs as (mid & Hs1 & Hm & Hk & Hs2). apply sorted_app. exists mid. cbn. split_and!; try done; try lia.
    by replace (a + 8 * (k - n) + 8 * n) with (a + 8 * k) by lia. }
  assert (Hnew : (a + 8 * (k - n), n) ∈ used T') by (rewrite HU'; apply elem_of_app; right; left).
  assert (HnewF : a + 8 * (k - n) ∉ ((base, 0) :: frees T').*1) by (apply elem_of_pick in Hnew; eapply frees_addr; [exact Hs'|exact Hnew|done]).
  rewrite HF', fmap_app in HnewF. cbn in HnewF. rewrite not_elem_of_app, !not_elem_of_cons in HnewF. destruct HnewF as (Hn1 & Hn2 & Hn3 & Hn4).
  unfold given. replace (a + 8 * (k - n) + 8 - 8) with (a + 8 * (k - n)) by lia. split_and!; try done; [|lia|].
  - split; [done|rewrite HF'|rewrite HU'|exact Hs'|rewrite HF'].
    + apply chain_app. split; [by apply chain_link, chain_link|]. cbn. rewrite !lookup_insert_ne, lookup_insert_eq by done.
      split_and!; [done|done|by apply chain_link, chain_link].
    + intros x i Hx. cbn. rewrite <- Permutation_middle, <- HuT in Hx. apply elem_of_cons in Hx as [[= -> ->]|Hx].
      * rewrite lookup_insert_eq. eauto.
      * assert (HxT : (x, i, false) ∈ T) by (by apply elem_of_pick).
        rewrite !lookup_insert_ne; [by apply Hused|apply not_eq_sym, (Haa x i Hx), HaL|].
        pose proof (sorted_apart _ _ _ _ _ _ _ _ _ Hs HaT HxT) as [[=]|]; lia || (pose proof (sorted_in _ _ _ _ _ _ Hs HxT); lia).
    + rewrite fmap_app. apply elem_of_app. right. left.
  - assert (E1 : frees T1 ++ (a, k - n) :: frees T2 = frees T') by (unfold T'; by rewrite pick_app, !pick_cons). rewrite <- E1, units_app. unfold units in *. cbn. lia.
Qed.

(** ** The search *)

Lemma malloc_loop_run n prevp p h fuel c s :
  hdr s !! p = Some h ->
  malloc_loop n prevp p fuel c s =
    if n <=? size h then carve n prevp p h c s
    else (o ← (if p =? freep s then q ← morecore n; mret (if q =? 0 then None else Some q) else mret (Some p));
          match o, fuel with
          | None, _ => mret 0
          | Some _, O => nofuel
          | Some p, S fuel' => h ← geth p; malloc_loop n p (ptr h) fuel'
          end) c s.
Proof.
  intros Hp. destruct fuel; cbn [malloc_loop]; rewrite bindE, (geth_run p h c s Hp); cbn [obind]; destruct (n <=? size h); try done.
Qed.

(** The last of the blocks passed. *)
Definition lastp (prevp : Z) (R : list block) : Z := foldl (fun _ x => x.1) prevp R.

Lemma lastp_link h prevp j R a k R2 z :
  chain h (R ++ (a, k) :: R2) z -> h !! prevp = Some (mkheader (nxt z (R ++ (a, k) :: R2)) j) ->
  lastp prevp R ∈ prevp :: R.*1 /\ exists j', h !! lastp prevp R = Some (mkheader a j').
Proof.
  revert prevp j. induction R as [|[b i] R IH]; intros prevp j; cbn [app chain nxt]; [intros _ Hp; split; [left|eauto]|].
  intros [Hb Hch] _. destruct (IH b i Hch Hb) as [Hin Hl]. split; [|done]. right. exact Hin.
Qed.

(** From the block behind freep on, the search looks at every block of the list once,
    and at freep last. *)
Lemma scan n R fp m z prevp fuel c s :
  chain (hdr s) (R ++ [(fp, m)]) z -> freep s = fp -> fp ∉ R.*1 -> (length R <= fuel)%nat ->
  (exists R1 a k R2, R ++ [(fp, m)] = R1 ++ (a, k) :: R2 /\ n <= k /\
     malloc_loop n prevp (nxt z (R ++ [(fp, m)])) fuel c s =
       carve n (lastp prevp R1) a (mkheader (nxt z R2) k) c s) \/
  (Forall (fun x => x.2 < n) (R ++ [(fp, m)]) /\
     malloc_loop n prevp (nxt z (R ++ [(fp, m)])) fuel c s =
       (q ← morecore n;
        if q =? 0 then mret 0 else
        match (fuel - length R)%nat with
        | O => nofuel
        | S fuel' => h ← geth q; malloc_loop n q (ptr h) fuel'
        end) c s).
Proof.
  revert prevp fuel. induction R as [|[a k] R IH]; intros prevp fuel Hch Hfp Hni Hf; cbn [app chain nxt length] in *.
  - destruct Hch as [Ha _]. rewrite (malloc_loop_run _ _ _ _ _ _ _ Ha). cbn [size]. destruct (Z.leb_spec n m).
    + left. by exists [], fp, m, [].
    + right. split; [by constructor|]. rewrite Hfp, Z.eqb_refl, Nat.sub_0_r, !bindE. destruct (morecore n c s) as [q c' s'| | | | |]; cbn [obind]; try done.
      rewrite retE. cbn [obind]. by destruct (q =? 0), fuel.
  - destruct Hch as [Ha Hch]. rewrite fmap_cons, not_elem_of_cons in Hni. destruct Hni as [Hne Hni]. cbn [fst] in Hne. rewrite (malloc_loop_run _ _ _ _ _ _ _ Ha). cbn [size].
    destruct (Z.leb_spec n k); [left; by exists [], a, k, (R ++ [(fp, m)])|].
    destruct (Z.eqb_spec a (freep s)); [congruence|]. destruct fuel as [|fuel]; [lia|]. mrun. rewrite (geth_run a _ c s Ha). cbn [obind ptr Nat.sub].
    destruct (IH a fuel Hch Hfp Hni ltac:(lia)) as [(R1 & b & i & R2 & HR & Hi & Hrun)|[Hall Hrun]]; rewrite Hrun.
    + left. exists ((a, k) :: R1), b, i, R2. split_and!; [by rewrite HR|done|done].
    + right. split; [by constructor|done].
Qed.

Lemma search_run s T n h c fuel :
  heap_ok s T -> 1 <= n -> hdr s !! freep s = Some h -> (length (frees T) <= fuel)%nat ->
  (exists r s' T' T1 T2, malloc_loop n (freep s) (ptr h) fuel c s = Ok r c s' /\ given s T s' T' r n T1 T2) \/
  (Forall (fun x => x.2 < n) (frees T) /\ malloc_loop n (freep s) (ptr h) fuel c s =
     (q ← morecore n;
      if q =? 0 then mret 0 else
      match (fuel - length (frees T))%nat with
      | O => nofuel
      | S fuel' => h ← geth q; malloc_loop n q (ptr h) fuel'
      end) c s).
Proof.
  intros Hok Hn Hh Hf. pose proof (heap_ok_asc s T Hok) as Hasc. pose proof Hok as [Hbase Hcyc _ _ Hfp].
  set (L := (base, 0) :: frees T) in *. pose proof (asc_NoDup _ _ Hasc) as Hnd.
  pose proof Hfp as Hfp0. apply list_elem_of_fmap in Hfp0 as ([fp m] & Hfpe & Hin). cbn in Hfpe.
  apply list_elem_of_split in Hin as (X & Y & HL). rewrite HL in Hcyc. apply chain_app in Hcyc as [HX [Hm HY]].
  rewrite Hfpe in Hh |- *. rewrite Hm in Hh. injection Hh as <-. cbn [ptr].

  assert (HbX : nxt fp X = base) by (destruct X as [|[x i] X]; cbn in HL; by injection HL).
  assert (Hrot : chain (hdr s) ((Y ++ X) ++ [(fp, m)]) (nxt base Y)).
  { apply chain_app. split; [|by split]. apply chain_app. cbn [nxt]. by rewrite HbX. }
  assert (Hperm : (Y ++ X) ++ [(fp, m)] ≡ₚ L) by (rewrite HL; solve_Permutation).
  assert (Hni : fp ∉ (Y ++ X).*1).
  { intros Hin. rewrite <- Hperm, fmap_app, NoDup_app in Hnd. destruct Hnd as (_ & Hx & _). apply (Hx fp Hin). left. }
  assert (Hlen : length (Y ++ X) = length (frees T)).
  { apply Permutation_length in Hperm. rewrite length_app in Hperm. cbn in Hperm. lia. }
  assert (Hnx : nxt (nxt base Y) ((Y ++ X) ++ [(fp, m)]) = nxt base Y).
  { destruct Y as [|[]]; cbn; [|done]. destruct X as [|[]]; by cbn in *. }
  destruct (scan n (Y ++ X) fp m (nxt base Y) fp fuel c s Hrot Hfpe Hni ltac:(lia)) as [(R1 & a & k & R2 & HR & Hk & Hrun)|[Hall Hrun]];
    rewrite Hnx in Hrun; rewrite Hrun.
  - left. rewrite HR in Hrot, Hnx.
    destruct (lastp_link (hdr s) fp m R1 a k R2 (nxt base Y)) as [Hlin [j Hlj]]; [done|by rewrite Hnx|].
    assert (Hak : (a, k) ∈ frees T).
    { assert (HakL : (a, k) ∈ L) by (rewrite <- Hperm, HR; apply elem_of_app; right; left).
      apply elem_of_cons in HakL as [[= -> ->]|?]; [lia|done]. }
    destruct (place s T a k Hok Hak) as (T1 & T2 & La & p & pm & Hpl). exists (a + 8 * (k - n) + 8).
    assert (lastp fp R1 = p) as ->.
    { apply (pl_unique _ _ _ _ _ _ _ _ _ Hpl _ j); [|done]. fold L. rewrite <- Hperm, HR. rewrite fmap_app.
      apply elem_of_cons in Hlin as [->|?]; [|by apply elem_of_app; left]. rewrite <- fmap_app, <- HR, fmap_app. apply elem_of_app. right. left. }
    apply chain_app in Hrot as [_ [Hha _]]. rewrite (pl_block _ _ _ _ _ _ _ _ _ Hpl) in Hha. injection Hha as <-.
    destruct (decide (n = k)) as [->|].
    + destruct (carve_all s T a k T1 T2 La p pm c Hok Hpl) as (s' & T' & Hc & Hg). replace (a + 8 * (k - k) + 8) with (a + 8) by lia. by exists s', T', T1, T2.
    + destruct (carve_tail s T a k T1 T2 La p pm n c Hok Hpl ltac:(lia)) as (s' & T' & Hc & Hg). by exists s', T', T1, T2.
  - right. rewrite Hlen. split; [|done]. rewrite Hperm in Hall. by apply Forall_cons in Hall as [_ Hall].
Qed.

(** A new block from sbrk() is put behind all others. *)
Lemma heap_ok_grow s T r nu e' :
  heap_ok s T -> top (env s) <= r -> top e' = r + 8 * nu -> 1 <= nu ->
  heap_ok (s <| env := e' |> <| hdr ::= <[r := mkheader (default 0 (ptr <$> hdr s !! r)) nu]> |>) (T ++ [(r, nu, false)]).
Proof.
  intros [Hbase Hcyc Hused Hs Hfp] Hr Hte Hnu.
  assert (Hs' : sorted_from (base + 8) (T ++ [(r, nu, false)]) (r + 8 * nu)).
  { apply sorted_app. exists (top (env s)). cbn. split_and!; done || lia. }
  assert (Hnew : r ∉ ((base, 0) :: frees (T ++ [(r, nu, false)])).*1) by (eapply frees_addr; [exact Hs'|apply elem_of_app; right; left|done]).
  assert (HF : frees (T ++ [(r, nu, false)]) = frees T) by (rewrite pick_app, pick_cons; apply app_nil_r).
  rewrite HF in Hnew. split; [done|rewrite HF; by apply chain_link| |by cbn; rewrite Hte|by rewrite HF].
  intros a n Ha. cbn. rewrite pick_app, pick_cons in Ha. apply elem_of_app in Ha as [Ha|Ha%list_elem_of_singleton].
  - rewrite lookup_insert_ne; [by apply Hused|]. apply elem_of_pick in Ha. pose proof (sorted_in _ _ _ _ _ _ Hs Ha). lia.
  - injection Ha as -> ->. rewrite lookup_insert_eq. eauto.
Qed.

Lemma freep_pos s T : heap_ok s T -> freep s <> 0 /\ exists h, hdr s !! freep s = Some h.
Proof.
  intros Hok. destruct Hok as [Hbase Hcyc _ Hs Hfp]. apply list_elem_of_fmap in Hfp as ([a n] & -> & Ha). cbn [fst]. split.
  - apply elem_of_cons in Ha as [[= -> ->]|Ha]; [lia|]. apply elem_of_pick in Ha. pose proof (sorted_in _ _ _ _ _ _ Hs Ha). lia.
  - apply list_elem_of_split in Ha as (X & Y & HL). rewrite HL in Hcyc. apply chain_app in Hcyc as [_ [? _]]. eauto.
Qed.

Lemma morecore_run s T n c :
  heap_ok s T -> 1 <= n -> 8 * n < 2 ^ 31 ->
  exists r s', morecore n c s = Ok r c s' /\
    ((r = 0 /\ heap_ok s' T) \/
     (r <> 0 /\ r = freep s' /\ exists T', heap_ok s' T' /\ used T' = used T /\
       (length (frees T') <= S (length (frees T)))%nat /\ exists x k, (x, k) ∈ frees T' /\ n <= k)).
Proof.
  intros Hok Hn Hn8. unfold morecore, HDRSIZE. set (nu := if n <? 4096 then 4096 else n).
  assert (Hnu : n <= nu /\ 1 <= nu /\ 8 * nu < 2 ^ 31) by (unfold nu; destruct (Z.ltb_spec n 4096); lia). mrun.
  rewrite u32_small, s32_small by lia. replace (nu * 8) with (8 * nu) by lia. pose proof (sbrk_ok (8 * nu) (env s) ltac:(lia)) as Hsb.
  destruct (sbrk (8 * nu) (env s)) as [r e']. pose proof (top_range e'). pose proof (top_range (env s)). mrun. destruct Hsb as [[-> Hte]|[Hr Hte]].
  - change (4294967295 =? 4294967295) with true. cbn match. eexists _, _. split; [reflexivity|]. left. split; [done|].
    destruct Hok as [Hbase Hcyc Hused Hs Hfp]. split; try done. cbn. by rewrite Hte.
  - destruct (Z.eqb_spec r 4294967295); [lia|]. unfold setsize. mrun. rewrite padd_small by lia. replace (r + 8 * 1) with (r + 8) by lia.
    pose proof (heap_ok_grow s T r nu e' Hok Hr Hte ltac:(lia)) as Hok1. set (s1 := s <| env := e' |> <| hdr ::= _ |>) in *.
    change (s <| env := e' |> <| hdr ::= _ |>) with s1.
    destruct (free_run T r nu [] c s1 Hok1) as (T' & s' & Hf & Hok' & Hu & _ & _ & (x & k & Hx & Hk) & Hl). rewrite Hf. cbn [obind]. mrun.
    eexists _, _. split; [reflexivity|]. right. split; [by eapply freep_pos|]. split; [done|]. exists T'. split_and!; [done| | |].
    + rewrite Hu. apply app_nil_r.
    + by rewrite pick_app, pick_cons, app_nil_r in Hl.
    + exists x, k. split; [done|lia].
Qed.

(** ** The theorems *)

(** The heap at the first call, when freep is still 0, or later. *)
Definition heap_inv s T : Prop :=
  heap_ok s T \/ (freep s = 0 /\ T = [] /\ 0 < base /\ base + 8 <= top (env s)).

Lemma heap_start s T c :
  heap_inv s T ->
  exists s1, (s ← getS;
    (if freep s =? 0 then modS (fun s => s <| freep := base |>) ;; seth base (mkheader base 0) else mret tt)) c s = Ok tt c s1 /\ heap_ok s1 T.
Proof.
  intros [Hok|(Hf & -> & Hb & Ht)]; mrun.
  - destruct (freep_pos s T Hok) as [Hne _]. destruct (Z.eqb_spec (freep s) 0); [done|]. by exists s.
  - rewrite Hf. cbn match. eexists. split; [reflexivity|]. split; cbn; try done.
    + by rewrite lookup_insert_eq.
    + intros a n Ha. by apply elem_of_nil in Ha.
    + left.
Qed.

Lemma malloc_run s T n c fuel :
  heap_ok s T -> 1 <= n -> 8 * n < 2 ^ 31 -> (2 * length (frees T) + 4 <= fuel)%nat ->
  exists h r s' T', hdr s !! freep s = Some h /\ malloc_loop n (freep s) (ptr h) fuel c s = Ok r c s' /\ heap_ok s' T' /\
    ((r = 0 /\ used T' = used T) \/
     (r <> 0 /\ exists U1 U2, used T = U1 ++ U2 /\ used T' = U1 ++ (r - 8, n) :: U2)).
Proof.
  intros Hok Hn Hn8 Hf. destruct (freep_pos s T Hok) as [_ [h Hh]]. exists h.
  destruct (search_run s T n h c fuel Hok Hn Hh ltac:(lia)) as [(r & s' & T' & T1 & T2 & Hrun & Hok' & Hr & HU & HU' & _)|[_ Hrun]].
  { exists r, s', T'. split_and!; try done. right. split; [done|]. by exists (used T1), (used T2). }
  rewrite Hrun. clear Hrun. destruct (morecore_run s T n c Hok Hn Hn8) as (q & s1 & Hm & Hcase). rewrite bindE, Hm. cbn [obind].
  destruct Hcase as [[-> Hok1]|(Hq & -> & T1 & Hok1 & HU1 & Hl1 & x & k & Hx & Hk)].
  { exists 0, s1, T. split_and!; try done. by left. }
  destruct (Z.eqb_spec (freep s1) 0); [done|]. destruct (fuel - length (frees T))%nat as [|fuel'] eqn:Ef; [lia|].
  destruct (freep_pos s1 T1 Hok1) as [_ [h1 Hh1]]. rewrite bindE, (geth_run _ _ c s1 Hh1). cbn [obind].
  destruct (search_run s1 T1 n h1 c fuel' Hok1 Hn Hh1 ltac:(lia)) as [(r & s' & T' & T1' & T2' & Hrun & Hok' & Hr & HU & HU' & _)|[Hall _]].
  { exists r, s', T'. split_and!; try done. right. split; [done|]. exists (used T1'), (used T2'). by rewrite <- HU1. }
  rewrite Forall_forall in Hall. specialize (Hall _ Hx). cbn in Hall. lia.
Qed.

(** C35: malloc() returns null, when sbrk() has no more memory, or the address of at
    least as many bytes as asked for that overlap neither a block in use nor the
    header of one; the blocks in use stay as they are, and the free blocks remain
    a circular list in the order of their addresses.  It returns: the search goes
    round the list at most twice. *)
Theorem malloc_spec nbytes s T c :
  heap_inv s T -> 0 <= nbytes < 2 ^ 31 - 16 ->
  exists r s' T', malloc base nbytes c s = Ok r c s' /\ heap_ok s' T' /\
    ((r = 0 /\ used T' = used T) \/
     (r <> 0 /\ exists U1 U2 n, used T = U1 ++ U2 /\ used T' = U1 ++ (r - 8, n) :: U2 /\ nbytes <= 8 * (n - 1) /\
        forall a k, (a, k) ∈ used T -> a + 8 * k <= r - 8 \/ r + nbytes <= a)).
Proof.
  intros Hinv Hnb. unfold malloc, HDRSIZE. rewrite (u32_small (nbytes + 8 - 1)) by lia. set (n := u32 _).
  pose proof (Z.div_mod (nbytes + 8 - 1) 8 ltac:(lia)) as Hdm. pose proof (Z.mod_pos_bound (nbytes + 8 - 1) 8 ltac:(lia)).
  assert (Hn : n = (nbytes + 8 - 1) / 8 + 1) by (apply u32_small; lia). destruct (heap_start s T c Hinv) as (s1 & Hs1 & Hok1).
  pose proof (heap_ok_asc s1 T Hok1) as Hasc. pose proof (chain_size _ _ _ (asc_NoDup _ _ Hasc) (hk_cycle _ _ Hok1)) as Hsz. cbn [length] in Hsz.
  destruct (malloc_run s1 T n c (2 * map_size (hdr s1) + 4) Hok1) as (h & r & s' & T' & Hh & Hrun & Hok' & Hcase); [lia|lia|lia|].
  exists r, s', T'. split; [|split; [done|]].
  - rewrite bindE, getSE in Hs1. cbn [obind] in Hs1. rewrite bindE, getSE. cbn [obind]. rewrite bindE, Hs1. cbn [obind]. mrun. rewrite (geth_run _ _ c s1 Hh). cbn [obind]. exact Hrun.
  - destruct Hcase as [Hcase|(Hr & U1 & U2 & HU & HU')]; [by left|]. right. split; [done|]. exists U1, U2, n. split_and!; [done|done|lia|].
    intros a k Ha. destruct Hok' as [_ _ _ Hs' _].
    assert (Hnew : (r - 8, n, false) ∈ T') by (apply elem_of_pick; rewrite HU'; apply elem_of_app; right; left).
    assert (Hold : (a, k, false) ∈ T').
    { apply elem_of_pick. rewrite HU'. rewrite HU in Ha. apply elem_of_app in Ha as [?|?]; apply elem_of_app; [by left|by right; right]. }
    destruct (sorted_apart _ _ _ _ _ _ _ _ _ Hs' Hnew Hold) as [[= Ea En]|Hd]; [|lia]. exfalso.
    pose proof (asc_NoDup _ _ (sorted_asc false _ _ _ Hs')) as Hnd. rewrite HU', fmap_app in Hnd. cbn in Hnd.
    rewrite <- Permutation_middle in Hnd. apply NoDup_cons in Hnd as [Hnd _]. apply Hnd. rewrite <- fmap_app, <- HU.
    apply list_elem_of_fmap. by exists (a, k).
Qed.

(** free() of a block in use gives back exactly its bytes: the block is no longer
    in use, all others are as before, and the free memory has grown by its size,
    joined with the free blocks it touches.  It returns and reads no header but
    those of the list and its own. *)
Theorem free_spec s T b n c :
  heap_ok s T -> (b, n) ∈ used T ->
  exists s' T', free (b + 8) c s = Ok tt c s' /\ heap_ok s' T' /\ used T ≡ₚ (b, n) :: used T' /\
    units (frees T') = units (frees T) + n.
Proof.
  intros Hok Hb. apply elem_of_pick, list_elem_of_split in Hb as (T1 & T2 & ->).
  destruct (free_run T1 b n T2 c s Hok) as (T' & s' & Hf & Hok' & Hu & Hun & _). exists s', T'. split_and!; try done.
  rewrite Hu, pick_app, pick_cons. cbn. by rewrite Permutation_middle.
Qed.

(** A request within 7 bytes of 2^32 wraps around in the rounding of malloc() and
    is served like one for no bytes at all. *)
Theorem malloc_wraps nbytes c s :
  2 ^ 32 - 7 <= nbytes < 2 ^ 32 -> malloc base nbytes c s = malloc base 0 c s.
Proof.
  intros Hnb. unfold malloc, HDRSIZE. replace (u32 (nbytes + 8 - 1)) with (nbytes + 7 - 2 ^ 32).
  - rewrite (Z.div_small (nbytes + 7 - 2 ^ 32)) by lia. done.
  - unfold u32. replace (nbytes + 8 - 1) with (nbytes + 7 - 2 ^ 32 + 1 * 2 ^ 32) by lia. rewrite Z_mod_plus_full. by rewrite Z.mod_small by lia.
Qed.
End Blocks.

(** ** Witnesses *)

(** sbrk() with memory up to 2^31. *)
Definition brk (e : Z) : Z := Z.max 1 (Z.min e (2 ^ 31 - 1)).
#[export] Instance demo_sbrk : Sbrk Z := fun n e => if brk e + n <? 2 ^ 31 then (brk e, brk e + n) else (4294967295, e).

#[export] Instance demo_sbrk_ok : SbrkOk Z.
Proof.
  refine {| top := brk |}; [unfold brk; lia|]. intros n e Hn. unfold sbrk, demo_sbrk. destruct (Z.ltb_spec (brk e + n) (2 ^ 31)); [right|by left].
  split; [done|]. unfold brk in *. lia.
Defined.

Definition demo_heap : heap Z := mkheap ∅ 0 8192.

Lemma malloc_spec_witness :
  exists r s' T', malloc 4096 100 (Ctx [] []) demo_heap = Ok r (Ctx [] []) s' /\ heap_ok 4096 s' T' /\
    ((r = 0 /\ used T' = used []) \/
     (r <> 0 /\ exists U1 U2 n, used [] = U1 ++ U2 /\ used T' = U1 ++ (r - 8, n) :: U2 /\ 100 <= 8 * (n - 1) /\
        forall a k, (a, k) ∈ used [] -> a + 8 * k <= r - 8 \/ r + 100 <= a)).
Proof.
  apply (malloc_spec 4096 100 demo_heap []).
  - right. vm_compute. split_and!; congruence.
  - lia.
Defined.

(** The heap after malloc(100): 14 units at the end of the 4096 got from sbrk(). *)
Definition demo_heap1 : heap Z :=
  mkheap {[ 4096 := mkheader 8192 0; 8192 := mkheader 4096 4082; 40848 := mkheader 0 14 ]} 4096 40960.
Definition demo_cells : list cell := [(8192, 4082, true); (40848, 14, false)].

Lemma demo_heap1_ok : heap_ok 4096 demo_heap1 demo_cells.
Proof.
  split.
  - lia.
  - by vm_compute.
  - intros a n Ha. apply elem_of_pick in Ha. apply elem_of_cons in Ha as [[=]|Ha]. apply list_elem_of_singleton in Ha as [= -> ->]. by eexists.
  - vm_compute. split_and!; congruence.
  - left.
Qed.

Lemma free_spec_witness :
  exists s' T', free (40848 + 8) (Ctx [] []) demo_heap1 = Ok tt (Ctx [] []) s' /\ heap_ok 4096 s' T' /\
    used demo_cells ≡ₚ (40848, 14) :: used T' /\ units (frees T') = units (frees demo_cells) + 14.
Proof. apply (free_spec 4096); [exact demo_heap1_ok|]. apply elem_of_pick. right. left. Defined.

Lemma malloc_wraps_witness :
  malloc 4096 4294967295 (Ctx [] []) demo_heap = malloc 4096 0 (Ctx [] []) demo_heap.
Proof. apply malloc_wraps. lia. Defined.
