(* ===== verification/Kbd.v ===== *)
(** * The keyboard (src/kbd.c, src/kbd.h)

    [kbd_decode] is what kbdgetc() does with a scan code: the state of the
    modifier keys, [shift], and the character of the key.  The tables are those of
    kbd.h, as lists of 256 entries. *)

From stdpp Require Import prelude list.
From Stdlib Require Import ZArith Lia.
From S2P Require Import Prelude.

Definition SHIFT : Z := 1.
Definition CTL : Z := 2.
Definition ALT : Z := 4.
Definition CAPSLOCK : Z := 8.
Definition NUMLOCK : Z := 16.
Definition SCROLLLOCK : Z := 32.
Definition E0ESC : Z := 64.

(** An initializer with designated entries. *)
Definition table (l : list Z) (entries : list (nat * Z)) : list Z :=
  foldl (fun t '(i, v) => <[i := v]> t) (l ++ replicate (256 - length l) 0) entries.

Definition shiftcode : list Z :=
  table [] [(0x1D%nat, CTL); (0x2A%nat, SHIFT); (0x36%nat, SHIFT); (0x38%nat, ALT); (0x9D%nat, CTL); (0xB8%nat, ALT)].

Definition togglecode : list Z :=
  table [] [(0x3A%nat, CAPSLOCK); (0x45%nat, NUMLOCK); (0x46%nat, SCROLLLOCK)].

(** KEY_UP, KEY_DN, KEY_PGUP, KEY_PGDN, KEY_LF, KEY_RT, KEY_HOME, KEY_END, KEY_INS
    and KEY_DEL. *)
Definition arrows : list (nat * Z) :=
  [(0xC8%nat, 0xE2); (0xD0%nat, 0xE3); (0xC9%nat, 0xE6); (0xD1%nat, 0xE7); (0xCB%nat, 0xE4); (0xCD%nat, 0xE5);
   (0x97%nat, 0xE0); (0xCF%nat, 0xE1); (0xD2%nat, 0xE8); (0xD3%nat, 0xE9)].

Definition normalmap : list Z := table
  [0; 27; 49; 50; 51; 52; 53; 54; 55; 56; 57; 48; 45; 61; 8; 9;
   113; 119; 101; 114; 116; 121; 117; 105; 111; 112; 91; 93; 10; 0; 97; 115;
   100; 102; 103; 104; 106; 107; 108; 59; 39; 96; 0; 92; 122; 120; 99; 118;
   98; 110; 109; 44; 46; 47; 0; 42; 0; 32; 0; 0; 0; 0; 0; 0;
   0; 0; 0; 0; 0; 0; 0; 55; 56; 57; 45; 52; 53; 54; 43; 49;
   50; 51; 48; 46; 0; 0; 0; 0]
  ([(0x9C%nat, 10); (0xB5%nat, 47)] ++ arrows).

Definition shiftmap : list Z := table
  [0; 27; 33; 64; 35; 36; 37; 94; 38; 42; 40; 41; 95; 43; 8; 9;
   81; 87; 69; 82; 84; 89; 85; 73; 79; 80; 123; 125; 10; 0; 65; 83;
   68; 70; 71; 72; 74; 75; 76; 58; 34; 126; 0; 124; 90; 88; 67; 86;
   66; 78; 77; 60; 62; 63; 0; 42; 0; 32; 0; 0; 0; 0; 0; 0;
   0; 0; 0; 0; 0; 0; 0; 55; 56; 57; 45; 52; 53; 54; 43; 49;
   50; 51; 48; 46; 0; 0; 0; 0]
  ([(0x9C%nat, 10); (0xB5%nat, 47)] ++ arrows).

Definition ctlmap : list Z := table
  [0; 0; 0; 0; 0; 0; 0; 0; 0; 0; 0; 0; 0; 0; 0; 0;
   17; 23; 5; 18; 20; 25; 21; 9; 15; 16; 0; 0; 13; 0; 1; 19;
   4; 6; 7; 8; 10; 11; 12; 0; 0; 0; 0; 28; 26; 24; 3; 22;
   2; 14; 13; 0; 0; 239; 0; 0]
  ([(0x9C%nat, 13); (0xB5%nat, 239)] ++ arrows).

Definition charcode : list (list Z) := [normalmap; shiftmap; ctlmap; ctlmap].

(** The character and the new [shift]; 0 is no character. *)
Definition kbd_decode (shift data : Z) : option (Z * Z) :=
  if data =? 0xE0 then Some (0, Z.lor shift E0ESC)
  else if negb (Z.land data 0x80 =? 0) then
    let data := if negb (Z.land shift E0ESC =? 0) then data else Z.land data 0x7F in
    sc ← aget shiftcode data;
    Some (0, Z.land shift (Z.lnot (Z.lor sc E0ESC)))
  else
    let '(data, shift) :=
      if negb (Z.land shift E0ESC =? 0) then (Z.lor data 0x80, Z.land shift (Z.lnot E0ESC)) else (data, shift) in
    sc ← aget shiftcode data;
    tc ← aget togglecode data;
    let shift := Z.lxor (Z.lor shift sc) tc in
    m ← aget charcode (Z.land shift (Z.lor CTL SHIFT));
    c ← aget m data;
    let c :=
      if negb (Z.land shift CAPSLOCK =? 0) then
        if (97 <=? c) && (c <=? 122) then c + (65 - 97)
        else if (65 <=? c) && (c <=? 90) then c + (97 - 65)
        else c
      else c in
    Some (c, shift).

(** ** What it decodes *)

(** A finite check over all states and scan codes. *)
Definition all_codes (f : Z -> Z -> bool) : bool := forallb (fun s => forallb (f s) (seqZ 0 256)) (seqZ 0 128).

Lemma all_codes_elim f shift data :
  all_codes f = true -> 0 <= shift < 128 -> 0 <= data < 256 -> f shift data = true.
Proof.
  intros Hf Hs Hd. unfold all_codes in Hf. rewrite forallb_forall in Hf.
  assert (Hin : forall n x, 0 <= x < n -> In x (seqZ 0 n)) by (intros; apply list_elem_of_In, elem_of_seqZ; lia).
  specialize (Hf shift (Hin 128 shift Hs)). rewrite forallb_forall in Hf. by apply Hf, Hin.
Qed.

(** Every table has an entry of one byte for every scan code. *)
Lemma table_entry m d :
  m ∈ [shiftcode; togglecode; normalmap; shiftmap; ctlmap] -> 0 <= d < 256 -> exists c, aget m d = Some c /\ 0 <= c < 256.
Proof.
  intros Hm Hd. assert (Hall : forallb (fun m => (length m =? 256)%nat && forallb (fun c => (0 <=? c) && (c <? 256)) m)
    [shiftcode; togglecode; normalmap; shiftmap; ctlmap] = true) by (vm_compute; reflexivity).
  rewrite forallb_forall in Hall. apply list_elem_of_In in Hm. specialize (Hall m Hm). apply andb_prop in Hall as [Hl Hc].
  apply Nat.eqb_eq in Hl. rewrite forallb_forall in Hc. destruct (lookup_lt_is_Some_2 m (Z.to_nat d)) as [c Hcd]; [lia|].
  exists c. unfold aget. destruct (Z.ltb_spec d 0); [lia|]. split; [done|]. specialize (Hc c). rewrite <- list_elem_of_In in Hc.
  specialize (Hc (list_elem_of_lookup_2 _ _ _ Hcd)). lia.
Qed.

Lemma charcode_entry k : exists m, aget charcode (Z.land k (Z.lor CTL SHIFT)) = Some m /\ m ∈ [shiftcode; togglecode; normalmap; shiftmap; ctlmap].
Proof.
  change (Z.lor CTL SHIFT) with (Z.ones 2). rewrite Z.land_ones by lia. pose proof (Z.mod_pos_bound k (2 ^ 2)).
  assert (k mod 2 ^ 2 = 0 \/ k mod 2 ^ 2 = 1 \/ k mod 2 ^ 2 = 2 \/ k mod 2 ^ 2 = 3) as [-> | [-> | [-> | ->]]] by lia;
    eexists; (split; [reflexivity|]); repeat constructor.
Qed.

Lemma kbd_decode_some shift data :
  0 <= data < 256 -> exists c shift', kbd_decode shift data = Some (c, shift') /\ 0 <= c < 256.
Proof.
  intros Hd. unfold kbd_decode. destruct (data =? 0xE0); [by eexists _, _|]. destruct (negb (Z.land data 128 =? 0)) eqn:E.
  - destruct (table_entry shiftcode (if negb (Z.land shift E0ESC =? 0) then data else Z.land data 0x7F)) as (sc & -> & _); [set_solver| |by eexists _, _].
    case_match; [done|]. change 0x7F with (Z.ones 7). rewrite Z.land_ones by lia. pose proof (Z.mod_pos_bound data (2 ^ 7)). lia.
  - assert (Hp : exists data' shift', (if negb (Z.land shift E0ESC =? 0) then (Z.lor data 0x80, Z.land shift (Z.lnot E0ESC)) else (data, shift)) = (data', shift') /\ 0 <= data' < 256).
    { case_match; [|by eexists _, _]. eexists _, _. split; [reflexivity|]. split; [apply Z.lor_nonneg; lia|].
      destruct (decide (Z.lor data 128 = 0)) as [->|]; [lia|]. pose proof (Z.lor_nonneg data 128). apply (Z.log2_lt_cancel _ 256).
      rewrite Z.log2_lor by lia. change (Z.log2 128) with 7. change (Z.log2 256) with 8.
      assert (Z.log2 data < 8); [|lia]. destruct (decide (data = 0)) as [->|]; [cbn; lia|]. apply Z.log2_lt_pow2; lia. }
    destruct Hp as (d & sh & -> & Hd'). destruct (table_entry shiftcode d) as (sc & -> & _); [set_solver|done|].
    destruct (table_entry togglecode d) as (tc & -> & _); [set_solver|done|]. cbn [mbind option_bind].
    destruct (charcode_entry (Z.lxor (Z.lor sh sc) tc)) as (m & -> & Hm). cbn [mbind option_bind].
    destruct (table_entry m d Hm Hd') as (c & -> & Hc). cbn [mbind option_bind]. eexists _, _. split; [reflexivity|].
    repeat case_match; lia.
Qed.

(** kbdgetc() never looks outside its tables: from every state of the modifier
    keys every scan code gives a character of one byte and a state again. *)
Theorem kbd_decode_total shift data :
  0 <= shift < 128 -> 0 <= data < 256 ->
  exists c shift', kbd_decode shift data = Some (c, shift') /\ 0 <= c < 256 /\ 0 <= shift' < 128.
Proof.
  intros Hs Hd. pose (f s d := match kbd_decode s d with
    | Some (c, s') => (0 <=? c) && (c <? 256) && (0 <=? s') && (s' <? 128) | None => false end).
  assert (Hf : f shift data = true) by (apply all_codes_elim; [vm_compute; reflexivity|done..]).
  unfold f in Hf. destruct (kbd_decode shift data) as [[c s']|]; [|done]. exists c, s'. split; [done|lia].
Qed.

Lemma kbd_decode_total_witness :
  exists c shift', kbd_decode 9 30 = Some (c, shift') /\ 0 <= c < 256 /\ 0 <= shift' < 128.
Proof. apply (kbd_decode_total 9 30); lia. Defined.

(** The keys of the letters, from 'a' on. *)
Definition letter_keys : list Z :=
  [30; 48; 46; 32; 18; 33; 34; 35; 23; 36; 37; 38; 50; 49; 24; 25; 16; 19; 31; 20; 22; 47; 17; 45; 21; 44].

(** A letter key gives the capital letter when exactly one of shift and caps lock
    is on, the small one otherwise, and with the control key the control
    character. *)
Theorem kbd_letters shift i key :
  0 <= shift < 64 -> letter_keys !! i = Some key ->
  kbd_decode shift key = Some
    (if Z.testbit shift 1 then Z.of_nat i + 1
     else if xorb (Z.testbit shift 0) (Z.testbit shift 3) then 65 + Z.of_nat i else 97 + Z.of_nat i, shift).
Proof.
  intros Hs Hi. pose (f s i := match letter_keys !! i with
    | Some key => bool_decide (kbd_decode s key = Some
        (if Z.testbit s 1 then Z.of_nat i + 1
         else if xorb (Z.testbit s 0) (Z.testbit s 3) then 65 + Z.of_nat i else 97 + Z.of_nat i, s))
    | None => true end).
  assert (Hf : forallb (fun s => forallb (f s) (seq 0 26)) (seqZ 0 64) = true) by (vm_compute; reflexivity).
  rewrite forallb_forall in Hf. specialize (Hf shift). rewrite forallb_forall in Hf.
  assert (Hfi : f shift i = true).
  { apply Hf; apply list_elem_of_In; [apply elem_of_seqZ; lia|]. apply elem_of_seq. apply lookup_lt_Some in Hi. cbn in Hi. lia. }
  unfold f in Hfi. rewrite Hi in Hfi. by apply bool_decide_eq_true in Hfi.
Qed.
