(* ===== verification/Console.v ===== *)
(** * The console (src/console.c) and the serial port (src/uart.c)

    The state is that of the two files, with the screen memory [crt]; the devices
    behind the I/O ports are the interface [Ports].  [consoleintr] takes the
    function that fetches characters, [kbdgetc] or [uartgetc], as in the source,
    and consoleread() and consolewrite() the operations on the inode's lock.  A
    loop that never ends is the end of the fuel. *)

From stdpp Require Import prelude strings list.
From Stdlib Require Import ZArith Lia.
From S2P Require Import Prelude Printf Kbd.

Class Ports (H : Type) := {
  p_inb : Z -> H -> Z * H;
  p_outb : Z -> Z -> H -> H;
}.

Definition COM1 : Z := 0x3f8.
Definition BACKSPACE : Z := 0x100.
Definition CRTPORT : Z := 0x3d4.
Definition INPUT_BUF : Z := 128.
Definition KBSTATP : Z := 0x64.
Definition KBDATAP : Z := 0x60.
Definition KBS_DIB : Z := 0x01.
Definition IRQ_KBD : Z := 1.
Definition IRQ_COM1 : Z := 4.

Record console (H : Type) := mkconsole {
  panicked : Z;
  locking : Z;                         (* cons.locking *)
  crt : list Z;
  ibuf : list Z;                       (* input.buf, input.r, input.w, input.e *)
  ir : Z;
  iw : Z;
  ie : Z;
  uart : bool;
  shift : Z;                           (* shift of kbdgetc() *)
  hw : H;
  reader_killed : Z;                   (* myproc()->killed of the reading process *)
  cons_dev : bool;                     (* devsw[CONSOLE] is set *)
}.
Arguments mkconsole {H}.
Arguments panicked {H} _.
Arguments locking {H} _.
Arguments crt {H} _.
Arguments ibuf {H} _.
Arguments ir {H} _.
Arguments iw {H} _.
Arguments ie {H} _.
Arguments uart {H} _.
Arguments shift {H} _.
Arguments hw {H} _.
Arguments reader_killed {H} _.
Arguments cons_dev {H} _.

#[export] Instance console_settable H : Settable (console H) :=
  fun s => mkconsole (panicked s) (locking s) (crt s) (ibuf s) (ir s) (iw s) (ie s) (uart s) (shift s) (hw s)
    (reader_killed s) (cons_dev s).

Section Console.
Context {H : Type} `{Ports H}.
Abbreviation CM := (M (console H)).

Definition inb (port : Z) : CM Z :=
  s ← getS;
  let '(v, h') := p_inb port (hw s) in
  modS (fun s => s <| hw := h' |>) ;;
  mret v.

Definition outb (port v : Z) : CM unit := modS (fun s => s <| hw ::= p_outb port (u8 v) |>).

(** ** uart.c *)

(** [for(i = 0; i < 128 && !(inb(COM1+5) & 0x20); i++) microdelay(10);] *)
Fixpoint uart_wait (n : nat) : CM unit :=
  match n with
  | O => mret tt
  | S n' => v ← inb (COM1 + 5); if Z.land v 0x20 =? 0 then uart_wait n' else mret tt
  end.

Definition uartputc (c : Z) : CM unit :=
  s ← getS;
  if negb (uart s) then mret tt else
  uart_wait 128 ;;
  outb (COM1 + 0) c.

Definition uartgetc : CM Z :=
  s ← getS;
  if negb (uart s) then mret (-1) else
  v ← inb (COM1 + 5);
  if Z.land v 0x01 =? 0 then mret (-1) else
  inb (COM1 + 0).

Definition uartinit : CM unit :=
  outb (COM1 + 2) 0 ;;
  outb (COM1 + 3) 0x80 ;;
  outb (COM1 + 0) (115200 / 9600) ;;
  outb (COM1 + 1) 0 ;;
  outb (COM1 + 3) 0x03 ;;
  outb (COM1 + 4) 0 ;;
  outb (COM1 + 1) 0x01 ;;
  v ← inb (COM1 + 5);
  if v =? 0xFF then mret tt else
  modS (fun s => s <| uart := true |>) ;;
  inb (COM1 + 2) ;;
  inb (COM1 + 0) ;;
  emit (Eioapic IRQ_COM1 0) ;;
  mfor [120; 118; 54; 46; 46; 46; 10] uartputc.       (* "xv6...\n" *)

(** ** Output *)

Definition setcrt (i v : Z) : CM unit :=
  s ← getS;
  l ← wr (crt s) i v;
  modS (fun s => s <| crt := l |>).

(** memmove(crt, crt+80, 2*23*80), and memset(crt+pos, 0, 2*(24*80-pos)) *)
Definition scroll_up (l : list Z) : list Z := take 1840 (drop 80 l) ++ drop 1840 l.
Definition clear_from (pos : Z) (l : list Z) : list Z :=
  take (Z.to_nat pos) l ++ replicate (Z.to_nat (1920 - pos)) 0 ++ drop 1920 l.

(** Cursor position: col + 80*row. *)
Definition get_cursor : CM Z :=
  outb CRTPORT 14 ;;
  hi ← inb (CRTPORT + 1);
  outb CRTPORT 15 ;;
  lo ← inb (CRTPORT + 1);
  mret (Z.lor (Z.shiftl hi 8) lo).

Definition set_cursor (pos : Z) : CM unit :=
  outb CRTPORT 14 ;;
  outb (CRTPORT + 1) (Z.shiftr pos 8) ;;
  outb CRTPORT 15 ;;
  outb (CRTPORT + 1) pos.

Definition cgaputc (c : Z) : CM unit :=
  pos ← get_cursor;
  pos ← (if c =? 10 then mret (pos + (80 - Z.rem pos 80))
         else if c =? BACKSPACE then mret (if 0 <? pos then pos - 1 else pos)
         else setcrt pos (Z.lor (Z.land c 0xff) 0x0700) ;; mret (pos + 1));
  if (pos <? 0) || (25 * 80 <? pos) then panic "pos under/overflow" else
  pos ← (if 24 <=? Z.quot pos 80 then
           modS (fun s => s <| crt ::= scroll_up |>) ;;
           modS (fun s => s <| crt ::= clear_from (pos - 80) |>) ;;
           mret (pos - 80)
         else mret pos);
  set_cursor pos ;;
  setcrt pos (Z.lor 32 0x0700).

Definition consputc (c : Z) : CM unit :=
  s ← getS;
  if negb (panicked s =? 0) then nofuel else
  (if c =? BACKSPACE then uartputc 8 ;; uartputc 32 ;; uartputc 8 else uartputc c) ;;
  cgaputc c.

(** printint(): the digits of printf() in lower case. *)
Definition cdigits : list Z := [48;49;50;51;52;53;54;55;56;57;97;98;99;100;101;102].

Definition cprintint (xx base : Z) (sign : bool) : CM unit :=
  let sign := sign && (xx <? 0) in
  let x := if sign then u32 (- xx) else u32 xx in
  buf ← of_option (digits_loop cdigits base x [] 32);
  buf ← of_option (if sign then if (16 <=? length buf)%nat then None else Some (buf ++ [45]) else Some buf);
  mfor (reverse buf) consputc.

Section Format.
Context (str_at : Z -> list Z).

(** The loop over the format with the arguments [argp]. *)
Fixpoint cprintf_loop (fmt argp : list Z) : CM unit :=
  match fmt with
  | [] => mret tt
  | c :: fmt' =>
      if negb (c =? 37) then consputc c ;; cprintf_loop fmt' argp else
      match fmt' with
      | [] => mret tt
      | c :: fmt'' =>
          if c =? 100 then
            a ← of_option (head argp); cprintint (s32 a) 10 true ;; cprintf_loop fmt'' (tail argp)
          else if (c =? 120) || (c =? 112) then
            a ← of_option (head argp); cprintint (s32 a) 16 false ;; cprintf_loop fmt'' (tail argp)
          else if c =? 115 then
            a ← of_option (head argp);
            mfor (if a =? 0 then null_str else str_at a) consputc ;; cprintf_loop fmt'' (tail argp)
          else if c =? 37 then consputc 37 ;; cprintf_loop fmt'' argp
          else consputc 37 ;; consputc c ;; cprintf_loop fmt'' argp
      end
  end.

Definition cons_printf (fmt : option (list Z)) (argp : list Z) : CM unit :=
  s ← getS;
  let lk := negb (locking s =? 0) in
  (if lk then acquire Lcons else mret tt) ;;
  match fmt with
  | None => panic "null fmt"
  | Some fmt => cprintf_loop fmt argp
  end ;;
  (if lk then release Lcons else mret tt).

(** "lapicid %d: panic: " and " %p"; [pcs] are the ten words of getcallerpcs().  The
    message [s] is printed as a format. *)
Definition panic_fmt : list Z := [108;97;112;105;99;105;100;32;37;100;58;32;112;97;110;105;99;58;32].

Definition panic_body (lapicid : Z) (s : list Z) (pcs : list Z) : CM unit :=
  modS (fun s => s <| locking := 0 |>) ;;
  cons_printf (Some panic_fmt) [u32 lapicid] ;;
  cons_printf (Some s) [] ;;
  cons_printf (Some [10]) [] ;;
  mfor pcs (fun pc => cons_printf (Some [32; 37; 112]) [u32 pc]) ;;
  modS (fun s => s <| panicked := 1 |>).

Definition kpanic (lapicid : Z) (s pcs : list Z) : CM unit := panic_body lapicid s pcs ;; nofuel.
End Format.

(** ** Input *)

Definition kbdgetc : CM Z :=
  st ← inb KBSTATP;
  if Z.land st KBS_DIB =? 0 then mret (-1) else
  data ← inb KBDATAP;
  s ← getS;
  '(c, sh) ← of_option (kbd_decode (shift s) data);
  modS (fun s => s <| shift := sh |>) ;;
  mret c.

(** The kill-line loop; [fuel] bounds the characters in the buffer. *)
Fixpoint kill_line (fuel : nat) : CM unit :=
  s ← getS;
  if ie s =? iw s then mret tt else
  b ← rd (ibuf s) (u32 (ie s - 1) mod INPUT_BUF);
  if b =? 10 then mret tt else
  match fuel with
  | O => nofuel
  | S fuel' =>
      modS (fun s => s <| ie := u32 (ie s - 1) |>) ;;
      consputc BACKSPACE ;;
      kill_line fuel'
  end.

(** One turn of the switch, for the character [c]; C('x') is the code minus '@'. *)
Definition key (c : Z) : CM unit :=
  s ← getS;
  if c =? 21 then kill_line 128
  else if (c =? 8) || (c =? 127) then
    if ie s =? iw s then mret tt else
    modS (fun s => s <| ie := u32 (ie s - 1) |>) ;;
    consputc BACKSPACE
  else if negb (c =? 0) && (u32 (ie s - ir s) <? INPUT_BUF) then
    let c := if c =? 13 then 10 else c in
    b ← wr (ibuf s) (ie s mod INPUT_BUF) (s8 c);
    modS (fun s => s <| ibuf := b |> <| ie := u32 (ie s + 1) |>) ;;
    consputc c ;;
    s ← getS;
    if (c =? 10) || (c =? 4) || (ie s =? u32 (ir s + INPUT_BUF)) then
      modS (fun s => s <| iw := ie s |>) ;;
      wakeup Cinput
    else mret tt
  else mret tt.

Section Intr.
Context (getc : CM Z).

(** [while((c = getc()) >= 0)]: whether a process listing was asked for. *)
Fixpoint intr_loop (fuel : nat) : CM bool :=
  match fuel with
  | O => nofuel
  | S fuel' =>
      c ← getc;
      if c <? 0 then mret false
      else if c =? 16 then intr_loop fuel' ;; mret true
      else key c ;; intr_loop fuel'
  end.

Definition consoleintr (procdump : CM unit) (fuel : nat) : CM unit :=
  acquire Lcons ;;
  doprocdump ← intr_loop fuel;
  release Lcons ;;
  (if (doprocdump : bool) then procdump else mret tt).
End Intr.

Definition kbdintr : CM unit -> nat -> CM unit := consoleintr kbdgetc.
Definition uartintr : CM unit -> nat -> CM unit := consoleintr uartgetc.

Section ReadWrite.
Context (iunlock ilock : CM unit).

(** [while(input.r == input.w) {...}]: [None] is the early return. *)
Fixpoint cread_wait (env : list (console H -> console H)) : CM (option (list (console H -> console H))) :=
  s ← getS;
  if ir s =? iw s then
    if negb (reader_killed s =? 0) then release Lcons ;; ilock ;; mret None
    else
      match env with
      | [] => sleep Cinput Lcons [] ;; undef
      | f :: env' => sleep Cinput Lcons [f] ;; cread_wait env'
      end
  else mret (Some env).

(** [while(n > 0) {...}]: the bytes stored at dst; [got] says whether there are
    some already, that is, whether n < target. *)
Fixpoint cread_loop (n : nat) (got : bool) (env : list (console H -> console H)) : CM (option (list Z)) :=
  match n with
  | O => mret (Some [])
  | S n' =>
      o ← cread_wait env;
      match o with
      | None => mret None
      | Some env' =>
          s ← getS;
          c ← rd (ibuf s) (ir s mod INPUT_BUF);
          modS (fun s => s <| ir := u32 (ir s + 1) |>) ;;
          if c =? 4 then
            (if got then modS (fun s => s <| ir := u32 (ir s - 1) |>) else mret tt) ;;
            mret (Some [])
          else if c =? 10 then mret (Some [c])
          else
            r ← cread_loop n' true env';
            mret (cons c <$> r)
      end
  end.

(** The result and, when it is not -1, the bytes stored at dst. *)
Definition consoleread (n : Z) (env : list (console H -> console H)) : CM (Z * list Z) :=
  iunlock ;;
  acquire Lcons ;;
  r ← cread_loop (Z.to_nat n) false env;
  match r with
  | None => mret (-1, [])
  | Some bs => release Lcons ;; ilock ;; mret (Z.of_nat (length bs), bs)
  end.

Definition consolewrite (buf : list Z) : CM Z :=
  iunlock ;;
  acquire Lcons ;;
  mfor buf (fun b => consputc (Z.land b 0xff)) ;;
  release Lcons ;;
  ilock ;;
  mret (Z.of_nat (length buf)).
End ReadWrite.

Definition consoleinit : CM unit :=
  initlock Lcons "console" ;;
  modS (fun s => s <| cons_dev := true |>) ;;
  modS (fun s => s <| locking := 1 |>) ;;
  emit (Eioapic IRQ_KBD 0).
End Console.
