(* ===== verification/ConsoleSpec.v ===== *)
(** * The console does what a terminal does (src/console.c, src/uart.c)

    What the output routines rely on of the video and serial hardware is the
    class [ScreenOk]; with it, putting a character keeps the cursor on the screen
    and disturbs no input.  The input buffer is related to two lists of bytes, the
    lines ready to be read and the line being edited, on which keys and reads have
    their obvious meaning. *)

From stdpp Require Import prelude gmap strings list.
From Stdlib Require Import ZArith Lia.
From S2P Require Import Prelude Ring Printf Kbd Console.

(** ** The screen *)

Class ScreenOk (H : Type) `{Ports H} := {
  input_t : Type;
  waiting : H -> input_t;              (* what keyboard and serial line have to deliver *)
  csel : H -> Z;                       (* the selected register of the video controller *)
  creg : H -> Z -> Z;
  creg_range : forall h k, 0 <= creg h k < 256;
  select_ok : forall h v, 0 <= v < 256 ->
    csel (p_outb CRTPORT v h) = v /\ creg (p_outb CRTPORT v h) = creg h /\ waiting (p_outb CRTPORT v h) = waiting h;
  setreg_ok : forall h v, 0 <= v < 256 ->
    csel (p_outb (CRTPORT + 1) v h) = csel h /\ waiting (p_outb (CRTPORT + 1) v h) = waiting h /\
    forall k, creg (p_outb (CRTPORT + 1) v h) k = if k =? csel h then v else creg h k;
  getreg_ok : forall h, exists h', p_inb (CRTPORT + 1) h = (creg h (csel h), h') /\
    csel h' = csel h /\ creg h' = creg h /\ waiting h' = waiting h;
  serial_ok : forall h v, 0 <= v < 256 -> creg (p_outb COM1 v h) = creg h /\ waiting (p_outb COM1 v h) = waiting h;
  status_ok : forall h, creg (p_inb (COM1 + 5) h).2 = creg h /\ waiting (p_inb (COM1 + 5) h).2 = waiting h;
}.

Section Screen.
Context {H : Type} `{ScreenOk H}.
Implicit Types (s : console H) (c : ctx).

Definition cursor (h : H) : Z := creg h 14 * 256 + creg h 15.

Record scr_ok s : Prop := {
  so_alive : panicked s = 0;
  so_crt : (2000 <= length (crt s))%nat;
  so_cursor : 0 <= cursor (hw s) < 1920;
}.

(** Nothing but the screen and the output side of the devices has changed. *)
Definition output s s' : Prop :=
  exists l h, s' = s <| crt := l |> <| hw := h |> /\ scr_ok s' /\ waiting h = waiting (hw s).

(** What a character does to the cursor and the screen: position and screen before
    the check for the last line, and after it. *)
Definition cga_char (k : Z) (p : Z * list Z) : Z * list Z :=
  let '(pos, l) := p in
  if k =? 10 then (pos + (80 - pos mod 80), l)
  else if k =? BACKSPACE then (if 0 <? pos then pos - 1 else pos, l)
  else (pos + 1, <[Z.to_nat pos := Z.lor (Z.land k 0xff) 0x0700]> l).

Definition cga_wrap (p : Z * list Z) : Z * list Z :=
  let '(pos, l) := p in
  if 1920 <=? pos then (pos - 80, clear_from (pos - 80) (scroll_up l)) else (pos, l).

Definition cga_put (k : Z) (p : Z * list Z) : Z * list Z :=
  let '(pos, l) := cga_wrap (cga_char k p) in (pos, <[Z.to_nat pos := 0x0720]> l).

Definition set_hw s (h : H) : console H := s <| hw := h |>.

Lemma hw_set_hw s h : hw (set_hw s h) = h.
Proof. done. Qed.

Lemma set_hw_twice s h h' : set_hw (set_hw s h) h' = set_hw s h'.
Proof. done. Qed.

Lemma set_hw_id s : set_hw s (hw s) = s.
Proof. by destruct s. Qed.

Lemma con_outb_run port v c s : outb port v c s = Ok tt c (set_hw s (p_outb port (u8 v) (hw s))).
Proof. done. Qed.

Lemma setcrt_run i v c s :
  0 <= i < Z.of_nat (length (crt s)) -> setcrt i v c s = Ok tt c (s <| crt := <[Z.to_nat i := v]> (crt s) |>).
Proof. intros Hi. unfold setcrt, wr. mrun. rewrite aset_in by done. mrun. done. Qed.

Lemma getreg_run c s :
  exists h', inb (CRTPORT + 1) c s = Ok (creg (hw s) (csel (hw s))) c (set_hw s h') /\
    csel h' = csel (hw s) /\ creg h' = creg (hw s) /\ waiting h' = waiting (hw s).
Proof.
  destruct (getreg_ok (hw s)) as (h' & Hin & Hs). exists h'. split; [|done].
  unfold inb. mrun. rewrite Hin. mrun. done.
Qed.

(** Select a register and read it. *)
Lemma read_reg {A} k (f : Z -> M (console H) A) c s :
  0 <= k < 256 ->
  exists h', (outb CRTPORT k ;; v ← inb (CRTPORT + 1); f v) c s = f (creg (hw s) k) c (set_hw s h') /\
    creg h' = creg (hw s) /\ waiting h' = waiting (hw s).
Proof.
  intros Hk. destruct (select_ok (hw s) k Hk) as (Hs1 & Hr1 & Hw1).
  rewrite bindE, con_outb_run, (u8_small k) by done. cbn [obind].
  destruct (getreg_run c (set_hw s (p_outb CRTPORT k (hw s)))) as (h' & Hg & _ & Hr2 & Hw2).
  rewrite hw_set_hw in *. exists h'. rewrite bindE, Hg. cbn [obind]. rewrite Hs1, Hr1, set_hw_twice. split_and!; congruence.
Qed.

(** Select a register and write it. *)
Lemma write_reg {A} k v (f : M (console H) A) c s :
  0 <= k < 256 ->
  exists h', (outb CRTPORT k ;; outb (CRTPORT + 1) v ;; f) c s = f c (set_hw s h') /\
    (forall j, creg h' j = if j =? k then u8 v else creg (hw s) j) /\ waiting h' = waiting (hw s).
Proof.
  intros Hk. destruct (select_ok (hw s) k Hk) as (Hs1 & Hr1 & Hw1).
  rewrite bindE, con_outb_run, (u8_small k) by done. cbn [obind]. rewrite bindE, con_outb_run. cbn [obind]. rewrite hw_set_hw, set_hw_twice.
  destruct (setreg_ok (p_outb CRTPORT k (hw s)) (u8 v) (u8_range v)) as (_ & Hw2 & Hr2).
  eexists. split; [reflexivity|]. split; [intros j; by rewrite Hr2, Hs1, Hr1|congruence].
Qed.

Lemma get_cursor_run c s :
  exists h', get_cursor c s = Ok (cursor (hw s)) c (set_hw s h') /\ creg h' = creg (hw s) /\ waiting h' = waiting (hw s).
Proof.
  unfold get_cursor. edestruct (read_reg 14 (fun hi => outb CRTPORT 15 ;; lo ← inb (CRTPORT + 1); mret (Z.lor (Z.shiftl hi 8) lo)) c s)
    as (h1 & -> & Hr1 & Hw1); [lia|].
  edestruct (read_reg 15 (fun lo => mret (Z.lor (Z.shiftl (creg (hw s) 14) 8) lo)) c (set_hw s h1)) as (h2 & -> & Hr2 & Hw2); [lia|].
  rewrite hw_set_hw in *. exists h2. rewrite set_hw_twice, Hr1. split; [|split; congruence]. rewrite retE. do 2 f_equal. unfold cursor.
  pose proof (creg_range (hw s) 15). by rewrite lor_shiftl by lia.
Qed.

Lemma set_cursor_run pos c s :
  0 <= pos < 65536 ->
  exists h', set_cursor pos c s = Ok tt c (set_hw s h') /\ cursor h' = pos /\ waiting h' = waiting (hw s).
Proof.
  intros Hp.
  destruct (write_reg 14 (Z.shiftr pos 8) (outb CRTPORT 15 ;; outb (CRTPORT + 1) pos ;; mret tt) c s) as (h1 & E1 & Hr1 & Hw1); [lia|].
  destruct (write_reg 15 pos (mret tt : M (console H) unit) c (set_hw s h1)) as (h2 & E2 & Hr2 & Hw2); [lia|].
  exists h2. rewrite hw_set_hw, set_hw_twice in *. split_and!; [etransitivity; [|exact E2]; by rewrite <- E1| |congruence].
  unfold cursor. rewrite !Hr2. cbn. rewrite Hr1. cbn. pose proof (Z.div_mod pos 256). pose proof (Z.mod_pos_bound pos 256).
  rewrite Z.shiftr_div_pow2 by lia. change (2 ^ 8) with 256. rewrite (u8_small (pos / 256)) by lia. unfold u8. change (2 ^ 8) with 256. lia.
Qed.

(** ** Putting a character *)

Lemma cga_char_range k pos l :
  0 <= pos < 1920 -> 0 <= (cga_char k (pos, l)).1 <= 1920 /\ length (cga_char k (pos, l)).2 = length l.
Proof.
  intros Hp. unfold cga_char. pose proof (Z.mod_pos_bound pos 80). pose proof (Z.div_mod pos 80).
  destruct (k =? 10); [cbn; split; [|done]; assert (pos / 80 < 24) by (apply Z.div_lt_upper_bound; lia); lia|].
  destruct (k =? BACKSPACE); [cbn; destruct (Z.ltb_spec 0 pos); lia|]. cbn. rewrite length_insert. lia.
Qed.

Lemma cga_wrap_range pos l :
  0 <= pos <= 1920 -> (2000 <= length l)%nat ->
  0 <= (cga_wrap (pos, l)).1 < 1920 /\ length (cga_wrap (pos, l)).2 = length l.
Proof.
  intros Hp Hl. unfold cga_wrap. destruct (Z.leb_spec 1920 pos); cbn; [|lia]. split; [lia|]. unfold clear_from, scroll_up.
  rewrite !length_app, length_take, length_replicate, !length_drop, !length_app, length_take, !length_drop. lia.
Qed.

(** cgaputc() puts the character at the cursor, moves the cursor and scrolls when it
    leaves the 24 lines. *)
Lemma cgaputc_run k c s :
  scr_ok s ->
  exists h', let '(pos, l) := cga_put k (cursor (hw s), crt s) in
    cgaputc k c s = Ok tt c (s <| crt := l |> <| hw := h' |>) /\ cursor h' = pos /\ waiting h' = waiting (hw s) /\
    0 <= pos < 1920 /\ length l = length (crt s).
Proof.
  intros [_ Hcrt Hcur]. unfold cgaputc. destruct (get_cursor_run c s) as (h1 & Hg & Hr1 & Hw1).
  rewrite bindE, Hg. cbn [obind].
  set (p0 := cursor (hw s)) in *. pose proof (cga_char_range k p0 (crt s) Hcur) as [Hr Hlen].
  assert (E1 : (if k =? 10 then mret (p0 + (80 - Z.rem p0 80))
         else if k =? BACKSPACE then mret (if 0 <? p0 then p0 - 1 else p0)
         else setcrt p0 (Z.lor (Z.land k 0xff) 0x0700) ;; mret (p0 + 1)) c (set_hw s h1) =
     Ok (cga_char k (p0, crt s)).1 c ((set_hw s h1) <| crt := (cga_char k (p0, crt s)).2 |>)).
  { unfold cga_char. rewrite Z.rem_mod_nonneg by lia. destruct (k =? 10); [by destruct s|]. destruct (k =? BACKSPACE); [by destruct s|].
    rewrite bindE, setcrt_run by (cbn; lia). done. }
  rewrite bindE, E1. cbn [obind]. clear E1 Hg. unfold cga_put. destruct (cga_char k (p0, crt s)) as [p1 l1]. cbn [fst snd] in *.
  destruct (Z.ltb_spec p1 0); [lia|]. destruct (Z.ltb_spec (25 * 80) p1); [lia|]. cbn [orb].
  pose proof (cga_wrap_range p1 l1 Hr ltac:(lia)) as [Hr2 Hlen2].
  assert (E2 : (if 24 <=? Z.quot p1 80 then
       modS (fun s => s <| crt ::= scroll_up |>) ;; modS (fun s => s <| crt ::= clear_from (p1 - 80) |>) ;; mret (p1 - 80)
     else mret p1) c ((set_hw s h1) <| crt := l1 |>) = Ok (cga_wrap (p1, l1)).1 c ((set_hw s h1) <| crt := (cga_wrap (p1, l1)).2 |>)).
  { unfold cga_wrap. rewrite Z.quot_div_nonneg by lia. pose proof (Z.div_mod p1 80). pose proof (Z.mod_pos_bound p1 80).
    destruct (Z.leb_spec 24 (p1 / 80)), (Z.leb_spec 1920 p1); try lia; done. }
  rewrite bindE, E2. cbn [obind]. clear E2. destruct (cga_wrap (p1, l1)) as [p2 l2]. cbn [fst snd] in *.
  destruct (set_cursor_run p2 c ((set_hw s h1) <| crt := l2 |>)) as (h2 & E3 & Hc2 & Hw2); [lia|].
  exists h2. rewrite bindE, E3. cbn [obind]. rewrite setcrt_run by (cbn; lia).
  split_and!; [done|done|by rewrite Hw2|lia|lia|rewrite length_insert; lia].
Qed.

Lemma uart_wait_run n c s :
  exists h', uart_wait n c s = Ok tt c (set_hw s h') /\ creg h' = creg (hw s) /\ waiting h' = waiting (hw s).
Proof.
  revert s. induction n as [|n IH]; intros s; cbn [uart_wait].
  { exists (hw s). by rewrite set_hw_id. }
  destruct (status_ok (hw s)) as [Hr Hw]. unfold inb. mrun. destruct (p_inb (COM1 + 5) (hw s)) as [v h]. cbn [snd] in *. mrun.
  change (s <| hw := h |>) with (set_hw s h). destruct (Z.land v 32 =? 0); [|exists h; by rewrite retE].
  destruct (IH (set_hw s h)) as (h' & -> & Hr' & Hw'). exists h'. rewrite hw_set_hw in *. by rewrite set_hw_twice, Hr', Hw'.
Qed.

Lemma uartputc_run k c s :
  exists h', uartputc k c s = Ok tt c (set_hw s h') /\ creg h' = creg (hw s) /\ waiting h' = waiting (hw s).
Proof.
  unfold uartputc. mrun. destruct (uart s); cbn [negb]; [|exists (hw s); by rewrite set_hw_id].
  destruct (uart_wait_run 128 c s) as (h1 & E & Hr & Hw). rewrite bindE, E. cbn [obind]. rewrite con_outb_run, hw_set_hw, set_hw_twice.
  destruct (serial_ok h1 (u8 k) (u8_range k)) as [Hr2 Hw2]. change (COM1 + 0) with COM1. eexists. split; [done|]. by rewrite Hr2, Hw2.
Qed.

(** consputc() never panics: the cursor stays in the first 24 lines of the screen. *)
Lemma consputc_run k c s : scr_ok s -> exists s', consputc k c s = Ok tt c s' /\ output s s'.
Proof.
  intros Hok. unfold consputc. mrun. rewrite (so_alive s Hok). cbn [Z.eqb negb].
  assert (E : exists h', (if k =? BACKSPACE then uartputc 8 ;; uartputc 32 ;; uartputc 8 else uartputc k) c s = Ok tt c (set_hw s h') /\
    creg h' = creg (hw s) /\ waiting h' = waiting (hw s)).
  { destruct (k =? BACKSPACE); [|apply uartputc_run].
    destruct (uartputc_run 8 c s) as (h1 & E1 & Hr1 & Hw1). rewrite bindE, E1. cbn [obind].
    destruct (uartputc_run 32 c (set_hw s h1)) as (h2 & E2 & Hr2 & Hw2). rewrite bindE, E2. cbn [obind]. rewrite set_hw_twice, hw_set_hw in *.
    destruct (uartputc_run 8 c (set_hw s h2)) as (h3 & -> & Hr3 & Hw3). rewrite set_hw_twice, hw_set_hw in *. exists h3. split_and!; congruence. }
  destruct E as (h1 & E & Hr & Hw). rewrite bindE, E. cbn [obind]. destruct Hok as [Ha Hl Hc].
  assert (Hok1 : scr_ok (set_hw s h1)) by (split; [done|done|rewrite hw_set_hw; unfold cursor in *; by rewrite Hr]).
  destruct (cgaputc_run k c (set_hw s h1) Hok1) as (h2 & Hput). destruct (cga_put k _) as [pos l]. destruct Hput as (-> & Hc2 & Hw2 & Hp & Hlen).
  eexists. split; [reflexivity|]. exists l, h2. split_and!; [done| |by rewrite Hw2]. split; cbn; [done|rewrite Hlen; exact Hl|lia].
Qed.
End Screen.

(** ** The input buffer *)

(** [ready] are the bytes that may be read, [line] those that may still be edited. *)
Record in_core {H} (s : console H) (ready line : list Z) : Prop := {
  in_buf : length (ibuf s) = 128%nat;
  in_r : 0 <= ir s < 2 ^ 32;
  in_w : iw s = u32 (ir s + Z.of_nat (length ready));
  in_e : ie s = u32 (ir s + Z.of_nat (length (ready ++ line)));
  in_data : window 128 (ibuf s) (ir s) (length (ready ++ line)) = ready ++ line;
  in_room : (length (ready ++ line) <= 128)%nat;
}.

(** A full buffer and a line that is ended are ready to be read. *)
Definition in_rel {H} (s : console H) (ready line : list Z) : Prop :=
  in_core s ready line /\ (length (ready ++ line) = 128%nat -> line = []) /\ 10 ∉ line.

(** What a key does to them. *)
Definition akey (c : Z) (p : list Z * list Z) : list Z * list Z :=
  let '(ready, line) := p in
  if c =? 21 then (ready, [])
  else if (c =? 8) || (c =? 127) then (ready, removelast line)
  else if negb (c =? 0) && (length (ready ++ line) <? 128)%nat then
    let c := if c =? 13 then 10 else c in
    let line := line ++ [s8 c] in
    if (c =? 10) || (c =? 4) || (length (ready ++ line) =? 128)%nat then (ready ++ line, []) else (ready, line)
  else (ready, line).

Lemma div_128 : (128 | 2 ^ 32).
Proof. by exists 33554432. Qed.

Lemma u32_same r a b : 0 <= a < 2 ^ 32 -> 0 <= b < 2 ^ 32 -> (u32 (r + a) =? u32 (r + b)) = (a =? b).
Proof.
  intros Ha Hb. destruct (Z.eqb_spec a b) as [->|Hne]; [apply Z.eqb_refl|]. apply Z.eqb_neq. intros E. apply Hne.
  apply (f_equal (fun x => u32 (x - r))) in E. rewrite !u32_sub_l in E.
  replace (r + a - r) with a in E by lia. replace (r + b - r) with b in E by lia. by rewrite !u32_small in E.
Qed.

Lemma u32_diff r a : 0 <= a < 2 ^ 32 -> u32 (u32 (r + a) - r) = a.
Proof. intros Ha. rewrite u32_sub_l. replace (r + a - r) with a by lia. by apply u32_small. Qed.

Lemma in_rel_output {H} `{ScreenOk H} (s s' : console H) ready line : output s s' -> in_rel s ready line -> in_rel s' ready line.
Proof. intros (l & h & -> & _) [[? ? ? ? ? ?] Hx]. by split. Qed.

Section Edit.
Context {H : Type} (s : console H) (ready line : list Z) (Hin : in_rel s ready line).

(** The buffer when the last byte of the line is taken back. *)
Lemma in_rel_erase l x :
  line = l ++ [x] -> in_rel (s <| ie := u32 (ie s - 1) |>) ready l /\ x <> 10 /\ aget (ibuf s) (u32 (ie s - 1) mod 128) = Some x.
Proof using Hin.
  intros ->. destruct Hin as [[Hb Hr Hw He Hd Hro] [Hf Hl]]. rewrite app_assoc in *. rewrite length_app in *. cbn [length] in *.
  assert (Hx : ie s - 1 = u32 (ir s + Z.of_nat (length (ready ++ l) + 1)) - 1) by lia.
  assert (He1 : u32 (ie s - 1) = u32 (ir s + Z.of_nat (length (ready ++ l)))).
  { rewrite Hx, u32_sub_l. f_equal. lia. }
  rewrite window_app, window_1 in Hd. apply app_inj_2 in Hd as [Hd1 Hd2]; [|done]. injection Hd2 as Hd2. split_and!.
  - split; [split; cbn; try done; lia|]. split; [lia|set_solver].
  - set_solver.
  - rewrite He1, (u32_mod 128 ltac:(lia) div_128). pose proof (Z.mod_pos_bound (ir s + Z.of_nat (length (ready ++ l))) 128).
    unfold aget. destruct (Z.ltb_spec ((ir s + Z.of_nat (length (ready ++ l))) mod 128) 0); [lia|].
    rewrite nth_lookup in Hd2. destruct (lookup_lt_is_Some_2 (ibuf s) (Z.to_nat ((ir s + Z.of_nat (length (ready ++ l))) mod 128))) as [y Hy]; [lia|].
    rewrite Hy in Hd2 |- *. by f_equal.
Qed.

Lemma in_empty : (ie s =? iw s) = bool_decide (line = []).
Proof using Hin.
  destruct Hin as [[Hb Hr Hw He Hd Hro] [Hf Hl]]. rewrite Hw, He, length_app. rewrite length_app in Hro.
  rewrite u32_same by lia. case_bool_decide as Hn; [subst; apply Z.eqb_eq; cbn; lia|]. apply Z.eqb_neq. destruct line; [done|]. cbn. lia.
Qed.

(** A byte stored behind the line. *)
Lemma in_core_store b :
  (length (ready ++ line) < 128)%nat ->
  in_core (s <| ibuf := <[Z.to_nat (ie s mod 128) := b]> (ibuf s) |> <| ie := u32 (ie s + 1) |>) ready (line ++ [b]).
Proof using Hin.
  intros Hlt. destruct Hin as [[Hb Hr Hw He Hd Hro] [Hf Hl]]. split; rewrite ?app_assoc, ?(length_app (ready ++ line)); cbn; try done; try lia.
  - by rewrite length_insert.
  - rewrite He, u32_add_l. f_equal. lia.
  - rewrite He, (u32_mod 128 ltac:(lia) div_128), window_snoc by lia. by rewrite Hd.
Qed.
End Edit.

Lemma in_core_commit {H} (s : console H) ready line : in_core s ready line -> in_rel (s <| iw := ie s |>) (ready ++ line) [].
Proof.
  intros [Hb Hr Hw He Hd Hro]. split; [|split; [done|set_solver]]. split; rewrite ?app_nil_r; cbn; done.
Qed.

(** ** Keys *)

Section Keys.
Context {H : Type} `{ScreenOk H}.
Implicit Types (s : console H).

(** The state after input: the lists, the screen and the devices' input. *)
Definition edited s s' (p : list Z * list Z) : Prop := in_rel s' p.1 p.2 /\ scr_ok s' /\ waiting (hw s') = waiting (hw s) /\
  uart s' = uart s /\ shift s' = shift s.

Lemma edited_trans s1 s2 s3 p q : edited s1 s2 p -> edited s2 s3 q -> edited s1 s3 q.
Proof. intros (_ & _ & Hw & Hu & Hs) (Hi & Ho & Hw' & Hu' & Hs'). split_and!; try done; congruence. Qed.

Lemma scr_ok_ie s x : scr_ok s -> scr_ok (s <| ie := x |>).
Proof. intros [? ? ?]. by split. Qed.

Lemma echo_run k c s ready line :
  in_rel s ready line -> scr_ok s -> exists s', consputc k c s = Ok tt c s' /\ edited s s' (ready, line).
Proof.
  intros Hin Hok. destruct (consputc_run k c s Hok) as (s' & Hrun & Hout). exists s'. split; [done|].
  pose proof (in_rel_output s s' ready line Hout Hin) as Hin'. destruct Hout as (l & h & -> & Hok' & Hw). by split_and!.
Qed.

(** Backspace on a line that is not empty. *)
Lemma erase_run {A} l x ready (f : M (console H) A) t s :
  in_rel s ready (l ++ [x]) -> scr_ok s ->
  exists s', (modS (fun s => s <| ie := u32 (ie s - 1) |>) ;; consputc BACKSPACE ;; f) (Ctx [Lcons] t) s = f (Ctx [Lcons] t) s' /\
    edited s s' (ready, l).
Proof.
  intros Hin Hok. destruct (in_rel_erase s ready (l ++ [x]) Hin l x eq_refl) as (Hin' & _). mrun.
  destruct (echo_run BACKSPACE (Ctx [Lcons] t) _ ready l Hin' (scr_ok_ie _ _ Hok)) as (s' & -> & Hed). exists s'. by split.
Qed.

Lemma kill_line_run fuel t s ready line :
  in_rel s ready line -> scr_ok s -> (length line <= fuel)%nat ->
  exists s', kill_line fuel (Ctx [Lcons] t) s = Ok tt (Ctx [Lcons] t) s' /\ edited s s' (ready, []).
Proof.
  revert s line. induction fuel as [|fuel IH]; intros s line Hin Hok Hf.
  all: destruct line as [|x l _] using rev_ind.
  1,3: exists s; cbn [kill_line]; mrun; rewrite (in_empty s ready [] Hin), bool_decide_true by done; by rewrite retE.
  { rewrite length_app in Hf. cbn in Hf. lia. }
  destruct (in_rel_erase s ready (l ++ [x]) Hin l x eq_refl) as (Hin' & Hx & Hg). cbn [kill_line]. mrun.
  rewrite (in_empty s ready (l ++ [x]) Hin), bool_decide_false by (by destruct l). unfold rd, INPUT_BUF. rewrite Hg. mrun.
  destruct (Z.eqb_spec x 10); [done|]. rewrite length_app in Hf. cbn in Hf.
  destruct (erase_run l x ready (kill_line fuel) t s Hin Hok) as (s1 & -> & Hed1).
  pose proof Hed1 as (Hin1 & Hok1 & _). destruct (IH s1 l Hin1 Hok1) as (s2 & -> & Hed2); [lia|].
  exists s2. split; [done|]. by eapply edited_trans.
Qed.

Lemma removelast_snoc (l : list Z) x : removelast (l ++ [x]) = l.
Proof. by rewrite removelast_app, app_nil_r. Qed.

(** A key is stored, and the line handed over when it ends. *)
Lemma store_run k t s ready line :
  in_rel s ready line -> scr_ok s -> 0 < k < 256 -> (length (ready ++ line) < 128)%nat ->
  let k' := if k =? 13 then 10 else k in
  let line' := line ++ [s8 k'] in
  let commit := (k' =? 10) || (k' =? 4) || (length (ready ++ line') =? 128)%nat in
  exists s', (b ← wr (ibuf s) (ie s mod INPUT_BUF) (s8 k');
    modS (fun s => s <| ibuf := b |> <| ie := u32 (ie s + 1) |>) ;;
    consputc k' ;;
    s ← getS;
    if (k' =? 10) || (k' =? 4) || (ie s =? u32 (ir s + INPUT_BUF)) then
      modS (fun s => s <| iw := ie s |>) ;; wakeup Cinput
    else mret tt) (Ctx [Lcons] t) s =
    Ok tt (Ctx [Lcons] (t ++ if commit then [Ewakeup Cinput] else [])) s' /\
    edited s s' (if commit then (ready ++ line', []) else (ready, line')).
Proof.
  intros Hin Hok Hk Hlt k' line' commit. pose proof (in_core_store s ready line Hin (s8 k') Hlt) as Hcore. fold line' in Hcore.
  pose proof (in_buf _ _ _ (proj1 Hin)) as Hlen. pose proof (Z.mod_pos_bound (ie s) 128 ltac:(lia)).
  unfold wr, INPUT_BUF. rewrite aset_in by lia. mrun. set (s1 := s <| ibuf := _ |> <| ie := _ |>) in *.
  assert (Hok1 : scr_ok s1) by (destruct Hok; by split).
  destruct (consputc_run k' (Ctx [Lcons] t) s1 Hok1) as (s2 & -> & (l & h & -> & Hok2 & Hw2)). cbn [obind]. mrun.
  assert (Hcore2 : in_core (s1 <| crt := l |> <| hw := h |>) ready line') by (destruct Hcore; by split).
  assert (Hfull : (ie (s1 <| crt := l |> <| hw := h |>) =? u32 (ir (s1 <| crt := l |> <| hw := h |>) + 128)) = (length (ready ++ line') =? 128)%nat).
  { rewrite (in_e _ _ _ Hcore2). pose proof (in_room _ _ _ Hcore2). rewrite u32_same by lia.
    destruct (Nat.eqb_spec (length (ready ++ line')) 128), (Z.eqb_spec (Z.of_nat (length (ready ++ line'))) 128); lia || done. }
  rewrite Hfull. fold commit. set (s2 := s1 <| crt := l |> <| hw := h |>) in *. destruct commit eqn:Ec.
  - eexists. split; [reflexivity|]. split_and!; try done; [by apply in_core_commit|by destruct Hok2].
  - rewrite app_nil_r. eexists. split; [reflexivity|]. unfold commit in Ec. apply orb_false_elim in Ec as [Ec Hnf].
    apply orb_false_elim in Ec as [Hn10 _]. apply Nat.eqb_neq in Hnf. apply Z.eqb_neq in Hn10.
    split_and!; try done. split; [done|]. split; [done|]. destruct Hin as (_ & _ & Hl). unfold line'.
    assert (s8 k' <> 10); [|set_solver]. assert (0 < k' < 256) by (unfold k'; destruct (k =? 13); lia).
    unfold s8. pose proof (Z.div_mod (k' + 2 ^ 7) (2 ^ 8)). pose proof (Z.mod_pos_bound (k' + 2 ^ 7) (2 ^ 8)). lia.
Qed.

(** One key: the lists change as [akey] says, and a reader is woken when there is
    more to read. *)
Lemma key_run k t s p :
  in_rel s p.1 p.2 -> scr_ok s -> 0 <= k < 256 ->
  exists t' s', key k (Ctx [Lcons] t) s = Ok tt (Ctx [Lcons] (t ++ t')) s' /\ edited s s' (akey k p) /\
    ((akey k p).1 <> p.1 -> Ewakeup Cinput ∈ t').
Proof.
  destruct p as [ready line]. cbn [fst snd]. intros Hin Hok Hk. unfold key, akey. mrun. destruct (k =? 21).
  { destruct (kill_line_run 128 t s ready line Hin Hok) as (s' & -> & Hed).
    - pose proof (in_room _ _ _ (proj1 Hin)) as Hr. rewrite length_app in Hr. lia.
    - exists [], s'. by rewrite app_nil_r. }
  destruct ((k =? 8) || (k =? 127)).
  { rewrite (in_empty s ready line Hin). case_bool_decide as He; [subst line; exists [], s; rewrite app_nil_r; by split_and!|].
    destruct line as [|x l _] using rev_ind; [done|]. rewrite removelast_snoc.
    destruct (erase_run l x ready (mret tt) t s Hin Hok) as (s' & Hrun & Hed). exists [], s'. rewrite app_nil_r. split_and!; try done.
    revert Hrun. rewrite !bindE. cbn [obind modS]. rewrite bindE. destruct (consputc BACKSPACE _ _) as [[] ? ?| | | | |]; cbn [obind]; by rewrite ?retE. }
  assert (Hroom : (u32 (ie s - ir s) <? INPUT_BUF) = (length (ready ++ line) <? 128)%nat).
  { destruct Hin as [[Hb Hr Hw He Hd Hro] _]. rewrite He, u32_diff by lia. unfold INPUT_BUF.
    destruct (Z.ltb_spec (Z.of_nat (length (ready ++ line))) 128), (Nat.ltb_spec (length (ready ++ line)) 128); lia || done. }
  rewrite Hroom. destruct (Z.eqb_spec k 0) as [->|]; cbn [negb andb]; [exists [], s; rewrite app_nil_r; by split_and!|].
  destruct (Nat.ltb_spec (length (ready ++ line)) 128) as [Hlt|]; [|exists [], s; rewrite app_nil_r; by split_and!].
  destruct (store_run k t s ready line Hin Hok ltac:(lia) Hlt) as (s' & Hrun & Hed). eexists _, s'. split; [exact Hrun|].
  split; [exact Hed|]. match goal with |- context [if ?b then (ready ++ _, _) else _] => destruct b end; [set_solver|by cbn].
Qed.

(** ** Interrupts *)

(** What getc() has to do: hand out the characters [typed] one by one, then -1, and
    touch nothing but its device. *)
Class KeySource (getc : M (console H) Z) := {
  typed : bool -> Z -> input_t -> list Z;
  getc_ok : forall c s, scr_ok s -> exists v sh h,
    getc c s = Ok v c (s <| shift := sh |> <| hw := h |>) /\ creg h = creg (hw s) /\
    match typed (uart s) (shift s) (waiting (hw s)) with
    | [] => v < 0
    | k :: ks => v = k /\ 0 <= k < 256 /\ typed (uart s) sh (waiting h) = ks
    end;
}.

Definition pending_keys (getc : M (console H) Z) `{KeySource getc} s : list Z := typed (uart s) (shift s) (waiting (hw s)).

(** Typing; ^P asks for a process listing and is no input. *)
Definition type_key (p : list Z * list Z) (k : Z) : list Z * list Z := if k =? 16 then p else akey k p.
Definition type_keys (p : list Z * list Z) (ks : list Z) : list Z * list Z := foldl type_key p ks.

Lemma intr_loop_run (getc : M (console H) Z) `{KeySource getc} fuel t s p :
  in_rel s p.1 p.2 -> scr_ok s -> (length (pending_keys getc s) < fuel)%nat ->
  let p' := type_keys p (pending_keys getc s) in
  exists t' s', intr_loop getc fuel (Ctx [Lcons] t) s =
      Ok (bool_decide (16 ∈ pending_keys getc s)) (Ctx [Lcons] (t ++ t')) s' /\
    in_rel s' p'.1 p'.2 /\ scr_ok s' /\ (p'.1 <> p.1 -> Ewakeup Cinput ∈ t').
Proof.
  revert t s p. induction fuel as [|fuel IH]; intros t s p Hin Hok Hf p'; [lia|]. cbn [intr_loop].
  destruct (getc_ok (Ctx [Lcons] t) s Hok) as (v & sh & h & Hg & Hr & Ht). rewrite bindE, Hg. cbn [obind].
  set (s1 := s <| shift := sh |> <| hw := h |>). assert (Hin1 : in_rel s1 p.1 p.2) by (destruct Hin as [[? ? ? ? ? ?] ?]; by split).
  assert (Hok1 : scr_ok s1) by (destruct Hok; split; [done|done|cbn; unfold cursor in *; by rewrite Hr]).
  unfold p', pending_keys in *. destruct (typed (uart s) (shift s) (waiting (hw s))) as [|k ks] eqn:Ek.
  { destruct (Z.ltb_spec v 0); [|lia]. exists [], s1. rewrite app_nil_r. by split_and!. }
  destruct Ht as (-> & Hk & Hks). destruct (Z.ltb_spec k 0); [lia|]. cbn [length] in Hf.
  destruct (Z.eqb_spec k 16) as [->|Hne].
  - destruct (IH t s1 p Hin1 Hok1) as (t' & s' & Hrun & Hin' & Hok' & Hwk); [cbn; rewrite Hks; lia|].
    cbn in Hrun, Hin', Hwk. rewrite Hks in Hrun, Hin', Hwk. exists t', s'. rewrite bindE, Hrun. cbn [obind].
    rewrite bool_decide_true by set_solver. by split_and!.
  - destruct (key_run k t s1 p Hin1 Hok1 Hk) as (t1 & s2 & Hrun1 & (Hin2 & Hok2 & Hw2 & Hu2 & Hs2) & Hwk1).
    rewrite bindE, Hrun1. cbn [obind]. assert (Hty : typed (uart s2) (shift s2) (waiting (hw s2)) = ks) by (by rewrite Hw2, Hu2, Hs2).
    destruct (IH (t ++ t1) s2 (akey k p) Hin2 Hok2) as (t' & s' & Hrun & Hin' & Hok' & Hwk); [rewrite Hty; lia|].
    rewrite Hty in Hrun, Hin', Hwk. exists (t1 ++ t'), s'. unfold type_keys in *. cbn [foldl].
    unfold type_key at 2 4 6. destruct (Z.eqb_spec k 16); [done|]. rewrite Hrun, <- app_assoc.
    split_and!; try done; [do 2 f_equal; apply bool_decide_ext; set_solver|].
    intros Hch. destruct (decide ((akey k p).1 = p.1)) as [E|]; [|set_solver]. rewrite <- E in Hch. set_solver.
Qed.

(** C36: consoleintr() edits and hands over lines as a terminal does: the characters
    typed since the last interrupt are appended to the line, erase its last
    character or all of it, and a newline, ^D or a full buffer makes the line ready
    to be read and wakes the reader; it never panics, leaves the lock free and
    returns, with a turn of the loop for each character. *)
Theorem consoleintr_spec (getc : M (console H) Z) `{KeySource getc} fuel t s p :
  in_rel s p.1 p.2 -> scr_ok s -> (length (pending_keys getc s) < fuel)%nat ->
  let p' := type_keys p (pending_keys getc s) in
  exists t' s', consoleintr getc (mret tt) fuel (Ctx [] t) s = Ok tt (Ctx [] (t ++ t')) s' /\
    in_rel s' p'.1 p'.2 /\ scr_ok s' /\ (p'.1 <> p.1 -> Ewakeup Cinput ∈ t').
Proof.
  intros Hin Hok Hf p'. destruct (intr_loop_run getc fuel t s p Hin Hok Hf) as (t' & s' & Hrun & Hpost).
  exists t', s'. split; [|done]. unfold consoleintr. mrun. rewrite Hrun. cbn [obind]. mrun. by destruct (bool_decide _).
Qed.
End Keys.

(** ** Reading *)

(** A read takes bytes up to and with a newline; ^D ends it, and is itself left for
    the next read if there are bytes already.  [None]: there is not enough. *)
Fixpoint line_read (n : nat) (got : bool) (ready : list Z) : option (list Z * list Z) :=
  match n, ready with
  | O, _ => Some ([], ready)
  | S _, [] => None
  | S n', c :: r =>
      if c =? 4 then Some ([], if got then ready else r)
      else if c =? 10 then Some ([c], r)
      else '(bs, rest) ← line_read n' true r; Some (c :: bs, rest)
  end.

Lemma line_read_none n got ready new : line_read n got (ready ++ new) = None -> line_read n got ready = None.
Proof.
  revert got ready. induction n as [|n IH]; intros got ready; [done|]. destruct ready as [|c r]; [done|]. cbn [app line_read].
  destruct (c =? 4); [done|]. destruct (c =? 10); [done|]. specialize (IH true r).
  destruct (line_read n true (r ++ new)) as [[]|]; [done|]. by rewrite IH.
Qed.

Lemma in_rel_take {H} (s : console H) c r line :
  in_rel s (c :: r) line ->
  aget (ibuf s) (ir s mod 128) = Some c /\ in_rel (s <| ir := u32 (ir s + 1) |>) r line /\
  s <| ir := u32 (ir s + 1) |> <| ir := u32 (u32 (ir s + 1) - 1) |> = s.
Proof.
  intros [[Hb Hr Hw He Hd Hro] [Hf Hl]]. cbn [app length] in *.
  destruct (window_cons 128 ltac:(lia) div_128 (ibuf s) (ir s) (length (r ++ line))) as (x & Hx & Hxs); [lia|].
  rewrite Hxs in Hd. injection Hd as -> Hd. split; [done|]. split.
  - split; [|split; [lia|done]]. split; cbn; try done.
    + apply u32_range.
    + rewrite Hw, u32_add_l. f_equal. lia.
    + rewrite He, u32_add_l. f_equal. lia.
    + lia.
  - rewrite u32_sub_l. replace (ir s + 1 - 1) with (ir s) by lia. rewrite u32_small by done. by destruct s.
Qed.

Section Reading.
Context {H : Type} (ilock : M (console H) unit) (ilock_ok : forall c s, ilock c s = Ok tt c s).
Implicit Types (s : console H).

(** What happens to the console while the reader sleeps: more is typed. *)
Definition typist (f : console H -> console H) : Prop :=
  forall s ready line, in_rel s ready line -> exists new line', in_rel (f s) (ready ++ new) line'.

Lemma nothing_ready s ready line : in_rel s ready line -> (ir s =? iw s) = bool_decide (ready = []).
Proof.
  intros [[Hb Hr Hw He Hd Hro] _]. rewrite Hw. rewrite length_app in Hro. pose proof (u32_same (ir s) 0 (Z.of_nat (length ready))) as E.
  rewrite Z.add_0_r, (u32_small (ir s)) in E by done. rewrite E by lia.
  case_bool_decide as Hn; [by subst|]. apply Z.eqb_neq. destruct ready; [done|]. cbn. lia.
Qed.

Lemma cread_wait_spec env t s ready line :
  in_rel s ready line -> Forall typist env ->
  match cread_wait ilock env (Ctx [Lcons] t) s with
  | Ok (Some env') c' s' => c' = Ctx [Lcons] t /\ Forall typist env' /\
      exists new line', in_rel s' (ready ++ new) line' /\ ready ++ new <> []
  | Ok None c' s' => held c' = [] /\ reader_killed s' <> 0
  | Blocked ch lk c' s' => ch = Cinput /\ lk = Lcons /\ ready = [] /\ exists line', in_rel s' [] line'
  | _ => False
  end.
Proof using ilock_ok.
  intros Hin Henv. revert s ready line Hin. induction Henv as [|f env Hf Henv IH]; intros s ready line Hin; cbn [cread_wait]; mrun;
    rewrite (nothing_ready s ready line Hin); case_bool_decide as Hne.
  2,4: rewrite retE; split_and!; auto using Forall_nil_2, Forall_cons_2; exists [], line; by rewrite app_nil_r.
  all: subst ready; destruct (Z.eqb_spec (reader_killed s) 0) as [Hk|Hk]; cbn [negb]; mrun; [|rewrite ilock_ok; cbn [obind]; by rewrite retE].
  - rewrite sleep_blocks. cbn [obind]. eauto.
  - rewrite sleep_alone. cbn [obind]. destruct (Hf s [] line Hin) as (new & line' & Hin').
    specialize (IH (f s) new line' Hin'). destruct (cread_wait ilock env _ _) as [[env'|] c' s'| |ch lk c' s'| | |]; try done.
    + destruct IH as (-> & Henv' & new' & line2 & Hin2 & Hne2). split_and!; try done. exists (new ++ new'), line2. by split.
    + destruct IH as (-> & -> & -> & Hl). by split_and!.
Qed.

Definition read_post (n : nat) (got : bool) (ready : list Z) t (o : out (console H) (option (list Z))) : Prop :=
  match o with
  | Ok (Some bs) c' s' => c' = Ctx [Lcons] t /\
      exists new rest line', line_read n got (ready ++ new) = Some (bs, rest) /\ in_rel s' rest line'
  | Ok None c' s' => held c' = [] /\ reader_killed s' <> 0
  | Blocked ch lk c' s' => ch = Cinput /\ lk = Lcons /\
      exists new line', line_read n got (ready ++ new) = None /\ in_rel s' [] line'
  | _ => False
  end.

Lemma cread_loop_spec n got env t s ready line :
  in_rel s ready line -> Forall typist env ->
  read_post n got ready t (cread_loop ilock n got env (Ctx [Lcons] t) s).
Proof using ilock_ok.
  revert got env s ready line. induction n as [|n IH]; intros got env s ready line Hin Henv; cbn [cread_loop].
  { split; [done|]. exists [], ready, line. by rewrite app_nil_r. }
  rewrite bindE. pose proof (cread_wait_spec env t s ready line Hin Henv) as Hw.
  destruct (cread_wait ilock env _ _) as [[env'|] c' s'| |ch lk c' s'| | |]; cbn [obind]; try done.
  2: { destruct Hw as (-> & -> & -> & line' & Hin'). split_and!; try done. by exists [], line'. }
  destruct Hw as (-> & Henv' & new & line' & Hin' & Hne). destruct (ready ++ new) as [|c r] eqn:Er; [done|].
  destruct (in_rel_take s' c r line' Hin') as (Hg & Hin1 & Hback). mrun. unfold rd, INPUT_BUF. rewrite Hg. mrun.
  set (s1 := s' <| ir := u32 (ir s' + 1) |>) in *.
  assert (Hlr : forall x, line_read (S n) got (ready ++ new ++ x) =
    if c =? 4 then Some ([], if got then c :: r ++ x else r ++ x) else if c =? 10 then Some ([c], r ++ x)
    else '(bs, rest) ← line_read n true (r ++ x); Some (c :: bs, rest)) by (intros x; by rewrite app_assoc, Er).
  pose proof (Hlr []) as Hlr0. rewrite !app_nil_r in Hlr0. destruct (c =? 4).
  { destruct got; mrun; (split; [done|]); eexists new, _, line'; (split; [exact Hlr0|]); [exact (eq_ind_r (fun z => in_rel z _ _) Hin' Hback)|done]. }
  destruct (c =? 10); [rewrite retE; split; [done|]; by eexists new, _, line'|].
  rewrite bindE. specialize (IH true env' s1 r line' Hin1 Henv'). unfold read_post in IH |- *.
  destruct (cread_loop ilock n true env' _ _) as [[bs|] c' s2| |ch lk c' s2| | |]; cbn [obind]; try done.
  - destruct IH as (-> & x & rest & line2 & Hx & Hin2). split; [done|]. exists (new ++ x), rest, line2. split; [|done]. by rewrite Hlr, Hx.
  - destruct IH as (-> & -> & x & line2 & Hx & Hin2). split_and!; try done. exists (new ++ x), line2. split; [|done]. by rewrite Hlr, Hx.
Qed.

(** consoleread() returns the next line, or as much of it as is asked for, without
    losing or repeating a byte of what is typed before or while it waits; ^D ends
    the read, and is kept when there are bytes to return, so that the next read
    returns none.  It sleeps only while nothing is ready and fails only for a killed
    process; the lock is free when it returns. *)
Theorem consoleread_spec iunlock n env t s ready line :
  (forall c s, iunlock c s = Ok tt c s) -> in_rel s ready line -> Forall typist env ->
  match consoleread iunlock ilock n env (Ctx [] t) s with
  | Ok (r, bs) c' s' => held c' = [] /\
      ((r = Z.of_nat (length bs) /\ exists new rest line',
          line_read (Z.to_nat n) false (ready ++ new) = Some (bs, rest) /\ in_rel s' rest line') \/
       (r = -1 /\ reader_killed s' <> 0))
  | Blocked ch lk c' s' => ch = Cinput /\ lk = Lcons /\
      exists new line', line_read (Z.to_nat n) false (ready ++ new) = None /\ in_rel s' [] line'
  | _ => False
  end.
Proof using ilock_ok.
  intros Hun Hin Henv. unfold consoleread. rewrite bindE, Hun. cbn [obind]. mrun.
  pose proof (cread_loop_spec (Z.to_nat n) false env t s ready line Hin Henv) as Hl. unfold read_post in Hl.
  destruct (cread_loop ilock _ _ _ _ _) as [[bs|] c' s'| |ch lk c' s'| | |]; cbn [obind]; try done.
  - destruct Hl as (-> & Hl). mrun. rewrite ilock_ok. cbn [obind]. rewrite retE. split; [done|]. by left.
  - rewrite retE. destruct Hl. split; [done|]. by right.
Qed.
End Reading.

(** ** A machine *)

(** A video controller, a serial line and a keyboard with what they have to
    deliver. *)
Record pc := mkpc { vsel : Z; vregs : gmap Z Z; rx : list Z; scan : list Z }.

#[export] Instance pc_settable : Settable pc := fun h => mkpc (vsel h) (vregs h) (rx h) (scan h).

Definition vreg (h : pc) (k : Z) : Z := u8 (default 0 (vregs h !! k)).

#[export] Instance pc_ports : Ports pc := {|
  p_inb p h :=
    if p =? CRTPORT + 1 then (vreg h (vsel h), h)
    else if p =? COM1 + 5 then (if bool_decide (rx h = []) then 0x20 else 0x21, h)
    else if p =? COM1 then (u8 (default 0 (head (rx h))), h <| rx ::= tail |>)
    else if p =? KBSTATP then (if bool_decide (scan h = []) then 0 else 1, h)
    else if p =? KBDATAP then (u8 (default 0 (head (scan h))), h <| scan ::= tail |>)
    else (0, h);
  p_outb p v h :=
    if p =? CRTPORT then h <| vsel := v |>
    else if p =? CRTPORT + 1 then h <| vregs ::= <[vsel h := v]> |>
    else h;
|}.

#[export] Instance pc_screen : ScreenOk pc.
Proof.
  refine {| waiting h := (rx h, scan h); csel := vsel; creg := vreg |}; try by intros.
  - intros h k. apply u8_range.
  - intros h v Hv. split_and!; try done. intros k. change (vreg (p_outb (CRTPORT + 1) v h) k) with (u8 (default 0 (<[vsel h := v]> (vregs h) !! k))).
    destruct (Z.eqb_spec k (vsel h)) as [->|].
    + rewrite lookup_insert_eq. by apply u8_small.
    + rewrite lookup_insert_ne by done. done.
  - intros h. by exists h.
Defined.

Lemma inb_run {H} `{Ports H} port c (s : console H) :
  inb port c s = let '(v, h) := p_inb port (hw s) in Ok v c (s <| hw := h |>).
Proof. unfold inb. mrun. by destruct (p_inb port (hw s)). Qed.

#[export] Instance uart_source : KeySource (uartgetc : M (console pc) Z).
Proof.
  refine {| typed u sh w := if u then u8 <$> w.1 else [] |}. intros c s _. unfold uartgetc, inb. mrun.
  exists (if uart s then match rx (hw s) with [] => -1 | k :: _ => u8 k end else -1), (shift s),
    (if uart s then (hw s) <| rx ::= tail |> else hw s).
  destruct s as [a1 a2 a3 a4 a5 a6 a7 [] a9 [vs vr [|k r] sc] a11 a12]; cbn; try (split_and!; done || lia).
  split_and!; [done|done|done|apply u8_range..|done].
Defined.

(** The characters of a sequence of scan codes. *)
Fixpoint kbd_keys (sh : Z) (codes : list Z) : list Z :=
  match codes with
  | [] => []
  | d :: codes' => match kbd_decode sh (u8 d) with Some (c, sh') => c :: kbd_keys sh' codes' | None => [] end
  end.

#[export] Instance kbd_source : KeySource (kbdgetc : M (console pc) Z).
Proof.
  refine {| typed u sh w := kbd_keys sh w.2 |}. intros c s _. cbn [waiting pc_screen snd]. unfold kbdgetc. rewrite bindE, inb_run.
  change (p_inb KBSTATP (hw s)) with (if bool_decide (scan (hw s) = []) then 0 else 1, hw s).
  destruct (scan (hw s)) as [|d ds] eqn:Es.
  { exists (-1), (shift s), (hw s). split_and!; [by destruct s|done|done]. }
  rewrite bool_decide_false by done. cbn [obind]. change (Z.land 1 KBS_DIB =? 0) with false. cbn match. rewrite bindE, inb_run.
  set (s1 := s <| hw := hw s |>). change (p_inb KBDATAP (hw s1)) with (u8 (default 0 (head (scan (hw s)))), (hw s) <| scan ::= tail |>).
  rewrite Es. cbn [obind]. mrun. destruct (kbd_decode_some (shift s) (u8 d) (u8_range d)) as (k & sh' & Hk & Hr).
  match goal with |- context [of_option ?o] => replace o with (Some (k, sh')) by (symmetry; exact Hk) end. mrun. exists k, sh', ((hw s) <| scan ::= tail |>). split_and!; [done|done|].
  cbn [kbd_keys]. rewrite Hk. split_and!; [done|lia|lia|]. cbn. by rewrite Es.
Defined.

(** A console whose counters are about to wrap around, and "hi", backspace, newline
    on its serial line. *)
Definition demo_con (l : list Z) : console pc :=
  mkconsole 0 1 (replicate 2000 0) (replicate 128 0) 4294967294 4294967294 4294967294 true 0 (mkpc 0 ∅ l []) 0 true.

Lemma demo_con_in l : in_rel (demo_con l) [] [].
Proof. split; [|split; [done|set_solver]]. split; vm_compute; done || lia || (split; congruence). Qed.

Lemma demo_con_scr l : scr_ok (demo_con l).
Proof. split; vm_compute; done || lia || (split; congruence). Qed.

Lemma consoleintr_spec_witness :
  exists t' s', consoleintr uartgetc (mret tt) 5 (Ctx [] []) (demo_con [104; 105; 8; 10]) = Ok tt (Ctx [] ([] ++ t')) s' /\
    in_rel s' [104; 10] [] /\ scr_ok s' /\ ([104; 10] <> [] -> Ewakeup Cinput ∈ t').
Proof.
  pose proof (consoleintr_spec uartgetc 5 [] (demo_con [104; 105; 8; 10]) ([], []) (demo_con_in _) (demo_con_scr _)) as Hx.
  assert (E : type_keys ([], []) (pending_keys uartgetc (demo_con [104; 105; 8; 10])) = ([104; 10], [])) by (vm_compute; reflexivity).
  rewrite E in Hx. apply Hx. vm_compute. lia.
Defined.

(** The same console after the newline. *)
Definition demo_con_line : console pc :=
  (demo_con []) <| ibuf := <[126%nat := 104]> (<[127%nat := 10]> (replicate 128 0)) |> <| iw := 0 |> <| ie := 0 |>.

Lemma demo_con_line_in : in_rel demo_con_line [104; 10] [].
Proof. split; [|split; [done|set_solver]]. split; vm_compute; done || lia || (split; congruence). Qed.

Lemma consoleread_spec_witness :
  match consoleread (mret tt) (mret tt) 100 [] (Ctx [] []) demo_con_line with
  | Ok (r, bs) c' s' => held c' = [] /\
      ((r = Z.of_nat (length bs) /\ exists new rest line',
          line_read (Z.to_nat 100) false ([104; 10] ++ new) = Some (bs, rest) /\ in_rel s' rest line') \/
       (r = -1 /\ reader_killed s' <> 0))
  | Blocked ch lk c' s' => ch = Cinput /\ lk = Lcons /\
      exists new line', line_read (Z.to_nat 100) false ([104; 10] ++ new) = None /\ in_rel s' [] line'
  | _ => False
  end.
Proof.
  apply (consoleread_spec (mret tt) (fun _ _ => eq_refl) (mret tt) 100 [] [] demo_con_line [104; 10] []).
  - intros c s. exact eq_refl.
  - exact demo_con_line_in.
  - constructor.
Defined.
