(* ===== verification/Grep.v ===== *)
(** * grep (src/grep.c)

    Strings are lists of bytes without the final nul.  [matchhere] and [match_] are
    the matcher; [accepts] says what a pattern means, and the theorem is that the
    matcher decides it.  [grep_read] is the work of grep() on one read(),
    and a descriptor is the list of the pieces its read() calls hand out: one piece
    for a file, one per write() or line for a pipe or the console. *)

From stdpp Require Import prelude list.
From Stdlib Require Import ZArith Lia.
From S2P Require Import Prelude.

(** ** The matcher *)

(** [mh] is matchhere() of the rest of the pattern. *)
Fixpoint matchstar (mh : list Z -> bool) (c : Z) (text : list Z) : bool :=
  if mh text then true else
  match text with
  | [] => false
  | x :: text' => if (x =? c) || (c =? 46) then matchstar mh c text' else false
  end.

Fixpoint matchhere (re text : list Z) : bool :=
  match re with
  | [] => true
  | c :: re1 =>
      match re1 with
      | d :: re2 =>
          if d =? 42 then matchstar (matchhere re2) c text else
          match text with
          | x :: text' => if (c =? 46) || (c =? x) then matchhere re1 text' else false
          | [] => false
          end
      | [] =>
          if c =? 36 then bool_decide (text = []) else
          match text with
          | x :: text' => if (c =? 46) || (c =? x) then matchhere re1 text' else false
          | [] => false
          end
      end
  end.

(** The do-while loop of match(), which also looks at the empty string. *)
Fixpoint match_loop (re text : list Z) : bool :=
  if matchhere re text then true else
  match text with [] => false | _ :: text' => match_loop re text' end.

Definition match_ (re text : list Z) : bool :=
  match re with
  | c :: re' => if c =? 94 then matchhere re' text else match_loop re text
  | [] => match_loop re text
  end.

(** ** What a pattern means *)

Inductive item := One (c : Z) | Star (c : Z) | End_.

Fixpoint items (re : list Z) : list item :=
  match re with
  | [] => []
  | c :: re1 =>
      match re1 with
      | d :: re2 => if d =? 42 then Star c :: items re2 else One c :: items re1
      | [] => if c =? 36 then [End_] else [One c]
      end
  end.

(** The character [c] of a pattern stands for [x]. *)
Definition stands (c x : Z) : Prop := c = 46 \/ c = x.

(** The items match some beginning of the text. *)
Inductive accepts : list item -> list Z -> Prop :=
| acc_nil text : accepts [] text
| acc_end : accepts [End_] []
| acc_one c x its text : stands c x -> accepts its text -> accepts (One c :: its) (x :: text)
| acc_star c w its text : Forall (stands c) w -> accepts its text -> accepts (Star c :: its) (w ++ text).

Lemma stands_b c x : (c =? 46) || (c =? x) = true <-> stands c x.
Proof. by rewrite orb_true_iff, !Z.eqb_eq. Qed.

Lemma stands_b' c x : (x =? c) || (c =? 46) = true <-> stands c x.
Proof. rewrite orb_comm, (Z.eqb_sym x c). apply stands_b. Qed.

Lemma matchstar_spec mh c text :
  matchstar mh c text = true <-> exists w rest, text = w ++ rest /\ Forall (stands c) w /\ mh rest = true.
Proof.
  induction text as [|x text IH]; cbn [matchstar].
  - destruct (mh []) eqn:Hm.
    + split; [|done]. intros _. by exists [], [].
    + split; [done|]. intros (w & rest & E & _ & Hr). symmetry in E. apply app_nil in E as [-> ->]. congruence.
  - destruct (mh (x :: text)) eqn:Hm.
    + split; [|done]. intros _. by exists [], (x :: text).
    + destruct ((x =? c) || (c =? 46)) eqn:Hs.
      * apply stands_b' in Hs. rewrite IH. split.
        -- intros (w & rest & -> & Hw & Hr). exists (x :: w), rest. split_and!; [done|by constructor|done].
        -- intros (w & rest & E & Hw & Hr). destruct w as [|y w]; [cbn in E; subst; congruence|].
           injection E as <- ->. apply Forall_cons in Hw as [_ Hw]. by exists w, rest.
      * split; [done|]. intros (w & rest & E & Hw & Hr). destruct w as [|y w]; [cbn in E; subst; congruence|].
        injection E as <- ->. apply Forall_cons in Hw as [Hy%stands_b' _]. congruence.
Qed.

Lemma accepts_star c its text :
  accepts (Star c :: its) text <-> exists w rest, text = w ++ rest /\ Forall (stands c) w /\ accepts its rest.
Proof.
  split; [inversion 1; subst; eauto|]. intros (w & rest & -> & Hw & Hr). by constructor.
Qed.

Lemma accepts_one c its text :
  accepts (One c :: its) text <-> exists x rest, text = x :: rest /\ stands c x /\ accepts its rest.
Proof. split; [inversion 1; subst; eauto|]. intros (x & rest & -> & Hx & Hr). by constructor. Qed.

Lemma one_spec (mh : list Z -> bool) c its text :
  (forall t, mh t = true <-> accepts its t) ->
  match text with x :: text' => if (c =? 46) || (c =? x) then mh text' else false | [] => false end = true <->
  accepts (One c :: its) text.
Proof.
  intros Hm. rewrite accepts_one. destruct text as [|x text]; [naive_solver|].
  destruct ((c =? 46) || (c =? x)) eqn:Hs.
  - apply stands_b in Hs. rewrite Hm. naive_solver.
  - split; [done|]. intros (y & rest & [= <- <-] & Hy%stands_b & _). congruence.
Qed.

Lemma matchhere_spec re text : matchhere re text = true <-> accepts (items re) text.
Proof.
  revert text. induction re as [re IH] using (induction_ltof1 _ (@length Z)). unfold ltof in IH. intros text.
  destruct re as [|c [|d re2]]; cbn [matchhere items].
  - split; [constructor|done].
  - destruct (Z.eqb_spec c 36).
    + rewrite bool_decide_eq_true. split; [intros ->; constructor|by inversion 1].
    + apply (one_spec (matchhere [])). intros t. apply (IH []). cbn. lia.
  - destruct (Z.eqb_spec d 42).
    + rewrite matchstar_spec, accepts_star. setoid_rewrite (IH re2); [done|cbn; lia].
    + apply (one_spec (matchhere (d :: re2))). intros t. apply (IH (d :: re2)). cbn. lia.
Qed.

Lemma match_loop_spec re text :
  match_loop re text = true <-> exists w rest, text = w ++ rest /\ accepts (items re) rest.
Proof.
  induction text as [|x text IH]; cbn [match_loop].
  - destruct (matchhere re []) eqn:Hm.
    + split; [|done]. intros _. exists [], []. split; [done|by apply matchhere_spec].
    + split; [done|]. intros (w & rest & E & Ha). symmetry in E. apply app_nil in E as [-> ->].
      apply matchhere_spec in Ha. congruence.
  - destruct (matchhere re (x :: text)) eqn:Hm.
    + split; [|done]. intros _. exists [], (x :: text). split; [done|by apply matchhere_spec].
    + rewrite IH. split.
      * intros (w & rest & -> & Ha). by exists (x :: w), rest.
      * intros (w & rest & E & Ha). destruct w as [|y w]; [cbn in E; subst; apply matchhere_spec in Ha; congruence|].
        injection E as _ ->. by exists w, rest.
Qed.

(** C37: match() finds exactly the texts that the pattern describes: a pattern with ^
    in front those that begin with a match, any other those with a match somewhere. *)
Theorem match_spec re text :
  match_ re text = true <->
  match re with
  | 94 :: re' => accepts (items re') text
  | _ => exists w rest, text = w ++ rest /\ accepts (items re) rest
  end.
Proof.
  unfold match_. destruct re as [|c re]; [apply match_loop_spec|].
  destruct (Z.eqb_spec c 94) as [->|Hc]; [apply matchhere_spec|]. rewrite match_loop_spec.
  destruct c as [|c|c]; try done. do 7 (destruct c as [c|c|]; try done).
Qed.

(** ** The lines of a file *)

(** strchr(p, '\n'): the bytes before the newline and those behind it. *)
Fixpoint cut_line (p : list Z) : option (list Z * list Z) :=
  match p with
  | [] => None
  | x :: p' =>
      if x =? 0 then None else
      if x =? 10 then Some ([], p') else
      '(l, r) ← cut_line p'; Some (x :: l, r)
  end.

(** [while((q = strchr(p, '\n')) != 0)]: the output and the final [p]. *)
Fixpoint grep_lines (pattern p : list Z) (fuel : nat) : list Z * list Z :=
  match fuel with
  | O => ([], p)
  | S fuel' =>
      match cut_line p with
      | None => ([], p)
      | Some (l, r) =>
          let '(o, p') := grep_lines pattern r fuel' in
          ((if match_ pattern l then l ++ [10] else []) ++ o, p')
      end
  end.

(** The work on one read() of [new] bytes behind the [m] bytes [kept] in the
    buffer: the output and the bytes kept for the next read(). *)
Definition grep_read (pattern kept new : list Z) : list Z * list Z :=
  let buf := kept ++ new in
  let '(o, p) := grep_lines pattern buf (length buf) in
  (o, if bool_decide (length p = length buf) then [] else p).

(** read(fd, _, n): at most [n] bytes of the first piece. *)
Definition read (n : nat) (fd : list (list Z)) : list Z * list (list Z) :=
  match fd with
  | [] => ([], [])
  | d :: fd' => (take n d, if bool_decide (length d <= n)%nat then fd' else drop n d :: fd')
  end.

(** grep() with [m] bytes [kept] in buf; [None] is the end of the fuel. *)
Fixpoint grep (pattern kept : list Z) (fd : list (list Z)) (fuel : nat) : option (list Z) :=
  match fuel with
  | O => None
  | S fuel' =>
      let '(new, fd') := read (1024 - length kept - 1) fd in
      if bool_decide (new = []) then Some [] else
      let '(o, kept') := grep_read pattern kept new in
      app o <$> grep pattern kept' fd' fuel'
  end.

(** The complete lines of a text, and what follows the last of them. *)
Fixpoint split_nl (l : list Z) : list (list Z) * list Z :=
  match l with
  | [] => ([], [])
  | x :: l' =>
      let '(ls, t) := split_nl l' in
      if x =? 10 then ([] :: ls, t) else
      match ls with [] => ([], x :: t) | l1 :: ls' => ((x :: l1) :: ls', t) end
  end.

(** The lines that match, with their newlines. *)
Definition matching (pattern : list Z) (ls : list (list Z)) : list Z :=
  mjoin ((fun l => if match_ pattern l then l ++ [10] else []) <$> ls).

Definition no_nul (l : list Z) : Prop := Forall (fun x => x <> 0) l.

Lemma cut_line_spec p :
  no_nul p ->
  match cut_line p with
  | None => split_nl p = ([], p)
  | Some (l, r) => split_nl p = (l :: (split_nl r).1, (split_nl r).2) /\ (length r < length p)%nat /\ no_nul r
  end.
Proof.
  induction p as [|x p IH]; intros Hp; [done|]. apply Forall_cons in Hp as [Hx Hp]. specialize (IH Hp). cbn [cut_line split_nl].
  destruct (Z.eqb_spec x 0); [done|]. destruct (Z.eqb_spec x 10).
  - split_and!; [by destruct (split_nl p)|cbn; lia|done].
  - destruct (cut_line p) as [[l r]|]; cbn [mbind option_bind].
    + destruct IH as (-> & Hl & Hr). split_and!; [done|cbn; lia|done].
    + by rewrite IH.
Qed.

Lemma grep_lines_spec pattern p fuel :
  no_nul p -> (length p <= fuel)%nat ->
  grep_lines pattern p fuel = (matching pattern (split_nl p).1, (split_nl p).2).
Proof.
  revert p. induction fuel as [|fuel IH]; intros p Hp Hf; cbn [grep_lines].
  - by destruct p; [|cbn in Hf; lia].
  - pose proof (cut_line_spec p Hp) as Hc. destruct (cut_line p) as [[l r]|]; [|by rewrite Hc].
    destruct Hc as (-> & Hl & Hr). rewrite (IH r Hr) by lia. done.
Qed.

Lemma split_nl_cons x a :
  split_nl (x :: a) = if x =? 10 then ([] :: (split_nl a).1, (split_nl a).2)
    else match (split_nl a).1 with [] => ([], x :: (split_nl a).2) | l1 :: ls => ((x :: l1) :: ls, (split_nl a).2) end.
Proof. cbn [split_nl]. by destruct (split_nl a). Qed.

Lemma split_nl_none a : (split_nl a).1 = [] -> split_nl a = ([], a).
Proof.
  induction a as [|x a IH]; [done|]. rewrite split_nl_cons. destruct (x =? 10); [done|].
  destruct (split_nl a).1 eqn:E; [|done]. by rewrite IH.
Qed.

Lemma split_nl_app a b :
  split_nl (a ++ b) = ((split_nl a).1 ++ (split_nl ((split_nl a).2 ++ b)).1, (split_nl ((split_nl a).2 ++ b)).2).
Proof.
  induction a as [|x a IH]; [cbn; by destruct (split_nl b)|]. cbn [app]. rewrite !split_nl_cons, IH. cbn [fst snd].
  destruct (x =? 10) eqn:Ex; [done|]. destruct (split_nl a).1 as [|l1 ls]; [|done].
  cbn [app fst snd]. rewrite split_nl_cons, Ex. by destruct (split_nl (_ ++ b)).1.
Qed.

Lemma split_nl_idemp a : (split_nl (split_nl a).2).1 = [].
Proof.
  induction a as [|x a IH]; [done|]. rewrite split_nl_cons. destruct (x =? 10) eqn:Ex; [done|].
  destruct (split_nl a).1; [|done]. cbn [snd]. by rewrite split_nl_cons, Ex, IH.
Qed.

Lemma split_nl_tail a : (length (split_nl a).2 <= length a)%nat /\ ((split_nl a).1 <> [] -> (length (split_nl a).2 < length a)%nat).
Proof.
  induction a as [|x a [IH IH']]; [done|]. rewrite split_nl_cons. destruct (x =? 10); [cbn; lia|].
  destruct (split_nl a).1; cbn; [split; [lia|done]|split; lia].
Qed.

Lemma no_nul_tail a : no_nul a -> no_nul (split_nl a).2.
Proof.
  induction a as [|x a IH]; intros Ha; [done|]. pose proof Ha as [Hx Ha']%Forall_cons. specialize (IH Ha').
  rewrite split_nl_cons. destruct (x =? 10); [done|]. destruct (split_nl a).1; [by constructor|done].
Qed.

Lemma split_nl_suffix a b : (split_nl (a ++ b)).1 = [] -> (split_nl b).1 = [].
Proof.
  induction a as [|x a IH]; [done|]. cbn [app]. rewrite split_nl_cons. destruct (x =? 10); [done|].
  destruct (split_nl (a ++ b)).1; [auto|done].
Qed.

(** A line that begins with bytes among which there is no newline is at least as
    long. *)
Lemma split_nl_long a b l : (split_nl a).1 = [] -> head (split_nl (a ++ b)).1 = Some l -> (length a <= length l)%nat.
Proof.
  revert l. induction a as [|x a IH]; intros l; [cbn; lia|]. cbn [app]. rewrite !split_nl_cons. destruct (x =? 10); [done|].
  destruct (split_nl a).1; [|done]. intros _. destruct (split_nl (a ++ b)).1; [done|]. cbn. intros [= <-].
  specialize (IH _ eq_refl eq_refl). cbn. lia.
Qed.

(** One read(): the buffer is cut into its lines, and what is behind the last of
    them is kept, but only if there was a line. *)
Lemma grep_read_spec pattern kept new :
  no_nul kept -> no_nul new ->
  grep_read pattern kept new =
    (matching pattern (split_nl (kept ++ new)).1,
     match (split_nl (kept ++ new)).1 with [] => [] | _ => (split_nl (kept ++ new)).2 end).
Proof.
  intros Hk Hn. unfold grep_read. rewrite grep_lines_spec by (done || by apply Forall_app_2).
  destruct (split_nl (kept ++ new)).1 eqn:E.
  - apply split_nl_none in E. by rewrite E, bool_decide_true.
  - rewrite bool_decide_false; [done|]. pose proof (proj2 (split_nl_tail (kept ++ new))) as H. rewrite E in H. specialize (H ltac:(done)). lia.
Qed.

Lemma matching_app pattern ls ls' : matching pattern (ls ++ ls') = matching pattern ls ++ matching pattern ls'.
Proof. unfold matching. by rewrite fmap_app, join_app. Qed.

Section grep_file.
Context (pattern : list Z).

Lemma grep_rest kept data n fuel :
  grep pattern kept (if bool_decide (length data <= n)%nat then [] else [drop n data]) fuel = grep pattern kept [drop n data] fuel.
Proof. case_bool_decide; [|done]. rewrite drop_ge by done. destruct fuel; [done|]. cbn [grep read]. by rewrite take_nil. Qed.

(** A turn of the loop on a file whose bytes [data] are not yet read. *)
Lemma grep_turn kept data fuel :
  no_nul kept -> no_nul data -> (length kept <= 1022)%nat -> data <> [] ->
  let n := (1023 - length kept)%nat in
  let '(ls, t) := split_nl (kept ++ take n data) in
  grep pattern kept [data] (S fuel) =
    app (matching pattern ls) <$> grep pattern (match ls with [] => [] | _ => t end) [drop n data] fuel.
Proof.
  intros Hk Hd Hl Hne n. destruct (split_nl _) as [ls t] eqn:E. cbn [grep read].
  replace (1024 - length kept - 1)%nat with n by lia.
  rewrite bool_decide_false by (destruct data; [done|]; by destruct n eqn:En; [lia|]).
  rewrite grep_read_spec, E by (done || by apply Forall_take). cbn [fst snd]. by rewrite grep_rest.
Qed.

Lemma grep_nil kept fuel : (0 < fuel)%nat -> grep pattern kept [[]] fuel = Some [].
Proof. destruct fuel; [lia|]. intros _. cbn [grep read]. by rewrite take_nil. Qed.

(** Nothing is written of bytes among which there is no newline. *)
Lemma grep_quiet kept data fuel :
  no_nul kept -> no_nul data -> (length kept <= 1022)%nat -> (split_nl (kept ++ data)).1 = [] -> (length data < fuel)%nat ->
  grep pattern kept [data] fuel = Some [].
Proof.
  revert kept data. induction fuel as [|fuel IH]; intros kept data Hk Hd Hl Hs Hf; [lia|].
  destruct (decide (data = [])) as [->|Hne]; [by apply grep_nil; lia|].
  pose proof (grep_turn kept data fuel Hk Hd Hl Hne) as Ht. set (n := (1023 - length kept)%nat) in *.
  rewrite <- (take_drop n data), app_assoc in Hs. pose proof (split_nl_suffix _ _ Hs) as Hr.
  rewrite split_nl_app in Hs. cbn [fst] in Hs. apply app_eq_nil in Hs as [Hs _].
  cbn zeta in Ht. rewrite (split_nl_none _ Hs) in Ht. rewrite Ht, IH; [done|constructor|by apply Forall_drop|cbn; lia|done|].
  rewrite length_drop. destruct data; cbn in *; [done|lia].
Qed.

(** grep() on a file writes the lines that match, whole and in order, when none
    is longer than its buffer takes; the bytes behind the last newline are not a
    line.  Fuel: one turn for each byte and the end of the file. *)
Theorem grep_file data fuel :
  no_nul data -> Forall (fun l => length l <= 1022)%nat (split_nl data).1 -> (length data < fuel)%nat ->
  grep pattern [] [data] fuel = Some (matching pattern (split_nl data).1).
Proof.
  enough (Hall : forall kept, no_nul kept -> no_nul data -> (length kept <= 1022)%nat -> (split_nl kept).1 = [] ->
    Forall (fun l => length l <= 1022)%nat (split_nl (kept ++ data)).1 -> (length data < fuel)%nat ->
    grep pattern kept [data] fuel = Some (matching pattern (split_nl (kept ++ data)).1)).
  { intros. apply (Hall []); cbn; try done; [constructor|lia]. }
  revert data. induction fuel as [|fuel IH]; intros data kept Hk Hd Hl Hks Hls Hf; [lia|].
  destruct (decide (data = [])) as [->|Hne]; [by rewrite app_nil_r, Hks; apply grep_nil; lia|].
  pose proof (grep_turn kept data fuel Hk Hd Hl Hne) as Ht. cbn zeta in Ht. set (n := (1023 - length kept)%nat) in *.
  assert (Hcat : kept ++ data = (kept ++ take n data) ++ drop n data) by (by rewrite <- app_assoc, take_drop).
  destruct (split_nl (kept ++ take n data)) as [ls t] eqn:E. destruct ls as [|l1 ls].
  - assert (Hno : (split_nl (kept ++ data)).1 = []).
    { destruct (split_nl (kept ++ data)).1 as [|l ls] eqn:El; [done|]. exfalso.
      destruct (decide (length data <= n)%nat); [rewrite take_ge in E by done; by rewrite E in El|].
      pose proof (split_nl_long (kept ++ take n data) (drop n data) l) as Hlong. rewrite <- Hcat, E, El, length_app, length_take in Hlong.
      apply Forall_cons in Hls as [? _]. specialize (Hlong eq_refl eq_refl). lia. }
    rewrite Hno. by apply grep_quiet.
  - pose proof (split_nl_tail (kept ++ take n data)) as [_ Htl]. pose proof (split_nl_idemp (kept ++ take n data)) as Hti.
    pose proof (no_nul_tail (kept ++ take n data)) as Htn. rewrite Hcat, split_nl_app in Hls |- *. rewrite E in *. cbn [fst snd] in *.
    apply Forall_app in Hls as [_ Hls]. specialize (Htl ltac:(done)). rewrite length_app, length_take in Htl.
    rewrite Ht, IH; [by rewrite matching_app|..]; try done.
    + by apply Htn, Forall_app_2; [|apply Forall_take].
    + by apply Forall_drop.
    + lia.
    + rewrite length_drop. destruct data; cbn in *; [done|lia].
Qed.
End grep_file.

(** A turn of the loop whose read() brings the whole of the next piece. *)
Lemma grep_piece pattern kept d fd fuel :
  no_nul kept -> no_nul d -> (0 < length d <= 1023 - length kept)%nat ->
  grep pattern kept (d :: fd) (S fuel) =
    let '(ls, t) := split_nl (kept ++ d) in
    app (matching pattern ls) <$> grep pattern (match ls with [] => [] | _ => t end) fd fuel.
Proof.
  intros Hk Hd Hl. cbn [grep read]. rewrite take_ge by lia.
  rewrite bool_decide_false by (intros ->; cbn in Hl; lia). rewrite bool_decide_true by lia.
  rewrite grep_read_spec by done. by destruct (split_nl (kept ++ d)).
Qed.

(** Of a line that arrives in two pieces, as from a pipe, grep() looks only at the
    second: when a read() brings no newline, the bytes it brought are dropped
    instead of being kept. *)
Theorem grep_loses_line pattern a b :
  no_nul (a ++ b) -> (split_nl (a ++ b)).1 = [] -> (0 < length a <= 1023)%nat -> (length b <= 1022)%nat ->
  grep pattern [] [a; b ++ [10]] 3 = Some (if match_ pattern b then b ++ [10] else []).
Proof.
  intros [Hna Hnb]%Forall_app Hs Ha Hb. pose proof (split_nl_suffix _ _ Hs) as Hsb. rewrite split_nl_app in Hs. cbn [fst] in Hs.
  apply app_eq_nil in Hs as [Hsa _]. apply split_nl_none in Hsa, Hsb.
  assert (Hnb' : no_nul (b ++ [10])) by (by apply Forall_app_2; [|repeat constructor]).
  assert (Hsb' : split_nl (b ++ [10]) = ([b], [])).
  { clear -Hsb. induction b as [|x b IH]; [done|]. cbn [app]. rewrite split_nl_cons in Hsb |- *.
    destruct (x =? 10); [done|]. destruct (split_nl b) as [[|??] ?]; [|done]. injection Hsb as ->. by rewrite IH. }
  rewrite grep_piece by (done || apply Forall_nil_2 || (cbn; lia)). cbn [app]. rewrite Hsa.
  rewrite grep_piece by (done || apply Forall_nil_2 || (rewrite length_app; cbn; lia)). cbn [app]. rewrite Hsb'.
  cbn. by rewrite !app_nil_r.
Qed.

(** The pattern "b.*c$" on the file "abc", "bd", "xbzc" and a last line without newline. *)
Definition demo_text : list Z := [97;98;99;10; 98;100;10; 120;98;122;99;10; 98;99].

Lemma grep_file_witness : grep [98;46;42;99;36] [] [demo_text] 15 = Some [97;98;99;10; 120;98;122;99;10].
Proof.
  refine (eq_trans (grep_file [98;46;42;99;36] demo_text 15 _ _ _) _).
  - by repeat constructor.
  - vm_compute. repeat constructor.
  - vm_compute. lia.
  - by vm_compute.
Defined.

Lemma grep_loses_line_witness : grep [97;98] [] [[97]; [98] ++ [10]] 3 = Some [].
Proof.
  refine (eq_trans (grep_loses_line [97;98] [97] [98] _ _ _ _) _).
  - by repeat constructor.
  - done.
  - cbn. lia.
  - cbn. lia.
  - by vm_compute.
Defined.
