(* ===== verification/Sh.v ===== *)
(** * The shell (src/sh.c)

    The parser builds a command in memory it gets from malloc(), with pointers into
    the line; then nulterminate() cuts the line into strings, and runcmd() runs the
    command.  Here the commands are a store [cmds] by address, a [char *] into the
    line is an offset of [buf], and malloc() is the interface [Malloc].  A program
    is modelled by the tree [act] of the system calls it makes, which branches on
    their results; the descriptor table is that of the process that makes them. *)

From stdpp Require Import prelude gmap strings list.
From Stdlib Require Import ZArith Lia.
From S2P Require Import Prelude Strings Printf Sysfile.

Definition MAXARGS : Z := 10.

(** struct cmd and its variants. *)
Inductive cmd :=
| EXEC (argv eargv : list (option Z))
| REDIR (c : Z) (file efile : Z) (mode fd : Z)
| PIPE (left right : Z)
| LIST (left right : Z)
| BACK (c : Z).

(** The bytes of a C string constant. *)
Definition str (s : string) : list Z := Z.of_nat <$> (Ascii.nat_of_ascii <$> String.list_ascii_of_string s).

Class Malloc (E : Type) := malloc : Z -> E -> Z * E.

Record sh (E : Type) := mksh {
  buf : list Z;          (* the line *)
  ps : Z;                (* how far it is parsed *)
  cmds : gmap Z cmd;     (* the commands in memory *)
  err : list Z;          (* what was written to descriptor 2 *)
  mem : E                (* the state of malloc() *)
}.
Arguments mksh {E} _ _ _ _ _.
Arguments buf {E} _.
Arguments ps {E} _.
Arguments cmds {E} _.
Arguments err {E} _.
Arguments mem {E} _.

#[export] Instance sh_settable E : Settable (sh E) := fun s => mksh (buf s) (ps s) (cmds s) (err s) (mem s).

(** Code of the shell returns, exits, runs into undefined behaviour, or exhausts
    the fuel of a loop. *)
Inductive res (E A : Type) := Ret (a : A) (s : sh E) | Exit (s : sh E) | Crash | Spin.
Arguments Ret {E A} _ _.
Arguments Exit {E A} _.
Arguments Crash {E A}.
Arguments Spin {E A}.

Definition SM (E A : Type) : Type := sh E -> res E A.
#[export] Instance SM_ret E : MRet (SM E) := fun A a s => Ret a s.
#[export] Instance SM_bind E : MBind (SM E) := fun A B f m s =>
  match m s with Ret a s' => f a s' | Exit s' => Exit s' | Crash => Crash | Spin => Spin end.

Definition whitespace : list Z := [32; 9; 13; 10; 11; 0].
Definition symbols : list Z := [60; 124; 62; 38; 59; 40; 41; 0].

Section Parser.
Context {E : Type} `{Malloc E}.
Abbreviation SM := (SM E).

Definition sget : SM (sh E) := fun s => Ret s s.
Definition smod (f : sh E -> sh E) : SM unit := fun s => Ret tt (f s).
Definition crash {A} : SM A := fun _ => Crash.
Definition spin {A} : SM A := fun _ => Spin.
Definition exit {A} : SM A := fun s => Exit s.
Definition lift {A} (o : option A) : SM A := match o with Some a => mret a | None => crash end.

(** [printf(2, fmt, a)] with the string [a]. *)
Definition printf2 (fmt a : list Z) : SM unit :=
  bs ← lift (printf (fun _ => a) fmt [1]); smod (fun s => s <| err ::= fun e => e ++ bs |>).

Definition panic {A} (msg : string) : SM A := printf2 [37; 115; 10] (str msg) ;; exit.

(** ** Constructors *)

(** malloc(), memset() and the stores; a null pointer is not checked for. *)
Definition new (n : Z) (c : cmd) : SM Z :=
  s ← sget;
  let '(a, e) := malloc n (mem s) in
  smod (fun s => s <| mem := e |>) ;;
  if a =? 0 then crash else smod (fun s => s <| cmds ::= <[a := c]> |>) ;; mret a.

Definition execcmd : SM Z := new 84 (EXEC (replicate 10 None) (replicate 10 None)).
Definition redircmd (subcmd file efile mode fd : Z) : SM Z := new 24 (REDIR subcmd file efile mode fd).
Definition pipecmd (left right : Z) : SM Z := new 12 (PIPE left right).
Definition listcmd (left right : Z) : SM Z := new 12 (LIST left right).
Definition backcmd (subcmd : Z) : SM Z := new 8 (BACK subcmd).

(** ** Tokens *)

(** [strchr(set, c)] as a condition. *)
Definition chr (set : list Z) (c : Z) : option bool :=
  o ← strchr set c; Some (match o with Some _ => true | None => false end).

(** [while(s < es && p( *s)) s++;] with [n] = es - s. *)
Fixpoint scan (b : list Z) (p : Z -> option bool) (s : Z) (n : nat) : option Z :=
  match n with
  | O => Some s
  | S n' =>
      c ← aget b s; t ← p c;
      if t : bool then scan b p (s + 1) n' else Some s
  end.

Definition skip (b : list Z) (es s : Z) : option Z := scan b (chr whitespace) s (Z.to_nat (es - s)).
Definition word_char (c : Z) : option bool :=
  w ← chr whitespace c;
  if w : bool then Some false else y ← chr symbols c; Some (negb y).

(** The token's kind, where it begins and where it ends. *)
Definition gettoken (es : Z) : SM (Z * Z * Z) :=
  st ← sget;
  let b := buf st in
  s ← lift (skip b es (ps st));
  let q := s in
  c ← lift (aget b s);
  '(ret, s) ←
    (if c =? 0 then mret (c, s)
     else if (c =? 124) || (c =? 40) || (c =? 41) || (c =? 59) || (c =? 38) || (c =? 60) then mret (c, s + 1)
     else if c =? 62 then
       d ← lift (aget b (s + 1));
       if d =? 62 then mret (43, s + 2) else mret (c, s + 1)
     else
       s ← lift (scan b word_char s (Z.to_nat (es - s)));
       mret (97, s));
  let eq := s in
  s ← lift (skip b es s);
  smod (fun st => st <| ps := s |>) ;;
  mret (ret, q, eq).

Definition peek (es : Z) (toks : list Z) : SM bool :=
  st ← sget;
  s ← lift (skip (buf st) es (ps st));
  smod (fun st => st <| ps := s |>) ;;
  c ← lift (aget (buf st) s);
  if c =? 0 then mret false else lift (chr toks c).

(** ** Parsing *)

(** [while(peek(ps, es, "<>")) {...}] *)
Fixpoint redir_loop (es cmd : Z) (fuel : nat) : SM Z :=
  b ← peek es [60; 62; 0];
  if negb b then mret cmd else
  match fuel with
  | O => spin
  | S fuel' =>
      '(tok, _, _) ← gettoken es;
      '(t, q, eq) ← gettoken es;
      if negb (t =? 97) then panic "missing file for redirection" else
      cmd' ← (if tok =? 60 then redircmd cmd q eq O_RDONLY 0
              else if tok =? 62 then redircmd cmd q eq (Z.lor O_WRONLY O_CREATE) 1
              else if tok =? 43 then redircmd cmd q eq (Z.lor O_WRONLY O_CREATE) 1
              else mret cmd);
      redir_loop es cmd' fuel'
  end.
Definition parseredirs (es cmd : Z) : SM Z := redir_loop es cmd (Z.to_nat es).

(** [cmd->argv[i] = q; cmd->eargv[i] = eq;] *)
Definition set_arg (cmd i : Z) (q eq : option Z) : SM unit :=
  s ← sget;
  match cmds s !! cmd with
  | Some (EXEC argv eargv) =>
      argv' ← lift (aset argv i q);
      eargv' ← lift (aset eargv i eq);
      smod (fun s => s <| cmds ::= <[cmd := EXEC argv' eargv']> |>)
  | _ => crash
  end.

(** The loop of parseexec() over the words; it returns argc and ret. *)
Fixpoint args_loop (es cmd argc ret : Z) (fuel : nat) : SM (Z * Z) :=
  b ← peek es [124; 41; 38; 59; 0];
  if b : bool then mret (argc, ret) else
  '(tok, q, eq) ← gettoken es;
  if tok =? 0 then mret (argc, ret) else
  if negb (tok =? 97) then panic "syntax" else
  set_arg cmd argc (Some q) (Some eq) ;;
  let argc := argc + 1 in
  if MAXARGS <=? argc then panic "too many args" else
  ret ← parseredirs es ret;
  match fuel with
  | O => spin
  | S fuel' => args_loop es cmd argc ret fuel'
  end.

(** [while(peek(ps, es, "&")) {...}] *)
Fixpoint back_loop (es cmd : Z) (fuel : nat) : SM Z :=
  b ← peek es [38; 0];
  if negb b then mret cmd else
  match fuel with
  | O => spin
  | S fuel' => gettoken es ;; cmd' ← backcmd cmd; back_loop es cmd' fuel'
  end.

(** parseexec() on a simple command. *)
Definition parsesimple (es : Z) : SM Z :=
  ret ← execcmd;
  let cmd := ret in
  ret ← parseredirs es ret;
  '(argc, ret) ← args_loop es cmd 0 ret (Z.to_nat es);
  set_arg cmd argc None None ;;
  mret ret.

Fixpoint parseline (es : Z) (fuel : nat) : SM Z :=
  match fuel with
  | O => spin
  | S fuel' =>
      cmd ← parsepipe es fuel';
      cmd ← back_loop es cmd (Z.to_nat es);
      b ← peek es [59; 0];
      if b : bool then
        gettoken es ;;
        r ← parseline es fuel';
        listcmd cmd r
      else mret cmd
  end
with parsepipe (es : Z) (fuel : nat) : SM Z :=
  match fuel with
  | O => spin
  | S fuel' =>
      cmd ← parseexec es fuel';
      b ← peek es [124; 0];
      if b : bool then
        gettoken es ;;
        r ← parsepipe es fuel';
        pipecmd cmd r
      else mret cmd
  end
with parseexec (es : Z) (fuel : nat) : SM Z :=
  match fuel with
  | O => spin
  | S fuel' =>
      b ← peek es [40; 0];
      if b : bool then parseblock es fuel' else parsesimple es
  end
with parseblock (es : Z) (fuel : nat) : SM Z :=
  match fuel with
  | O => spin
  | S fuel' =>
      b ← peek es [40; 0];
      if negb b then panic "parseblock" else
      gettoken es ;;
      cmd ← parseline es fuel';
      b ← peek es [41; 0];
      if negb b then panic "syntax - missing )" else
      gettoken es ;;
      parseredirs es cmd
  end.

(** ** The strings *)

(** [*p = 0] in the line. *)
Definition cut (p : Z) : SM unit :=
  s ← sget; b ← lift (aset (buf s) p 0); smod (fun s => s <| buf := b |>).

(** [for(i=0; ecmd->argv[i]; i++) *ecmd->eargv[i] = 0;] *)
Fixpoint cut_args (argv eargv : list (option Z)) : SM unit :=
  match argv, eargv with
  | None :: _, _ => mret tt
  | Some _ :: argv', Some e :: eargv' => cut e ;; cut_args argv' eargv'
  | _, _ => crash
  end.

Fixpoint nulterminate (cmd : Z) (fuel : nat) : SM unit :=
  if cmd =? 0 then mret tt else
  match fuel with
  | O => spin
  | S fuel' =>
      s ← sget;
      match cmds s !! cmd with
      | None => crash
      | Some (EXEC argv eargv) => cut_args argv eargv
      | Some (REDIR c _ efile _ _) => nulterminate c fuel' ;; cut efile
      | Some (PIPE l r) => nulterminate l fuel' ;; nulterminate r fuel'
      | Some (LIST l r) => nulterminate l fuel' ;; nulterminate r fuel'
      | Some (BACK c) => nulterminate c fuel'
      end
  end.

(** The string at an offset of the line. *)
Fixpoint cstr (l : list Z) : list Z :=
  match l with
  | [] => []
  | c :: l' => if c =? 0 then [] else c :: cstr l'
  end.
Definition str_at (b : list Z) (p : Z) : list Z := cstr (drop (Z.to_nat p) b).

Definition parsecmd (fuel : nat) : SM Z :=
  s ← sget;
  es ← lift (strlen (buf s));
  smod (fun s => s <| ps := 0 |>) ;;
  cmd ← parseline es fuel;
  peek es [0] ;;
  s ← sget;
  if negb (ps s =? es) then
    printf2 (str "leftovers: %s" ++ [10]) (str_at (buf s) (ps s)) ;;
    panic "syntax"
  else
    nulterminate cmd fuel ;;
    mret cmd.
End Parser.

(** ** Running commands *)

(** What a descriptor refers to: what the shell was started with, a file it opened,
    or an end of a pipe.  A pipe is named by the process that made it, the forks
    ([false] for the child, [true] for the parent) that lead to it. *)
Inductive obj := Odev (n : Z) | Ofile (name : list Z) (mode : Z) | Opipe (maker : list bool) (wr : bool).
Abbreviation fdtable := (list (option obj)).

(** The system calls of a process, with its descriptors when it runs a program or
    waits for a child. *)
Inductive act :=
| Aexit
| Awrite (bs : list Z) (k : act)                            (* to descriptor 2 *)
| Aexec (path : list Z) (argv : list (list Z)) (fds : fdtable) (failed : act)
| Afork (child parent failed : act)
| Await (fds : fdtable) (k : act)
| Aopen (name : list Z) (mode : Z) (ok failed : act)
| Apipe (ok failed : act)
| Achdir (name : list Z) (ok failed : act).

(** close(), and the lowest free descriptor for an object (open, dup, pipe). *)
Definition fd_close (fds : fdtable) (fd : Z) : fdtable := <[Z.to_nat fd := None]> fds.

Fixpoint fd_alloc (fds : fdtable) (o : obj) : option (Z * fdtable) :=
  match fds with
  | [] => None
  | None :: fds' => Some (0, Some o :: fds')
  | Some x :: fds' => '(fd, fds'') ← fd_alloc fds' o; Some (fd + 1, Some x :: fds'')
  end.

Definition fd_dup (fds : fdtable) (fd : Z) : fdtable :=
  match aget fds fd with
  | Some (Some o) => match fd_alloc fds o with Some (_, fds') => fds' | None => fds end
  | _ => fds
  end.

(** printf(2, ...) of a message with one string, then exit(). *)
Definition die (fmt a : list Z) : option act :=
  bs ← printf (fun _ => a) fmt [1]; Some (Awrite bs Aexit).
Definition panic_act (msg : string) : option act := die [37; 115; 10] (str msg).

Section Run.
Context {E : Type}.

(** The strings of a null-terminated array. *)
Fixpoint arg_strings (b : list Z) (argv : list (option Z)) : option (list (list Z)) :=
  match argv with
  | [] => None
  | None :: _ => Some []
  | Some q :: argv' => cons (str_at b q) <$> arg_strings b argv'
  end.

(** In the process [p] with the descriptors [fds]; [None] is undefined behaviour or
    the end of the fuel. *)
Fixpoint runcmd (s : sh E) (cmd : Z) (fds : fdtable) (p : list bool) (fuel : nat) : option act :=
  if cmd =? 0 then Some Aexit else
  match fuel with
  | O => None
  | S fuel' =>
      match cmds s !! cmd with
      | None => None
      | Some (EXEC argv _) =>
          args ← arg_strings (buf s) argv;
          match args with
          | [] => Some Aexit
          | path :: _ =>
              failed ← die (str "exec %s failed" ++ [10]) path;
              Some (Aexec path args fds failed)
          end
      | Some (REDIR c file _ mode fd) =>
          let name := str_at (buf s) file in
          failed ← die (str "open %s failed" ++ [10]) name;
          match fd_alloc (fd_close fds fd) (Ofile name mode) with
          | None => Some failed
          | Some (_, fds') => k ← runcmd s c fds' p fuel'; Some (Aopen name mode k failed)
          end
      | Some (LIST l r) =>
          failed ← panic_act "fork";
          child ← runcmd s l fds (p ++ [false]) fuel';
          parent ← runcmd s r fds (p ++ [true]) fuel';
          Some (Afork child (Await fds parent) failed)
      | Some (PIPE l r) =>
          failed ← panic_act "pipe";
          match ('(p0, fds1) ← fd_alloc fds (Opipe p false);
                 '(p1, fds2) ← fd_alloc fds1 (Opipe p true); Some (p0, p1, fds2)) with
          | None => Some failed
          | Some (p0, p1, fds2) =>
              nofork ← panic_act "fork";
              let fds3 := fd_close (fd_close fds2 p0) p1 in
              child1 ← runcmd s l (fd_close (fd_close (fd_dup (fd_close fds2 1) p1) p0) p1) (p ++ [false]) fuel';
              child2 ← runcmd s r (fd_close (fd_close (fd_dup (fd_close fds2 0) p0) p0) p1) (p ++ [true; false]) fuel';
              Some (Apipe (Afork child1 (Afork child2 (Await fds3 (Await fds3 Aexit)) nofork) nofork) failed)
          end
      | Some (BACK c) =>
          failed ← panic_act "fork";
          child ← runcmd s c fds (p ++ [false]) fuel';
          Some (Afork child Aexit failed)
      end
  end.

Section Main.
Context `{Malloc E}.

(** [while((fd = open("console", O_RDWR)) >= 0) {...}], then [k]. *)
Fixpoint open_console (fds : fdtable) (k : fdtable -> option act) (fuel : nat) : option act :=
  match fd_alloc fds (Odev 1) with
  | None => k fds
  | Some (fd, fds') =>
      failed ← k fds;
      ok ← (if 3 <=? fd then k (fd_close fds' fd)
            else match fuel with O => None | S fuel' => open_console fds' k fuel' end);
      Some (Aopen (str "console") O_RDWR ok failed)
  end.

(** The line read and what is left of the input; the prompt is the caller's. *)
Definition getcmd (nbuf : Z) (inp : list Z) : option (Z * list Z * list Z) :=
  let b := replicate (Z.to_nat nbuf) 0 in
  '(b', i) ← gets_loop b 0 inp (Z.to_nat (nbuf - 1));
  b'' ← aset b' i 0;
  c ← aget b'' 0;
  Some (if c =? 0 then -1 else 0, b'', drop (Z.to_nat i) inp).

(** The child that parses and runs a line. *)
Definition run_line (b : list Z) (e : E) (fds : fdtable) (p : list bool) (fuel : nat) : option act :=
  match parsecmd fuel (mksh b 0 ∅ [] e) with
  | Ret a s => runcmd s a fds p fuel
  | Exit s => Some (Awrite (err s) Aexit)
  | Crash | Spin => None
  end.

(** [while(getcmd(buf, sizeof(buf)) >= 0) {...}]; [n] bounds the number of lines. *)
Fixpoint main_loop (inp : list Z) (e : E) (fds : fdtable) (p : list bool) (fuel n : nat) : option act :=
  '(r, b, inp') ← getcmd 100 inp;
  if r <? 0 then Some (Awrite (str "$ ") Aexit) else
  match n with
  | O => None
  | S n' =>
      if bool_decide (take 3 b = str "cd ") then
        len ← strlen b;
        b ← aset b (len - 1) 0;
        k ← main_loop inp' e fds p fuel n';
        msg ← printf (fun _ => str_at b 3) (str "cannot cd %s" ++ [10]) [1];
        Some (Awrite (str "$ ") (Achdir (str_at b 3) k (Awrite msg k)))
      else
        failed ← panic_act "fork";
        child ← run_line b e fds (p ++ [false]) fuel;
        k ← main_loop inp' e fds (p ++ [true]) fuel n';
        Some (Awrite (str "$ ") (Afork child (Await fds k) failed))
  end.

Definition sh_main (inp : list Z) (e : E) (fds : fdtable) (fuel : nat) : option act :=
  open_console fds (fun fds => main_loop inp e fds [] fuel (length inp)) 3.
End Main.
End Run.
