(* ===== verification/ShGrammar.v ===== *)
(** * The language of the shell (src/sh.c: the parser)

    The tokens of a line, the grammar of commands over them, and a recognizer on
    token lists with the shape of the parser.  The recognizer decides the grammar;
    [ShParse] shows that the parser does what the recognizer does.  [print] writes a
    command down so that the grammar gives it back. *)

From stdpp Require Import prelude list.
From Stdlib Require Import ZArith Lia.
From S2P Require Import Prelude Sh.

(** ** Tokens *)

Inductive token := Word (w : list Z) | Sym (c : Z) | App.

Definition is_ws (c : Z) : bool := existsb (Z.eqb c) [32; 9; 13; 10; 11].
Definition is_sym (c : Z) : bool := existsb (Z.eqb c) [60; 124; 62; 38; 59; 40; 41].
Definition is_word (c : Z) : bool := negb (is_ws c) && negb (is_sym c).

#[global] Arguments is_ws : simpl never.
#[global] Arguments is_sym : simpl never.

Definition flush (w : list Z) : list token := match w with [] => [] | _ => [Word w] end.

(** The tokens of a text that continues the word [w]. *)
Fixpoint lex (w : list Z) (cs : list Z) : list token :=
  match cs with
  | [] => flush w
  | c :: cs' =>
      if is_ws c then flush w ++ lex [] cs'
      else if c =? 62 then
        flush w ++ match cs' with
                   | d :: cs'' => if d =? 62 then App :: lex [] cs'' else Sym c :: lex [] cs'
                   | [] => [Sym c]
                   end
      else if is_sym c then flush w ++ Sym c :: lex [] cs'
      else lex (w ++ [c]) cs'
  end.
Definition tokens (text : list Z) : list token := lex [] text.

(** ** Commands *)

Inductive tree :=
| Texec (ws : list (list Z))
| Tredir (t : tree) (f : list Z) (mode fd : Z)
| Tpipe (l r : tree)
| Tlist (l r : tree)
| Tback (t : tree).

(** The mode and the descriptor of a redirection. *)
Definition redir_tok (k : token) : option (Z * Z) :=
  match k with
  | Sym c => if c =? 60 then Some (0, 0) else if c =? 62 then Some (513, 1) else None
  | App => Some (513, 1)
  | Word _ => None
  end.

Abbreviation redir := (list Z * Z * Z)%type.
Definition wrap (t : tree) (rs : list redir) : tree := foldl (fun t '(f, m, fd) => Tredir t f m fd) t rs.

(** Words and redirections in any order. *)
Inductive items : list token -> list (list Z) -> list redir -> Prop :=
| items_nil : items [] [] []
| items_word w ts ws rs : items ts ws rs -> items (Word w :: ts) (w :: ws) rs
| items_redir k f m fd ts ws rs :
    redir_tok k = Some (m, fd) -> items ts ws rs -> items (k :: Word f :: ts) ws ((f, m, fd) :: rs).

(** line ::= pipe &* | pipe &* ; line
    pipe ::= exec | exec '|' pipe
    exec ::= items | '(' line ')' redirections *)
Inductive line : list token -> tree -> Prop :=
| line_end ts n t : pipe ts t -> line (ts ++ replicate n (Sym 38)) (Nat.iter n Tback t)
| line_seq ts n t ts' t' : pipe ts t -> line ts' t' ->
    line (ts ++ replicate n (Sym 38) ++ Sym 59 :: ts') (Tlist (Nat.iter n Tback t) t')
with pipe : list token -> tree -> Prop :=
| pipe_one ts t : exec ts t -> pipe ts t
| pipe_more ts t ts' t' : exec ts t -> pipe ts' t' -> pipe (ts ++ Sym 124 :: ts') (Tpipe t t')
with exec : list token -> tree -> Prop :=
| exec_simple ts ws rs : items ts ws rs -> (length ws < 10)%nat -> exec ts (wrap (Texec ws) rs)
| exec_block ts t rts rs : line ts t -> items rts [] rs -> exec (Sym 40 :: ts ++ Sym 41 :: rts) (wrap t rs).

Scheme line_rect' := Minimality for line Sort Prop
  with pipe_rect' := Minimality for pipe Sort Prop
  with exec_rect' := Minimality for exec Sort Prop.
Combined Scheme grammar_ind from line_rect', pipe_rect', exec_rect'.

(** ** The recognizer *)

Definition stop_tok (k : token) : bool :=
  match k with Sym c => (c =? 124) || (c =? 41) || (c =? 38) || (c =? 59) | _ => false end.

Fixpoint tredirs (T : list token) : option (list redir * list token) :=
  match T with
  | [] => Some ([], [])
  | k :: T1 =>
      match redir_tok k with
      | None => Some ([], T)
      | Some (m, fd) =>
          match T1 with
          | Word f :: T2 => '(rs, T3) ← tredirs T2; Some ((f, m, fd) :: rs, T3)
          | _ => None
          end
      end
  end.

(** [n] words have been read. *)
Fixpoint titems (n : nat) (T : list token) : option (list (list Z) * list redir * list token) :=
  match T with
  | [] => Some ([], [], [])
  | k :: T1 =>
      if stop_tok k then Some ([], [], T) else
      match redir_tok k with
      | Some (m, fd) =>
          match T1 with
          | Word f :: T2 => '(ws, rs, T3) ← titems n T2; Some (ws, (f, m, fd) :: rs, T3)
          | _ => None
          end
      | None =>
          match k with
          | Word w => if (9 <=? n)%nat then None else '(ws, rs, T3) ← titems (S n) T1; Some (w :: ws, rs, T3)
          | _ => None
          end
      end
  end.

Fixpoint tbacks (t : tree) (T : list token) : tree * list token :=
  match T with
  | Sym c :: T' => if c =? 38 then tbacks (Tback t) T' else (t, T)
  | _ => (t, T)
  end.

Fixpoint tline (fuel : nat) (T : list token) : option (tree * list token) :=
  match fuel with
  | O => None
  | S fuel' =>
      '(t, T1) ← tpipe fuel' T;
      match tbacks t T1 with
      | (t1, Sym c :: T2) =>
          if c =? 59 then '(t2, T3) ← tline fuel' T2; Some (Tlist t1 t2, T3) else Some (t1, Sym c :: T2)
      | (t1, T2) => Some (t1, T2)
      end
  end
with tpipe (fuel : nat) (T : list token) : option (tree * list token) :=
  match fuel with
  | O => None
  | S fuel' =>
      '(t, T1) ← texec fuel' T;
      match T1 with
      | Sym c :: T2 =>
          if c =? 124 then '(t2, T3) ← tpipe fuel' T2; Some (Tpipe t t2, T3) else Some (t, T1)
      | _ => Some (t, T1)
      end
  end
with texec (fuel : nat) (T : list token) : option (tree * list token) :=
  match fuel with
  | O => None
  | S fuel' =>
      match T with
      | Sym c :: T1 => if c =? 40 then tblock fuel' T1 else '(ws, rs, T2) ← titems 0 T; Some (wrap (Texec ws) rs, T2)
      | _ => '(ws, rs, T2) ← titems 0 T; Some (wrap (Texec ws) rs, T2)
      end
  end
with tblock (fuel : nat) (T : list token) : option (tree * list token) :=
  match fuel with
  | O => None
  | S fuel' =>
      '(t, T1) ← tline fuel' T;
      match T1 with
      | Sym c :: T2 => if c =? 41 then '(rs, T3) ← tredirs T2; Some (wrap t rs, T3) else None
      | _ => None
      end
  end.

(** ** The recognizer is sound *)

Lemma tredirs_sound T rs T' : tredirs T = Some (rs, T') -> exists ts, T = ts ++ T' /\ items ts [] rs.
Proof.
  remember (length T) as n eqn:Hn. revert T rs T' Hn. induction (lt_wf n) as [n _ IH]. intros T rs T' ->.
  destruct T as [|k T1]; cbn; [intros [= <- <-]; exists []; split; [done|constructor]|].
  destruct (redir_tok k) as [[m fd]|] eqn:Hk; [|intros [= <- <-]; exists []; split; [done|constructor]].
  destruct T1 as [|[f| |] T2]; try done. destruct (tredirs T2) as [[rs1 T3]|] eqn:HT; [|done].
  intros [= <- <-]. destruct (IH (length T2) ltac:(cbn; lia) T2 rs1 T3 eq_refl HT) as (ts & -> & Hi).
  exists (k :: Word f :: ts). split; [done|by constructor].
Qed.

Lemma titems_sound T n ws rs T' :
  titems n T = Some (ws, rs, T') ->
  exists ts, T = ts ++ T' /\ items ts ws rs /\ (ws = [] \/ n + length ws < 10)%nat.
Proof.
  remember (length T) as k eqn:Hk. revert T n ws rs T' Hk. induction (lt_wf k) as [k _ IH]. intros T n ws rs T' ->.
  destruct T as [|x T1]; cbn -[Nat.leb]; [intros [= <- <- <-]; exists []; split_and!; [done|constructor|by left]|].
  destruct (stop_tok x); [intros [= <- <- <-]; exists []; split_and!; [done|constructor|by left]|].
  destruct (redir_tok x) as [[m fd]|] eqn:Hx.
  - destruct T1 as [|[f| |] T2]; try done. destruct (titems n T2) as [[[ws1 rs1] T3]|] eqn:HT; [|done]. intros [= <- <- <-].
    destruct (IH (length T2) ltac:(cbn; lia) T2 n ws1 rs1 T3 eq_refl HT) as (ts & -> & Hi & Hn).
    exists (x :: Word f :: ts). split_and!; [done|by constructor|done].
  - destruct x as [w| |]; try done. destruct (Nat.leb_spec 9 n); [done|].
    destruct (titems (S n) T1) as [[[ws1 rs1] T3]|] eqn:HT; [|done]. intros [= <- <- <-].
    destruct (IH (length T1) ltac:(cbn; lia) T1 (S n) ws1 rs1 T3 eq_refl HT) as (ts & -> & Hi & Hn).
    exists (Word w :: ts). split_and!; [done|by constructor|]. right. cbn. destruct Hn as [->|Hn]; cbn; lia.
Qed.

Lemma tbacks_spec T t : exists n T', T = replicate n (Sym 38) ++ T' /\ tbacks t T = (Nat.iter n Tback t, T') /\ head T' <> Some (Sym 38).
Proof.
  revert t. induction T as [|[w|c|] T IH]; intros t; try by exists 0%nat; eexists; split_and!; [reflexivity..|].
  cbn. destruct (Z.eqb_spec c 38) as [->|Hc]; [|exists 0%nat; eexists; split_and!; [reflexivity..|cbn; congruence]].
  destruct (IH (Tback t)) as (n & T' & -> & -> & Hh). exists (S n), T'. split_and!; [done| |done]. by rewrite Nat.iter_succ_r.
Qed.

Lemma recognizer_sound fuel :
  (forall T t T', tline fuel T = Some (t, T') -> exists ts, T = ts ++ T' /\ line ts t) /\
  (forall T t T', tpipe fuel T = Some (t, T') -> exists ts, T = ts ++ T' /\ pipe ts t) /\
  (forall T t T', texec fuel T = Some (t, T') -> exists ts, T = ts ++ T' /\ exec ts t) /\
  (forall T t T', tblock fuel T = Some (t, T') -> exists ts, T = ts ++ T' /\ exec (Sym 40 :: ts) t).
Proof.
  induction fuel as [|fuel (IHl & IHp & IHe & IHb)]; [done|].
  assert (Hsimple : forall T ws rs T', titems 0 T = Some (ws, rs, T') -> exists ts, T = ts ++ T' /\ exec ts (wrap (Texec ws) rs)).
  { intros T ws rs T' (ts & -> & Hi & Hn)%titems_sound. exists ts. split; [done|]. constructor; [done|]. destruct Hn as [->|]; cbn; lia. }
  split_and!; intros T t T'; cbn [tline tpipe texec tblock].
  - destruct (tpipe fuel T) as [[t1 T1]|] eqn:HP; [|done]. cbn [mbind option_bind]. apply IHp in HP as (ts & -> & HP).
    destruct (tbacks_spec T1 t1) as (n & T2 & -> & -> & _).
    assert (Hend : exists ts0, ts ++ replicate n (Sym 38) ++ T2 = ts0 ++ T2 /\ line ts0 (Nat.iter n Tback t1)).
    { exists (ts ++ replicate n (Sym 38)). split; [by rewrite app_assoc|by constructor]. }
    destruct T2 as [|[w|c|] T2]; try (intros [= <- <-]; exact Hend).
    destruct (Z.eqb_spec c 59) as [->|]; [|intros [= <- <-]; exact Hend].
    destruct (tline fuel T2) as [[t2 T3]|] eqn:HL; [|done]. intros [= <- <-]. apply IHl in HL as (ts' & -> & HL).
    exists (ts ++ replicate n (Sym 38) ++ Sym 59 :: ts'). split; [by rewrite <- !app_assoc|by constructor].
  - destruct (texec fuel T) as [[t1 T1]|] eqn:HE; [|done]. cbn [mbind option_bind]. apply IHe in HE as (ts & -> & HE).
    assert (Hone : exists ts0, ts ++ T1 = ts0 ++ T1 /\ pipe ts0 t1) by (exists ts; split; [done|by constructor]).
    destruct T1 as [|[w|c|] T2]; try (intros [= <- <-]; exact Hone).
    destruct (Z.eqb_spec c 124) as [->|]; [|intros [= <- <-]; exact Hone].
    destruct (tpipe fuel T2) as [[t2 T3]|] eqn:HP; [|done]. intros [= <- <-]. apply IHp in HP as (ts' & -> & HP).
    exists (ts ++ Sym 124 :: ts'). split; [by rewrite <- app_assoc|by constructor].
  - assert (Hs : ('(ws, rs, T2) ← titems 0 T; Some (wrap (Texec ws) rs, T2)) = Some (t, T') -> exists ts, T = ts ++ T' /\ exec ts t).
    { destruct (titems 0 T) as [[[ws rs] T2]|] eqn:HT; [|done]. intros [= <- <-]. by apply Hsimple. }
    destruct T as [|[w|c|] T1]; try exact Hs. destruct (Z.eqb_spec c 40) as [->|]; [|exact Hs].
    intros (ts & -> & HE)%IHb. by exists (Sym 40 :: ts).
  - destruct (tline fuel T) as [[t1 T1]|] eqn:HL; [|done]. cbn [mbind option_bind]. apply IHl in HL as (ts & -> & HL).
    destruct T1 as [|[w|c|] T2]; try done. destruct (Z.eqb_spec c 41) as [->|]; [|done].
    destruct (tredirs T2) as [[rs T3]|] eqn:HR; [|done]. intros [= <- <-]. apply tredirs_sound in HR as (rts & -> & HR).
    exists (ts ++ Sym 41 :: rts). split; [by rewrite <- app_assoc|by constructor].
Qed.

(** ** The recognizer is complete *)

(** What can come behind a redirection, a simple command, a pipeline, a line. *)
Definition follows (set : list Z) (T : list token) : Prop :=
  match T with [] => True | Sym c :: _ => existsb (Z.eqb c) set = true | _ => False end.

Lemma tredirs_complete ts rs T :
  items ts [] rs -> follows [124; 41; 38; 59] T -> tredirs (ts ++ T) = Some (rs, T).
Proof.
  intros Hi HT. remember [] as ws eqn:Hws. induction Hi as [|w ts ws rs Hi IH|k f m fd ts ws rs Hk Hi IH]; [|done|].
  - destruct T as [|[w|c|] T]; try done. cbn in *. destruct (Z.eqb_spec c 60); [lia|].
    destruct (Z.eqb_spec c 62); [lia|done].
  - cbn. by rewrite Hk, (IH Hws).
Qed.

Lemma titems_complete ts ws rs T n :
  items ts ws rs -> (ws = [] \/ n + length ws < 10)%nat -> follows [124; 41; 38; 59] T ->
  titems n (ts ++ T) = Some (ws, rs, T).
Proof.
  intros Hi. revert n. induction Hi as [|w ts ws rs Hi IH|k f m fd ts ws rs Hk Hi IH]; intros n Hn HT.
  - destruct T as [|[w|c|] T]; try done. cbn -[Nat.leb].
    cbn in HT. by replace (_ || _) with true by lia.
  - cbn -[Nat.leb]. destruct Hn as [|Hn]; [done|]. cbn in Hn. destruct (Nat.leb_spec 9 n); [lia|]. rewrite IH; [done| |done]. right. lia.
  - cbn -[Nat.leb]. destruct (stop_tok k) eqn:Hs.
    { destruct k as [|c|]; try done. cbn in Hs, Hk. destruct (Z.eqb_spec c 60); [by subst|]. destruct (Z.eqb_spec c 62); [by subst|done]. }
    rewrite Hk. by rewrite IH.
Qed.

Lemma tbacks_complete t n T : head T <> Some (Sym 38) -> tbacks t (replicate n (Sym 38) ++ T) = (Nat.iter n Tback t, T).
Proof.
  intros Hh. revert t. induction n as [|n IH]; intros t; cbn.
  - destruct T as [|[w|c|] T]; try done. cbn. destruct (Z.eqb_spec c 38) as [->|]; done.
  - rewrite IH. f_equal. symmetry. apply Nat.iter_succ_r.
Qed.

Lemma recognizer_complete :
  (forall ts t, line ts t -> forall fuel T, follows [41] T -> (4 * length ts + 3 <= fuel)%nat -> tline fuel (ts ++ T) = Some (t, T)) /\
  (forall ts t, pipe ts t -> forall fuel T, follows [41; 38; 59] T -> (4 * length ts + 2 <= fuel)%nat -> tpipe fuel (ts ++ T) = Some (t, T)) /\
  (forall ts t, exec ts t -> forall fuel T, follows [124; 41; 38; 59] T -> (4 * length ts + 1 <= fuel)%nat -> texec fuel (ts ++ T) = Some (t, T)).
Proof.
  apply grammar_ind.
  - intros ts n t _ IH [|fuel] T HT Hf; [lia|]. rewrite length_app, length_replicate in Hf. cbn [tline]. rewrite <- app_assoc.
    rewrite IH; [|destruct n; [|done]; destruct T as [|[]]; cbn in *; lia|lia]. cbn [mbind option_bind].
    rewrite tbacks_complete by (destruct T as [|[]]; cbn in *; try congruence; intros [= ->]; lia).
    destruct T as [|[w|c|] T]; try done. cbn in HT. by destruct (Z.eqb_spec c 59); [lia|].
  - intros ts n t ts' t' _ IH _ IH' [|fuel] T HT Hf; [lia|]. rewrite !length_app, length_replicate in Hf. cbn [length] in Hf.
    cbn [tline]. rewrite <- !app_assoc. cbn [app]. rewrite IH; [|by destruct n|lia]. cbn [mbind option_bind].
    rewrite tbacks_complete by done. cbn. by rewrite IH' by (done || lia).
  - intros ts t _ IH [|fuel] T HT Hf; [lia|]. cbn [tpipe]. rewrite IH; [|destruct T as [|[]]; cbn in *; lia|lia]. cbn [mbind option_bind].
    destruct T as [|[w|c|] T]; try done. cbn in HT. by destruct (Z.eqb_spec c 124); [lia|].
  - intros ts t ts' t' _ IH _ IH' [|fuel] T HT Hf; [lia|]. rewrite length_app in Hf. cbn [length] in Hf. cbn [tpipe].
    rewrite <- app_assoc. cbn [app]. rewrite IH; [|done|lia]. cbn. by rewrite IH' by (done || lia).
  - intros ts ws rs Hi Hn [|fuel] T HT Hf; [lia|]. cbn [texec].
    assert (Hs : ('(ws, rs, T2) ← titems 0 (ts ++ T); Some (wrap (Texec ws) rs, T2)) = Some (wrap (Texec ws) rs, T)) by (by rewrite (titems_complete ts ws rs) by auto).
    inversion Hi; subst; cbn [app]; try exact Hs.
    + destruct T as [|[w|c|] T]; try exact Hs. cbn in HT. destruct (Z.eqb_spec c 40); [lia|exact Hs].
    + destruct k as [w|c|]; try exact Hs. destruct (Z.eqb_spec c 40) as [->|]; [done|exact Hs].
  - intros ts t rts rs _ IH Hi [|[|fuel]] T HT Hf; [lia|cbn in Hf; lia|]. cbn [length] in Hf. rewrite length_app in Hf. cbn [length] in Hf.
    cbn [app texec]. rewrite Z.eqb_refl. cbn [tblock]. rewrite <- app_assoc. cbn [app]. rewrite IH; [|done|lia]. cbn.
    by rewrite (tredirs_complete rts rs).
Qed.

(** The recognizer decides the grammar. *)
Lemma recognizer_spec fuel T :
  (4 * length T + 3 <= fuel)%nat ->
  forall t, line T t <-> tline fuel T = Some (t, []).
Proof.
  intros Hf t. destruct (recognizer_sound fuel) as [Hs _]. destruct recognizer_complete as [Hc _]. split.
  - intros HL. rewrite <- (app_nil_r T). by apply Hc.
  - intros (ts & -> & HL)%Hs. by rewrite app_nil_r.
Qed.

(** ** Printing *)

Definition paren (b : bool) (ts : list token) : list token := if b then Sym 40 :: ts ++ [Sym 41] else ts.

(** The tokens of a command where a line (0), a pipeline with &s behind it (1), a
    pipeline (2) or a part of a pipeline (3) is wanted. *)
Fixpoint print_at (lvl : nat) (t : tree) : list token :=
  match t with
  | Texec ws => Word <$> ws
  | Tredir t f m _ => print_at 3 t ++ [Sym (if m =? 0 then 60 else 62); Word f]
  | Tpipe l r => paren (3 <=? lvl)%nat (print_at 3 l ++ Sym 124 :: print_at 2 r)
  | Tlist l r => paren (1 <=? lvl)%nat (print_at 1 l ++ Sym 59 :: print_at 0 r)
  | Tback t => paren (2 <=? lvl)%nat (print_at 1 t ++ [Sym 38])
  end.

Definition spell1 (k : token) : list Z :=
  match k with Word w => w ++ [32] | Sym c => [c; 32] | App => [62; 62; 32] end.
Definition spell (ts : list token) : list Z := ts ≫= spell1.

Definition print (t : tree) : list Z := spell (print_at 0 t).

Definition ok_word (w : list Z) : Prop := w <> [] /\ Forall (fun c => is_word c = true /\ c <> 0) w.

(** The commands that can be written. *)
Fixpoint ok_tree (t : tree) : Prop :=
  match t with
  | Texec ws => Forall ok_word ws /\ (length ws < 10)%nat
  | Tredir t f m fd => ok_tree t /\ ok_word f /\ ((m = 0 /\ fd = 0) \/ (m = 513 /\ fd = 1))
  | Tpipe l r | Tlist l r => ok_tree l /\ ok_tree r
  | Tback t => ok_tree t
  end.

Definition ok_token (k : token) : Prop :=
  match k with Word w => ok_word w | Sym c => is_sym c = true | App => True end.

Lemma lex_word w v cs : Forall (fun c => is_word c = true) v -> lex w (v ++ cs) = lex (w ++ v) cs.
Proof.
  revert w. induction v as [|c v IH]; intros w Hv; [by rewrite app_nil_r|]. apply Forall_cons in Hv as [Hc Hv].
  cbn. unfold is_word in Hc. destruct (is_ws c); [done|]. destruct (is_sym c) eqn:Hs; [done|].
  destruct (Z.eqb_spec c 62) as [->|]; [done|]. rewrite IH by done. by rewrite <- app_assoc.
Qed.

Lemma lex_spell ts : Forall ok_token ts -> tokens (spell ts) = ts.
Proof.
  unfold tokens. induction 1 as [|[w|c|] ts Hk _ IH]; [done|..]; cbn [spell mbind list_bind]; fold (spell ts).
  - destruct Hk as [Hne Hw]. cbn [spell1]. rewrite <- app_assoc, lex_word by (eapply Forall_impl; [exact Hw|by intros ? []]). cbn.
    rewrite IH. destruct w; [done|]. done.
  - cbn in Hk |- *. assert (is_ws c = false) as -> by (unfold is_ws, is_sym in *; cbn in *; lia).
    destruct (Z.eqb_spec c 62) as [->|]; cbn; [by rewrite IH|]. by rewrite Hk, IH.
  - cbn. by rewrite IH.
Qed.

Lemma items_app ts ws rs ts' ws' rs' : items ts ws rs -> items ts' ws' rs' -> items (ts ++ ts') (ws ++ ws') (rs ++ rs').
Proof. induction 1; intros; cbn; [done|constructor; auto..]. Qed.

Lemma items_words ws : items (Word <$> ws) ws [].
Proof. induction ws; cbn; by constructor. Qed.

Lemma exec_redir ts t k f m fd :
  exec ts t -> redir_tok k = Some (m, fd) -> exec (ts ++ [k; Word f]) (Tredir t f m fd).
Proof.
  intros He Hk. assert (Hi : items [k; Word f] [] [(f, m, fd)]) by (repeat constructor; done).
  assert (Hw : forall t rs, wrap t (rs ++ [(f, m, fd)]) = Tredir (wrap t rs) f m fd) by (intros; unfold wrap; by rewrite foldl_app).
  destruct He as [ts ws rs His Hn|ts t rts rs Hl His]; rewrite <- Hw.
  - constructor; [|done]. rewrite <- (app_nil_r ws). by apply items_app.
  - cbn. rewrite <- app_assoc. constructor; [done|]. by apply (items_app rts [] rs).
Qed.

Lemma line_of_pipe ts t : pipe ts t -> line ts t.
Proof. intros Hp. rewrite <- (app_nil_r ts). by apply (line_end ts 0 t). Qed.

Lemma exec_paren ts t : line ts t -> exec (paren true ts) t.
Proof. intros Hl. apply (exec_block ts t [] [] Hl). constructor. Qed.

Lemma print_parses t : ok_tree t ->
  line (print_at 0 t) t /\
  (exists ts n t0, print_at 1 t = ts ++ replicate n (Sym 38) /\ t = Nat.iter n Tback t0 /\ pipe ts t0) /\
  pipe (print_at 2 t) t /\ exec (print_at 3 t) t.
Proof.
  assert (Hexec : forall ts t, exec ts t -> line ts t /\
    (exists ts' n t0, ts = ts' ++ replicate n (Sym 38) /\ t = Nat.iter n Tback t0 /\ pipe ts' t0) /\ pipe ts t /\ exec ts t).
  { intros ts t0 He. assert (Hp : pipe ts t0) by (by constructor). split_and!; [by apply line_of_pipe| |done..].
    exists ts, 0%nat, t0. split_and!; [by rewrite app_nil_r|done..]. }
  induction t as [ws|t IH f m fd|l IHl r IHr|l IHl r IHr|t IH]; cbn [ok_tree print_at Nat.leb paren].
  - intros [_ Hn]. apply Hexec. apply (exec_simple _ ws []); [apply items_words|done].
  - intros (Ht & _ & Hm). apply Hexec, exec_redir; [by apply IH|]. by destruct Hm as [[-> ->]|[-> ->]].
  - intros [(_ & _ & _ & Hl)%IHl (_ & _ & Hr & _)%IHr]. assert (Hp := pipe_more _ _ _ _ Hl Hr).
    assert (Hln := line_of_pipe _ _ Hp). split_and!; [done| |done|by apply exec_paren].
    eexists _, 0%nat, _. split_and!; [by rewrite app_nil_r|reflexivity|done].
  - intros [(_ & (ts & n & t0 & -> & -> & Hp) & _)%IHl (Hr & _)%IHr].
    assert (Hln := line_seq ts n _ _ _ Hp Hr). rewrite app_assoc in Hln. assert (He := exec_paren _ _ Hln). cbn [paren] in He.
    split_and!; [done|by apply Hexec..].
  - intros (_ & (ts & n & t0 & -> & -> & Hp) & _)%IH.
    assert (Ea : (ts ++ replicate n (Sym 38)) ++ [Sym 38] = ts ++ replicate (S n) (Sym 38)) by (rewrite replicate_S_end; by rewrite app_assoc).
    assert (Hln := line_end ts (S n) _ Hp). rewrite Ea. assert (He := exec_paren _ _ Hln). cbn [paren] in He.
    split_and!; [done|by exists ts, (S n), t0|by constructor|done].
Qed.

Lemma print_ok lvl t : ok_tree t -> Forall ok_token (print_at lvl t).
Proof.
  assert (Hparen : forall b ts, Forall ok_token ts -> Forall ok_token (paren b ts)).
  { intros [] ts Hts; cbn; [|done]. rewrite Forall_cons, Forall_app, Forall_singleton. done. }
  revert lvl. induction t as [ws|t IH f m fd|l IHl r IHr|l IHl r IHr|t IH]; intros lvl; cbn [ok_tree print_at].
  - intros [Hw _]. by apply Forall_fmap.
  - intros (Ht & Hf & _). rewrite Forall_app, Forall_cons, Forall_singleton. split_and!; [by apply IH| |done]. by destruct (m =? 0).
  - intros [Hl Hr]. apply Hparen. rewrite Forall_app, Forall_cons. split_and!; [by apply IHl|done|by apply IHr].
  - intros [Hl Hr]. apply Hparen. rewrite Forall_app, Forall_cons. split_and!; [by apply IHl|done|by apply IHr].
  - intros Ht. apply Hparen. rewrite Forall_app, Forall_singleton. split; [by apply IH|done].
Qed.

(** What is printed for a command is a sentence for it. *)
Lemma print_sentence t : ok_tree t -> line (tokens (print t)) t.
Proof. intros Ht. unfold print. rewrite lex_spell by (by apply print_ok). by apply print_parses. Qed.
