(* ===== verification/ShParse.v ===== *)
(** * The parser of the shell implements its grammar (src/sh.c)

    The parser is run on a line without nul bytes.  Its position corresponds to the
    tokens that are left, the commands it builds in memory to trees, and each of its
    functions to a function of the recognizer of [ShGrammar].  When the line is a
    sentence, the strings of the command in memory are those of the tree after
    nulterminate(); when it is not, the parser gives up with a message. *)

From stdpp Require Import prelude gmap strings list.
From Stdlib Require Import ZArith Lia.
From S2P Require Import Prelude Strings Sysfile Sh ShGrammar.

(** ** Running the shell's code *)

Section Wp.
Context {E : Type}.

(** [m] returns with [Q], or exits and then [X] holds. *)
Definition wp {A} (m : SM E A) (s : sh E) (Q : A -> sh E -> Prop) (X : Prop) : Prop :=
  match m s with Ret a s' => Q a s' | Exit _ => X | Crash | Spin => False end.

Lemma wp_seq {A B} (m : SM E A) (f : A -> SM E B) s P Y Q X :
  wp m s P Y -> (forall a s', P a s' -> wp (f a) s' Q X) -> (Y -> X) -> wp (m ≫= f) s Q X.
Proof. unfold wp, mbind, SM_bind. intros Hm Hf HX. destruct (m s); [by apply Hf|by apply HX|done|done]. Qed.

Lemma wp_mono {A} (m : SM E A) s P Y (Q : A -> sh E -> Prop) (X : Prop) :
  wp m s P Y -> (forall a s', P a s' -> Q a s') -> (Y -> X) -> wp m s Q X.
Proof. unfold wp. intros Hm Hf HX. destruct (m s); auto. Qed.

Lemma wp_ret {A} (a : A) s (Q : A -> sh E -> Prop) X : Q a s -> wp (mret a) s Q X.
Proof. done. Qed.

Lemma wp_bind {A B} (m : SM E A) (f : A -> SM E B) s Q X : wp m s (fun a s' => wp (f a) s' Q X) X -> wp (m ≫= f) s Q X.
Proof. intros Hm. eapply wp_seq; [exact Hm|done|done]. Qed.

Lemma wp_get {B} (f : sh E -> SM E B) s Q X : wp (f s) s Q X -> wp (sget ≫= f) s Q X.
Proof. done. Qed.

Lemma wp_mod {B} g (f : unit -> SM E B) s Q X : wp (f tt) (g s) Q X -> wp (smod g ≫= f) s Q X.
Proof. done. Qed.

Lemma wp_lift {A B} (o : option A) a (f : A -> SM E B) s Q X : o = Some a -> wp (f a) s Q X -> wp (lift o ≫= f) s Q X.
Proof. by intros ->. Qed.

Lemma wp_panic {A} msg s (Q : A -> sh E -> Prop) (X : Prop) : X -> wp (panic msg) s Q X.
Proof. done. Qed.
End Wp.

(** ** The characters of the line *)

Lemma chr_set l c : Forall (fun x => x <> 0) l -> chr (l ++ [0]) c = Some (existsb (Z.eqb c) l).
Proof.
  unfold chr. induction 1 as [|x l Hx Hl IH]; [done|]. cbn. destruct (Z.eqb_spec x 0); [done|].
  rewrite Z.eqb_sym. destruct (Z.eqb_spec c x); [done|]. cbn. destruct (strchr (l ++ [0]) c) as [[]|]; cbn in *; try done.
Qed.

Lemma chr_ws c : chr whitespace c = Some (is_ws c).
Proof. apply (chr_set [32; 9; 13; 10; 11]). repeat constructor; lia. Qed.

Lemma chr_sym c : chr symbols c = Some (is_sym c).
Proof. apply (chr_set [60; 124; 62; 38; 59; 40; 41]). repeat constructor; lia. Qed.

Lemma word_char_spec c : word_char c = Some (is_word c).
Proof. unfold word_char, is_word. rewrite chr_ws, chr_sym. cbn. by destruct (is_ws c). Qed.

(** The first [n] characters from [i] on that satisfy [f]. *)
Lemma scan_spec (b : list Z) p (f : Z -> bool) l i r :
  (forall c, p c = Some (f c)) -> 0 <= i -> drop (Z.to_nat i) b = l ++ r ->
  exists v w, l = v ++ w /\ Forall (fun c => f c = true) v /\ (forall c, head w = Some c -> f c = false) /\
    scan b p i (length l) = Some (i + Z.of_nat (length v)).
Proof.
  intros Hp. revert i. induction l as [|c l IH]; intros i Hi Hd.
  - exists [], []. split_and!; [done|constructor|done|]. cbn. f_equal. lia.
  - assert (Hc : aget b i = Some c).
    { unfold aget. destruct (Z.ltb_spec i 0); [lia|]. rewrite <- (Nat.add_0_r (Z.to_nat i)), <- lookup_drop, Hd. done. }
    cbn. rewrite Hc. cbn. rewrite Hp. cbn. destruct (f c) eqn:Hf.
    + destruct (IH (i + 1)) as (v & w & -> & Hv & Hw & Hs); [lia| |].
      { replace (Z.to_nat (i + 1)) with (Z.to_nat i + 1)%nat by lia. rewrite <- drop_drop, Hd. done. }
      exists (c :: v), w. split_and!; [done|by constructor|done|]. rewrite Hs. cbn. f_equal. lia.
    + exists [], (c :: l). split_and!; [done|constructor|by intros ? [= <-]|]. cbn. f_equal. lia.
Qed.

(** ** Tokens *)

Lemma lex_skip v cs : Forall (fun c => is_ws c = true) v -> tokens (v ++ cs) = tokens cs.
Proof. unfold tokens. induction 1 as [|c v Hc Hv IH]; [done|]. cbn. by rewrite Hc. Qed.

Lemma lex_flush w cs : w <> [] -> (forall c, head cs = Some c -> is_word c = false) -> lex w cs = Word w :: tokens cs.
Proof.
  intros Hw Hh. assert (Hf : flush w = [Word w]) by (by destruct w). unfold tokens.
  destruct cs as [|c cs]; [done|]. specialize (Hh c eq_refl). unfold is_word in Hh. cbn. rewrite Hf.
  destruct (is_ws c); [done|]. destruct (Z.eqb_spec c 62); [done|]. destruct (is_sym c); [done|done].
Qed.

Lemma tokens_length cs : (length (tokens cs) <= length cs)%nat.
Proof.
  enough (H : forall n w cs, (length cs <= n)%nat -> (length (lex w cs) <= length (flush w) + length cs)%nat) by (unfold tokens; exact (H _ [] cs (le_n _))).
  clear. intros n. induction n as [|n IH]; intros w [|c cs] Hn; cbn in *; try lia.
  assert (H0 := IH [] cs ltac:(lia)). cbn in H0.
  destruct (is_ws c); [rewrite length_app; lia|]. destruct (c =? 62).
  - rewrite length_app. destruct cs as [|d cs]; [cbn; lia|]. destruct (d =? 62); [|cbn in *; lia].
    assert (H1 := IH [] cs ltac:(cbn in *; lia)). cbn in *. lia.
  - destruct (is_sym c); [rewrite length_app; cbn; lia|]. assert (H1 := IH (w ++ [c]) cs ltac:(lia)).
    assert (length (flush (w ++ [c])) = 1%nat) by (destruct w; done). lia.
Qed.

(** What malloc() promises: while fewer than [cap] blocks are given out, it gives
    out a new one. *)
Class MallocOk (E : Type) `{Malloc E} := {
  given : E -> gset Z;
  cap : nat;
  malloc_ok n e : 0 < n <= 84 -> (size (given e) < cap)%nat ->
    (let '(a, e') := malloc n e in a <> 0 /\ (a ∉ given e) /\ given e' = {[a]} ∪ given e);
}.

Section Parse.
Context {E : Type} `{MallocOk E} (text behind : list Z).
Hypothesis text_ok : Forall (fun c => c <> 0) text.
Abbreviation es := (Z.of_nat (length text)).
Abbreviation line_buf := (text ++ 0 :: behind).

(** The parser is before the tokens [T]. *)
Record st (s : sh E) (T : list token) : Prop := {
  st_buf : buf s = line_buf;
  st_ps : 0 <= ps s <= es;
  st_tok : tokens (drop (Z.to_nat (ps s)) text) = T;
  st_dom : dom (cmds s) ⊆ given (mem s);
  st_null : cmds s !! 0 = None;
}.

(** The word [w] is in the line from [q] to [e]. *)
Record word_at (q e : Z) (w : list Z) : Prop := {
  wa_q : 0 <= q;
  wa_e : e = q + Z.of_nat (length w);
  wa_ok : ok_word w;
  wa_text : exists r, drop (Z.to_nat q) text = w ++ r /\ (forall c, head r = Some c -> is_word c = false);
}.

Lemma st_length s T : st s T -> (length T <= length text)%nat.
Proof. intros Hs. rewrite <- (st_tok _ _ Hs). etrans; [apply tokens_length|]. rewrite length_drop. lia. Qed.

Lemma buf_drop i : 0 <= i <= es -> drop (Z.to_nat i) line_buf = drop (Z.to_nat i) text ++ 0 :: behind.
Proof. intros Hi. rewrite drop_app_le by lia. done. Qed.

Lemma buf_get i : 0 <= i <= es -> aget line_buf i = Some (default 0 (head (drop (Z.to_nat i) text))).
Proof.
  intros Hi. unfold aget. destruct (Z.ltb_spec i 0); [lia|]. rewrite <- (Nat.add_0_r (Z.to_nat i)), <- lookup_drop, Nat.add_0_r, buf_drop by lia.
  by destruct (drop _ text).
Qed.

(** A loop over the line from [i] on stops before the nul. *)
Lemma scan_line p f i :
  (forall c, p c = Some (f c)) -> 0 <= i <= es ->
  exists v w, drop (Z.to_nat i) text = v ++ w /\ Forall (fun c => f c = true) v /\ (forall c, head w = Some c -> f c = false) /\
    scan line_buf p i (Z.to_nat (es - i)) = Some (i + Z.of_nat (length v)) /\
    0 <= i + Z.of_nat (length v) <= es /\ drop (Z.to_nat (i + Z.of_nat (length v))) text = w.
Proof.
  intros Hp Hi. destruct (scan_spec line_buf p f (drop (Z.to_nat i) text) i (0 :: behind) Hp) as (v & w & Hd & Hv & Hw & Hs); [lia|by rewrite buf_drop|].
  assert (Hl := f_equal length Hd). rewrite length_drop, length_app in Hl.
  exists v, w. split_and!; try done; [|lia..|]. { by replace (Z.to_nat (es - i)) with (length (drop (Z.to_nat i) text)) by (rewrite length_drop; lia). }
  replace (Z.to_nat (i + _)) with (Z.to_nat i + length v)%nat by lia. by rewrite <- drop_drop, Hd, drop_app_length.
Qed.

Lemma skip_line i :
  0 <= i <= es ->
  exists j, skip line_buf es i = Some j /\ 0 <= j <= es /\
    tokens (drop (Z.to_nat j) text) = tokens (drop (Z.to_nat i) text) /\
    (forall c, head (drop (Z.to_nat j) text) = Some c -> is_ws c = false).
Proof.
  intros Hi. destruct (scan_line (chr whitespace) is_ws i chr_ws Hi) as (v & w & Hd & Hv & Hw & Hs & Hj & <-).
  exists (i + Z.of_nat (length v)). split_and!; try done; [lia..|]. by rewrite Hd, lex_skip.
Qed.

Lemma text_nonzero i c : head (drop i text) = Some c -> c <> 0.
Proof.
  intros Hc. assert (text !! i = Some c).
  { rewrite <- (Nat.add_0_r i), <- lookup_drop. by destruct (drop i text). }
  by eapply Forall_lookup_1 in text_ok.
Qed.

Lemma drop_next i c r : 0 <= i -> drop (Z.to_nat i) text = c :: r -> drop (Z.to_nat (i + 1)) text = r /\ i + 1 <= es.
Proof.
  intros Hi Hd. assert (Hl := f_equal length Hd). rewrite length_drop in Hl. cbn in Hl. split; [|lia].
  replace (Z.to_nat (i + 1)) with (Z.to_nat i + 1)%nat by lia. by rewrite <- drop_drop, Hd.
Qed.

Lemma word_at_here i w r :
  0 <= i -> drop (Z.to_nat i) text = w ++ r -> w <> [] -> Forall (fun c => is_word c = true) w ->
  (forall c, head r = Some c -> is_word c = false) -> word_at i (i + Z.of_nat (length w)) w.
Proof.
  intros Hi Hd Hne Hw Hr. split; [done|done| |by exists r]. split; [done|]. apply Forall_forall. intros c Hc.
  rewrite Forall_forall in Hw. split; [by apply Hw|]. assert (Hin : c ∈ drop (Z.to_nat i) text) by (rewrite Hd; set_solver).
  rewrite Forall_forall in text_ok. apply text_ok. eapply elem_of_submseteq; [exact Hin|]. apply sublist_submseteq, sublist_drop.
Qed.

(** Only the position has changed. *)
Definition moved (s s' : sh E) : Prop := exists j, s' = s <| ps := j |>.

Lemma st_move s T j T' : st s T -> 0 <= j <= es -> tokens (drop (Z.to_nat j) text) = T' -> st (s <| ps := j |>) T'.
Proof. intros [? ? ? ? ?] Hj Ht. by split. Qed.

(** The first token from a character that is not white space. *)
Lemma tokens_cons c cs :
  is_ws c = false ->
  tokens (c :: cs) =
    if c =? 62 then match cs with
                    | d :: cs' => if d =? 62 then App :: tokens cs' else Sym c :: tokens cs
                    | [] => [Sym c] end
    else if is_sym c then Sym c :: tokens cs else lex [c] cs.
Proof. intros Hc. unfold tokens. cbn. rewrite Hc. by destruct (c =? 62), (is_sym c). Qed.

Lemma sym_cases c : is_sym c = (c =? 124) || (c =? 40) || (c =? 41) || (c =? 59) || (c =? 38) || (c =? 60) || (c =? 62).
Proof. unfold is_sym. cbn. lia. Qed.

(** What gettoken() returns for the first token, and the tokens it leaves. *)
Definition token_post (T : list token) (r : Z * Z * Z) (T' : list token) : Prop :=
  let '(ret, q, e) := r in
  match T with
  | [] => ret = 0 /\ T' = []
  | Word w :: T1 => ret = 97 /\ word_at q e w /\ T' = T1
  | Sym c :: T1 => ret = c /\ is_sym c = true /\ T' = T1
  | App :: T1 => ret = 43 /\ T' = T1
  end.

Lemma gettoken_spec s T :
  st s T -> wp (gettoken es) s (fun r s' => moved s s' /\ exists T', st s' T' /\ token_post T r T') False.
Proof.
  intros Hs. pose proof Hs as [Hb Hp Ht _ _]. unfold gettoken. apply wp_get. rewrite Hb.
  destruct (skip_line (ps s) Hp) as (j & Hj & Hjr & Htj & Hws). eapply wp_lift; [exact Hj|]. rewrite Ht in Htj. clear Ht.
  eapply wp_lift; [by apply buf_get|].
  (* the end of every branch *)
  assert (Hend : forall ret k T', 0 <= k <= es -> tokens (drop (Z.to_nat k) text) = T' -> token_post T (ret, j, k) T' ->
    wp (s0 ← lift (skip line_buf es k); smod (fun st0 => st0 <| ps := s0 |>) ;; mret (ret, j, k)) s
       (fun r s' => moved s s' /\ exists T', st s' T' /\ token_post T r T') False).
  { intros ret k T' Hk HT' Hpost. destruct (skip_line k Hk) as (l & Hl & Hlr & Htl & _). eapply wp_lift; [exact Hl|]. apply wp_mod, wp_ret.
    split; [by exists l|]. exists T'. split; [|done]. apply (st_move s T); [done|done|]. by rewrite Htl. }
  destruct (drop (Z.to_nat j) text) as [|c cs] eqn:Hd; cbn [head default from_option id].
  - cbn [Z.eqb]. apply wp_bind, wp_ret. apply (Hend 0 j []); [done|by rewrite Hd|by subst T].
  - pose proof (Hws c eq_refl) as Hc. pose proof (text_nonzero (Z.to_nat j) c) as Hnz. rewrite Hd in Hnz. specialize (Hnz eq_refl).
    rewrite tokens_cons in Htj by done. destruct (Z.eqb_spec c 0); [done|]. destruct (drop_next j c cs) as [Hd1 Hj1]; [lia|done|].
    destruct (_ || (c =? 60)) eqn:Hsym.
    + apply wp_bind, wp_ret. destruct (Z.eqb_spec c 62) as [->|]; [done|].
      assert (Hy : is_sym c = true) by (rewrite sym_cases; lia). rewrite Hy in Htj. apply (Hend c (j + 1) (tokens cs)); [lia|by rewrite Hd1|by subst T].
    + destruct (Z.eqb_spec c 62) as [->|Hc62].
      * apply wp_bind. eapply wp_lift; [apply buf_get; lia|]. rewrite Hd1.
        destruct cs as [|d cs']; cbn [head default from_option id]; [|destruct (Z.eqb_spec d 62) as [->|]].
        -- apply wp_ret. apply (Hend 62 (j + 1) []); [lia|by rewrite Hd1|by subst T].
        -- destruct (drop_next (j + 1) 62 cs') as [Hd2 Hj2]; [lia|done|]. apply wp_ret. replace (j + 2) with (j + 1 + 1) by lia.
           apply (Hend 43 (j + 1 + 1) (tokens cs')); [lia|by rewrite Hd2|by subst T].
        -- apply wp_ret. apply (Hend 62 (j + 1) (tokens (d :: cs'))); [lia|by rewrite Hd1|by subst T].
      * assert (Hy : is_sym c = false) by (rewrite sym_cases; lia). rewrite Hy in Htj.
        destruct (scan_line word_char is_word j word_char_spec Hjr) as (v & w & Hdv & Hv & Hw & Hsc & Hr & Hdw).
        apply wp_bind. eapply wp_lift; [exact Hsc|]. apply wp_ret.
        assert (Hvne : v <> []).
        { intros ->. cbn in Hdv. specialize (Hw c). rewrite <- Hdv, Hd in Hw. unfold is_word in Hw. rewrite Hc, Hy in Hw. by specialize (Hw eq_refl). }
        apply (Hend 97 _ (tokens w)); [done|by rewrite Hdw|]. subst T. rewrite Hd in Hdv. destruct v as [|c' v]; [done|]. injection Hdv as <- ->.
        rewrite lex_word by (by apply Forall_cons in Hv as [_ ?]). cbn [app]. rewrite lex_flush by done.
        split_and!; try done. by apply (word_at_here j (c :: v) w); [lia|..].
Qed.

(** Whether the first token begins with a character of [set]. *)
Definition first_in (set : list Z) (T : list token) : bool :=
  match T with
  | Sym c :: _ => existsb (Z.eqb c) set
  | App :: _ => existsb (Z.eqb 62) set
  | _ => false
  end.

Lemma peek_spec set s T :
  Forall (fun c => is_sym c = true) set -> st s T ->
  wp (peek es (set ++ [0])) s (fun b s' => moved s s' /\ st s' T /\ b = first_in set T) False.
Proof.
  intros Hset Hs. pose proof Hs as [Hb Hp Ht _ _]. unfold peek. apply wp_get. rewrite Hb.
  destruct (skip_line (ps s) Hp) as (j & Hj & Hjr & Htj & Hws). eapply wp_lift; [exact Hj|]. apply wp_mod. rewrite Ht in Htj. clear Ht.
  eapply wp_lift; [by apply buf_get|]. assert (Hmv : moved s (s <| ps := j |>)) by (by exists j). assert (Hst := st_move s T j T Hs Hjr Htj).
  destruct (drop (Z.to_nat j) text) as [|c cs] eqn:Hd; cbn [head default from_option id].
  - apply wp_ret. split_and!; [done|done|by subst T].
  - pose proof (text_nonzero (Z.to_nat j) c) as Hnz. rewrite Hd in Hnz. specialize (Hnz eq_refl).
    destruct (Z.eqb_spec c 0); [done|]. rewrite chr_set.
    2: { eapply Forall_impl; [exact Hset|]. by intros x Hx ->. }
    apply wp_ret. split_and!; [done|done|]. rewrite tokens_cons in Htj by (by apply Hws). destruct (Z.eqb_spec c 62) as [->|].
    + destruct cs as [|d cs]; [by subst T|]. destruct (d =? 62); by subst T.
    + destruct (is_sym c) eqn:Hy; [by subst T|]. assert (Hn : existsb (Z.eqb c) set = false).
      { apply not_true_is_false. intros (x & Hx & ->%Z.eqb_eq)%existsb_exists. rewrite Forall_forall in Hset. apply list_elem_of_In in Hx.
        rewrite (Hset _ Hx) in Hy. done. }
      rewrite Hn. subst T. unfold first_in. clear. enough (H : exists w T, lex [c] cs = Word w :: T) by (destruct H as (w & T & ->); done).
      enough (H : forall w, w <> [] -> exists w' T, lex w cs = Word w' :: T) by by apply H.
      induction cs as [|d cs IH]; intros w Hw; cbn; (assert (Hf : flush w = [Word w]) by by destruct w); rewrite ?Hf; [by eexists _, _|].
      repeat case_match; cbn; eauto. apply IH. by destruct w.
Qed.

(** Nothing but white space is left. *)
Lemma tokens_nil cs : (forall c, head cs = Some c -> is_ws c = false) -> tokens cs = [] -> cs = [].
Proof.
  intros Hh. destruct cs as [|c cs]; [done|]. rewrite tokens_cons by auto. assert (Hl : forall w, w <> [] -> lex w cs <> []).
  { clear. induction cs as [|d cs IH]; intros w Hw; cbn; [by destruct w|]. repeat case_match; try (by destruct w); apply IH; by destruct w. }
  destruct (c =? 62); [destruct cs as [|d cs]; [done|by destruct (d =? 62)]|]. destruct (is_sym c); [done|]. intros Hx. exfalso. by apply (Hl [c]).
Qed.

Lemma peek_end s : st s [] -> wp (peek es [0]) s (fun _ s' => moved s s' /\ ps s' = es) False.
Proof.
  intros Hs. pose proof Hs as [Hb Hp Ht _ _]. unfold peek. apply wp_get. rewrite Hb.
  destruct (skip_line (ps s) Hp) as (j & Hj & Hjr & Htj & Hws). eapply wp_lift; [exact Hj|]. apply wp_mod. rewrite Ht in Htj.
  apply tokens_nil in Htj; [|done]. assert (Hl := f_equal length Htj). rewrite length_drop in Hl. cbn in Hl.
  eapply wp_lift; [by apply buf_get|]. rewrite Htj. cbn [head default from_option id Z.eqb]. apply wp_ret. split; [by exists j|]. cbn. lia.
Qed.

(** ** Commands in memory *)

(** The arguments of an EXEC command, each with its end. *)
Definition exec_of (qs : list (Z * Z)) : cmd :=
  EXEC ((Some ∘ fst <$> qs) ++ replicate (10 - length qs) None) ((Some ∘ snd <$> qs) ++ replicate (10 - length qs) None).

(** The command at [a] is the tree [t], where [P q e w] says that the string from
    [q] to [e] is [w]. *)
Inductive rep (P : Z -> Z -> list Z -> Prop) (C : gmap Z cmd) : Z -> tree -> Prop :=
| rep_exec a qs ws :
    C !! a = Some (exec_of qs) -> Forall2 (fun p w => P p.1 p.2 w) qs ws -> (length ws < 10)%nat -> rep P C a (Texec ws)
| rep_redir a c q e f m fd t :
    C !! a = Some (REDIR c q e m fd) -> P q e f -> rep P C c t -> rep P C a (Tredir t f m fd)
| rep_pipe a l r tl tr : C !! a = Some (PIPE l r) -> rep P C l tl -> rep P C r tr -> rep P C a (Tpipe tl tr)
| rep_list a l r tl tr : C !! a = Some (LIST l r) -> rep P C l tl -> rep P C r tr -> rep P C a (Tlist tl tr)
| rep_back a c t : C !! a = Some (BACK c) -> rep P C c t -> rep P C a (Tback t).

Lemma rep_mono (P P' : Z -> Z -> list Z -> Prop) C C' a t :
  (forall q e w, P q e w -> P' q e w) -> C ⊆ C' -> rep P C a t -> rep P' C' a t.
Proof.
  intros HP HC. induction 1; econstructor; eauto using lookup_weaken.
  eapply Forall2_impl; [eassumption|]. cbn. auto.
Qed.

(** [a] is the command [c] with the redirections [rs] around it. *)
Inductive chain (C : gmap Z cmd) (c : Z) : Z -> list redir -> Prop :=
| chain_nil : chain C c c []
| chain_snoc a b q e f m fd rs :
    C !! a = Some (REDIR b q e m fd) -> word_at q e f -> chain C c b rs -> chain C c a (rs ++ [(f, m, fd)]).

Lemma chain_mono C C' c a rs :
  (forall a b q e m fd, C !! a = Some (REDIR b q e m fd) -> C' !! a = Some (REDIR b q e m fd)) -> chain C c a rs -> chain C' c a rs.
Proof. intros HC. induction 1; econstructor; eauto. Qed.

Lemma chain_rep C c a rs t : chain C c a rs -> rep word_at C c t -> rep word_at C a (wrap t rs).
Proof.
  induction 1 as [|a b q e f m fd rs Ha Hw Hch IH]; intros Hc; [done|]. unfold wrap. rewrite foldl_app. cbn.
  econstructor; eauto.
Qed.

(** ** Allocation *)

Definition used (s : sh E) : nat := size (given (mem s)).

(** From [s] before [T] to [s'] before [T'], at most two blocks for each token and
    [k] more have been allocated. *)
Record grows (k : nat) (s : sh E) (T : list token) (s' : sh E) (T' : list token) : Prop := {
  gr_st : st s' T';
  gr_len : (length T' <= length T)%nat;
  gr_used : (used s' + 2 * length T' <= used s + 2 * length T + k)%nat;
}.

Lemma moved_used s s' : moved s s' -> used s' = used s /\ cmds s' = cmds s.
Proof. by intros [j ->]. Qed.

Lemma new_spec n c s T :
  st s T -> 0 < n <= 84 -> (used s < cap)%nat ->
  wp (new n c) s (fun a s' => st s' T /\ cmds s !! a = None /\ cmds s' = <[a := c]> (cmds s) /\ used s' = S (used s)) False.
Proof.
  intros Hs Hn Hcap. unfold new. apply wp_get. pose proof (malloc_ok n (mem s) Hn Hcap) as Hm.
  destruct (malloc n (mem s)) as [a e]. destruct Hm as (Ha & Hg & He). apply wp_mod. cbn [mem cmds update].
  destruct (Z.eqb_spec a 0); [done|]. apply wp_mod, wp_ret. destruct Hs as [Hb Hp Ht Hd Hnull].
  assert (Hfresh : cmds s !! a = None) by (apply not_elem_of_dom; set_solver).
  split_and!; [|done|done|unfold used; cbn; rewrite He, size_union by set_solver; rewrite size_singleton; done].
  split; cbn; try done; [rewrite dom_insert, He; set_solver|by rewrite lookup_insert_ne].
Qed.

(** ** Redirections *)

Lemma redir_kind T r T' :
  first_in [60; 62] T = true -> token_post T r T' ->
  exists k m fd, T = k :: T' /\ redir_tok k = Some (m, fd) /\
    forall cmd q e, (if r.1.1 =? 60 then redircmd cmd q e O_RDONLY 0
      else if r.1.1 =? 62 then redircmd cmd q e (Z.lor O_WRONLY O_CREATE) 1
      else if r.1.1 =? 43 then redircmd cmd q e (Z.lor O_WRONLY O_CREATE) 1 else mret cmd) = new (E := E) 24 (REDIR cmd q e m fd).
Proof.
  destruct r as [[ret q] e]. destruct T as [|[w|c|] T]; cbn; try done.
  - intros Hf (-> & _ & ->). assert (c = 60 \/ c = 62) as [->| ->] by lia; by eexists _, _, _.
  - intros _ [-> ->]. by eexists _, _, _.
Qed.

Lemma not_redir_tok k T : first_in [60; 62] (k :: T) = false -> redir_tok k = None.
Proof. destruct k as [w|c|]; cbn; try done. intros Hf. destruct (Z.eqb_spec c 60); [lia|]. destruct (Z.eqb_spec c 62); [lia|done]. Qed.

Lemma redir_loop_spec fuel s T c a rs0 :
  st s T -> (length T <= fuel)%nat -> (used s + 2 * length T <= cap)%nat -> chain (cmds s) c a rs0 ->
  wp (redir_loop es a fuel) s (fun a' s' => exists rs T', tredirs T = Some (rs, T') /\ grows 0 s T s' T' /\ cmds s ⊆ cmds s' /\
    chain (cmds s') c a' (rs0 ++ rs) /\ first_in [60; 62] T' = false) (tredirs T = None).
Proof.
  revert s T a rs0. induction fuel as [|fuel IH]; intros s T a rs0 Hs HT Hu Hch; cbn [redir_loop].
  - destruct T; [|cbn in HT; lia]. eapply wp_seq; [apply (peek_spec [60; 62] s []); [by repeat constructor|done]| |done].
    intros b s' (Hmv & Hs' & ->). cbn [negb first_in]. apply wp_ret. apply moved_used in Hmv as [Hu' HC']. exists [], [].
    split_and!; try done; [split; [done|done|lia]|by rewrite HC'|by rewrite HC', app_nil_r].
  - eapply wp_seq; [apply (peek_spec [60; 62] s T); [by repeat constructor|done]| |done]. intros b s1 (Hmv & Hs1 & ->).
    apply moved_used in Hmv as [Hu1 HC1]. destruct (first_in [60; 62] T) eqn:Hf; cbn [negb].
    2: { apply wp_ret. exists [], T. split_and!; try done; [|split; [done|done|lia]|by rewrite HC1|by rewrite HC1, app_nil_r].
         destruct T as [|k T]; [done|]. cbn. by rewrite (not_redir_tok k T). }
    eapply wp_seq; [by apply gettoken_spec| |done]. intros [[tok q0] e0] s2 (Hmv & T1 & Hs2 & Hp). apply moved_used in Hmv as [Hu2 HC2].
    destruct (redir_kind _ _ _ Hf Hp) as (k & m & fd & -> & Hk & Hnew). cbn in HT, Hu, Hnew.
    eapply wp_seq; [by apply gettoken_spec| |done]. intros [[t q] e] s3 (Hmv & T2 & Hs3 & Hp2). apply moved_used in Hmv as [Hu3 HC3].
    cbn [tredirs]. rewrite Hk. destruct (Z.eqb_spec t 97) as [->|Hne]; cbn [negb].
    2: { apply wp_panic. destruct T1 as [|[w|c1|] T1]; cbn in Hp2; try done. by destruct Hp2. }
    destruct T1 as [|[f|c1|] T1]; cbn in Hp2; [by destruct Hp2| |by destruct Hp2 as (<- & ? & _)|by destruct Hp2].
    destruct Hp2 as (_ & Hw & ->). rewrite Hnew. cbn in HT, Hu.
    eapply wp_seq; [apply (new_spec 24 _ s3 T1); [done|lia|lia]| |done]. intros a' s4 (Hs4 & Hfr & HC4 & Hu4). rewrite HC3, HC2, HC1 in Hfr, HC4.
    assert (Hsub : cmds s ⊆ cmds s4) by (rewrite HC4; by apply insert_subseteq).
    eapply wp_mono; [apply (IH s4 T1 a' (rs0 ++ [(f, m, fd)])); [done|lia|lia|]| |].
    + eapply (chain_snoc _ _ a' a q e); [rewrite HC4; by simplify_map_eq|done|]. eapply chain_mono; [|exact Hch]. intros ? ? ? ? ? ? Hl. by eapply lookup_weaken.
    + intros a'' s5 (rs & T' & Ht & Hg & Hsub' & Hch' & Hf'). exists ((f, m, fd) :: rs), T'. rewrite Ht. destruct Hg.
      split_and!; [done| |by etrans|by rewrite <- app_assoc in Hch'|done]. split; [done|cbn; lia|cbn; lia].
    + by intros ->.
Qed.

Lemma parseredirs_spec s T c a rs0 :
  st s T -> (used s + 2 * length T <= cap)%nat -> chain (cmds s) c a rs0 ->
  wp (parseredirs es a) s (fun a' s' => exists rs T', tredirs T = Some (rs, T') /\ grows 0 s T s' T' /\ cmds s ⊆ cmds s' /\
    chain (cmds s') c a' (rs0 ++ rs) /\ first_in [60; 62] T' = false) (tredirs T = None).
Proof. intros Hs Hu Hch. apply redir_loop_spec; [done| |done|done]. apply st_length in Hs. lia. Qed.

(** ** Simple commands *)

(** Reading items is reading redirections first. *)
Lemma titems_tredirs n T :
  titems n T = '(rs, T1) ← tredirs T; '(ws, rs', T2) ← titems n T1; Some (ws, rs ++ rs', T2).
Proof.
  remember (length T) as k eqn:Hk. revert T Hk. induction (lt_wf k) as [k _ IH]. intros T ->.
  destruct T as [|x T]; [done|]. destruct (redir_tok x) as [[m fd]|] eqn:Hx.
  - assert (Hs : stop_tok x = false).
    { destruct x as [|c|]; cbn in *; try done. destruct (Z.eqb_spec c 60) as [->|]; [done|]. destruct (Z.eqb_spec c 62) as [->|]; [done|done]. }
    cbn -[Nat.leb]. rewrite Hs, Hx. destruct T as [|[f| |] T]; try done. rewrite (IH (length T) ltac:(cbn; lia) T eq_refl).
    destruct (tredirs T) as [[rs T1]|]; [|done]. cbn. by destruct (titems n T1) as [[[ws rs'] T2]|].
  - assert (Hr : tredirs (x :: T) = Some ([], x :: T)) by (cbn; by rewrite Hx). rewrite Hr. cbn [mbind option_bind].
    by destruct (titems n (x :: T)) as [[[ws rs'] T2]|].
Qed.

Lemma set_arg_run (s : sh E) c qs q e :
  cmds s !! c = Some (exec_of qs) -> (length qs < 10)%nat ->
  set_arg c (Z.of_nat (length qs)) (Some q) (Some e) s = Ret tt (s <| cmds ::= <[c := exec_of (qs ++ [(q, e)])]> |>).
Proof.
  intros Hc Hl. unfold set_arg, sget, mbind at 1, SM_bind at 1. cbn beta iota. rewrite Hc. unfold exec_of at 1.
  assert (Hset : forall (f : Z * Z -> Z) x, aset ((Some ∘ f <$> qs) ++ replicate (10 - length qs) None) (Z.of_nat (length qs)) (Some x) =
    Some ((Some ∘ f <$> qs) ++ Some x :: replicate (10 - S (length qs)) None)).
  { intros f x. rewrite aset_in by (rewrite length_app, length_fmap, length_replicate; lia). rewrite Nat2Z.id. f_equal.
    rewrite insert_app_r_alt by (rewrite length_fmap; lia). rewrite length_fmap, Nat.sub_diag. f_equal.
    replace (10 - length qs)%nat with (S (10 - S (length qs))) by lia. done. }
  rewrite !Hset. unfold exec_of. rewrite !fmap_app, !length_app, <- !app_assoc. cbn [length fmap list_fmap app].
  by replace (10 - (length qs + 1))%nat with (10 - S (length qs))%nat by lia.
Qed.

Lemma st_cmds s T c x : st s T -> is_Some (cmds s !! c) -> st (s <| cmds ::= <[c := x]> |>) T.
Proof.
  intros [Hb Hp Ht Hd Hn] Hc. split; cbn; try done.
  - rewrite dom_insert_L. apply elem_of_dom in Hc. set_solver.
  - rewrite lookup_insert_ne; [done|]. intros ->. rewrite Hn in Hc. by destruct Hc.
Qed.

(** Everything but the command at [c] stays. *)
Definition keeps (c : Z) (s s' : sh E) : Prop := forall a x, a <> c -> cmds s !! a = Some x -> cmds s' !! a = Some x.

(** One turn of the loop over the words. *)
Lemma args_loop_eq cmd argc ret fuel :
  args_loop (E := E) es cmd argc ret fuel =
    (b ← peek es [124; 41; 38; 59; 0];
     if b : bool then mret (argc, ret) else
     '(tok, q, eq) ← gettoken es;
     if tok =? 0 then mret (argc, ret) else
     if negb (tok =? 97) then panic "syntax" else
     set_arg cmd argc (Some q) (Some eq) ;;
     if MAXARGS <=? argc + 1 then panic "too many args" else
     ret ← parseredirs es ret;
     match fuel with O => spin | S fuel' => args_loop es cmd (argc + 1) ret fuel' end).
Proof. by destruct fuel. Qed.

Lemma args_loop_spec fuel s T c a rs0 qs :
  st s T -> (length T <= fuel)%nat -> (used s + 2 * length T <= cap)%nat -> first_in [60; 62] T = false ->
  chain (cmds s) c a rs0 -> cmds s !! c = Some (exec_of qs) -> (length qs < 10)%nat ->
  wp (args_loop es c (Z.of_nat (length qs)) a fuel) s (fun r s' => exists ws rs T' qs', titems (length qs) T = Some (ws, rs, T') /\
    grows 0 s T s' T' /\ keeps c s s' /\ chain (cmds s') c r.2 (rs0 ++ rs) /\ cmds s' !! c = Some (exec_of (qs ++ qs')) /\
    Forall2 (fun p w => word_at p.1 p.2 w) qs' ws /\ (length (qs ++ qs') < 10)%nat /\ r.1 = Z.of_nat (length (qs ++ qs'))) (titems (length qs) T = None).
Proof.
  revert s T a rs0 qs. induction fuel as [fuel IH] using lt_wf_ind. intros s T a rs0 qs Hs HT Hu Hnr Hch Hc Hq.
  rewrite args_loop_eq. eapply wp_seq; [apply (peek_spec [124; 41; 38; 59] s T); [by repeat constructor|done]| |done].
  intros b s1 (Hmv & Hs1 & ->). apply moved_used in Hmv as [Hu1 HC1].
  (* the end of the loop *)
  assert (Hend : forall s', st s' T -> used s' = used s -> cmds s' = cmds s -> titems (length qs) T = Some ([], [], T) ->
    exists ws rs T' qs', titems (length qs) T = Some (ws, rs, T') /\ grows 0 s T s' T' /\ keeps c s s' /\
      chain (cmds s') c a (rs0 ++ rs) /\ cmds s' !! c = Some (exec_of (qs ++ qs')) /\ Forall2 (fun p w => word_at p.1 p.2 w) qs' ws /\
      (length (qs ++ qs') < 10)%nat /\ Z.of_nat (length qs) = Z.of_nat (length (qs ++ qs'))).
  { intros s' Hs' Hu' HC' Ht. exists [], [], T, []. rewrite !app_nil_r, HC'. unfold keeps. rewrite HC'. split_and!; try done. split; [done|done|lia]. }
  destruct (first_in [124; 41; 38; 59] T) eqn:Hstop.
  { apply wp_ret, Hend; [done..|]. destruct T as [|[w|k|] T]; try done. cbn -[Nat.leb] in *. by replace (_ || _) with true by lia. }
  eapply wp_seq; [by apply gettoken_spec| |done]. intros [[tok q] e] s2 (Hmv & T1 & Hs2 & Hp). apply moved_used in Hmv as [Hu2 HC2].
  destruct T as [|[w|k|] T]; [| | |done].
  - destruct Hp as [-> ->]. cbn [Z.eqb]. apply wp_ret, Hend; [done|lia|by rewrite HC2|done].
  - destruct Hp as (-> & Hw & ->). cbn [Z.eqb Pos.eqb negb]. eapply wp_seq with (P := fun _ s' => s' = s2 <| cmds ::= <[c := exec_of (qs ++ [(q, e)])]> |>) (Y := False).
    { unfold wp. by rewrite set_arg_run by (rewrite ?HC2, ?HC1; done). }
    2: done.
    intros _ s3 ->. cbn [titems stop_tok redir_tok]. unfold MAXARGS. destruct (Z.leb_spec 10 (Z.of_nat (length qs) + 1)).
    { destruct (Nat.leb_spec 9 (length qs)); [|lia]. by apply wp_panic. }
    destruct (Nat.leb_spec 9 (length qs)); [lia|]. cbn in HT, Hu.
    assert (Hs3 := st_cmds s2 T c (exec_of (qs ++ [(q, e)])) Hs2 ltac:(rewrite HC2, HC1, Hc; eauto)). set (s3 := s2 <| cmds ::= _ |>) in *.
    assert (HC3 : cmds s3 = <[c := exec_of (qs ++ [(q, e)])]> (cmds s)) by (cbn; by rewrite HC2, HC1). assert (Hu3 : used s3 = used s) by (change (used s3) with (used s2); lia).
    rewrite titems_tredirs. eapply wp_seq; [apply (parseredirs_spec s3 T c a rs0); [done|lia|]| |by intros ->].
    { eapply chain_mono; [|exact Hch]. intros a' ? ? ? ? ? Ha'. rewrite HC3, lookup_insert_ne; [done|]. intros <-. unfold exec_of in Hc. congruence. }
    intros a' s4 (rs & T' & -> & [Hs4 Hl4 Hu4] & Hsub & Hch4 & Hnr4). cbn [mbind option_bind]. destruct fuel as [|fuel]; [lia|].
    replace (Z.of_nat (length qs) + 1) with (Z.of_nat (length (qs ++ [(q, e)]))) by (rewrite length_app; cbn; lia).
    replace (S (length qs)) with (length (qs ++ [(q, e)])) by (rewrite length_app; cbn; lia).
    eapply wp_mono; [apply (IH fuel ltac:(lia) s4 T' a' (rs0 ++ rs) (qs ++ [(q, e)])); [done|lia|lia|done|done| |]| |].
    + eapply lookup_weaken; [|exact Hsub]. rewrite HC3. by simplify_map_eq.
    + rewrite length_app. cbn. lia.
    + intros r s5 (ws & rs' & T'' & qs' & -> & [Hs5 Hl5 Hu5] & Hk & Hch5 & Hc5 & Hf & Hl & Hr). exists (w :: ws), (rs ++ rs'), T'', ((q, e) :: qs').
      rewrite <- app_assoc in *. cbn [app] in *. split_and!; try done; [split; [done|cbn; lia|cbn; lia]| |by constructor].
      intros x y Hx Hy. apply Hk; [done|]. eapply lookup_weaken; [|exact Hsub]. rewrite HC3. by simplify_map_eq.
    + by intros ->.
  - destruct Hp as (-> & Hy & ->). cbn -[Nat.leb] in Hstop, Hnr. destruct (Z.eqb_spec k 0) as [->|]; [done|].
    assert (Hn : titems (length qs) (Sym k :: T) = None).
    { cbn -[Nat.leb]. replace (_ || _) with false by lia. destruct (Z.eqb_spec k 60); [lia|]. destruct (Z.eqb_spec k 62); [lia|done]. }
    destruct (Z.eqb_spec k 97) as [->|]; [done|]. by apply wp_panic.
Qed.

Lemma set_arg_null (s : sh E) c qs :
  cmds s !! c = Some (exec_of qs) -> (length qs < 10)%nat -> set_arg c (Z.of_nat (length qs)) None None s = Ret tt (s <| cmds ::= <[c := exec_of qs]> |>).
Proof.
  intros Hc Hl. unfold set_arg, sget, mbind at 1, SM_bind at 1. cbn beta iota. rewrite Hc. unfold exec_of at 1.
  assert (Hset : forall (f : Z * Z -> Z), aset ((Some ∘ f <$> qs) ++ replicate (10 - length qs) None) (Z.of_nat (length qs)) None =
    Some ((Some ∘ f <$> qs) ++ replicate (10 - length qs) None)).
  { intros f. rewrite aset_in by (rewrite length_app, length_fmap, length_replicate; lia). f_equal. rewrite Nat2Z.id. apply list_insert_id.
    rewrite lookup_app_r by (rewrite length_fmap; lia). rewrite length_fmap, Nat.sub_diag. apply lookup_replicate_2. lia. }
  by rewrite !Hset.
Qed.

Lemma parsesimple_spec s T :
  st s T -> (used s + 2 * length T + 1 <= cap)%nat ->
  wp (parsesimple es) s (fun a s' => exists ws rs T', titems 0 T = Some (ws, rs, T') /\ grows 1 s T s' T' /\ cmds s ⊆ cmds s' /\
    rep word_at (cmds s') a (wrap (Texec ws) rs)) (titems 0 T = None).
Proof.
  intros Hs Hu. unfold parsesimple, execcmd. eapply wp_seq; [apply (new_spec 84 _ s T); [done|lia|lia]| |done].
  intros c s1 (Hs1 & Hfr & HC1 & Hu1). rewrite titems_tredirs.
  eapply wp_seq; [apply (parseredirs_spec s1 T c c []); [done|lia|constructor]| |by intros ->].
  intros a s2 (rs & T1 & -> & [Hs2 Hl2 Hu2] & Hsub & Hch & Hnr). cbn [mbind option_bind app].
  assert (Hc2 : cmds s2 !! c = Some (exec_of [])) by (eapply lookup_weaken; [|exact Hsub]; rewrite HC1; by simplify_map_eq).
  eapply wp_seq; [apply (args_loop_spec (Z.to_nat es) s2 T1 c a rs []); [done|apply st_length in Hs2; lia|lia|done|done|done|cbn; lia]| |cbn [length]; by intros ->].
  cbn [length]. intros [argc a'] s3 (ws & rs' & T' & qs & -> & [Hs3 Hl3 Hu3] & Hk & Hch3 & Hc3 & Hf & Hl & Hr). cbn in Hr, Hch3, Hl, Hc3. subst argc.
  eapply wp_seq with (P := fun _ s' => s' = s3 <| cmds ::= <[c := exec_of qs]> |>) (Y := False); [unfold wp; by rewrite set_arg_null| |done].
  intros _ s4 ->. apply wp_ret. exists ws, (rs ++ rs'), T'. assert (HC4 : <[c := exec_of qs]> (cmds s3) = cmds s3) by (by apply insert_id).
  split_and!; [done|split; [|lia|change (used (s3 <| cmds ::= <[c := exec_of qs]> |>)) with (used s3); lia]|cbn; rewrite HC4|cbn; rewrite HC4].
  - apply st_cmds; [done|by eexists].
  - apply map_subseteq_spec. intros x y Hx. apply Hk; [by intros ->; rewrite Hx in Hfr|]. eapply lookup_weaken; [|exact Hsub]. rewrite HC1.
    rewrite lookup_insert_ne; [done|]. intros ->. by rewrite Hx in Hfr.
  - eapply chain_rep; [exact Hch3|]. econstructor; [done|exact Hf|]. apply Forall2_length in Hf. lia.
Qed.

(** ** The whole parser *)

Lemma back_loop_spec fuel s T a t :
  st s T -> (length T <= fuel)%nat -> (used s + length T <= cap)%nat -> rep word_at (cmds s) a t ->
  wp (back_loop es a fuel) s (fun a' s' => exists t' T', tbacks t T = (t', T') /\ grows 0 s T s' T' /\ cmds s ⊆ cmds s' /\
    rep word_at (cmds s') a' t') False.
Proof.
  revert s T a t. induction fuel as [|fuel IH]; intros s T a t Hs HT Hu Hr; cbn [back_loop];
    (eapply wp_seq; [apply (peek_spec [38] s T); [by repeat constructor|done]| |done]; intros b s1 (Hmv & Hs1 & ->); apply moved_used in Hmv as [Hu1 HC1]);
    (destruct (first_in [38] T) eqn:Hf; cbn [negb];
     [|apply wp_ret; exists t, T; split_and!; [|split; [done|done|lia]|by rewrite HC1|by rewrite HC1];
       destruct T as [|[w|c|] T]; try done; cbn in *; by destruct (Z.eqb_spec c 38); [lia|]]).
  { destruct T; [done|cbn in HT; lia]. }
  eapply wp_seq; [by apply gettoken_spec| |done]. intros [[tok q] e] s2 (Hmv & T1 & Hs2 & Hp). apply moved_used in Hmv as [Hu2 HC2].
  destruct T as [|[w|c|] T]; try done. cbn in Hf. assert (c = 38) as -> by lia. destruct Hp as (_ & _ & ->). cbn in HT, Hu.
  eapply wp_seq; [apply (new_spec 8 _ s2 T); [done|lia|lia]| |done]. intros a' s3 (Hs3 & Hfr & HC3 & Hu3). rewrite HC2, HC1 in Hfr, HC3.
  assert (Hsub : cmds s ⊆ cmds s3) by (rewrite HC3; by apply insert_subseteq).
  eapply wp_mono; [apply (IH s3 T a' (Tback t)); [done|lia|lia|]| |done].
  - econstructor; [rewrite HC3; by simplify_map_eq|]. by eapply rep_mono; [|exact Hsub|exact Hr].
  - intros a'' s4 (t' & T' & Ht & [Hs4 Hl4 Hu4] & Hsub' & Hr'). exists t', T'. split_and!; [done|split; [done|cbn; lia|cbn; lia]|by etrans|done].
Qed.

(** What a function of the parser does, against the recognizer's. *)
Definition result (s : sh E) (T : list token) (r : option (tree * list token)) (a : Z) (s' : sh E) : Prop :=
  exists t T', r = Some (t, T') /\ grows 1 s T s' T' /\ cmds s ⊆ cmds s' /\ rep word_at (cmds s') a t.
Abbreviation does m s T r := (wp m s (result s T r) (r = None)).

Lemma does_moved m s s0 T r : moved s0 s -> does m s T r -> wp m s (result s0 T r) (r = None).
Proof.
  intros [Hu HC]%moved_used Hd. eapply wp_mono; [exact Hd| |done]. intros a s' (t & T' & -> & [? ? ?] & Hsub & Hr).
  exists t, T'. rewrite <- HC. split_and!; try done. split; [done..|lia].
Qed.

(** A token that peek() has seen is the one gettoken() takes. *)
Lemma take_sym c s T :
  st s T -> is_sym c = true -> c <> 62 ->
  wp (peek es [c; 0]) s (fun b s' => moved s s' /\ st s' T /\
    match T with
    | Sym d :: T' => b = (d =? c) /\ (d = c -> wp (gettoken es) s' (fun _ s'' => moved s s'' /\ st s'' T') False)
    | _ => b = false
    end) False.
Proof.
  intros Hs Hc Hne. eapply wp_mono; [apply (peek_spec [c] s T); [by constructor|done]| |done]. intros b s1 (Hmv & Hs1 & ->). split_and!; [done..|].
  destruct T as [|[w|d|] T]; cbn [first_in existsb]; try done; [|by destruct (Z.eqb_spec 62 c)]. split; [by rewrite orb_false_r|]. intros ->. eapply wp_mono; [by apply gettoken_spec| |done].
  intros [[tok q] e] s2 ([j2 ->] & T1 & Hs2 & Hp). destruct Hmv as [j ->]. destruct Hp as (_ & _ & ->). split; [by exists j2|done].
Qed.

(** Building a node from two commands. *)
Lemma pair_spec n mk (con : tree -> tree -> tree) s T l r tl tr :
  (forall C a, C !! a = Some (mk l r) -> rep word_at C l tl -> rep word_at C r tr -> rep word_at C a (con tl tr)) ->
  0 < n <= 84 -> st s T -> (used s < cap)%nat -> rep word_at (cmds s) l tl -> rep word_at (cmds s) r tr ->
  wp (new n (mk l r)) s (fun a s' => st s' T /\ used s' = S (used s) /\ cmds s ⊆ cmds s' /\ rep word_at (cmds s') a (con tl tr)) False.
Proof.
  intros Hcon Hn Hs Hu Hl Hr. eapply wp_mono; [by apply (new_spec n _ s T)| |done]. intros a s' (Hs' & Hfr & HC & Hu').
  assert (Hsub : cmds s ⊆ cmds s') by (rewrite HC; by apply insert_subseteq). split_and!; try done.
  apply Hcon; [rewrite HC; by simplify_map_eq|eapply rep_mono; [|exact Hsub|eassumption]; done..].
Qed.

(** A command, and when [c] comes next another one, joined by a node. *)
Lemma tail_spec c n mk (con : tree -> tree -> tree) (m : SM E Z) rec s0 T0 s T a t :
  (forall C a l r tl tr, C !! a = Some (mk l r) -> rep word_at C l tl -> rep word_at C r tr -> rep word_at C a (con tl tr)) ->
  is_sym c = true -> c <> 62 -> 0 < n <= 84 -> (used s0 + 2 * length T0 + 1 <= cap)%nat ->
  grows 1 s0 T0 s T -> cmds s0 ⊆ cmds s -> rep word_at (cmds s) a t ->
  (forall s' T', st s' T' -> (length T' < length T0)%nat -> (used s' + 2 * length T' + 1 <= cap)%nat -> does m s' T' (rec T')) ->
  let r := match T with
           | Sym d :: T1 => if d =? c then '(t2, T2) ← rec T1; Some (con t t2, T2) else Some (t, T)
           | _ => Some (t, T)
           end in
  wp (b ← peek es [c; 0]; if b : bool then gettoken es ;; x ← m; new n (mk a x) else mret a) s (result s0 T0 r) (r = None).
Proof.
  intros Hcon Hc Hne Hn Hcap [Hs Hlen Hu] Hsub Hr Hrec r. eapply wp_seq; [by apply (take_sym c s T)| |done].
  intros b s1 (Hmv & Hs1 & Hb). assert (Hend : result s0 T0 (Some (t, T)) a s1).
  { exists t, T. apply moved_used in Hmv as [Hu1 HC1]. rewrite HC1. split_and!; try done. split; [done|done|lia]. }
  destruct T as [|[w|d|] T]; try (rewrite Hb; by apply wp_ret). destruct Hb as [-> Hb]. subst r. destruct (Z.eqb_spec d c) as [->|]; [|by apply wp_ret].
  eapply wp_seq; [by apply Hb| |done]. intros _ s2 ([Hu2 HC2]%moved_used & Hs2). cbn [length] in *.
  eapply wp_seq; [apply (Hrec s2 T); [done|lia|lia]| |by intros ->]. intros x s3 (t2 & T2 & -> & [Hs3 Hl3 Hu3] & Hsub3 & Hr3). cbn [mbind option_bind].
  rewrite HC2 in Hsub3. eapply wp_mono; [apply (pair_spec n mk con s3 T2 a x t t2); [intros C a' ? ? ?; by eapply Hcon|done|done|lia| |done]| |done].
  { by eapply rep_mono; [|exact Hsub3|exact Hr]. }
  intros y s4 (Hs4 & Hu4 & Hsub4 & Hr4). exists (con t t2), T2. split_and!; [done| |by do 2 (etrans; [eassumption|])|done]. split; [done|lia|lia].
Qed.

Lemma parser_spec fuel :
  (forall s T, st s T -> (4 * length T + 3 <= fuel)%nat -> (used s + 2 * length T + 1 <= cap)%nat -> does (parseline es fuel) s T (tline fuel T)) /\
  (forall s T, st s T -> (4 * length T + 2 <= fuel)%nat -> (used s + 2 * length T + 1 <= cap)%nat -> does (parsepipe es fuel) s T (tpipe fuel T)) /\
  (forall s T, st s T -> (4 * length T + 1 <= fuel)%nat -> (used s + 2 * length T + 1 <= cap)%nat -> does (parseexec es fuel) s T (texec fuel T)) /\
  (forall s T, st s (Sym 40 :: T) -> (4 * length T + 4 <= fuel)%nat -> (used s + 2 * length T + 3 <= cap)%nat -> does (parseblock es fuel) s (Sym 40 :: T) (tblock fuel T)).
Proof.
  induction fuel as [|fuel (IHl & IHp & IHe & IHb)]; [split_and!; lia|]. split_and!; intros s T Hs Hf Hu; cbn [parseline parsepipe parseexec parseblock tline tpipe texec tblock].
  - eapply wp_seq; [apply IHp; [done|lia|done]| |by intros ->]. intros a s1 (t & T1 & -> & [Hs1 Hl1 Hu1] & Hsub1 & Hr1). cbn [mbind option_bind].
    eapply wp_seq; [apply (back_loop_spec (Z.to_nat es) s1 T1 a t); [done|apply st_length in Hs1; lia|lia|done]| |done].
    intros a2 s2 (t2 & T2 & -> & [Hs2 Hl2 Hu2] & Hsub2 & Hr2).
    eapply wp_mono; [apply (tail_spec 59 12 LIST Tlist (parseline es fuel) (tline fuel) s T s2 T2 a2 t2)| |].
    + intros. by eapply rep_list.
    + done.
    + done.
    + done.
    + done.
    + split; [done|lia|lia].
    + by etrans.
    + done.
    + intros s' T' Hs' Hl' Hu'. apply IHl; [done|lia|done].
    + by destruct T2 as [|[w|c|] T2].
    + by destruct T2 as [|[w|c|] T2].
  - eapply wp_seq; [apply IHe; [done|lia|done]| |by intros ->]. intros a s1 (t & T1 & -> & Hg & Hsub1 & Hr1). cbn [mbind option_bind].
    apply (tail_spec 124 12 PIPE Tpipe (parsepipe es fuel) (tpipe fuel) s T s1 T1 a t); try done.
    + intros. by eapply rep_pipe.
    + intros s' T' Hs' Hl' Hu'. apply IHp; [done|lia|done].
  - eapply wp_seq; [by apply (peek_spec [40] s T); [repeat constructor|]| |done]. intros b s1 (Hmv & Hs1 & ->).
    assert (Hsimple : does (parsesimple es) s1 T ('(ws, rs, T2) ← titems 0 T; Some (wrap (Texec ws) rs, T2))).
    { apply moved_used in Hmv as [Hu1 _]. eapply wp_mono; [apply parsesimple_spec; [done|lia]| |by intros ->].
      intros a s' (ws & rs & T' & -> & Hg & Hsub & Hr). by eexists _, _. }
    apply (does_moved _ s1 s T) in Hsimple; [|done]. destruct T as [|[w|c|] T]; try exact Hsimple. cbn [first_in existsb]. rewrite orb_false_r.
    destruct (Z.eqb_spec c 40) as [->|]; [|exact Hsimple]. apply (does_moved _ s1 s); [done|]. apply moved_used in Hmv as [Hu1 _]. cbn [length] in *.
    apply IHb; [done|lia|lia].
  - eapply wp_seq; [by apply (take_sym 40 s (Sym 40 :: T))| |done]. intros b s1 (_ & Hs1 & -> & Hget). cbn [Z.eqb Pos.eqb negb].
    eapply wp_seq; [by apply Hget| |done]. intros _ s2 ([Hu2 HC2]%moved_used & Hs2).
    eapply wp_seq; [apply (IHl s2 T); [done|lia|lia]| |by intros ->]. intros a s3 (t & T1 & -> & [Hs3 Hl3 Hu3] & Hsub3 & Hr3). cbn [mbind option_bind].
    eapply wp_seq; [by apply (take_sym 41 s3 T1)| |done]. intros b s4 (_ & Hs4 & Hb).
    destruct T1 as [|[w|c|] T1]; try (rewrite Hb; by apply wp_panic). destruct Hb as [-> Hget']. destruct (Z.eqb_spec c 41) as [->|]; [|by apply wp_panic].
    cbn [negb]. eapply wp_seq; [by apply Hget'| |done]. intros _ s5 ([Hu5 HC5]%moved_used & Hs5). cbn [length] in *.
    eapply wp_mono; [apply (parseredirs_spec s5 T1 a a []); [done|lia|constructor]| |by intros ->].
    intros a' s6 (rs & T' & -> & [Hs6 Hl6 Hu6] & Hsub6 & Hch & _). exists (wrap t rs), T'. rewrite HC5 in Hsub6. rewrite HC2 in Hsub3.
    split_and!; [done|split; [done|cbn; lia|cbn; lia]|by etrans|]. eapply chain_rep; [exact Hch|]. by eapply rep_mono; [|exact Hsub6|exact Hr3].
Qed.

(** ** Cutting the line into strings *)

(** The words are still in the line. *)
Definition intact (b : list Z) : Prop :=
  length b = length line_buf /\ forall i c, text !! i = Some c -> is_word c = true -> b !! i = Some c.

Definition ended (b : list Z) (q e : Z) (w : list Z) : Prop := word_at q e w /\ b !! Z.to_nat e = Some 0.

(** What is cut stays cut. *)
Definition zmono (b b' : list Z) : Prop := forall i, b !! i = Some 0 -> b' !! i = Some 0.

Lemma ended_mono b b' q e w : zmono b b' -> ended b q e w -> ended b' q e w.
Proof. intros Hz [Hw He]. split; [done|]. by apply Hz. Qed.

Lemma word_at_end q e w : word_at q e w -> q <= e <= es /\ forall c, text !! Z.to_nat e = Some c -> is_word c = false.
Proof.
  intros [Hq -> [Hne _] (r & Hd & Hr)]. assert (Hl := f_equal length Hd). rewrite length_drop, length_app in Hl.
  assert (length w <> 0%nat) by (by destruct w). replace (Z.to_nat (q + _)) with (Z.to_nat q + length w)%nat by lia.
  split; [lia|]. intros c Hc. apply Hr. revert Hc. rewrite <- lookup_drop, Hd, lookup_app_r, Nat.sub_diag by lia. by destruct r.
Qed.

Lemma cut_spec q e w s :
  word_at q e w -> intact (buf s) ->
  wp (cut (E := E) e) s (fun _ s' => cmds s' = cmds s /\ intact (buf s') /\ zmono (buf s) (buf s') /\ ended (buf s') q e w) False.
Proof.
  intros Hw [Hl Hb]. destruct (word_at_end _ _ _ Hw) as [He Hne]. destruct Hw as [Hq Hew Hok Ht] eqn:Hwe.
  assert (Hr : 0 <= e < Z.of_nat (length (buf s))) by (rewrite Hl, length_app; cbn; lia).
  unfold cut. apply wp_get. eapply wp_lift; [by apply aset_in|]. unfold wp, smod. cbn. split_and!; [done| | |].
  - split; [by rewrite length_insert|]. intros i c Hi Hc. rewrite list_lookup_insert_ne; [by apply Hb|]. intros <-. by rewrite (Hne c Hi) in Hc.
  - intros i Hi. destruct (decide (Z.to_nat e = i)) as [<-|]; [|by rewrite list_lookup_insert_ne]. rewrite list_lookup_insert_eq; [done|lia].
  - split; [done|]. cbn. rewrite list_lookup_insert_eq; [done|lia].
Qed.

Lemma cut_args_spec qs ws k s :
  Forall2 (fun p w => word_at p.1 p.2 w) qs ws -> intact (buf s) ->
  wp (cut_args (E := E) ((Some ∘ fst <$> qs) ++ None :: replicate k None) ((Some ∘ snd <$> qs) ++ None :: replicate k None)) s
    (fun _ s' => cmds s' = cmds s /\ intact (buf s') /\ zmono (buf s) (buf s') /\ Forall2 (fun p w => ended (buf s') p.1 p.2 w) qs ws) False.
Proof.
  intros Hf. revert s. induction Hf as [|[q e] w qs ws Hw Hf IH]; intros s Hb; cbn; [split_and!; [done|done|by intros ?|constructor]|].
  eapply wp_seq; [by apply (cut_spec q e w s)| |done]. intros _ s1 (HC1 & Hb1 & Hz1 & He1).
  eapply wp_mono; [by apply (IH s1)| |done]. intros _ s2 (HC2 & Hb2 & Hz2 & He2). split_and!; [by rewrite HC2|done|unfold zmono in *; auto|].
  constructor; [by eapply ended_mono|done].
Qed.

Fixpoint depth (t : tree) : nat :=
  match t with
  | Texec _ => 1
  | Tredir t _ _ _ | Tback t => S (depth t)
  | Tpipe l r | Tlist l r => S (depth l + depth r)
  end.

Lemma nulterminate_spec fuel a t (s : sh E) :
  rep word_at (cmds s) a t -> (depth t <= fuel)%nat -> cmds s !! 0 = None -> intact (buf s) ->
  wp (nulterminate a fuel) s (fun _ s' => cmds s' = cmds s /\ intact (buf s') /\ zmono (buf s) (buf s') /\ rep (ended (buf s')) (cmds s) a t) False.
Proof.
  revert a t s. induction fuel as [|fuel IH]; intros a t s Hr Hd Hnull Hb; [destruct t; cbn in Hd; lia|]. cbn [nulterminate].
  assert (Ha : a <> 0) by (intros ->; by inversion Hr; congruence). destruct (Z.eqb_spec a 0); [done|]. apply wp_get.
  assert (Htwo : forall l r tl tr, rep word_at (cmds s) l tl -> rep word_at (cmds s) r tr -> (S (depth tl + depth tr) <= S fuel)%nat ->
    wp (nulterminate l fuel ;; nulterminate r fuel) s (fun _ s' => cmds s' = cmds s /\ intact (buf s') /\ zmono (buf s) (buf s') /\
      rep (ended (buf s')) (cmds s) l tl /\ rep (ended (buf s')) (cmds s) r tr) False).
  { intros l r tl tr Hl Hr' Hd'. eapply wp_seq; [apply (IH l tl s Hl); [lia|done|done]| |done]. intros _ s1 (HC1 & Hb1 & Hz1 & Hl1).
    eapply wp_mono; [apply (IH r tr s1); [by rewrite HC1|lia|by rewrite HC1|done]| |done]. intros _ s2 (HC2 & Hb2 & Hz2 & Hr2). rewrite HC1 in *.
    split_and!; try done; [unfold zmono in *; auto|]. eapply rep_mono; [|reflexivity|exact Hl1]. intros ? ? ?. by apply ended_mono. }
  inversion Hr as [a' qs ws HC Hf Hl|a' c q e f m fd t' HC Hw Hc|a' l r tl tr HC Hl Hr'|a' l r tl tr HC Hl Hr'|a' c t' HC Hc]; subst; rewrite HC; cbn in Hd.
  - unfold exec_of. pose proof (Forall2_length _ _ _ Hf). replace (10 - length qs)%nat with (S (9 - length qs)) by lia. cbn [replicate].
    eapply wp_mono; [by apply (cut_args_spec qs ws)| |done]. intros _ s' (HC' & Hb' & Hz & Hf'). split_and!; try done. by econstructor.
  - eapply wp_seq; [apply (IH c t' s Hc); [lia|done|done]| |done]. intros _ s1 (HC1 & Hb1 & Hz1 & Hc1).
    eapply wp_mono; [by apply (cut_spec q e f s1)| |done]. intros _ s2 (HC2 & Hb2 & Hz2 & He). rewrite HC1 in HC2.
    split_and!; try done; [unfold zmono in *; auto|]. econstructor; [done|done|]. eapply rep_mono; [|reflexivity|exact Hc1]. intros ? ? ?. by apply ended_mono.
  - eapply wp_mono; [by apply (Htwo l r tl tr)| |done]. intros _ s' (? & ? & ? & ? & ?). split_and!; try done. by econstructor.
  - eapply wp_mono; [by apply (Htwo l r tl tr)| |done]. intros _ s' (? & ? & ? & ? & ?). split_and!; try done. by eapply rep_list.
  - eapply wp_mono; [apply (IH c t' s Hc); [lia|done|done]| |done]. intros _ s' (? & ? & ? & ?). split_and!; try done. by econstructor.
Qed.

Lemma cstr_prefix l w : (forall i c, w !! i = Some c -> l !! i = Some c /\ c <> 0) -> l !! length w = Some 0 -> cstr l = w.
Proof.
  revert l. induction w as [|c w IH]; intros l Hw Hl; [destruct l as [|x l]; [done|]; by injection Hl as ->|].
  destruct (Hw 0%nat c eq_refl) as [Hc Hnz]. destruct l as [|x l]; [done|]. injection Hc as ->. cbn. destruct (Z.eqb_spec c 0); [done|].
  f_equal. apply IH; [|done]. intros i d Hi. exact (Hw (S i) d Hi).
Qed.

(** Once cut, a word is the string at its beginning. *)
Lemma ended_string b q e w : intact b -> ended b q e w -> str_at b q = w.
Proof.
  intros [_ Hb] [[Hq -> [Hne Hok] (r & Hd & _)] He]. apply cstr_prefix.
  - intros i c Hi. rewrite lookup_drop. pose proof (proj1 (Forall_lookup _ _) Hok i c Hi) as [Hwc Hnz]. split; [|done]. apply Hb; [|done].
    rewrite <- lookup_drop, Hd. by apply lookup_app_l_Some.
  - rewrite lookup_drop. by replace (Z.to_nat q + length w)%nat with (Z.to_nat (q + Z.of_nat (length w))) by lia.
Qed.
End Parse.

Lemma wrap_depth t rs : depth (wrap t rs) = (depth t + length rs)%nat.
Proof. revert t. induction rs as [|[[f m] fd] rs IH]; intros t; cbn; [lia|]. fold (wrap (Tredir t f m fd) rs). rewrite IH. cbn. lia. Qed.

Lemma items_length ts ws rs : items ts ws rs -> (length rs <= length ts)%nat.
Proof. induction 1; cbn; lia. Qed.

Lemma backs_depth n t : depth (Nat.iter n Tback t) = (n + depth t)%nat.
Proof. induction n as [|n IH]; [done|]. rewrite Nat.iter_succ. cbn [depth]. rewrite IH. lia. Qed.

Lemma sentence_depth :
  (forall ts t, line ts t -> (depth t <= 2 * length ts + 1)%nat) /\ (forall ts t, pipe ts t -> (depth t <= 2 * length ts + 1)%nat) /\
  (forall ts t, exec ts t -> (depth t <= 2 * length ts + 1)%nat).
Proof.
  apply grammar_ind; intros; cbn [depth]; rewrite ?backs_depth, ?wrap_depth, ?length_app, ?length_replicate; cbn [length depth];
    rewrite ?length_app, ?length_replicate; cbn [length]; repeat match goal with H : items _ _ _ |- _ => apply items_length in H end; lia.
Qed.

Lemma strlen_text text behind : Forall (fun c => c <> 0) text -> strlen (text ++ 0 :: behind) = Some (Z.of_nat (length text)).
Proof.
  induction 1 as [|c text Hc _ IH]; [done|]. cbn [app strlen length]. destruct (Z.eqb_spec c 0); [done|]. rewrite IH. cbn. f_equal. lia.
Qed.

Lemma print_nonzero t : ok_tree t -> Forall (fun c => c <> 0) (print t).
Proof.
  intros Hok. unfold print. pose proof (print_ok 0 t Hok) as Hk. revert Hk. generalize (print_at 0 t). clear.
  induction 1 as [|[w|c|] ts Hk _ IH]; [constructor|..]; cbn [spell mbind list_bind]; fold (spell ts); apply Forall_app; (split; [|done]); cbn in *.
  - destruct Hk as [_ Hk]. apply Forall_app. split; [eapply Forall_impl; [exact Hk|by intros ? []]|by repeat constructor].
  - repeat constructor; [|done]. by intros ->.
  - by repeat constructor.
Qed.

Section ParseCmd.
Context {E : Type} `{MallocOk E}.

(** The command at [a], with its strings in the line. *)
Definition command (s : sh E) : Z -> tree -> Prop := rep (fun q _ w => str_at (buf s) q = w) (cmds s).

Lemma parsecmd_run fuel text behind (s : sh E) :
  Forall (fun c => c <> 0) text -> buf s = text ++ 0 :: behind -> cmds s = ∅ ->
  (4 * length text + 3 <= fuel)%nat -> (size (given (mem s)) + 2 * length text + 1 <= cap)%nat ->
  wp (parsecmd fuel) s (fun a s' => exists t, tline fuel (tokens text) = Some (t, []) /\ command s' a t /\ cmds s' !! 0 = None)
    (forall t, tline fuel (tokens text) <> Some (t, [])).
Proof.
  intros Htext Hb HC Hf Hcap. pose proof (tokens_length text) as Hlen. unfold parsecmd. apply wp_get. rewrite Hb.
  eapply wp_lift; [by apply strlen_text|]. apply wp_mod.
  assert (Hs : st text behind (s <| ps := 0 |>) (tokens text)) by (split; cbn; rewrite ?HC; [done|lia|done|set_solver|apply lookup_empty]).
  destruct (parser_spec text behind Htext fuel) as [Hline _]. eapply wp_seq; [apply (Hline _ _ Hs); [lia|unfold used; cbn; lia]| |by intros ->].
  intros a s1 (t & T' & Ht & [Hs1 _ _] & _ & Hr). destruct (decide (T' = [])) as [->|Hne].
  - eapply wp_seq; [by apply (peek_end text behind s1)| |done]. intros b s2 ([j ->] & Hps). apply wp_get.
    rewrite Hps, Z.eqb_refl. cbn [negb]. assert (Hd : (depth t <= fuel)%nat).
    { assert (Hsent := proj2 (recognizer_spec fuel (tokens text) ltac:(lia) t) Ht). apply sentence_depth in Hsent. lia. }
    eapply wp_seq; [apply (nulterminate_spec text behind fuel a t); [exact Hr|done|exact (st_null _ _ _ _ Hs1)|]| |done].
    { cbn. rewrite (st_buf _ _ _ _ Hs1). split; [done|]. intros i c Hi _. by apply lookup_app_l_Some. }
    intros _ s3 (HC3 & Hb3 & _ & Hr3). apply wp_ret. exists t. unfold command. rewrite HC3.
    split_and!; [done| |exact (st_null _ _ _ _ Hs1)]. eapply rep_mono; [|reflexivity|exact Hr3]. intros q e w. by apply (ended_string text behind).
  - eapply wp_seq; [by apply (peek_spec text behind Htext [] s1 T')| |done]. intros b s2 (_ & Hs2 & _). apply wp_get.
    assert (Hps : ps s2 <> Z.of_nat (length text)).
    { intros Hps. apply Hne. rewrite <- (st_tok _ _ _ _ Hs2), Hps, Nat2Z.id, drop_all. done. }
    destruct (Z.eqb_spec (ps s2) (Z.of_nat (length text))); [done|]. cbn [negb]. unfold printf2. apply wp_bind.
    eapply wp_lift; [reflexivity|]. apply wp_panic. rewrite Ht. intros t'. congruence.
Qed.

(** C28: The parser of the shell accepts exactly the sentences of its grammar: for a
    line that is one, parsecmd() builds the command the grammar gives it, with each
    argument and file name a nul-terminated string in the line; any other line is
    refused with a message.  It always ends, as long as malloc() has room for two
    blocks per character. *)
Theorem parsecmd_spec fuel text behind (s : sh E) :
  Forall (fun c => c <> 0) text -> buf s = text ++ 0 :: behind -> cmds s = ∅ ->
  (4 * length text + 3 <= fuel)%nat -> (size (given (mem s)) + 2 * length text + 1 <= cap)%nat ->
  match parsecmd fuel s with
  | Ret a s' => exists t, line (tokens text) t /\ command s' a t
  | Exit _ => forall t, ~ line (tokens text) t
  | Crash | Spin => False
  end.
Proof.
  intros Htext Hb HC Hf Hcap. pose proof (parsecmd_run fuel text behind s Htext Hb HC Hf Hcap) as Hrun.
  pose proof (recognizer_spec fuel (tokens text) ltac:(pose proof (tokens_length text); lia)) as Hrec.
  unfold wp in Hrun. destruct (parsecmd fuel s) as [a s'|s'| |]; [|by intros t Ht%Hrec; apply (Hrun t)|done..].
  destruct Hrun as (t & Ht & Hc & _). exists t. split; [by apply Hrec|done].
Qed.

(** C29: What is printed for a command, parsecmd() reads back as that command. *)
Theorem print_parse fuel t behind (s : sh E) :
  ok_tree t -> buf s = print t ++ 0 :: behind -> cmds s = ∅ ->
  (4 * length (print t) + 3 <= fuel)%nat -> (size (given (mem s)) + 2 * length (print t) + 1 <= cap)%nat ->
  exists a s', parsecmd fuel s = Ret a s' /\ command s' a t.
Proof.
  intros Hok Hb HC Hf Hcap. assert (Htext := print_nonzero t Hok). pose proof (parsecmd_run fuel (print t) behind s Htext Hb HC Hf Hcap) as Hrun.
  assert (Ht := print_sentence t Hok). apply (recognizer_spec fuel) in Ht; [|pose proof (tokens_length (print t)); lia].
  unfold wp in Hrun. destruct (parsecmd fuel s) as [a s'|s'| |]; [|by destruct (Hrun t)|done..].
  destruct Hrun as (t' & Ht' & Hc & _). exists a, s'. split; [done|]. congruence.
Qed.
End ParseCmd.

(** ** Witnesses *)

(** [ok_tree] of a concrete command. *)
Ltac solve_ok_tree :=
  vm_compute; repeat match goal with
  | |- _ /\ _ => split
  | |- Forall _ _ => constructor
  | |- _ = _ => reflexivity
  | |- _ \/ _ => first [left; split; reflexivity | right; split; reflexivity]
  end; try lia; done.

(** A malloc() that hands out blocks of 128 bytes and never takes one back; its
    state is the number of blocks given out. *)
#[export] Instance demo_malloc : Malloc nat := fun n e => (128 * (Z.of_nat e + 1), S e).

#[export] Instance demo_malloc_ok : MallocOk nat.
Proof.
  refine {| given e := list_to_set ((fun i => 128 * (Z.of_nat i + 1)) <$> seq 0 e); cap := 4096 |}. intros n e _ _. cbn -[seq].
  split_and!; [lia| |].
  - rewrite elem_of_list_to_set, list_elem_of_fmap. intros (i & Hi & Hin%elem_of_seq). lia.
  - rewrite seq_S, fmap_app, list_to_set_app_L. cbn. set_solver.
Defined.

Definition demo_tree : tree :=
  Tlist (Tback (Tpipe (Tredir (Texec [str "cat"; str "-n"]) (str "in") 0 0) (Texec [str "wc"])))
    (Tredir (Tlist (Texec [str "ls"]) (Texec [])) (str "out") 513 1).

Definition demo_sh (l : list Z) : sh nat := mksh (l ++ replicate 20 0) 0 ∅ [] 0%nat.

Lemma parsecmd_spec_witness : exists s', parsecmd 100 (demo_sh (str "a | (b")) = Exit s' /\ forall t, ~ line (tokens (str "a | (b")) t.
Proof.
  pose proof (parsecmd_spec 100 (str "a | (b") (replicate 19 0) (demo_sh (str "a | (b"))) as Hp.
  eexists. split; [vm_compute; reflexivity|]. vm_compute (parsecmd 100 _) in Hp.
  apply Hp; [by repeat constructor|reflexivity|reflexivity|vm_compute; lia|vm_compute; lia].
Defined.

Lemma print_parse_witness :
  print demo_tree = str "cat -n < in | wc & ; ( ls ; ) > out " /\
  exists a s', parsecmd 300 (demo_sh (print demo_tree)) = Ret a s' /\ command s' a demo_tree.
Proof.
  split; [reflexivity|]. apply (print_parse 300 demo_tree (replicate 19 0) (demo_sh (print demo_tree))).
  - solve_ok_tree.
  - reflexivity.
  - reflexivity.
  - vm_compute; lia.
  - vm_compute; lia.
Defined.
