(* ===== verification/ShRun.v ===== *)
(** * The shell connects its commands (src/sh.c: runcmd, main)

    [placed] says which program of a command gets which input and output; the
    theorems say that runcmd() starts exactly these programs, with descriptors 0, 1
    and 2 as they should be and every other one closed, and that a process that
    waits holds no end of a pipe that another one needs closed.  The last theorem
    goes from the bytes typed to the programs started. *)

From stdpp Require Import prelude gmap strings list.
From Stdlib Require Import ZArith Lia.
From S2P Require Import Prelude Strings Sysfile Sh ShGrammar ShParse.

(** Descriptors 0, 1 and 2, and no other. *)
Definition std (i o e : obj) : fdtable := [Some i; Some o; Some e] ++ replicate 13 None.

(** The programs of the command [t], run by the process [p] with input [i] and output
    [o], each with its input and output. *)
Fixpoint plan (t : tree) (i o : obj) (p : list bool) : list (list (list Z) * obj * obj) :=
  match t with
  | Texec [] => []
  | Texec ws => [(ws, i, o)]
  | Tredir t f m fd => if fd =? 0 then plan t (Ofile f m) o p else plan t i (Ofile f m) p
  | Tpipe l r => plan l i (Opipe p true) (p ++ [false]) ++ plan r (Opipe p false) o (p ++ [true; false])
  | Tlist l r => plan l i o (p ++ [false]) ++ plan r i o (p ++ [true])
  | Tback t => plan t i o (p ++ [false])
  end.

(** The programs that the process and those it forks run, over all outcomes of the
    system calls: path, arguments and descriptors. *)
Fixpoint started (a : act) : list (list Z * list (list Z) * fdtable) :=
  match a with
  | Aexit => []
  | Awrite _ k | Await _ k => started k
  | Aexec path ws fds k => (path, ws, fds) :: started k
  | Afork c k f => started c ++ started k ++ started f
  | Aopen _ _ k f | Apipe k f | Achdir _ k f => started k ++ started f
  end.

(** The descriptors of the processes that wait. *)
Fixpoint waiting (a : act) : list fdtable :=
  match a with
  | Aexit => []
  | Awrite _ k | Aexec _ _ _ k => waiting k
  | Afork c k f => waiting c ++ waiting k ++ waiting f
  | Await fds k => fds :: waiting k
  | Aopen _ _ k f | Apipe k f | Achdir _ k f => waiting k ++ waiting f
  end.

(** What the system is asked to run for a part of a plan. *)
Definition launch (e : obj) (x : list (list Z) * obj * obj) : list Z * list (list Z) * fdtable :=
  let '(ws, i, o) := x in (default [] (head ws), ws, std i o e).

(** Redirections are of input or output. *)
Fixpoint fds_ok (t : tree) : Prop :=
  match t with
  | Texec _ => True
  | Tredir t _ _ fd => (fd = 0 \/ fd = 1) /\ fds_ok t
  | Tpipe l r | Tlist l r => fds_ok l /\ fds_ok r
  | Tback t => fds_ok t
  end.

(** A process that has given up starts nothing. *)
Definition quiet (o : option act) : Prop := exists k, o = Some k /\ started k = [] /\ waiting k = [].

Lemma die_quiet a : quiet (die (str "open %s failed" ++ [10]) a) /\ quiet (die (str "exec %s failed" ++ [10]) a).
Proof. split; eexists; (split; [vm_compute; reflexivity|done]). Qed.

Lemma panic_quiet : quiet (panic_act "fork") /\ quiet (panic_act "pipe").
Proof. split; eexists; (split; [vm_compute; reflexivity|done]). Qed.

Section Run.
Context {E : Type} (s : sh E) (e : obj).

Lemma arg_strings_spec (qs : list (Z * Z)) ws k :
  Forall2 (fun p w => str_at (buf s) p.1 = w) qs ws -> arg_strings (buf s) ((Some ∘ fst <$> qs) ++ None :: replicate k None) = Some ws.
Proof. induction 1 as [|[q x] w qs ws Hw _ IH]; [done|]. cbn in *. by rewrite IH, Hw. Qed.

Definition tidy (fds : fdtable) : Prop := exists i o, fds = std i o e.

(** The descriptors of the three processes of a pipeline. *)
Lemma pipe_fds i o p : exists fds,
  ('(p0, fds1) ← fd_alloc (std i o e) (Opipe p false); '(p1, fds2) ← fd_alloc fds1 (Opipe p true); Some (p0, p1, fds2)) = Some (3, 4, fds) /\
  fd_close (fd_close (fd_dup (fd_close fds 1) 4) 3) 4 = std i (Opipe p true) e /\
  fd_close (fd_close (fd_dup (fd_close fds 0) 3) 3) 4 = std (Opipe p false) o e /\
  fd_close (fd_close fds 3) 4 = std i o e.
Proof. eexists. split_and!; reflexivity. Qed.

(** runcmd() does what the plan says. *)
Lemma runcmd_run fuel a t i o p :
  command s a t -> fds_ok t -> cmds s !! 0 = None -> (depth t <= fuel)%nat ->
  exists k, runcmd s a (std i o e) p fuel = Some k /\ started k = launch e <$> plan t i o p /\ Forall tidy (waiting k).
Proof.
  intros Hc Hfd Hnull. revert fuel i o p. induction Hc as [a qs ws HC Hf Hl|a c q x f m fd t HC Hw Hc IH|a l r tl tr HC Hl IHl Hr IHr|a l r tl tr HC Hl IHl Hr IHr|a c t HC Hc IH];
    intros [|fuel] i o p Hd; cbn [depth] in Hd; try lia; (assert (Ha : a <> 0) by (intros ->; congruence)); cbn [runcmd]; (destruct (Z.eqb_spec a 0); [done|]); rewrite HC.
  - unfold exec_of. pose proof (Forall2_length _ _ _ Hf). replace (10 - length qs)%nat with (S (9 - length qs)) by lia. cbn [replicate].
    rewrite (arg_strings_spec qs ws) by done. cbn [mbind option_bind]. destruct ws as [|w ws]; [by eexists|].
    destruct (die_quiet w) as [_ (k & -> & Hs & Hwt)]. eexists. split; [reflexivity|]. cbn. by rewrite Hs, Hwt.
  - destruct Hfd as [Hfd Ht]. rewrite Hw. destruct (die_quiet f) as [(k0 & -> & Hs0 & Hw0) _]. cbn [mbind option_bind].
    assert (Hgo : forall i' o', (exists x, fd_alloc (fd_close (std i o e) fd) (Ofile f m) = Some (x, std i' o' e)) -> plan (Tredir t f m fd) i o p = plan t i' o' p ->
      exists k, match fd_alloc (fd_close (std i o e) fd) (Ofile f m) with
        | Some (_, fds') => k ← runcmd s c fds' p fuel; Some (Aopen f m k k0) | None => Some k0 end = Some k /\
        started k = launch e <$> plan (Tredir t f m fd) i o p /\ Forall tidy (waiting k)).
    { intros i' o' [fd' ->] ->. destruct (IH Ht fuel i' o' p ltac:(lia)) as (k & -> & Hs & Hwt). eexists. split; [reflexivity|].
      cbn. by rewrite Hs0, Hw0, !app_nil_r. }
    destruct Hfd as [-> | ->]; [apply (Hgo (Ofile f m) o)|apply (Hgo i (Ofile f m))]; by try eexists.
  - destruct Hfd as [Hfl Hfr]. destruct (IHl Hfl fuel i (Opipe p true) (p ++ [false]) ltac:(lia)) as (kl & Hkl & Hsl & Hwl).
    destruct (IHr Hfr fuel (Opipe p false) o (p ++ [true; false]) ltac:(lia)) as (kr & Hkr & Hsr & Hwr).
    destruct panic_quiet as [(kf & -> & Hsf & Hwf) (kp & -> & Hsp & Hwp)]. cbn [mbind option_bind].
    destruct (pipe_fds i o p) as (fds & Hp & H1 & H2 & H3). cbn [mbind option_bind] in Hp. rewrite Hp, H1, H2, H3, Hkl, Hkr.
    eexists. split; [reflexivity|]. cbn -[std]. rewrite Hsf, Hwf, Hsp, Hwp, !app_nil_r, fmap_app, Hsl, Hsr. split; [done|].
    apply Forall_app. split; [done|]. apply Forall_app. split; [done|]. repeat constructor; by exists i, o.
  - destruct Hfd as [Hfl Hfr]. destruct (IHl Hfl fuel i o (p ++ [false]) ltac:(lia)) as (kl & Hkl & Hsl & Hwl).
    destruct (IHr Hfr fuel i o (p ++ [true]) ltac:(lia)) as (kr & Hkr & Hsr & Hwr). destruct panic_quiet as [(kf & -> & Hsf & Hwf) _].
    rewrite Hkl, Hkr. eexists. split; [reflexivity|]. cbn -[std]. rewrite Hsf, Hwf, !app_nil_r, fmap_app, Hsl, Hsr. split; [done|].
    apply Forall_app. split; [done|]. constructor; [by exists i, o|done].
  - destruct (IH Hfd fuel i o (p ++ [false]) ltac:(lia)) as (k & Hk & Hs & Hwt). destruct panic_quiet as [(kf & -> & Hsf & Hwf) _].
    rewrite Hk. eexists. split; [reflexivity|]. cbn -[std]. by rewrite Hsf, Hwf, !app_nil_r.
Qed.
End Run.

(** ** From the keyboard to the programs *)

(** gets() takes a line that fits. *)
Lemma gets_loop_line text rest (b0 : list Z) n k :
  Forall (fun c => c <> 10 /\ c <> 13) text -> (length text < n)%nat -> (length text < k)%nat ->
  gets_loop (b0 ++ replicate k 0) (Z.of_nat (length b0)) (text ++ 10 :: rest) n =
    Some (b0 ++ text ++ 10 :: replicate (k - S (length text)) 0, Z.of_nat (length b0 + length text + 1)).
Proof.
  intros Ht. revert b0 n k. induction Ht as [|c text Hc Ht IH]; intros b0 [|n] [|k] Hn Hk; cbn in Hn, Hk; try lia;
    cbn [app gets_loop replicate]; rewrite aset_in by (rewrite length_app; cbn; lia); cbn [mbind option_bind];
    rewrite Nat2Z.id, insert_app_r_alt, Nat.sub_diag by lia; cbn [insert list_insert length Nat.sub].
  - rewrite Nat.sub_0_r. do 2 f_equal. lia.
  - destruct (Z.eqb_spec c 10); [lia|]. destruct (Z.eqb_spec c 13); [lia|]. cbn [orb].
    specialize (IH (b0 ++ [c]) n k ltac:(lia) ltac:(lia)). rewrite <- !app_assoc in IH. cbn [app] in IH.
    rewrite length_app in IH. cbn [length] in IH. replace (Z.of_nat (length b0) + 1) with (Z.of_nat (length b0 + 1)) by lia. rewrite IH.
    do 2 f_equal. lia.
Qed.

Lemma getcmd_line text rest :
  Forall (fun c => c <> 10 /\ c <> 13 /\ c <> 0) text -> (length text < 99)%nat ->
  getcmd 100 (text ++ 10 :: rest) = Some (0, text ++ 10 :: 0 :: replicate (98 - length text) 0, rest).
Proof.
  intros Ht Hl. unfold getcmd. change (Z.to_nat 100) with 100%nat. change (Z.to_nat (100 - 1)) with 99%nat.
  pose proof (gets_loop_line text rest [] 99 100) as Hg. cbn [app length] in Hg. change (Z.of_nat 0) with 0 in Hg. rewrite Hg; [|eapply Forall_impl; [exact Ht|cbn; tauto]|lia|lia].
  cbn [mbind option_bind]. rewrite aset_in by (rewrite length_app; cbn [length]; rewrite length_replicate; lia).
  rewrite Nat2Z.id. replace (100 - S (length text))%nat with (S (98 - length text)) by lia. cbn [replicate].
  replace (<[(0 + length text + 1)%nat := 0]> (text ++ 10 :: 0 :: replicate (98 - length text) 0)) with (text ++ 10 :: 0 :: replicate (98 - length text) 0).
  2: { symmetry. apply list_insert_id. rewrite lookup_app_r by lia. by replace (0 + length text + 1 - length text)%nat with 1%nat by lia. }
  cbn [mbind option_bind]. assert (Hd : drop (0 + length text + 1) (text ++ 10 :: rest) = rest).
  { rewrite drop_app_ge by lia. by replace (0 + length text + 1 - length text)%nat with 1%nat by lia. }
  rewrite Hd. change (aget ?b 0) with (b !! 0%nat). destruct text as [|c text]; [done|]. cbn [app lookup list_lookup mbind option_bind]. apply Forall_cons in Ht as [(_ & _ & Hc) _].
  by destruct (Z.eqb_spec c 0).
Qed.

Lemma lex_cons w c cs :
  lex w (c :: cs) =
    if is_ws c then flush w ++ lex [] cs
    else if c =? 62 then
      flush w ++ match cs with
                 | d :: cs' => if d =? 62 then App :: lex [] cs' else Sym c :: lex [] cs
                 | [] => [Sym c]
                 end
    else if is_sym c then flush w ++ Sym c :: lex [] cs
    else lex (w ++ [c]) cs.
Proof. reflexivity. Qed.

Lemma tokens_newline cs : tokens (cs ++ [10]) = tokens cs.
Proof.
  unfold tokens. enough (H : forall n w cs, (length cs <= n)%nat -> lex w (cs ++ [10]) = lex w cs) by (by apply (H (length cs))). clear.
  intros n. induction n as [|n IH]; intros w [|c cs] Hn; cbn in Hn; try lia; [by cbn; rewrite app_nil_r..|].
  cbn [app]. rewrite (lex_cons w c (cs ++ [10])), (lex_cons w c cs), (IH [] cs), (IH (w ++ [c]) cs) by lia.
  destruct cs as [|d cs]; [done|]. cbn [app]. cbn in Hn. by rewrite (IH [] cs) by lia.
Qed.

Lemma print_chars t : ok_tree t -> Forall (fun c => c <> 10 /\ c <> 13 /\ c <> 0) (print t).
Proof.
  intros Hok. unfold print. pose proof (print_ok 0 t Hok) as Hk. revert Hk. generalize (print_at 0 t). clear.
  assert (Hw : forall c, is_word c = true -> c <> 10 /\ c <> 13) by (intros c Hc; split; by intros ->).
  assert (Hy : forall c, is_sym c = true -> c <> 10 /\ c <> 13 /\ c <> 0) by (intros c Hc; split_and!; by intros ->).
  induction 1 as [|[w|c|] ts Hk _ IH]; [constructor|..]; cbn [spell mbind list_bind]; fold (spell ts); apply Forall_app; (split; [|done]); cbn in *.
  - destruct Hk as [_ Hk]. apply Forall_app. split; [|by repeat constructor]. eapply Forall_impl; [exact Hk|]. intros c [Hc Hz]. apply Hw in Hc. tauto.
  - repeat constructor; try done; by apply Hy.
  - by repeat constructor.
Qed.

Lemma ok_fds t : ok_tree t -> fds_ok t.
Proof. induction t; cbn; [done| |tauto|tauto|done]. intros (? & _ & [[_ ->]|[_ ->]]); auto. Qed.

(** With three descriptors open, the next one is opened and closed again. *)
Lemma open_std i o e k :
  open_console (std i o e) k 3 = (failed ← k (std i o e); ok ← k (std i o e); Some (Aopen (str "console") O_RDWR ok failed)).
Proof. reflexivity. Qed.

Lemma cd_prefix text r : take 3 (text ++ 10 :: r) = str "cd " -> take 3 text = str "cd ".
Proof. destruct text as [|? [|? [|? text]]]; cbn; [discriminate..|done]. Qed.

Section Session.
Context {E : Type} `{MallocOk E} (e : E) (i o er : obj) (fuel : nat).

(** A command that can be typed on one line and is not the shell's own [cd]. *)
Definition typable (t : tree) : Prop :=
  ok_tree t /\ (length (print t) < 99)%nat /\ take 3 (print t) <> str "cd ".

Definition typed (ts : list tree) : list Z := ts ≫= (fun t => print t ++ [10]).

(** The plans of the commands, one after the other. *)
Fixpoint session (ts : list tree) (p : list bool) : list (list (list Z) * obj * obj) :=
  match ts with
  | [] => []
  | t :: ts' => plan t i o (p ++ [false]) ++ session ts' (p ++ [true])
  end.

Lemma run_line_spec t p k :
  ok_tree t -> (length (print t) < 99)%nat -> (500 <= fuel)%nat -> (size (given e) + 200 <= cap)%nat ->
  exists a, run_line (print t ++ 10 :: 0 :: replicate k 0) e (std i o er) p fuel = Some a /\ started a = launch er <$> plan t i o p /\
    Forall (tidy er) (waiting a).
Proof.
  intros Hok Hl Hf Hcap. pose proof (print_sentence t Hok) as Hsent. rewrite <- tokens_newline in Hsent.
  pose proof (tokens_length (print t ++ [10])) as Htl. pose proof (proj1 sentence_depth _ _ Hsent) as Hd. rewrite length_app in Htl. cbn [length] in Htl.
  pose proof (parsecmd_run fuel (print t ++ [10]) (replicate k 0) (mksh (print t ++ 10 :: 0 :: replicate k 0) 0 ∅ [] e)) as Hrun.
  rewrite length_app in Hrun. cbn [length buf cmds mem] in Hrun. apply (recognizer_spec fuel) in Hsent; [|lia]. unfold run_line. unfold wp in Hrun.
  assert (Hnz : Forall (fun c => c <> 0) (print t ++ [10])).
  { apply Forall_app. split; [|by constructor]. eapply Forall_impl; [by apply print_chars|]. by intros c (_ & _ & ?). }
  specialize (Hrun Hnz ltac:(by rewrite <- app_assoc) eq_refl ltac:(lia) ltac:(lia)).
  destruct (parsecmd fuel _) as [a s|s| |]; [|by destruct (Hrun t)|done..]. destruct Hrun as (t' & Ht' & Hc & Hnull).
  assert (t' = t) as -> by congruence. apply (runcmd_run s er fuel a t i o p Hc); [by apply ok_fds|done|lia].
Qed.

Lemma main_loop_run ts p n :
  Forall typable ts -> (length ts <= n)%nat -> (500 <= fuel)%nat -> (size (given e) + 200 <= cap)%nat ->
  exists a, main_loop (typed ts) e (std i o er) p fuel n = Some a /\ started a = launch er <$> session ts p /\ Forall (tidy er) (waiting a).
Proof.
  intros Hts Hn Hf Hcap. revert p n Hn. induction Hts as [|t ts (Hok & Hl & Hcd) Hts IH]; intros p n Hn.
  { exists (Awrite (str "$ ") Aexit). by destruct n. }
  destruct n as [|n]; cbn in Hn; [lia|]. cbn [typed mbind list_bind main_loop]. fold (typed ts). rewrite <- app_assoc. cbn [app].
  rewrite getcmd_line by (done || by apply print_chars). cbn -[std print typed panic_act run_line main_loop].
  destruct (run_line_spec t (p ++ [false]) (98 - length (print t)) Hok Hl Hf Hcap) as (c & Hc & Hsc & Hwc).
  destruct (IH (p ++ [true]) n ltac:(lia)) as (k & Hk & Hsk & Hwk). destruct panic_quiet as [(kf & Hkf & Hsf & Hwf) _].
  rewrite bool_decide_eq_false_2.
  2: { intros Heq. apply Hcd. by apply (cd_prefix _ _ Heq). }
  rewrite Hkf. cbn -[std print typed panic_act run_line main_loop]. rewrite Hc, Hk. cbn -[std print typed panic_act run_line main_loop]. eexists. split; [reflexivity|]. cbn -[std print typed session].
  rewrite Hsc, Hsk, Hsf, Hwf, !app_nil_r. cbn [session]. rewrite fmap_app. split; [done|]. apply Forall_app. split; [done|]. constructor; [by exists i, o|done].
Qed.

End Session.

Definition demo_cmds : list tree :=
  [Tpipe (Tredir (Texec [str "cat"; str "-n"]) (str "in") 0 0) (Tpipe (Texec [str "grep"; str "x"]) (Texec [str "wc"]));
   Tlist (Texec [str "ls"]) (Tback (Tredir (Texec [str "date"]) (str "out") 513 1))].

