(* ===== verification/Exec.v ===== *)
(** * Replacing the program of a process (src/exec.c, src/elf.h, and loaduvm() of src/vm.c)

    exec() works on all of the kernel: it reads the file through the file system,
    builds an address space with the page tables and the page allocator, and in the
    end changes the process.  It is written here over the state of [Proc], in which
    [FileEnv] finds the file system and the memory.  [user_stack] is the part that
    lays out the arguments; it only works on memory. *)

From stdpp Require Import prelude gmap strings list.
From Stdlib Require Import ZArith Lia.
From S2P Require Import Prelude Strings Mmu Kalloc Vm Layout Log Store Fs File Proc Syscall Sysfile.

Definition ELF_MAGIC : Z := 0x464C457F.
Definition ELF_PROG_LOAD : Z := 1.

Record elfhdr := mkelfhdr { magic : Z; entry : Z; phoff : Z; phnum : Z }.
Record proghdr := mkproghdr { ph_type : Z; ph_off : Z; ph_vaddr : Z; ph_paddr : Z; ph_filesz : Z; ph_memsz : Z }.

(** The fields of the structs that exec() and bootmain() use; sizeof is 52 and 32. *)
Definition get_elfhdr (bs : list Z) : elfhdr := mkelfhdr (get32 bs 0) (get32 bs 24) (get32 bs 28) (get16 bs 44).
Definition get_proghdr (bs : list Z) : proghdr :=
  mkproghdr (get32 bs 0) (get32 bs 4) (get32 bs 8) (get32 bs 12) (get32 bs 16) (get32 bs 20).

(** ** The user stack *)

Section Stack.
Context (kend : Z).
Abbreviation V := (M kmem).

(** [for(argc = 0; argv[argc]; argc++) {...}]: the final sp and the pointers, or
    [None] for [goto bad].  A string is a list of bytes with its nul. *)
Fixpoint push_args (pgdir sp : Z) (argv : list (list Z)) (argc : nat) : V (option (Z * list Z)) :=
  match argv with
  | [] => mret (Some (sp, []))
  | s :: argv' =>
      if (MAXARG <=? argc)%nat then mret None else
      n ← of_option (strlen s);
      let sp := Z.land (u32 (sp - (n + 1))) (u32 (Z.lnot 3)) in
      r ← copyout pgdir sp (take (Z.to_nat (n + 1)) s);
      if r <? 0 then mret None else
      o ← push_args pgdir sp argv' (S argc);
      mret ((fun x => (x.1, sp :: x.2)) <$> o)
  end.

(** The words of ustack[] as bytes. *)
Definition words_bytes (ws : list Z) : list Z := ws ≫= to_bytes 4.

(** From "Allocate two pages" on: the new sz and sp, or [None] for [goto bad]. *)
Definition user_stack (pgdir sz : Z) (argv : list (list Z)) : V (option (Z * Z)) :=
  let sz := PGROUNDUP sz in
  sz ← allocuvm kend pgdir sz (u32 (sz + 2 * PGSIZE));
  if sz =? 0 then mret None else
  clearpteu pgdir (u32 (sz - 2 * PGSIZE)) ;;
  o ← push_args pgdir sz argv 0;
  match o with
  | None => mret None
  | Some (sp, ptrs) =>
      let argc := Z.of_nat (length argv) in
      let ustack := [0xffffffff; argc; u32 (sp - (argc + 1) * 4)] ++ ptrs ++ [0] in
      let sp := u32 (sp - (3 + argc + 1) * 4) in
      r ← copyout pgdir sp (words_bytes ustack);
      if r <? 0 then mret None else mret (Some (sz, sp))
  end.
End Stack.

(** ** exec() *)

Section Exec.
Context {E B : Type} `{KernelOps E} `{UserOps E} `{BlockStore B} `{FileEnv E B}.
Context (devsw : list (devops B)) (kend kdata : Z) (me : nat).
Abbreviation K := (M (pstate E)).

Definition onvm {A} (m : M kmem A) : K A := onfile me (onkmem m).
Definition xreadi (ip : nat) (off n : Z) : K (Z * list Z) := onfs' me (readi devsw ip off n).

(** loaduvm(): the loop from page [i] on; [bs] go where the page is in memory. *)
Fixpoint load_loop (fuel : nat) (pgdir addr : Z) (ip : nat) (offset i sz : Z) : K Z :=
  match fuel with
  | O => nofuel
  | S fuel' =>
      if i <? sz then
        o ← onvm (walkpgdir pgdir (u32 (addr + i)) false);
        match o with
        | None => panic "loaduvm: address should exist"
        | Some (t, idx) =>
            pte ← onvm (rdw t idx);
            let pa := PTE_ADDR pte in
            let n := if sz - i <? PGSIZE then sz - i else PGSIZE in
            '(r, bs) ← xreadi ip (u32 (offset + i)) n;
            old ← onvm (rdbytes (P2V pa));
            onvm (setpage (P2V pa) (Bytes (bs ++ drop (length bs) old))) ;;
            if negb (r =? n) then mret (-1)
            else load_loop fuel' pgdir addr ip offset (u32 (i + PGSIZE)) sz
        end
      else mret 0
  end.

Definition loaduvm (pgdir addr : Z) (ip : nat) (offset sz : Z) : K Z :=
  if negb (addr mod PGSIZE =? 0) then panic "loaduvm: addr must be page aligned" else
  load_loop (S (Z.to_nat (sz / PGSIZE + 1))) pgdir addr ip offset 0 sz.

(** The loop over the program headers: the final sz, or [None] for [goto bad]. *)
Fixpoint load_segments (pgdir : Z) (ip : nat) (off sz : Z) (n : nat) : K (option Z) :=
  match n with
  | O => mret (Some sz)
  | S n' =>
      '(r, bs) ← xreadi ip (u32 off) 32;
      if negb (r =? 32) then mret None else
      let ph := get_proghdr bs in
      if negb (ph_type ph =? ELF_PROG_LOAD) then load_segments pgdir ip (s32 (off + 32)) sz n' else
      if ph_memsz ph <? ph_filesz ph then mret None else
      if u32 (ph_vaddr ph + ph_memsz ph) <? ph_vaddr ph then mret None else
      sz ← onvm (allocuvm kend pgdir sz (u32 (ph_vaddr ph + ph_memsz ph)));
      if sz =? 0 then mret None else
      if negb (ph_vaddr ph mod PGSIZE =? 0) then mret None else
      r ← loaduvm pgdir (ph_vaddr ph) ip (ph_off ph) (ph_filesz ph);
      if r <? 0 then mret None else load_segments pgdir ip (s32 (off + 32)) sz n'
  end.

(** [bad:] with pgdir (0 when there is none) and ip. *)
Definition bad (pgdir : Z) (ip : option nat) : K Z :=
  (if pgdir =? 0 then mret tt else onvm (freevm kend pgdir)) ;;
  match ip with
  | Some ip => unlockput me ip ;; op_end me
  | None => mret tt
  end ;;
  mret (-1).

(** [for(last=s=path; *s; s++) if( *s == '/') last = s+1;] *)
Fixpoint last_elem (last s : list Z) : option (list Z) :=
  match s with
  | [] => None
  | c :: s' => if c =? 0 then Some last else last_elem (if c =? 47 then s' else last) s'
  end.

(** From "Save program name" on. *)
Definition commit_image (path : list Z) (pgdir sz eip sp : Z) : K Z :=
  p ← getp me;
  last ← of_option (last_elem path path);
  nm ← of_option (safestrcpy (name p) last 16);
  setp me (fun p => p <| name := nm |>) ;;
  let oldpgdir := Proc.pgdir p in
  t ← of_option (tf p);
  setp me (fun p => p <| Proc.pgdir := pgdir |> <| Proc.sz := sz |>
                      <| tf := Some (t <| tf_eip := eip |> <| tf_esp := sp |>) |>) ;;
  onvm (switchuvm (Some (kstack p, pgdir))) ;;
  onvm (freevm kend oldpgdir) ;;
  mret 0.

Definition exec (path : list Z) (argv : list (list Z)) : K Z :=
  op_begin me ;;
  o ← path_inode devsw me path;
  match o with
  | None => op_end me ;; cprintf "exec: fail\n" [] ;; mret (-1)
  | Some ip =>
      lock me ip ;;
      '(r, bs) ← xreadi ip 0 52;
      if negb (r =? 52) then bad 0 (Some ip) else
      let elf := get_elfhdr bs in
      if negb (magic elf =? ELF_MAGIC) then bad 0 (Some ip) else
      pgdir ← onvm (setupkvm kend kdata);
      if pgdir =? 0 then bad 0 (Some ip) else
      o ← load_segments pgdir ip (s32 (phoff elf)) 0 (Z.to_nat (phnum elf));
      match o with
      | None => bad pgdir (Some ip)
      | Some sz =>
          unlockput me ip ;;
          op_end me ;;
          o ← onvm (user_stack kend pgdir sz argv);
          match o with
          | None => bad pgdir None
          | Some (sz, sp) => commit_image path pgdir sz (entry elf) sp
          end
      end
  end.

(** sys_exec() with this exec(). *)
Definition do_sys_exec : K Z := sys_exec me exec.
End Exec.
