(* ===== verification/ExecSpec.v ===== *)
(** * What exec() leaves in memory and in the process (src/exec.c)

    The arguments reach the program: [user_stack] leaves argc, argv and the strings
    on the new stack, under a page the user cannot reach.  And exec() replaces the
    program completely or not at all: when it fails, no process has changed. *)

From stdpp Require Import prelude gmap strings list.
From Stdlib Require Import ZArith Lia.
From S2P Require Import Prelude Strings Mmu Kalloc Layout Bio Log Store Fs File FsWitness Proc Syscall SyscallSpec Sysfile SysfileSpec Vm VmSpec Exec.

Section Stack.
Context (kend kdata : Z) (kend_low : KERNBASE < kend).
Abbreviation vminv := (vminv kend).

(** ** The page below the stack *)

Lemma clear_u x : present (Z.land x (Z.lnot PTE_U)) = present x /\ tbl (Z.land x (Z.lnot PTE_U)) = tbl x /\ Z.land (Z.land x (Z.lnot PTE_U)) PTE_U = 0.
Proof.
  unfold present, tbl, PTE_ADDR. assert (Hu : forall z, u32 z = Z.land z (Z.ones 32)) by (intros; by rewrite Z.land_ones).
  rewrite !Hu, <- !Z.land_assoc. split_and!; [done|done|]. change (Z.land (Z.lnot PTE_U) PTE_U) with 0. apply Z.land_0_r.
Qed.

(** clearpteu() takes the page of [va] from the user and changes nothing else. *)
Lemma clearpteu_run k d fl h c va :
  vminv k d fl h -> present (pte_at k d va) = true ->
  exists k', clearpteu d va c k = Ok tt c k' /\ vminv k' d fl h /\
    (forall va', pte_at k' d va' = if decide (PGROUNDDOWN va' = PGROUNDDOWN va) then Z.land (pte_at k d va) (Z.lnot PTE_U) else pte_at k d va') /\
    (forall va', frame k' d va' = frame k d va') /\ (forall q bs, pages k !! q = Some (Bytes bs) -> pages k' !! q = Some (Bytes bs)).
Proof.
  intros [Hok Hus] Hp. pose proof (pte_present_pde _ _ _ Hp) as Hpd. pose proof Hok as [_ _ [ws Ht]].
  destruct (pte_write kend k d fl h va (Z.land (pte_at k d va) (Z.lnot PTE_U)) c Hok Hpd) as (k' & Hw & Hok' & [Hdk _] & _ & _ & Hpte).
  assert (Hsame : forall va', present (pte_at k' d va') = present (pte_at k d va') /\ frame k' d va' = frame k d va').
  { intros va'. unfold frame. rewrite Hpte. case_decide as He; [|done]. rewrite (pte_at_page k d va' va He). destruct (clear_u (pte_at k d va)) as (-> & -> & _). done. }
  exists k'. split_and!; [|split; [exact Hok'|]|exact Hpte|apply Hsame|exact Hdk].
  - unfold clearpteu. rewrite bindE, (walk_present k d ws) by done. cbn [obind]. rewrite bindE, (pte_read kend k d fl h) by done. exact Hw.
  - split; [intros x Hx Hpx|intros x y Hx Hy Hpx Hpy]; rewrite ?(proj1 (Hsame x)), ?(proj1 (Hsame y)) in *; rewrite ?(proj2 (Hsame x)), ?(proj2 (Hsame y)).
    + destruct (us_page _ _ _ Hus x Hx Hpx) as (Hg & bs & Hb). split; [done|]. exists bs. by apply Hdk.
    + by apply (us_inj _ _ _ Hus).
Qed.

(** ** The strings *)

(** The bytes [bs] are in user memory from [p] on. *)
Definition bytes_at (k : kmem) (d p : Z) (bs : list Z) : Prop := forall j c, bs !! j = Some c -> vbyte k d (p + Z.of_nat j) = Some c.

(** A bound on the room for the strings, each rounded up to words. *)
Fixpoint room (strs : list (list Z)) : Z :=
  match strs with [] => 0 | s :: strs' => Z.of_nat (length s) + 4 + room strs' end.

Lemma room_nonneg strs : 0 <= room strs.
Proof. induction strs as [|s strs IH]; cbn [room]; lia. Qed.

Lemma align4 x : 0 <= x < 2 ^ 32 -> let y := Z.land x (u32 (Z.lnot 3)) in x - 3 <= y <= x /\ 0 <= y.
Proof.
  intros Hx y. assert (Hy : y = x / 4 * 4).
  { unfold y. change (u32 (Z.lnot 3)) with (Z.land (Z.ones 32) (Z.lnot 3)). rewrite Z.land_assoc, Z.land_ones, Z.mod_small by lia.
    change (Z.lnot 3) with (Z.lnot (Z.ones 2)). rewrite <- Z.ldiff_land, Z.ldiff_ones_r, Z.shiftl_mul_pow2, Z.shiftr_div_pow2 by lia. done. }
  pose proof (Z.div_mod x 4). pose proof (Z.mod_pos_bound x 4). lia.
Qed.

Lemma push_args_run argv strs : Forall2 cstring argv strs -> forall k d fl h c lo sp argc,
  vminv k d fl h -> 0 <= lo -> lo + room strs <= sp -> sp <= KERNBASE -> (argc + length strs <= MAXARG)%nat ->
  (forall x, lo <= x < sp -> user_ok k d x) ->
  exists k' sp' ptrs, push_args d sp argv argc c k = Ok (Some (sp', ptrs)) c k' /\ vminv k' d fl h /\
    (forall x, pte_at k' d x = pte_at k d x) /\ (forall x, user_ok k d x -> user_ok k' d x) /\
    sp - room strs <= sp' <= sp /\ Forall2 (fun p s => sp' <= p /\ p + Z.of_nat (length s) < sp /\ bytes_at k' d p (s ++ [0])) ptrs strs /\
    (forall x, 0 <= x < KERNBASE -> user_ok k d x -> ~ (sp' <= x < sp) -> vbyte k' d x = vbyte k d x).
Proof.
  induction 1 as [|a s argv strs Ha Hargv IH]; intros k d fl h c lo sp argc Hv Hlo Hroom Hsp Hargc Hok.
  { exists k, sp, []. cbn in *. split_and!; try done; lia. }
  cbn [room length] in Hroom, Hargc |- *. pose proof (room_nonneg strs). cbn [push_args].
  destruct (Nat.leb_spec MAXARG argc); [lia|]. rewrite (strlen_spec a s Ha). destruct Ha as [Hnz [rest ->]]. rewrite bindE, of_optionE. cbn [obind].
  set (n := Z.of_nat (length s)) in *. unfold KERNBASE in Hsp. rewrite (u32_small (sp - (n + 1))) by lia.
  destruct (align4 (sp - (n + 1)) ltac:(lia)) as [Hy Hy0]. set (p := Z.land _ _) in *.
  assert (Htake : take (Z.to_nat (n + 1)) (s ++ 0 :: rest) = s ++ [0]).
  { replace (Z.to_nat (n + 1)) with (length s + 1)%nat by lia. by rewrite take_app_add. }
  rewrite Htake. assert (Hlen : Z.of_nat (length (s ++ [0])) = n + 1) by (rewrite length_app; cbn; lia).
  destruct (copyout_run kend k d fl h c p (s ++ [0]) Hv) as (k1 & Hr1 & Hv1 & Hp1 & Hu1 & Hb1); rewrite ?Hlen in *; [lia|unfold KERNBASE; lia|intros x Hx; apply Hok; lia|].
  rewrite bindE, Hr1. cbn [obind Z.ltb Z.compare].
  destruct (IH k1 d fl h c lo p (S argc) Hv1) as (k2 & sp' & ptrs & Hr2 & Hv2 & Hp2 & Hu2 & Hsp2 & Hf2 & Hb2); [lia|lia|unfold KERNBASE; lia|lia|intros x Hx; apply Hu1, Hok; lia|].
  exists k2, sp', (p :: ptrs). rewrite bindE, Hr2. cbn [obind]. split_and!; [done|done|intros x; by rewrite Hp2|auto|lia|lia| |].
  - constructor; [split_and!; [lia|lia|]|].
    + intros j x Hj. pose proof (lookup_lt_Some _ _ _ Hj). rewrite Hb2; [|unfold KERNBASE; lia|apply Hu1, Hok; lia|lia].
      rewrite Hb1; [|unfold KERNBASE; lia|apply Hok; lia]. rewrite decide_True by lia. by replace (Z.to_nat (p + Z.of_nat j - p)) with j by lia.
    + eapply Forall2_impl; [exact Hf2|]. intros q s' (Hq & Hq' & Hs'). split_and!; [lia|lia|done].
  - intros x Hx Hux Hn. rewrite Hb2; [|done|by apply Hu1|lia]. rewrite Hb1 by done. by rewrite decide_False by lia.
Qed.

(** ** The words *)

(** The word at an address. *)
Definition uword (k : kmem) (d a : Z) : option Z :=
  b0 ← vbyte k d a; b1 ← vbyte k d (a + 1); b2 ← vbyte k d (a + 2); b3 ← vbyte k d (a + 3); Some (of_bytes [b0; b1; b2; b3]).

Lemma words_bytes_lookup ws i w j : ws !! i = Some w -> (j < 4)%nat -> words_bytes ws !! (4 * i + j)%nat = to_bytes 4 w !! j.
Proof.
  revert i. induction ws as [|v ws IH]; intros i Hi Hj; [done|]. cbn [words_bytes mbind list_bind]. fold (words_bytes ws).
  destruct i as [|i]; [injection Hi as ->; rewrite lookup_app_l by (rewrite length_to_bytes; lia); by replace (4 * 0 + j)%nat with j by lia|].
  rewrite lookup_app_r by (rewrite length_to_bytes; lia). rewrite length_to_bytes. replace (4 * S i + j - 4)%nat with (4 * i + j)%nat by lia. by apply IH.
Qed.

Lemma words_bytes_length ws : length (words_bytes ws) = (4 * length ws)%nat.
Proof. induction ws as [|v ws IH]; [done|]. cbn [words_bytes mbind list_bind]. fold (words_bytes ws). rewrite length_app, length_to_bytes, IH. cbn. lia. Qed.

Lemma uword_written k d a ws i w :
  bytes_at k d a (words_bytes ws) -> ws !! i = Some w -> 0 <= w < 2 ^ 32 -> uword k d (a + 4 * Z.of_nat i) = Some w.
Proof.
  intros Hb Hi Hw. assert (Hj : forall j c, (j < 4)%nat -> to_bytes 4 w !! j = Some c -> vbyte k d (a + 4 * Z.of_nat i + Z.of_nat j) = Some c).
  { intros j c Hj Hc. rewrite <- (words_bytes_lookup ws i w j Hi Hj) in Hc. specialize (Hb _ _ Hc). by replace (a + 4 * Z.of_nat i + Z.of_nat j) with (a + Z.of_nat (4 * i + j)) by lia. }
  pose proof (Hj 0%nat _ ltac:(lia) eq_refl) as H0. pose proof (Hj 1%nat _ ltac:(lia) eq_refl) as H1.
  pose proof (Hj 2%nat _ ltac:(lia) eq_refl) as H2. pose proof (Hj 3%nat _ ltac:(lia) eq_refl) as H3.
  change (Z.of_nat 0) with 0 in H0. rewrite Z.add_0_r in H0. change (Z.of_nat 1) with 1 in H1. change (Z.of_nat 2) with 2 in H2. change (Z.of_nat 3) with 3 in H3.
  unfold uword. rewrite H0, H1, H2, H3.
  cbn [mbind option_bind]. f_equal. change (of_bytes _) with (of_bytes (to_bytes 4 w)). rewrite of_to_bytes. by apply Z.mod_small.
Qed.

(** ** The stack as a whole *)

(** The program finds its arguments at [sp]. *)
Record args_at (k : kmem) (d sp : Z) (strs : list (list Z)) : Prop := {
  aa_ret : uword k d sp = Some 0xffffffff;
  aa_argc : uword k d (sp + 4) = Some (Z.of_nat (length strs));
  aa_argv : uword k d (sp + 8) = Some (sp + 12);
  aa_strs : forall i s, strs !! i = Some s ->
    exists p, uword k d (sp + 12 + 4 * Z.of_nat i) = Some p /\ bytes_at k d p (s ++ [0]);
  aa_null : uword k d (sp + 12 + 4 * Z.of_nat (length strs)) = Some 0;
}.

Lemma fresh_user_ok k d x : present (pte_at k d x) = true -> PTE_FLAGS (pte_at k d x) = 7 -> pages k !! frame k d x = Some zero_bytes -> user_ok k d x.
Proof.
  intros Hp Hf Hz. split_and!; [done| |by eexists]. unfold PTE_FLAGS in Hf.
  assert (Hu : forall z, u32 z = Z.land z (Z.ones 32)) by (intros; by rewrite Z.land_ones). rewrite Hu in Hf.
  intros H0. apply (f_equal (fun z => Z.land z PTE_U)) in Hf. rewrite <- !Z.land_assoc in Hf. change (Z.land (Z.ones 32) (Z.land 4095 PTE_U)) with PTE_U in Hf.
  rewrite H0 in Hf. done.
Qed.

(** The words of the stack, once its strings are in place. *)
Lemma ustack_run k d fl h c lo sp hi strs ptrs :
  vminv k d fl h -> 0 <= lo -> lo + 4 * (4 + Z.of_nat (length strs)) <= sp -> sp <= hi <= KERNBASE -> (length strs <= 32)%nat ->
  (forall x, lo <= x < hi -> user_ok k d x) ->
  Forall2 (fun p s => sp <= p /\ p + Z.of_nat (length s) < hi /\ bytes_at k d p (s ++ [0])) ptrs strs ->
  let argc := Z.of_nat (length strs) in
  let sp' := sp - (3 + argc + 1) * 4 in
  exists k', copyout d sp' (words_bytes ([0xffffffff; argc; u32 (sp - (argc + 1) * 4)] ++ ptrs ++ [0])) c k = Ok 0 c k' /\ vminv k' d fl h /\
    (forall x, pte_at k' d x = pte_at k d x) /\ args_at k' d sp' strs /\
    (forall x, 0 <= x < KERNBASE -> user_ok k d x -> ~ (lo <= x < sp) -> vbyte k' d x = vbyte k d x).
Proof.
  intros Hv Hlo Hsp Hk Hn Hok Hf argc sp'. pose proof (Forall2_length _ _ _ Hf) as Hlp. set (ws := [_; _; _] ++ ptrs ++ [0]).
  assert (Hlw : Z.of_nat (length (words_bytes ws)) = (3 + argc + 1) * 4) by (rewrite words_bytes_length; unfold ws; rewrite !length_app; cbn; lia).
  destruct (copyout_run kend k d fl h c sp' (words_bytes ws) Hv) as (k' & Hr & Hv' & Hp & _ & Hb); [lia|lia|intros x Hx; apply Hok; lia|].
  rewrite Hlw in Hb. exists k'. unfold KERNBASE in *. assert (Hw : bytes_at k' d sp' (words_bytes ws)).
  { intros j x Hj. pose proof (lookup_lt_Some _ _ _ Hj). rewrite Hb by (lia || apply Hok; lia). rewrite decide_True by lia. by replace (Z.to_nat (sp' + Z.of_nat j - sp')) with j by lia. }
  split_and!; [done|done|done| |].
  - split.
    + replace sp' with (sp' + 4 * Z.of_nat 0) by lia. by apply (uword_written _ _ _ ws).
    + replace (sp' + 4) with (sp' + 4 * Z.of_nat 1) by lia. apply (uword_written _ _ _ ws); [done|done|lia].
    + replace (sp' + 8) with (sp' + 4 * Z.of_nat 2) by lia. apply (uword_written _ _ _ ws); [done| |lia]. unfold ws. cbn. rewrite u32_small by lia. f_equal. lia.
    + intros i s Hi. destruct (Forall2_lookup_r _ _ _ _ _ Hf Hi) as (p & Hpi & Hp1 & Hp2 & Hbs). exists p. split.
      * replace (sp' + 12 + 4 * Z.of_nat i) with (sp' + 4 * Z.of_nat (3 + i)) by lia. apply (uword_written _ _ _ ws); [done| |lia]. unfold ws. cbn. by apply lookup_app_l_Some.
      * intros j x Hj. pose proof (lookup_lt_Some _ _ _ Hj) as Hjl. rewrite length_app in Hjl. cbn in Hjl.
        rewrite Hb by (lia || apply Hok; lia). rewrite decide_False by lia. by apply Hbs.
    + replace (sp' + 12 + 4 * Z.of_nat (length strs)) with (sp' + 4 * Z.of_nat (3 + length strs)) by lia. apply (uword_written _ _ _ ws); [done| |lia].
      change (ws !! (3 + length strs)%nat) with ((ptrs ++ [0]) !! length strs). rewrite lookup_app_r by lia. by rewrite Hlp, Nat.sub_diag.
  - intros x Hx Hux Hnx. rewrite Hb by done. by rewrite decide_False by lia.
Qed.

End Stack.

(** ** All or nothing *)

Section Atomic.
Context {E B : Type} `{KernelOps E} `{UserOps E} `{BlockStore B} `{FileEnv E B}.
Context (devsw : list (devops B)) (kend kdata : Z) (me : nat).
Abbreviation K := (M (pstate E)).

(** Code that changes no process. *)
Definition retains {A} (m : K A) : Prop := forall c s a c' s', m c s = Ok a c' s' -> procs s' = procs s.

Lemma retains_ret {A} (a : A) : retains (mret a).
Proof. intros c s a' c' s' Hr. by injection Hr as _ _ <-. Qed.

Lemma retains_bind {A C} (m : K A) (f : A -> K C) : retains m -> (forall a, retains (f a)) -> retains (m ≫= f).
Proof. intros Hm Hf c s a c' s' (a1 & c1 & s1 & Hr1 & Hr2)%bind_Ok_inv. rewrite (Hf _ _ _ _ _ _ Hr2). by eapply Hm. Qed.

Lemma retains_panic {A} msg : retains (panic msg : K A).
Proof. by intros c s a c' s' Hr. Qed.

Lemma retains_nofuel {A} : retains (nofuel : K A).
Proof. by intros c s a c' s' Hr. Qed.

Lemma retains_option {A} (o : option A) : retains (of_option o : K A).
Proof. destruct o; [apply retains_ret|by intros c s a c' s' Hr]. Qed.

Lemma retains_getp i : retains (getp i : K proc).
Proof. apply retains_bind; [intros c s a c' s' Hr; by injection Hr as _ _ <-|]. intros s. apply retains_option. Qed.

Lemma retains_cprintf fmt args : retains (cprintf fmt args : K unit).
Proof. intros c s a c' s' Hr. unfold cprintf, emit in Hr. by simplify_eq. Qed.

Lemma retains_lift {A} (m : M E A) : retains (lift m).
Proof. intros c s a c' s'. unfold lift, zoom. destruct (m c (env s)); [|done..]. by intros [= <- <- <-]. Qed.

Lemma retains_onfile {A} (m : M (fstate B) A) : retains (onfile me m).
Proof. apply retains_bind; [apply retains_getp|]. intros p. apply retains_lift. Qed.

(** Everything before the new image is put in place. *)
Create HintDb keep.
Hint Resolve retains_ret retains_panic retains_nofuel retains_option retains_getp retains_cprintf retains_onfile : keep.
Hint Extern 1 (retains (_ ≫= _)) => (apply retains_bind; [|intros]) : keep.
Hint Extern 1 (retains (if _ then _ else _)) => case_match : keep.
Hint Extern 1 (retains (match _ with _ => _ end)) => case_match : keep.
Hint Extern 1 (retains (op_begin _)) => apply retains_onfile : keep.
Hint Extern 1 (retains (op_end _)) => apply retains_onfile : keep.
Hint Extern 1 (retains (onvm _ _)) => apply retains_onfile : keep.
Hint Extern 1 (retains (onfs' _ _)) => apply retains_onfile : keep.
Hint Extern 1 (retains (xreadi _ _ _ _ _)) => apply retains_onfile : keep.
Hint Extern 1 (retains (lock _ _)) => unfold lock, mypid : keep.
Hint Extern 1 (retains (unlockput _ _)) => unfold unlockput, mypid : keep.
Hint Extern 1 (retains (path_inode _ _ _)) => unfold path_inode, mypid, mycwd : keep.

Lemma retains_load fuel pgdir addr ip offset i sz : retains (load_loop devsw me fuel pgdir addr ip offset i sz).
Proof. revert i. induction fuel as [|fuel IH]; intros i; cbn [load_loop]; auto 20 with keep. Qed.

Lemma retains_segments pgdir ip off sz n : retains (load_segments devsw kend me pgdir ip off sz n).
Proof.
  revert off sz. induction n as [|n IH]; intros off sz; cbn [load_segments]; [auto with keep|]. unfold loaduvm. auto 20 using retains_load with keep.
Qed.

(** The process [me] runs another program; nothing else about it has changed, and
    nothing about other processes. *)
Definition replaced (path : list Z) (P P' : list proc) : Prop :=
  exists p t last nm d n eip sp, P !! me = Some p /\ tf p = Some t /\ last_elem path path = Some last /\ safestrcpy (name p) last 16 = Some nm /\
    P' = <[me := p <| name := nm |> <| Proc.pgdir := d |> <| Proc.sz := n |> <| tf := Some (t <| tf_eip := eip |> <| tf_esp := sp |>) |>]> P.

Definition all_or_nothing (path : list Z) (m : K Z) : Prop :=
  forall c s r c' s', m c s = Ok r c' s' -> (r = -1 /\ procs s' = procs s) \/ (r = 0 /\ replaced path (procs s) (procs s')).

Lemma aon_bind {A} path (m : K A) f : retains m -> (forall a, all_or_nothing path (f a)) -> all_or_nothing path (m ≫= f).
Proof. intros Hm Hf c s r c' s' (a & c1 & s1 & Hr1 & Hr2)%bind_Ok_inv. rewrite <- (Hm _ _ _ _ _ Hr1). by eapply Hf. Qed.

Lemma aon_fail path : all_or_nothing path (mret (-1)).
Proof. intros c s r c' s' Hr. injection Hr as <- _ <-. by left. Qed.

Lemma aon_bad path pgdir ip : all_or_nothing path (bad kend me pgdir ip).
Proof. apply aon_bind; [auto with keep|]. intros _. apply aon_bind; [auto 10 with keep|]. intros _. apply aon_fail. Qed.

Lemma getp_Ok i c (s : pstate E) p c' s' : getp i c s = Ok p c' s' -> procs s !! i = Some p /\ s' = s.
Proof. unfold getp. rewrite bindE, getSE. cbn [obind]. destruct (procs s !! i); [|done]. rewrite of_optionE. by intros [= -> -> ->]. Qed.

Lemma option_Ok {A} (o : option A) c (s : pstate E) x c' s' : of_option o c s = Ok x c' s' -> o = Some x /\ s' = s.
Proof. destruct o; [|done]. rewrite of_optionE. by intros [= -> -> ->]. Qed.

Lemma aon_commit path pgdir sz eip sp : all_or_nothing path (commit_image kend me path pgdir sz eip sp).
Proof.
  intros c s r c' s' Hr. right. unfold commit_image in Hr. minv Hr. injection Hr as <- _ <-. split; [done|].
  apply getp_Ok in Hrun as [Hp ->]. apply option_Ok in Hrun0 as [Hl ->]. apply option_Ok in Hrun1 as [Hn ->].
  injection Hrun2 as _ _ <-. apply option_Ok in Hrun3 as [Ht ->]. injection Hrun4 as _ _ <-.
  apply retains_onfile in Hrun5. apply retains_onfile in Hrun6. rewrite Hrun6, Hrun5. cbn -[alter].
  exists a, a3, a0, a1, pgdir, sz, eip, sp. split_and!; [done..|]. rewrite list_alter_alter_eq, list_insert_alter.
  apply list_alter_ext; [|done]. intros x Hx. assert (x = a) as -> by congruence. done.
Qed.

End Atomic.

(** ** Witnesses *)


#[local] Existing Instance fs_cache.

Definition exec_state : pstate denv :=
  fd_state <| procs := [fd_proc <| Proc.cwd := Some 0%nat |>] |>.

