(* ===== verification/Mkfs.v ===== *)
(** * Building the file system image (src/mkfs.c)

    mkfs runs on the host.  Its state is the image, as a list of blocks, the super
    block and the first inode and block not yet given out.  [host] is what the
    host's open() and read() give for a file name and [creat] whether the image can
    be created; the host is little-endian and its disk does not fill up.  A failed
    assertion and exit(1) end the run as a panic. *)

From stdpp Require Import prelude gmap strings list.
From Stdlib Require Import ZArith Lia.
From S2P Require Import Ide Strings Prelude Bio Layout Log Fs.

Definition NINODES : Z := 200.
Definition nbitmap : Z := FSSIZE `quot` (BSIZE * 8) + 1.
Definition ninodeblocks : Z := NINODES `quot` IPB + 1.
Definition nlog : Z := LOGSIZE.

Record mkst := mkmkst {
  img : list (list Z);     (* fsfd *)
  msb : superblock;        (* sb *)
  freeinode : Z;
  freeblock : Z;
}.

#[export] Instance mkst_settable : Settable mkst :=
  fun s => mkmkst (img s) (msb s) (freeinode s) (freeblock s).

Abbreviation MK := (M mkst).

Definition assert_ (b : bool) : MK unit := if b then mret tt else panic "assert".

Definition zeroes : list Z := replicate 512 0.

(** The bytes of the result are those of [x], lowest first. *)
Definition xshort (x : Z) : Z := of_bytes [u8 x; u8 (Z.shiftr x 8)].
Definition xint (x : Z) : Z := of_bytes [u8 x; u8 (Z.shiftr x 8); u8 (Z.shiftr x 16); u8 (Z.shiftr x 24)].

(** ** Sectors *)

(** The block at which lseek() puts the file. *)
Definition seek (sec : Z) : nat := Z.to_nat (u32 (sec * BSIZE) / BSIZE).

(** A write behind the end leaves zeros between. *)
Definition wsect (sec : Z) (buf : list Z) : MK unit :=
  let k := seek sec in
  modS (fun s => s <| img ::= fun l =>
    if (k <? length l)%nat then <[k := buf]> l else l ++ replicate (k - length l) zeroes ++ [buf] |>).

Definition rsect (sec : Z) : MK (list Z) :=
  s ← getS;
  match img s !! seek sec with
  | Some b => mret b
  | None => panic "read"
  end.

(** ** Inodes *)

Definition winode (inum : Z) (ip : dinode) : MK unit :=
  sb ← gets msb;
  let bn := IBLOCK inum sb in
  buf ← rsect bn;
  wsect bn (put_dinode buf (dinode_off inum) ip).

Definition rinode (inum : Z) : MK dinode :=
  sb ← gets msb;
  let bn := IBLOCK inum sb in
  buf ← rsect bn;
  mret (get_dinode buf (dinode_off inum)).

Definition ialloc (type : Z) : MK Z :=
  inum ← gets freeinode;
  modS (fun s => s <| freeinode ::= fun n => u32 (n + 1) |>) ;;
  winode inum (mkdinode (s16 (xshort type)) 0 0 (s16 (xshort 1)) (xint 0) (replicate 13 0)) ;;
  mret inum.

(** [freeblock++] *)
Definition next_block : MK Z :=
  b ← gets freeblock;
  modS (fun s => s <| freeblock ::= fun n => u32 (n + 1) |>) ;;
  mret b.

Fixpoint mark_used (n : nat) (buf : list Z) : list Z :=
  match n with
  | O => buf
  | S n' =>
      let i := Z.of_nat n' in
      let buf := mark_used n' buf in
      set_byte buf (i `quot` 8) (u8 (Z.lor (byte_at buf (i `quot` 8)) (Z.shiftl 1 (Z.rem i 8))))
  end.

Definition balloc (used : Z) : MK unit :=
  cprintf "balloc: first %d blocks have been allocated\n" [used] ;;
  assert_ (used <? BSIZE * 8) ;;
  let buf := mark_used (Z.to_nat used) zeroes in
  sb ← gets msb;
  cprintf "balloc: write bitmap block at sector %d\n" [sb_bmapstart sb] ;;
  wsect (sb_bmapstart sb) buf.

(** ** Appending to a file *)

Definition set_addr (din : dinode) (k b : Z) : dinode :=
  mkdinode (d_type din) (d_major din) (d_minor din) (d_nlink din) (d_size din) (<[Z.to_nat k := b]> (d_addrs din)).

(** [if(xint(din.addrs\[k\]) == 0) din.addrs\[k\] = xint(freeblock++);] *)
Definition need_addr (din : dinode) (k : Z) : MK dinode :=
  a ← rd (d_addrs din) k;
  if xint a =? 0 then b ← next_block; mret (set_addr din k (xint b)) else mret din.

(** The entry of the indirect block [a] for block [fbn], allocated if needed. *)
Definition indirect_entry (a fbn : Z) : MK Z :=
  indirect ← rsect a;
  let k := Z.to_nat (4 * (fbn - NDIRECT)) in
  indirect ← (if get32 indirect k =? 0
              then b ← next_block;
                   let indirect := put32 indirect k (xint b) in
                   wsect a indirect ;; mret indirect
              else mret indirect);
  mret (xint (get32 indirect k)).

(** The block of the file with number [fbn]. *)
Definition file_block (din : dinode) (fbn : Z) : MK (Z * dinode) :=
  if fbn <? NDIRECT then
    din ← need_addr din fbn;
    x ← rd (d_addrs din) fbn;
    mret (xint x, din)
  else
    din ← need_addr din NDIRECT;
    a ← rd (d_addrs din) NDIRECT;
    x ← indirect_entry (xint a) fbn;
    mret (x, din).

(** The bytes [p] of one round, inside block [fbn]. *)
Definition append_block (din : dinode) (off fbn : Z) (p : list Z) : MK dinode :=
  r ← file_block din fbn;
  let '(x, din) := r in
  buf ← rsect x;
  wsect x (put_bytes buf (Z.to_nat (off - fbn * BSIZE)) p) ;;
  mret din.

Fixpoint iappend_loop (fuel : nat) (din : dinode) (off : Z) (p : list Z) : MK (dinode * Z) :=
  match p with
  | [] => mret (din, off)
  | _ =>
      match fuel with
      | O => nofuel
      | S fuel' =>
          let fbn := off / BSIZE in
          assert_ (fbn <? MAXFILE) ;;
          let n1 := Z.min (Z.of_nat (length p)) (u32 ((fbn + 1) * BSIZE - off)) in
          din ← append_block din off fbn (take (Z.to_nat n1) p);
          iappend_loop fuel' din (u32 (off + n1)) (drop (Z.to_nat n1) p)
      end
  end.

Definition iappend (inum : Z) (p : list Z) : MK unit :=
  din ← rinode inum;
  r ← iappend_loop (length p) din (xint (d_size din)) p;
  let '(din, off) := r in
  winode inum (mkdinode (d_type din) (d_major din) (d_minor din) (d_nlink din) (xint off) (d_addrs din)).

(** ** main() *)

(** [while((cc = read(fd, buf, sizeof(buf))) > 0) iappend(inum, buf, cc);] *)
Fixpoint copy_file (fuel : nat) (inum : Z) (rest : list Z) : MK unit :=
  match rest with
  | [] => mret tt
  | _ =>
      match fuel with
      | O => nofuel
      | S fuel' => iappend inum (take (Z.to_nat BSIZE) rest) ;; copy_file fuel' inum (drop (Z.to_nat BSIZE) rest)
      end
  end.

(** Skip a leading [_]. *)
Definition skip_ (name : list Z) : list Z :=
  match name with 95 :: name' => name' | _ => name end.

Section Main.
Context (host : list Z -> option (list Z)) (creat : list Z -> bool).

(** A directory entry, cleared before its fields are set. *)
Definition cleared : list Z := replicate 14 0.
Definition entry_bytes (inum : Z) (name : option (list Z)) : MK (list Z) :=
  nm ← of_option name;
  mret (put_dirent (mkdirent (xshort (u16 inum)) nm)).

Definition add_file (rootino : Z) (name : list Z) : MK unit :=
  assert_ (negb (existsb (Z.eqb 47) name)) ;;
  match host name with
  | None => panic "open"
  | Some contents =>
      let name := skip_ name in
      inum ← ialloc T_FILE;
      de ← entry_bytes inum (strncpy cleared (name ++ [0]) DIRSIZ);
      iappend rootino de ;;
      copy_file (length contents) inum contents
  end.

Definition make_sb (nblocks : Z) : superblock :=
  mksb (xint FSSIZE) (xint nblocks) (xint NINODES) (xint nlog) (xint 2) (xint (2 + nlog)) (xint (2 + nlog + ninodeblocks)).

(** [memmove(buf, &sb, sizeof(sb))] into a cleared block. *)
Definition sb_block (sb : superblock) : list Z :=
  put_words zeroes 0 [sb_size sb; sb_nblocks sb; sb_ninodes sb; sb_nlog sb; sb_logstart sb; sb_inodestart sb; sb_bmapstart sb].

(** Fix the size of the root directory. *)
Definition fix_root (rootino : Z) : MK unit :=
  din ← rinode rootino;
  let off := xint (d_size din) in
  let off := u32 ((off / BSIZE + 1) * BSIZE) in
  winode rootino (mkdinode (d_type din) (d_major din) (d_minor din) (d_nlink din) (xint off) (d_addrs din)).

Definition mkfs_main (argv : list (list Z)) : MK unit :=
  match argv with
  | _ :: image :: files =>
      if creat image then
        modS (fun s => s <| img := [] |>) ;;
        let nmeta := 2 + nlog + ninodeblocks + nbitmap in
        let nblocks := FSSIZE - nmeta in
        modS (fun s => s <| msb := make_sb nblocks |>) ;;
        cprintf "nmeta %d (boot, super, log blocks %u inode blocks %u, bitmap blocks %u) blocks %d total %d\n"
          [nmeta; nlog; ninodeblocks; nbitmap; nblocks; FSSIZE] ;;
        modS (fun s => s <| freeblock := nmeta |>) ;;
        mfor (seqZ 0 FSSIZE) (fun i => wsect i zeroes) ;;
        sb ← gets msb;
        wsect 1 (sb_block sb) ;;
        rootino ← ialloc T_DIR;
        assert_ (rootino =? ROOTINO) ;;
        de ← entry_bytes rootino (strcpy cleared [46; 0]);
        iappend rootino de ;;
        de ← entry_bytes rootino (strcpy cleared [46; 46; 0]);
        iappend rootino de ;;
        mfor files (add_file rootino) ;;
        fix_root rootino ;;
        fb ← gets freeblock;
        balloc (s32 fb)
      else panic "open"
  | _ => panic "Usage: mkfs fs.img files..."
  end.
End Main.

(** [uint freeinode = 1], and the other variables as C starts them. *)
Definition mkfs_init : mkst := mkmkst [] (mksb 0 0 0 0 0 0 0) 1 0.
