(* ===== verification/MkfsBuild.v ===== *)
(** * Writing files into an image (src/mkfs.c: rsect to iappend)

    iappend() and ialloc() on an image in the making.  [v] is the contents of the
    image with the free map, which is written last, taken as full; [building] is one
    file of it and [image] all of them, and each step keeps them: the file gets its
    blocks in order, the others keep theirs. *)

From stdpp Require Import prelude gmap strings list.
From Stdlib Require Import ZArith Lia.
From S2P Require Import Ide Strings Prelude Sleeplock Bio BioSpec Layout Log LogSpec Store Fs FsLogic FsAlloc FsFile FsInode FsIO FsDir FsPath FsWitness Mkfs.

Definition mkfs_sb : superblock := mksb 1000 941 200 30 2 32 58.
Abbreviation SB := mkfs_sb.

(** ** A file while it is written *)

Definition full_map (v : Z -> list Z) : Prop := v 58 = replicate 512 255.

Lemma full_marked v x : full_map v -> 0 <= x < 1000 -> marked SB v x = true.
Proof.
  intros Hv Hx. unfold marked, bmap_block. cbn [sb_bmapstart mkfs_sb].
  rewrite (Z.div_small x), (Z.mod_small x), Z.add_0_r, Hv by lia.
  revert x Hx. apply all_below. vm_compute. reflexivity.
Qed.

(** The first [nb] blocks are there, the indirect one if [ib], all below [fb]; the
    file holds [bs] and zeros up to the end of its last block. *)
Record building (v : Z -> list Z) (fb : Z) (ad bs : list Z) (nb : Z) (ib : bool) : Prop := {
  bk_map : full_map v;
  bk_len : forall x, 0 <= x < 1000 -> length (v x) = 512%nat;
  bk_fresh : forall x, fb <= x < 1000 -> v x = zeroes;
  bk_fb : 59 <= fb <= 1000;
  bk_nb : 0 <= nb <= 140;
  bk_wf : wf_file SB v ad;
  bk_own : forall x, owns v ad x -> 59 <= x < fb;
  bk_has : forall bn, 0 <= bn < 140 -> bptr v ad bn <> 0 <-> bn < nb;
  bk_ind : ind_of ad <> 0 <-> ib = true;
  bk_fits : Z.of_nat (length bs) <= 512 * nb;
  bk_bytes : forall j, 0 <= j < 512 * nb -> fbyte v ad j = Some (default 0 (bs !! Z.to_nat j));
}.

(** What the other files see of it. *)
Record frame (v : Z -> list Z) (fb : Z) (ad : list Z) (v' : Z -> list Z) (fb' : Z) (ad' : list Z) : Prop := {
  fr_le : fb <= fb';
  fr_new : forall x, owns v' ad' x -> owns v ad x \/ fb <= x < fb';
  fr_rest : forall x, 0 <= x < fb -> ~ owns v ad x -> v' x = v x;
  fr_top : forall x, fb' <= x < 1000 -> v' x = v x;
}.

Lemma frame_refl v fb ad : frame v fb ad v fb ad.
Proof. split; auto; lia. Qed.

Lemma frame_trans v fb ad v1 fb1 ad1 v2 fb2 ad2 :
  frame v fb ad v1 fb1 ad1 -> frame v1 fb1 ad1 v2 fb2 ad2 -> frame v fb ad v2 fb2 ad2.
Proof.
  intros [L1 N1 R1 T1] [L2 N2 R2 T2]. split; [lia|..].
  - intros x [Hx| ?]%N2; [apply N1 in Hx as [?|?]; [by left|right; lia]|right; lia].
  - intros x Hx Hno. rewrite R2; [by apply R1|lia|]. intros [?|?]%N1; [done|lia].
  - intros x Hx. rewrite T2, T1 by lia. done.
Qed.

Lemma building_data v x : full_map v -> 59 <= x < 1000 -> data_block SB v x.
Proof. intros Hm Hx. split; [done|]. apply full_marked; [done|lia]. Qed.

Lemma zeroes_lookup j : 0 <= j < 512 -> zeroes !! Z.to_nat j = Some 0.
Proof. intros Hj. apply lookup_replicate_2. lia. Qed.

Section Step.
Context {v : Z -> list Z} {fb : Z} {ad bs : list Z} {nb : Z} {ib : bool}.
Context (HB : building v fb ad bs nb ib).

Lemma fresh_unowned : ~ owns v ad fb.
Proof. intros Ho%(bk_own _ _ _ _ _ _ HB). lia. Qed.

Lemma block_owned bn : 0 <= bn < nb -> owns v ad (bptr v ad bn).
Proof.
  intros Hbn. pose proof (bk_nb _ _ _ _ _ _ HB). apply owns_bptr; [lia|]. apply (bk_has _ _ _ _ _ _ HB); lia.
Qed.

Lemma byte_block j n : 0 <= j < 512 * n -> 0 <= j / 512 < n /\ 0 <= j mod 512 < 512.
Proof.
  intros Hj. pose proof (Z.mod_pos_bound j 512 ltac:(lia)).
  split; [split; [apply Z.div_pos; lia|apply Z.div_lt_upper_bound; lia]|done].
Qed.

(** The new block is the next one of the file. *)
Lemma building_link v' ad' :
  length ad' = 13%nat -> ind_of ad' = ind_of ad -> fb < 1000 -> nb < 140 ->
  (forall bn, 0 <= bn < 140 -> bptr v' ad' bn = if bn =? nb then fb else bptr v ad bn) ->
  (forall x, 0 <= x < 1000 -> x = ind_of ad /\ x <> 0 \/ v' x = v x) -> length (v' (ind_of ad)) = 512%nat ->
  building v' (fb + 1) ad' bs (nb + 1) ib /\ frame v fb ad v' (fb + 1) ad'.
Proof.
  intros Hl Hind Hfb Hnb Hp Hv Hvl. pose proof HB as [Hm Hln Hfr Hf Hn Hwf Ho Hh Hi Hs Hb].
  pose proof fresh_unowned as Hno.
  assert (Hir : ind_of ad = 0 \/ 59 <= ind_of ad < fb)
    by (destruct (decide (ind_of ad = 0)); [by left|right; apply Ho; by apply owns_ind]).
  assert (Hv' : forall x, 0 <= x < 1000 -> x <> ind_of ad -> v' x = v x) by (intros x Hx ?; by destruct (Hv x Hx) as [[? _]|?]).
  assert (Hm' : full_map v') by (unfold full_map; rewrite Hv' by lia; done).
  assert (Hnew : bptr v ad nb = 0) by (destruct (decide (bptr v ad nb = 0)) as [|E]; [done|pose proof (proj1 (Hh nb ltac:(lia)) E); lia]).
  destruct (wf_link SB v ad v' ad' nb fb) as [Hwf' Hown]; try done; try lia.
  { apply building_data; [done|lia]. }
  { intros x [Hr _]%(wf_data _ _ _ Hwf) _. apply full_marked; [done|]. change (59 <= x < 1000) in Hr. lia. }
  split; [split; try done; try lia|split].
  - intros x Hx. destruct (Hv x Hx) as [[-> _]|E]; [done|]. rewrite E. by apply Hln.
  - intros x Hx. rewrite Hv' by lia. apply Hfr. lia.
  - intros x [->|Hx]%Hown; [lia|]. apply Ho in Hx. lia.
  - intros bn Hbn. rewrite Hp by done. destruct (Z.eqb_spec bn nb); [lia|]. rewrite Hh by done. lia.
  - rewrite Hind. done.
  - intros j Hj. destruct (byte_block j _ Hj) as [Hq Hr]. unfold fbyte. rewrite Hp by lia.
    destruct (Z.eqb_spec (j / 512) nb) as [E|E].
    + rewrite Hv' by lia. rewrite Hfr by lia.
      rewrite zeroes_lookup by done. rewrite lookup_ge_None_2; [done|].
      pose proof (Z.div_mod j 512 ltac:(lia)). lia.
    + pose proof (block_owned (j / 512) ltac:(lia)) as Ho1. pose proof (Ho _ Ho1). rewrite Hv' by (lia || (apply Hwf; [lia|apply Ho1])).
      apply Hb. pose proof (Z.div_mod j 512 ltac:(lia)). lia.
  - lia.
  - intros x [->|Hx]%Hown; [right; lia|by left].
  - intros x Hx Hnx. destruct (Hv x ltac:(lia)) as [[-> ?]|?]; [|done]. by destruct Hnx; apply owns_ind.
  - intros x Hx. apply Hv'; lia.
Qed.

Lemma building_direct : fb < 1000 -> nb < 12 ->
  building v (fb + 1) (<[Z.to_nat nb := fb]> ad) bs (nb + 1) ib /\ frame v fb ad v (fb + 1) (<[Z.to_nat nb := fb]> ad).
Proof.
  intros Hfb Hnb. pose proof (bk_nb _ _ _ _ _ _ HB). pose proof (wf_len _ _ _ (bk_wf _ _ _ _ _ _ HB)) as Hl.
  apply building_link; [by rewrite length_insert|apply ind_of_insert; lia|done|lia|..].
  - intros bn Hbn. by apply bptr_direct; [|lia|].
  - intros x _. by right.
  - destruct (decide (ind_of ad = 0)) as [->|Hne]; [apply (bk_len _ _ _ _ _ _ HB); lia|].
    apply (bk_len _ _ _ _ _ _ HB). pose proof (bk_own _ _ _ _ _ _ HB _ (owns_ind v ad Hne)). lia.
Qed.

Lemma building_indirect v' : fb < 1000 -> 12 <= nb < 140 -> ib = true ->
  v' = tset v (ind_of ad) (put32 (v (ind_of ad)) (Z.to_nat (4 * (nb - 12))) fb) ->
  building v' (fb + 1) ad bs (nb + 1) ib /\ frame v fb ad v' (fb + 1) ad.
Proof.
  intros Hfb Hnb Hib ->. pose proof (proj2 (bk_ind _ _ _ _ _ _ HB) Hib) as Hne.
  pose proof (bk_own _ _ _ _ _ _ HB _ (owns_ind v ad Hne)) as Hi. pose proof (bk_fb _ _ _ _ _ _ HB).
  pose proof (bk_len _ _ _ _ _ _ HB (ind_of ad) ltac:(lia)) as Hl.
  apply building_link; [apply (bk_wf _ _ _ _ _ _ HB)|done|done|lia|..].
  - intros bn Hbn. apply bptr_indirect; try done; lia.
  - intros x Hx. destruct (decide (x = ind_of ad)) as [->|]; [by left|right; by apply tset_other].
  - rewrite tset_same, length_put_le; [done|lia].
Qed.

(** The indirect block itself. *)
Lemma building_new_ind : fb < 1000 -> ib = false ->
  building v (fb + 1) (<[12%nat := fb]> ad) bs nb true /\ frame v fb ad v (fb + 1) (<[12%nat := fb]> ad).
Proof.
  intros Hfb Hib. pose proof HB as [Hm Hln Hfr Hf Hn Hwf Ho Hh Hi Hs Hb].
  assert (Hz : ind_of ad = 0) by (destruct (decide (ind_of ad = 0)) as [|E]; [done|apply Hi in E; congruence]).
  pose proof (wf_len _ _ _ Hwf) as Hl.
  assert (Hp : forall bn, 0 <= bn < 140 -> bptr v (<[12%nat := fb]> ad) bn = bptr v ad bn).
  { intros bn Hbn. apply bptr_new_ind; try done; [apply Hfr|]; lia. }
  destruct (wf_set_ind SB v ad v (<[12%nat := fb]> ad) fb) as [Hwf' Hown]; try done.
  { by rewrite length_insert. }
  { by apply ind_of_insert_12. }
  { lia. }
  { apply fresh_unowned. }
  { apply building_data; [done|lia]. }
  split; [split; try done; try lia|split].
  - intros x Hx. apply Hfr. lia.
  - intros x [->|Hx]%Hown; [lia|]. apply Ho in Hx. lia.
  - intros bn Hbn. rewrite Hp by done. by apply Hh.
  - rewrite ind_of_insert_12 by done. split; [done|lia].
  - intros j Hj. destruct (byte_block j _ Hj). unfold fbyte. rewrite Hp by lia. by apply Hb.
  - lia.
  - intros x [->|Hx]%Hown; [right; lia|by left].
  - done.
  - done.
Qed.

(** Bytes behind the end, inside the last block. *)
Lemma building_write p v' :
  let off := Z.of_nat (length bs) in let bn := off / 512 in
  bn < nb -> off mod 512 + Z.of_nat (length p) <= 512 ->
  v' = tset v (bptr v ad bn) (put_bytes (v (bptr v ad bn)) (Z.to_nat (off mod 512)) p) ->
  building v' fb ad (bs ++ p) nb ib /\ frame v fb ad v' fb ad.
Proof.
  intros off bn Hbn Hp ->. pose proof HB as [Hm Hln Hfr Hf Hn Hwf Ho Hh Hi Hs Hb].
  assert (Hbn0 : 0 <= bn) by (apply Z.div_pos; lia).
  pose proof (block_owned bn ltac:(lia)) as Hob. pose proof (Ho _ Hob) as Hr. set (x := bptr v ad bn) in *.
  pose proof (Z.mod_pos_bound off 512 ltac:(lia)) as Hmod. pose proof (Z.div_mod off 512 ltac:(lia)) as Hdm. fold bn in Hdm.
  pose proof (Hln x ltac:(lia)) as Hlx. set (d := put_bytes (v x) (Z.to_nat (off mod 512)) p).
  assert (Hind : ind_of ad <> 0 -> tset v x d (ind_of ad) = v (ind_of ad)).
  { intros _. apply tset_other. symmetry. apply Hwf; [lia|apply Hob]. }
  assert (Hpt : forall b, bptr (tset v x d) ad b = bptr v ad b) by (intros b; by apply bptr_ext).
  assert (Hm' : full_map (tset v x d)) by (unfold full_map; by rewrite tset_other by lia).
  assert (Hown : forall y, owns (tset v x d) ad y <-> owns v ad y) by (intros y; by apply owns_ext).
  split; [split; try done; try lia|split].
  - intros y Hy. unfold tset. destruct (Z.eqb_spec y x); [|by apply Hln]. unfold d. rewrite length_put_bytes; lia.
  - intros y Hy. rewrite tset_other by lia. by apply Hfr.
  - eapply wf_file_ext; [done|done|]. intros y Hy _. apply Ho in Hy. apply full_marked; [done|lia].
  - intros y Hy. by apply Ho, Hown.
  - intros b Hbr. rewrite Hpt. by apply Hh.
  - rewrite length_app. lia.
  - intros j Hj. destruct (byte_block j _ Hj) as [Hq Hr']. unfold fbyte. rewrite Hpt.
    pose proof (Z.div_mod j 512 ltac:(lia)) as Hdj. specialize (Hb j Hj). unfold fbyte in Hb.
    destruct (decide (j / 512 = bn)) as [E|E].
    + rewrite E in *. fold x in Hb |- *. rewrite tset_same. unfold d. rewrite lookup_put_bytes by lia.
      case_decide as Hc; [rewrite lookup_app_r by lia|].
      * replace (Z.to_nat j - length bs)%nat with (Z.to_nat (j mod 512) - Z.to_nat (off mod 512))%nat by lia.
        destruct (lookup_lt_is_Some_2 p (Z.to_nat (j mod 512) - Z.to_nat (off mod 512))) as [y ->]; [lia|done].
      * rewrite Hb. f_equal. destruct (decide (Z.to_nat j < length bs)%nat); [by rewrite lookup_app_l by lia|].
        rewrite !lookup_ge_None_2; [done|rewrite length_app; lia|lia].
    + rewrite tset_other; [|intros Ex; apply E; apply Hwf; [lia|lia|rewrite Ex; apply Hob|exact Ex]].
      rewrite Hb. f_equal. destruct (decide (Z.to_nat j < length bs)%nat); [by rewrite lookup_app_l by lia|].
      rewrite !lookup_ge_None_2; [done|rewrite length_app|]; nia.
  - lia.
  - intros y Hy. left. by apply Hown.
  - intros y Hy Hny. apply tset_other. by intros ->.
  - intros y Hy. apply tset_other. lia.
Qed.
End Step.

(** ** Running mkfs *)

Definition mwp {A} (m : MK A) (s : mkst) (Q : A -> mkst -> Prop) : Prop :=
  forall c, match m c s with Ok a _ s' => Q a s' | _ => False end.

Lemma mwp_ret {A} (a : A) s (Q : A -> mkst -> Prop) : Q a s -> mwp (mret a) s Q.
Proof. by intros HQ c. Qed.

Lemma mwp_bind {A B} (m : MK A) (f : A -> MK B) s (Q : B -> mkst -> Prop) :
  mwp m s (fun a s' => mwp (f a) s' Q) -> mwp (m ≫= f) s Q.
Proof. intros Hm c. specialize (Hm c). rewrite bindE. destruct (m c s); try done. apply Hm. Qed.

Lemma mwp_mono {A} (m : MK A) s (P Q : A -> mkst -> Prop) :
  mwp m s P -> (forall a s', P a s' -> Q a s') -> mwp m s Q.
Proof. intros Hm Hi c. specialize (Hm c). destruct (m c s); try done. by apply Hi. Qed.

Lemma mwp_gets {A} (f : mkst -> A) s (Q : A -> mkst -> Prop) : Q (f s) s -> mwp (gets f) s Q.
Proof. by intros HQ c. Qed.

Lemma mwp_modS f s (Q : unit -> mkst -> Prop) : Q tt (f s) -> mwp (modS f) s Q.
Proof. by intros HQ c. Qed.

Lemma mwp_cprintf m l s (Q : unit -> mkst -> Prop) : Q tt s -> mwp (cprintf m l) s Q.
Proof. by intros HQ c. Qed.

Lemma mwp_rd {A} (l : list A) i x s (Q : A -> mkst -> Prop) : aget l i = Some x -> Q x s -> mwp (rd l i) s Q.
Proof. intros Hx HQ c. unfold rd. by rewrite Hx. Qed.

(** The image shows [v]; the next inode is [fi] and the next block [fb]. *)
Record sees (v : Z -> list Z) (fi fb : Z) (s : mkst) : Prop := {
  se_sb : msb s = SB;
  se_len : length (img s) = 1000%nat;
  se_blk : forall x, 0 <= x < 1000 -> x <> 58 -> img s !! Z.to_nat x = Some (v x);
  se_fi : freeinode s = fi;
  se_fb : freeblock s = fb;
}.

Lemma seek_small x : 0 <= x < 1000 -> seek x = Z.to_nat x.
Proof. intros Hx. unfold seek, BSIZE. rewrite u32_small, Z.div_mul by lia. done. Qed.

Section Sees.
Context {v : Z -> list Z} {fi fb : Z} {s : mkst} (Hs : sees v fi fb s).

Lemma mwp_rsect x (Q : list Z -> mkst -> Prop) : 0 <= x < 1000 -> x <> 58 -> Q (v x) s -> mwp (rsect x) s Q.
Proof. intros Hx Hne HQ c. unfold rsect. mrun. by rewrite seek_small, (se_blk _ _ _ _ Hs) by done. Qed.

Lemma mwp_wsect_at x d (Q : unit -> mkst -> Prop) : 0 <= x < 1000 ->
  (forall s', sees (tset v x d) fi fb s' -> img s' !! Z.to_nat x = Some d -> Q tt s') -> mwp (wsect x d) s Q.
Proof.
  intros Hx HQ c. destruct Hs as [H1 H2 H3 H4 H5]. unfold wsect. rewrite modSE, seek_small by done.
  assert (E : (Z.to_nat x <? length (img s))%nat = true) by (apply Nat.ltb_lt; lia).
  apply HQ; [|cbn -[Nat.ltb]; rewrite E; apply list_lookup_insert_eq; lia].
  split; try done; [cbn -[Nat.ltb]; by rewrite E, length_insert|]. intros y Hy Hne. cbn -[Nat.ltb]. rewrite E. unfold tset.
  destruct (Z.eqb_spec y x) as [->|]; [apply list_lookup_insert_eq; lia|].
  rewrite list_lookup_insert_ne by lia. by apply H3.
Qed.

Lemma mwp_wsect x d (Q : unit -> mkst -> Prop) : 0 <= x < 1000 ->
  (forall s', sees (tset v x d) fi fb s' -> Q tt s') -> mwp (wsect x d) s Q.
Proof. intros Hx HQ. apply mwp_wsect_at; auto. Qed.

Lemma mwp_next_block (Q : Z -> mkst -> Prop) : 0 <= fb < 1000 ->
  (forall s', sees v fi (fb + 1) s' -> Q fb s') -> mwp next_block s Q.
Proof.
  intros Hf HQ c. destruct Hs as [H1 H2 H3 H4 H5]. unfold next_block. mrun. rewrite H5. apply HQ.
  split; try done. cbn. rewrite H5, u32_small; lia.
Qed.
End Sees.

Lemma xint_small x : 0 <= x < 2 ^ 32 -> xint x = x.
Proof.
  intros Hx. rewrite <- (of_to_bytes_small 4 x) at 2 by (change (256 ^ Z.of_nat 4) with (2 ^ 32); lia).
  unfold xint. cbn [to_bytes]. rewrite !Z.shiftr_div_pow2 by lia. unfold u8.
  rewrite !Z.div_div by lia. done.
Qed.

Definition cost_of (nb : Z) : Z := nb + (if 12 <? nb then 1 else 0).

Definition with_addrs (din : dinode) (ad : list Z) : dinode :=
  mkdinode (d_type din) (d_major din) (d_minor din) (d_nlink din) (d_size din) ad.

Lemma with_addrs_id din : with_addrs din (d_addrs din) = din.
Proof. by destruct din. Qed.

Section Addrs.
Context {v : Z -> list Z} {fb : Z} {ad bs : list Z} {nb : Z} {ib : bool} (HB : building v fb ad bs nb ib).

Lemma bptr_small bn : 0 <= bn < 140 -> bptr v ad bn = 0 \/ 59 <= bptr v ad bn < 1000.
Proof.
  intros Hbn. destruct (decide (bptr v ad bn = 0)) as [|Hne]; [by left|right].
  pose proof (bk_own _ _ _ _ _ _ HB _ (owns_bptr v ad bn Hbn Hne)). pose proof (bk_fb _ _ _ _ _ _ HB). lia.
Qed.

Lemma ind_small : ind_of ad = 0 \/ 59 <= ind_of ad < 1000.
Proof.
  destruct (decide (ind_of ad = 0)) as [|Hne]; [by left|right].
  pose proof (bk_own _ _ _ _ _ _ HB _ (owns_ind v ad Hne)). pose proof (bk_fb _ _ _ _ _ _ HB). lia.
Qed.

Lemma rd_direct bn : 0 <= bn < 12 -> aget ad bn = Some (bptr v ad bn).
Proof.
  intros Hbn. rewrite ad_lookup by (lia || apply (bk_wf _ _ _ _ _ _ HB)). unfold bptr.
  destruct (Z.ltb_spec bn 12); [done|lia].
Qed.

Lemma rd_ind : aget ad NDIRECT = Some (ind_of ad).
Proof. by rewrite ad_lookup by (done || apply (bk_wf _ _ _ _ _ _ HB)). Qed.
End Addrs.

(** ** Finding the block to write to *)

Section Find.
Context {v : Z -> list Z} {fi fb : Z} {s : mkst} (Hs : sees v fi fb s) (din : dinode) {bs : list Z} {nb : Z} {ib : bool}.
Context (HB : building v fb (d_addrs din) bs nb ib).

Lemma mwp_need_direct bn (Q : dinode -> mkst -> Prop) : 0 <= bn < 12 -> nb = bn \/ nb = bn + 1 ->
  fb + (bn + 1 - nb) <= 1000 ->
  (forall ad' s', sees v fi (fb + (bn + 1 - nb)) s' -> building v (fb + (bn + 1 - nb)) ad' bs (bn + 1) ib ->
    frame v fb (d_addrs din) v (fb + (bn + 1 - nb)) ad' -> Q (with_addrs din ad') s') ->
  mwp (need_addr din bn) s Q.
Proof.
  intros Hbn Hnb Hroom HQ. pose proof (bk_fb _ _ _ _ _ _ HB) as Hf. apply mwp_bind. eapply mwp_rd; [by apply (rd_direct HB)|].
  pose proof (bk_has _ _ _ _ _ _ HB bn ltac:(lia)) as Hh. pose proof (bptr_small HB bn ltac:(lia)) as Hsm.
  rewrite xint_small by lia. destruct (Z.eqb_spec (bptr v (d_addrs din) bn) 0) as [E|E].
  - assert (nb = bn) as -> by (destruct Hnb as [|Hn]; [done|destruct (proj2 Hh); [lia|done]]).
    replace (bn + 1 - bn) with 1 in * by lia. apply mwp_bind, (mwp_next_block Hs); [lia|]. intros s' Hs'.
    rewrite xint_small by lia. apply mwp_ret. destruct (building_direct HB) as [HB' HF]; [lia|lia|]. by apply (HQ _ s').
  - assert (nb = bn + 1) as -> by (apply Hh in E; lia). replace (bn + 1 - (bn + 1)) with 0 in * by lia.
    rewrite Z.add_0_r in *. apply mwp_ret. rewrite <- (with_addrs_id din). apply HQ; [done|done|apply frame_refl].
Qed.

Lemma mwp_need_ind (Q : dinode -> mkst -> Prop) :
  let fb' := fb + (if ib then 0 else 1) in fb' <= 1000 ->
  (forall ad' s', sees v fi fb' s' -> building v fb' ad' bs nb true ->
    frame v fb (d_addrs din) v fb' ad' -> Q (with_addrs din ad') s') ->
  mwp (need_addr din NDIRECT) s Q.
Proof.
  intros fb' Hroom HQ. pose proof (bk_fb _ _ _ _ _ _ HB) as Hf. apply mwp_bind. eapply mwp_rd; [apply (rd_ind HB)|].
  pose proof (bk_ind _ _ _ _ _ _ HB) as Hi. pose proof (ind_small HB) as Hsm. rewrite xint_small by lia.
  destruct (Z.eqb_spec (ind_of (d_addrs din)) 0) as [E|E]; destruct ib eqn:Eib.
  - by destruct (proj2 Hi).
  - apply mwp_bind, (mwp_next_block Hs); [lia|]. intros s' Hs'. rewrite xint_small by lia. apply mwp_ret.
    destruct (building_new_ind HB) as [HB' HF]; [lia|done|]. by apply (HQ _ s').
  - unfold fb' in *. rewrite Z.add_0_r in *. apply mwp_ret. rewrite <- (with_addrs_id din). apply HQ; [done|done|apply frame_refl].
  - by apply Hi in E.
Qed.

Lemma mwp_indirect_entry bn (Q : Z -> mkst -> Prop) : ib = true -> 12 <= bn < 140 -> nb = bn \/ nb = bn + 1 ->
  fb + (bn + 1 - nb) <= 1000 ->
  (forall v' s', sees v' fi (fb + (bn + 1 - nb)) s' -> building v' (fb + (bn + 1 - nb)) (d_addrs din) bs (bn + 1) ib ->
    frame v fb (d_addrs din) v' (fb + (bn + 1 - nb)) (d_addrs din) -> Q (bptr v' (d_addrs din) bn) s') ->
  mwp (indirect_entry (ind_of (d_addrs din)) bn) s Q.
Proof.
  intros Hib Hbn Hnb Hroom HQ. pose proof (bk_fb _ _ _ _ _ _ HB) as Hf.
  pose proof (proj2 (bk_ind _ _ _ _ _ _ HB) Hib) as Hne. pose proof (ind_small HB) as Hsm.
  apply mwp_bind, (mwp_rsect Hs); [lia|lia|]. unfold NDIRECT.
  assert (Hg : forall w, bptr w (d_addrs din) bn = get32 (w (ind_of (d_addrs din))) (Z.to_nat (4 * (bn - 12)))).
  { intros w. unfold bptr. destruct (Z.ltb_spec bn 12); [lia|]. by destruct (Z.eqb_spec (ind_of (d_addrs din)) 0). }
  rewrite <- Hg. pose proof (bk_has _ _ _ _ _ _ HB bn ltac:(lia)) as Hh.
  destruct (Z.eqb_spec (bptr v (d_addrs din) bn) 0) as [E|E]; apply mwp_bind.
  - assert (nb = bn) as -> by (destruct Hnb as [|Hn]; [done|destruct (proj2 Hh); [lia|done]]).
    replace (bn + 1 - bn) with 1 in * by lia. apply mwp_bind, (mwp_next_block Hs); [lia|]. intros s1 Hs1.
    rewrite (xint_small fb) by lia.
    destruct (building_indirect HB _ ltac:(lia) ltac:(lia) Hib eq_refl) as [HB' HF].
    apply mwp_bind, (mwp_wsect Hs1); [lia|]. intros s2 Hs2. apply mwp_ret, mwp_ret.
    pose proof (HQ _ _ Hs2 HB' HF) as HQ'. rewrite Hg, tset_same in HQ'. rewrite xint_small; [done|].
    pose proof (bptr_small HB' bn ltac:(lia)) as Hx. rewrite Hg, tset_same in Hx. lia.
  - assert (nb = bn + 1) as -> by (apply Hh in E; lia). replace (bn + 1 - (bn + 1)) with 0 in * by lia.
    rewrite Z.add_0_r in *. apply mwp_ret, mwp_ret. rewrite <- Hg. rewrite xint_small by (pose proof (bptr_small HB bn ltac:(lia)); lia).
    by apply HQ; [|done|apply frame_refl].
Qed.
End Find.

Lemma mwp_file_block v fi fb s din bs nb bn (Q : Z * dinode -> mkst -> Prop) :
  sees v fi fb s -> building v fb (d_addrs din) bs nb (12 <? nb) -> 0 <= bn < 140 -> nb = bn \/ nb = bn + 1 ->
  let fb' := fb + (cost_of (bn + 1) - cost_of nb) in fb' <= 1000 ->
  (forall v' ad' s', sees v' fi fb' s' -> building v' fb' ad' bs (bn + 1) (12 <? bn + 1) ->
    frame v fb (d_addrs din) v' fb' ad' -> Q (bptr v' ad' bn, with_addrs din ad') s') ->
  mwp (file_block din bn) s Q.
Proof.
  intros Hs HB Hbn Hnb fb' Hroom HQ. unfold file_block, NDIRECT. unfold fb', cost_of in *.
  destruct (Z.ltb_spec bn 12).
  - destruct (Z.ltb_spec 12 (bn + 1)); [lia|]. destruct (Z.ltb_spec 12 nb); [lia|]. rewrite !Z.add_0_r in *.
    apply mwp_bind. apply (mwp_need_direct Hs din HB); [lia|done|lia|]. intros ad' s' Hs' HB' HF. cbn [with_addrs d_addrs].
    apply mwp_bind. eapply mwp_rd; [apply (rd_direct HB'); lia|]. apply mwp_ret.
    rewrite xint_small by (pose proof (bptr_small HB' bn ltac:(lia)); lia). by apply HQ.
  - destruct (Z.ltb_spec 12 (bn + 1)); [|lia].
    apply mwp_bind. apply (mwp_need_ind Hs din HB); [destruct (Z.ltb_spec 12 nb); lia|]. intros ad1 s1 Hs1 HB1 HF1.
    apply mwp_bind. cbn [with_addrs d_addrs]. eapply mwp_rd; [apply (rd_ind HB1)|].
    rewrite xint_small by (pose proof (ind_small HB1); lia). apply mwp_bind.
    apply (mwp_indirect_entry Hs1 (with_addrs din ad1) HB1); [done|lia|done|destruct (Z.ltb_spec 12 nb); lia|].
    cbn [with_addrs d_addrs]. intros v2 s2 Hs2 HB2 HF2. apply mwp_ret.
    replace (fb + (if 12 <? nb then 0 else 1) + (bn + 1 - nb)) with (fb + (bn + 1 + 1 - (nb + (if 12 <? nb then 1 else 0)))) in *
      by (destruct (Z.ltb_spec 12 nb); lia).
    apply HQ; [done|done|]. by eapply frame_trans.
Qed.

(** ** Appending *)

Definition nb_of (n : Z) : Z := (n + 511) / 512.
Definition len (bs : list Z) : Z := Z.of_nat (length bs).
Definition file_cost (bs : list Z) : Z := cost_of (nb_of (len bs)).

Lemma cost_mono n m : n <= m -> cost_of n <= cost_of m.
Proof. intros Hn. unfold cost_of. destruct (Z.ltb_spec 12 n), (Z.ltb_spec 12 m); lia. Qed.

Lemma nb_of_range n bn : 512 * bn < n <= 512 * (bn + 1) -> nb_of n = bn + 1.
Proof. intros Hn. unfold nb_of. symmetry. apply (Z.div_unique _ _ _ (n + 511 - 512 * (bn + 1))); lia. Qed.

Lemma nb_of_here n : 0 <= n -> nb_of n = n / 512 \/ nb_of n = n / 512 + 1.
Proof.
  intros Hn. pose proof (Z.div_mod n 512 ltac:(lia)). pose proof (Z.mod_pos_bound n 512 ltac:(lia)).
  destruct (decide (n mod 512 = 0)); [left|right; apply nb_of_range; lia].
  unfold nb_of. symmetry. apply (Z.div_unique _ _ _ 511); lia.
Qed.

Lemma file_cost_mono bs bs' : len bs <= len bs' -> file_cost bs <= file_cost bs'.
Proof. intros Hl. apply cost_mono. unfold nb_of. apply Z.div_le_mono; lia. Qed.

Lemma len_app bs p : len (bs ++ p) = len bs + len p.
Proof. unfold len. rewrite length_app. lia. Qed.

(** A file between two calls of iappend(). *)
Definition built (v : Z -> list Z) (fb : Z) (ad bs : list Z) : Prop :=
  building v fb ad bs (nb_of (len bs)) (12 <? nb_of (len bs)).

(** One round of the loop. *)
Lemma mwp_append_block v fi fb s din bs p (Q : dinode -> mkst -> Prop) :
  sees v fi fb s -> built v fb (d_addrs din) bs -> len bs / 512 < 140 ->
  0 < len p -> len p <= (len bs / 512 + 1) * 512 - len bs ->
  let fb' := fb + (file_cost (bs ++ p) - file_cost bs) in fb' <= 1000 ->
  (forall v' ad' s', sees v' fi fb' s' -> built v' fb' ad' (bs ++ p) -> frame v fb (d_addrs din) v' fb' ad' ->
    Q (with_addrs din ad') s') ->
  mwp (append_block din (len bs) (len bs / 512) p) s Q.
Proof.
  intros Hs HB Hbn Hp Hin fb' Hroom HQ. set (bn := len bs / 512) in *.
  assert (Hl : 0 <= len bs) by (unfold len; lia).
  assert (Hbn0 : 0 <= bn) by (apply Z.div_pos; lia).
  pose proof (Z.div_mod (len bs) 512 ltac:(lia)) as Hdm. fold bn in Hdm. pose proof (Z.mod_pos_bound (len bs) 512 ltac:(lia)) as Hmod.
  assert (Hnb' : nb_of (len (bs ++ p)) = bn + 1) by (apply nb_of_range; rewrite len_app; lia).
  unfold fb', file_cost in *. rewrite Hnb' in *. apply mwp_bind.
  eapply (mwp_file_block v fi fb s din bs); [done|exact HB|lia|by apply nb_of_here|lia|].
  intros v1 ad1 s1 Hs1 HB1 HF1.
  pose proof (bk_own _ _ _ _ _ _ HB1 _ (block_owned HB1 bn ltac:(lia))) as Hx. pose proof (bk_fb _ _ _ _ _ _ HB1).
  apply mwp_bind, (mwp_rsect Hs1); [lia|lia|]. apply mwp_bind, (mwp_wsect Hs1); [lia|]. intros s2 Hs2. apply mwp_ret.
  destruct (building_write HB1 p _ ltac:(fold (len bs); lia) ltac:(fold (len bs) (len p); lia) eq_refl) as [HB2 HF2].
  fold (len bs) in HB2, HF2. fold bn in HB2, HF2. unfold BSIZE in Hs2. replace (len bs - bn * 512) with (len bs mod 512) in * by lia.
  eapply HQ; [done|unfold built; rewrite Hnb'; exact HB2|]. by eapply frame_trans.
Qed.

Lemma mwp_iappend_loop fi fuel v fb s din bs p (Q : dinode * Z -> mkst -> Prop) :
  sees v fi fb s -> built v fb (d_addrs din) bs -> (length p <= fuel)%nat -> len bs + len p <= 140 * 512 ->
  let fb' := fb + (file_cost (bs ++ p) - file_cost bs) in fb' <= 1000 ->
  (forall v' ad' s', sees v' fi fb' s' -> built v' fb' ad' (bs ++ p) -> frame v fb (d_addrs din) v' fb' ad' ->
    Q (with_addrs din ad', len (bs ++ p)) s') ->
  mwp (iappend_loop fuel din (len bs) p) s Q.
Proof.
  revert v fb s din bs p Q. induction fuel as [|fuel IH]; intros v fb s din bs p Q Hs HB Hf Hsz fb' Hroom HQ;
    (destruct p as [|x p]; [cbn [iappend_loop]; apply mwp_ret; rewrite <- (with_addrs_id din);
       unfold fb' in *; rewrite app_nil_r, Z.sub_diag, Z.add_0_r in HQ; by eapply HQ; [..|apply frame_refl]|]).
  { cbn in Hf. lia. }
  cbn [iappend_loop]. set (q := x :: p) in *. unfold BSIZE, MAXFILE, NDIRECT, NINDIRECT.
  assert (Hq : 0 < len q) by (unfold len, q; cbn; lia). assert (Hl : 0 <= len bs) by (unfold len; lia).
  assert (Hbn : 0 <= len bs / 512 < 140) by (split; [apply Z.div_pos|apply Z.div_lt_upper_bound]; lia).
  pose proof (Z.div_mod (len bs) 512 ltac:(lia)) as Hdm. pose proof (Z.mod_pos_bound (len bs) 512 ltac:(lia)) as Hmod.
  destruct (Z.ltb_spec (len bs / 512) (12 + 128)); [|lia]. cbn [assert_]. apply mwp_bind, mwp_ret.
  rewrite (u32_small ((len bs / 512 + 1) * 512 - len bs)) by lia. fold (len q). set (n1 := Z.min (len q) ((len bs / 512 + 1) * 512 - len bs)).
  set (bs1 := bs ++ take (Z.to_nat n1) q).
  assert (Happ : bs1 ++ drop (Z.to_nat n1) q = bs ++ q) by (unfold bs1; by rewrite <- app_assoc, take_drop).
  assert (Hb1 : len bs1 = len bs + n1) by (unfold bs1; rewrite len_app; f_equal; unfold len; rewrite length_take; fold (len q); unfold len in *; lia).
  assert (Hdl : len (drop (Z.to_nat n1) q) = len q - n1) by (unfold len in *; rewrite length_drop; lia).
  assert (Hc : file_cost bs1 <= file_cost (bs ++ q)) by (apply file_cost_mono; rewrite Hb1, len_app; lia).
  assert (Htk : len (take (Z.to_nat n1) q) = n1) by (unfold bs1 in Hb1; rewrite len_app in Hb1; lia).
  apply mwp_bind. eapply mwp_append_block; [exact Hs|exact HB|lia|lia|lia|fold bs1; unfold fb' in *; lia|]. fold bs1.
  intros v1 ad1 s1 Hs1 HB1 HF1. rewrite u32_small by lia. rewrite <- Hb1.
  eapply IH; [exact Hs1|exact HB1|unfold len in *; lia|lia|rewrite Happ; unfold fb' in *; lia|].
  rewrite Happ. intros v2 ad2 s2 Hs2 HB2 HF2.
  replace (fb + (file_cost bs1 - file_cost bs) + (file_cost (bs ++ q) - file_cost bs1)) with fb' in * by (unfold fb'; lia).
  apply (HQ v2 ad2); [done|done|by eapply frame_trans].
Qed.

(** ** The whole image *)

Definition total (cs : list (Z * list Z)) : Z := foldr (fun c a => file_cost c.2 + a) 0 cs.

Lemma total_app cs cs' : total (cs ++ cs') = total cs + total cs'.
Proof. unfold total. induction cs as [|c cs IH]; [done|]. cbn [foldr app]. rewrite IH. lia. Qed.

Lemma total_insert cs k t bs t' bs' : cs !! k = Some (t, bs) ->
  total (<[k := (t', bs')]> cs) = total cs + (file_cost bs' - file_cost bs).
Proof.
  revert k. induction cs as [|c cs IH]; intros [|k] Hk; [done|done|injection Hk as ->; cbn; lia|].
  change (file_cost c.2 + total (<[k := (t', bs')]> cs) = file_cost c.2 + total cs + (file_cost bs' - file_cost bs)).
  rewrite (IH k Hk). lia.
Qed.

(** Inode [1 + k] has the type and the contents of [cs !! k] and the blocks of
    [ads !! k]; [fb] blocks are used. *)
Record image (cs : list (Z * list Z)) (ads : list (list Z)) (v : Z -> list Z) (fb : Z) : Prop := {
  im_map : full_map v;
  im_lens : forall x, 0 <= x < 1000 -> length (v x) = 512%nat;
  im_fresh : forall x, fb <= x < 1000 -> v x = zeroes;
  im_fb : fb = 59 + total cs;
  im_range : 59 <= fb <= 1000;
  im_num : (length cs <= 199)%nat;
  im_sb : v 1 = sb_block SB;
  im_log : v 2 = zeroes;
  im_ads : length ads = length cs;
  im_types : forall k t bs, cs !! k = Some (t, bs) -> 0 < t < 2 ^ 15;
  im_inodes : forall k t bs ad, cs !! k = Some (t, bs) -> ads !! k = Some ad ->
    dinode_at SB v (1 + Z.of_nat k) = mkdinode t 0 0 1 (len bs) ad;
  im_files : forall k t bs ad, cs !! k = Some (t, bs) -> ads !! k = Some ad -> built v fb ad bs;
  im_disj : forall k k' ad ad' x, ads !! k = Some ad -> ads !! k' = Some ad' -> owns v ad x -> owns v ad' x -> k = k';
}.

(** A file that is not touched. *)
Lemma built_frame v fb ad bs v' fb' :
  built v fb ad bs -> full_map v' -> (forall x, 0 <= x < 1000 -> length (v' x) = 512%nat) ->
  (forall x, fb' <= x < 1000 -> v' x = zeroes) -> fb <= fb' <= 1000 ->
  (forall x, owns v ad x -> v' x = v x) -> built v' fb' ad bs /\ forall x, owns v' ad x <-> owns v ad x.
Proof.
  intros [Hm Hln Hfr Hf Hn Hwf Ho Hh Hi Hs Hb] Hm' Hln' Hfr' Hle Hsame.
  assert (Hind : ind_of ad <> 0 -> v' (ind_of ad) = v (ind_of ad)) by (intros Hne; by apply Hsame, owns_ind).
  assert (Hpt : forall b, bptr v' ad b = bptr v ad b) by (intros b; by apply bptr_ext).
  assert (Hown : forall x, owns v' ad x <-> owns v ad x) by (intros x; by apply owns_ext).
  split; [|done]. split; try done; try lia.
  - eapply wf_file_ext; [done|done|]. intros x Hx _. apply Ho in Hx. apply full_marked; [done|lia].
  - intros x Hx. apply Hown, Ho in Hx. lia.
  - intros bn Hbn. rewrite Hpt. by apply Hh.
  - intros j Hj. destruct (byte_block j _ Hj) as [Hq _]. unfold fbyte. rewrite Hpt, Hsame; [by apply Hb|].
    apply owns_bptr; [lia|]. apply Hh; lia.
Qed.

Lemma iblk_small n : 0 <= n < 200 -> 32 <= iblk SB n < 58.
Proof.
  intros Hn. unfold iblk. cbn [sb_inodestart mkfs_sb]. pose proof (Z.div_pos n 8 ltac:(lia) ltac:(lia)).
  pose proof (Z.div_lt_upper_bound n 8 26 ltac:(lia) ltac:(lia)). lia.
Qed.

(** winode() sets one inode. *)
Definition set_inode (v : Z -> list Z) (n : Z) (di : dinode) : Z -> list Z :=
  tset v (iblk SB n) (put_dinode (v (iblk SB n)) (dinode_off n) di).

Lemma dinode_at_set v n di n' : length (v (iblk SB n)) = 512%nat -> dinode_ok di -> 0 <= n -> 0 <= n' ->
  dinode_at SB (set_inode v n di) n' = if n' =? n then di else dinode_at SB v n'.
Proof.
  intros Hl Hok Hn Hn'. pose proof (dinode_off_bound n). pose proof (dk_addrs _ Hok) as Ha. unfold dinode_at, set_inode.
  destruct (Z.eqb_spec n' n) as [->|Hne]; [rewrite tset_same; apply get_put_dinode; [done|lia]|].
  destruct (decide (iblk SB n' = iblk SB n)) as [E|E]; [|by rewrite tset_other].
  rewrite E, tset_same. apply get_put_dinode_other; [done|lia|].
  unfold iblk in E. unfold dinode_off, IPB. pose proof (Z.div_mod n 8 ltac:(lia)). pose proof (Z.div_mod n' 8 ltac:(lia)).
  pose proof (Z.mod_pos_bound n 8 ltac:(lia)). pose proof (Z.mod_pos_bound n' 8 ltac:(lia)).
  destruct (decide (n mod 8 < n' mod 8)); [right|left]; lia.
Qed.

Lemma set_inode_other v n di x : x <> iblk SB n -> set_inode v n di x = v x.
Proof. apply tset_other. Qed.

Lemma IBLOCK_small n : 0 <= n < 200 -> IBLOCK n SB = iblk SB n.
Proof.
  intros Hn. unfold IBLOCK, IPB. rewrite Z.quot_div_nonneg by lia. cbn [sb_inodestart mkfs_sb].
  pose proof (iblk_small n Hn) as Hi. unfold iblk in *. cbn [sb_inodestart mkfs_sb] in *. rewrite Z.add_comm. apply u32_small. lia.
Qed.

Lemma mwp_rinode v fi fb s n (Q : dinode -> mkst -> Prop) :
  sees v fi fb s -> 0 <= n < 200 -> Q (dinode_at SB v n) s -> mwp (rinode n) s Q.
Proof.
  intros Hs Hn HQ. pose proof (iblk_small n Hn). unfold rinode. apply mwp_bind, mwp_gets.
  rewrite (se_sb _ _ _ _ Hs), IBLOCK_small by done. apply mwp_bind, (mwp_rsect Hs); [lia|lia|]. by apply mwp_ret.
Qed.

Lemma mwp_winode v fi fb s n di (Q : unit -> mkst -> Prop) :
  sees v fi fb s -> 0 <= n < 200 -> (forall s', sees (set_inode v n di) fi fb s' -> Q tt s') -> mwp (winode n di) s Q.
Proof.
  intros Hs Hn HQ. pose proof (iblk_small n Hn). unfold winode. apply mwp_bind, mwp_gets.
  rewrite (se_sb _ _ _ _ Hs), IBLOCK_small by done. apply mwp_bind, (mwp_rsect Hs); [lia|lia|].
  apply (mwp_wsect Hs); [lia|]. apply HQ.
Qed.

Lemma built_dinode v fb ad bs t : built v fb ad bs -> 0 < t < 2 ^ 15 -> dinode_ok (mkdinode t 0 0 1 (len bs) ad).
Proof.
  intros HB Ht. pose proof (bk_wf _ _ _ _ _ _ HB) as Hwf. pose proof (wf_len _ _ _ Hwf) as Hl.
  pose proof (bk_fits _ _ _ _ _ _ HB). pose proof (bk_nb _ _ _ _ _ _ HB). fold (len bs) in *.
  split; cbn [d_type d_major d_minor d_nlink d_size d_addrs].
  - repeat constructor; lia.
  - unfold len in *. lia.
  - done.
  - apply Forall_lookup. intros j w Hw. pose proof (lookup_lt_Some _ _ _ Hw) as Hj.
    destruct (decide (j = 12)%nat) as [->|Hne].
    + pose proof (ind_small HB) as Hi. unfold ind_of in Hi. rewrite Hw in Hi. cbn in Hi. lia.
    + pose proof (bptr_small HB (Z.of_nat j) ltac:(lia)) as Hi. unfold bptr in Hi.
      destruct (Z.ltb_spec (Z.of_nat j) 12); [|lia]. rewrite Nat2Z.id, Hw in Hi. cbn in Hi. lia.
Qed.

Lemma num_small (cs : list (Z * list Z)) k : (length cs <= 199)%nat -> (k < length cs)%nat -> 0 <= 1 + Z.of_nat k < 200.
Proof. lia. Qed.

(** The inode table and the files do not overlap. *)
Lemma built_set_inode v fb ad bs n di : 0 <= n < 200 -> (length (put_dinode (v (iblk SB n)) (dinode_off n) di) = 512)%nat ->
  built v fb ad bs -> built (set_inode v n di) fb ad bs /\ forall x, owns (set_inode v n di) ad x <-> owns v ad x.
Proof.
  intros Hn Hl HB. pose proof (iblk_small n Hn). pose proof HB as [Hm Hln Hfr Hf _ _ Ho _ _ _ _].
  eapply built_frame; [done|..].
  - unfold full_map. by rewrite set_inode_other by lia.
  - intros x Hx. unfold set_inode, tset. destruct (Z.eqb_spec x (iblk SB n)); [done|by apply Hln].
  - intros x Hx. rewrite set_inode_other by lia. by apply Hfr.
  - lia.
  - intros x Hx. apply Ho in Hx. apply set_inode_other. lia.
Qed.

Section Update.
Context {cs : list (Z * list Z)} {ads : list (list Z)} {v : Z -> list Z} {fb : Z} (HI : image cs ads v fb).
Context {k : nat} {t : Z} {bs ad : list Z} (Hk : cs !! k = Some (t, bs)) (Ha : ads !! k = Some ad).
Context {v1 : Z -> list Z} {fb1 : Z} {ad1 bs1 : list Z}.
Context (HB1 : built v1 fb1 ad1 bs1) (HF : frame v fb ad v1 fb1 ad1) (Hfb1 : fb1 = fb + (file_cost bs1 - file_cost bs)).

(** Another file is not touched when file [k] grows. *)
Lemma update_other k' t' bs' ad' : cs !! k' = Some (t', bs') -> ads !! k' = Some ad' -> k' <> k ->
  built v1 fb1 ad' bs' /\ forall x, owns v1 ad' x <-> owns v ad' x.
Proof.
  intros Hk' Ha' Hne. pose proof HB1 as [Hm Hln Hfr Hf _ _ _ _ _ _ _]. destruct HF as [Hle Hnew Hrest Htop].
  pose proof (im_files _ _ _ _ HI k' t' bs' ad' Hk' Ha') as HB'.
  eapply built_frame; [done|done|done|done|lia|]. intros x Hx.
  pose proof (bk_own _ _ _ _ _ _ HB' x Hx). apply Hrest; [lia|]. intros Hx'. apply Hne. by eapply (im_disj _ _ _ _ HI).
Qed.

Let n := 1 + Z.of_nat k.
Let di := mkdinode t 0 0 1 (len bs1) ad1.

Lemma update_num : 0 <= n < 200.
Proof. apply (num_small cs); [apply HI|by eapply lookup_lt_Some]. Qed.

Lemma update_ok : dinode_ok di.
Proof. eapply built_dinode; [done|by eapply (im_types _ _ _ _ HI)]. Qed.

Lemma update_len : length (put_dinode (v1 (iblk SB n)) (dinode_off n) di) = 512%nat.
Proof.
  pose proof (iblk_small _ update_num). pose proof (dinode_off_bound n).
  pose proof (bk_len _ _ _ _ _ _ HB1 (iblk SB n) ltac:(lia)). rewrite length_put_dinode; [done|apply update_ok|lia].
Qed.

Lemma update_keep x : 0 <= x < 59 -> v1 x = v x.
Proof.
  intros Hx. apply (fr_rest _ _ _ _ _ _ HF); [pose proof (im_range _ _ _ _ HI); lia|].
  intros Hox%(bk_own _ _ _ _ _ _ (im_files _ _ _ _ HI _ _ _ _ Hk Ha)). lia.
Qed.

(** Whose a block is after the change. *)
Lemma update_owns k' ad' x : <[k := ad1]> ads !! k' = Some ad' -> owns (set_inode v1 n di) ad' x ->
  k' = k /\ owns v1 ad1 x \/ k' <> k /\ exists t' bs', cs !! k' = Some (t', bs') /\ ads !! k' = Some ad' /\ owns v ad' x.
Proof.
  pose proof (lookup_lt_Some _ _ _ Ha) as Hlta. intros Hk'. destruct (decide (k' = k)) as [->|Hne].
  - rewrite list_lookup_insert_eq in Hk' by done. injection Hk' as <-.
    intros Hx. left. split; [done|]. by apply (built_set_inode v1 fb1 ad1 bs1 n di update_num update_len HB1).
  - rewrite list_lookup_insert_ne in Hk' by done. intros Hx. right. split; [done|].
    destruct (lookup_lt_is_Some_2 cs k') as [[t' bs'] Hc]; [rewrite <- (im_ads _ _ _ _ HI); by eapply lookup_lt_Some|].
    exists t', bs'. split; [done|]. split; [done|]. destruct (update_other k' t' bs' ad' Hc Hk' Hne) as [HB' E].
    apply E. by apply (built_set_inode v1 fb1 ad' bs' n di update_num update_len HB').
Qed.

Lemma update_disj k1 k2 a1 a2 x : <[k := ad1]> ads !! k1 = Some a1 -> <[k := ad1]> ads !! k2 = Some a2 ->
  owns (set_inode v1 n di) a1 x -> owns (set_inode v1 n di) a2 x -> k1 = k2.
Proof.
  intros H1 H2 O1 O2. destruct HI as [_ _ _ _ _ _ _ _ _ _ _ Hfil Hdj]. pose proof (fr_new _ _ _ _ _ _ HF) as Hnew.
  destruct (update_owns _ _ _ H1 O1) as [[-> P1]|[N1 (? & ? & C1 & A1 & P1)]], (update_owns _ _ _ H2 O2) as [[-> P2]|[N2 (? & ? & C2 & A2 & P2)]]; [done|..].
  - destruct (Hnew _ P1); [|pose proof (bk_own _ _ _ _ _ _ (Hfil _ _ _ _ C2 A2) _ P2); lia]. by eapply Hdj.
  - destruct (Hnew _ P2); [|pose proof (bk_own _ _ _ _ _ _ (Hfil _ _ _ _ C1 A1) _ P1); lia]. by eapply Hdj.
  - by eapply Hdj.
Qed.

Lemma image_grow : image (<[k := (t, bs1)]> cs) (<[k := ad1]> ads) (set_inode v1 n di) fb1.
Proof.
  pose proof HB1 as [Hm Hln Hfr Hf _ Hwf Ho _ _ _ _].
  pose proof (lookup_lt_Some _ _ _ Hk) as Hlt. pose proof (lookup_lt_Some _ _ _ Ha) as Hlta.
  pose proof update_num as Hn. pose proof (iblk_small _ Hn) as Hib.
  pose proof (Hln (iblk SB n) ltac:(lia)) as Hl. pose proof update_ok as Hok. pose proof update_len as Hpl.
  split; try done.
  - unfold full_map. by rewrite set_inode_other by lia.
  - intros x Hx. unfold set_inode, tset. destruct (Z.eqb_spec x (iblk SB n)); [done|by apply Hln].
  - intros x Hx. rewrite set_inode_other by lia. by apply Hfr.
  - rewrite (total_insert cs k t bs) by done. pose proof (im_fb _ _ _ _ HI). lia.
  - rewrite length_insert. apply HI.
  - rewrite set_inode_other, update_keep by lia. apply (im_sb _ _ _ _ HI).
  - rewrite set_inode_other, update_keep by lia. apply (im_log _ _ _ _ HI).
  - rewrite !length_insert. apply HI.
  - intros k' t' bs' Hk'. destruct (decide (k' = k)) as [->|Hne].
    + rewrite list_lookup_insert_eq in Hk' by done. injection Hk' as <- <-. by eapply (im_types _ _ _ _ HI).
    + rewrite list_lookup_insert_ne in Hk' by done. by eapply (im_types _ _ _ _ HI).
  - intros k' t' bs' ad' Hk' Ha'. rewrite dinode_at_set by (done || lia).
    destruct (decide (k' = k)) as [->|Hne].
    + rewrite list_lookup_insert_eq in Hk' by done. rewrite list_lookup_insert_eq in Ha' by done.
      injection Hk' as <- <-. injection Ha' as <-. fold n. by rewrite Z.eqb_refl.
    + rewrite list_lookup_insert_ne in Hk' by done. rewrite list_lookup_insert_ne in Ha' by done.
      destruct (Z.eqb_spec (1 + Z.of_nat k') n); [lia|].
      rewrite <- (im_inodes _ _ _ _ HI k' t' bs' ad' Hk' Ha'). unfold dinode_at. rewrite update_keep; [done|].
      pose proof (lookup_lt_Some _ _ _ Hk'). pose proof (im_num _ _ _ _ HI). pose proof (iblk_small (1 + Z.of_nat k') ltac:(lia)). lia.
  - intros k' t' bs' ad' Hk' Ha'. apply built_set_inode; [done|done|]. destruct (decide (k' = k)) as [->|Hne].
    + rewrite list_lookup_insert_eq in Hk' by done. rewrite list_lookup_insert_eq in Ha' by done.
      by injection Hk' as <- <-; injection Ha' as <-.
    + rewrite list_lookup_insert_ne in Hk' by done. rewrite list_lookup_insert_ne in Ha' by done. by apply (update_other k' t' bs' ad').
  - apply update_disj.
Qed.
End Update.

Definition img_rel (cs : list (Z * list Z)) (s : mkst) : Prop :=
  exists v ads fb, sees v (1 + Z.of_nat (length cs)) fb s /\ image cs ads v fb.

Lemma mwp_iappend cs s k t bs p (Q : unit -> mkst -> Prop) :
  img_rel cs s -> cs !! k = Some (t, bs) -> len bs + len p <= 140 * 512 ->
  59 + total (<[k := (t, bs ++ p)]> cs) <= 1000 ->
  (forall s', img_rel (<[k := (t, bs ++ p)]> cs) s' -> Q tt s') -> mwp (iappend (1 + Z.of_nat k) p) s Q.
Proof.
  intros (v & ads & fb & Hs & HI) Hk Hsz Htot HQ. rewrite (total_insert cs k t bs) in Htot by done.
  pose proof (lookup_lt_Some _ _ _ Hk) as Hlt. pose proof (num_small cs k (im_num _ _ _ _ HI) Hlt) as Hn.
  destruct (lookup_lt_is_Some_2 ads k) as [ad Ha]; [rewrite (im_ads _ _ _ _ HI); done|].
  pose proof (im_files _ _ _ _ HI _ _ _ _ Hk Ha) as HB. pose proof (im_fb _ _ _ _ HI) as Hfb.
  unfold iappend. apply mwp_bind. eapply mwp_rinode; [done|done|]. rewrite (im_inodes _ _ _ _ HI _ _ _ _ Hk Ha).
  cbn [d_size]. rewrite xint_small by (unfold len in *; lia). apply mwp_bind.
  eapply mwp_iappend_loop; [exact Hs|exact HB|done|done|lia|]. intros v1 ad1 s1 Hs1 HB1 HF1.
  cbn [with_addrs d_type d_major d_minor d_nlink d_addrs]. rewrite xint_small by (rewrite len_app; unfold len in *; lia).
  eapply mwp_winode; [done|done|]. intros s2 Hs2. apply HQ. eexists _, _, _. split; [by rewrite length_insert|].
  by eapply (image_grow HI Hk Ha HB1).
Qed.

(** ** A new inode *)

Lemma empty_bptr v bn : bptr v (replicate 13 0) bn = 0.
Proof.
  unfold bptr. change (ind_of (replicate 13 0)) with 0. destruct (bn <? 12); [|done].
  destruct (decide (Z.to_nat bn < 13)%nat); [by rewrite lookup_replicate_2|].
  by rewrite lookup_ge_None_2 by (rewrite length_replicate; lia).
Qed.

Lemma empty_owns v x : ~ owns v (replicate 13 0) x.
Proof. intros [Hx [->|(bn & _ & <-)]]; [done|]. by rewrite empty_bptr in Hx. Qed.

Lemma empty_built v fb : full_map v -> (forall x, 0 <= x < 1000 -> length (v x) = 512%nat) ->
  (forall x, fb <= x < 1000 -> v x = zeroes) -> 59 <= fb <= 1000 -> built v fb (replicate 13 0) [].
Proof.
  intros Hm Hl Hf Hr. split; try done; try (change (nb_of (len [])) with 0); try lia.
  - split; [done|..].
    + by intros x Hx%empty_owns.
    + intros bn bn' _ _ Hne. by rewrite empty_bptr in Hne.
    + intros bn _ Hne. by rewrite empty_bptr in Hne.
  - by intros x Hx%empty_owns.
  - intros bn Hbn. rewrite empty_bptr. split; [done|lia].
Qed.

Section New.
Context {cs : list (Z * list Z)} {ads : list (list Z)} {v : Z -> list Z} {fb : Z} (HI : image cs ads v fb).
Context (t : Z) (Ht : 0 < t < 2 ^ 15) (Hroom : (length cs < 199)%nat).
Let n := 1 + Z.of_nat (length cs).
Let ad := replicate 13 0.
Let di := mkdinode t 0 0 1 0 ad.

Lemma new_built : built v fb ad [].
Proof. apply empty_built; apply HI. Qed.

Lemma new_len : length (put_dinode (v (iblk SB n)) (dinode_off n) di) = 512%nat.
Proof.
  pose proof (iblk_small n ltac:(lia)). pose proof (dinode_off_bound n).
  pose proof (im_lens _ _ _ _ HI (iblk SB n) ltac:(lia)). rewrite length_put_dinode; [done|done|lia].
Qed.

Lemma new_lookup {A} (l : list A) (y : A) k x : (l ++ [y]) !! k = Some x -> l !! k = Some x /\ (k < length l)%nat \/ k = length l /\ x = y.
Proof.
  intros Hk. apply lookup_app_Some in Hk as [Hk|[Hge Hk]]; [left; split; [done|by eapply lookup_lt_Some]|].
  right. apply list_lookup_singleton_Some in Hk as [E <-]. split; [lia|done].
Qed.

Lemma image_new : image (cs ++ [(t, [])]) (ads ++ [ad]) (set_inode v n di) fb.
Proof.
  pose proof new_built as HB. pose proof (iblk_small n ltac:(lia)) as Hib. pose proof (im_range _ _ _ _ HI) as Hr.
  pose proof (im_lens _ _ _ _ HI (iblk SB n) ltac:(lia)) as Hl. pose proof new_len as Hpl. pose proof (im_ads _ _ _ _ HI) as Hads.
  pose proof (fun ad' bs' => built_set_inode v fb ad' bs' n di ltac:(lia) Hpl) as Hset.
  split; [| | | |done|rewrite length_app; cbn; lia|rewrite set_inode_other by lia; apply (im_sb _ _ _ _ HI)
         |rewrite set_inode_other by lia; apply (im_log _ _ _ _ HI)|rewrite !length_app, Hads; done|..].
  - unfold full_map. rewrite set_inode_other by lia. apply HI.
  - intros x Hx. unfold set_inode, tset. destruct (Z.eqb_spec x (iblk SB n)); [done|by apply HI].
  - intros x Hx. rewrite set_inode_other by lia. by apply HI.
  - rewrite total_app. cbn [total foldr snd]. change (file_cost []) with 0. pose proof (im_fb _ _ _ _ HI). lia.
  - intros k t' bs' [[Hk _]|[_ [= -> _]]]%new_lookup; [by eapply (im_types _ _ _ _ HI)|done].
  - intros k t' bs' ad' Hk Ha. rewrite dinode_at_set; [|done|by apply (built_dinode v fb ad [])|lia|lia].
    apply new_lookup in Hk as [[Hk ?]|[-> [= -> ->]]]; apply new_lookup in Ha as [[Ha ?]|[? ->]]; try lia.
    + destruct (Z.eqb_spec (1 + Z.of_nat k) n); [lia|]. by apply HI.
    + fold n. by rewrite Z.eqb_refl.
  - intros k t' bs' ad' Hk Ha. apply Hset.
    apply new_lookup in Hk as [[Hk ?]|[-> [= -> ->]]]; apply new_lookup in Ha as [[Ha ?]|[? ->]]; try lia; [|done].
    by eapply (im_files _ _ _ _ HI).
  - assert (Hold : forall k ad' x, ads !! k = Some ad' -> owns (set_inode v n di) ad' x -> owns v ad' x).
    { intros k ad' x Hk. destruct (lookup_lt_is_Some_2 cs k) as [[t' bs'] Hc]; [rewrite <- Hads; by eapply lookup_lt_Some|].
      by apply (Hset ad' bs'), (im_files _ _ _ _ HI k t'). }
    intros k1 k2 a1 a2 x [[H1 ?]|[-> ->]]%new_lookup [[H2 ?]|[-> ->]]%new_lookup O1 O2; try done.
    + eapply (im_disj _ _ _ _ HI); eauto.
    + by apply empty_owns in O2.
    + by apply empty_owns in O1.
Qed.
End New.

Lemma mwp_ialloc cs s t (Q : Z -> mkst -> Prop) :
  img_rel cs s -> t = T_DIR \/ t = T_FILE -> (length cs < 199)%nat ->
  (forall s', img_rel (cs ++ [(t, [])]) s' -> Q (1 + Z.of_nat (length cs)) s') -> mwp (ialloc t) s Q.
Proof.
  intros (v & ads & fb & Hs & HI) Ht Hroom HQ. unfold ialloc. apply mwp_bind, mwp_gets. rewrite (se_fi _ _ _ _ Hs).
  set (n := 1 + Z.of_nat (length cs)).
  assert (Hs1 : sees v (n + 1) fb (s <| freeinode ::= fun n => u32 (n + 1) |>)).
  { destruct Hs as [H1 H2 H3 H4 H5]. split; try done. cbn. rewrite H4, u32_small; unfold n; lia. }
  apply mwp_bind, mwp_modS.
  apply mwp_bind. eapply mwp_winode; [exact Hs1|lia|]. intros s2 Hs2. apply mwp_ret, HQ.
  replace (s16 (xshort t)) with t in Hs2 by (by destruct Ht as [->| ->]).
  eexists _, _, _. split; [|eapply (image_new HI t); [by destruct Ht as [->| ->]|done]].
  rewrite length_app. replace (1 + Z.of_nat (length cs + length [(t, [] : list Z)])) with (n + 1) by (unfold n; cbn; lia). exact Hs2.
Qed.
