(* ===== verification/MkfsSpec.v ===== *)
(** * What mkfs builds is a file system the kernel accepts (src/mkfs.c)

    The image of mkfs satisfies what the theorems on src/fs.c assume of a disk: the
    layout of the super block, the free map, a root directory with an entry per
    file, and the contents of every file. *)

From stdpp Require Import prelude gmap strings list.
From Stdlib Require Import ZArith Lia.
From S2P Require Import Ide Strings Prelude Sleeplock Bio BioSpec Layout Log LogSpec Store Fs FsLogic FsAlloc FsFile FsInode FsIO FsDir FsPath FsWitness Mkfs MkfsBuild.

(** ** What is to be built *)

(** A file for the image: its name on the host and its contents. *)
Abbreviation hfile := (list Z * list Z)%type.

Definition dname (f : hfile) : list Z := take 14 (skip_ f.1).
Definition file_ents (fs : list hfile) : list dent := imap (fun k f => (2 + Z.of_nat k, dname f)) fs.
Definition root_entries (fs : list hfile) : list dent := (1, [46]) :: (1, [46; 46]) :: file_ents fs.

Definition inodes_of (fs : list hfile) : list (Z * list Z) :=
  (T_DIR, dir_bytes (root_entries fs)) :: ((fun f => (T_FILE, f.2)) <$> fs).

Record file_fits (f : hfile) : Prop := {
  ff_name : Forall (fun x => 0 < x < 256) f.1;
  ff_slash : Forall (fun x => x <> 47) f.1;
  ff_bytes : Forall (fun x => 0 <= x < 256) f.2;
  ff_size : len f.2 <= 140 * 512;
}.

(** The files fit on the disk. *)
Record fits (fs : list hfile) : Prop := {
  ft_files : Forall file_fits fs;
  ft_inodes : (length fs <= 198)%nat;
  ft_blocks : 59 + total (inodes_of fs) <= 1000;
}.

Lemma file_cost_nonneg bs : 0 <= file_cost bs.
Proof.
  unfold file_cost, cost_of, nb_of, len. pose proof (Z.div_pos (Z.of_nat (length bs) + 511) 512 ltac:(lia) ltac:(lia)).
  destruct (12 <? _); lia.
Qed.

Lemma total_nonneg cs : 0 <= total cs.
Proof. unfold total. induction cs as [|c cs IH]; [done|]. cbn [foldr]. pose proof (file_cost_nonneg c.2). lia. Qed.

Lemma length_root fs : length (root_entries fs) = (2 + length fs)%nat.
Proof. unfold root_entries, file_ents. cbn [length]. by rewrite length_imap. Qed.

Lemma root_snoc fs f : root_entries (fs ++ [f]) = root_entries fs ++ [(2 + Z.of_nat (length fs), dname f)].
Proof.
  unfold root_entries, file_ents. rewrite imap_app. cbn [app imap compose]. unfold compose. rewrite Nat.add_0_r. done.
Qed.

Lemma root_size fs : len (dir_bytes (root_entries fs)) = 16 * (2 + Z.of_nat (length fs)).
Proof. unfold len. rewrite length_dir_bytes, length_root. lia. Qed.

Lemma total_cons t bs cs : total ((t, bs) :: cs) = file_cost bs + total cs.
Proof. done. Qed.

Lemma total_inodes fs : total (inodes_of fs) = file_cost (dir_bytes (root_entries fs)) + total ((fun f => (T_FILE, f.2)) <$> fs).
Proof. done. Qed.

Lemma total_prefix fs fs' : total (inodes_of fs) <= total (inodes_of (fs ++ fs')).
Proof.
  rewrite !total_inodes, fmap_app, total_app. pose proof (total_nonneg ((fun f : hfile => (T_FILE, f.2)) <$> fs')).
  pose proof (file_cost_mono (dir_bytes (root_entries fs)) (dir_bytes (root_entries (fs ++ fs')))
    ltac:(rewrite !root_size, length_app; lia)). lia.
Qed.

Lemma inodes_snoc fs f :
  <[S (length fs) := (T_FILE, f.2)]> ((T_DIR, dir_bytes (root_entries fs) ++ enc (2 + Z.of_nat (length fs), dname f)) ::
    ((fun f => (T_FILE, f.2)) <$> fs) ++ [(T_FILE, [])]) = inodes_of (fs ++ [f]).
Proof.
  unfold inodes_of. rewrite root_snoc, dir_bytes_app, fmap_app. set (e := (2 + Z.of_nat (length fs), dname f)).
  replace (dir_bytes [e]) with (enc e) by (symmetry; exact (app_nil_r (enc e))).
  set (l := (fun f : hfile => (T_FILE, f.2)) <$> fs).
  set (r := (T_DIR, _)). change (r :: <[length fs := (T_FILE, f.2)]> (l ++ [(T_FILE, [])]) = r :: l ++ [(T_FILE, f.2)]). f_equal.
  assert (El : length fs = (length l + 0)%nat) by (unfold l; rewrite length_fmap; lia). rewrite El, insert_app_r. done.
Qed.

(** ** One file *)

Lemma mwp_copy_file fuel cs s k t bs rest (Q : unit -> mkst -> Prop) :
  img_rel cs s -> cs !! k = Some (t, bs) -> (length rest <= fuel)%nat -> len bs + len rest <= 140 * 512 ->
  59 + total (<[k := (t, bs ++ rest)]> cs) <= 1000 ->
  (forall s', img_rel (<[k := (t, bs ++ rest)]> cs) s' -> Q tt s') ->
  mwp (copy_file fuel (1 + Z.of_nat k) rest) s Q.
Proof.
  revert cs s bs rest. induction fuel as [|fuel IH]; intros cs s bs rest Hr Hk Hf Hsz Htot HQ;
    (destruct rest as [|x rest]; [apply mwp_ret, HQ; rewrite app_nil_r, list_insert_id by done; done|]).
  { cbn in Hf. lia. }
  cbn [copy_file]. set (q := x :: rest) in *. change (Z.to_nat BSIZE) with 512%nat.
  pose proof (lookup_lt_Some _ _ _ Hk) as Hlt.
  assert (Happ : (bs ++ take 512 q) ++ drop 512 q = bs ++ q) by (by rewrite <- app_assoc, take_drop).
  assert (Hlen : len (take 512 q) + len (drop 512 q) = len q) by (rewrite <- len_app; by rewrite take_drop).
  assert (Hd : 0 <= len (drop 512 q)) by (unfold len; lia).
  rewrite (total_insert cs k t bs) in Htot by done.
  pose proof (file_cost_mono (bs ++ take 512 q) (bs ++ q) ltac:(rewrite !len_app; lia)).
  apply mwp_bind. eapply mwp_iappend; [done|done|lia|rewrite (total_insert cs k t bs) by done; lia|].
  intros s1 Hr1. eapply IH; [done|by apply list_lookup_insert_eq|unfold q in *; rewrite length_drop; cbn [length] in *; lia
    |rewrite len_app; lia| |].
  - rewrite Happ, list_insert_insert_eq, (total_insert cs k t bs) by done. lia.
  - intros s2. rewrite Happ, list_insert_insert_eq. apply HQ.
Qed.

Lemma field_take k str : field k (take k str) = field k str.
Proof. unfold field. rewrite take_take, Nat.min_id, length_take. f_equal. f_equal. lia. Qed.

Lemma xshort_small x : 0 <= x < 2 ^ 16 -> xshort (u16 x) = x.
Proof.
  intros Hx. unfold u16. rewrite Z.mod_small by lia.
  rewrite <- (of_to_bytes_small 2 x) at 2 by (change (256 ^ Z.of_nat 2) with (2 ^ 16); lia).
  unfold xshort. cbn [to_bytes]. rewrite Z.shiftr_div_pow2 by lia. done.
Qed.

Lemma mwp_entry n name str s (Q : list Z -> mkst -> Prop) :
  0 <= n < 2 ^ 16 -> name = Some (field 14 str) -> Q (enc (n, str)) s -> mwp (entry_bytes n name) s Q.
Proof. intros Hn -> HQ. unfold entry_bytes. apply mwp_bind, mwp_ret. rewrite xshort_small by done. by apply mwp_ret. Qed.

Lemma skip_name name : Forall (fun x => 0 < x < 256) name -> Forall (fun x => 0 < x < 256) (skip_ name).
Proof.
  intros Hn. destruct name as [|x name]; [done|]. apply Forall_cons in Hn as [Hx Hn]. unfold skip_.
  repeat match goal with |- context [match ?y with _ => _ end] => destruct y; try by constructor end; done.
Qed.

Lemma entry_name f : Forall (fun x => 0 < x < 256) f.1 -> strncpy cleared (skip_ f.1 ++ [0]) DIRSIZ = Some (field 14 (dname f)).
Proof.
  intros Hn. unfold dname. rewrite field_take. apply (strncpy_field cleared). split; [|by exists []].
  eapply Forall_impl; [by apply skip_name|]. cbn. lia.
Qed.

Lemma slash_free name : Forall (fun x => x <> 47) name -> negb (existsb (Z.eqb 47) name) = true.
Proof.
  intros Hn. apply negb_true_iff. apply not_true_iff_false. intros (x & Hx%list_elem_of_In & E)%existsb_exists.
  apply Z.eqb_eq in E. rewrite Forall_forall in Hn. by apply (Hn x Hx).
Qed.

Section Add.
Context (host : list Z -> option (list Z)).

Lemma mwp_add_file fs f s (Q : unit -> mkst -> Prop) :
  img_rel (inodes_of fs) s -> host f.1 = Some f.2 -> fits (fs ++ [f]) ->
  (forall s', img_rel (inodes_of (fs ++ [f])) s' -> Q tt s') -> mwp (add_file host 1 f.1) s Q.
Proof.
  intros Hr Hh [Hff Hno Htot] HQ. apply Forall_app in Hff as [_ Hf]. apply Forall_singleton in Hf as [Hnm Hsl Hby Hsz].
  rewrite length_app in Hno. cbn [length] in Hno.
  assert (Hlen : length (inodes_of fs) = S (length fs)) by (unfold inodes_of; cbn [length]; by rewrite length_fmap).
  unfold add_file. rewrite slash_free, Hh by done. cbn [assert_]. apply mwp_bind, mwp_ret, mwp_bind.
  eapply mwp_ialloc; [exact Hr|by right|lia|]. intros s1 Hr1. rewrite Hlen in *.
  apply mwp_bind. eapply (mwp_entry _ _ (dname f)); [lia|by apply entry_name|].
  assert (Hnum : 1 + Z.of_nat (S (length fs)) = 2 + Z.of_nat (length fs)) by lia. rewrite Hnum. set (de := enc _).
  rewrite total_inodes, root_snoc, dir_bytes_app, fmap_app, total_app in Htot.
  assert (Hde : dir_bytes [(2 + Z.of_nat (length fs), dname f)] = de) by exact (app_nil_r de). rewrite Hde in Htot.
  assert (Hlde : len de = 16) by (unfold len, de; by rewrite length_enc).
  assert (Hcost : total ((fun f : hfile => (T_FILE, f.2)) <$> [f]) = file_cost f.2) by (cbn; lia). rewrite Hcost in Htot.
  pose proof (file_cost_nonneg f.2). pose proof (root_size fs).
  apply mwp_bind. change 1 with (1 + Z.of_nat 0) at 1. eapply mwp_iappend; [exact Hr1|done|lia| |].
  { unfold inodes_of. cbn [insert list_insert app]. rewrite total_cons, total_app, total_cons. change (file_cost []) with 0. change (total []) with 0. lia. }
  intros s2 Hr2. unfold inodes_of in Hr2. cbn [insert list_insert app] in Hr2.
  rewrite <- Hnum.
  eapply (mwp_copy_file _ _ _ _ T_FILE []); [exact Hr2| |done|change (len []) with 0; lia| |].
  - change ((((fun f : hfile => (T_FILE, f.2)) <$> fs) ++ [(T_FILE, [])]) !! length fs = Some (T_FILE, [])).
    apply list_lookup_middle. by rewrite length_fmap.
  - rewrite app_nil_l, inodes_snoc. rewrite total_inodes, root_snoc, dir_bytes_app, fmap_app, total_app, Hde, Hcost. lia.
  - intros s3 Hr3. rewrite app_nil_l, inodes_snoc in Hr3. by apply HQ.
Qed.

Lemma fits_prefix fs fs' : fits (fs ++ fs') -> fits fs.
Proof.
  intros [Hf Hn Ht]. apply Forall_app in Hf as [Hf _]. rewrite length_app in Hn. pose proof (total_prefix fs fs').
  split; [done|lia|lia].
Qed.

Lemma mwp_add_files done todo s (Q : unit -> mkst -> Prop) :
  img_rel (inodes_of done) s -> Forall (fun f => host f.1 = Some f.2) todo -> fits (done ++ todo) ->
  (forall s', img_rel (inodes_of (done ++ todo)) s' -> Q tt s') -> mwp (mfor todo.*1 (add_file host 1)) s Q.
Proof.
  revert done s. induction todo as [|f todo IH]; intros done s Hr Hh Hfit HQ.
  - rewrite app_nil_r in HQ. apply mwp_ret, HQ, Hr.
  - apply Forall_cons in Hh as [Hf Hh]. cbn [fmap list_fmap mfor]. apply mwp_bind.
    assert (E : done ++ f :: todo = (done ++ [f]) ++ todo) by (by rewrite <- app_assoc).
    eapply mwp_add_file; [done|done|rewrite E in Hfit; by eapply fits_prefix|]. intros s1 Hr1.
    apply (IH (done ++ [f])); rewrite <- ?E; done.
Qed.
End Add.

(** ** Before the first file *)

Lemma mwp_zero (n m : nat) s (Q : unit -> mkst -> Prop) : (m + n <= 1000)%nat -> img s = replicate m zeroes ->
  Q tt (s <| img := replicate (m + n) zeroes |>) -> mwp (mfor (seqZ (Z.of_nat m) (Z.of_nat n)) (fun i => wsect i zeroes)) s Q.
Proof.
  revert m s. induction n as [|n IH]; intros m s Hle Hi HQ.
  - apply mwp_ret. rewrite Nat.add_0_r, <- Hi in HQ. by destruct s.
  - rewrite seqZ_cons by lia. cbn [mfor]. apply mwp_bind. unfold wsect. apply mwp_modS. rewrite seek_small by lia. rewrite Nat2Z.id.
    replace (Z.succ (Z.of_nat m)) with (Z.of_nat (S m)) by lia. replace (Z.pred (Z.of_nat (S n))) with (Z.of_nat n) by lia.
    assert (E : (fun l => if (m <? length l)%nat then <[m := zeroes]> l else l ++ replicate (m - length l) zeroes ++ [zeroes]) (img s) =
      replicate (S m) zeroes).
    { rewrite Hi, length_replicate, Nat.ltb_irrefl, Nat.sub_diag. cbn [replicate app]. by rewrite <- replicate_cons_app. }
    apply IH; [lia|exact E|]. replace (S m + n)%nat with (m + S n)%nat by lia. exact HQ.
Qed.

Definition blank (x : Z) : list Z :=
  if x =? 58 then replicate 512 255 else if x =? 1 then sb_block SB else zeroes.

Lemma blank_image : image [] [] blank 59.
Proof.
  split; try done; try (cbn; lia); try (vm_compute; lia).
  - intros x Hx. unfold blank. by destruct (x =? 58), (x =? 1).
  - intros x Hx. unfold blank. destruct (Z.eqb_spec x 58), (Z.eqb_spec x 1); try done; lia.
Qed.

Lemma sb_made : make_sb (FSSIZE - (2 + nlog + ninodeblocks + nbitmap)) = SB.
Proof. reflexivity. Qed.

Lemma blank_sees s : msb s = SB -> freeinode s = 1 -> freeblock s = 59 ->
  img s = <[1%nat := sb_block SB]> (replicate 1000 zeroes) -> sees blank 1 59 s.
Proof.
  intros H1 H2 H3 H4. split; try done; rewrite H4; [by rewrite length_insert, length_replicate|].
  intros x Hx Hne. unfold blank. destruct (Z.eqb_spec x 58); [done|]. destruct (Z.eqb_spec x 1) as [->|].
  - apply list_lookup_insert_eq. by rewrite length_replicate; lia.
  - rewrite list_lookup_insert_ne by lia. apply lookup_replicate_2. lia.
Qed.

(** ** After the last file *)

Lemma bit_mark_used n c : (n <= 4096)%nat -> 0 <= c ->
  bit_of (mark_used n zeroes) c = (c <? Z.of_nat n) /\ length (mark_used n zeroes) = 512%nat.
Proof.
  intros Hn Hc. induction n as [|n IH].
  - split; [|done]. cbn [mark_used]. replace (c <? Z.of_nat 0) with false by (symmetry; apply Z.ltb_ge; lia).
    unfold bit_of, byte_at, aget. destruct (Z.ltb_spec (c / 8) 0); [apply Z.bits_0|].
    destruct (decide (Z.to_nat (c / 8) < 512)%nat); [rewrite zeroes_lookup by lia|rewrite lookup_ge_None_2 by (unfold zeroes; rewrite length_replicate; lia)]; apply Z.bits_0.
  - destruct IH as [IH Hl]; [lia|]. cbn [mark_used]. rewrite Z.quot_div_nonneg, Z.rem_mod_nonneg by lia.
    fold (set_bit (mark_used n zeroes) (Z.of_nat n)). split.
    + rewrite bit_of_set by (done || lia). rewrite IH.
      destruct (Z.eqb_spec c (Z.of_nat n)), (Z.ltb_spec c (Z.of_nat n)), (Z.ltb_spec c (Z.of_nat (S n))); try done; lia.
    + unfold set_bit, set_byte. by rewrite length_insert.
Qed.

(** The size of the root directory in whole blocks. *)
Definition root_blocks (fs : list hfile) : Z := 16 * (2 + Z.of_nat (length fs)) / 512 + 1.

Lemma root_blocks_nb fs : let n := 2 + Z.of_nat (length fs) in
  root_blocks fs = nb_of (16 * n) + (if n mod 32 =? 0 then 1 else 0).
Proof.
  intros n. unfold root_blocks. fold n. pose proof (Z.div_mod (16 * n) 512 ltac:(lia)).
  replace ((16 * n) mod 512) with (16 * (n mod 32)) in * by (change 512 with (16 * 32); by rewrite Z.mul_mod_distr_l by lia).
  pose proof (Z.mod_pos_bound n 32 ltac:(lia)). destruct (Z.eqb_spec (n mod 32) 0).
  - unfold nb_of. rewrite <- (Z.div_unique (16 * n + 511) 512 (16 * n / 512) 511); lia.
  - rewrite (nb_of_range (16 * n) (16 * n / 512)); lia.
Qed.

Lemma root_blocks_range fs : (length fs <= 198)%nat -> 0 <= root_blocks fs <= 8.
Proof.
  intros Hn. unfold root_blocks. pose proof (Z.div_pos (16 * (2 + Z.of_nat (length fs))) 512 ltac:(lia) ltac:(lia)).
  pose proof (Z.div_le_upper_bound (16 * (2 + Z.of_nat (length fs))) 512 7 ltac:(lia) ltac:(lia)). lia.
Qed.

Definition root_dinode' (fs : list hfile) (ad : list Z) : dinode := mkdinode T_DIR 0 0 1 (512 * root_blocks fs) ad.

(** The image at the end. *)
Record finished (fs : list hfile) (s : mkst) (v : Z -> list Z) (ads : list (list Z)) (fb : Z) (ad : list Z) : Prop := {
  fi_image : image (inodes_of fs) ads v fb;
  fi_root : ads !! 0%nat = Some ad;
  fi_len : length (img s) = 1000%nat;
  fi_blk : forall x, 0 <= x < 1000 ->
    img s !! Z.to_nat x = Some (tset (set_inode v 1 (root_dinode' fs ad)) 58 (mark_used (Z.to_nat fb) zeroes) x);
}.

Lemma mwp_finish fs s (Q : unit -> mkst -> Prop) : img_rel (inodes_of fs) s -> (length fs <= 198)%nat ->
  (forall s' v ads fb ad, finished fs s' v ads fb ad -> Q tt s') ->
  mwp (fix_root 1 ;; fb ← gets freeblock; balloc (s32 fb)) s Q.
Proof.
  intros (v & ads & fb & Hs & HI) Hn HQ.
  destruct (lookup_lt_is_Some_2 ads 0%nat) as [ad Ha]; [rewrite (im_ads _ _ _ _ HI); cbn; lia|].
  pose proof (im_inodes _ _ _ _ HI 0 _ _ _ eq_refl Ha) as Hd. change (1 + Z.of_nat 0) with 1 in Hd. rewrite root_size in Hd.
  pose proof (im_range _ _ _ _ HI) as Hr.
  assert (Hrb : ((16 * (2 + Z.of_nat (length fs))) / 512 + 1) * 512 = 512 * root_blocks fs) by (unfold root_blocks; lia).
  pose proof (root_blocks_range fs Hn) as Hrr.
  apply mwp_bind. unfold fix_root. apply mwp_bind. eapply mwp_rinode; [exact Hs|lia|]. rewrite Hd. cbn [d_type d_major d_minor d_nlink d_size d_addrs].
  rewrite (xint_small (16 * _)) by lia. unfold BSIZE. rewrite Hrb, u32_small, xint_small by lia.
  eapply mwp_winode; [exact Hs|lia|]. intros s1 Hs1. apply mwp_bind, mwp_gets. rewrite (se_fb _ _ _ _ Hs1), s32_small by lia.
  unfold balloc, BSIZE. apply mwp_bind, mwp_cprintf. destruct (Z.ltb_spec fb (512 * 8)); [|lia]. cbn [assert_]. apply mwp_bind, mwp_ret.
  apply mwp_bind, mwp_gets. rewrite (se_sb _ _ _ _ Hs1). apply mwp_bind, mwp_cprintf. cbn [sb_bmapstart mkfs_sb].
  apply (mwp_wsect_at Hs1); [lia|]. intros s2 Hs2 Hmap. eapply (HQ s2 v ads fb ad). split; [done|done|apply Hs2|].
  intros x Hx. destruct (decide (x = 58)) as [->|Hne]; [by rewrite tset_same|]. by apply (se_blk _ _ _ _ Hs2).
Qed.

(** ** The kernel's view *)

(** [a] is the disk of the kernel before its first operation. *)
Record shows (a : atx) (s : mkst) : Prop := {
  sh_view : forall x, 0 <= x < 1000 -> tview a x = default [] (img s !! Z.to_nat x);
  sh_held : theld a = ∅;
  sh_size : tsize a = 1000;
  sh_log : tstart a = 2 /\ tlen a = 30;
}.

Definition root_all (fs : list hfile) : list dent :=
  root_entries fs ++ replicate (Z.to_nat (32 * root_blocks fs - (2 + Z.of_nat (length fs)))) (0, []).

Definition tree_of (fs : list hfile) (n : Z) : option node :=
  if n =? 1 then Some (NDir (root_all fs))
  else if (2 <=? n) && (n <? 2 + Z.of_nat (length fs)) then Some NFile else None.

Lemma dir_bytes_free m : dir_bytes (replicate m (0, [])) = replicate (16 * m) 0.
Proof.
  induction m as [|m IH]; [done|]. change (enc (0, []) ++ dir_bytes (replicate m (0, [])) = replicate (16 * S m) 0).
  rewrite IH. change (enc (0, [])) with (replicate 16 0). rewrite <- replicate_add. f_equal. lia.
Qed.

Section View.
Context {fs : list hfile} {s : mkst} {v : Z -> list Z} {ads : list (list Z)} {fb : Z} {ad0 : list Z}.
Context (HF : finished fs s v ads fb ad0) {a : atx} (Ha : shows a s) (Hn : (length fs <= 198)%nat).
Let u := tview a.
Let di := root_dinode' fs ad0.

(** The same with the free map full. *)
Let w := tset u 58 (replicate 512 255).

Lemma view_at x : 0 <= x < 1000 -> u x = tset (set_inode v 1 di) 58 (mark_used (Z.to_nat fb) zeroes) x.
Proof. intros Hx. unfold u. by rewrite (sh_view _ _ Ha), (fi_blk _ _ _ _ _ _ HF) by done. Qed.

Lemma view_low x : 0 <= x < 1000 -> x <> 58 -> u x = set_inode v 1 di x.
Proof. intros Hx Hne. rewrite view_at by done. by apply tset_other. Qed.

Lemma view_marked x : 0 <= x < 1000 -> marked SB u x = (x <? fb).
Proof.
  intros Hx. pose proof (im_range _ _ _ _ (fi_image _ _ _ _ _ _ HF)). unfold marked, bmap_block. cbn [sb_bmapstart mkfs_sb].
  rewrite (Z.div_small x), (Z.mod_small x), Z.add_0_r, view_at, tset_same by lia.
  destruct (bit_mark_used (Z.to_nat fb) x) as [-> _]; [lia|lia|]. by rewrite Z2Nat.id by lia.
Qed.

Lemma fixed_root_ok : dinode_ok di.
Proof.
  pose proof (fi_image _ _ _ _ _ _ HF) as HI. pose proof (im_files _ _ _ _ HI 0 _ _ _ eq_refl (fi_root _ _ _ _ _ _ HF)) as HB.
  destruct (built_dinode _ _ _ _ T_DIR HB ltac:(done)) as [_ _ Hl Hw]. split; [|cbn|exact Hl|exact Hw].
  - repeat constructor; vm_compute; congruence.
  - pose proof (root_blocks_range fs Hn). lia.
Qed.

Lemma root_len : length (put_dinode (v (iblk SB 1)) (dinode_off 1) di) = 512%nat.
Proof.
  pose proof (im_lens _ _ _ _ (fi_image _ _ _ _ _ _ HF) (iblk SB 1) ltac:(done)) as Hl.
  rewrite length_put_dinode; [done|apply fixed_root_ok|]. pose proof (dinode_off_bound 1). lia.
Qed.

Lemma view_file k t bs ad : inodes_of fs !! k = Some (t, bs) -> ads !! k = Some ad -> built w fb ad bs.
Proof.
  intros Hk Had. pose proof (fi_image _ _ _ _ _ _ HF) as HI.
  destruct (built_set_inode v fb ad bs 1 di ltac:(lia) root_len (im_files _ _ _ _ HI _ _ _ _ Hk Had)) as [HB _].
  assert (Hw : forall x, 0 <= x < 1000 -> w x = set_inode v 1 di x).
  { intros x Hx. unfold w, tset at 1. destruct (Z.eqb_spec x 58) as [->|]; [symmetry; apply HB|by apply view_low]. }
  pose proof (bk_fb _ _ _ _ _ _ HB). eapply built_frame; [exact HB|by unfold w, full_map; rewrite tset_same|..].
  - intros x Hx. rewrite Hw by done. by apply HB.
  - intros x Hx. rewrite Hw by lia. by apply HB.
  - lia.
  - intros x Hx%(bk_own _ _ _ _ _ _ HB). apply Hw. lia.
Qed.

Lemma view_inode n : 0 <= n < 200 -> dinode_at SB u n = if n =? 1 then di else dinode_at SB v n.
Proof.
  intros Hr. pose proof (iblk_small n Hr). pose proof (fi_image _ _ _ _ _ _ HF) as HI.
  rewrite <- dinode_at_set; [|by apply HI|apply fixed_root_ok|lia|lia]. unfold dinode_at. by rewrite view_low by lia.
Qed.

(** A file with its blocks in place, read up to [size]. *)
Lemma view_content ad bs size : built w fb ad bs -> len bs <= size <= 512 * nb_of (len bs) ->
  wf_file SB u ad /\ has_blocks u ad 0 size /\ slice u ad 0 size = bs ++ replicate (Z.to_nat (size - len bs)) 0.
Proof.
  intros HB Hsz. pose proof HB as [Hm Hln Hfr Hf Hnb Hwf Ho Hh Hi Hs Hb].
  assert (Hsame : forall x, x <> 58 -> u x = w x) by (intros x Hx; unfold w; by rewrite tset_other).
  assert (Hind : ind_of ad <> 0 -> u (ind_of ad) = w (ind_of ad)).
  { intros Hne%(owns_ind w). apply Ho in Hne. apply Hsame. lia. }
  assert (Hpt : forall b, bptr u ad b = bptr w ad b) by (intros b; by apply bptr_ext).
  assert (Hl : 0 <= len bs) by (unfold len; lia). split; [|split].
  - eapply wf_file_ext; [done|done|]. intros x Hx%Ho _. rewrite view_marked by lia. apply Z.ltb_lt. lia.
  - intros _ bn H0 H1. rewrite Hpt. change (0 / 512) with 0 in H0. apply Hh; lia.
  - apply list_eq. intros j. unfold slice. rewrite list_lookup_fmap.
    destruct (decide (Z.of_nat j < size)) as [Hj|Hj].
    + rewrite lookup_seqZ_lt, Z.add_0_l by lia. cbn. unfold fbyte. destruct (byte_block (Z.of_nat j) (nb_of (len bs)) ltac:(lia)) as [Hq _].
      pose proof (Ho _ (block_owned HB _ Hq)). specialize (Hb (Z.of_nat j) ltac:(lia)). unfold fbyte in Hb.
      rewrite Hpt, Hsame, Hb by lia. cbn. rewrite Nat2Z.id. destruct (decide (j < length bs)%nat) as [Hlt|Hge].
      * rewrite lookup_app_l by done. by destruct (lookup_lt_is_Some_2 bs j Hlt) as [y ->].
      * rewrite lookup_app_r, lookup_ge_None_2 by lia. cbn. symmetry. apply lookup_replicate_2. unfold len in *. lia.
    + rewrite !lookup_ge_None_2; [done|rewrite length_app, length_replicate; unfold len in *; lia|].
      rewrite length_seqZ. lia.
Qed.

Lemma view_fsok : fsok SB a.
Proof.
  pose proof (im_range _ _ _ _ (fi_image _ _ _ _ _ _ HF)). destruct (sh_log _ _ Ha) as [E1 E2]. split.
  - split; rewrite ?(sh_size _ _ Ha), ?E1, ?E2; vm_compute; try done; split; try done; split; done.
  - intros b Hb. change (0 <= b < 59) in Hb. fold u. rewrite view_marked by lia. apply Z.ltb_lt. lia.
  - intros x _. apply none_held, Ha.
  - intros i x d Hi. by rewrite (sh_held _ _ Ha) in Hi.
Qed.

Lemma view_inodes_of k f : fs !! k = Some f -> exists ad, ads !! S k = Some ad /\
  dinode_at SB u (2 + Z.of_nat k) = mkdinode T_FILE 0 0 1 (len f.2) ad /\ built w fb ad f.2.
Proof.
  intros Hk. pose proof (fi_image _ _ _ _ _ _ HF) as HI. pose proof (lookup_lt_Some _ _ _ Hk) as Hlt.
  assert (Hc : inodes_of fs !! S k = Some (T_FILE, f.2)).
  { change (((fun f : hfile => (T_FILE, f.2)) <$> fs) !! k = Some (T_FILE, f.2)). by rewrite list_lookup_fmap, Hk. }
  destruct (lookup_lt_is_Some_2 ads (S k)) as [ad Had]; [rewrite (im_ads _ _ _ _ HI); by eapply lookup_lt_Some|].
  exists ad. split; [done|]. split; [|by eapply view_file]. rewrite view_inode by lia.
  destruct (Z.eqb_spec (2 + Z.of_nat k) 1); [lia|]. rewrite <- (im_inodes _ _ _ _ HI _ _ _ _ Hc Had). f_equal. lia.
Qed.

Lemma view_regular k f i : fs !! k = Some f -> idev i = ROOTDEV -> to_dinode i = dinode_at SB u (2 + Z.of_nat k) ->
  file_ok SB u i /\ itype i = T_FILE /\ content u i = f.2.
Proof.
  intros Hk Hdev Hi. destruct (view_inodes_of k f Hk) as (ad & Had & Hd & HB). rewrite Hd in Hi. injection Hi as E1 _ _ _ E2 E3.
  pose proof (bk_fits _ _ _ _ _ _ HB) as Hfit. pose proof (bk_nb _ _ _ _ _ _ HB). fold (len f.2) in Hfit.
  assert (0 <= len f.2) by (unfold len; lia). destruct (view_content ad f.2 (len f.2) HB ltac:(lia)) as (Hwf & Hhas & Hsl).
  split; [|split; [done|]].
  - split; rewrite ?E1, ?E2, ?E3; try done. lia.
  - unfold content. rewrite E2, E3, Hsl, Z.sub_diag. apply app_nil_r.
Qed.

Lemma root_all_ok : Forall file_fits fs -> Forall dent_ok (root_all fs).
Proof.
  intros Hff. unfold root_all. apply Forall_app. split.
  - repeat apply Forall_cons_2; [split; [done|split; [repeat constructor; lia|cbn; lia]]..|].
    apply Forall_lookup. intros k e He. unfold file_ents in He. apply list_lookup_imap_Some in He as (f & Hk & ->).
    pose proof (lookup_lt_Some _ _ _ Hk). rewrite Forall_forall in Hff. destruct (Hff f ltac:(by eapply list_elem_of_lookup_2)) as [Hnm _ _ _].
    split; cbn; [lia|]. split; [by apply Forall_take, skip_name|]. unfold dname. rewrite length_take. lia.
  - apply Forall_replicate. split; [done|]. split; [constructor|cbn; lia].
Qed.

Lemma root_blocks_fit : 2 + Z.of_nat (length fs) <= 32 * root_blocks fs.
Proof.
  unfold root_blocks. pose proof (Z.div_mod (16 * (2 + Z.of_nat (length fs))) 512 ltac:(lia)).
  pose proof (Z.mod_pos_bound (16 * (2 + Z.of_nat (length fs))) 512 ltac:(lia)). lia.
Qed.

Lemma view_root i : Forall file_fits fs -> (2 + Z.of_nat (length fs)) mod 32 <> 0 -> idev i = ROOTDEV -> to_dinode i = dinode_at SB u 1 -> dir_ok SB a i (root_all fs).
Proof.
  intros Hff Hmod Hdev Hi. rewrite view_inode in Hi by lia. injection Hi as E1 _ _ _ E2 E3. pose proof root_blocks_fit.
  pose proof (root_blocks_nb fs) as Erb. cbv zeta in Erb. rewrite (proj2 (Z.eqb_neq _ 0)), Z.add_0_r in Erb by done.
  pose proof (view_file 0 _ _ _ eq_refl (fi_root _ _ _ _ _ _ HF)) as HB. pose proof (bk_nb _ _ _ _ _ _ HB) as Hnb.
  destruct (view_content ad0 _ (512 * root_blocks fs) HB) as (Hwf & Hhas & Hsl).
  { rewrite root_size. lia. }
  rewrite root_size in Hnb. rewrite root_size in Hsl. split.
  - split; rewrite ?E1, ?E2, ?E3; try done. lia.
  - done.
  - unfold content. rewrite E2, E3. fold u. rewrite Hsl. unfold root_all. rewrite dir_bytes_app, dir_bytes_free. f_equal. f_equal. lia.
  - by apply root_all_ok.
Qed.

Lemma view_tree : Forall file_fits fs -> (2 + Z.of_nat (length fs)) mod 32 <> 0 -> tree_ok SB a (tree_of fs).
Proof.
  intros Hff Hmod n x Hx. unfold tree_of in Hx. destruct (Z.eqb_spec n 1) as [->|Hne].
  - injection Hx as <-. split; [done|fold u; rewrite view_inode by lia; done..|]. split.
    + intros i Hdev Hi. by apply view_root.
    + intros m str Hm Hm0. unfold tree_of. destruct (Z.eqb_spec m 1); [done|].
      unfold root_all, root_entries in Hm. rewrite elem_of_app, !elem_of_cons in Hm.
      destruct Hm as [[[= -> _]|[[= -> _]|Hm]]|Hm]; [done|done| |apply elem_of_replicate in Hm as [[= -> _] _]; done].
      apply list_elem_of_lookup in Hm as [k He]. unfold file_ents in He. apply list_lookup_imap_Some in He as (f & Hk & [= -> _]).
      pose proof (lookup_lt_Some _ _ _ Hk). destruct (Z.leb_spec 2 (2 + Z.of_nat k)), (Z.ltb_spec (2 + Z.of_nat k) (2 + Z.of_nat (length fs))); try lia. done.
  - destruct (Z.leb_spec 2 n), (Z.ltb_spec n (2 + Z.of_nat (length fs))); try done. injection Hx as <-.
    destruct (lookup_lt_is_Some_2 fs (Z.to_nat (n - 2))) as [f Hf]; [lia|].
    destruct (view_inodes_of _ f Hf) as (ad & _ & Hd & _). replace (2 + Z.of_nat (Z.to_nat (n - 2))) with n in Hd by lia.
    split; fold u; rewrite ?Hd; try done. cbn. lia.
Qed.

(** When the directory exactly fills its blocks the size says one more. *)
Lemma view_root_hole i : (2 + Z.of_nat (length fs)) mod 32 = 0 -> to_dinode i = dinode_at SB u 1 ->
  isize i = 16 * (2 + Z.of_nat (length fs)) + 512 /\ bptr u (addrs i) ((isize i - 1) / 512) = 0.
Proof.
  intros Hmod Hi. rewrite view_inode in Hi by lia. injection Hi as _ _ _ _ E2 E3. rewrite E2, E3.
  pose proof (root_blocks_nb fs) as Erb. cbv zeta in Erb. rewrite Hmod in Erb. change (0 =? 0) with true in Erb. cbv iota in Erb.
  pose proof (view_file 0 _ _ _ eq_refl (fi_root _ _ _ _ _ _ HF)) as HB. unfold built in HB. rewrite root_size in HB.
  pose proof (root_blocks_range fs Hn). set (nb := nb_of _) in *.
  assert (E : 512 * root_blocks fs = 16 * (2 + Z.of_nat (length fs)) + 512).
  { unfold root_blocks. set (n := 2 + Z.of_nat (length fs)) in *. pose proof (Z.div_mod n 32 ltac:(lia)) as Hd.
    replace (16 * n) with (n / 32 * 512) by lia. rewrite Z.div_mul by lia. lia. }
  split; [done|]. replace ((512 * root_blocks fs - 1) / 512) with nb by (apply (Z.div_unique _ _ _ 511); lia).
  pose proof (bk_nb _ _ _ _ _ _ HB). pose proof (bk_has _ _ _ _ _ _ HB nb ltac:(lia)) as Hh.
  replace (bptr u ad0 nb) with (bptr w ad0 nb); [destruct (decide (bptr w ad0 nb = 0)) as [|Hne]; [done|apply Hh in Hne; lia]|].
  apply bptr_ext. intros Hne%(owns_ind w). apply (bk_own _ _ _ _ _ _ HB) in Hne. unfold w. apply tset_other. lia.
Qed.
End View.

(** ** main() *)

Lemma mwp_mkfs host creat prog image_name fs (Q : unit -> mkst -> Prop) :
  creat image_name = true -> Forall (fun f => host f.1 = Some f.2) fs -> fits fs ->
  (forall s' v ads fb ad, finished fs s' v ads fb ad -> Q tt s') ->
  mwp (mkfs_main host creat (prog :: image_name :: fs.*1)) mkfs_init Q.
Proof.
  intros Hc Hh Hfit HQ. unfold mkfs_main. rewrite Hc. apply mwp_bind, mwp_modS, mwp_bind, mwp_modS, mwp_bind, mwp_cprintf, mwp_bind, mwp_modS.
  rewrite sb_made. change (2 + nlog + ninodeblocks + nbitmap) with 59. apply mwp_bind.
  apply (mwp_zero 1000 0); [lia|done|]. apply mwp_bind, mwp_gets. cbn [msb mkfs_init]. apply mwp_bind.
  unfold wsect at 1. apply mwp_modS. match goal with |- mwp _ ?s0 _ => assert (Hs : sees blank 1 59 s0) by (apply blank_sees; reflexivity) end.
  apply mwp_bind. eapply (mwp_ialloc []); [by eexists _, _, _; split; [exact Hs|apply blank_image]|by left|cbn; lia|].
  intros s1 Hr1. cbn [length app Z.of_nat Z.add] in *. apply mwp_bind, mwp_ret, mwp_bind.
  eapply (mwp_entry _ _ [46]); [done|reflexivity|]. apply mwp_bind. change 1 with (1 + Z.of_nat 0) at 2.
  eapply mwp_iappend; [exact Hr1|done|done|done|]. intros s2 Hr2. cbn [insert list_insert app] in Hr2. apply mwp_bind.
  eapply (mwp_entry _ _ [46; 46]); [done|reflexivity|]. apply mwp_bind. change 1 with (1 + Z.of_nat 0) at 2.
  eapply mwp_iappend; [exact Hr2|done|done|done|]. intros s3 Hr3. cbn [insert list_insert app] in Hr3. apply mwp_bind.
  apply (mwp_add_files host [] fs); [exact Hr3|done|done|]. intros s4 Hr4.
  apply (mwp_finish fs); [done|apply Hfit|done].
Qed.

Lemma mkfs_runs host creat prog image_name fs :
  creat image_name = true -> Forall (fun f => host f.1 = Some f.2) fs -> fits fs ->
  exists c s' v ads fb ad, mkfs_main host creat (prog :: image_name :: fs.*1) (Ctx [] []) mkfs_init = Ok tt c s' /\
    finished fs s' v ads fb ad.
Proof.
  intros Hc Hh Hfit.
  assert (Hm : mwp (mkfs_main host creat (prog :: image_name :: fs.*1)) mkfs_init
    (fun _ s' => exists v ads fb ad, finished fs s' v ads fb ad)).
  { apply mwp_mkfs; try done. intros s' v ads fb ad HF. by exists v, ads, fb, ad. }
  specialize (Hm (Ctx [] [])). destruct (mkfs_main _ _ _ _ _) as [[] c s'| | | | |]; try done.
  destruct Hm as (v & ads & fb & ad & HF). by exists c, s', v, ads, fb, ad.
Qed.

Lemma dir_find_unique es rest off k m str : es !! k = Some (m, str) -> m <> 0 -> NoDup es.*2 ->
  dir_find str (es ++ rest) off = Some (m, off + 16 * Z.of_nat k).
Proof.
  revert off k. induction es as [|e es IH]; intros off k Hk Hm Hnd; [done|]. cbn [fmap list_fmap] in Hnd.
  apply NoDup_cons in Hnd as [Hni Hnd]. cbn [app dir_find]. destruct k as [|k].
  - injection Hk as ->. cbn [fst snd]. rewrite (proj2 (Z.eqb_neq m 0)), bool_decide_true by done. cbn. f_equal. f_equal. lia.
  - cbn in Hk. rewrite bool_decide_false; [rewrite orb_true_r, (IH _ k) by done; f_equal; f_equal; lia|].
    intros ->. apply Hni. apply (list_elem_of_fmap_2' snd es (m, e.2)); [by eapply list_elem_of_lookup_2|done].
Qed.

Lemma tree_walk fs k f : fs !! k = Some f -> NoDup (root_entries fs).*2 ->
  walk (tree_of fs) ROOTINO [skip_ f.1] false = Some (2 + Z.of_nat k).
Proof.
  intros Hk Hnd. cbn [walk]. change (tree_of fs ROOTINO) with (Some (NDir (root_all fs))). cbn [andb].
  unfold root_all. rewrite (dir_find_unique _ _ _ (S (S k)) (2 + Z.of_nat k)); [done| |lia|done].
  change (file_ents fs !! k = Some (2 + Z.of_nat k, dname f)). unfold file_ents. by rewrite list_lookup_imap, Hk.
Qed.

(** C6: mkfs succeeds for every set of files that fits on the disk, unless the root
    directory exactly fills its last block, and the image is a file system as the
    theorems on the kernel assume it: its super block, an empty log, a free map that
    marks all blocks in use, a root directory with one entry per file, and every
    file found under its name with its contents. *)
Theorem mkfs_spec host creat prog image_name fs :
  creat image_name = true -> Forall (fun f => host f.1 = Some f.2) fs -> fits fs ->
  (2 + Z.of_nat (length fs)) mod 32 <> 0 ->
  exists c s', mkfs_main host creat (prog :: image_name :: fs.*1) (Ctx [] []) mkfs_init = Ok tt c s' /\
    length (img s') = 1000%nat /\
    decode_sb (default [] (img s' !! 1%nat)) = SB /\ img s' !! 2%nat = Some zeroes /\
    forall a, shows a s' ->
      fsok SB a /\ tree_ok SB a (tree_of fs) /\
      forall k f, fs !! k = Some f ->
        (forall i, idev i = ROOTDEV -> to_dinode i = dinode_at SB (tview a) (2 + Z.of_nat k) ->
          file_ok SB (tview a) i /\ itype i = T_FILE /\ content (tview a) i = f.2) /\
        (NoDup (root_entries fs).*2 -> walk (tree_of fs) ROOTINO [skip_ f.1] false = Some (2 + Z.of_nat k)).
Proof.
  intros Hc Hh Hfit Hmod. destruct (mkfs_runs host creat prog image_name fs) as (c & s' & v & ads & fb & ad & Hrun & HF); try done.
  pose proof (fi_image _ _ _ _ _ _ HF) as HI. pose proof (ft_inodes _ Hfit) as Hn.
  exists c, s'. split; [done|]. split; [apply HF|]. split; [|split].
  - pose proof (fi_blk _ _ _ _ _ _ HF 1 ltac:(lia)) as E. change (Z.to_nat 1) with 1%nat in E. rewrite E.
    rewrite tset_other, set_inode_other, (im_sb _ _ _ _ HI) by done. reflexivity.
  - pose proof (fi_blk _ _ _ _ _ _ HF 2 ltac:(lia)) as E. change (Z.to_nat 2) with 2%nat in E. rewrite E.
    by rewrite tset_other, set_inode_other, (im_log _ _ _ _ HI) by done.
  - intros a Ha. split; [by eapply view_fsok|]. split; [by eapply view_tree; [..|apply Hfit|]|].
    intros k f Hk. split; [|by apply tree_walk]. intros i. by eapply (view_regular HF Ha).
Qed.

(** When the root directory exactly fills its blocks, as with 30 files, its size
    counts one block more than it has. *)
Theorem mkfs_root_hole host creat prog image_name fs :
  creat image_name = true -> Forall (fun f => host f.1 = Some f.2) fs -> fits fs ->
  (2 + Z.of_nat (length fs)) mod 32 = 0 ->
  exists c s', mkfs_main host creat (prog :: image_name :: fs.*1) (Ctx [] []) mkfs_init = Ok tt c s' /\
    forall a i, shows a s' -> to_dinode i = dinode_at SB (tview a) ROOTINO ->
      isize i = 16 * (2 + Z.of_nat (length fs)) + 512 /\ bptr (tview a) (addrs i) ((isize i - 1) / 512) = 0.
Proof.
  intros Hc Hh Hfit Hmod. destruct (mkfs_runs host creat prog image_name fs) as (c & s' & v & ads & fb & ad & Hrun & HF); try done.
  exists c, s'. split; [done|]. intros a i Ha. by eapply (view_root_hole HF Ha (ft_inodes _ Hfit)).
Qed.

(** An image with two files. *)
Definition demo_files : list hfile := [([95; 97], [104; 101; 108; 108; 111]); ([98], replicate 7000 65)].
Definition demo_host (name : list Z) : option (list Z) := snd <$> find (fun f : hfile => bool_decide (f.1 = name)) demo_files.

Lemma demo_files_fit : fits demo_files.
Proof.
  split; [|cbn; lia|vm_compute; congruence].
  repeat apply Forall_cons_2; try apply Forall_nil_2.
  - split; [repeat constructor; lia|repeat constructor; lia|repeat constructor; lia|vm_compute; congruence].
  - split; [repeat constructor; lia|repeat constructor; lia|apply Forall_replicate; lia|vm_compute; congruence].
Qed.

Lemma mkfs_spec_witness :
  exists c s', mkfs_main demo_host (fun _ => true) ([] :: [] :: demo_files.*1) (Ctx [] []) mkfs_init = Ok tt c s' /\
    forall a, shows a s' -> fsok SB a /\
      forall i, idev i = ROOTDEV -> to_dinode i = dinode_at SB (tview a) 3 -> content (tview a) i = replicate 7000 65.
Proof.
  destruct (mkfs_spec demo_host (fun _ => true) [] [] demo_files) as (c & s' & Hrun & _ & _ & _ & Hok);
    [done|repeat constructor|apply demo_files_fit|done|].
  exists c, s'. split; [exact Hrun|]. intros a Ha. destruct (Hok a Ha) as (Hf & _ & Hfiles). split; [done|].
  intros i Hd Hi. by apply (Hfiles 1%nat ([98], replicate 7000 65) eq_refl).
Defined.

