(* ===== verification/Mp.v ===== *)
(** * Finding the processors (src/mp.c, src/mp.h)

    mpinit() reads the MultiProcessor configuration table the firmware left in
    memory.  [mem] is the memory as the kernel sees it, a byte per address, and
    [imcr] what the port of the interrupt mode register reads. *)

From stdpp Require Import prelude gmap strings list.
From Stdlib Require Import ZArith Lia.
From S2P Require Import Strings Prelude Mmu Layout.

Definition NCPU : nat := 8.
Definition MPPROC : Z := 0.
Definition MPBUS : Z := 1.
Definition MPIOAPIC : Z := 2.
Definition MPIOINTR : Z := 3.
Definition MPLINTR : Z := 4.

(** What mpinit() sets: [cpus\[i\].apicid], [ncpu], [ioapicid] and [lapic]. *)
Record mpstate := mkmp {
  apicids : list Z;
  ncpu : nat;
  ioapicid : Z;
  lapic : Z;
}.

#[export] Instance mpstate_settable : Settable mpstate :=
  fun s => mkmp (apicids s) (ncpu s) (ioapicid s) (lapic s).

Definition mp_zero : mpstate := mkmp (replicate NCPU 0) 0 0 0.

Section Mp.
Context (mem : Z -> Z) (imcr : Z).
Abbreviation K := (M mpstate).

Definition bytes (p n : Z) : list Z := mem <$> seqZ p n.

Definition sum (addr len : Z) : Z := u8 (foldl (fun s b => s32 (s + b)) 0 (bytes addr len)).

Definition sig_MP : list Z := [95; 77; 80; 95].
Definition sig_PCMP : list Z := [80; 67; 77; 80].

Definition same4 (p : Z) (sig : list Z) : bool :=
  match memcmp (bytes p 4) sig 4 with Some r => r =? 0 | None => false end.

(** [for(p = addr; p < e; p += sizeof(struct mp))], [n] rounds long. *)
Fixpoint mpsearch1_loop (n : nat) (p : Z) : option Z :=
  match n with
  | O => None
  | S n' => if same4 p sig_MP && (sum p 16 =? 0) then Some p else mpsearch1_loop n' (p + 16)
  end.

Definition mpsearch1 (a len : Z) : option Z := mpsearch1_loop (Z.to_nat ((len + 15) / 16)) (P2V a).

Definition mpsearch : option Z :=
  let bda := P2V 0x400 in
  let p := Z.shiftl (Z.lor (Z.shiftl (mem (bda + 0x0F)) 8) (mem (bda + 0x0E))) 4 in
  let rom := mpsearch1 0xF0000 0x10000 in
  if negb (p =? 0)
  then match mpsearch1 p 1024 with Some mp => Some mp | None => rom end
  else
    let p := Z.lor (Z.shiftl (mem (bda + 0x14)) 8) (mem (bda + 0x13)) * 1024 in
    match mpsearch1 (u32 (p - 1024)) 1024 with Some mp => Some mp | None => rom end.

(** The fields of struct mp and struct mpconf. *)
Definition mp_physaddr (mp : Z) : Z := of_bytes (bytes (mp + 4) 4).
Definition mp_imcrp (mp : Z) : Z := mem (mp + 12).
Definition conf_length (conf : Z) : Z := of_bytes (bytes (conf + 4) 2).
Definition conf_version (conf : Z) : Z := mem (conf + 6).
Definition conf_lapicaddr (conf : Z) : Z := of_bytes (bytes (conf + 36) 4).
Definition conf_size : Z := 44.

(** The table and the structure that points to it. *)
Definition mpconfig : option (Z * Z) :=
  mp ← mpsearch;
  if mp_physaddr mp =? 0 then None else
  let conf := P2V (mp_physaddr mp) in
  if negb (same4 conf sig_PCMP) then None else
  if negb (conf_version conf =? 1) && negb (conf_version conf =? 4) then None else
  if negb (sum conf (conf_length conf) =? 0) then None else
  Some (mp, conf).

(** The loop over the entries; [break] leaves the switch only. *)
Fixpoint mp_entries (fuel : nat) (p e : Z) (ismp : bool) : K bool :=
  if p <? e then
    match fuel with
    | O => nofuel
    | S fuel' =>
        let t := mem p in
        if t =? MPPROC then
          s ← getS;
          (if (ncpu s <? NCPU)%nat
           then ids ← wr (apicids s) (Z.of_nat (ncpu s)) (mem (p + 1));
                modS (fun s => s <| apicids := ids |> <| ncpu ::= S |>)
           else mret tt) ;;
          mp_entries fuel' (p + 20) e ismp
        else if t =? MPIOAPIC then
          modS (fun s => s <| ioapicid := mem (p + 1) |>) ;;
          mp_entries fuel' (p + 8) e ismp
        else if (t =? MPBUS) || (t =? MPIOINTR) || (t =? MPLINTR) then
          mp_entries fuel' (p + 8) e ismp
        else mp_entries fuel' p e false
    end
  else mret ismp.

Definition mpinit (fuel : nat) : K unit :=
  match mpconfig with
  | None => panic "Expect to run on an SMP"
  | Some (mp, conf) =>
      modS (fun s => s <| lapic := conf_lapicaddr conf |>) ;;
      ismp ← mp_entries fuel (conf + conf_size) (conf + conf_length conf) true;
      if negb ismp then panic "Didn't find a suitable machine" else
      if negb (mp_imcrp mp =? 0)
      then emit (Eoutb 0x22 0x70) ;; emit (Eoutb 0x23 (Z.lor imcr 1))
      else mret tt
  end.

(** ** The search *)

Definition is_mp (p : Z) : Prop := bytes p 4 = sig_MP /\ sum p 16 = 0.

Lemma length_bytes p n : length (bytes p n) = Z.to_nat n.
Proof. unfold bytes. by rewrite length_fmap, length_seqZ. Qed.

Lemma memcmp_same (a b : list Z) : length a = length b -> memcmp a b (length a) = Some 0 <-> a = b.
Proof.
  revert b. induction a as [|x a IH]; intros [|y b] Hl; try done. cbn [memcmp length]. injection Hl as Hl.
  destruct (Z.eqb_spec x y) as [->|Hne]; [rewrite IH by done; split; congruence|]. split; [intros [= E]; lia|congruence].
Qed.

Lemma same4_spec p sig : length sig = 4%nat -> same4 p sig = true <-> bytes p 4 = sig.
Proof.
  intros Hl. pose proof (memcmp_same (bytes p 4) sig) as H. rewrite length_bytes in H. change (Z.to_nat 4) with 4%nat in H.
  unfold same4. rewrite <- H by done. destruct (memcmp (bytes p 4) sig 4) as [r|]; [|done].
  rewrite Z.eqb_eq. split; congruence.
Qed.

Lemma is_mp_spec p : same4 p sig_MP && (sum p 16 =? 0) = true <-> is_mp p.
Proof. rewrite andb_true_iff, (same4_spec p sig_MP), Z.eqb_eq by done. done. Qed.

Lemma mpsearch1_loop_spec n p :
  match mpsearch1_loop n p with
  | Some q => exists k, 0 <= k < Z.of_nat n /\ q = p + 16 * k /\ is_mp q /\ forall j, 0 <= j < k -> ~ is_mp (p + 16 * j)
  | None => forall k, 0 <= k < Z.of_nat n -> ~ is_mp (p + 16 * k)
  end.
Proof.
  revert p. induction n as [|n IH]; intros p; [intros k Hk; lia|]. cbn [mpsearch1_loop].
  destruct (_ && _) eqn:E.
  - apply is_mp_spec in E. exists 0. rewrite Z.mul_0_r, Z.add_0_r. split; [lia|]. split; [done|]. split; [done|]. intros j Hj. lia.
  - assert (Hp : ~ is_mp p) by (rewrite <- is_mp_spec, E; done).
    assert (Hstep : forall j, p + 16 + 16 * j = p + 16 * (j + 1)) by (intros j; lia).
    specialize (IH (p + 16)). destruct (mpsearch1_loop n (p + 16)) as [q|].
    + destruct IH as (k & Hk & -> & Hq & Hno). exists (k + 1). rewrite Hstep in *. split; [lia|]. split; [done|]. split; [done|].
      intros j Hj. destruct (decide (j = 0)) as [->|]; [by rewrite Z.mul_0_r, Z.add_0_r|].
      replace j with (j - 1 + 1) by lia. rewrite <- Hstep. apply Hno. lia.
    + intros k Hk. destruct (decide (k = 0)) as [->|]; [by rewrite Z.mul_0_r, Z.add_0_r|].
      replace k with (k - 1 + 1) by lia. rewrite <- Hstep. apply IH. lia.
Qed.

(** ** The table *)

Lemma bytes_lookup p n l i x : bytes p n = l -> l !! i = Some x -> mem (p + Z.of_nat i) = x.
Proof.
  intros <- Hi. unfold bytes in Hi. rewrite list_lookup_fmap in Hi. destruct (seqZ p n !! i) eqn:E; [|done].
  apply lookup_seqZ in E as [-> _]. by injection Hi.
Qed.

Lemma bytes_app p l1 l2 : bytes p (Z.of_nat (length (l1 ++ l2))) = l1 ++ l2 ->
  bytes p (Z.of_nat (length l1)) = l1 /\ bytes (p + Z.of_nat (length l1)) (Z.of_nat (length l2)) = l2.
Proof.
  rewrite length_app, Nat2Z.inj_add. unfold bytes. rewrite seqZ_app, fmap_app by lia. intros H.
  apply app_inj_1 in H; [done|]. by rewrite length_fmap, length_seqZ, Nat2Z.id.
Qed.
End Mp.

(** An entry of the table. *)
Inductive mpentry :=
| Pproc (apicid : Z) (rest : list Z)
| Pioapic (apicno : Z) (rest : list Z)
| Pother (type : Z) (rest : list Z).

Definition entry_ok (x : mpentry) : Prop :=
  match x with
  | Pproc _ r => length r = 18%nat
  | Pioapic _ r => length r = 6%nat
  | Pother t r => (t = MPBUS \/ t = MPIOINTR \/ t = MPLINTR) /\ length r = 7%nat
  end.

Definition entry_bytes (x : mpentry) : list Z :=
  match x with
  | Pproc id r => MPPROC :: id :: r
  | Pioapic id r => MPIOAPIC :: id :: r
  | Pother t r => t :: r
  end.

Definition table_bytes (es : list mpentry) : list Z := mjoin (entry_bytes <$> es).

(** The processors and the I/O controllers of the table. *)
Definition procs (es : list mpentry) : list Z := omap (fun x => match x with Pproc id _ => Some id | _ => None end) es.
Definition ioapics (es : list mpentry) : list Z := omap (fun x => match x with Pioapic id _ => Some id | _ => None end) es.

(** The state has recorded the processors [ps] and the controllers [ios]. *)
Record recorded (ps ios : list Z) (la : Z) (s : mpstate) : Prop := {
  rc_ids : length (apicids s) = NCPU;
  rc_cpus : ncpu s = (length ps `min` NCPU)%nat;
  rc_procs : take (ncpu s) (apicids s) = take NCPU ps;
  rc_io : ioapicid s = List.last ios 0;
  rc_lapic : lapic s = la;
}.

Section Table.
Context (mem : Z -> Z).

Lemma recorded_proc ps ios la s id : recorded ps ios la s ->
  recorded (ps ++ [id]) ios la
    (if (ncpu s <? NCPU)%nat then s <| apicids := <[ncpu s := id]> (apicids s) |> <| ncpu ::= S |> else s).
Proof.
  intros [Hl Hn Hp Hi Hla]. destruct (Nat.ltb_spec (ncpu s) NCPU).
  - assert (E : ncpu s = length ps) by lia. split; cbn; try done.
    + by rewrite length_insert.
    + rewrite length_app. cbn [length]. unfold NCPU in *. lia.
    + rewrite (take_S_r _ _ id) by (by apply list_lookup_insert_eq; lia). rewrite take_insert_ge, Hp by lia.
      rewrite !take_ge; [done|..]; rewrite ?length_app; cbn [length]; unfold NCPU in *; lia.
  - split; try done.
    + rewrite length_app. lia.
    + rewrite Hp. rewrite take_app_le by lia. done.
Qed.

Lemma mp_entries_run es fuel p b c s ps ios la :
  Forall entry_ok es -> bytes mem p (Z.of_nat (length (table_bytes es))) = table_bytes es -> (length es <= fuel)%nat ->
  recorded ps ios la s ->
  exists s', mp_entries mem fuel p (p + Z.of_nat (length (table_bytes es))) b c s = Ok b c s' /\
    recorded (ps ++ procs es) (ios ++ ioapics es) la s'.
Proof.
  revert fuel p s ps ios. induction es as [|x es IH]; intros fuel p s ps ios Hok Hb Hf Hr.
  - exists s. rewrite !app_nil_r. split; [|done]. destruct fuel; cbn [mp_entries table_bytes length mjoin]; by rewrite (proj2 (Z.ltb_ge _ _)) by (cbn; lia).
  - apply Forall_cons in Hok as [Hx Hok]. change (table_bytes (x :: es)) with (entry_bytes x ++ table_bytes es) in *.
    apply bytes_app in Hb as [Hbx Hb]. destruct fuel as [|fuel]; [cbn in Hf; lia|]. cbn in Hf.
    rewrite length_app, Nat2Z.inj_add, Z.add_assoc. cbn [mp_entries].
    assert (Hpos : (0 < length (entry_bytes x))%nat) by (destruct x; cbn; lia).
    destruct (Z.ltb_spec p (p + Z.of_nat (length (entry_bytes x)) + Z.of_nat (length (table_bytes es)))); [|lia].
    destruct x as [id r|id r|t r]; cbn [entry_bytes] in *.
    + pose proof (bytes_lookup mem p _ _ 0 MPPROC Hbx eq_refl) as H0. rewrite Z.add_0_r in H0.
      pose proof (bytes_lookup mem p _ _ 1 id Hbx eq_refl) as H1. rewrite H0. change (MPPROC =? MPPROC) with true. cbv iota.
      pose proof (recorded_proc ps ios la s id Hr) as Hr'. change (Z.of_nat 1) with 1 in H1. cbn in Hx.
      replace (Z.of_nat (length (MPPROC :: id :: r))) with 20 in * by (cbn [length]; lia).
      assert (Hproc : ios = ios ++ [] ) by (by rewrite app_nil_r).
      destruct (IH fuel (p + 20) _ (ps ++ [id]) ios Hok Hb ltac:(lia) Hr') as (s' & Hrun & Hs'). exists s'.
      rewrite <- app_assoc in Hs'. split; [|exact Hs']. rewrite <- Hrun, bindE, getSE. cbn [obind].
      destruct (Nat.ltb_spec (ncpu s) NCPU); [|done]. rewrite H1. unfold wr, aset. rewrite (rc_ids _ _ _ _ Hr).
      destruct (Z.leb_spec 0 (Z.of_nat (ncpu s))); [|lia]. destruct (Z.ltb_spec (Z.of_nat (ncpu s)) (Z.of_nat NCPU)); [|lia].
      by rewrite Nat2Z.id.
    + pose proof (bytes_lookup mem p _ _ 0 MPIOAPIC Hbx eq_refl) as H0. rewrite Z.add_0_r in H0.
      pose proof (bytes_lookup mem p _ _ 1 id Hbx eq_refl) as H1. rewrite H0. change (Z.of_nat 1) with 1 in H1. cbn in Hx.
      replace (Z.of_nat (length (MPIOAPIC :: id :: r))) with 8 in * by (cbn [length]; lia).
      destruct (IH fuel (p + 8) (s <| ioapicid := id |>) ps (ios ++ [id]) Hok Hb ltac:(lia)) as (s' & Hrun & Hs').
      { destruct Hr. split; try done. cbn. by rewrite last_last. }
      exists s'. rewrite <- app_assoc in Hs'. split; [|exact Hs']. rewrite <- Hrun, H1. done.
    + destruct Hx as [Ht Hx]. pose proof (bytes_lookup mem p _ _ 0 t Hbx eq_refl) as H0. rewrite Z.add_0_r in H0.
      replace (Z.of_nat (length (t :: r))) with 8 in * by (cbn [length]; lia).
      destruct (IH fuel (p + 8) s ps ios Hok Hb ltac:(lia) Hr) as (s' & Hrun & Hs'). exists s'. split; [|done].
      rewrite <- Hrun, H0. by destruct Ht as [->|[->| ->]].
Qed.

(** An entry of unknown type stops the loop from making progress. *)
Lemma mp_entries_stuck fuel p e b c s : p < e -> ~ (0 <= mem p <= 4) -> mp_entries mem fuel p e b c s = NoFuel.
Proof.
  intros Hp Ht. revert b. induction fuel as [|fuel IH]; intros b; cbn [mp_entries]; destruct (Z.ltb_spec p e); try lia; [done|].
  unfold MPPROC, MPIOAPIC, MPBUS, MPIOINTR, MPLINTR.
  repeat match goal with |- context [mem p =? ?k] => destruct (Z.eqb_spec (mem p) k); [lia|] end. apply IH.
Qed.

Lemma mp_entries_then_stuck es fuel p e b c s :
  Forall entry_ok es -> bytes mem p (Z.of_nat (length (table_bytes es))) = table_bytes es ->
  length (apicids s) = NCPU ->
  let q := p + Z.of_nat (length (table_bytes es)) in q < e -> ~ (0 <= mem q <= 4) ->
  mp_entries mem fuel p e b c s = NoFuel.
Proof.
  revert fuel p s. induction es as [|x es IH]; intros fuel p s Hok Hb Hl q Hq Hu.
  - unfold q in *. cbn in *. rewrite Z.add_0_r in *. by apply mp_entries_stuck.
  - apply Forall_cons in Hok as [Hx Hok]. unfold q in *. change (table_bytes (x :: es)) with (entry_bytes x ++ table_bytes es) in *.
    apply bytes_app in Hb as [Hbx Hb]. rewrite length_app, Nat2Z.inj_add, Z.add_assoc in *.
    destruct fuel as [|fuel]; cbn [mp_entries]; (destruct (Z.ltb_spec p e); [|lia]); [done|].
    destruct x as [id r|id r|t r]; cbn [entry_bytes] in *.
    + pose proof (bytes_lookup mem p _ _ 0 MPPROC Hbx eq_refl) as H0. rewrite Z.add_0_r in H0. cbn in Hx.
      replace (Z.of_nat (length (MPPROC :: id :: r))) with 20 in * by (cbn [length]; lia).
      rewrite H0. change (MPPROC =? MPPROC) with true. cbv iota. rewrite bindE, getSE. cbn [obind].
      destruct (Nat.ltb_spec (ncpu s) NCPU); [|by apply IH]. unfold wr, aset. rewrite Hl.
      destruct (Z.leb_spec 0 (Z.of_nat (ncpu s))); [|lia]. destruct (Z.ltb_spec (Z.of_nat (ncpu s)) (Z.of_nat NCPU)); [|lia].
      apply IH; try done. cbn. by rewrite length_insert.
    + pose proof (bytes_lookup mem p _ _ 0 MPIOAPIC Hbx eq_refl) as H0. rewrite Z.add_0_r in H0. cbn in Hx.
      replace (Z.of_nat (length (MPIOAPIC :: id :: r))) with 8 in * by (cbn [length]; lia).
      rewrite H0. by apply IH.
    + destruct Hx as [Ht Hx]. pose proof (bytes_lookup mem p _ _ 0 t Hbx eq_refl) as H0. rewrite Z.add_0_r in H0.
      replace (Z.of_nat (length (t :: r))) with 8 in * by (cbn [length]; lia).
      rewrite H0. destruct Ht as [->|[->| ->]]; by apply IH.
Qed.
End Table.

Lemma mp_zero_recorded la : recorded [] [] la (mp_zero <| lapic := la |>).
Proof. done. Qed.

(** mpinit() reads a well-formed configuration table to its end: the processors in
    the order of the table, at most NCPU of them, the I/O controller and the address
    of the local one. *)
Theorem mpinit_spec mem imcr mp conf es fuel :
  mpconfig mem = Some (mp, conf) -> Forall entry_ok es -> (length es <= fuel)%nat ->
  conf_length mem conf = conf_size + Z.of_nat (length (table_bytes es)) ->
  bytes mem (conf + conf_size) (Z.of_nat (length (table_bytes es))) = table_bytes es ->
  exists ev s', mpinit mem imcr fuel (Ctx [] []) mp_zero = Ok tt (Ctx [] ev) s' /\
    recorded (procs es) (ioapics es) (conf_lapicaddr mem conf) s' /\
    ev = (if mp_imcrp mem mp =? 0 then [] else [Eoutb 0x22 0x70; Eoutb 0x23 (Z.lor imcr 1)]).
Proof.
  intros Hc Hok Hf Hl Hb. unfold mpinit. rewrite Hc, bindE, modSE. cbn [obind]. rewrite bindE, Hl, Z.add_assoc.
  destruct (mp_entries_run mem es fuel (conf + conf_size) true (Ctx [] []) (mp_zero <| lapic := conf_lapicaddr mem conf |>) [] []
    (conf_lapicaddr mem conf) Hok Hb Hf (mp_zero_recorded _)) as (s' & -> & Hr).
  cbn [obind negb]. destruct (mp_imcrp mem mp =? 0); cbn [negb]; mrun; eauto.
Qed.

(** C40: When the table has an entry of a type mp.c does not know, mpinit() never ends:
    [break] leaves the switch but not the loop, which looks at the same entry again. *)
Theorem mpinit_unknown_entry mem imcr mp conf es fuel :
  mpconfig mem = Some (mp, conf) -> Forall entry_ok es ->
  bytes mem (conf + conf_size) (Z.of_nat (length (table_bytes es))) = table_bytes es ->
  let q := conf + conf_size + Z.of_nat (length (table_bytes es)) in
  q < conf + conf_length mem conf -> ~ (0 <= mem q <= 4) ->
  mpinit mem imcr fuel (Ctx [] []) mp_zero = NoFuel.
Proof.
  intros Hc Hok Hb q Hq Hu. unfold mpinit. rewrite Hc, bindE, modSE. cbn [obind]. rewrite bindE.
  by rewrite (mp_entries_then_stuck mem es).
Qed.

(** ** A table with two processors *)

Definition demo_entries : list mpentry :=
  [Pproc 0 (replicate 18 0); Pproc 1 (replicate 18 0); Pother MPBUS (replicate 7 0); Pioapic 2 (replicate 6 0)].

(** The checksum at offset [k] makes the bytes add up to zero. *)
Definition with_checksum (k : nat) (l : list Z) : list Z := <[k := (- foldr Z.add 0 l) mod 256]> l.

Definition demo_mp : list Z := with_checksum 10 (sig_MP ++ [0; 0x10; 0x0F; 0; 1; 4; 0; 0; 0; 0; 0; 0]).
Definition demo_conf (extra : list Z) : list Z :=
  with_checksum 7 (sig_PCMP ++ to_bytes 2 (44 + Z.of_nat (length (table_bytes demo_entries ++ extra))) ++ [4; 0] ++ replicate 28 0 ++
    [0; 0; 0xE0; 0xFE] ++ replicate 4 0 ++ table_bytes demo_entries ++ extra).

Definition demo_mem (extra : list Z) (a : Z) : Z :=
  let at_ (base : Z) (l : list Z) := if base <=? a then l !! Z.to_nat (a - base) else None in
  default 0 (match at_ (P2V 0xF1000) (demo_conf extra) with Some b => Some b | None =>
    if a <? P2V 0xF1000 then at_ (P2V 0xF0000) demo_mp else None end).

Lemma demo_entries_ok : Forall entry_ok demo_entries.
Proof. repeat constructor. Qed.

Lemma mpinit_spec_witness : exists ev s',
  mpinit (demo_mem []) 0 10 (Ctx [] []) mp_zero = Ok tt (Ctx [] ev) s' /\ ncpu s' = 2%nat /\ ioapicid s' = 2 /\ ev = [].
Proof.
  destruct (mpinit_spec (demo_mem []) 0 (P2V 0xF0000) (P2V 0xF1000) demo_entries 10) as (ev & s' & Hrun & Hr & Hev).
  - vm_compute. reflexivity.
  - apply demo_entries_ok.
  - cbn. lia.
  - vm_compute. reflexivity.
  - vm_compute. reflexivity.
  - exists ev, s'. split; [exact Hrun|]. split; [exact (rc_cpus _ _ _ _ Hr)|]. split; [exact (rc_io _ _ _ _ Hr)|exact Hev].
Defined.

Lemma mpinit_unknown_entry_witness : mpinit (demo_mem [9; 0; 0; 0; 0; 0; 0; 0]) 0 1000 (Ctx [] []) mp_zero = NoFuel.
Proof.
  apply (mpinit_unknown_entry _ _ (P2V 0xF0000) (P2V 0xF1000) demo_entries).
  - vm_compute. reflexivity.
  - apply demo_entries_ok.
  - vm_compute. reflexivity.
  - vm_compute. reflexivity.
  - vm_compute. intros [_ H]. by apply H.
Defined.
