(* ===== verification/Apic.v ===== *)
(** * The interrupt controllers and the clock chip (src/lapic.c, src/ioapic.c, src/picirq.c)

    The devices are behind two interfaces: [Ports] for the I/O ports and [Mmio] for
    device registers in memory, by address.  Code that polls a device has fuel. *)

From stdpp Require Import prelude gmap strings list.
From Stdlib Require Import ZArith Lia.
From S2P Require Import Prelude Mmu Trap Console.

Class Mmio (H : Type) := {
  m_rd : Z -> H -> Z * H;
  m_wr : Z -> Z -> H -> H;
}.

Section Apic.
Context {H : Type} `{Ports H} `{Mmio H}.
Abbreviation A := (M H).

Definition in_ (port : Z) : A Z := fun c h => let '(v, h') := p_inb port h in Ok v c h'.
Definition out_ (port v : Z) : A unit := modS (p_outb port (u8 v)).
Definition rd32 (a : Z) : A Z := fun c h => let '(v, h') := m_rd a h in Ok v c h'.
Definition wr32 (a v : Z) : A unit := modS (m_wr a (u32 v)).

(** ** The local controller *)

Definition ID : Z := 0x20 / 4.
Definition VER : Z := 0x30 / 4.
Definition TPR : Z := 0x80 / 4.
Definition EOI : Z := 0xB0 / 4.
Definition SVR : Z := 0xF0 / 4.
Definition ENABLE : Z := 0x100.
Definition ESR : Z := 0x280 / 4.
Definition ICRLO : Z := 0x300 / 4.
Definition INIT : Z := 0x500.
Definition STARTUP : Z := 0x600.
Definition DELIVS : Z := 0x1000.
Definition ASSERT : Z := 0x4000.
Definition LEVEL : Z := 0x8000.
Definition BCAST : Z := 0x80000.
Definition ICRHI : Z := 0x310 / 4.
Definition TIMER : Z := 0x320 / 4.
Definition X1 : Z := 0xB.
Definition PERIODIC : Z := 0x20000.
Definition PCINT : Z := 0x340 / 4.
Definition LINT0 : Z := 0x350 / 4.
Definition LINT1 : Z := 0x360 / 4.
Definition ERROR : Z := 0x370 / 4.
Definition MASKED : Z := 0x10000.
Definition TICR : Z := 0x380 / 4.
Definition TDCR : Z := 0x3E0 / 4.
Definition IRQ_ERROR : Z := 19.

(** [lapic] is the address of the registers, 0 before mpinit(). *)
Section Lapic.
Context (lapic : Z).

Definition lapicr (index : Z) : A Z := rd32 (lapic + 4 * index).

Definition lapicw (index value : Z) : A unit :=
  wr32 (lapic + 4 * index) value ;;
  _ ← lapicr ID;
  mret tt.

Fixpoint wait_delivery (fuel : nat) : A unit :=
  v ← lapicr ICRLO;
  if negb (Z.land v DELIVS =? 0)
  then match fuel with O => nofuel | S fuel' => wait_delivery fuel' end
  else mret tt.

Definition lapicinit (fuel : nat) : A unit :=
  if lapic =? 0 then mret tt else
  lapicw SVR (Z.lor ENABLE (T_IRQ0 + IRQ_SPURIOUS)) ;;
  lapicw TDCR X1 ;;
  lapicw TIMER (Z.lor PERIODIC (T_IRQ0 + IRQ_TIMER)) ;;
  lapicw TICR 10000000 ;;
  lapicw LINT0 MASKED ;;
  lapicw LINT1 MASKED ;;
  v ← lapicr VER;
  (if 4 <=? Z.land (Z.shiftr v 16) 0xFF then lapicw PCINT MASKED else mret tt) ;;
  lapicw ERROR (T_IRQ0 + IRQ_ERROR) ;;
  lapicw ESR 0 ;;
  lapicw ESR 0 ;;
  lapicw EOI 0 ;;
  lapicw ICRHI 0 ;;
  lapicw ICRLO (Z.lor BCAST (Z.lor INIT LEVEL)) ;;
  wait_delivery fuel ;;
  lapicw TPR 0.

Definition lapicid : A Z :=
  if lapic =? 0 then mret 0 else
  v ← lapicr ID; mret (Z.shiftr v 24).

Definition lapiceoi : A unit :=
  if lapic =? 0 then mret tt else lapicw EOI 0.

Definition CMOS_PORT : Z := 0x70.
Definition CMOS_RETURN : Z := 0x71.

(** The two halves of the warm reset vector are stores of 16 bits. *)
Definition lapicstartap (wr16 : Z -> Z -> H -> H) (apicid addr : Z) : A unit :=
  out_ CMOS_PORT 0xF ;;
  out_ (CMOS_PORT + 1) 0x0A ;;
  let wrv := P2V (Z.lor (Z.shiftl 0x40 4) 0x67) in
  modS (wr16 wrv 0) ;;
  modS (wr16 (wrv + 2) (u16 (Z.shiftr addr 4))) ;;
  lapicw ICRHI (Z.shiftl apicid 24) ;;
  lapicw ICRLO (Z.lor INIT (Z.lor LEVEL ASSERT)) ;;
  lapicw ICRLO (Z.lor INIT LEVEL) ;;
  mfor (seq 0 2) (fun _ =>
    lapicw ICRHI (Z.shiftl apicid 24) ;;
    lapicw ICRLO (Z.lor STARTUP (Z.shiftr addr 12))).
End Lapic.

(** ** The clock chip *)

Definition CMOS_STATA : Z := 0x0a.
Definition CMOS_STATB : Z := 0x0b.
Definition CMOS_UIP : Z := Z.shiftl 1 7.

Record rtcdate := mkdate { second : Z; minute : Z; hour : Z; day : Z; month : Z; year : Z }.

Definition rtcdate_eqb (a b : rtcdate) : bool :=
  (second a =? second b) && (minute a =? minute b) && (hour a =? hour b) &&
  (day a =? day b) && (month a =? month b) && (year a =? year b).

Definition cmos_read (reg : Z) : A Z :=
  out_ CMOS_PORT reg ;;
  in_ CMOS_RETURN.

Definition fill_rtcdate : A rtcdate :=
  s ← cmos_read 0x00;
  m ← cmos_read 0x02;
  h ← cmos_read 0x04;
  d ← cmos_read 0x07;
  mo ← cmos_read 0x08;
  y ← cmos_read 0x09;
  mret (mkdate s m h d mo y).

Fixpoint read_date (fuel : nat) : A rtcdate :=
  match fuel with
  | O => nofuel
  | S fuel' =>
      t1 ← fill_rtcdate;
      a ← cmos_read CMOS_STATA;
      if negb (Z.land a CMOS_UIP =? 0) then read_date fuel' else
      t2 ← fill_rtcdate;
      if rtcdate_eqb t1 t2 then mret t1 else read_date fuel'
  end.

Definition CONV (x : Z) : Z := u32 (Z.shiftr x 4 * 10 + Z.land x 0xf).

Definition decode_date (sb : Z) (t : rtcdate) : rtcdate :=
  let bcd := Z.land sb (Z.shiftl 1 2) =? 0 in
  let conv x := if bcd then CONV x else x in
  mkdate (conv (second t)) (conv (minute t)) (conv (hour t)) (conv (day t)) (conv (month t)) (u32 (conv (year t) + 2000)).

Definition cmostime (fuel : nat) : A rtcdate :=
  sb ← cmos_read CMOS_STATB;
  t ← read_date fuel;
  mret (decode_date sb t).

(** ** The I/O controller *)

Definition IOAPIC : Z := 0xFEC00000.
Definition REG_ID : Z := 0.
Definition REG_VER : Z := 1.
Definition REG_TABLE : Z := 0x10.
Definition INT_DISABLED : Z := 0x10000.

Definition ioapicread (reg : Z) : A Z :=
  wr32 IOAPIC reg ;;
  rd32 (IOAPIC + 0x10).

Definition ioapicwrite (reg data : Z) : A unit :=
  wr32 IOAPIC reg ;;
  wr32 (IOAPIC + 0x10) data.

(** [for(i = 0; i <= maxintr; i++)] *)
Definition disable_all (maxintr : Z) : A unit :=
  mfor (seqZ 0 (maxintr + 1)) (fun i =>
    ioapicwrite (REG_TABLE + 2 * i) (Z.lor INT_DISABLED (T_IRQ0 + i)) ;;
    ioapicwrite (REG_TABLE + 2 * i + 1) 0).

Definition ioapicinit (ioapicid : Z) : A unit :=
  v ← ioapicread REG_VER;
  let maxintr := Z.land (Z.shiftr v 16) 0xFF in
  i ← ioapicread REG_ID;
  let id := Z.shiftr i 24 in
  (if negb (id =? ioapicid) then cprintf "ioapicinit: id isn't equal to ioapicid; not a MP\n" [] else mret tt) ;;
  disable_all maxintr.

Definition ioapicenable (irq cpunum : Z) : A unit :=
  ioapicwrite (REG_TABLE + 2 * irq) (T_IRQ0 + irq) ;;
  ioapicwrite (REG_TABLE + 2 * irq + 1) (Z.shiftl cpunum 24).

(** ** The old controllers *)

Definition IO_PIC1 : Z := 0x20.
Definition IO_PIC2 : Z := 0xA0.

Definition picinit : A unit :=
  out_ (IO_PIC1 + 1) 0xFF ;;
  out_ (IO_PIC2 + 1) 0xFF.
End Apic.

(** ** The clock is read without tearing and decoded *)

(** What the data sheet says of the clock chip while its registers hold [f]. *)
Class RtcOk (H : Type) `{Ports H} := {
  chip : (Z -> Z) -> H -> Prop;
  chip_read f h r : 0 <= r < 256 -> chip f h ->
    let '(v, h') := p_inb CMOS_RETURN (p_outb CMOS_PORT r h) in v = f r /\ chip f h';
}.

(** A number below 100 in binary-coded decimal. *)
Definition bcd (n : Z) : Z := n / 10 * 16 + n mod 10.

Lemma CONV_bcd n : 0 <= n < 100 -> CONV (bcd n) = n.
Proof.
  intros Hn. apply Z.eqb_eq. revert n Hn.
  assert (Hall : forallb (fun n => CONV (bcd n) =? n) (seqZ 0 100) = true) by (vm_compute; reflexivity).
  intros n Hn. rewrite forallb_forall in Hall. apply Hall, list_elem_of_In, elem_of_seqZ. lia.
Qed.

Section Clock.
Context {H : Type} `{RtcOk H}.
Implicit Types (c : ctx) (h : H).

Lemma cmos_read_run f c h r : 0 <= r < 256 -> chip f h -> exists h', cmos_read r c h = Ok (f r) c h' /\ chip f h'.
Proof.
  intros Hr Hc. pose proof (chip_read f h r Hr Hc) as Hl. unfold cmos_read, in_, out_. mrun. rewrite u8_small by lia.
  destruct (p_inb CMOS_RETURN (p_outb CMOS_PORT r h)) as [v h']. destruct Hl as [-> Hc']. eauto.
Qed.

Lemma fill_run f c h : chip f h ->
  exists h', fill_rtcdate c h = Ok (mkdate (f 0) (f 2) (f 4) (f 7) (f 8) (f 9)) c h' /\ chip f h'.
Proof.
  intros C0. unfold fill_rtcdate.
  destruct (cmos_read_run f c h 0 ltac:(lia) C0) as (h1 & E1 & C1). destruct (cmos_read_run f c h1 2 ltac:(lia) C1) as (h2 & E2 & C2).
  destruct (cmos_read_run f c h2 4 ltac:(lia) C2) as (h3 & E3 & C3). destruct (cmos_read_run f c h3 7 ltac:(lia) C3) as (h4 & E4 & C4).
  destruct (cmos_read_run f c h4 8 ltac:(lia) C4) as (h5 & E5 & C5). destruct (cmos_read_run f c h5 9 ltac:(lia) C5) as (h6 & E6 & C6).
  exists h6. split; [|done].
  repeat (rewrite bindE; first [rewrite E1|rewrite E2|rewrite E3|rewrite E4|rewrite E5|rewrite E6]; cbn [obind]). done.
Qed.

Lemma rtcdate_eqb_spec (a b : rtcdate) : rtcdate_eqb a b = true <-> a = b.
Proof.
  destruct a, b. unfold rtcdate_eqb. cbn. rewrite !andb_true_iff, !Z.eqb_eq. split; [intros (((((-> & ->) & ->) & ->) & ->) & ->); done|].
  intros [= -> -> -> -> -> ->]. done.
Qed.

(** cmostime() of a chip in BCD mode that is not being updated returns the date. *)
Theorem cmostime_spec f c h fuel s m hr d mo y :
  chip f h -> Z.land (f CMOS_STATA) CMOS_UIP = 0 -> Z.land (f CMOS_STATB) 4 = 0 ->
  Forall (fun x => 0 <= x < 100) [s; m; hr; d; mo; y] ->
  (f 0, f 2, f 4, f 7, f 8, f 9) = (bcd s, bcd m, bcd hr, bcd d, bcd mo, bcd y) ->
  exists h', cmostime (S fuel) c h = Ok (mkdate s m hr d mo (2000 + y)) c h'.
Proof.
  intros C0 Ha Hb Hn [= E1 E2 E3 E4 E5 E6]. repeat rewrite Forall_cons in Hn. destruct Hn as (? & ? & ? & ? & ? & ? & _).
  destruct (cmos_read_run f c h CMOS_STATB ltac:(done) C0) as (h1 & R1 & C1). destruct (fill_run f c h1 C1) as (h2 & R2 & C2).
  destruct (cmos_read_run f c h2 CMOS_STATA ltac:(done) C2) as (h3 & R3 & C3). destruct (fill_run f c h3 C3) as (h4 & R4 & C4).
  exists h4. unfold cmostime. rewrite bindE, R1. cbn [obind]. rewrite bindE. cbn [read_date]. rewrite bindE, R2. cbn [obind].
  rewrite bindE, R3. cbn [obind]. rewrite Ha. change (negb (0 =? 0)) with false. cbv iota. rewrite bindE, R4. cbn [obind].
  rewrite (proj2 (rtcdate_eqb_spec _ _) eq_refl). mrun. unfold decode_date.
  change (Z.shiftl 1 2) with 4. rewrite Hb. change (0 =? 0) with true. cbn [second minute hour day month year].
  rewrite E1, E2, E3, E4, E5, E6, !CONV_bcd, u32_small by lia. by rewrite Z.add_comm.
Qed.
End Clock.

(** ** The routing of interrupts *)

(** What the data sheet says of the I/O controller: a window selects a register, and
    the registers of the redirection table can be written. *)
Class IoapicOk (H : Type) `{Mmio H} := {
  io_sel : H -> Z;
  io_reg : H -> Z -> Z;
  io_select h v : io_sel (m_wr IOAPIC v h) = v /\ forall r, io_reg (m_wr IOAPIC v h) r = io_reg h r;
  io_read h : let '(v, h') := m_rd (IOAPIC + 0x10) h in v = io_reg h (io_sel h) /\ forall r, io_reg h' r = io_reg h r;
  io_write h v : REG_TABLE <= io_sel h -> forall r, io_reg (m_wr (IOAPIC + 0x10) v h) r = if r =? io_sel h then v else io_reg h r;
}.

Section Routing.
Context {H : Type} `{IoapicOk H}.
Implicit Types (c : ctx) (h : H).

Lemma ioapicread_run c h reg : 0 <= reg < 2 ^ 32 -> exists h', ioapicread reg c h = Ok (io_reg h reg) c h' /\ forall r, io_reg h' r = io_reg h r.
Proof.
  intros Hr. unfold ioapicread, wr32, rd32. mrun. rewrite u32_small by lia. destruct (io_select h reg) as [Es Er].
  pose proof (io_read (m_wr IOAPIC reg h)) as Hl. destruct (m_rd (IOAPIC + 0x10) (m_wr IOAPIC reg h)) as [v h'].
  destruct Hl as [-> Hl]. exists h'. rewrite Es, Er. split; [done|]. intros r. by rewrite Hl.
Qed.

Lemma ioapicwrite_run c h reg v : REG_TABLE <= reg < 2 ^ 32 -> 0 <= v < 2 ^ 32 ->
  exists h', ioapicwrite reg v c h = Ok tt c h' /\ forall r, io_reg h' r = if r =? reg then v else io_reg h r.
Proof.
  intros Hr Hv. unfold ioapicwrite, wr32. mrun. unfold REG_TABLE in Hr. rewrite !u32_small by lia. destruct (io_select h reg) as [Es Er].
  eexists. split; [done|]. intros r. rewrite io_write by (rewrite Es; unfold REG_TABLE; lia). by rewrite Es, Er.
Qed.

(** The two registers of an interrupt. *)
Definition route h (i : Z) : Z * Z := (io_reg h (REG_TABLE + 2 * i), io_reg h (REG_TABLE + 2 * i + 1)).

Lemma write_pair c h i lo hi : 0 <= i < 256 -> 0 <= lo < 2 ^ 32 -> 0 <= hi < 2 ^ 32 -> exists h',
  (ioapicwrite (REG_TABLE + 2 * i) lo ;; ioapicwrite (REG_TABLE + 2 * i + 1) hi) c h = Ok tt c h' /\
  forall j, route h' j = if j =? i then (lo, hi) else route h j.
Proof.
  intros Hi Hlo Hhi. unfold REG_TABLE.
  destruct (ioapicwrite_run c h (0x10 + 2 * i) lo) as (h1 & E1 & R1); [unfold REG_TABLE; lia|done|].
  destruct (ioapicwrite_run c h1 (0x10 + 2 * i + 1) hi) as (h2 & E2 & R2); [unfold REG_TABLE; lia|done|].
  exists h2. rewrite bindE, E1. cbn [obind]. split; [exact E2|]. intros j. unfold route, REG_TABLE. rewrite !R2, !R1.
  destruct (Z.eqb_spec j i) as [->|Hne].
  - rewrite !Z.eqb_refl. by rewrite (proj2 (Z.eqb_neq (16 + 2 * i) (16 + 2 * i + 1))) by lia.
  - by rewrite !(proj2 (Z.eqb_neq _ _)) by lia.
Qed.

Definition disabled (i : Z) : Z * Z := (Z.lor INT_DISABLED (T_IRQ0 + i), 0).
Definition enabled (i cpu : Z) : Z * Z := (T_IRQ0 + i, Z.shiftl cpu 24).

Lemma disable_run c (n : nat) m h : 0 <= m -> m + Z.of_nat n <= 256 -> exists h',
  mfor (seqZ m (Z.of_nat n)) (fun i => ioapicwrite (REG_TABLE + 2 * i) (Z.lor INT_DISABLED (T_IRQ0 + i)) ;;
    ioapicwrite (REG_TABLE + 2 * i + 1) 0) c h = Ok tt c h' /\
  forall j, route h' j = if (m <=? j) && (j <? m + Z.of_nat n) then disabled j else route h j.
Proof.
  revert m h. induction n as [|n IH]; intros m h Hm Hn.
  - exists h. split; [done|]. intros j. destruct (Z.leb_spec m j), (Z.ltb_spec j (m + Z.of_nat 0)); try done; lia.
  - rewrite seqZ_cons by lia. cbn [mfor].
    assert (Hv : 0 <= Z.lor INT_DISABLED (T_IRQ0 + m) < 2 ^ 32).
    { split; [apply Z.lor_nonneg; unfold T_IRQ0; split; [done|lia]|]. destruct (Z.eq_dec (Z.lor INT_DISABLED (T_IRQ0 + m)) 0) as [->|]; [done|].
      apply Z.log2_lt_pow2; [|rewrite Z.log2_lor by (unfold INT_DISABLED, T_IRQ0; lia)].
      - assert (0 <= Z.lor INT_DISABLED (T_IRQ0 + m)) by (apply Z.lor_nonneg; unfold T_IRQ0; split; [done|lia]). lia.
      - apply Z.max_lub_lt; [done|]. assert (Z.log2 (T_IRQ0 + m) <= Z.log2 512) by (apply Z.log2_le_mono; unfold T_IRQ0; lia). change (Z.log2 512) with 9 in *. lia. }
    destruct (write_pair c h m _ 0 ltac:(lia) Hv ltac:(lia)) as (h1 & E1 & R1).
    destruct (IH (Z.succ m) h1 ltac:(lia) ltac:(lia)) as (h2 & E2 & R2).
    replace (Z.pred (Z.of_nat (S n))) with (Z.of_nat n) by lia. exists h2. rewrite bindE, E1. cbn [obind]. split; [exact E2|].
    intros j. rewrite R2, R1. destruct (Z.leb_spec (Z.succ m) j), (Z.ltb_spec j (Z.succ m + Z.of_nat n)), (Z.leb_spec m j),
      (Z.ltb_spec j (m + Z.of_nat (S n))), (Z.eqb_spec j m) as [->|]; try done; try lia.
Qed.

(** Where interrupt [i] goes after the calls [l] of ioapicenable(). *)
Definition routed (l : list (Z * Z)) (i : Z) : Z * Z :=
  foldl (fun r x => if x.1 =? i then enabled i x.2 else r) (disabled i) l.

Lemma enable_run c l h : Forall (fun x : Z * Z => 0 <= x.1 < 256 /\ 0 <= x.2 < 256) l -> exists h',
  mfor l (fun x => ioapicenable x.1 x.2) c h = Ok tt c h' /\
  forall j, route h' j = foldl (fun r x => if x.1 =? j then enabled j x.2 else r) (route h j) l.
Proof.
  revert h. induction l as [|[irq cpu] l IH]; intros h Hl; [by exists h|]. apply Forall_cons in Hl as [[Hi Hc] Hl]. cbn [fst snd] in *.
  assert (Hv : 0 <= Z.shiftl cpu 24 < 2 ^ 32) by (rewrite Z.shiftl_mul_pow2 by lia; lia).
  destruct (write_pair c h irq (T_IRQ0 + irq) _ Hi ltac:(unfold T_IRQ0; lia) Hv) as (h1 & E1 & R1).
  destruct (IH h1 Hl) as (h2 & E2 & R2). exists h2. cbn [mfor]. rewrite bindE. unfold ioapicenable. cbn [fst snd]. rewrite E1. cbn [obind].
  split; [exact E2|]. intros j. rewrite R2, R1. cbn [foldl fst snd]. rewrite Z.eqb_sym. by destruct (Z.eqb_spec irq j) as [->|].
Qed.

(** C39: After ioapicinit() every interrupt the controller has is off, and each call of
    ioapicenable() turns on its own interrupt for the given processor and no other. *)
Theorem ioapic_routing id l c h :
  let maxintr := Z.land (Z.shiftr (io_reg h REG_VER) 16) 0xFF in
  Forall (fun x : Z * Z => 0 <= x.1 <= maxintr /\ 0 <= x.2 < 256) l ->
  exists c' h', (ioapicinit id ;; mfor l (fun x => ioapicenable x.1 x.2)) c h = Ok tt c' h' /\
    forall i, 0 <= i <= maxintr -> route h' i = routed l i.
Proof.
  intros maxintr Hl.
  assert (Hm : 0 <= maxintr < 256) by (unfold maxintr; change 255 with (Z.ones 8); rewrite Z.land_ones by lia; apply Z.mod_pos_bound; lia).
  unfold ioapicinit. destruct (ioapicread_run c h REG_VER ltac:(done)) as (h1 & E1 & R1).
  destruct (ioapicread_run c h1 REG_ID ltac:(done)) as (h2 & E2 & R2). rewrite bindE, bindE, E1. cbn [obind]. rewrite bindE, E2. cbn [obind].
  fold maxintr. set (c1 := if Z.shiftr (io_reg h1 REG_ID) 24 =? id then c else c <| trace ::= fun t => t ++ [Ecprintf "ioapicinit: id isn't equal to ioapicid; not a MP\n" []] |>).
  destruct (disable_run c1 (Z.to_nat (maxintr + 1)) 0 h2 ltac:(lia) ltac:(lia)) as (h3 & E3 & R3). rewrite Z2Nat.id in * by lia.
  destruct (enable_run c1 l h3) as (h4 & E4 & R4); [eapply Forall_impl; [exact Hl|cbn; lia]|].
  exists c1, h4. split.
  - unfold disable_all. rewrite bindE. unfold c1 in *. destruct (Z.shiftr (io_reg h1 REG_ID) 24 =? id); cbn [negb];
      [rewrite retE|unfold cprintf, emit]; cbn [obind]; rewrite E3; exact E4.
  - intros i Hi. rewrite R4, R3. unfold routed. destruct (Z.leb_spec 0 i), (Z.ltb_spec i (0 + (maxintr + 1))); try lia. done.
Qed.
End Routing.

(** ** Examples of such devices *)

(** A clock chip and an I/O controller as register files. *)
Record board := mkboard { cmos_sel : Z; cmos : list Z; ioa_sel : Z; ioa : gmap Z Z }.

#[export] Instance board_ports : Ports board := {|
  p_inb := fun port b => (if port =? CMOS_RETURN then default 0 (cmos b !! Z.to_nat (cmos_sel b)) else 0, b);
  p_outb := fun port v b => if port =? CMOS_PORT then mkboard v (cmos b) (ioa_sel b) (ioa b) else b;
|}.

#[export] Instance board_mmio : Mmio board := {|
  m_rd := fun a b => (if a =? IOAPIC + 0x10 then default 0 (ioa b !! ioa_sel b) else 0, b);
  m_wr := fun a v b =>
    if a =? IOAPIC then mkboard (cmos_sel b) (cmos b) v (ioa b)
    else if a =? IOAPIC + 0x10 then mkboard (cmos_sel b) (cmos b) (ioa_sel b) (<[ioa_sel b := v]> (ioa b)) else b;
|}.

#[export, refine] Instance board_rtc : RtcOk board := {| chip := fun f b => forall r, 0 <= r < 256 -> default 0 (cmos b !! Z.to_nat r) = f r |}.
Proof. intros f h r Hr Hc. cbn. by rewrite Hc. Defined.

#[export, refine] Instance board_ioapic : IoapicOk board := {| io_sel := ioa_sel; io_reg := fun b r => default 0 (ioa b !! r) |}.
Proof.
  - done.
  - done.
  - intros h v _ r. change (default 0 (<[ioa_sel h := v]> (ioa h) !! r) = if r =? ioa_sel h then v else default 0 (ioa h !! r)).
    destruct (Z.eqb_spec r (ioa_sel h)) as [->|Hne]; [by rewrite lookup_insert_eq|by rewrite lookup_insert_ne].
Defined.

Definition demo_board : board :=
  mkboard 0 [bcd 59; 0; bcd 30; 0; bcd 12; 0; 0; bcd 31; bcd 12; bcd 24; 0; 0] 0 {[1 := 0x170000]}.

Lemma cmostime_spec_witness : exists h', cmostime 1 (Ctx [] []) demo_board = Ok (mkdate 59 30 12 31 12 2024) (Ctx [] []) h'.
Proof.
  apply (cmostime_spec (fun r => default 0 (cmos demo_board !! Z.to_nat r)) (Ctx [] []) demo_board 0 59 30 12 31 12 24);
    [done|done|done|repeat (apply Forall_cons_2; [lia|]); apply Forall_nil_2|done].
Defined.

Lemma ioapic_routing_witness : exists c' h',
  (ioapicinit 0 ;; mfor [(1, 0); (14, 1)] (fun x => ioapicenable x.1 x.2)) (Ctx [] []) demo_board = Ok tt c' h' /\
  route h' 14 = (46, 2 ^ 24) /\ route h' 3 = (0x10023, 0).
Proof.
  destruct (ioapic_routing 0 [(1, 0); (14, 1)] (Ctx [] []) demo_board) as (c' & h' & Hrun & Hr);
    [repeat (apply Forall_cons_2; [vm_compute; repeat split; congruence|]); apply Forall_nil_2|]. exists c', h'. split; [exact Hrun|].
  rewrite !Hr by (vm_compute; split; congruence). split; reflexivity.
Defined.
