(* ===== verification/Boot.v ===== *)
(** * The boot loader (src/bootmain.c)

    bootmain() reads the ELF image of the kernel from the disk, sector 1 on, and
    puts its segments at their physical addresses.  The state is the memory, a byte
    per address, and the hardware behind the interfaces [Ports] and [Insl]; the
    loops that wait for the disk have fuel. *)

From stdpp Require Import prelude gmap strings list.
From Stdlib Require Import ZArith Lia Sorted.
From S2P Require Import Prelude Layout Console Exec.

(** [insl(port, addr, cnt)] brings [cnt] words, as their bytes. *)
Class Insl (H : Type) := p_insl : Z -> nat -> H -> list Z * H.

Definition SECTSIZE : Z := 512.

Record pc (H : Type) := mkpc { ram : Z -> Z; dev : H }.
Arguments mkpc {H} _ _.
Arguments ram {H} _ _.
Arguments dev {H} _.

(** Memory with the bytes [bs] from [a] on. *)
Definition poke (m : Z -> Z) (a : Z) (bs : list Z) (x : Z) : Z :=
  if (a <=? x) && (x <? a + Z.of_nat (length bs)) then default 0 (bs !! Z.to_nat (x - a)) else m x.

Definition span (m : Z -> Z) (a n : Z) : list Z := m <$> seqZ a n.

Section Boot.
Context {H : Type} `{Ports H} `{Insl H} (fuel : nat).
Abbreviation B := (M (pc H)).

Definition b_inb (port : Z) : B Z := fun c s => let '(v, h) := p_inb port (dev s) in Ok v c (mkpc (ram s) h).
Definition b_outb (port v : Z) : B unit := modS (fun s => mkpc (ram s) (p_outb port (u8 v) (dev s))).

Fixpoint waitdisk_loop (n : nat) : B unit :=
  v ← b_inb 0x1F7;
  if negb (Z.land v 0xC0 =? 0x40) then match n with O => nofuel | S n' => waitdisk_loop n' end else mret tt.
Definition waitdisk : B unit := waitdisk_loop fuel.

Definition insl (port dst : Z) (cnt : nat) : B unit := fun c s =>
  let '(bs, h) := p_insl port cnt (dev s) in Ok tt c (mkpc (poke (ram s) dst bs) h).

Definition readsect (dst offset : Z) : B unit :=
  waitdisk ;;
  b_outb 0x1F2 1 ;;
  b_outb 0x1F3 offset ;;
  b_outb 0x1F4 (Z.shiftr offset 8) ;;
  b_outb 0x1F5 (Z.shiftr offset 16) ;;
  b_outb 0x1F6 (Z.lor (Z.shiftr offset 24) 0xE0) ;;
  b_outb 0x1F7 0x20 ;;
  waitdisk ;;
  insl 0x1F0 dst (Z.to_nat (SECTSIZE / 4)).

(** [for(; pa < epa; pa += SECTSIZE, offset++)], [n] rounds at most. *)
Fixpoint readseg_loop (n : nat) (pa epa offset : Z) : B unit :=
  if pa <? epa then
    match n with
    | O => nofuel
    | S n' => readsect pa offset ;; readseg_loop n' (u32 (pa + SECTSIZE)) epa (u32 (offset + 1))
    end
  else mret tt.

Definition readseg (pa count offset : Z) : B unit :=
  let epa := u32 (pa + count) in
  let pa := u32 (pa - offset mod SECTSIZE) in
  let offset := u32 (offset / SECTSIZE + 1) in
  readseg_loop (Z.to_nat (count / SECTSIZE + 2)) pa epa offset.

Definition stosb (addr data cnt : Z) : B unit :=
  modS (fun s => mkpc (poke (ram s) addr (replicate (Z.to_nat cnt) (u8 data))) (dev s)).

Definition load_segment (ph : proghdr) : B unit :=
  let pa := ph_paddr ph in
  readseg pa (ph_filesz ph) (ph_off ph) ;;
  if ph_filesz ph <? ph_memsz ph then stosb (u32 (pa + ph_filesz ph)) 0 (ph_memsz ph - ph_filesz ph) else mret tt.

(** [for(; ph < eph; ph++)]: the header is read from memory in each round. *)
Fixpoint load_headers (n : nat) (ph : Z) : B unit :=
  match n with
  | O => mret tt
  | S n' =>
      s ← getS;
      load_segment (get_proghdr (span (ram s) ph 32)) ;;
      load_headers n' (ph + 32)
  end.

Definition ELF_SCRATCH : Z := 0x10000.

(** The address bootmain() jumps to, or [None] when it returns to bootasm.S.  The
    code is entered with the memory as it is then; elf->entry is read from it. *)
Definition bootmain : B (option Z) :=
  readseg ELF_SCRATCH 4096 0 ;;
  s ← getS;
  let elf := get_elfhdr (span (ram s) ELF_SCRATCH 52) in
  if negb (magic elf =? ELF_MAGIC) then mret None else
  load_headers (Z.to_nat (phnum elf)) (ELF_SCRATCH + phoff elf) ;;
  s ← getS;
  mret (Some (entry (get_elfhdr (span (ram s) ELF_SCRATCH 52)))).
End Boot.

(** ** What the disk promises *)

(** An ATA disk: within [patience] looks at the status it is ready; a read command
    for sector [k] makes the 512 bytes of the sector available at the data port. *)
Class AtaOk (H : Type) `{Ports H} `{Insl H} := {
  platter : Z -> list Z;
  patience : nat;
  ata_idle : nat -> H -> Prop;
  ata_loaded : Z -> nat -> H -> Prop;
  ata_len k : length (platter k) = 512%nat;
  ata_poll_idle n h : ata_idle n h -> let '(v, h') := p_inb 0x1F7 h in
    Z.land v 0xC0 = 0x40 /\ ata_idle 0 h' \/ Z.land v 0xC0 <> 0x40 /\ exists n', n = S n' /\ ata_idle n' h';
  ata_command k h : 0 <= k < 2 ^ 28 -> ata_idle 0 h ->
    ata_loaded k patience (p_outb 0x1F7 0x20 (p_outb 0x1F6 (u8 (Z.lor (Z.shiftr k 24) 0xE0)) (p_outb 0x1F5 (u8 (Z.shiftr k 16))
      (p_outb 0x1F4 (u8 (Z.shiftr k 8)) (p_outb 0x1F3 (u8 k) (p_outb 0x1F2 1 h))))));
  ata_poll_loaded k n h : ata_loaded k n h -> let '(v, h') := p_inb 0x1F7 h in
    Z.land v 0xC0 = 0x40 /\ ata_loaded k 0 h' \/ Z.land v 0xC0 <> 0x40 /\ exists n', n = S n' /\ ata_loaded k n' h';
  ata_data k h : ata_loaded k 0 h -> let '(bs, h') := p_insl 0x1F0 128 h in bs = platter k /\ ata_idle patience h';
}.

Lemma span_ext m m' a n : (forall x, a <= x < a + n -> m' x = m x) -> span m' a n = span m a n.
Proof. intros He. unfold span. apply list_fmap_ext. intros k x Hx. apply lookup_seqZ in Hx as [-> Hk]. apply He. lia. Qed.

Section Load.
Context {H : Type} `{AtaOk H} (fuel : nat) (Hfuel : (patience <= fuel)%nat).
Implicit Types (c : ctx) (m : Z -> Z) (h : H).

(** A device that gets ready. *)
Lemma wait_run (P : nat -> H -> Prop) n m h c k :
  (forall n h, P n h -> let '(v, h') := p_inb 0x1F7 h in
    Z.land v 0xC0 = 0x40 /\ P 0%nat h' \/ Z.land v 0xC0 <> 0x40 /\ exists n', n = S n' /\ P n' h') ->
  P n h -> (n <= k)%nat -> exists h', waitdisk_loop k c (mkpc m h) = Ok tt c (mkpc m h') /\ P 0%nat h'.
Proof.
  intros Hpoll. revert h n. induction k as [|k IH]; intros h n Hp Hk; pose proof (Hpoll _ _ Hp) as Hl;
    cbn [waitdisk_loop]; rewrite bindE; unfold b_inb at 1; cbn [dev ram]; destruct (p_inb 0x1F7 h) as [v h']; cbn [obind];
    (destruct Hl as [[Hv Hp']|(Hv & n' & -> & Hp')]; [rewrite Hv; by exists h'|]); [lia|].
  rewrite (proj2 (Z.eqb_neq _ _)) by done. apply (IH h' n' Hp'). lia.
Qed.

Lemma readsect_run c m h n dst k : ata_idle n h -> (n <= fuel)%nat -> 0 <= k < 2 ^ 28 -> exists h',
  readsect fuel dst k c (mkpc m h) = Ok tt c (mkpc (poke m dst (platter k)) h') /\ ata_idle patience h'.
Proof.
  intros Hi Hn Hk. destruct (wait_run ata_idle n m h c fuel ata_poll_idle Hi Hn) as (h1 & E1 & I1).
  pose proof (ata_command k h1 Hk I1) as L2. set (h2 := p_outb 0x1F7 _ _) in L2.
  destruct (wait_run (ata_loaded k) _ m h2 c fuel (ata_poll_loaded k) L2 Hfuel) as (h3 & E3 & L3).
  pose proof (ata_data k h3 L3) as Hd. unfold readsect, waitdisk. rewrite bindE, E1. cbn [obind]. unfold b_outb. mrun.
  cbn [ram dev]. change (u8 1) with 1. change (u8 0x20) with 0x20. fold h2. change (Z.to_nat (SECTSIZE / 4)) with 128%nat. rewrite E3. cbn [obind].
  unfold insl. cbn [dev ram]. destruct (p_insl 0x1F0 128 h3) as [bs h4]. destruct Hd as [-> I4]. by exists h4.
Qed.

(** Byte [i] of the kernel file. *)
Definition kbyte (i : Z) : Z := default 0 (platter (1 + i / 512) !! Z.to_nat (i mod 512)).

(** Memory with the kernel file from byte [i] on at the addresses [lo, hi). *)
Definition filled m (lo hi i : Z) (x : Z) : Z := if (lo <=? x) && (x <? hi) then kbyte (i + (x - lo)) else m x.

Lemma poke_sector m a k x : poke m a (platter (k + 1)) x = if (a <=? x) && (x <? a + 512) then kbyte (512 * k + (x - a)) else m x.
Proof.
  unfold poke. rewrite ata_len. change (Z.of_nat 512) with 512. destruct (Z.leb_spec a x), (Z.ltb_spec x (a + 512)); try done. cbn [andb].
  unfold kbyte. replace ((512 * k + (x - a)) / 512) with k by (apply (Z.div_unique _ _ _ (x - a)); lia).
  replace ((512 * k + (x - a)) mod 512) with (x - a) by (apply (Z.mod_unique _ _ k); lia). by rewrite Z.add_comm.
Qed.

Lemma readseg_loop_run c n m h q pa epa k : ata_idle q h -> (q <= fuel)%nat ->
  0 <= pa -> epa + 512 < 2 ^ 32 -> epa <= pa + 512 * Z.of_nat n -> 0 <= k -> k + 1 + Z.of_nat n < 2 ^ 28 -> exists m' h' hi,
  readseg_loop fuel n pa epa (k + 1) c (mkpc m h) = Ok tt c (mkpc m' h') /\ (exists q', (q' <= fuel)%nat /\ ata_idle q' h') /\
  (forall x, m' x = filled m pa hi (512 * k) x) /\ epa <= Z.max epa hi /\ (pa < epa -> epa <= hi < epa + 512) /\ (epa <= pa -> hi = pa).
Proof.
  revert m h q pa k. induction n as [|n IH]; intros m h q pa k Hi Hq Hpa Hepa Hn Hk Hb.
  - exists m, h, pa. cbn [readseg_loop]. destruct (Z.ltb_spec pa epa); [lia|]. split; [done|]. split; [by exists q|].
    split; [|lia]. intros x. unfold filled. destruct (Z.leb_spec pa x), (Z.ltb_spec x pa); try done; lia.
  - cbn [readseg_loop]. destruct (Z.ltb_spec pa epa).
    + destruct (readsect_run c m h q pa (k + 1) Hi Hq ltac:(lia)) as (h1 & E1 & I1). rewrite bindE, E1. cbn [obind].
      unfold SECTSIZE. rewrite !u32_small by lia.
      destruct (IH (poke m pa (platter (k + 1))) h1 patience (pa + 512) (k + 1) I1 Hfuel ltac:(lia) Hepa ltac:(lia) ltac:(lia) ltac:(lia))
        as (m' & h' & hi & E2 & I2 & F2 & _ & G1 & G2).
      exists m', h', hi. split; [exact E2|]. split; [done|]. split; [|lia]. intros x. rewrite F2. unfold filled. rewrite poke_sector.
      destruct (Z.leb_spec (pa + 512) x), (Z.ltb_spec x hi), (Z.leb_spec pa x), (Z.ltb_spec x (pa + 512)); cbn [andb]; try done; try lia; f_equal; lia.
    + exists m, h, pa. split; [done|]. split; [by exists q|]. split; [|lia].
      intros x. unfold filled. destruct (Z.leb_spec pa x), (Z.ltb_spec x pa); try done; lia.
Qed.

(** ** Segments *)

Definition ready h : Prop := exists q, (q <= fuel)%nat /\ ata_idle q h.

(** The addresses that loading a segment may write. *)
Definition extent (ph : proghdr) : Z := Z.max (ph_filesz ph) (ph_memsz ph).
Definition touches (ph : proghdr) (x : Z) : Prop := ph_paddr ph - 512 < x < ph_paddr ph + extent ph + 512.

Record seg_ok (ph : proghdr) : Prop := {
  sg_pa : 512 <= ph_paddr ph /\ ph_paddr ph + extent ph + 1024 < 2 ^ 32;
  sg_file : 0 <= ph_filesz ph /\ 0 <= ph_memsz ph;
  sg_off : 0 <= ph_off ph /\ ph_off ph + ph_filesz ph < 2 ^ 31;
}.

(** The segment is in memory: its bytes of the file, and zeros behind them. *)
Record in_place m (ph : proghdr) : Prop := {
  ip_file : forall i, 0 <= i < ph_filesz ph -> m (ph_paddr ph + i) = kbyte (ph_off ph + i);
  ip_bss : forall i, ph_filesz ph <= i < ph_memsz ph -> m (ph_paddr ph + i) = 0;
}.

Lemma readseg_run c m h pa n off : ready h -> 512 <= pa -> 0 <= n -> pa + n + 1024 < 2 ^ 32 -> 0 <= off -> off + n < 2 ^ 31 -> exists m' h',
  readseg fuel pa n off c (mkpc m h) = Ok tt c (mkpc m' h') /\ ready h' /\
  (forall i, 0 <= i < n -> m' (pa + i) = kbyte (off + i)) /\
  (forall x, ~ (pa - 512 < x < pa + n + 512) -> m' x = m x).
Proof.
  intros (q & Hq & Hi) Hpa Hn Hhi Hoff Hend. unfold readseg, SECTSIZE.
  pose proof (Z.mod_pos_bound off 512 ltac:(lia)) as Hm. pose proof (Z.div_mod off 512 ltac:(lia)) as Hd.
  pose proof (Z.div_mod n 512 ltac:(lia)) as Hdn. pose proof (Z.mod_pos_bound n 512 ltac:(lia)) as Hmn.
  assert (Hq0 : 0 <= off / 512) by (apply Z.div_pos; lia). assert (0 <= n / 512) by (apply Z.div_pos; lia).
  rewrite !u32_small by lia. set (o := off mod 512) in *.
  destruct (readseg_loop_run c (Z.to_nat (n / 512 + 2)) m h q (pa - o) (pa + n) (off / 512)) as (m' & h' & hi & E & Hi' & F & _ & G1 & G2);
    [done|done|lia|lia|lia|lia|lia|].
  exists m', h'. split; [exact E|]. split; [exact Hi'|]. split.
  - intros i Hir. rewrite F. unfold filled. destruct (Z.leb_spec (pa - o) (pa + i)), (Z.ltb_spec (pa + i) hi); try lia.
    cbn [andb]. f_equal. lia.
  - intros x Hx. rewrite F. unfold filled. destruct (Z.leb_spec (pa - o) x), (Z.ltb_spec x hi); try done.
    exfalso. destruct (decide (pa - o < pa + n)); [specialize (G1 ltac:(lia)); lia|specialize (G2 ltac:(lia)); lia].
Qed.

Lemma load_segment_run c m h ph : ready h -> seg_ok ph -> exists m' h',
  load_segment fuel ph c (mkpc m h) = Ok tt c (mkpc m' h') /\ ready h' /\ in_place m' ph /\ forall x, ~ touches ph x -> m' x = m x.
Proof.
  intros Hr [Hpa Hsz Hof]. unfold touches, extent in *.
  destruct (readseg_run c m h (ph_paddr ph) (ph_filesz ph) (ph_off ph)) as (m1 & h1 & E1 & R1 & F1 & O1); [done|lia|lia|lia|lia|lia|].
  unfold load_segment. rewrite bindE, E1. cbn [obind]. destruct (Z.ltb_spec (ph_filesz ph) (ph_memsz ph)).
  - unfold stosb. rewrite modSE. cbn [ram dev]. rewrite u32_small by lia. eexists _, h1. split; [done|]. split; [done|].
    assert (Hp : forall x, poke m1 (ph_paddr ph + ph_filesz ph) (replicate (Z.to_nat (ph_memsz ph - ph_filesz ph)) (u8 0)) x =
      if (ph_paddr ph + ph_filesz ph <=? x) && (x <? ph_paddr ph + ph_memsz ph) then 0 else m1 x).
    { intros x. unfold poke. rewrite length_replicate, Z2Nat.id by lia.
      replace (ph_paddr ph + ph_filesz ph + (ph_memsz ph - ph_filesz ph)) with (ph_paddr ph + ph_memsz ph) by lia.
      destruct (Z.leb_spec (ph_paddr ph + ph_filesz ph) x), (Z.ltb_spec x (ph_paddr ph + ph_memsz ph)); try done. cbn [andb].
      by rewrite lookup_replicate_2 by lia. }
    split; [split|].
    + intros i Hi. rewrite Hp, <- F1 by lia. destruct (Z.leb_spec (ph_paddr ph + ph_filesz ph) (ph_paddr ph + i)); [lia|done].
    + intros i Hi. rewrite Hp. destruct (Z.leb_spec (ph_paddr ph + ph_filesz ph) (ph_paddr ph + i)), (Z.ltb_spec (ph_paddr ph + i) (ph_paddr ph + ph_memsz ph)); try lia. done.
    + intros x Hx. rewrite Hp. destruct (Z.leb_spec (ph_paddr ph + ph_filesz ph) x), (Z.ltb_spec x (ph_paddr ph + ph_memsz ph)); cbn [andb]; try lia; apply O1; lia.
  - exists m1, h1. split; [done|]. split; [done|]. split; [split; [done|lia]|]. intros x Hx. apply O1. lia.
Qed.

(** Loading [ph'] after [ph] leaves [ph] alone. *)
Definition apart (ph ph' : proghdr) : Prop := forall i, 0 <= i < extent ph -> ~ touches ph' (ph_paddr ph + i).

Lemma in_place_ext m m' ph : in_place m ph -> (forall i, 0 <= i < extent ph -> m' (ph_paddr ph + i) = m (ph_paddr ph + i)) ->
  seg_ok ph -> in_place m' ph.
Proof.
  intros [Hf Hb] He [_ Hsz _]. unfold extent in He. split; intros i Hi; rewrite He by lia; [by apply Hf|by apply Hb].
Qed.

Lemma load_headers_run c phs m h p : ready h -> Forall seg_ok phs -> StronglySorted apart phs ->
  (forall i ph, phs !! i = Some ph -> get_proghdr (span m (p + 32 * Z.of_nat i) 32) = ph) ->
  Forall (fun ph => forall x, p <= x < p + 32 * Z.of_nat (length phs) -> ~ touches ph x) phs -> exists m' h',
  load_headers fuel (length phs) p c (mkpc m h) = Ok tt c (mkpc m' h') /\ ready h' /\ Forall (in_place m') phs /\
  forall x, Forall (fun ph => ~ touches ph x) phs -> m' x = m x.
Proof.
  revert m h p. induction phs as [|ph phs IH]; intros m h p Hr Hok Hs Hhd Hp.
  { exists m, h. split; [done|]. split; [done|]. split; [constructor|done]. }
  apply Forall_cons in Hok as [Hph Hok]. apply StronglySorted_inv in Hs as [Hs Hap]. pose proof Hp as [Hp0 Hp']%Forall_cons.
  cbn [length] in Hp0, Hp' |- *. cbn [load_headers]. rewrite bindE, getSE. cbn [obind ram].
  pose proof (Hhd 0%nat ph eq_refl) as Hh0. change (32 * Z.of_nat 0) with 0 in Hh0. rewrite Z.add_0_r in Hh0. rewrite Hh0.
  destruct (load_segment_run c m h ph Hr Hph) as (m1 & h1 & E1 & R1 & P1 & O1). rewrite bindE, E1. cbn [obind].
  destruct (IH m1 h1 (p + 32) R1 Hok Hs) as (m2 & h2 & E2 & R2 & P2 & O2).
  - intros i ph' Hi. pose proof (lookup_lt_Some _ _ _ Hi) as Hlt. rewrite <- (Hhd (S i) ph' Hi).
    replace (p + 32 * Z.of_nat (S i)) with (p + 32 + 32 * Z.of_nat i) by lia. f_equal. apply span_ext.
    intros x Hx. apply O1, Hp0. lia.
  - eapply Forall_impl; [exact Hp'|]. cbn. intros ph' Hph' x Hx. apply Hph'. lia.
  - exists m2, h2. split; [exact E2|]. split; [done|]. split.
    + constructor; [|done]. eapply in_place_ext; [exact P1| |done]. intros i Hi. apply O2.
      apply Forall_forall. intros ph' Hin. rewrite List.Forall_forall in Hap. apply (Hap ph'); [by apply list_elem_of_In|done].
    + intros x [Hx Hx']%Forall_cons. rewrite O2 by done. by apply O1.
Qed.

(** [n] bytes of the kernel file. *)
Definition kspan (i n : Z) : list Z := kbyte <$> seqZ i n.

Definition scratch (x : Z) : Prop := ELF_SCRATCH <= x < ELF_SCRATCH + 4096.

End Load.

Lemma scratch_span {H : Type} `{AtaOk H} m i n : (forall j, 0 <= j < 4096 -> m (ELF_SCRATCH + j) = kbyte j) -> 0 <= i -> i + n <= 4096 ->
  span m (ELF_SCRATCH + i) n = kspan i n.
Proof.
  intros Hm Hi Hn. unfold span, kspan. apply list_eq. intros k. rewrite !list_lookup_fmap.
  destruct (decide (Z.of_nat k < n)).
  - rewrite !lookup_seqZ_lt by lia. cbn. f_equal. rewrite <- Z.add_assoc. apply Hm. lia.
  - rewrite !lookup_ge_None_2; [done|rewrite length_seqZ; lia..].
Qed.


(** ** A small kernel *)

(** A disk that is always ready, with the contents [file] from sector 1 on. *)
Record disk := mkdisk { lba0 : Z; lba1 : Z; lba2 : Z; lba3 : Z; sectors : list Z }.

Definition lba (d : disk) : Z := lba0 d + 2 ^ 8 * lba1 d + 2 ^ 16 * lba2 d + 2 ^ 24 * (Z.land (lba3 d) 15).

Definition sector_of (file : list Z) (k : Z) : list Z :=
  (fun j => default 0 (file !! j)) <$> seq (Z.to_nat (512 * (k - 1))) 512.

#[export] Instance disk_ports : Ports disk := {|
  p_inb := fun port d => (if port =? 0x1F7 then 0x40 else 0, d);
  p_outb := fun port v d =>
    if port =? 0x1F3 then mkdisk v (lba1 d) (lba2 d) (lba3 d) (sectors d)
    else if port =? 0x1F4 then mkdisk (lba0 d) v (lba2 d) (lba3 d) (sectors d)
    else if port =? 0x1F5 then mkdisk (lba0 d) (lba1 d) v (lba3 d) (sectors d)
    else if port =? 0x1F6 then mkdisk (lba0 d) (lba1 d) (lba2 d) v (sectors d) else d;
|}.

#[export] Instance disk_insl : Insl disk := fun _ _ d => (sector_of (sectors d) (lba d), d).

Lemma lba_bytes k : 0 <= k < 2 ^ 28 ->
  u8 k + 2 ^ 8 * u8 (Z.shiftr k 8) + 2 ^ 16 * u8 (Z.shiftr k 16) + 2 ^ 24 * Z.land (u8 (Z.lor (Z.shiftr k 24) 0xE0)) 15 = k.
Proof.
  intros Hk. rewrite !Z.shiftr_div_pow2 by lia. unfold u8.
  assert (Hhi : Z.land (Z.lor (k / 2 ^ 24) 0xE0 mod 2 ^ 8) 15 = k / 2 ^ 24).
  { assert (Hall : forallb (fun x => Z.land (Z.lor x 0xE0 mod 2 ^ 8) 15 =? x) (seqZ 0 16) = true) by (vm_compute; reflexivity).
    rewrite forallb_forall in Hall. apply Z.eqb_eq, Hall, list_elem_of_In, elem_of_seqZ.
    split; [apply Z.div_pos; lia|apply Z.div_lt_upper_bound; lia]. }
  rewrite Hhi. pose proof (Z.div_mod k (2 ^ 8) ltac:(lia)) as D1. pose proof (Z.div_mod (k / 2 ^ 8) (2 ^ 8) ltac:(lia)) as D2.
  pose proof (Z.div_mod (k / 2 ^ 16) (2 ^ 8) ltac:(lia)) as D3. rewrite Z.div_div in D2, D3 by lia.
  change (2 ^ 8 * 2 ^ 8) with (2 ^ 16) in D2. change (2 ^ 16 * 2 ^ 8) with (2 ^ 24) in D3. lia.
Qed.

Definition hello_kernel : list Z :=
  [0x7F; 0x45; 0x4C; 0x46] ++ replicate 20 0 ++ to_bytes 4 0x10000C ++ to_bytes 4 52 ++ replicate 12 0 ++ to_bytes 2 1 ++ replicate 6 0 ++
  to_bytes 4 1 ++ to_bytes 4 100 ++ to_bytes 4 0x80100000 ++ to_bytes 4 0x100000 ++ to_bytes 4 5 ++ to_bytes 4 8 ++ replicate 24 0 ++
  [104; 101; 108; 108; 111].

#[export, refine] Instance disk_ok : AtaOk disk := {|
  platter := sector_of hello_kernel;
  patience := 0;
  ata_idle := fun n d => n = O /\ sectors d = hello_kernel;
  ata_loaded := fun k n d => n = O /\ sectors d = hello_kernel /\ lba d = k;
|}.
Proof.
  - intros k. unfold sector_of. by rewrite length_fmap, length_seq.
  - intros n h [-> Hs]. left. by split; [|split].
  - intros k h Hk [_ Hs]. split; [done|]. split; [exact Hs|]. exact (lba_bytes k Hk).
  - intros k n h (-> & Hs & Hl). left. by split; [|split; [|split]].
  - intros k h (_ & Hs & Hl). cbn. by rewrite Hs, Hl.
Defined.

