(* ===== verification/User.v ===== *)
(** * User programs (src/cat.c, wc.c, echo.c, ls.c, rm.c, ln.c, mkdir.c, kill.c,
    setPriority.c, ps.c, test.c, stat() of ulib.c and main() of grep.c)

    A program works on a world [W] through the system calls of user.h, the interface
    [Sys].  Strings are lists of bytes without the final nul.  A program returns,
    exits, becomes another program, or exhausts the fuel of a loop. *)

From stdpp Require Import prelude gmap strings list.
From Stdlib Require Import ZArith Lia.
From S2P Require Import Strings Prelude Layout Printf Fs Grep Sh.

(** read() returns its result and the bytes it put into the buffer. *)
Class Sys (W : Type) := {
  u_open : list Z -> Z -> W -> Z * W;
  u_read : Z -> Z -> W -> (Z * list Z) * W;
  u_write : Z -> list Z -> W -> Z * W;
  u_close : Z -> W -> Z * W;
  u_fstat : Z -> W -> (Z * stat) * W;
  u_unlink : list Z -> W -> Z * W;
  u_link : list Z -> list Z -> W -> Z * W;
  u_mkdir : list Z -> W -> Z * W;
  u_kill : Z -> W -> Z * W;
  u_setPriority : Z -> Z -> W -> Z * W;
  u_cps : W -> Z * W;
}.

Inductive ures (W A : Type) :=
  | Uret (a : A) (w : W)
  | Uexit (w : W)
  | Uexec (path : list Z) (args : list (list Z)) (w : W)
  | Uspin
  | Ucrash.
Arguments Uret {W A} _ _.
Arguments Uexit {W A} _.
Arguments Uexec {W A} _ _ _.
Arguments Uspin {W A}.
Arguments Ucrash {W A}.

Definition U (W A : Type) : Type := W -> ures W A.

#[export] Instance U_ret W : MRet (U W) := fun A a w => Uret a w.
#[export] Instance U_bind W : MBind (U W) := fun A B f m w =>
  match m w with
  | Uret a w' => f a w'
  | Uexit w' => Uexit w'
  | Uexec p args w' => Uexec p args w'
  | Uspin => Uspin
  | Ucrash => Ucrash
  end.

(** A format that ends its line. *)
Definition line_fmt (s : string) : list Z := str s ++ [10].

Section User.
Context {W : Type} `{Sys W}.
Abbreviation P := (U W).

Definition call {A} (f : W -> A * W) : P A := fun w => let '(a, w') := f w in Uret a w'.
Definition uexit {A} : P A := fun w => Uexit w.
Definition uspin {A} : P A := fun _ => Uspin.
Definition ulift {A} (o : option A) : P A := match o with Some a => mret a | None => fun _ => Ucrash end.

Fixpoint ufor {A} (l : list A) (body : A -> P unit) : P unit :=
  match l with [] => mret tt | x :: l' => body x ;; ufor l' body end.

(** printf(fd, fmt, ...): one write() per byte.  A [%s] argument is a number into
    the strings [ss]. *)
Definition uprintf (fd : Z) (fmt : list Z) (ss : list (list Z)) (ap : list Z) : P unit :=
  bs ← ulift (printf (fun k => default [] (ss !! Z.to_nat (k - 1))) fmt ap);
  ufor bs (fun c => _ ← call (u_write fd [c]); mret tt).

(** ** stat() of ulib.c *)

Definition u_stat (n : list Z) : P (Z * option stat) :=
  fd ← call (u_open n 0);
  if fd <? 0 then mret (-1, None) else
  r ← call (u_fstat fd);
  _ ← call (u_close fd);
  mret (r.1, Some r.2).

(** ** cat *)

Fixpoint cat (fuel : nat) (fd : Z) : P unit :=
  match fuel with
  | O => uspin
  | S fuel' =>
      r ← call (u_read fd 512);
      let '(n, buf) := r in
      if 0 <? n then
        k ← call (u_write 1 (take (Z.to_nat n) buf));
        if negb (k =? n) then uprintf 1 (line_fmt "cat: write error") [] [] ;; uexit else cat fuel' fd
      else if n <? 0 then uprintf 1 (line_fmt "cat: read error") [] [] ;; uexit
      else mret tt
  end.

(** The loop over the files of cat, wc and grep. *)
Definition each_file (files : list (list Z)) (msg : string) (body : Z -> list Z -> P unit) : P unit :=
  ufor files (fun f =>
    fd ← call (u_open f 0);
    if fd <? 0 then uprintf 1 (line_fmt msg) [f] [1] ;; uexit else
    body fd f ;;
    _ ← call (u_close fd);
    mret tt).

Definition cat_main (fuel : nat) (argv : list (list Z)) : P unit :=
  match argv with
  | [] | [_] => cat fuel 0 ;; uexit
  | _ :: files => each_file files "cat: cannot open %s" (fun fd _ => cat fuel fd) ;; uexit
  end.

(** ** wc *)

Record counts := mkcounts { wl : Z; ww : Z; wchars : Z; inword : bool }.

(** strchr(" \r\t\n\v", c) != 0 *)
Definition is_space (c : Z) : bool :=
  match strchr [32; 13; 9; 10; 11; 0] c with Some (Some _) => true | _ => false end.

Definition wc_char (k : counts) (c : Z) : counts :=
  let cc := s32 (wchars k + 1) in
  let l := if c =? 10 then s32 (wl k + 1) else wl k in
  if is_space c then mkcounts l (ww k) cc false
  else if negb (inword k) then mkcounts l (s32 (ww k + 1)) cc true
  else mkcounts l (ww k) cc (inword k).

Fixpoint wc_loop (fuel : nat) (fd : Z) (k : counts) : P (Z * counts) :=
  match fuel with
  | O => uspin
  | S fuel' =>
      r ← call (u_read fd 512);
      let '(n, buf) := r in
      if 0 <? n then wc_loop fuel' fd (foldl wc_char k (take (Z.to_nat n) buf)) else mret (n, k)
  end.

Definition wc (fuel : nat) (fd : Z) (name : list Z) : P unit :=
  r ← wc_loop fuel fd (mkcounts 0 0 0 false);
  let '(n, k) := r in
  if n <? 0 then uprintf 1 (line_fmt "wc: read error") [] [] ;; uexit else
  uprintf 1 (line_fmt "%d %d %d %s") [name] [u32 (wl k); u32 (ww k); u32 (wchars k); 1].

Definition wc_main (fuel : nat) (argv : list (list Z)) : P unit :=
  match argv with
  | [] | [_] => wc fuel 0 [] ;; uexit
  | _ :: files => each_file files "wc: cannot open %s" (wc fuel) ;; uexit
  end.

(** ** grep *)

(** [while((q = strchr(p, '\n')) != 0)]: what is behind the last newline. *)
Fixpoint grep_emit (fuel : nat) (pattern p : list Z) : P (list Z) :=
  match cut_line p with
  | None => mret p
  | Some (l, r) =>
      match fuel with
      | O => uspin
      | S fuel' =>
          (if match_ pattern l then _ ← call (u_write 1 (l ++ [10])); mret tt else mret tt) ;;
          grep_emit fuel' pattern r
      end
  end.

Fixpoint grep_fd (fuel : nat) (pattern kept : list Z) (fd : Z) : P unit :=
  match fuel with
  | O => uspin
  | S fuel' =>
      r ← call (u_read fd (1024 - Z.of_nat (length kept) - 1));
      let '(n, new) := r in
      if 0 <? n then
        let buf := kept ++ take (Z.to_nat n) new in
        p ← grep_emit (length buf) pattern buf;
        grep_fd fuel' pattern (if bool_decide (length p = length buf) then [] else p) fd
      else mret tt
  end.

Definition grep_main (fuel : nat) (argv : list (list Z)) : P unit :=
  match argv with
  | _ :: pattern :: files =>
      match files with
      | [] => grep_fd fuel pattern [] 0 ;; uexit
      | _ => each_file files "grep: cannot open %s" (fun fd _ => grep_fd fuel pattern [] fd) ;; uexit
      end
  | _ => uprintf 2 (line_fmt "usage: grep pattern [file ...]") [] [] ;; uexit
  end.

(** ** echo, rm, ln, mkdir, kill, setPriority, ps, test *)

(** [printf(1, "%s%s", argv\[i\], i+1 < argc ? " " : "\n")] *)
Fixpoint echo_args (args : list (list Z)) : P unit :=
  match args with
  | [] => mret tt
  | a :: args' => uprintf 1 (str "%s%s") [a; if bool_decide (args' = []) then [10] else [32]] [1; 2] ;; echo_args args'
  end.

Definition echo_main (argv : list (list Z)) : P unit := echo_args (tail argv) ;; uexit.

(** The loop of rm and mkdir, which stops at the first failure. *)
Fixpoint until_fails (op : list Z -> W -> Z * W) (msg : string) (args : list (list Z)) : P unit :=
  match args with
  | [] => mret tt
  | a :: args' =>
      r ← call (op a);
      if r <? 0 then uprintf 2 (line_fmt msg) [a] [1] else until_fails op msg args'
  end.

Definition rm_main (argv : list (list Z)) : P unit :=
  match tail argv with
  | [] => uprintf 2 (line_fmt "Usage: rm files...") [] [] ;; uexit
  | files => until_fails u_unlink "rm: %s failed to delete" files ;; uexit
  end.

Definition mkdir_main (argv : list (list Z)) : P unit :=
  match tail argv with
  | [] => uprintf 2 (line_fmt "Usage: mkdir files...") [] [] ;; uexit
  | files => until_fails u_mkdir "mkdir: %s failed to create" files ;; uexit
  end.

Definition ln_main (argv : list (list Z)) : P unit :=
  match argv with
  | [_; old; new] =>
      r ← call (u_link old new);
      (if r <? 0 then uprintf 2 (line_fmt "link %s %s: failed") [old; new] [1; 2] else mret tt) ;; uexit
  | _ => uprintf 2 (line_fmt "Usage: ln old new") [] [] ;; uexit
  end.

Definition kill_main (argv : list (list Z)) : P unit :=
  match tail argv with
  | [] => uprintf 2 (line_fmt "usage: kill pid...") [] [] ;; uexit
  | pids => ufor pids (fun a => n ← ulift (atoi (a ++ [0])); _ ← call (u_kill n); mret tt) ;; uexit
  end.

Definition setPriority_main (argv : list (list Z)) : P unit :=
  match argv with
  | _ :: a1 :: a2 :: _ =>
      x ← ulift (atoi (a2 ++ [0]));
      y ← ulift (atoi (a1 ++ [0]));
      r ← call (u_setPriority x y);
      (if r <? 0 then uprintf 1 (line_fmt "Error: No such process") [] [] else mret tt) ;; uexit
  | _ => uprintf 1 (line_fmt "Usage: setPriority <pid> <priority>") [] [] ;; uexit
  end.

Definition ps_main : P unit := _ ← call u_cps; uexit.

Definition test_main : P unit := uprintf 1 (line_fmt "My first xv6 program") [] [] ;; uexit.

(** ** ls *)

(** [for(p=path+strlen(path); p >= path && *p != '/'; p--); p++;]: the bytes from
    [p] on, where [k] is p - path + 1. *)
Fixpoint after_slash (path : list Z) (k : nat) : list Z :=
  match k with
  | O => path
  | S k' => if bool_decide (path !! k' = Some 47) then drop k path else after_slash path k'
  end.

Definition fmtname (path : list Z) : list Z :=
  let p := after_slash path (S (length path)) in
  if DIRSIZ <=? Z.of_nat (length p) then p else p ++ replicate (Z.to_nat DIRSIZ - length p) 32.

Definition print_stat (name : list Z) (st : stat) : P unit :=
  uprintf 1 (line_fmt "%s %d %d %d") [name] [1; u32 (st_type st); st_ino st; st_size st].

(** The entries of the directory; [dir] is the path with its slash. *)
Fixpoint ls_dir (fuel : nat) (fd : Z) (dir : list Z) : P unit :=
  match fuel with
  | O => uspin
  | S fuel' =>
      r ← call (u_read fd 16);
      let '(n, bs) := r in
      if negb (n =? 16) then mret tt else
      let de := get_dirent bs in
      if de_inum de =? 0 then ls_dir fuel' fd dir else
      let buf := dir ++ cstr (de_name de) in
      r ← u_stat buf;
      (match r with
       | (k, Some st) => if k <? 0 then uprintf 1 (line_fmt "ls: cannot stat %s") [buf] [1] else print_stat (fmtname buf) st
       | (_, None) => uprintf 1 (line_fmt "ls: cannot stat %s") [buf] [1]
       end) ;;
      ls_dir fuel' fd dir
  end.

Definition ls (fuel : nat) (path : list Z) : P unit :=
  fd ← call (u_open path 0);
  if fd <? 0 then uprintf 2 (line_fmt "ls: cannot open %s") [path] [1] else
  r ← call (u_fstat fd);
  let '(k, st) := r in
  if k <? 0 then uprintf 2 (line_fmt "ls: cannot stat %s") [path] [1] ;; _ ← call (u_close fd); mret tt else
  (if st_type st =? T_FILE then print_stat (fmtname path) st
   else if st_type st =? T_DIR then
     if 512 <? Z.of_nat (length path) + 1 + DIRSIZ + 1 then uprintf 1 (line_fmt "ls: path too long") [] []
     else ls_dir fuel fd (path ++ [47])
   else mret tt) ;;
  _ ← call (u_close fd);
  mret tt.

Definition ls_main (fuel : nat) (argv : list (list Z)) : P unit :=
  match tail argv with
  | [] => ls fuel [46] ;; uexit
  | files => ufor files (ls fuel) ;; uexit
  end.
End User.
