(* ===== verification/UserSpec.v ===== *)
(** * What cat, wc and ls print

    The theorems hold for every world in which descriptors are streams of bytes:
    read() hands out the bytes of a descriptor in pieces, as the sender made them,
    and write() appends.  That is what fileread(), filewrite() and the pipes of the
    kernel do. *)

From stdpp Require Import prelude gmap strings list.
From Stdlib Require Import ZArith Lia.
From S2P Require Import Strings Prelude Printf Fs Grep Sh User.

Class StreamOk (W : Type) `{Sys W} := {
  pending : Z -> W -> option (list (list Z));
  written : Z -> W -> list Z;
  st_read fd n w ps : 0 < n -> pending fd w = Some ps -> Forall (fun p => p <> []) ps ->
    let '((r, bs), w') := u_read fd n w in
    (forall fd', written fd' w' = written fd' w) /\
    match ps with
    | [] => r = 0 /\ pending fd w' = Some []
    | p :: ps' => r = Z.min n (Z.of_nat (length p)) /\ bs = take (Z.to_nat n) p /\
        pending fd w' = Some (if bool_decide (length p <= Z.to_nat n)%nat then ps' else drop (Z.to_nat n) p :: ps')
    end;
  st_write fd bs w : let '(r, w') := u_write fd bs w in
    r = Z.of_nat (length bs) /\ written fd w' = written fd w ++ bs /\
    (forall fd', fd' <> fd -> written fd' w' = written fd' w) /\ forall fd', pending fd' w' = pending fd' w;
}.

(** ** Counting *)

(** The text between the white space, one field more than there are spaces. *)
Fixpoint fields (bs : list Z) : list (list Z) :=
  match bs with
  | [] => [[]]
  | x :: bs' =>
      if is_space x then [] :: fields bs' else
      match fields bs' with [] => [[x]] | f :: fs => (x :: f) :: fs end
  end.

Definition nonempty (fs : list (list Z)) : Z := Z.of_nat (length (filter (fun f => f <> []) fs)).
Definition words (bs : list Z) : Z := nonempty (fields bs).
Definition lines (bs : list Z) : Z := Z.of_nat (length (filter (fun c => c = 10) bs)).

(** The words that begin in [bs] when the text before it ends inside one, or not. *)
Definition new_words (b : bool) (bs : list Z) : Z :=
  match fields bs with
  | [] => 0
  | f :: fs => (if bool_decide (f = []) || b then 0 else 1) + nonempty fs
  end.

Lemma fields_cons bs : exists f fs, fields bs = f :: fs.
Proof. destruct bs as [|x bs]; cbn; [by eexists _, _|]. destruct (is_space x), (fields bs); eauto. Qed.

Lemma nonempty_cons f fs : nonempty (f :: fs) = (if bool_decide (f = []) then 0 else 1) + nonempty fs.
Proof. unfold nonempty. rewrite filter_cons. case_bool_decide; case_decide; cbn [length]; try congruence; lia. Qed.

Lemma new_words_all bs : new_words false bs = words bs.
Proof. unfold new_words, words. destruct (fields_cons bs) as (f & fs & ->). rewrite nonempty_cons, orb_false_r. done. Qed.

Lemma new_words_step b x bs :
  new_words b (x :: bs) = if is_space x then new_words false bs else (if b then 0 else 1) + new_words true bs.
Proof.
  destruct (fields_cons bs) as (f & fs & E). unfold new_words. cbn [fields]. rewrite E. destruct (is_space x).
  - rewrite bool_decide_true by done. cbn [orb]. rewrite nonempty_cons, orb_false_r. lia.
  - rewrite bool_decide_false by done. rewrite orb_true_r. cbn [orb]. lia.
Qed.

Lemma new_words_bound b bs : 0 <= new_words b bs <= Z.of_nat (length bs).
Proof.
  revert b. induction bs as [|x bs IH]; intros b.
  - change (0 <= 0 + 0 <= 0). lia.
  - rewrite new_words_step. cbn [length]. pose proof (IH false). pose proof (IH true). destruct (is_space x), b; lia.
Qed.

Lemma lines_cons x bs : lines (x :: bs) = (if x =? 10 then 1 else 0) + lines bs.
Proof. unfold lines. rewrite filter_cons. destruct (Z.eqb_spec x 10); case_decide; try done; cbn [length]; lia. Qed.

Lemma lines_bound bs : 0 <= lines bs <= Z.of_nat (length bs).
Proof. induction bs as [|x bs IH]; [done|]. rewrite lines_cons. cbn [length]. destruct (x =? 10); lia. Qed.

Lemma wc_count bs k : 0 <= wl k -> 0 <= ww k -> 0 <= wchars k ->
  wl k + Z.of_nat (length bs) < 2 ^ 31 -> ww k + Z.of_nat (length bs) < 2 ^ 31 -> wchars k + Z.of_nat (length bs) < 2 ^ 31 ->
  exists b, foldl wc_char k bs = mkcounts (wl k + lines bs) (ww k + new_words (inword k) bs) (wchars k + Z.of_nat (length bs)) b.
Proof.
  revert k. induction bs as [|x bs IH]; intros k H1 H2 H3 H4 H5 H6.
  - exists (inword k). change (new_words (inword k) []) with (0 + 0). change (lines []) with 0. cbn. rewrite !Z.add_0_r. by destruct k.
  - cbn [length] in *. cbn [foldl]. rewrite lines_cons, new_words_step. unfold wc_char at 2.
    pose proof (lines_bound bs). rewrite !s32_small by lia.
    set (l' := if x =? 10 then wl k + 1 else wl k).
    assert (Hl : 0 <= l' <= wl k + 1 /\ l' = wl k + (if x =? 10 then 1 else 0)) by (unfold l'; destruct (x =? 10); lia).
    destruct (is_space x); [|destruct (inword k); cbn [negb]];
      (match goal with |- context [foldl _ ?k' _] => destruct (IH k') as (b & ->); cbn [wl ww wchars inword]; try lia end);
      exists b; f_equal; lia.
Qed.

Section Streams.
Context {W : Type} `{StreamOk W}.
Implicit Types (w : W) (fd : Z).

Definition uwp {A} (m : U W A) w (Q : A -> W -> Prop) : Prop :=
  match m w with Uret a w' => Q a w' | _ => False end.

Lemma uwp_ret {A} (a : A) w (Q : A -> W -> Prop) : Q a w -> uwp (mret a) w Q.
Proof. done. Qed.

Lemma uwp_bind {A B} (m : U W A) (f : A -> U W B) w (Q : B -> W -> Prop) :
  uwp m w (fun a w' => uwp (f a) w' Q) -> uwp (m ≫= f) w Q.
Proof. unfold uwp. change ((m ≫= f) w) with (match m w with Uret a w' => f a w' | Uexit w' => Uexit w' | Uexec p args w' => Uexec p args w' | Uspin => Uspin | Ucrash => Ucrash end). by destruct (m w). Qed.

Lemma uwp_mono {A} (m : U W A) w (P Q : A -> W -> Prop) : uwp m w P -> (forall a w', P a w' -> Q a w') -> uwp m w Q.
Proof. unfold uwp. destruct (m w); auto. Qed.

(** The bytes of a descriptor, whatever the pieces. *)
Definition holds fd w (bs : list Z) : Prop :=
  exists ps, pending fd w = Some ps /\ Forall (fun p => p <> []) ps /\ mjoin ps = bs.

(** A read() brings the first bytes, at least one of them, or finds the end. *)
Lemma uwp_read fd n w bs (Q : Z * list Z -> W -> Prop) : 0 < n -> holds fd w bs ->
  (forall r buf w', (forall fd', written fd' w' = written fd' w) ->
    bs = [] /\ r = 0 /\ holds fd w' [] \/
    (exists got rest, bs = got ++ rest /\ got <> [] /\ r = Z.of_nat (length got) /\ take (length got) buf = got /\ holds fd w' rest) ->
    Q (r, buf) w') -> uwp (call (u_read fd n)) w Q.
Proof.
  intros Hn (ps & Hp & Hne & <-) HQ. pose proof (st_read fd n w ps Hn Hp Hne) as Hr. unfold uwp, call.
  destruct (u_read fd n w) as [[r buf] w']. destruct Hr as [Hw Hr]. apply HQ; [done|]. destruct ps as [|p ps].
  - left. destruct Hr as [-> Hp']. split; [done|]. split; [done|]. by exists [].
  - right. destruct Hr as (-> & -> & Hp'). apply Forall_cons in Hne as [Hp0 Hne].
    assert (0 < length p)%nat by (destruct p; [done|cbn; lia]).
    exists (take (Z.to_nat n) p), (drop (Z.to_nat n) p ++ mjoin ps). split; [cbn; by rewrite app_assoc, take_drop|].
    split; [intros E%(f_equal length); rewrite length_take in E; cbn in E; lia|]. rewrite length_take. split; [lia|].
    split; [by rewrite <- length_take, take_ge|]. case_bool_decide as Hl.
    + exists ps. rewrite drop_ge by done. done.
    + exists (drop (Z.to_nat n) p :: ps). split; [done|]. split; [constructor; [|done]|done].
      intros E%(f_equal length). rewrite length_drop in E. cbn in E. lia.
Qed.

Lemma uwp_write fd bs w (Q : Z -> W -> Prop) :
  (forall w', written fd w' = written fd w ++ bs -> (forall fd', pending fd' w' = pending fd' w) -> Q (Z.of_nat (length bs)) w') ->
  uwp (call (u_write fd bs)) w Q.
Proof.
  intros HQ. pose proof (st_write fd bs w) as Hw. unfold uwp, call. destruct (u_write fd bs w) as [r w'].
  destruct Hw as (-> & Hw & _ & Hp). by apply HQ.
Qed.

Lemma holds_ext fd w w' bs : holds fd w bs -> (forall fd', pending fd' w' = pending fd' w) -> holds fd w' bs.
Proof. intros (ps & Hp & Hr) He. exists ps. by rewrite He. Qed.

(** printf() writes the bytes one by one. *)
Lemma uwp_uprintf fd fmt ss ap out w (Q : unit -> W -> Prop) :
  printf (fun k => default [] (ss !! Z.to_nat (k - 1))) fmt ap = Some out ->
  (forall w', written fd w' = written fd w ++ out -> (forall fd', pending fd' w' = pending fd' w) -> Q tt w') ->
  uwp (uprintf fd fmt ss ap) w Q.
Proof.
  intros Hp. unfold uprintf. rewrite Hp. change (ulift (Some out) ≫= ?f) with (f out). cbv beta. clear Hp. revert w.
  induction out as [|c out IH]; intros w HQ.
  - apply uwp_ret, HQ; [by rewrite app_nil_r|done].
  - cbn [ufor]. apply uwp_bind, uwp_bind, uwp_write. intros w1 E1 P1. apply uwp_ret, IH. intros w2 E2 P2.
    apply HQ; [rewrite E2, E1; by rewrite <- app_assoc|]. intros fd'. by rewrite P2.
Qed.

(** ** cat *)

Lemma cat_run fuel fd w bs : (length bs < fuel)%nat -> holds fd w bs ->
  uwp (cat fuel fd) w (fun _ w' => written 1 w' = written 1 w ++ bs /\ holds fd w' []).
Proof.
  revert w bs. induction fuel as [|fuel IH]; intros w bs Hf Hh; [lia|]. cbn [cat]. apply uwp_bind.
  eapply uwp_read; [lia|done|]. intros r buf w1 Hw [(-> & -> & Hh1)|(got & rest & -> & Hne & -> & Hb & Hh1)].
  - change (0 <? 0) with false. cbv iota. apply uwp_ret. by rewrite Hw, app_nil_r.
  - assert (0 < length got)%nat by (destruct got; [done|cbn; lia]). destruct (Z.ltb_spec 0 (Z.of_nat (length got))); [|lia].
    rewrite Nat2Z.id, Hb. apply uwp_bind, uwp_write. intros w2 E2 P2. rewrite Z.eqb_refl. cbn [negb]. rewrite length_app in Hf.
    eapply uwp_mono; [apply (IH w2 rest); [lia|by eapply holds_ext]|]. intros _ w3 [E3 H3].
    split; [|done]. rewrite E3, E2, Hw. by rewrite <- app_assoc.
Qed.

(** ** wc *)

Lemma wc_loop_run fuel fd w bs k : (length bs < fuel)%nat -> holds fd w bs ->
  uwp (wc_loop fuel fd k) w (fun r w' => r = (0, foldl wc_char k bs) /\ written 1 w' = written 1 w /\ holds fd w' []).
Proof.
  revert w bs k. induction fuel as [|fuel IH]; intros w bs k Hf Hh; [lia|]. cbn [wc_loop]. apply uwp_bind.
  eapply uwp_read; [lia|done|]. intros r buf w1 Hw [(-> & -> & Hh1)|(got & rest & -> & Hne & -> & Hb & Hh1)].
  - change (0 <? 0) with false. cbv iota. apply uwp_ret. by rewrite Hw.
  - assert (0 < length got)%nat by (destruct got; [done|cbn; lia]). destruct (Z.ltb_spec 0 (Z.of_nat (length got))); [|lia].
    rewrite Nat2Z.id, Hb. rewrite length_app in Hf. rewrite foldl_app.
    eapply uwp_mono; [apply (IH w1 rest); [lia|done]|]. intros r w3 (-> & E3 & H3). split; [done|]. by rewrite E3, Hw.
Qed.
End Streams.

(** A number in decimal. *)
Definition dec (n : Z) : list Z := default [] (printint n 10 true).

Lemma printint_dec n : 0 <= n < 2 ^ 31 -> printint (s32 (u32 n)) 10 true = Some (dec n).
Proof.
  intros Hn. rewrite u32_small, s32_small by lia. unfold dec. by destruct (printint_spec n 10 true) as (ds & -> & _); [lia|by left|].
Qed.

Lemma wc_format l w c name : 0 <= l < 2 ^ 31 -> 0 <= w < 2 ^ 31 -> 0 <= c < 2 ^ 31 ->
  printf (fun k => default [] ([name] !! Z.to_nat (k - 1))) (line_fmt "%d %d %d %s") [u32 l; u32 w; u32 c; 1] =
  Some (dec l ++ [32] ++ dec w ++ [32] ++ dec c ++ [32] ++ name ++ [10]).
Proof.
  intros Hl Hw Hc. change (line_fmt "%d %d %d %s") with [37; 100; 32; 37; 100; 32; 37; 100; 32; 37; 115; 10].
  unfold printf. cbn -[printint u32 s32]. repeat (rewrite printint_dec by done; cbn -[printint u32 s32]). done.
Qed.

(** C38: cat copies its input, and wc prints the number of its lines, its words and its
    bytes, however the input comes in pieces. *)
Theorem cat_wc_spec {W} `{StreamOk W} fuel fd name (w : W) bs :
  holds fd w bs -> (length bs < fuel)%nat -> Z.of_nat (length bs) < 2 ^ 31 ->
  uwp (cat fuel fd) w (fun _ w' => written 1 w' = written 1 w ++ bs) /\
  uwp (wc fuel fd name) w (fun _ w' => written 1 w' = written 1 w ++
    dec (lines bs) ++ [32] ++ dec (words bs) ++ [32] ++ dec (Z.of_nat (length bs)) ++ [32] ++ name ++ [10]).
Proof.
  intros Hh Hf Hb. split; [eapply uwp_mono; [by apply (cat_run fuel fd w bs)|by intros _ w' [-> _]]|].
  unfold wc. apply uwp_bind. eapply uwp_mono; [by apply (wc_loop_run fuel fd w bs)|]. intros r w1 (-> & E1 & _).
  destruct (wc_count bs (mkcounts 0 0 0 false)) as (b & ->); cbn [wl ww wchars inword]; try lia. rewrite new_words_all, !Z.add_0_l.
  change (0 <? 0) with false. cbv iota. pose proof (lines_bound bs). pose proof (new_words_bound false bs) as Hw. rewrite new_words_all in Hw.
  eapply uwp_uprintf; [apply wc_format; lia|]. intros w2 -> _. by rewrite E1.
Qed.

(** ** fmtname() of ls *)

Lemma after_slash_skip path k : (forall j, (k <= j)%nat -> path !! j <> Some 47) -> forall n, after_slash path (k + n) = after_slash path k.
Proof.
  intros Hno n. induction n as [|n IH]; [by rewrite Nat.add_0_r|]. rewrite Nat.add_succ_r. cbn [after_slash].
  rewrite bool_decide_false by (apply Hno; lia). exact IH.
Qed.

Lemma after_slash_last dir name : Forall (fun c => c <> 47) name ->
  let path := dir ++ 47 :: name in after_slash path (S (length path)) = name.
Proof.
  intros Hn path. set (k := S (length dir)).
  assert (Hk : forall j, (k <= j)%nat -> path !! j <> Some 47).
  { intros j Hj. unfold path. rewrite (cons_middle 47), app_assoc, lookup_app_r by (rewrite length_app; cbn; lia).
    intros Hl. rewrite Forall_lookup in Hn. by apply (Hn _ _ Hl). }
  assert (E : S (length path) = (k + S (length name))%nat) by (unfold path, k; rewrite length_app; cbn; lia).
  rewrite E, (after_slash_skip path k Hk). unfold k. cbn [after_slash].
  rewrite bool_decide_true by (unfold path; by rewrite list_lookup_middle).
  unfold path. rewrite (cons_middle 47), app_assoc. apply drop_app_length'. rewrite length_app. cbn. lia.
Qed.

(** fmtname() is the last element of the path, filled up with blanks to the 14 bytes
    of a name. *)
Theorem fmtname_spec dir name : Forall (fun c => c <> 47) name ->
  fmtname (dir ++ 47 :: name) = name ++ replicate (14 - length name) 32 /\
  fmtname name = name ++ replicate (14 - length name) 32.
Proof.
  intros Hn.
  assert (Hpad : forall p, (if DIRSIZ <=? Z.of_nat (length p) then p else p ++ replicate (Z.to_nat DIRSIZ - length p) 32) =
    p ++ replicate (14 - length p) 32).
  { intros p. unfold DIRSIZ. destruct (Z.leb_spec 14 (Z.of_nat (length p))); [|done].
    replace (14 - length p)%nat with O by lia. cbn. by rewrite app_nil_r. }
  unfold fmtname. rewrite !Hpad, after_slash_last by done. split; [done|].
  replace (after_slash name (S (length name))) with name; [done|]. symmetry.
  change (S (length name)) with (0 + S (length name))%nat. rewrite after_slash_skip; [done|].
  intros j _ Hl. rewrite Forall_lookup in Hn. by apply (Hn _ _ Hl).
Qed.

Lemma fmtname_spec_witness : fmtname ([47; 98; 105; 110] ++ 47 :: [115; 104]) = [115; 104] ++ replicate 12 32.
Proof. apply (fmtname_spec [47; 98; 105; 110] [115; 104]). repeat constructor; lia. Defined.

(** ** A world with one input *)

Record world := mkworld { w_in : list (list Z); w_out : gmap Z (list Z) }.

#[export] Instance world_sys : Sys world := {|
  u_open := fun _ _ w => (-1, w);
  u_read := fun fd n w =>
    if fd =? 0 then
      match w_in w with
      | [] => ((0, []), w)
      | p :: ps => ((Z.min n (Z.of_nat (length p)), take (Z.to_nat n) p),
          mkworld (if bool_decide (length p <= Z.to_nat n)%nat then ps else drop (Z.to_nat n) p :: ps) (w_out w))
      end
    else ((-1, []), w);
  u_write := fun fd bs w => (Z.of_nat (length bs), mkworld (w_in w) (<[fd := default [] (w_out w !! fd) ++ bs]> (w_out w)));
  u_close := fun _ w => (0, w);
  u_fstat := fun _ w => ((-1, mkstat 0 0 0 0 0), w);
  u_unlink := fun _ w => (-1, w);
  u_link := fun _ _ w => (-1, w);
  u_mkdir := fun _ w => (-1, w);
  u_kill := fun _ w => (-1, w);
  u_setPriority := fun _ _ w => (-1, w);
  u_cps := fun w => (0, w);
|}.

#[export, refine] Instance world_streams : StreamOk world := {|
  pending := fun fd w => if fd =? 0 then Some (w_in w) else None;
  written := fun fd w => default [] (w_out w !! fd);
|}.
Proof.
  - intros fd n w ps Hn Hp Hne. cbn. destruct (Z.eqb_spec fd 0) as [->|]; [|done]. injection Hp as <-.
    destruct (w_in w) as [|p ps] eqn:E; cbn; [by rewrite E|done].
  - intros fd bs w. cbn [u_write world_sys]. split; [done|]. cbn [w_out w_in]. split; [by rewrite lookup_insert_eq|]. split; [|done].
    intros fd' Hne. by rewrite lookup_insert_ne.
Defined.

Lemma cat_wc_spec_witness :
  uwp (wc 20 0 [120]) (mkworld [[104; 105]; [32; 10; 97]; [98; 10]] ∅)
    (fun _ w' => written 1 w' = [50; 32; 50; 32; 55; 32; 120; 10]).
Proof.
  destruct (cat_wc_spec 20 0 [120] (mkworld [[104; 105]; [32; 10; 97]; [98; 10]] ∅) [104; 105; 32; 10; 97; 98; 10]) as [_ Hw].
  - exists [[104; 105]; [32; 10; 97]; [98; 10]]. split; [done|]. split; [repeat constructor; done|done].
  - cbn. lia.
  - cbn. lia.
  - exact Hw.
Defined.
