(* ===== verification/Machine.v ===== *)
(** * Descriptor tables and the boot page table (src/vm.c: seginit; src/trap.c:
    idtinit; src/main.c: entrypgdir; src/mmu.h, src/x86.h)

    A descriptor is its C bit fields; [pack] lays bit fields out the way the
    compiler does, lowest first, and [segment_of] is what the
    processor makes of the 64 bits. *)

From stdpp Require Import prelude gmap strings list.
From Stdlib Require Import ZArith Lia.
From S2P Require Import Prelude Mmu Trap.

(** ** Bit fields *)

(** Fields as (width, value). *)
Fixpoint pack (fs : list (Z * Z)) : Z :=
  match fs with
  | [] => 0
  | (w, v) :: fs' => v + 2 ^ w * pack fs'
  end.

Fixpoint unpack (ws : list Z) (n : Z) : list Z :=
  match ws with
  | [] => []
  | w :: ws' => n mod 2 ^ w :: unpack ws' (n / 2 ^ w)
  end.

Definition field_ok (f : Z * Z) : Prop := 0 <= f.1 /\ 0 <= f.2 < 2 ^ f.1.

Lemma unpack_pack fs : Forall field_ok fs -> unpack fs.*1 (pack fs) = fs.*2.
Proof.
  induction 1 as [|[w v] fs [Hw Hv] _ IH]; [done|]. cbn [fst snd fmap list_fmap] in *. cbn [pack unpack fmap list_fmap fst snd].
  rewrite (Z.mul_comm (2 ^ w)), Z.mod_add, (Z.mod_small v), Z.div_add, (Z.div_small v), Z.add_0_l by lia. by rewrite IH.
Qed.

(** ** Segments *)

Record segdesc := mksegdesc {
  lim_15_0 : Z; base_15_0 : Z; base_23_16 : Z; sd_type : Z; sd_s : Z; sd_dpl : Z; sd_p : Z;
  lim_19_16 : Z; avl : Z; rsv1 : Z; db : Z; sd_g : Z; base_31_24 : Z;
}.

Definition STA_X : Z := 8.
Definition STA_W : Z := 2.
Definition STA_R : Z := 2.
Definition STS_T32A : Z := 9.

Definition SEG (type base lim dpl : Z) : segdesc :=
  mksegdesc (Z.land (Z.shiftr lim 12) 0xffff) (Z.land (u32 base) 0xffff) (Z.land (Z.shiftr (u32 base) 16) 0xff) type 1 dpl 1
    (Z.shiftr (u32 lim) 28) 0 0 1 1 (Z.shiftr (u32 base) 24).

Definition SEG16 (type base lim dpl : Z) : segdesc :=
  mksegdesc (Z.land lim 0xffff) (Z.land (u32 base) 0xffff) (Z.land (Z.shiftr (u32 base) 16) 0xff) type 1 dpl 1
    (Z.shiftr (u32 lim) 16 mod 16) 0 0 1 0 (Z.shiftr (u32 base) 24).

(** The struct in memory. *)
Definition seg_fields (d : segdesc) : list (Z * Z) :=
  [(16, lim_15_0 d); (16, base_15_0 d); (8, base_23_16 d); (4, sd_type d); (1, sd_s d); (2, sd_dpl d); (1, sd_p d);
   (4, lim_19_16 d); (1, avl d); (1, rsv1 d); (1, db d); (1, sd_g d); (8, base_31_24 d)].

(** The segment the processor sees: base, last offset, type, whether it is a code or
    data segment, privilege level and presence. *)
Record segment := mksegment { s_base : Z; s_limit : Z; s_type : Z; s_app : bool; s_dpl : Z; s_present : bool }.

Definition segment_of (w : Z) : option segment :=
  match unpack [16; 16; 8; 4; 1; 2; 1; 4; 1; 1; 1; 1; 8] w with
  | [l0; b0; b1; t; s; dpl; p; l1; _; _; _; g; b2] =>
      let lim := l0 + 2 ^ 16 * l1 in
      Some (mksegment (b0 + 2 ^ 16 * b1 + 2 ^ 24 * b2) (if g =? 1 then lim * 4096 + 4095 else lim) t (s =? 1) dpl (p =? 1))
  | _ => None
  end.

Definition gdt_null : segdesc := mksegdesc 0 0 0 0 0 0 0 0 0 0 0 0 0.

(** seginit(): [c->gdt] after it. *)
Definition seginit (gdt : list segdesc) : list segdesc :=
  let gdt := <[Z.to_nat SEG_KCODE := SEG (Z.lor STA_X STA_R) 0 0xffffffff 0]> gdt in
  let gdt := <[2%nat := SEG STA_W 0 0xffffffff 0]> gdt in
  let gdt := <[3%nat := SEG (Z.lor STA_X STA_R) 0 0xffffffff DPL_USER]> gdt in
  <[4%nat := SEG STA_W 0 0xffffffff DPL_USER]> gdt.

(** [gdt\[SEG_TSS\]] of switchuvm(), for the task state at [ts]. *)
Definition tss_segment (ts : Z) : segdesc :=
  let d := SEG16 STS_T32A ts (104 - 1) 0 in
  mksegdesc (lim_15_0 d) (base_15_0 d) (base_23_16 d) (sd_type d) 0 (sd_dpl d) (sd_p d) (lim_19_16 d) (avl d) (rsv1 d) (db d)
    (sd_g d) (base_31_24 d).

(** The operand of lgdt and lidt. *)
Definition table_operand (p size : Z) : list Z := [u16 (size - 1); u16 (u32 p); u16 (Z.shiftr (u32 p) 16)].

Definition lgdt (p size : Z) : list Z := table_operand p size.
Definition lidt (p size : Z) : list Z := table_operand p size.

(** idtinit(), for the table at [idt]: 256 descriptors of 8 bytes. *)
Definition idtinit (idt : Z) : list Z := lidt idt (8 * 256).

(** The table the processor uses: its address and last byte. *)
Definition table_of (pd : list Z) : option (Z * Z) :=
  match pd with [l; b0; b1] => Some (b0 + 2 ^ 16 * b1, l) | _ => None end.

(** ** Splitting an address *)

Lemma land_low x k : 0 <= k -> Z.land x (Z.ones k) = x mod 2 ^ k.
Proof. apply Z.land_ones. Qed.

Lemma split_16 x : 0 <= x < 2 ^ 32 -> Z.land x 0xffff + 2 ^ 16 * Z.shiftr x 16 = x.
Proof.
  intros Hx. change 0xffff with (Z.ones 16). rewrite land_low, Z.shiftr_div_pow2 by lia. pose proof (Z.div_mod x (2 ^ 16) ltac:(lia)). lia.
Qed.

Lemma split_base x : 0 <= x < 2 ^ 32 ->
  Z.land x 0xffff + 2 ^ 16 * Z.land (Z.shiftr x 16) 0xff + 2 ^ 24 * Z.shiftr x 24 = x.
Proof.
  intros Hx. change 0xffff with (Z.ones 16). change 0xff with (Z.ones 8). rewrite !land_low, !Z.shiftr_div_pow2 by lia.
  pose proof (Z.div_mod x (2 ^ 16) ltac:(lia)). pose proof (Z.div_mod (x / 2 ^ 16) (2 ^ 8) ltac:(lia)) as D. rewrite Z.div_div in D by lia.
  change (2 ^ 16 * 2 ^ 8) with (2 ^ 24) in D. lia.
Qed.

Lemma shiftr_bound x k m : 0 <= x < 2 ^ m -> 0 <= k <= m -> 0 <= Z.shiftr x k < 2 ^ (m - k).
Proof.
  intros Hx Hk. rewrite Z.shiftr_div_pow2 by lia. split; [apply Z.div_pos; lia|]. apply Z.div_lt_upper_bound; [lia|].
  rewrite <- Z.pow_add_r by lia. replace (k + (m - k)) with m by lia. lia.
Qed.

Lemma land_bound x k : 0 <= k -> 0 <= Z.land x (Z.ones k) < 2 ^ k.
Proof. intros Hk. rewrite land_low by lia. apply Z.mod_pos_bound. lia. Qed.

(** The processor sees a segment as SEG() was told: the base, and the limit rounded
    up to whole pages. *)
Theorem seg_view type base lim dpl :
  0 <= type < 16 -> 0 <= base < 2 ^ 32 -> 0 <= lim < 2 ^ 32 -> 0 <= dpl < 4 ->
  segment_of (pack (seg_fields (SEG type base lim dpl))) =
  Some (mksegment base (lim / 4096 * 4096 + 4095) type true dpl true).
Proof.
  intros Ht Hb Hl Hd. unfold segment_of.
  pose proof (land_bound (Z.shiftr lim 12) 16 ltac:(lia)) as L1. pose proof (land_bound base 16 ltac:(lia)) as L2.
  pose proof (land_bound (Z.shiftr base 16) 8 ltac:(lia)) as L3. pose proof (shiftr_bound lim 28 32 Hl ltac:(lia)) as L4.
  pose proof (shiftr_bound base 24 32 Hb ltac:(lia)) as L5. change (Z.ones 16) with 0xffff in *. change (Z.ones 8) with 0xff in *.
  change [16; 16; 8; 4; 1; 2; 1; 4; 1; 1; 1; 1; 8] with ((seg_fields (SEG type base lim dpl)).*1).
  rewrite unpack_pack.
  - cbn. rewrite !u32_small by lia. f_equal. rewrite split_base by done.
    f_equal. change (2 ^ 16) with 65536. assert (E : Z.land (Z.shiftr lim 12) 65535 + 65536 * Z.shiftr lim 28 = lim / 4096); [|by rewrite E].
    change 65535 with (Z.ones 16). rewrite land_low, !Z.shiftr_div_pow2 by lia. change (2 ^ 12) with 4096.
    pose proof (Z.div_mod (lim / 4096) (2 ^ 16) ltac:(lia)) as D. rewrite Z.div_div in D by lia. change (4096 * 2 ^ 16) with (2 ^ 28) in D. lia.
  - unfold seg_fields, SEG. cbn [lim_15_0 base_15_0 base_23_16 sd_type sd_s sd_dpl sd_p lim_19_16 avl rsv1 db sd_g base_31_24].
    rewrite !u32_small by lia. repeat (apply Forall_cons_2; [split; cbn [fst snd]; lia|]). apply Forall_nil_2.
Qed.

(** The tables are where the operands of lgdt and lidt say. *)
Lemma table_view p size : 0 <= p < 2 ^ 32 -> 0 < size <= 2 ^ 16 -> table_of (table_operand p size) = Some (p, size - 1).
Proof.
  intros Hp Hs. unfold table_operand, table_of. rewrite (u32_small p) by lia. unfold u16.
  pose proof (shiftr_bound p 16 32 Hp ltac:(lia)) as L. change (2 ^ (32 - 16)) with (2 ^ 16) in L.
  rewrite (Z.mod_small (size - 1)), (Z.mod_small (Z.shiftr p 16)) by lia. rewrite <- (split_16 p Hp) at 3.
  change 0xffff with (Z.ones 16). by rewrite land_low by lia.
Qed.

(** After seginit() the kernel and the user have code and data segments that cover
    all 4 GB, and only the privilege levels differ. *)
Theorem seginit_flat gdt i : length gdt = 6%nat -> (1 <= i <= 4)%nat ->
  exists d, seginit gdt !! i = Some d /\
    segment_of (pack (seg_fields d)) = Some (mksegment 0 (2 ^ 32 - 1) (if Nat.odd i then 10 else 2) true (if (i <=? 2)%nat then 0 else 3) true).
Proof.
  intros Hl Hi. do 6 (destruct gdt as [|? gdt]; [done|]). destruct gdt; [|done].
  assert (i = 1 \/ i = 2 \/ i = 3 \/ i = 4)%nat as [-> |[-> |[-> | ->]]] by lia;
    (eexists; split; [reflexivity|]); (rewrite seg_view by (vm_compute; split; congruence)); reflexivity.
Qed.

Lemma seginit_flat_witness : exists d, seginit (replicate 6 gdt_null) !! 3%nat = Some d /\
  segment_of (pack (seg_fields d)) = Some (mksegment 0 (2 ^ 32 - 1) 10 true 3 true).
Proof. apply (seginit_flat (replicate 6 gdt_null) 3); [done|lia]. Defined.

Lemma seg_view_witness : segment_of (pack (seg_fields (SEG 10 0 0xffffffff 3))) = Some (mksegment 0 (2 ^ 32 - 1) 10 true 3 true).
Proof. apply (seg_view 10 0 0xffffffff 3); lia. Defined.

(** ** The boot page table *)


Definition entrypgdir : list Z :=
  <[Z.to_nat (Z.shiftr KERNBASE 22) := Z.lor (Z.lor PTE_P PTE_W) PTE_PS]>
  (<[0%nat := Z.lor (Z.lor PTE_P PTE_W) PTE_PS]> (replicate 1024 0)).

(** The translation of a directory of 4 MB pages. *)
Definition walk4m (pgdir : list Z) (va : Z) : option Z :=
  pde ← pgdir !! Z.to_nat (PDX va);
  if (Z.land pde PTE_P =? 0) || (Z.land pde PTE_PS =? 0) then None
  else Some (Z.land pde 0xffc00000 + va mod 2 ^ 22).

(** The first 4 MB are mapped where they are and at KERNBASE, nothing else is. *)
Theorem entrypgdir_maps va : 0 <= va < 2 ^ 32 ->
  walk4m entrypgdir va =
  if va <? 2 ^ 22 then Some va
  else if (KERNBASE <=? va) && (va <? KERNBASE + 2 ^ 22) then Some (va - KERNBASE) else None.
Proof.
  intros Hva. unfold walk4m, PDX, PDXSHIFT. rewrite u32_small by lia. change 1023 with (Z.ones 10).
  rewrite land_low, Z.shiftr_div_pow2 by lia. pose proof (Z.div_mod va (2 ^ 22) ltac:(lia)) as D.
  pose proof (Z.mod_pos_bound va (2 ^ 22) ltac:(lia)) as Hm.
  assert (Hi : 0 <= va / 2 ^ 22 < 1024) by (split; [apply Z.div_pos|apply Z.div_lt_upper_bound]; lia).
  rewrite (Z.mod_small (va / 2 ^ 22)) by (change (2 ^ 10) with 1024; lia). set (q := va / 2 ^ 22) in *. unfold KERNBASE.
  assert (Hq : entrypgdir !! Z.to_nat q = Some (if (q =? 0) || (q =? 512) then 131 else 0)).
  { unfold entrypgdir. change (Z.to_nat (Z.shiftr KERNBASE 22)) with 512%nat. change (Z.lor (Z.lor PTE_P PTE_W) PTE_PS) with 131.
    destruct (Z.eqb_spec q 512) as [->|]; [rewrite orb_true_r; done|]. rewrite list_lookup_insert_ne by lia.
    destruct (Z.eqb_spec q 0) as [->|]; [done|]. rewrite list_lookup_insert_ne by lia. apply lookup_replicate_2. lia. }
  rewrite Hq. cbn [mbind option_bind]. destruct (Z.eqb_spec q 0) as [E|E]; [|destruct (Z.eqb_spec q 512) as [E'|E']].
  - destruct (Z.ltb_spec va (2 ^ 22)); [|lia]. cbn -[Z.modulo Z.pow]. f_equal. change (Z.land 131 4290772992) with 0. lia.
  - destruct (Z.ltb_spec va (2 ^ 22)); [lia|]. destruct (Z.leb_spec 2147483648 va), (Z.ltb_spec va (2147483648 + 2 ^ 22)); try lia.
    cbn -[Z.modulo Z.pow Z.sub]. f_equal. change (Z.land 131 4290772992) with 0. lia.
  - destruct (Z.ltb_spec va (2 ^ 22)); [lia|]. destruct (Z.leb_spec 2147483648 va), (Z.ltb_spec va (2147483648 + 2 ^ 22)); try done. lia.
Qed.

Lemma entrypgdir_maps_witness : walk4m entrypgdir 0x80100000 = Some 0x100000.
Proof. apply (entrypgdir_maps 0x80100000). lia. Defined.
