(* ===== verification/Init.v ===== *)
(** * User programs that fork (src/init.c, time.c, zombie.c, forktest.c, stressfs.c)

    One process is followed: fork() returns in it the pid of the child, 0 when it is
    the child, or -1.  The calls on processes are the interface [ProcSys]; exec() gives
    -1 when it returns. *)

From stdpp Require Import prelude gmap strings list.
From Stdlib Require Import ZArith Lia.
From S2P Require Import Strings Prelude Printf Fs Sysfile Sh User UserSpec.

Class ProcSys (W : Type) := {
  u_fork : W -> Z * W;
  u_wait : W -> Z * W;
  u_waitx : W -> (Z * (Z * Z)) * W;
  u_sleep : Z -> W -> Z * W;
  u_exec : list Z -> list (list Z) -> W -> option Z * W;
  u_dup : Z -> W -> Z * W;
  u_mknod : list Z -> Z -> Z -> W -> Z * W;
}.

Section Init.
Context {W : Type} `{Sys W} `{ProcSys W}.
Abbreviation P := (U W).

Definition uexec (path : list Z) (args : list (list Z)) : P Z := fun w =>
  match u_exec path args w with
  | (None, w') => Uexec path args w'
  | (Some r, w') => Uret r w'
  end.

(** ** init *)

Definition sh_argv : list (list Z) := [str "sh"].

(** [while((wpid=wait()) >= 0 && wpid != pid) printf(1, "zombie!\n");] *)
Fixpoint init_reap (fuel : nat) (pid : Z) : P unit :=
  match fuel with
  | O => uspin
  | S fuel' =>
      wpid ← call u_wait;
      if (0 <=? wpid) && negb (wpid =? pid) then uprintf 1 (line_fmt "zombie!") [] [] ;; init_reap fuel' pid
      else mret tt
  end.

Definition init_round (fuel : nat) : P unit :=
  uprintf 1 (line_fmt "init: starting sh") [] [] ;;
  pid ← call u_fork;
  if pid <? 0 then uprintf 1 (line_fmt "init: fork failed") [] [] ;; uexit else
  if pid =? 0 then _ ← uexec (str "sh") sh_argv; uprintf 1 (line_fmt "init: exec sh failed") [] [] ;; uexit
  else init_reap fuel pid.

Fixpoint init_loop (rounds fuel : nat) : P unit :=
  match rounds with O => uspin | S r => init_round fuel ;; init_loop r fuel end.

Definition init_main (rounds fuel : nat) : P unit :=
  fd ← call (u_open (str "console") O_RDWR);
  (if fd <? 0 then _ ← call (u_mknod (str "console") 1 1); _ ← call (u_open (str "console") O_RDWR); mret tt
   else mret tt) ;;
  _ ← call (u_dup 0);
  _ ← call (u_dup 0);
  init_loop rounds fuel.

(** ** time and zombie *)

Definition time_fmt : list Z :=
  str "Wait Time = %d" ++ [10] ++ str "Run Time = %d " ++ [10] ++ str "With Status %d " ++ [10].

Definition time_main (argv : list (list Z)) : P unit :=
  match tail argv with
  | [] => uprintf 1 (line_fmt "Usage: time <process>") [] [] ;; uexit
  | prog :: _ as args =>
      pid ← call u_fork;
      (if pid =? 0 then
         r ← uexec prog args;
         if r =? -1 then uprintf 1 (line_fmt "Exec %s Failed") [prog] [1] ;; uexit else mret tt
       else if 0 <? pid then
         r ← call u_waitx;
         let '(status, (a, b)) := r in
         uprintf 1 time_fmt [] [u32 a; u32 b; u32 status]
       else mret tt) ;;
      uexit
  end.

Definition zombie_main : P unit :=
  pid ← call u_fork;
  (if 0 <? pid then _ ← call (u_sleep 5); mret tt else mret tt) ;;
  uexit.

(** ** forktest *)

Definition FORKS : nat := 1000.

(** forktest has a printf() of its own, which writes the format. *)
Definition ft_printf (fd : Z) (s : list Z) : P unit := _ ← call (u_write fd s); mret tt.

(** [for(n=0; n<N; n++)]: the number of children. *)
Fixpoint fork_loop (k n : nat) : P nat :=
  match k with
  | O => mret n
  | S k' =>
      pid ← call u_fork;
      if pid <? 0 then mret n else
      if pid =? 0 then uexit else fork_loop k' (S n)
  end.

Fixpoint wait_children (n : nat) : P unit :=
  match n with
  | O => mret tt
  | S n' =>
      r ← call u_wait;
      if r <? 0 then ft_printf 1 (line_fmt "wait stopped early") ;; uexit else wait_children n'
  end.

Definition forktest : P unit :=
  ft_printf 1 (line_fmt "fork test") ;;
  n ← fork_loop FORKS 0;
  if bool_decide (n = FORKS) then ft_printf 1 (line_fmt "fork claimed to work N times!") ;; uexit else
  wait_children n ;;
  r ← call u_wait;
  if negb (r =? -1) then ft_printf 1 (line_fmt "wait got too many") ;; uexit else
  ft_printf 1 (line_fmt "fork test OK").

Definition forktest_main : P unit := forktest ;; uexit.

(** ** stressfs *)

(** [for(i = 0; i < 4; i++) if(fork() > 0) break;] *)
Fixpoint stress_fork (k : nat) (i : Z) : P Z :=
  match k with
  | O => mret i
  | S k' => pid ← call u_fork; if 0 <? pid then mret i else stress_fork k' (i + 1)
  end.

Definition stressfs_main : P unit :=
  uprintf 1 (line_fmt "stressfs starting") [] [] ;;
  i ← stress_fork 4 0;
  uprintf 1 (line_fmt "write %d") [] [i] ;;
  let path := str "stressfs" ++ [48 + i] in
  fd ← call (u_open path (Z.lor O_CREATE O_RDWR));
  ufor (seq 0 20) (fun _ => _ ← call (u_write fd (replicate 512 97)); mret tt) ;;
  _ ← call (u_close fd);
  uprintf 1 (line_fmt "read") [] [] ;;
  fd ← call (u_open path O_RDONLY);
  ufor (seq 0 20) (fun _ => _ ← call (u_read fd 512); mret tt) ;;
  _ ← call (u_close fd);
  _ ← call u_wait;
  uexit.
End Init.

(** ** init starts shells for ever

    [forks] and [waits] are the results the coming calls of fork() and wait() have in
    this process; when the children are used up wait() gives -1. *)

Class FamilyOk (W : Type) `{StreamOk W} `{ProcSys W} := {
  forks : W -> list Z;
  waits : W -> list Z;
  fam_fork w p ps : forks w = p :: ps ->
    let '(r, w') := u_fork w in
    r = p /\ forks w' = ps /\ waits w' = waits w /\ forall fd, written fd w' = written fd w;
  fam_wait w :
    let '(r, w') := u_wait w in
    r = default (-1) (head (waits w)) /\ waits w' = tail (waits w) /\ forks w' = forks w /\
    forall fd, written fd w' = written fd w;
  fam_write fd bs w : let '(_, w') := u_write fd bs w in forks w' = forks w /\ waits w' = waits w;
}.

Section Family.
Context {W : Type} `{FamilyOk W}.
Implicit Types (w : W).

Definition at_ w (fs ws out : list Z) : Prop := forks w = fs /\ waits w = ws /\ written 1 w = out.

Definition exits {A} (m : U W A) w (Q : W -> Prop) : Prop :=
  match m w with Uexit w' => Q w' | _ => False end.

Lemma exits_bind {A B} (m : U W A) (f : A -> U W B) w Q :
  uwp m w (fun a w' => exits (f a) w' Q) -> exits (m ≫= f) w Q.
Proof. unfold uwp, exits. change ((m ≫= f) w) with (match m w with Uret a w' => f a w' | Uexit w' => Uexit w' | Uexec p args w' => Uexec p args w' | Uspin => Uspin | Ucrash => Ucrash end). by destruct (m w). Qed.

Lemma exits_bind_l {A B} (m : U W A) (f : A -> U W B) w Q : exits m w Q -> exits (m ≫= f) w Q.
Proof. unfold exits. change ((m ≫= f) w) with (match m w with Uret a w' => f a w' | Uexit w' => Uexit w' | Uexec p args w' => Uexec p args w' | Uspin => Uspin | Ucrash => Ucrash end). by destruct (m w). Qed.

Lemma uwp_put bs w fs ws out (Q : Z -> W -> Prop) : at_ w fs ws out ->
  (forall r w', at_ w' fs ws (out ++ bs) -> Q r w') -> uwp (call (u_write 1 bs)) w Q.
Proof.
  intros (Hf & Hw & Ho) HQ. pose proof (st_write 1 bs w) as Hs. pose proof (fam_write 1 bs w) as Hm. unfold uwp, call.
  destruct (u_write 1 bs w) as [r w']. destruct Hs as (_ & Hs & _), Hm as [Hm1 Hm2]. apply HQ. split_and!; congruence.
Qed.

(** A message without conversions. *)
Lemma uwp_say msg bytes w fs ws out (Q : unit -> W -> Prop) : at_ w fs ws out ->
  printf (fun _ => []) (line_fmt msg) [] = Some bytes ->
  (forall w', at_ w' fs ws (out ++ bytes) -> Q tt w') -> uwp (uprintf 1 (line_fmt msg) [] []) w Q.
Proof.
  intros Ha Hp. unfold uprintf. change (fun k => default [] ([] !! Z.to_nat (k - 1))) with (fun _ : Z => @nil Z). rewrite Hp.
  change (ulift (Some bytes) ≫= ?f) with (f bytes). cbv beta. clear Hp. revert w out Ha.
  induction bytes as [|c bytes IH]; intros w out Ha HQ.
  - apply uwp_ret, HQ. by rewrite app_nil_r.
  - cbn [ufor]. apply uwp_bind, uwp_bind. eapply uwp_put; [done|]. intros _ w1 Ha1. apply uwp_ret.
    apply (IH w1 (out ++ [c])); [done|]. intros w2 Ha2. apply HQ. by rewrite <- app_assoc in Ha2.
Qed.

Lemma uwp_wait w fs ws out (Q : Z -> W -> Prop) : at_ w fs ws out ->
  (forall w', at_ w' fs (tail ws) out -> Q (default (-1) (head ws)) w') -> uwp (call u_wait) w Q.
Proof.
  intros (Hf & Hw & Ho) HQ. pose proof (fam_wait w) as Hm. unfold uwp, call. destruct (u_wait w) as [r w'].
  destruct Hm as (-> & Hm1 & Hm2 & Hm3). rewrite Hw in *. apply HQ. split_and!; rewrite ?Hm3; congruence.
Qed.

Lemma uwp_fork w p fs ws out (Q : Z -> W -> Prop) : at_ w (p :: fs) ws out ->
  (forall w', at_ w' fs ws out -> Q p w') -> uwp (call u_fork) w Q.
Proof.
  intros (Hf & Hw & Ho) HQ. pose proof (fam_fork w p fs Hf) as Hm. unfold uwp, call. destruct (u_fork w) as [r w'].
  destruct Hm as (-> & Hm1 & Hm2 & Hm3). apply HQ. split_and!; rewrite ?Hm3; congruence.
Qed.

Definition zombies (n : nat) : list Z := mjoin (replicate n (line_fmt "zombie!")).

(** Orphans are reaped with a message each, until the shell is. *)
Lemma init_reap_run fuel pid zs w fs ws out :
  at_ w fs (zs ++ pid :: ws) out -> pid ∉ zs -> Forall (fun z => 0 <= z) zs -> (length zs < fuel)%nat ->
  uwp (init_reap fuel pid) w (fun _ w' => at_ w' fs ws (out ++ zombies (length zs))).
Proof.
  revert zs w out. induction fuel as [|fuel IH]; intros zs w out Ha Hn Hz Hf; [lia|]. cbn [init_reap]. apply uwp_bind.
  eapply uwp_wait; [done|]. intros w1 Ha1. destruct zs as [|z zs]; cbn [head tail app] in *.
  - change (default (-1) (Some pid)) with pid. rewrite Z.eqb_refl, andb_false_r. apply uwp_ret. unfold zombies. cbn. by rewrite app_nil_r.
  - change (default (-1) (Some z)) with z. apply not_elem_of_cons in Hn as [Hne Hn]. apply Forall_cons in Hz as [Hz0 Hz].
    destruct (Z.leb_spec 0 z); [|lia]. destruct (Z.eqb_spec z pid); [congruence|]. cbn [negb andb length] in *.
    apply uwp_bind. eapply uwp_say; [done|reflexivity|]. intros w2 Ha2.
    eapply uwp_mono; [apply (IH zs w2 _ Ha2); [done..|lia]|]. intros ? w3 Ha3. unfold zombies in *. cbn [replicate mjoin list_join].
    by rewrite <- app_assoc in Ha3.
Qed.

Definition said_start : list Z := line_fmt "init: starting sh".

Lemma init_round_run fuel pid zs w fs ws out :
  at_ w (pid :: fs) (zs ++ pid :: ws) out -> 0 < pid -> pid ∉ zs -> Forall (fun z => 0 <= z) zs -> (length zs < fuel)%nat ->
  uwp (init_round fuel) w (fun _ w' => at_ w' fs ws (out ++ said_start ++ zombies (length zs))).
Proof.
  intros Ha Hp Hn Hz Hf. unfold init_round. apply uwp_bind. eapply uwp_say; [done|reflexivity|]. intros w1 Ha1.
  apply uwp_bind. eapply uwp_fork; [done|]. intros w2 Ha2. destruct (Z.ltb_spec pid 0); [lia|]. destruct (Z.eqb_spec pid 0); [lia|].
  eapply uwp_mono; [by apply (init_reap_run fuel pid zs w2 fs ws _ Ha2)|]. intros ? w3 Ha3. by rewrite <- app_assoc in Ha3.
Qed.
End Family.

(** A shell, and the orphans that end before it. *)
Definition shell_ok (fuel : nat) (s : Z * list Z) : Prop :=
  0 < s.1 /\ s.1 ∉ s.2 /\ Forall (fun z => 0 <= z) s.2 /\ (length s.2 < fuel)%nat.

(** init starts a shell, reaps whatever ends before it and starts the next one when
    it ends; init ends only when fork() fails. *)
Theorem init_respawns {W} `{FamilyOk W} rounds fuel (shells : list (Z * list Z)) (w : W) :
  forks w = (fst <$> shells) ++ [-1] -> waits w = mjoin ((fun s => s.2 ++ [s.1]) <$> shells) ->
  Forall (shell_ok fuel) shells -> (length shells < rounds)%nat ->
  exits (init_loop rounds fuel) w (fun w' => written 1 w' =
    written 1 w ++ mjoin ((fun s => said_start ++ zombies (length s.2)) <$> shells) ++
    said_start ++ line_fmt "init: fork failed").
Proof.
  intros Hf Hw Hs Hr. assert (Ha : at_ w ((fst <$> shells) ++ [-1]) (mjoin ((fun s => s.2 ++ [s.1]) <$> shells)) (written 1 w)) by done.
  clear Hf Hw. revert Ha. generalize (written 1 w) as out. revert rounds w Hr. induction Hs as [|s shells (Hp & Hn & Hz & Hl) _ IH];
    intros [|r] w Hr out Ha; cbn [length] in Hr; try lia; cbn [init_loop].
  - apply exits_bind_l. unfold init_round. apply exits_bind. eapply uwp_say; [done|reflexivity|]. intros w1 Ha1.
    apply exits_bind. eapply uwp_fork; [exact Ha1|]. intros w2 Ha2. change (-1 <? 0) with true. cbv iota.
    apply exits_bind. eapply uwp_say; [done|reflexivity|]. intros w3 (_ & _ & Ho). change (written 1 w3 = out ++ [] ++ said_start ++ line_fmt "init: fork failed").
    rewrite Ho. by rewrite <- app_assoc.
  - cbn [fmap list_fmap app mjoin list_join] in Ha. rewrite <- (app_assoc s.2) in Ha. cbn [app] in Ha.
    apply exits_bind. eapply uwp_mono; [by apply (init_round_run fuel s.1 s.2 w _ _ _ Ha)|]. intros ? w1 Ha1.
    specialize (IH r w1 ltac:(lia) _ Ha1). unfold exits in *. destruct (init_loop r fuel w1); try done.
    rewrite IH. cbn [fmap list_fmap mjoin list_join]. by rewrite <- !app_assoc.
Qed.

(** ** A family with given results *)

Record family := mkfamily { f_forks : list Z; f_waits : list Z; f_world : world }.

Definition in_world {A} (f : world -> A * world) (w : family) : A * family :=
  let '(r, x) := f (f_world w) in (r, mkfamily (f_forks w) (f_waits w) x).

#[export] Instance family_sys : Sys family := {|
  u_open := fun p m => in_world (u_open p m);
  u_read := fun fd n => in_world (u_read fd n);
  u_write := fun fd bs => in_world (u_write fd bs);
  u_close := fun fd => in_world (u_close fd);
  u_fstat := fun fd => in_world (u_fstat fd);
  u_unlink := fun p => in_world (u_unlink p);
  u_link := fun p q => in_world (u_link p q);
  u_mkdir := fun p => in_world (u_mkdir p);
  u_kill := fun p => in_world (u_kill p);
  u_setPriority := fun p q => in_world (u_setPriority p q);
  u_cps := in_world u_cps;
|}.

#[export, refine] Instance family_streams : StreamOk family := {|
  pending := fun fd w => pending fd (f_world w);
  written := fun fd w => written fd (f_world w);
|}.
Proof.
  - intros fd n w ps Hn Hp Hne. pose proof (st_read fd n (f_world w) ps Hn Hp Hne) as Hr.
    cbn [u_read family_sys]. unfold in_world. by destruct (u_read fd n (f_world w)) as [[r bs] x].
  - intros fd bs w. pose proof (st_write fd bs (f_world w)) as Hr.
    cbn [u_write family_sys]. unfold in_world. by destruct (u_write fd bs (f_world w)) as [r x].
Defined.

#[export] Instance family_proc : ProcSys family := {|
  u_fork := fun w => (default (-1) (head (f_forks w)), mkfamily (tail (f_forks w)) (f_waits w) (f_world w));
  u_wait := fun w => (default (-1) (head (f_waits w)), mkfamily (f_forks w) (tail (f_waits w)) (f_world w));
  u_waitx := fun w => ((default (-1) (head (f_waits w)), (0, 0)), mkfamily (f_forks w) (tail (f_waits w)) (f_world w));
  u_sleep := fun _ w => (0, w);
  u_exec := fun _ _ w => (None, w);
  u_dup := fun _ w => (0, w);
  u_mknod := fun _ _ _ w => (0, w);
|}.

#[export, refine] Instance family_ok : FamilyOk family := {| forks := f_forks; waits := f_waits |}.
Proof.
  - intros w p ps Hf. cbn. by rewrite Hf.
  - intros w. done.
  - intros fd bs w. done.
Defined.

Definition demo_family : family := mkfamily [5; 9; -1] [7; 5; 9] (mkworld [] ∅).

Lemma init_respawns_witness :
  exits (init_loop 3 2) demo_family (fun w' => written 1 w' =
    written 1 demo_family ++ mjoin ((fun s => said_start ++ zombies (length s.2)) <$> [(5, [7]); (9, [])]) ++
    said_start ++ line_fmt "init: fork failed").
Proof.
  apply (init_respawns 3 2 [(5, [7]); (9, [])] demo_family).
  - reflexivity.
  - reflexivity.
  - repeat constructor; cbn; try lia; rewrite ?list_elem_of_singleton; try lia; apply not_elem_of_nil.
  - cbn. lia.
Defined.
